(* ===== verification/_CoqProject ===== *)
-Q . S2P
Prelude.v
RingBuffer.v
RingConcurrent.v
Mpsc.v
Locks.v
YQueue.v
Mailbox.v
SocketOps.v
BackupItem.v
Operators.v
Backup.v
BackupSpec.v
ComputeThread.v
Callbacks.v
Worker.v
Trace.v
Hash.v
CountMin.v
CountMinApp.v
Msg.v
Codec.v
Encoder.v
Mechanism.v
StreamEngine.v
EngineProofs.v
EngineOutput.v
TcpAddress.v
Config.v
BackupServer.v
Options.v
Poller.v
Listener.v
Connecter.v
NetThreads.v
UpLoop.v
EngineLoop.v
SenderLoop.v
Wiring.v
ZooKeeper.v
ZkClients.v
Programs.v
