(* ===== verification/Prelude.v ===== *)
(** * AF-Stream: a verification development

    AF-Stream is a distributed stream processing system with approximate fault
    tolerance.  A worker process runs an up thread, which reads a trace or
    receives records from upstream workers, several compute threads, which run
    the user's operators, and a down thread, which sends results on.  The compute
    threads keep operators whose state is backed up to a backup server only when
    it diverges by more than a threshold from what the server has.  Threads
    exchange items through lock-free rings, talk to the worker through mailboxes,
    and workers talk to each other through a ZMTP engine derived from ZeroMQ.

    This library models those parts as executable functions and step relations
    (paths are relative to src/) and proves what makes them correct.  [Prelude]
    holds what all files share: the [result] type of code that can stop the
    process, machine integers, byte strings and loops over lists.

    ** Files and what they model

    - Rings and channels.  [RingBuffer]: the single-producer ring
      (src/queues/zerocopy_ringbuffer.hpp) as functions on its fields;
      [RingConcurrent]: the same operations cut into their accesses to shared
      memory, interleaved; [Mpsc]: the many-to-one channels with slot recycling
      (src/queues/mpsc_*.hpp).
    - Command channel.  [Locks]: the mutex and the pointers and counters under it
      (src/control_channel/mutex.hpp, atomic_ptr.hpp, src/net/atomic_counter.hpp),
      access by access; [YQueue]: the chunked queue with explicit addresses
      (src/control_channel/yqueue.hpp); [Mailbox]: the lock-free pipe (ypipe.hpp),
      the eventfd signaler and the mailbox, with concurrent senders and receiver;
      [SocketOps]: the life of a signaler on its descriptor (signaler.cpp) and the
      helpers that set up sockets (src/net/tcp.cpp, src/control_channel/ip.cpp).
    - Fault tolerance.  [BackupItem]: the items sent to and from the server as
      bytes (src/fault_tolerance/backup_item.hpp, recovery_item.hpp); [Operators]:
      the operator interface and NumericArray_MAX, _L1, _L2 (src/operator);
      [Backup]: server, client and operator tracker; [BackupSpec]: the map from
      operators to key-value pairs they implement; [BackupServer]: the server's
      program, from its arguments to the last good-bye.
    - Threads.  [ComputeThread]: the main loop of a compute thread
      (src/thread/compute_thread.hpp) with its backups; [Callbacks]: the callbacks
      between the engines and the threads; [Worker]: the protocol between
      Worker::Start and thread_fun; [Trace]: adapters, router and trace thread;
      [Wiring]: the constructors of the threads and what Worker::Start does before
      it releases them (src/thread/worker.hpp): ids, affinity, rings, channels.
    - The count-min application (apps/count_min).  [Hash]: its hash functions;
      [CountMin]: sketch, window item and threads; [CountMinApp]: windows across
      threads; [Config]: the configuration object (src/config.cpp) on top of the
      ini parser; [Programs]: the main functions, written against the type class
      [Configuration] and proved against its laws, which [Config] discharges.
    - Network.  [Msg]: reference-counted messages (src/net/msg.cpp); [Codec]: wire
      integers and the v2 decoder; [Encoder]: the v2 encoder; [Mechanism]: the
      NULL handshake; [StreamEngine] and [EngineProofs]: the connection engine
      (src/net/stream_engine.cpp) on a scripted socket; [EngineOutput]: its output
      side, against what it relies on of the out-callback ([OutCallbackSpec]).
    - Sockets.  [TcpAddress]: addresses, their text and address filters
      (src/net/tcp_address.cpp); [Options]: socket options (options.cpp);
      [Poller]: the event loop (poller_base.cpp, epoll.cpp) with the kernel's
      interest list in its state and the event sinks as a type class,
      [PollEvents], whose contract is [PollEventsSpec]; [Listener]: the listening
      socket (tcp_listener.cpp); [Connecter]: the outgoing connections
      (tcp_connecter.cpp), an instance of both classes; [NetThreads]: the
      initialisation of the network threads (src/thread/up_thread_net.hpp and
      down_thread_net.hpp); [UpLoop]: the listener and the engines of accepted
      connections as event sinks on the poller of the up thread; [EngineLoop]: the
      engines of [StreamEngine] as event sinks, for everything that makes their
      events return ([EngineSafe]), with engines that receive as an instance, and
      [SenderLoop] with engines that send as another.
    - Coordination.  [ZooKeeper]: the calls of the ZooKeeper library as a type
      class, with what include/zookeeper.h documents of them as a second one;
      [ZkClients]: the clients of the controller and of the workers and the
      controller's command loop (src/controller/zk_controller_client.hpp,
      zk_worker_client.hpp, main.cpp), interleaved call by call.

    ** What the theorems show

    - Recovery: after any run of a compute thread in which every item updates an
      operator once, what the backup server returns differs from the lost state by
      at most the operator's threshold (C1, C2); backups are stored and come back
      exactly (C3-C5); the server's program ends with the last good-bye and not
      before (C6); a backup request is served before its thread goes on, and the
      worker protocol is safe and can always be completed ([Worker]).
    - Start: a worker starts exactly when it was built consistently, and otherwise
      stops at the check the code makes (C7); a started worker has every thread
      connected to the right rings and channels, whose slots are conserved from
      then on (C8, C9); the programs of the application start such a worker for
      every complete configuration ([Programs]), and the configuration object holds
      the worker's section exactly when its name fits ([Config]).
    - Delivery: the rings are FIFO and race free under every interleaving, the
      channels conserve their slots, mailboxes deliver every command in order
      without a lost wake-up; the callbacks and the trace thread deliver records
      and finish items as their specifications say.
    - Shared variables: callers cannot tell the locked operations from operations of
      one step, which is how the other files use them; a signaler with its
      descriptor is the counter [Mailbox] works with.
    - Network: records that wait at a sending engine reach the in-callback of the
      receiving one, once and in order, however writes and reads are cut up;
      messages are neither leaked nor used after they were freed; the
      greeting and the handshake complete; through the event loop, the records of
      any number of connections reach the in-callback they share, those of each
      peer once and in order, and no connection is given up before; and the
      records of any number of sending connections are given to their sockets in
      order, none lost before the peer closes.
    - Sockets: the event loop never touches a deleted entry or fails an assertion
      as long as the sinks keep their contract; the connecters keep it, so no
      destination is ever lost, and so do the listener and its engines, so the up
      thread goes on accepting; reconnection backs off exponentially; filters
      accept exactly the addresses of their networks; endpoints and options read
      back as they were written, and options stay in range.
    - Coordination: a worker the controller watches is always removed when it
      finishes; one that finishes before it is watched waits forever.
    - Application: the sketch never underestimates, windows are merged exactly.
    - Errors: a property (the worker nobody watches) and several lemmas state
      what the code does wrong on inputs it accepts (the tail of a connection that
      is dropped, a ring flushed by a third thread, a frame length that wraps
      around, a window that overflows its item, a trace file that never ends, an
      unchecked worker id, a signaler that is deaf after a fork).

    ** Modelling choices

    Code that can stop the process returns a [result]; a busy wait that only
    another thread can end is [WouldBlock] in sequential models and a step that is
    not enabled in concurrent ones.  Integers keep their width where the code can
    reach its limits.  Concurrent models take memory to be sequentially
    consistent: the barrier macros are empty on x86 and the indices volatile.
    [malloc] succeeds unless a model says otherwise, and returns any free address
    where addresses are compared.  Loops that are not structural carry fuel: the
    decoder's drive loop 4 turns per call and the encoder's 5, as many states as
    one call can pass; the greeting 64 reads, one per byte at worst; the output
    loop as many turns as the buffer has bytes (8192); the adapters one turn per
    byte or record; the destructor of a queue one per chunk; the timers of the event
    loop one turn per timer and one more; the [close] of a signaler one per
    millisecond of its limit.  The kernel under the event loop answers
    from an oracle that is universally quantified; only what it may not do is
    assumed (a clock set back, an error [connect] does not tolerate).  The theorems about
    these functions show that the fuel is enough.

    ** Not modelled

    - Code nothing builds: stream_engine_orig.cpp, cm_sketch.cpp (a copy of
      cm_sketch.hpp), the variants of the trace thread that need files missing
      from the repository, and the hash-map operators and DownThreadMPSC, which do
      not compile when instantiated.
    - Test programs and the shell of the ZooKeeper distribution (cli.c).
    - The libraries: iniparser, ZeroMQ and ZooKeeper are parameters with what their
      interface documents.
    - The signal mask, logging and statistics, and the finish handlers that only
      report.
    - The greeting and the end of the output on the event loop: [EngineLoop] and
      [SenderLoop] have engines after the handshake, of which the second send
      without end; in [Connecter] and [UpLoop] an engine is any client of its own
      handle.
    - The loss of the connection to ZooKeeper: the theorems take its calls to be
      answered, the clients handle every answer. *)
From stdpp Require Import base numbers list gmap.
From Stdlib Require Import ZArith Lia.

#[global] Open Scope Z_scope.

(** ** Outcomes of C++ code that can stop *)

(** How a call can end without returning to its caller: a failed
    [afs_assert]/[zmq_assert]/[errno_assert], a [LOG_ERR] (which exits), a
    thrown exception nobody catches, an access through a null pointer or past
    the end of an object, a read of an object nothing was stored in, an integer
    division by zero, and a busy wait that cannot end while the other threads
    stand still. *)
Inductive failure :=
| AssertFailed
| ExitFailure
| UncaughtException
| NullDeref
| OutOfBounds
| Uninitialised
| DivByZero
| WouldBlock.

#[global] Instance failure_eq_dec : EqDecision failure.
Proof. solve_decision. Defined.

(** A fallible computation: a value, or the way the process stopped. *)
Inductive result (A : Type) :=
| Ok (a : A)
| Stop (e : failure).

Arguments Ok {A} a.
Arguments Stop {A} e.

#[global] Instance result_ret : MRet result := fun A a => Ok a.
#[global] Instance result_bind : MBind result := fun A B f m =>
  match m with Ok a => f a | Stop e => Stop e end.
#[global] Instance result_fmap : FMap result := fun A B f m =>
  match m with Ok a => Ok (f a) | Stop e => Stop e end.

#[global] Instance Ok_inj {A} : Inj (=) (=) (@Ok A).
Proof. by intros a b [= ->]. Qed.

(** [afs_assert (x, ...)] and [zmq_assert (x)]. *)
Definition afs_assert (b : bool) : result unit :=
  if b then Ok tt else Stop AssertFailed.

(** [v[i]] for a valid access, and the undefined behaviour otherwise. *)
Definition at_index {A} (l : list A) (i : Z) : result A :=
  if (i <? 0)%Z then Stop OutOfBounds
  else match l !! Z.to_nat i with Some a => Ok a | None => Stop OutOfBounds end.

(** [v[i] = a]. *)
Definition set_index {A} (l : list A) (i : Z) (a : A) : result (list A) :=
  if ((0 <=? i) && (i <? Z.of_nat (length l)))%Z
  then Ok (<[Z.to_nat i := a]> l) else Stop OutOfBounds.

Lemma at_index_ok {A} (l : list A) i a :
  at_index l i = Ok a <-> 0 <= i /\ l !! Z.to_nat i = Some a.
Proof.
  unfold at_index. destruct (Z.ltb_spec i 0).
  - split; [done | lia].
  - destruct (l !! Z.to_nat i); split; [intros [= ->]; auto | intros [_ [= ->]]; auto | done | by intros [_ ?]].
Qed.

Lemma at_index_total {A} (l : list A) i :
  0 <= i < Z.of_nat (length l) -> exists a, at_index l i = Ok a.
Proof.
  intros Hi. destruct (lookup_lt_is_Some_2 l (Z.to_nat i)) as [a Ha]; [lia|].
  exists a. apply at_index_ok. split; [lia | done].
Qed.

Lemma set_index_ok {A} (l : list A) i a :
  0 <= i < Z.of_nat (length l) -> set_index l i a = Ok (<[Z.to_nat i := a]> l).
Proof.
  intros Hi. unfold set_index.
  by rewrite (proj2 (Z.leb_le 0 i)), (proj2 (Z.ltb_lt i _)) by lia.
Qed.

(** ** Machine integers *)

(** The value of an expression converted to an unsigned [w]-bit type. *)
Definition unsigned_of (w x : Z) : Z := x mod 2 ^ w.

(** The value of an expression converted to a signed [w]-bit type (two's
    complement). *)
Definition signed_of (w x : Z) : Z := (x + 2 ^ (w - 1)) mod 2 ^ w - 2 ^ (w - 1).

Abbreviation u8 := (unsigned_of 8).
Abbreviation u16 := (unsigned_of 16).
Abbreviation u32 := (unsigned_of 32).
Abbreviation u64 := (unsigned_of 64).
Abbreviation s32 := (signed_of 32).
Abbreviation s64 := (signed_of 64).

Definition in_unsigned (w x : Z) : Prop := 0 <= x < 2 ^ w.
Definition in_signed (w x : Z) : Prop := - 2 ^ (w - 1) <= x < 2 ^ (w - 1).

Lemma unsigned_of_range w x : 0 <= w -> in_unsigned w (unsigned_of w x).
Proof. intros. apply Z.mod_pos_bound. lia. Qed.

Lemma unsigned_of_small w x : in_unsigned w x -> unsigned_of w x = x.
Proof. intros. by apply Z.mod_small. Qed.

Lemma unsigned_of_idemp w x : unsigned_of w (unsigned_of w x) = unsigned_of w x.
Proof. unfold unsigned_of. apply Zmod_mod. Qed.

Lemma pow_split w : 0 < w -> 2 ^ w = 2 * 2 ^ (w - 1).
Proof. intros. rewrite <- (Z.pow_succ_r 2 (w - 1)) by lia. f_equal. lia. Qed.

Lemma signed_of_range w x : 0 < w -> in_signed w (signed_of w x).
Proof.
  intros Hw. unfold in_signed, signed_of. pose proof (pow_split w Hw).
  pose proof (Z.mod_pos_bound (x + 2 ^ (w - 1)) (2 ^ w)). lia.
Qed.

Lemma signed_of_small w x : 0 < w -> in_signed w x -> signed_of w x = x.
Proof.
  intros Hw Hx. unfold in_signed, signed_of in *. pose proof (pow_split w Hw).
  rewrite Z.mod_small; lia.
Qed.

(** Converting to unsigned and back to signed keeps a signed value. *)
Lemma signed_of_unsigned w x :
  0 < w -> signed_of w (unsigned_of w x) = signed_of w x.
Proof.
  intros Hw. unfold signed_of, unsigned_of. f_equal.
  rewrite Zplus_mod_idemp_l. done.
Qed.

(** Two's complement keeps the congruence class. *)
Lemma signed_of_congr w x : 0 < w -> (signed_of w x - x) mod 2 ^ w = 0.
Proof.
  intros Hw. unfold signed_of.
  replace ((x + 2 ^ (w - 1)) mod 2 ^ w - 2 ^ (w - 1) - x)
    with ((x + 2 ^ (w - 1)) mod 2 ^ w - (x + 2 ^ (w - 1))) by lia.
  rewrite Zminus_mod, Zmod_mod, Z.sub_diag. done.
Qed.

(** Bit fields that do not overlap add up. *)
Lemma lor_shiftl_add a b n : 0 <= n -> 0 <= b < 2 ^ n -> Z.lor (Z.shiftl a n) b = a * 2 ^ n + b.
Proof.
  intros Hn Hb.
  assert (Hland : Z.land (Z.shiftl a n) b = 0).
  { apply Z.bits_inj'. intros k Hk. rewrite Z.land_spec, Z.bits_0.
    destruct (Z.lt_ge_cases k n) as [Hlt|Hge].
    - by rewrite Z.shiftl_spec_low.
    - rewrite <- (Z.mod_small b (2 ^ n) Hb), (Z.mod_pow2_bits_high b n k) by lia.
      apply andb_false_r. }
  rewrite <- Z.lxor_lor, <- Z.add_nocarry_lxor by done. by rewrite Z.shiftl_mul_pow2.
Qed.

(** Two indices in a window shorter than the modulus are equal when their
    residues are. *)
Lemma mod_window_inj N a b :
  0 < N -> - N < a - b < N -> a mod N = b mod N -> a = b.
Proof.
  intros HN Hab Heq.
  pose proof (Z.div_mod a N ltac:(lia)). pose proof (Z.div_mod b N ltac:(lia)).
  assert (a / N = b / N) by nia. nia.
Qed.

(** ** Byte strings *)

(** A byte is an integer in [0, 255]; [unsigned char*] memory is a list of
    them. *)
Definition is_byte (b : Z) : Prop := 0 <= b < 256.

(** The [n] bytes of an integer in memory on a little-endian machine. *)
Fixpoint le_bytes (n : nat) (x : Z) : list Z :=
  match n with
  | O => []
  | S n' => x mod 256 :: le_bytes n' (x / 256)
  end.

(** The unsigned integer stored in little-endian bytes. *)
Fixpoint le_val (l : list Z) : Z :=
  match l with
  | [] => 0
  | b :: l' => b + 256 * le_val l'
  end.

Lemma length_le_bytes n x : length (le_bytes n x) = n.
Proof. revert x. induction n; intros; simpl; auto. Qed.

Lemma le_bytes_is_byte n x : Forall is_byte (le_bytes n x).
Proof.
  revert x. induction n; intros; simpl; constructor; auto.
  unfold is_byte. apply Z.mod_pos_bound. lia.
Qed.

Lemma le_val_bytes n x : le_val (le_bytes n x) = x mod 256 ^ Z.of_nat n.
Proof.
  revert x. induction n as [|n IH]; intros x; simpl le_bytes; simpl le_val.
  - by rewrite Z.mod_1_r.
  - rewrite IH, Nat2Z.inj_succ, Z.pow_succ_r by lia.
    rewrite (Z.rem_mul_r x 256) by lia. lia.
Qed.

Lemma le_val_range l :
  Forall is_byte l -> 0 <= le_val l < 256 ^ Z.of_nat (length l).
Proof.
  induction 1 as [|b l Hb _ IH]; simpl; [lia|].
  rewrite Nat2Z.inj_succ, Z.pow_succ_r by lia. unfold is_byte in Hb. lia.
Qed.

(** [memcpy (buf + off, l, length l)], which must stay inside [buf]. *)
Definition mem_write {A} (buf : list A) (off : Z) (l : list A) : result (list A) :=
  if ((0 <=? off) && (off + Z.of_nat (length l) <=? Z.of_nat (length buf)))%Z
  then Ok (take (Z.to_nat off) buf ++ l ++ drop (Z.to_nat off + length l) buf)
  else Stop OutOfBounds.

(** The [n] bytes at [buf + off]. *)
Definition mem_read (buf : list Z) (off n : Z) : result (list Z) :=
  if ((0 <=? off) && (0 <=? n) && (off + n <=? Z.of_nat (length buf)))%Z
  then Ok (take (Z.to_nat n) (drop (Z.to_nat off) buf))
  else Stop OutOfBounds.

Lemma mem_write_ok {A} (buf : list A) off l :
  0 <= off -> off + Z.of_nat (length l) <= Z.of_nat (length buf) ->
  mem_write buf off l =
    Ok (take (Z.to_nat off) buf ++ l ++ drop (Z.to_nat off + length l) buf).
Proof.
  intros. unfold mem_write.
  by rewrite (proj2 (Z.leb_le 0 off)), (proj2 (Z.leb_le _ (Z.of_nat (length buf)))) by lia.
Qed.

Lemma mem_read_ok buf off n :
  0 <= off -> 0 <= n -> off + n <= Z.of_nat (length buf) ->
  mem_read buf off n = Ok (take (Z.to_nat n) (drop (Z.to_nat off) buf)).
Proof.
  intros. unfold mem_read.
  by rewrite (proj2 (Z.leb_le 0 off)), (proj2 (Z.leb_le 0 n)),
    (proj2 (Z.leb_le _ (Z.of_nat (length buf)))) by lia.
Qed.

(** A read inside the middle part of a buffer. *)
Lemma mem_read_app_mid l1 l2 l3 off n :
  off = Z.of_nat (length l1) -> n = Z.of_nat (length l2) ->
  mem_read (l1 ++ l2 ++ l3) off n = Ok l2.
Proof.
  intros -> ->. rewrite mem_read_ok; rewrite ?length_app; try lia.
  by rewrite !Nat2Z.id, drop_app_length, take_app_length.
Qed.

(** Read an [n]-byte unsigned integer and go on after it. *)
Definition get_uint (n : nat) (l : list Z) : Z * list Z := (le_val (take n l), drop n l).

Lemma get_uint_app n x r :
  in_unsigned (8 * Z.of_nat n) x -> get_uint n (le_bytes n x ++ r) = (x, r).
Proof.
  intros Hx. unfold get_uint. rewrite take_app_length', drop_app_length' by (by rewrite length_le_bytes).
  rewrite le_val_bytes. replace (256 ^ Z.of_nat n) with (2 ^ (8 * Z.of_nat n)).
  - by rewrite Z.mod_small.
  - rewrite Z.pow_mul_r by lia. done.
Qed.

(** ** Lists *)

(** [for (i = 0; i < n; i++)] over the indices as integers. *)
Definition indices (n : nat) : list Z := Z.of_nat <$> seq 0 n.

(** A loop that threads a state and may stop the process. *)
Fixpoint foldM {A S} (f : S -> A -> result S) (l : list A) (s : S) : result S :=
  match l with
  | [] => Ok s
  | a :: l' => f s a ≫= foldM f l'
  end.

Lemma foldM_app {A S} (f : S -> A -> result S) l1 l2 s :
  foldM f (l1 ++ l2) s = foldM f l1 s ≫= foldM f l2.
Proof.
  revert s. induction l1 as [|a l1 IH]; intros s; simpl; [done|].
  destruct (f s a); simpl; auto.
Qed.

(** An invariant every step re-establishes holds after the loop, which then
    does not stop the process. *)
Lemma foldM_inv {A S} (I : list A -> S -> Prop) (f : S -> A -> result S) l s :
  I [] s ->
  (forall done a s, I done s -> (done ++ [a]) `prefix_of` l ->
     exists s', f s a = Ok s' /\ I (done ++ [a]) s') ->
  exists s', foldM f l s = Ok s' /\ I l s'.
Proof.
  intros H0 Hstep.
  enough (G : forall rest pre s, pre ++ rest = l -> I pre s ->
            exists s', foldM f rest s = Ok s' /\ I l s') by (by apply (G l [])).
  induction rest as [|a rest IH]; intros pre st Hl HI; simpl.
  - rewrite app_nil_r in Hl. subst. eauto.
  - destruct (Hstep pre a st HI) as (s' & Hf & HI').
    { exists rest. rewrite <- Hl, <- app_assoc. done. }
    rewrite Hf. simpl. apply (IH (pre ++ [a])); [|done].
    rewrite <- app_assoc. done.
Qed.

(** The indices a loop has done are the first ones. *)
Lemma indices_prefix ds i n :
  (ds ++ [i]) `prefix_of` indices n -> i = Z.of_nat (length ds) /\ (length ds < n)%nat.
Proof.
  intros Hpre. pose proof (prefix_length _ _ Hpre) as Hl. unfold indices in Hl.
  rewrite length_app, length_fmap, length_seq in Hl. simpl in Hl. split; [|lia].
  destruct Hpre as [rest Hrest]. assert (Hlk : indices n !! length ds = Some i).
  { rewrite Hrest, <- app_assoc. by rewrite lookup_app_r, Nat.sub_diag by lia. }
  unfold indices in Hlk. rewrite list_lookup_fmap, lookup_seq_lt in Hlk by lia. simpl in Hlk. congruence.
Qed.

(** Replacing one part of a concatenation leaves the rest. *)
Lemma concat_insert_perm {A} (l : list (list A)) i x y :
  l !! i = Some x ->
  exists rest, concat l ≡ₚ x ++ rest /\ concat (<[i := y]> l) ≡ₚ y ++ rest.
Proof.
  revert i. induction l as [|a l IH]; intros [|i] Hi; simpl in *; try done.
  - injection Hi as ->. by exists (concat l).
  - destruct (IH i Hi) as (rest & H1 & H2). exists (a ++ rest). split.
    + rewrite H1. apply Permutation_app_swap_app.
    + rewrite H2. apply Permutation_app_swap_app.
Qed.

Lemma elem_of_concat {A} (x : A) (ls : list (list A)) : x ∈ concat ls <-> exists l, l ∈ ls /\ x ∈ l.
Proof.
  rewrite list_elem_of_In, in_concat. by setoid_rewrite list_elem_of_In.
Qed.

(** A function is injective on a list whose images are distinct. *)
Lemma NoDup_fmap_inj_in {A B} (f : A -> B) (l : list A) x y :
  NoDup (f <$> l) -> x ∈ l -> y ∈ l -> f x = f y -> x = y.
Proof.
  intros Hnd Hx Hy Hf. apply list_elem_of_lookup in Hx as [i Hi], Hy as [j Hj].
  assert (i = j) as ->.
  { apply (NoDup_lookup (f <$> l) i j (f x) Hnd); rewrite list_lookup_fmap, ?Hi, ?Hj; [done|]. simpl. by rewrite Hf. }
  congruence.
Qed.

(** Filters that agree on the elements of a list. *)
Lemma filter_ext_in {A} (P Q : A -> Prop) `{!forall x, Decision (P x)} `{!forall x, Decision (Q x)} (l : list A) :
  (forall x, x ∈ l -> P x <-> Q x) -> filter P l = filter Q l.
Proof.
  induction l as [|a l IH]; intros Hl; [done|]. rewrite !filter_cons, IH.
  - pose proof (Hl a (list_elem_of_here _ _)). destruct (decide (P a)), (decide (Q a)); tauto.
  - intros x Hx. apply Hl. by apply list_elem_of_further.
Qed.

(** A flat array of blocks of the same size. *)
Lemma length_concat_blocks {A} n (bs : list (list A)) :
  Forall (fun b => length b = n) bs -> length (concat bs) = (n * length bs)%nat.
Proof. induction 1 as [|b bs Hb _ IH]; simpl; [lia|]. rewrite length_app, IH, Hb. lia. Qed.

Lemma concat_split_block {A} n (bs : list (list A)) i b :
  Forall (fun b => length b = n) bs -> bs !! i = Some b ->
  concat bs = concat (take i bs) ++ b ++ concat (drop (S i) bs) /\
  length (concat (take i bs)) = (n * i)%nat.
Proof.
  intros Hall Hi. split.
  - rewrite <- (take_drop_middle bs i b Hi) at 1. rewrite concat_app. done.
  - rewrite (length_concat_blocks n); [|by apply Forall_take].
    rewrite length_take. apply lookup_lt_Some in Hi. nia.
Qed.

Lemma mem_read_block n h bs i b :
  Forall (fun b => length b = n) bs -> bs !! i = Some b ->
  mem_read (h ++ concat bs) (Z.of_nat (length h) + Z.of_nat n * Z.of_nat i) (Z.of_nat n) = Ok b.
Proof.
  intros Hall Hi. destruct (concat_split_block n bs i b Hall Hi) as [-> Hlen].
  rewrite app_assoc. apply mem_read_app_mid.
  - rewrite length_app, Hlen. lia.
  - by rewrite (Forall_lookup_1 _ _ _ _ Hall Hi).
Qed.

Lemma mem_write_app_mid {A} (l1 l2 l3 : list A) off l :
  off = Z.of_nat (length l1) -> length l = length l2 ->
  mem_write (l1 ++ l2 ++ l3) off l = Ok (l1 ++ l ++ l3).
Proof.
  intros -> Hl. rewrite mem_write_ok; [|lia|rewrite !length_app; lia].
  rewrite Nat2Z.id, take_app_length. do 3 f_equal.
  rewrite <- drop_drop, drop_app_length. by rewrite Hl, drop_app_length.
Qed.

(** Appending to the used part of a buffer. *)
Lemma mem_write_snoc {A} (pre rest : list A) off l :
  off = Z.of_nat (length pre) -> (length l <= length rest)%nat ->
  mem_write (pre ++ rest) off l = Ok ((pre ++ l) ++ drop (length l) rest).
Proof.
  intros Hoff Hl. rewrite <- (take_drop (length l) rest) at 1.
  rewrite (mem_write_app_mid pre (take (length l) rest)); [by rewrite <- app_assoc|done|].
  rewrite length_take. lia.
Qed.

(** Reading inside the first part of a buffer. *)
Lemma mem_read_prefix l r off n :
  0 <= off -> 0 <= n -> off + n <= Z.of_nat (length l) -> mem_read (l ++ r) off n = mem_read l off n.
Proof.
  intros H1 H2 H3. rewrite !mem_read_ok; rewrite ?length_app; try lia. f_equal.
  rewrite drop_app_le by lia. rewrite take_app_le; [done|]. rewrite length_drop. lia.
Qed.

Lemma mem_write_block {A} n (h : list A) bs i b b' :
  Forall (fun b => length b = n) bs -> bs !! i = Some b -> length b' = n ->
  mem_write (h ++ concat bs) (Z.of_nat (length h) + Z.of_nat n * Z.of_nat i) b'
    = Ok (h ++ concat (<[i := b']> bs)).
Proof.
  intros Hall Hi Hb'. destruct (concat_split_block n bs i b Hall Hi) as [-> Hlen].
  rewrite app_assoc, (mem_write_app_mid (h ++ concat (take i bs)) b).
  - rewrite insert_take_drop by (by eapply lookup_lt_Some). rewrite concat_app, <- app_assoc. done.
  - rewrite length_app, Hlen. lia.
  - by rewrite (Forall_lookup_1 _ _ _ _ Hall Hi).
Qed.

(** ** Automation *)

Create HintDb afs.
Create Rewrite HintDb afs_len.

#[export] Hint Resolve unsigned_of_range signed_of_range le_bytes_is_byte : afs.
#[export] Hint Rewrite length_le_bytes @length_app @length_insert @length_take
  @length_drop @length_replicate : afs_len.

(** Split the boolean tests of the code in the goal and the hypotheses into
    the propositions they decide. *)
Ltac test_cases :=
  repeat match goal with
  | |- context [Z.eqb ?a ?b] => destruct (Z.eqb_spec a b)
  | |- context [Z.ltb ?a ?b] => destruct (Z.ltb_spec a b)
  | |- context [Z.leb ?a ?b] => destruct (Z.leb_spec a b)
  | |- context [Z.geb ?a ?b] => rewrite (Z.geb_leb a b)
  | |- context [Z.gtb ?a ?b] => rewrite (Z.gtb_ltb a b)
  | H : context [Z.eqb ?a ?b] |- _ => destruct (Z.eqb_spec a b)
  | H : context [Z.ltb ?a ?b] |- _ => destruct (Z.ltb_spec a b)
  | H : context [Z.leb ?a ?b] |- _ => destruct (Z.leb_spec a b)
  end.

(** Invert the binds of a computation known to return. *)
Ltac result_inv :=
  repeat match goal with
  | H : Ok _ = Ok _ |- _ => injection H as H; subst
  | H : Stop _ = Ok _ |- _ => discriminate H
  | H : Ok _ = Stop _ |- _ => discriminate H
  | H : mbind _ ?m = _ |- _ => let E := fresh "E" in destruct m eqn:E; simpl in H
  | H : fmap _ ?m = _ |- _ => let E := fresh "E" in destruct m eqn:E; simpl in H
  | H : match ?m with Ok _ => _ | Stop _ => _ end = _ |- _ =>
      let E := fresh "E" in destruct m eqn:E; simpl in H
  end.
