(* ===== verification/RingBuffer.v ===== *)
(** The single-producer single-consumer ring buffer of
    src/queues/zerocopy_ringbuffer.hpp ([ZeroRingBuffer]): its state, its
    operations as functions, the refinement of the sequential operations to a
    bounded FIFO queue whose last [batchSize - 1] items may not be published
    yet, and the invariant the concurrent model of RingConcurrent.v reuses. *)
From stdpp Require Import base numbers list.
From Stdlib Require Import ZArith Lia.
From S2P Require Import Prelude.

Module Ring.

(** [#define RB_SIZE 2000] and [#define RB_BATCH 50]. *)
Definition RB_SIZE : Z := 2000.
Definition RB_BATCH : Z := 50.

(** The fields of the class without its cache-line padding.  Indices are
    [int]s; the invariant below bounds every one of them by [max]. *)
Record ZeroRingBuffer (T : Type) := mkZeroRingBuffer {
  readIndex : Z;            (* shared, written by the reader *)
  writeIndex : Z;           (* shared, written by the writer *)
  localWriteIndex : Z;      (* reader *)
  nextReadIndex : Z;        (* reader *)
  rBatchCount : Z;          (* reader *)
  localReadIndex : Z;       (* writer *)
  nextWriteIndex : Z;       (* writer *)
  afterNextWriteIndex : Z;  (* writer *)
  wBatchCount : Z;          (* writer *)
  max : Z;
  blockOnEmpty : bool;
  batchSize : Z;
  buffer : list T
}.

Arguments mkZeroRingBuffer {T}.
Arguments readIndex {T} _.
Arguments writeIndex {T} _.
Arguments localWriteIndex {T} _.
Arguments nextReadIndex {T} _.
Arguments rBatchCount {T} _.
Arguments localReadIndex {T} _.
Arguments nextWriteIndex {T} _.
Arguments afterNextWriteIndex {T} _.
Arguments wBatchCount {T} _.
Arguments max {T} _.
Arguments blockOnEmpty {T} _.
Arguments batchSize {T} _.
Arguments buffer {T} _.

(** Assignments to one field. *)
Definition set_readIndex {T} (v : Z) (rb : ZeroRingBuffer T) : ZeroRingBuffer T :=
    {| readIndex := v; writeIndex := writeIndex rb; localWriteIndex := localWriteIndex rb;
     nextReadIndex := nextReadIndex rb; rBatchCount := rBatchCount rb; localReadIndex :=
     localReadIndex rb; nextWriteIndex := nextWriteIndex rb; afterNextWriteIndex :=
     afterNextWriteIndex rb; wBatchCount := wBatchCount rb; max := max rb; blockOnEmpty :=
     blockOnEmpty rb; batchSize := batchSize rb; buffer := buffer rb |}.
Definition set_writeIndex {T} (v : Z) (rb : ZeroRingBuffer T) : ZeroRingBuffer T :=
    {| readIndex := readIndex rb; writeIndex := v; localWriteIndex := localWriteIndex rb;
     nextReadIndex := nextReadIndex rb; rBatchCount := rBatchCount rb; localReadIndex :=
     localReadIndex rb; nextWriteIndex := nextWriteIndex rb; afterNextWriteIndex :=
     afterNextWriteIndex rb; wBatchCount := wBatchCount rb; max := max rb; blockOnEmpty :=
     blockOnEmpty rb; batchSize := batchSize rb; buffer := buffer rb |}.
Definition set_localWriteIndex {T} (v : Z) (rb : ZeroRingBuffer T) : ZeroRingBuffer T :=
    {| readIndex := readIndex rb; writeIndex := writeIndex rb; localWriteIndex := v;
     nextReadIndex := nextReadIndex rb; rBatchCount := rBatchCount rb; localReadIndex :=
     localReadIndex rb; nextWriteIndex := nextWriteIndex rb; afterNextWriteIndex :=
     afterNextWriteIndex rb; wBatchCount := wBatchCount rb; max := max rb; blockOnEmpty :=
     blockOnEmpty rb; batchSize := batchSize rb; buffer := buffer rb |}.
Definition set_nextReadIndex {T} (v : Z) (rb : ZeroRingBuffer T) : ZeroRingBuffer T :=
    {| readIndex := readIndex rb; writeIndex := writeIndex rb; localWriteIndex :=
     localWriteIndex rb; nextReadIndex := v; rBatchCount := rBatchCount rb; localReadIndex
     := localReadIndex rb; nextWriteIndex := nextWriteIndex rb; afterNextWriteIndex :=
     afterNextWriteIndex rb; wBatchCount := wBatchCount rb; max := max rb; blockOnEmpty :=
     blockOnEmpty rb; batchSize := batchSize rb; buffer := buffer rb |}.
Definition set_rBatchCount {T} (v : Z) (rb : ZeroRingBuffer T) : ZeroRingBuffer T :=
    {| readIndex := readIndex rb; writeIndex := writeIndex rb; localWriteIndex :=
     localWriteIndex rb; nextReadIndex := nextReadIndex rb; rBatchCount := v;
     localReadIndex := localReadIndex rb; nextWriteIndex := nextWriteIndex rb;
     afterNextWriteIndex := afterNextWriteIndex rb; wBatchCount := wBatchCount rb; max :=
     max rb; blockOnEmpty := blockOnEmpty rb; batchSize := batchSize rb; buffer := buffer
     rb |}.
Definition set_localReadIndex {T} (v : Z) (rb : ZeroRingBuffer T) : ZeroRingBuffer T :=
    {| readIndex := readIndex rb; writeIndex := writeIndex rb; localWriteIndex :=
     localWriteIndex rb; nextReadIndex := nextReadIndex rb; rBatchCount := rBatchCount rb;
     localReadIndex := v; nextWriteIndex := nextWriteIndex rb; afterNextWriteIndex :=
     afterNextWriteIndex rb; wBatchCount := wBatchCount rb; max := max rb; blockOnEmpty :=
     blockOnEmpty rb; batchSize := batchSize rb; buffer := buffer rb |}.
Definition set_nextWriteIndex {T} (v : Z) (rb : ZeroRingBuffer T) : ZeroRingBuffer T :=
    {| readIndex := readIndex rb; writeIndex := writeIndex rb; localWriteIndex :=
     localWriteIndex rb; nextReadIndex := nextReadIndex rb; rBatchCount := rBatchCount rb;
     localReadIndex := localReadIndex rb; nextWriteIndex := v; afterNextWriteIndex :=
     afterNextWriteIndex rb; wBatchCount := wBatchCount rb; max := max rb; blockOnEmpty :=
     blockOnEmpty rb; batchSize := batchSize rb; buffer := buffer rb |}.
Definition set_afterNextWriteIndex {T} (v : Z) (rb : ZeroRingBuffer T) : ZeroRingBuffer
     T :=
    {| readIndex := readIndex rb; writeIndex := writeIndex rb; localWriteIndex :=
     localWriteIndex rb; nextReadIndex := nextReadIndex rb; rBatchCount := rBatchCount rb;
     localReadIndex := localReadIndex rb; nextWriteIndex := nextWriteIndex rb;
     afterNextWriteIndex := v; wBatchCount := wBatchCount rb; max := max rb; blockOnEmpty
     := blockOnEmpty rb; batchSize := batchSize rb; buffer := buffer rb |}.
Definition set_wBatchCount {T} (v : Z) (rb : ZeroRingBuffer T) : ZeroRingBuffer T :=
    {| readIndex := readIndex rb; writeIndex := writeIndex rb; localWriteIndex :=
     localWriteIndex rb; nextReadIndex := nextReadIndex rb; rBatchCount := rBatchCount rb;
     localReadIndex := localReadIndex rb; nextWriteIndex := nextWriteIndex rb;
     afterNextWriteIndex := afterNextWriteIndex rb; wBatchCount := v; max := max rb;
     blockOnEmpty := blockOnEmpty rb; batchSize := batchSize rb; buffer := buffer rb |}.
Definition set_buffer {T} (v : list T) (rb : ZeroRingBuffer T) : ZeroRingBuffer T :=
    {| readIndex := readIndex rb; writeIndex := writeIndex rb; localWriteIndex :=
     localWriteIndex rb; nextReadIndex := nextReadIndex rb; rBatchCount := rBatchCount rb;
     localReadIndex := localReadIndex rb; nextWriteIndex := nextWriteIndex rb;
     afterNextWriteIndex := afterNextWriteIndex rb; wBatchCount := wBatchCount rb; max :=
     max rb; blockOnEmpty := blockOnEmpty rb; batchSize := batchSize rb; buffer := v |}.

(** The constructor.  It leaves [afterNextWriteIndex] uninitialised, so its
    first value is an argument ([garbage]); [zero] is a zero-filled [T]. *)
Definition new_ZeroRingBuffer {T} (garbage : Z) (zero : T) (block : bool) : ZeroRingBuffer T :=
  {| readIndex := 0; writeIndex := 0; localWriteIndex := 0; nextReadIndex := 0;
     rBatchCount := 0; localReadIndex := 0; nextWriteIndex := 0;
     afterNextWriteIndex := garbage; wBatchCount := 0; max := RB_SIZE;
     blockOnEmpty := block; batchSize := RB_BATCH;
     buffer := replicate (Z.to_nat RB_SIZE) zero |}.

Definition nextVal {T} (rb : ZeroRingBuffer T) (x : Z) : Z :=
  if max rb <=? x + 1 then 0 else x + 1.

Definition Size {T} (rb : ZeroRingBuffer T) : Z :=
  if afterNextWriteIndex rb <? localReadIndex rb
  then afterNextWriteIndex rb - localReadIndex rb + RB_SIZE
  else afterNextWriteIndex rb - localReadIndex rb.

(** [afterNextWriteIndex = nextVal (nextWriteIndex)]. *)
Definition advance_after {T} (rb : ZeroRingBuffer T) : ZeroRingBuffer T :=
  set_afterNextWriteIndex (nextVal rb (nextWriteIndex rb)) rb.

(** [localReadIndex = readIndex]. *)
Definition reload_local_read {T} (rb : ZeroRingBuffer T) : ZeroRingBuffer T :=
  set_localReadIndex (readIndex rb) rb.

(** The test on entry of [Insert] and [GetSlot], with the busy wait: [None]
    when the loop on [readIndex] would spin, because nobody else runs. *)
Definition wait_slot {T} (rb : ZeroRingBuffer T) : option (ZeroRingBuffer T) :=
  let rb := advance_after rb in
  if afterNextWriteIndex rb =? localReadIndex rb then
    if afterNextWriteIndex rb =? readIndex rb then None
    else Some (reload_local_read rb)
  else Some rb.

(** [buffer[nextWriteIndex] = d]. *)
Definition store {T} (d : T) (rb : ZeroRingBuffer T) : ZeroRingBuffer T :=
  set_buffer (<[Z.to_nat (nextWriteIndex rb) := d]> (buffer rb)) rb.

(** [writeIndex = nextWriteIndex; wBatchCount = 0]. *)
Definition publish_write {T} (rb : ZeroRingBuffer T) : ZeroRingBuffer T :=
  set_wBatchCount 0 (set_writeIndex (nextWriteIndex rb) rb).

(** [nextWriteIndex = afterNextWriteIndex; wBatchCount++]. *)
Definition advance_write {T} (rb : ZeroRingBuffer T) : ZeroRingBuffer T :=
  set_wBatchCount (wBatchCount rb + 1)
    (set_nextWriteIndex (afterNextWriteIndex rb) rb).

Definition CompleteWrite {T} (rb : ZeroRingBuffer T) : ZeroRingBuffer T :=
  let rb := advance_write rb in
  if batchSize rb <=? wBatchCount rb then publish_write rb else rb.

(** [GetSlot] returns [buffer + nextWriteIndex]: the slot is its index. *)
Definition GetSlot {T} (rb : ZeroRingBuffer T) : option (Z * ZeroRingBuffer T) :=
  match wait_slot rb with
  | Some rb => Some (nextWriteIndex rb, rb)
  | None => None
  end.

Definition Insert {T} (rb : ZeroRingBuffer T) (d : T) : option (ZeroRingBuffer T) :=
  match wait_slot rb with
  | Some rb => Some (CompleteWrite (store d rb))
  | None => None
  end.

(** [localWriteIndex = writeIndex]. *)
Definition reload_local_write {T} (rb : ZeroRingBuffer T) : ZeroRingBuffer T :=
  set_localWriteIndex (writeIndex rb) rb.

(** [Extract] returns [NULL] or [buffer + nextReadIndex], as an index. *)
Definition Extract {T} (rb : ZeroRingBuffer T) : option Z * ZeroRingBuffer T :=
  if nextReadIndex rb =? localWriteIndex rb then
    if nextReadIndex rb =? writeIndex rb then (None, rb)
    else let rb := reload_local_write rb in (Some (nextReadIndex rb), rb)
  else (Some (nextReadIndex rb), rb).

(** [nextReadIndex = nextVal (nextReadIndex); rBatchCount++]. *)
Definition advance_read {T} (rb : ZeroRingBuffer T) : ZeroRingBuffer T :=
  set_rBatchCount (rBatchCount rb + 1)
    (set_nextReadIndex (nextVal rb (nextReadIndex rb)) rb).

(** [readIndex = nextReadIndex; rBatchCount = 0]. *)
Definition publish_read {T} (rb : ZeroRingBuffer T) : ZeroRingBuffer T :=
  set_rBatchCount 0 (set_readIndex (nextReadIndex rb) rb).

Definition Ack {T} (rb : ZeroRingBuffer T) : ZeroRingBuffer T :=
  let rb := advance_read rb in
  if batchSize rb <=? rBatchCount rb then publish_read rb else rb.

Definition Flush {T} (rb : ZeroRingBuffer T) : ZeroRingBuffer T :=
  set_readIndex (nextReadIndex rb) (set_writeIndex (nextWriteIndex rb) rb).

(** The item a slot pointer refers to. *)
Definition slot_value {T} (rb : ZeroRingBuffer T) (i : Z) : option T :=
  buffer rb !! Z.to_nat i.

(** ** The invariant *)

(** Every index of the ring is the residue of an unbounded counter: [W] items
    were ever stored ([ins] lists them), [R] were acknowledged, [PW] and [PR]
    are what the shared indices publish, [LW] and [LR] what the other side's
    cached copies hold. *)
Record ring_inv {T} (rb : ZeroRingBuffer T) (ins : list T) (R LW PW LR PR : Z) : Prop := {
  ri_max : 1 < max rb;
  ri_len : Z.of_nat (length (buffer rb)) = max rb;
  ri_nextW : nextWriteIndex rb = Z.of_nat (length ins) mod max rb;
  ri_nextR : nextReadIndex rb = R mod max rb;
  ri_write : writeIndex rb = PW mod max rb;
  ri_read : readIndex rb = PR mod max rb;
  ri_localW : localWriteIndex rb = LW mod max rb;
  ri_localR : localReadIndex rb = LR mod max rb;
  ri_w_order : R <= LW <= PW /\ PW <= Z.of_nat (length ins);
  ri_r_order : 0 <= LR <= PR /\ PR <= R;
  ri_cap : Z.of_nat (length ins) - LR < max rb;
  ri_data : forall k : nat, R <= Z.of_nat k < Z.of_nat (length ins) ->
    buffer rb !! Z.to_nat (Z.of_nat k mod max rb) = ins !! k
}.

(** The counters lag behind by less than a batch. *)
Record batch_inv {T} (rb : ZeroRingBuffer T) (W R PW PR : Z) : Prop := {
  bi_size : 0 < batchSize rb;
  bi_w : 0 <= W - PW <= wBatchCount rb;
  bi_w_lt : wBatchCount rb < batchSize rb;
  bi_r : 0 <= R - PR <= rBatchCount rb;
  bi_r_lt : rBatchCount rb < batchSize rb
}.

(** The ring holds the queue [q], whose first [p] items the reader can see. *)
Definition holds {T} (rb : ZeroRingBuffer T) (q : list T) (p : Z) : Prop :=
  exists ins R LW PW LR PR,
    ring_inv rb ins R LW PW LR PR /\
    batch_inv rb (Z.of_nat (length ins)) R PW PR /\
    q = drop (Z.to_nat R) ins /\ p = PW - R.

(** ** Index arithmetic *)

Lemma nextVal_mod {T} (rb : ZeroRingBuffer T) k :
  1 < max rb -> nextVal rb (k mod max rb) = (k + 1) mod max rb.
Proof.
  intros HN. unfold nextVal. pose proof (Z.mod_pos_bound k (max rb)).
  rewrite <- (Zplus_mod_idemp_l k 1).
  destruct (Z.leb_spec (max rb) (k mod max rb + 1)).
  - replace (k mod max rb + 1) with (max rb) by lia. by rewrite Z_mod_same_full.
  - rewrite (Z.mod_small (k mod max rb + 1)); lia.
Qed.

Section Invariant.
Context {T : Type}.
Implicit Types (rb : ZeroRingBuffer T) (ins : list T).

(** Both residues of a ring index are below the capacity, so the [int] fields
    never leave [0, RB_SIZE). *)
Lemma ring_inv_index_bounds rb ins R LW PW LR PR :
  ring_inv rb ins R LW PW LR PR ->
  0 <= nextWriteIndex rb < max rb /\ 0 <= nextReadIndex rb < max rb /\
  0 <= writeIndex rb < max rb /\ 0 <= readIndex rb < max rb.
Proof.
  intros []. rewrite ri_nextW0, ri_nextR0, ri_write0, ri_read0.
  repeat split; apply Z.mod_pos_bound; lia.
Qed.

(** A slot with room for one more item after it is not read by the reader. *)
Lemma ring_inv_store rb ins R LW PW LR PR d :
  ring_inv rb ins R LW PW LR PR ->
  afterNextWriteIndex rb = (Z.of_nat (length ins) + 1) mod max rb ->
  Z.of_nat (length ins) + 1 - LR < max rb ->
  ring_inv (advance_write (store d rb)) (ins ++ [d]) R LW PW LR PR.
Proof.
  intros [] Hafter Hroom.
  assert (Hlen : Z.of_nat (length (ins ++ [d])) = Z.of_nat (length ins) + 1).
  { rewrite length_app. simpl. lia. }
  split; simpl; rewrite ?Hlen; try done; try lia.
  - by rewrite length_insert.
  - intros k Hk. rewrite ri_nextW0.
    destruct (decide (k = length ins)) as [->|Hne].
    + rewrite lookup_app_r, Nat.sub_diag by lia. simpl.
      apply list_lookup_insert_eq. pose proof (Z.mod_pos_bound (Z.of_nat (length ins)) (max rb)). lia.
    + rewrite lookup_app_l by lia. rewrite list_lookup_insert_ne.
      * apply ri_data0. lia.
      * pose proof (Z.mod_pos_bound (Z.of_nat (length ins)) (max rb)).
        pose proof (Z.mod_pos_bound (Z.of_nat k) (max rb)).
        intros Heq. apply Hne.
        assert (Z.of_nat (length ins) = Z.of_nat k); [|lia].
        apply (mod_window_inj (max rb)); lia.
Qed.

Lemma ring_inv_publish_write rb ins R LW PW LR PR :
  ring_inv rb ins R LW PW LR PR ->
  ring_inv (publish_write rb) ins R LW (Z.of_nat (length ins)) LR PR.
Proof. intros []. split; simpl; try done; lia. Qed.

Lemma ring_inv_reload_local_read rb ins R LW PW LR PR :
  ring_inv rb ins R LW PW LR PR ->
  ring_inv (reload_local_read rb) ins R LW PW PR PR.
Proof. intros []. split; simpl; try done; lia. Qed.

Lemma ring_inv_reload_local_write rb ins R LW PW LR PR :
  ring_inv rb ins R LW PW LR PR ->
  ring_inv (reload_local_write rb) ins R PW PW LR PR.
Proof. intros []. split; simpl; try done; lia. Qed.

Lemma ring_inv_advance_after rb ins R LW PW LR PR :
  ring_inv rb ins R LW PW LR PR ->
  ring_inv (advance_after rb) ins R LW PW LR PR /\
  afterNextWriteIndex (advance_after rb) = (Z.of_nat (length ins) + 1) mod max rb.
Proof.
  intros []. split; [by split|]. simpl. rewrite ri_nextW0. by apply nextVal_mod.
Qed.

Lemma ring_inv_advance_read rb ins R LW PW LR PR :
  ring_inv rb ins R LW PW LR PR -> R < LW ->
  ring_inv (advance_read rb) ins (R + 1) LW PW LR PR.
Proof.
  intros [] Hlt. split; simpl; try done; try lia.
  - change (nextVal rb (nextReadIndex rb) = (R + 1) mod max rb).
    rewrite ri_nextR0. by apply nextVal_mod.
  - intros k Hk. apply ri_data0. lia.
Qed.

Lemma ring_inv_publish_read rb ins R LW PW LR PR :
  ring_inv rb ins R LW PW LR PR ->
  ring_inv (publish_read rb) ins R LW PW LR R.
Proof. intros []. split; simpl; try done; lia. Qed.

(** Publishing any value of the reader's counter the writer's cached copy does
    not exceed is safe, even a stale one. *)
Lemma ring_inv_set_read rb ins R LW PW LR PR V :
  ring_inv rb ins R LW PW LR PR -> LR <= V <= R ->
  ring_inv (set_readIndex (V mod max rb) rb) ins R LW PW LR V.
Proof. intros [] HV. split; simpl; try done; lia. Qed.

Lemma ring_inv_set_write rb ins R LW PW LR PR :
  ring_inv rb ins R LW PW LR PR ->
  ring_inv (set_writeIndex (nextWriteIndex rb) rb) ins R LW (Z.of_nat (length ins)) LR PR.
Proof. intros []. split; simpl; try done; lia. Qed.

(** The slot the reader is given holds the oldest unread item. *)
Lemma ring_inv_front rb ins R LW PW LR PR :
  ring_inv rb ins R LW PW LR PR -> R < LW ->
  slot_value rb (nextReadIndex rb) = ins !! Z.to_nat R.
Proof.
  intros [] Hlt. unfold slot_value. rewrite ri_nextR0.
  rewrite <- (ri_data0 (Z.to_nat R)) by lia. by rewrite Z2Nat.id by lia.
Qed.

(** The comparisons the code makes on residues decide the comparisons on the
    counters. *)
Lemma ring_inv_full_test rb ins R LW PW LR PR C :
  ring_inv rb ins R LW PW LR PR -> LR <= C <= R ->
  (Z.of_nat (length ins) + 1) mod max rb = C mod max rb <->
  Z.of_nat (length ins) + 1 - C = max rb.
Proof.
  intros [] HC. split; intros Heq.
  - assert (Z.of_nat (length ins) + 1 - max rb = C); [|lia].
    apply (mod_window_inj (max rb)); [lia|lia|].
    rewrite <- Heq. rewrite <- (Z_mod_plus_full _ 1). f_equal. lia.
  - replace (Z.of_nat (length ins) + 1) with (C + 1 * max rb) by lia.
    by rewrite Z_mod_plus_full.
Qed.

Lemma ring_inv_empty_test rb ins R LW PW LR PR C :
  ring_inv rb ins R LW PW LR PR -> R <= C <= Z.of_nat (length ins) ->
  R mod max rb = C mod max rb <-> R = C.
Proof.
  intros [] HC. split; [|by intros ->].
  intros Heq. apply (mod_window_inj (max rb)); lia.
Qed.

End Invariant.

#[export] Hint Resolve ring_inv_publish_write ring_inv_reload_local_read
  ring_inv_reload_local_write ring_inv_publish_read ring_inv_set_write : afs.

(** ** Refinement to a FIFO queue *)

Section Refinement.
Context {T : Type}.
Implicit Types (rb : ZeroRingBuffer T) (q : list T) (d : T).

(** At most one batch of the queue is hidden from the reader. *)
Lemma holds_visible rb q p :
  holds rb q p ->
  0 <= p <= Z.of_nat (length q) /\ Z.of_nat (length q) - p < batchSize rb /\
  Z.of_nat (length q) < max rb.
Proof.
  intros (ins & R & LW & PW & LR & PR & [] & [] & -> & ->).
  rewrite length_drop. lia.
Qed.

Lemma new_holds garbage (zero : T) block :
  holds (new_ZeroRingBuffer garbage zero block) [] 0.
Proof.
  exists [], 0, 0, 0, 0, 0. split; [|split; [split; simpl; unfold RB_BATCH; lia|done]].
  split; simpl; try done; unfold RB_SIZE; lia.
Qed.

(** What [wait_slot] leaves when it does not spin. *)
Lemma wait_slot_inv rb ins R LW PW LR PR rb' :
  ring_inv rb ins R LW PW LR PR -> wait_slot rb = Some rb' ->
  exists LR', ring_inv rb' ins R LW PW LR' PR /\
    afterNextWriteIndex rb' = (Z.of_nat (length ins) + 1) mod max rb' /\
    Z.of_nat (length ins) + 1 - LR' < max rb' /\
    max rb' = max rb /\ batchSize rb' = batchSize rb /\
    wBatchCount rb' = wBatchCount rb /\ rBatchCount rb' = rBatchCount rb.
Proof.
  intros Hinv Hw. destruct (ring_inv_advance_after _ _ _ _ _ _ _ Hinv) as [Hinv' Ha].
  unfold wait_slot in Hw.
  destruct (Z.eqb_spec (afterNextWriteIndex (advance_after rb)) (localReadIndex (advance_after rb))).
  - destruct (Z.eqb_spec (afterNextWriteIndex (advance_after rb)) (readIndex (advance_after rb)))
      as [|Hne]; [done|]. injection Hw as <-.
    exists PR. split; [by eauto with afs|]. split; [done|]. split; [|done].
    destruct (decide (Z.of_nat (length ins) + 1 - PR = max rb)) as [E|]; [|destruct Hinv'; simpl in *; lia].
    exfalso. apply Hne. rewrite Ha, (ri_read _ _ _ _ _ _ _ Hinv').
    apply (ring_inv_full_test _ _ _ _ _ _ _ PR Hinv); [destruct Hinv; lia | done].
  - injection Hw as <-. exists LR. split; [done|]. split; [done|]. split; [|done].
    destruct (decide (Z.of_nat (length ins) + 1 - LR = max rb)) as [E|]; [|destruct Hinv; simpl in *; lia].
    exfalso. apply n. rewrite Ha, (ri_localR _ _ _ _ _ _ _ Hinv').
    apply (ring_inv_full_test _ _ _ _ _ _ _ LR Hinv); [destruct Hinv; lia | done].
Qed.

(** A returning [Insert] appends its item to the queue; the visible part stays
    or becomes the whole queue. *)
Lemma Insert_holds rb q p d rb' :
  holds rb q p -> Insert rb d = Some rb' ->
  exists p', holds rb' (q ++ [d]) p' /\ (p' = p \/ p' = Z.of_nat (length q) + 1) /\
    max rb' = max rb /\ batchSize rb' = batchSize rb.
Proof.
  intros (ins & R & LW & PW & LR & PR & Hinv & Hb & -> & ->) HI. unfold Insert in HI.
  destruct (wait_slot rb) as [rb1|] eqn:Hw; [|done]. injection HI as <-.
  destruct (wait_slot_inv _ _ _ _ _ _ _ _ Hinv Hw)
    as (LR' & Hinv1 & Ha & Hroom & Hmax & Hbs & Hwb & Hrb).
  pose proof (ring_inv_store _ _ _ _ _ _ _ d Hinv1 Ha Hroom) as Hinv2.
  assert (Hq : drop (Z.to_nat R) ins ++ [d] = drop (Z.to_nat R) (ins ++ [d])).
  { symmetry. apply drop_app_le. destruct Hinv; lia. }
  assert (HW : Z.of_nat (length (ins ++ [d])) = Z.of_nat (length ins) + 1).
  { rewrite length_app; simpl; lia. }
  destruct Hb. unfold CompleteWrite. simpl. rewrite Hbs, Hwb.
  destruct (Z.leb_spec (batchSize rb) (wBatchCount rb + 1)).
  - exists (Z.of_nat (length ins) + 1 - R). split; [|split; [|done]].
    + exists (ins ++ [d]), R, LW, (Z.of_nat (length ins) + 1), LR', PR.
      rewrite <- HW. split; [by eapply ring_inv_publish_write|].
      split; [|done]. split; simpl; rewrite ?Hbs, ?Hrb; destruct Hinv; lia.
    + right. rewrite length_drop. destruct Hinv; lia.
  - exists (PW - R). split; [|split; [by left|done]].
    exists (ins ++ [d]), R, LW, PW, LR', PR. split; [done|].
    split; [|done]. split; simpl; rewrite ?Hbs, ?Hrb, ?Hwb, ?HW; lia.
Qed.

(** [Insert] does not spin while the queue, and the acknowledgements the reader
    has not published, leave a slot free. *)
Lemma Insert_total rb q p d :
  holds rb q p -> Z.of_nat (length q) + rBatchCount rb < max rb - 1 ->
  is_Some (Insert rb d).
Proof.
  intros (ins & R & LW & PW & LR & PR & Hinv & Hb & -> & ->) Hlen.
  rewrite length_drop in Hlen. unfold Insert, wait_slot.
  destruct (ring_inv_advance_after _ _ _ _ _ _ _ Hinv) as [Hinv' Ha]. rewrite Ha.
  destruct (Z.eqb_spec ((Z.of_nat (length ins) + 1) mod max rb) (localReadIndex (advance_after rb))); [|eauto].
  destruct (Z.eqb_spec ((Z.of_nat (length ins) + 1) mod max rb) (readIndex (advance_after rb))) as [E|]; [|eauto].
  exfalso. rewrite (ri_read _ _ _ _ _ _ _ Hinv') in E.
  apply (ring_inv_full_test _ _ _ _ _ _ _ PR Hinv) in E; destruct Hinv, Hb; lia.
Qed.

Lemma Insert_rBatchCount rb d rb' : Insert rb d = Some rb' -> rBatchCount rb' = rBatchCount rb.
Proof.
  unfold Insert, wait_slot, CompleteWrite. intros H. repeat case_match; simplify_eq; done.
Qed.

(** [GetSlot], a write through the slot and [CompleteWrite] are [Insert]. *)
Lemma GetSlot_CompleteWrite rb d :
  Insert rb d =
    match GetSlot rb with
    | Some (i, rb1) => Some (CompleteWrite (set_buffer (<[Z.to_nat i := d]> (buffer rb1)) rb1))
    | None => None
    end.
Proof. unfold Insert, GetSlot. by destruct (wait_slot rb). Qed.

(** [Extract] returns [NULL] exactly when no item is visible; otherwise the
    slot holds the head of the queue and [Ack] removes it. *)
Lemma Extract_holds rb q p :
  holds rb q p ->
  match Extract rb with
  | (None, rb') => p = 0 /\ rb' = rb
  | (Some i, rb') => 0 < p /\ holds rb' q p /\
      max rb' = max rb /\ batchSize rb' = batchSize rb /\
      exists d q', q = d :: q' /\ slot_value rb' i = Some d
  end.
Proof.
  intros (ins & R & LW & PW & LR & PR & Hinv & Hb & -> & ->). unfold Extract.
  assert (Hfront : forall rb1 LW1, ring_inv rb1 ins R LW1 PW LR PR -> R < LW1 ->
    exists d q', drop (Z.to_nat R) ins = d :: q' /\ slot_value rb1 (nextReadIndex rb1) = Some d).
  { intros rb1 LW1 H1 Hlt. rewrite (ring_inv_front _ _ _ _ _ _ _ H1 Hlt).
    destruct (lookup_lt_is_Some_2 ins (Z.to_nat R)) as [d Hd]; [destruct H1; lia|].
    exists d, (drop (S (Z.to_nat R)) ins). split; [by apply drop_S|done]. }
  rewrite (ri_nextR _ _ _ _ _ _ _ Hinv), (ri_localW _ _ _ _ _ _ _ Hinv), (ri_write _ _ _ _ _ _ _ Hinv).
  destruct (Z.eqb_spec (R mod max rb) (LW mod max rb)) as [E|NE].
  - apply (ring_inv_empty_test _ _ _ _ _ _ _ LW Hinv) in E; [|destruct Hinv; lia].
    destruct (Z.eqb_spec (R mod max rb) (PW mod max rb)) as [E'|NE'].
    + apply (ring_inv_empty_test _ _ _ _ _ _ _ PW Hinv) in E'; [|destruct Hinv; lia]. split; [lia|done].
    + assert (R < PW) by (destruct Hinv; destruct (decide (R = PW)); [congruence|lia]).
      split; [lia|]. pose proof (ring_inv_reload_local_write _ _ _ _ _ _ _ Hinv) as H2.
      split; [exists ins, R, PW, PW, LR, PR; split; [done|split; [|done]]; destruct Hb; by split|].
      split; [done|]. split; [done|].
      by apply (Hfront _ PW).
  - assert (R < LW) by (destruct Hinv; destruct (decide (R = LW)); [congruence|lia]).
    split; [destruct Hinv; lia|].
    split; [exists ins, R, LW, PW, LR, PR; done|]. split; [done|]. split; [done|].
    rewrite <- (ri_nextR _ _ _ _ _ _ _ Hinv). by apply (Hfront _ LW).
Qed.

(** Acknowledging the slot [Extract] returned removes the head. *)
Lemma Extract_Ack_holds rb q p i rb' :
  holds rb q p -> Extract rb = (Some i, rb') ->
  exists d q', q = d :: q' /\ slot_value rb' i = Some d /\ holds (Ack rb') q' (p - 1) /\
    max (Ack rb') = max rb /\ batchSize (Ack rb') = batchSize rb.
Proof.
  intros Hh HE. pose proof (Extract_holds _ _ _ Hh) as HX. rewrite HE in HX.
  destruct HX as (_ & _ & Hmax & Hbs & d & q' & Hq & Hd).
  exists d, q'. split; [done|]. split; [done|].
  destruct Hh as (ins & R & LW & PW & LR & PR & Hinv & Hb & Hq0 & ->).
  assert (exists LW', ring_inv rb' ins R LW' PW LR PR /\ R < LW' /\
    batch_inv rb' (Z.of_nat (length ins)) R PW PR) as (LW' & Hinv' & Hlt & Hb').
  { unfold Extract in HE.
    rewrite (ri_nextR _ _ _ _ _ _ _ Hinv), (ri_localW _ _ _ _ _ _ _ Hinv), (ri_write _ _ _ _ _ _ _ Hinv) in HE.
    destruct (Z.eqb_spec (R mod max rb) (LW mod max rb)) as [E|NE].
    - destruct (Z.eqb_spec (R mod max rb) (PW mod max rb)) as [|NE']; [done|]. injection HE as _ <-.
      exists PW. split; [by eapply ring_inv_reload_local_write|].
      split; [|destruct Hb; by split]. destruct Hinv; destruct (decide (R = PW)); [congruence|lia].
    - injection HE as _ <-. exists LW. split; [done|]. split; [|done].
      destruct Hinv; destruct (decide (R = LW)); [congruence|lia]. }
  pose proof (ring_inv_advance_read _ _ _ _ _ _ _ Hinv' Hlt) as Hinv2.
  assert (Hq' : q' = drop (Z.to_nat (R + 1)) ins).
  { rewrite Z2Nat.inj_add by (destruct Hinv; lia). rewrite Nat.add_comm. simpl.
    rewrite Hq0 in Hq. rewrite <- Nat.add_1_r, <- drop_drop, Hq. done. }
  unfold Ack. simpl. destruct Hb'. rewrite Hbs.
  destruct (Z.leb_spec (batchSize rb) (rBatchCount rb' + 1)); (split; [|done]).
  - exists ins, (R + 1), LW', PW, LR, (R + 1).
    split; [by eapply ring_inv_publish_read|]. split; [|split; [done|lia]].
    split; simpl; destruct Hinv'; lia.
  - exists ins, (R + 1), LW', PW, LR, PR. split; [done|]. split; [|split; [done|lia]].
    split; simpl; destruct Hinv'; lia.
Qed.

(** [Flush] makes the whole queue visible and keeps it. *)
Lemma Flush_holds rb q p :
  holds rb q p -> holds (Flush rb) q (Z.of_nat (length q)) /\
  max (Flush rb) = max rb /\ batchSize (Flush rb) = batchSize rb.
Proof.
  intros (ins & R & LW & PW & LR & PR & Hinv & Hb & -> & ->). split; [|done].
  exists ins, R, LW, (Z.of_nat (length ins)), LR, R. split.
  - pose proof (ring_inv_set_write _ _ _ _ _ _ _ Hinv) as H1.
    pose proof (ring_inv_set_read _ _ _ _ _ _ _ R H1 ltac:(destruct Hinv; lia)) as H2.
    by destruct H2; split; simpl in *; rewrite ?(ri_nextR _ _ _ _ _ _ _ Hinv).
  - split; [|split; [done|]].
    + destruct Hb; split; simpl; lia.
    + rewrite length_drop. destruct Hinv; lia.
Qed.

End Refinement.

End Ring.
