(* ===== verification/RingConcurrent.v ===== *)
(** The ring buffer of src/queues/zerocopy_ringbuffer.hpp with its producer and
    its consumer running at the same time.  Each step is one access to the
    memory the two threads share ([readIndex], [writeIndex], a buffer cell, and
    [nextReadIndex] when the producer flushes), with the private computation
    around it; steps interleave arbitrarily and memory is sequentially
    consistent.  The theorems say that the consumer always receives a prefix of
    what the producer stored, that a waiting producer always has a consumer
    with work to do, and that the same is not true when a third thread flushes
    the ring. *)
From stdpp Require Import base numbers list relations.
From Stdlib Require Import ZArith Lia.
From S2P Require Import Prelude RingBuffer.

Module RingSteps.
Import Ring.

(** Where the producer is in [Insert] (lines 73-88) or [Flush] (134-137). *)
Inductive writer_pc (T : Type) :=
| W_idle
| W_wait (d : T)          (* in the loop on [readIndex] *)
| W_reload (d : T)        (* the loop was left *)
| W_store (d : T)         (* about to fill the slot *)
| W_publish               (* the batch is complete *)
| W_flush_load            (* [writeIndex] flushed, [nextReadIndex] not loaded yet *)
| W_flush_store (v : Z).  (* about to store [v] in [readIndex] *)

Arguments W_idle {T}.
Arguments W_wait {T} d.
Arguments W_reload {T} d.
Arguments W_store {T} d.
Arguments W_publish {T}.
Arguments W_flush_load {T}.
Arguments W_flush_store {T} v.

(** Where the consumer is in [Extract] (111-121) or [Ack] (123-132). *)
Inductive reader_pc :=
| R_idle
| R_check      (* the cached index is exhausted, [writeIndex] not read yet *)
| R_reload     (* [writeIndex] differs from [nextReadIndex] *)
| R_hold       (* [Extract] returned a slot *)
| R_publish.   (* the batch of acknowledgements is complete *)

(** The two threads, the ring and the ghost history: the items stored so far
    and the items the consumer read before acknowledging them. *)
Record sys (T : Type) := mkSys {
  ring : ZeroRingBuffer T;
  wpc : writer_pc T;
  rpc : reader_pc;
  inserted : list T;
  consumed : list T
}.

Arguments mkSys {T}.
Arguments ring {T} _.
Arguments wpc {T} _.
Arguments rpc {T} _.
Arguments inserted {T} _.
Arguments consumed {T} _.

(** The steps of the producer.  [b] allows it to call [Flush]. *)
Inductive writer_step {T} (b : bool) : sys T -> sys T -> Prop :=
| ws_enter_wait rb r ins con d :
    afterNextWriteIndex (advance_after rb) = localReadIndex rb ->
    writer_step b (mkSys rb W_idle r ins con) (mkSys (advance_after rb) (W_wait d) r ins con)
| ws_enter_store rb r ins con d :
    afterNextWriteIndex (advance_after rb) <> localReadIndex rb ->
    writer_step b (mkSys rb W_idle r ins con) (mkSys (advance_after rb) (W_store d) r ins con)
| ws_leave_wait rb r ins con d :
    afterNextWriteIndex rb <> readIndex rb ->
    writer_step b (mkSys rb (W_wait d) r ins con) (mkSys rb (W_reload d) r ins con)
| ws_reload rb r ins con d :
    writer_step b (mkSys rb (W_reload d) r ins con)
      (mkSys (reload_local_read rb) (W_store d) r ins con)
| ws_store rb r ins con d :
    wBatchCount (advance_write (store d rb)) < batchSize rb ->
    writer_step b (mkSys rb (W_store d) r ins con)
      (mkSys (advance_write (store d rb)) W_idle r (ins ++ [d]) con)
| ws_store_batch rb r ins con d :
    batchSize rb <= wBatchCount (advance_write (store d rb)) ->
    writer_step b (mkSys rb (W_store d) r ins con)
      (mkSys (advance_write (store d rb)) W_publish r (ins ++ [d]) con)
| ws_publish rb r ins con :
    writer_step b (mkSys rb W_publish r ins con) (mkSys (publish_write rb) W_idle r ins con)
| ws_flush rb r ins con :
    b = true ->
    writer_step b (mkSys rb W_idle r ins con)
      (mkSys (set_writeIndex (nextWriteIndex rb) rb) W_flush_load r ins con)
| ws_flush_load rb r ins con :
    writer_step b (mkSys rb W_flush_load r ins con)
      (mkSys rb (W_flush_store (nextReadIndex rb)) r ins con)
| ws_flush_store rb r ins con v :
    writer_step b (mkSys rb (W_flush_store v) r ins con)
      (mkSys (set_readIndex v rb) W_idle r ins con).

(** The steps of the consumer. *)
Inductive reader_step {T} : sys T -> sys T -> Prop :=
| rs_check rb w ins con :
    nextReadIndex rb = localWriteIndex rb ->
    reader_step (mkSys rb w R_idle ins con) (mkSys rb w R_check ins con)
| rs_cached rb w ins con :
    nextReadIndex rb <> localWriteIndex rb ->
    reader_step (mkSys rb w R_idle ins con) (mkSys rb w R_hold ins con)
| rs_empty rb w ins con :
    nextReadIndex rb = writeIndex rb ->
    reader_step (mkSys rb w R_check ins con) (mkSys rb w R_idle ins con)
| rs_more rb w ins con :
    nextReadIndex rb <> writeIndex rb ->
    reader_step (mkSys rb w R_check ins con) (mkSys rb w R_reload ins con)
| rs_reload rb w ins con :
    reader_step (mkSys rb w R_reload ins con) (mkSys (reload_local_write rb) w R_hold ins con)
| rs_ack rb w ins con d :
    slot_value rb (nextReadIndex rb) = Some d ->
    rBatchCount (advance_read rb) < batchSize rb ->
    reader_step (mkSys rb w R_hold ins con) (mkSys (advance_read rb) w R_idle ins (con ++ [d]))
| rs_ack_batch rb w ins con d :
    slot_value rb (nextReadIndex rb) = Some d ->
    batchSize rb <= rBatchCount (advance_read rb) ->
    reader_step (mkSys rb w R_hold ins con) (mkSys (advance_read rb) w R_publish ins (con ++ [d]))
| rs_publish rb w ins con :
    reader_step (mkSys rb w R_publish ins con) (mkSys (publish_read rb) w R_idle ins con).

Definition step {T} (b : bool) (s s' : sys T) : Prop :=
  writer_step b s s' \/ reader_step s s'.

(** Two idle threads on a new ring. *)
Definition start {T} (garbage : Z) (zero : T) (block : bool) : sys T :=
  mkSys (new_ZeroRingBuffer garbage zero block) W_idle R_idle [] [].

(** ** The invariant of the interleaving *)

(** What each program point of the producer knows. *)
Definition writer_knows {T} (rb : ZeroRingBuffer T) (w : writer_pc T) (W R LR PR : Z) : Prop :=
  match w with
  | W_idle | W_publish | W_flush_load => True
  | W_wait _ => afterNextWriteIndex rb = (W + 1) mod max rb
  | W_reload _ => afterNextWriteIndex rb = (W + 1) mod max rb /\ W + 1 - PR < max rb
  | W_store _ => afterNextWriteIndex rb = (W + 1) mod max rb /\ W + 1 - LR < max rb
  | W_flush_store v => exists V, v = V mod max rb /\ LR <= V <= R
  end.

(** What each program point of the consumer knows. *)
Definition reader_knows (r : reader_pc) (R LW PW : Z) : Prop :=
  match r with
  | R_idle | R_check | R_publish => True
  | R_reload => R < PW
  | R_hold => R < LW
  end.

(** Without [Flush], a shared index lags behind its thread by less than a batch
    except while the thread is about to publish it. *)
Definition batch_ok {T} (rb : ZeroRingBuffer T) (w : writer_pc T) (r : reader_pc)
    (W R PW PR : Z) : Prop :=
  0 < batchSize rb /\ 2 * batchSize rb <= max rb /\
  W - PW <= wBatchCount rb /\ R - PR <= rBatchCount rb /\
  match w with
  | W_publish => True
  | W_flush_load | W_flush_store _ => False
  | _ => wBatchCount rb < batchSize rb
  end /\
  match r with R_publish => True | _ => rBatchCount rb < batchSize rb end.

Definition sys_inv {T} (b : bool) (s : sys T) : Prop :=
  exists LW PW LR PR,
    (b = false -> batch_ok (ring s) (wpc s) (rpc s) (Z.of_nat (length (inserted s)))
       (Z.of_nat (length (consumed s))) PW PR) /\
    ring_inv (ring s) (inserted s) (Z.of_nat (length (consumed s))) LW PW LR PR /\
    consumed s = take (length (consumed s)) (inserted s) /\
    writer_knows (ring s) (wpc s) (Z.of_nat (length (inserted s)))
      (Z.of_nat (length (consumed s))) LR PR /\
    reader_knows (rpc s) (Z.of_nat (length (consumed s))) LW PW.

(** Re-establish [batch_ok] after a step. *)
Ltac solve_batch :=
  intros; unfold batch_ok in *; simpl in *; rewrite ?length_app; simpl length;
  repeat match goal with H : ?P -> _, H' : ?P |- _ => specialize (H H') end;
  destruct_and?; try congruence; try done; split_and?; first [done | lia].

Section Safety.
Context {T : Type}.
Implicit Types (s : sys T).

Lemma sys_inv_intro b (rb : ZeroRingBuffer T) w r ins con LW PW LR PR :
  (b = false -> batch_ok rb w r (Z.of_nat (length ins)) (Z.of_nat (length con)) PW PR) ->
  ring_inv rb ins (Z.of_nat (length con)) LW PW LR PR ->
  con = take (length con) ins ->
  writer_knows rb w (Z.of_nat (length ins)) (Z.of_nat (length con)) LR PR ->
  reader_knows r (Z.of_nat (length con)) LW PW ->
  sys_inv b (mkSys rb w r ins con).
Proof. intros. by exists LW, PW, LR, PR. Qed.

Lemma start_inv b garbage (zero : T) block : sys_inv b (start garbage zero block).
Proof.
  exists 0, 0, 0, 0. split; [intros; unfold batch_ok; simpl; unfold RB_SIZE, RB_BATCH; lia|].
  split; [|done].
  split; simpl; try done; unfold RB_SIZE; lia.
Qed.

Lemma writer_step_inv b s s' : writer_step b s s' -> sys_inv b s -> sys_inv b s'.
Proof.
  intros Hstep (LW & PW & LR & PR & Hb & Hinv & Hcon & Hw & Hr).
  destruct Hstep; cbn [ring wpc rpc inserted consumed writer_knows reader_knows] in *.
  - destruct (ring_inv_advance_after _ _ _ _ _ _ _ Hinv). apply (sys_inv_intro _ _ _ _ _ _ LW PW LR PR); [solve_batch|done..].
  - destruct (ring_inv_advance_after _ _ _ _ _ _ _ Hinv) as [Hi Ha]. apply (sys_inv_intro _ _ _ _ _ _ LW PW LR PR); [solve_batch|try done..].
    split; [done|].
    destruct (decide (Z.of_nat (length ins) + 1 - LR = max rb)) as [E|]; [|destruct Hinv; simpl; lia].
    exfalso. apply H. rewrite Ha, (ri_localR _ _ _ _ _ _ _ Hinv).
    apply (ring_inv_full_test _ _ _ _ _ _ _ LR Hinv); [destruct Hinv; lia | done].
  - apply (sys_inv_intro _ _ _ _ _ _ LW PW LR PR); [solve_batch|try done..]. split; [done|].
    destruct (decide (Z.of_nat (length ins) + 1 - PR = max rb)) as [E|]; [|destruct Hinv; simpl; lia].
    exfalso. apply H. rewrite Hw, (ri_read _ _ _ _ _ _ _ Hinv).
    apply (ring_inv_full_test _ _ _ _ _ _ _ PR Hinv); [destruct Hinv; lia | done].
  - apply (sys_inv_intro _ _ _ _ _ _ LW PW PR PR); [solve_batch|try done..]. by eapply ring_inv_reload_local_read.
  - apply (sys_inv_intro _ _ _ _ _ _ LW PW LR PR); [solve_batch|try done..].
    + destruct Hw. by apply ring_inv_store.
    + rewrite take_app_le by (destruct Hinv; lia). done.
  - apply (sys_inv_intro _ _ _ _ _ _ LW PW LR PR); [solve_batch|try done..].
    + destruct Hw. by apply ring_inv_store.
    + rewrite take_app_le by (destruct Hinv; lia). done.
  - apply (sys_inv_intro _ _ _ _ _ _ LW (Z.of_nat (length ins)) LR PR); [solve_batch|try done..].
    + by eapply ring_inv_publish_write.
    + destruct r; simpl in *; try done; destruct Hinv; lia.
  - apply (sys_inv_intro _ _ _ _ _ _ LW (Z.of_nat (length ins)) LR PR); [solve_batch|try done..].
    + by eapply ring_inv_set_write.
    + destruct r; simpl in *; try done; destruct Hinv; lia.
  - apply (sys_inv_intro _ _ _ _ _ _ LW PW LR PR); [solve_batch|try done..]. exists (Z.of_nat (length con)).
    split; [by destruct Hinv|]. destruct Hinv; lia.
  - destruct Hw as (V & -> & HV). apply (sys_inv_intro _ _ _ _ _ _ LW PW LR V); [solve_batch|try done..].
    by apply (ring_inv_set_read _ _ _ _ _ _ PR).
Qed.

(** A consumer's step keeps what the producer knows: the counters it waits
    for only grow. *)
Lemma writer_knows_mono (rb rb' : ZeroRingBuffer T) w W R R' LR PR PR' :
  max rb' = max rb -> afterNextWriteIndex rb' = afterNextWriteIndex rb ->
  R <= R' -> PR <= PR' -> writer_knows rb w W R LR PR -> writer_knows rb' w W R' LR PR'.
Proof.
  intros Hm Ha HR HP. destruct w; simpl; rewrite ?Hm, ?Ha; try done; try lia.
  intros (V & -> & HV). exists V. split; [done|lia].
Qed.

Lemma reader_take (rb : ZeroRingBuffer T) ins con LW PW LR PR d :
  ring_inv rb ins (Z.of_nat (length con)) LW PW LR PR ->
  con = take (length con) ins -> Z.of_nat (length con) < LW ->
  slot_value rb (nextReadIndex rb) = Some d ->
  ring_inv (advance_read rb) ins (Z.of_nat (length (con ++ [d]))) LW PW LR PR /\
  con ++ [d] = take (length (con ++ [d])) ins.
Proof.
  intros Hinv Hcon Hlt Hd.
  rewrite (ring_inv_front _ _ _ _ _ _ _ Hinv Hlt), Nat2Z.id in Hd.
  assert (HL : length (con ++ [d]) = S (length con)) by (rewrite length_app; simpl; lia).
  rewrite HL. split.
  - rewrite Nat2Z.inj_succ. unfold Z.succ. by apply ring_inv_advance_read.
  - rewrite (take_S_r _ _ _ Hd). by rewrite <- Hcon.
Qed.

Lemma reader_step_inv b s s' : reader_step s s' -> sys_inv b s -> sys_inv b s'.
Proof.
  intros Hstep (LW & PW & LR & PR & Hb & Hinv & Hcon & Hw & Hr).
  destruct Hstep; cbn [ring wpc rpc inserted consumed writer_knows reader_knows] in *.
  - apply (sys_inv_intro _ _ _ _ _ _ LW PW LR PR); [solve_batch|done..].
  - apply (sys_inv_intro _ _ _ _ _ _ LW PW LR PR); [solve_batch|try done..]. simpl.
    destruct (decide (Z.of_nat (length con) = LW)) as [E|]; [|destruct Hinv; lia].
    exfalso. apply H. by rewrite (ri_nextR _ _ _ _ _ _ _ Hinv), (ri_localW _ _ _ _ _ _ _ Hinv), E.
  - apply (sys_inv_intro _ _ _ _ _ _ LW PW LR PR); [solve_batch|done..].
  - apply (sys_inv_intro _ _ _ _ _ _ LW PW LR PR); [solve_batch|try done..]. simpl.
    destruct (decide (Z.of_nat (length con) = PW)) as [E|]; [|destruct Hinv; lia].
    exfalso. apply H. by rewrite (ri_nextR _ _ _ _ _ _ _ Hinv), (ri_write _ _ _ _ _ _ _ Hinv), E.
  - apply (sys_inv_intro _ _ _ _ _ _ PW PW LR PR); [solve_batch|try done..]. by eapply ring_inv_reload_local_write.
  - destruct (reader_take _ _ _ _ _ _ _ _ Hinv Hcon Hr H) as [Hi Hc].
    apply (sys_inv_intro _ _ _ _ _ _ LW PW LR PR); [solve_batch|try done..].
    eapply writer_knows_mono; [..|done]; try done. rewrite length_app. lia.
  - destruct (reader_take _ _ _ _ _ _ _ _ Hinv Hcon Hr H) as [Hi Hc].
    apply (sys_inv_intro _ _ _ _ _ _ LW PW LR PR); [solve_batch|try done..].
    eapply writer_knows_mono; [..|done]; try done. rewrite length_app. lia.
  - apply (sys_inv_intro _ _ _ _ _ _ LW PW LR (Z.of_nat (length con))); [solve_batch|try done..].
    + by eapply ring_inv_publish_read.
    + eapply writer_knows_mono; [..|done]; try done. destruct Hinv; lia.
Qed.

Lemma steps_inv b s s' : rtc (step b) s s' -> sys_inv b s -> sys_inv b s'.
Proof.
  induction 1 as [|s s1 s' [Hs|Hs] _ IH]; [done|..]; intros Hi; apply IH;
    eauto using writer_step_inv, reader_step_inv.
Qed.

End Safety.

(** ** Theorems *)

(** C40 The consumer receives the items in the order the producer stored them,
    each at most once and none that was not stored: in every interleaving,
    flushes by the producer included, what was consumed is a prefix of what was
    inserted. *)
Theorem ring_fifo {T} b garbage (zero : T) block (s : sys T) :
  rtc (step b) (start garbage zero block) s ->
  consumed s `prefix_of` inserted s.
Proof.
  intros Hs.
  destruct (steps_inv _ _ _ Hs (start_inv _ _ _ _)) as (? & ? & ? & ? & _ & _ & Hcon & _).
  rewrite Hcon. apply prefix_take.
Qed.

(** While the consumer holds the slot [Extract] returned, the slot contains
    the oldest unread item, and a producer about to fill a slot fills another
    one: the zero-copy hand-over is race free. *)
Theorem ring_slot_protected {T} b garbage (zero : T) block (s : sys T) :
  rtc (step b) (start garbage zero block) s -> rpc s = R_hold ->
  slot_value (ring s) (nextReadIndex (ring s)) = inserted s !! length (consumed s) /\
  is_Some (inserted s !! length (consumed s)) /\
  (forall d, wpc s = W_store d -> nextWriteIndex (ring s) <> nextReadIndex (ring s)).
Proof.
  intros Hs Hr.
  destruct (steps_inv _ _ _ Hs (start_inv _ _ _ _))
    as (LW & PW & LR & PR & _ & Hinv & _ & Hw & Hrk).
  rewrite Hr in Hrk. simpl in Hrk. split_and!.
  - rewrite (ring_inv_front _ _ _ _ _ _ _ Hinv Hrk), Nat2Z.id. done.
  - apply lookup_lt_is_Some_2. destruct Hinv; lia.
  - intros d Hd Heq. rewrite Hd in Hw. destruct Hw as [_ Hroom].
    rewrite (ri_nextW _ _ _ _ _ _ _ Hinv), (ri_nextR _ _ _ _ _ _ _ Hinv) in Heq.
    apply mod_window_inj in Heq; destruct Hinv; lia.
Qed.

(** Without [Flush], a producer that spins because the ring looks full never
    faces a consumer that has nothing to do: when the consumer is between two
    calls, its next [Extract] returns a slot.  Batching the index updates does
    not make the two threads wait for each other. *)
Theorem ring_no_mutual_wait {T} garbage (zero : T) block (s : sys T) d :
  rtc (step false) (start garbage zero block) s ->
  wpc s = W_wait d -> afterNextWriteIndex (ring s) = readIndex (ring s) ->
  rpc s = R_idle ->
  exists i rb', Extract (ring s) = (Some i, rb').
Proof.
  intros Hs Hwpc Hspin Hrpc.
  destruct (steps_inv _ _ _ Hs (start_inv _ _ _ _))
    as (LW & PW & LR & PR & Hb & Hinv & _ & Hw & _).
  specialize (Hb eq_refl). rewrite Hwpc, Hrpc in Hb. unfold batch_ok in Hb.
  rewrite Hwpc in Hw. simpl in Hw. rewrite Hw, (ri_read _ _ _ _ _ _ _ Hinv) in Hspin.
  apply (ring_inv_full_test _ _ _ _ _ _ _ PR Hinv) in Hspin; [|destruct Hinv; lia].
  assert (Hlt : Z.of_nat (length (consumed s)) < PW) by lia.
  unfold Extract. rewrite (ri_nextR _ _ _ _ _ _ _ Hinv), (ri_write _ _ _ _ _ _ _ Hinv).
  destruct (Z.eqb_spec (Z.of_nat (length (consumed s)) mod max (ring s)) (localWriteIndex (ring s))); [|eauto].
  destruct (Z.eqb_spec (Z.of_nat (length (consumed s)) mod max (ring s)) (PW mod max (ring s))) as [E|]; [|eauto].
  apply (ring_inv_empty_test _ _ _ _ _ _ _ PW Hinv) in E; destruct Hinv; lia.
Qed.

(** ** Runs *)

(** Executable schedules: which thread moves, and what the producer does when
    it is between two calls. *)
Inductive move := M_insert (d : Z) | M_writer | M_flush | M_reader.

(** The step a thread takes at its program point, with [None] when it spins. *)
Definition run_move (s : sys Z) (m : move) : option (sys Z) :=
  let '(mkSys rb w r ins con) := s in
  match m with
  | M_insert d =>
      match w with
      | W_idle => Some (mkSys (advance_after rb)
          (if afterNextWriteIndex (advance_after rb) =? localReadIndex rb then W_wait d else W_store d) r ins con)
      | _ => None
      end
  | M_flush =>
      match w with
      | W_idle => Some (mkSys (set_writeIndex (nextWriteIndex rb) rb) W_flush_load r ins con)
      | _ => None
      end
  | M_writer =>
      match w with
      | W_idle => None
      | W_wait d => if afterNextWriteIndex rb =? readIndex rb then None
                    else Some (mkSys rb (W_reload d) r ins con)
      | W_reload d => Some (mkSys (reload_local_read rb) (W_store d) r ins con)
      | W_store d =>
          let rb' := advance_write (store d rb) in
          Some (mkSys rb' (if batchSize rb <=? wBatchCount rb' then W_publish else W_idle) r (ins ++ [d]) con)
      | W_publish => Some (mkSys (publish_write rb) W_idle r ins con)
      | W_flush_load => Some (mkSys rb (W_flush_store (nextReadIndex rb)) r ins con)
      | W_flush_store v => Some (mkSys (set_readIndex v rb) W_idle r ins con)
      end
  | M_reader =>
      match r with
      | R_idle => Some (mkSys rb w (if nextReadIndex rb =? localWriteIndex rb then R_check else R_hold) ins con)
      | R_check => Some (mkSys rb w (if nextReadIndex rb =? writeIndex rb then R_idle else R_reload) ins con)
      | R_reload => Some (mkSys (reload_local_write rb) w R_hold ins con)
      | R_hold =>
          match slot_value rb (nextReadIndex rb) with
          | Some d => let rb' := advance_read rb in
              Some (mkSys rb' w (if batchSize rb <=? rBatchCount rb' then R_publish else R_idle) ins (con ++ [d]))
          | None => None
          end
      | R_publish => Some (mkSys (publish_read rb) w R_idle ins con)
      end
  end.

Fixpoint run_moves (s : sys Z) (ms : list move) : option (sys Z) :=
  match ms with
  | [] => Some s
  | m :: ms' => match run_move s m with Some s' => run_moves s' ms' | None => None end
  end.

Lemma run_move_step b s m s' :
  run_move s m = Some s' -> b = true \/ m <> M_flush -> step b s s'.
Proof.
  destruct s as [rb w r ins con]. intros Hrun Hm. unfold step.
  destruct m; cbn [run_move] in Hrun; try done.
  - destruct w; try done. apply (inj Some) in Hrun as <-. left.
    destruct (Z.eqb_spec (afterNextWriteIndex (advance_after rb)) (localReadIndex rb)); by constructor.
  - left. destruct w; try done; try (apply (inj Some) in Hrun as <-; by constructor).
    + destruct (Z.eqb_spec (afterNextWriteIndex rb) (readIndex rb)); [done|].
      apply (inj Some) in Hrun as <-. by constructor.
    + apply (inj Some) in Hrun as <-.
      destruct (Z.leb_spec (batchSize rb) (wBatchCount (advance_write (store d rb)))); by constructor.
  - destruct Hm as [->|Hm]; [|done]. left. destruct w; try done.
    apply (inj Some) in Hrun as <-. by constructor.
  - right. destruct r; try (apply (inj Some) in Hrun as <-; by constructor).
    + apply (inj Some) in Hrun as <-. destruct (Z.eqb_spec (nextReadIndex rb) (localWriteIndex rb)); by constructor.
    + apply (inj Some) in Hrun as <-. destruct (Z.eqb_spec (nextReadIndex rb) (writeIndex rb)); by constructor.
    + destruct (slot_value rb (nextReadIndex rb)) eqn:E; [|done]. apply (inj Some) in Hrun as <-.
      destruct (Z.leb_spec (batchSize rb) (rBatchCount (advance_read rb))).
      * by apply rs_ack_batch.
      * by apply rs_ack.
Qed.

Lemma run_moves_steps b s ms s' :
  run_moves s ms = Some s' -> Forall (fun m => b = true \/ m <> M_flush) ms -> rtc (step b) s s'.
Proof.
  intros Hrun Hms. revert s Hrun. induction Hms as [|m ms Hm Hms IH]; intros s Hrun; simpl in Hrun.
  - injection Hrun as ->. apply rtc_refl.
  - destruct (run_move s m) as [s1|] eqn:E; [|done].
    apply rtc_l with s1; [by eapply run_move_step|by apply IH].
Qed.

(** The state a schedule reaches. *)
Definition after_moves (ms : list move) : sys Z :=
  default (start 0 0 true) (run_moves (start 0 0 true) ms).

Definition is_flush (m : move) : bool := match m with M_flush => true | _ => false end.

Lemma after_moves_reachable b ms :
  bool_decide (is_Some (run_moves (start 0 0 true) ms)) = true ->
  forallb (fun m => b || negb (is_flush m)) ms = true ->
  rtc (step b) (start 0 0 true) (after_moves ms).
Proof.
  intros Hrun Hms. apply (run_moves_steps _ _ ms).
  - unfold after_moves. by destruct (run_moves (start 0 0 true) ms).
  - apply Forall_forall. intros m Hm. rewrite forallb_forall in Hms.
    apply list_elem_of_In, Hms in Hm. destruct b, m; naive_solver.
Qed.

(** One item stored, flushed and read, a second one stored. *)
Definition fifo_moves : list move :=
  [M_insert 7; M_writer; M_flush; M_writer; M_writer;
   M_reader; M_reader; M_reader; M_reader; M_insert 8; M_writer].

(** An [Insert] that does not wait, with the publication that ends a batch. *)
Definition insert_moves (k : Z) : list move :=
  M_insert k :: M_writer :: (if k mod RB_BATCH =? 0 then [M_writer] else []).

(** A full ring and a producer that wants one more slot. *)
Definition full_moves : list move :=
  concat (insert_moves <$> seqZ 1 1999) ++ [M_insert 0].

Lemma ring_fifo_witness :
  rtc (step true) (start 0 0 true) (after_moves fifo_moves) /\
  consumed (after_moves fifo_moves) = [7] /\ inserted (after_moves fifo_moves) = [7; 8] /\
  consumed (after_moves fifo_moves) `prefix_of` inserted (after_moves fifo_moves).
Proof.
  assert (H : rtc (step true) (start 0 0 true) (after_moves fifo_moves))
    by (apply after_moves_reachable; vm_compute; reflexivity).
  split; [exact H|]. split; [vm_compute; reflexivity|]. split; [vm_compute; reflexivity|].
  apply (ring_fifo true 0 0 true). exact H.
Defined.

Lemma ring_slot_protected_witness :
  exists s : sys Z, rpc s = R_hold /\ wpc s = W_store 9 /\
    slot_value (ring s) (nextReadIndex (ring s)) = Some 7 /\
    slot_value (ring s) (nextReadIndex (ring s)) = inserted s !! length (consumed s) /\
    nextWriteIndex (ring s) <> nextReadIndex (ring s).
Proof.
  pose (ms := [M_insert 7; M_writer; M_flush; M_writer; M_writer; M_reader; M_reader; M_reader; M_insert 9]).
  exists (after_moves ms).
  assert (H : rtc (step true) (start 0 0 true) (after_moves ms))
    by (apply after_moves_reachable; vm_compute; reflexivity).
  assert (Hr : rpc (after_moves ms) = R_hold) by (vm_compute; reflexivity).
  assert (Hw : wpc (after_moves ms) = W_store 9) by (vm_compute; reflexivity).
  destruct (ring_slot_protected true 0 0 true (after_moves ms) H Hr) as (H1 & _ & H3).
  split; [exact Hr|]. split; [exact Hw|]. split; [vm_compute; reflexivity|].
  split; [exact H1|]. exact (H3 9 Hw).
Defined.

Lemma ring_no_mutual_wait_witness :
  length (inserted (after_moves full_moves)) = 1999%nat /\
  exists i rb', Extract (ring (after_moves full_moves)) = (Some i, rb').
Proof.
  split; [vm_compute; reflexivity|].
  apply (ring_no_mutual_wait 0 0 true (after_moves full_moves) 0).
  - apply after_moves_reachable; vm_compute; reflexivity.
  - vm_compute; reflexivity.
  - vm_compute; reflexivity.
  - vm_compute; reflexivity.
Defined.

(** ** A flush by a third thread *)

(** [LockFreeQueue::flush] (mpsc_queue_mesh_zerocopy.hpp, lines 32-36) flushes
    the rings of every writer, so a thread that is neither the producer nor the
    consumer of a ring runs its [Flush]: it loads [nextWriteIndex] and later
    stores it in [writeIndex].  The first component is the value it loaded. *)
Inductive foreign_step {T} : option Z * sys T -> option Z * sys T -> Prop :=
| fs_load s : foreign_step (None, s) (Some (nextWriteIndex (ring s)), s)
| fs_store v rb w r ins con :
    foreign_step (Some v, mkSys rb w r ins con) (None, mkSys (set_writeIndex v rb) w r ins con)
| fs_owner f s s' : step true s s' -> foreign_step (f, s) (f, s').

(** One batch stored and read to the end, then the consumer is back at the
    entry of [Extract]. *)
Definition drained_moves : list move :=
  concat (insert_moves <$> seqZ 1 50) ++
  [M_reader; M_reader; M_reader; M_reader] ++ concat (replicate 49 [M_reader; M_reader]) ++ [M_reader].

(** What the drained ring becomes when the third thread's stale store lands. *)
Definition stale_flush (s : sys Z) : sys Z :=
  mkSys (set_writeIndex 0 (ring s)) (wpc s) (rpc s) (inserted s) (consumed s).

(** When another writer of the same [LockFreeQueue] flushes the ring, its
    store of a stale [writeIndex] can move the index backwards, and the
    consumer then reads a slot that was never filled: 50 items were stored, 51
    were consumed, and the last one is the zero the buffer was created with. *)
Theorem foreign_flush_breaks_fifo :
  exists s : sys Z,
    rtc foreign_step (None, start 0 0 true) (None, s) /\
    length (inserted s) = 50%nat /\ length (consumed s) = 51%nat /\ last (consumed s) = Some 0 /\
    ~ consumed s `prefix_of` inserted s.
Proof.
  pose (s0 := after_moves drained_moves).
  pose (s1 := default (start 0 0 true) (run_moves (stale_flush s0) (replicate 4 M_reader))).
  assert (Hlift : forall f s s', rtc (step true) s s' -> rtc (@foreign_step Z) (f, s) (f, s')).
  { intros f s s'. induction 1 as [|x y z Hxy _ IH]; [apply rtc_refl|].
    eapply rtc_l; [by apply fs_owner|exact IH]. }
  exists s1. split; [|split; [vm_compute; reflexivity|split; [vm_compute; reflexivity|split; [vm_compute; reflexivity|]]]].
  - apply rtc_l with (Some 0, start 0 0 true); [apply (fs_load (start 0 0 true))|].
    transitivity (Some 0, s0).
    { apply Hlift, after_moves_reachable; vm_compute; reflexivity. }
    apply rtc_l with (None, stale_flush s0).
    { destruct s0 eqn:E. apply fs_store. }
    apply Hlift, (run_moves_steps _ _ (replicate 4 M_reader)).
    + unfold s1. destruct (run_moves (stale_flush s0) (replicate 4 M_reader)) eqn:E; [done|].
      exfalso. vm_compute in E. discriminate.
    + apply Forall_forall. intros; by left.
  - intros Hp%prefix_length. vm_compute in Hp. lia.
Qed.

End RingSteps.
