(* ===== verification/Mpsc.v ===== *)
(** The multi-producer single-consumer channel built from the ring buffers:
    [LockFreeQueue] (src/queues/mpsc_queue_mesh_zerocopy.hpp) with one ring per
    producer, and [MPSCObject], [MPSCWriter] and [MPSCReader]
    (mpsc_object_indirect_mesh.hpp, mpsc_writer_indirect_mesh.hpp,
    mpsc_reader_indirect_mesh.hpp), which pass slot pointers to and fro.  The
    queues live in a store because a writer's peer is a reader's own queue. *)
From stdpp Require Import base numbers list relations.
From Stdlib Require Import ZArith Lia.
From S2P Require Import Prelude RingBuffer.

Module Mpsc.

Record LockFreeQueue (T : Type) := mkLockFreeQueue {
  q_ : list (Ring.ZeroRingBuffer T);
  num_queue : Z;
  cur : Z
}.

Arguments mkLockFreeQueue {T}.
Arguments q_ {T} _.
Arguments num_queue {T} _.
Arguments cur {T} _.

Definition new_LockFreeQueue {T} : LockFreeQueue T :=
  {| q_ := []; num_queue := 0; cur := 0 |}.

(** A queue of [k] producers that stored nothing yet. *)
Definition fresh_queue {T} (garbage : Z) (zero : T) (k : nat) : LockFreeQueue T :=
  {| q_ := replicate k (Ring.new_ZeroRingBuffer garbage zero true); num_queue := Z.of_nat k; cur := 0 |}.

(** [AddQueue]: a new ring for one more producer. *)
Definition AddQueue {T} (garbage : Z) (zero : T) (lq : LockFreeQueue T) : LockFreeQueue T :=
  {| q_ := q_ lq ++ [Ring.new_ZeroRingBuffer garbage zero true];
     num_queue := num_queue lq + 1; cur := cur lq |}.

(** [q_[i] = rb], for an index known to be in range. *)
Definition set_ring {T} (lq : LockFreeQueue T) (i : Z) (rb : Ring.ZeroRingBuffer T) : LockFreeQueue T :=
  {| q_ := <[Z.to_nat i := rb]> (q_ lq); num_queue := num_queue lq; cur := cur lq |}.

Definition set_cur {T} (lq : LockFreeQueue T) (c : Z) : LockFreeQueue T :=
  {| q_ := q_ lq; num_queue := num_queue lq; cur := c |}.

Definition push {T} (lq : LockFreeQueue T) (writer_index : Z) (x : T) : result (LockFreeQueue T) :=
  rb ← at_index (q_ lq) writer_index;
  match Ring.Insert rb x with
  | Some rb' => Ok (set_ring lq writer_index rb')
  | None => Stop WouldBlock
  end.

(** [pop]: one turn over the rings, starting at [cur]. *)
Fixpoint pop_loop {T} (n : nat) (lq : LockFreeQueue T) : result (option T * LockFreeQueue T) :=
  match n with
  | O => Ok (None, lq)
  | S n' =>
      let lq := if num_queue lq <=? cur lq then set_cur lq 0 else lq in
      rb ← at_index (q_ lq) (cur lq);
      match Ring.Extract rb with
      | (Some slot, rb') =>
          x ← at_index (Ring.buffer rb') slot;
          Ok (Some x, set_cur (set_ring lq (cur lq) (Ring.Ack rb')) (cur lq + 1))
      | (None, rb') => pop_loop n' (set_cur (set_ring lq (cur lq) rb') (cur lq + 1))
      end
  end.

Definition pop {T} (lq : LockFreeQueue T) : result (option T * LockFreeQueue T) :=
  pop_loop (Z.to_nat (num_queue lq)) lq.

Definition flush {T} (lq : LockFreeQueue T) : LockFreeQueue T :=
  {| q_ := Ring.Flush <$> q_ lq; num_queue := num_queue lq; cur := cur lq |}.

(** ** Readers and writers *)

(** The queues of all channel objects; a [LockFreeQueue] pointer is a position
    in the store.  The items are slot pointers ([T] of the model). *)
Definition store (T : Type) : Type := list (LockFreeQueue T).

Record MPSCObject := mkMPSCObject {
  own : Z;
  peers : list Z
}.

(** Run an operation on a queue of the store. *)
Definition on_queue {T A} (h : store T) (p : Z)
    (f : LockFreeQueue T -> result (A * LockFreeQueue T)) : result (A * store T) :=
  lq ← at_index h p;
  r ← f lq;
  Ok (r.1, <[Z.to_nat p := r.2]> h).

(** [ConnectPeer (index, peer)]: the index is not used; the new ring goes to
    the object's own queue. *)
Definition ConnectPeer {T} (garbage : Z) (zero : T) (h : store T) (o peer : MPSCObject)
    : result (MPSCObject * store T) :=
  r ← on_queue h (own o) (fun lq => Ok (tt, AddQueue garbage zero lq));
  Ok ({| own := own o; peers := peers o ++ [own peer] |}, r.2).

Definition push_unit {T} (i : Z) (x : T) (lq : LockFreeQueue T) : result (unit * LockFreeQueue T) :=
  lq' ← push lq i x; Ok (tt, lq').

(** [peers[i]->push (id, addr)], the body of [MPSCReader::Ack] and
    [MPSCWriter::Write]. *)
Definition peer_push {T} (h : store T) (o : MPSCObject) (i id : Z) (addr : T) : result (store T) :=
  p ← at_index (peers o) i;
  r ← on_queue h p (push_unit id addr);
  Ok r.2.

(** [Flush] of both classes: flush every peer's queue, with all its rings. *)
Definition flush_peers {T} (h : store T) (o : MPSCObject) : result (store T) :=
  foldM (fun h p => r ← on_queue h p (fun lq => Ok (tt, flush lq)); Ok r.2) (peers o) h.

Record MPSCReader := mkMPSCReader { r_obj : MPSCObject; reader_id : Z }.

Definition Read {T} (h : store T) (r : MPSCReader) : result (option T * store T) :=
  on_queue h (own (r_obj r)) pop.

Definition Ack {T} (h : store T) (r : MPSCReader) (writer : Z) (addr : T) : result (store T) :=
  peer_push h (r_obj r) writer (reader_id r) addr.

Definition SetReaderId (r : MPSCReader) (i : Z) : MPSCReader :=
  {| r_obj := r_obj r; reader_id := i |}.

Definition Reader_Init (r : MPSCReader) : result unit :=
  afs_assert (negb (reader_id r =? -1)).

Record MPSCWriter := mkMPSCWriter { w_obj : MPSCObject; writer_id : Z; clean_cnt : Z }.

(** The constructor: [clean_cnt] is left uninitialised. *)
Definition new_MPSCWriter (o : MPSCObject) (garbage_cnt : Z) : MPSCWriter :=
  {| w_obj := o; writer_id := -1; clean_cnt := garbage_cnt |}.

Definition SetWriterId (w : MPSCWriter) (i : Z) : MPSCWriter :=
  {| w_obj := w_obj w; writer_id := i; clean_cnt := clean_cnt w |}.

(** [GetSlot] spins on [pop]: alone it cannot succeed after one failure. *)
Definition GetSlot {T} (h : store T) (w : MPSCWriter) : result (T * store T) :=
  r ← on_queue h (own (w_obj w)) pop;
  match r.1 with
  | Some s => Ok (s, r.2)
  | None => Stop WouldBlock
  end.

Definition Write {T} (h : store T) (w : MPSCWriter) (reader : Z) (addr : T) : result (store T) :=
  peer_push h (w_obj w) reader (writer_id w) addr.

(** [Init]: every slot but one goes to the writer's own queue, in the ring of
    the first reader; [slot d] is the pointer [slots + d]. *)
Definition Writer_Init {T} (slot : Z -> T) (h : store T) (w : MPSCWriter) : result (MPSCWriter * store T) :=
  _ ← afs_assert (negb (writer_id w =? -1));
  r ← on_queue h (own (w_obj w)) (fun lq =>
        lq' ← foldM (fun lq d => push lq 0 (slot d)) (seqZ 0 (Ring.RB_SIZE - 1)) lq;
        Ok (tt, lq'));
  Ok ({| w_obj := w_obj w; writer_id := writer_id w; clean_cnt := clean_cnt w + 1 |}, r.2).

(** [while (own->pop (ret)) clean_cnt++;] with a bound on the turns: [None]
    when the bound is too small. *)
Fixpoint drain {T} (fuel : nat) (lq : LockFreeQueue T) (n : Z) : result (option Z * LockFreeQueue T) :=
  match fuel with
  | O => Ok (None, lq)
  | S fuel' =>
      r ← pop lq;
      match r.1 with
      | Some _ => drain fuel' r.2 (n + 1)
      | None => Ok (Some n, r.2)
      end
  end.

Definition AttemptClean {T} (fuel : nat) (h : store T) (w : MPSCWriter) : result (option MPSCWriter * store T) :=
  r ← on_queue h (own (w_obj w)) (fun lq => drain fuel lq 0);
  match r.1 with
  | Some n => Ok (Some {| w_obj := w_obj w; writer_id := writer_id w; clean_cnt := clean_cnt w + n |}, r.2)
  | None => Ok (None, r.2)
  end.

(** [Clean]: wait until the slots that were not counted have come back. *)
Definition Clean {T} (h : store T) (w : MPSCWriter) : result (store T) :=
  foldM (fun h (_ : nat) => r ← GetSlot h w; Ok r.2)
    (seq 0 (Z.to_nat (Ring.RB_SIZE - 1 - clean_cnt w))) h.

(** [ComputeThread::FlushReverseWriter], which offers the user's code a fresh
    start of the feedback channel. *)
Definition FlushReverseWriter {T} (slot : Z -> T) (h : store T) (up_writer_ : option MPSCWriter) : result (MPSCWriter * store T) :=
  match up_writer_ with
  | None => Stop NullDeref
  | Some w => h ← flush_peers h (w_obj w); h ← Clean h w; Writer_Init slot h w
  end.

(** ** The queue as one FIFO per producer *)

(** Ring [i] holds the items [qs_i.1], of which [qs_i.2] are visible. *)
Definition holds {T} (lq : LockFreeQueue T) (qs : list (list T * Z)) : Prop :=
  Z.of_nat (length (q_ lq)) = num_queue lq /\ 0 <= cur lq <= num_queue lq /\
  Forall2 (fun rb qp => Ring.holds rb qp.1 qp.2) (q_ lq) qs.

Lemma AddQueue_fresh {T} garbage (zero : T) k :
  AddQueue garbage zero (fresh_queue garbage zero k) = fresh_queue garbage zero (S k).
Proof. unfold AddQueue, fresh_queue. simpl. f_equal; [|lia]. by rewrite <- replicate_cons_app. Qed.

Lemma fresh_queue_holds {T} garbage (zero : T) k : holds (fresh_queue garbage zero k) (replicate k ([], 0)).
Proof.
  split_and!; simpl; [by rewrite length_replicate|lia|lia|].
  apply Forall2_replicate. apply Ring.new_holds.
Qed.

(** The ring a turn of [pop] looks at after [k] failures. *)
Definition turn {T} (lq : LockFreeQueue T) (k : Z) : Z := (cur lq + k) mod num_queue lq.

Section QueueSpec.
Context {T : Type}.
Implicit Types (lq : LockFreeQueue T) (qs : list (list T * Z)).

Lemma holds_ring lq qs i :
  holds lq qs -> 0 <= i < num_queue lq ->
  exists rb q p, q_ lq !! Z.to_nat i = Some rb /\ qs !! Z.to_nat i = Some (q, p) /\ Ring.holds rb q p.
Proof.
  intros (Hlen & _ & HF) Hi.
  destruct (lookup_lt_is_Some_2 (q_ lq) (Z.to_nat i)) as [rb Hrb]; [lia|].
  destruct (Forall2_lookup_l _ _ _ _ _ HF Hrb) as ([q p] & Hq & Hh). eauto 6.
Qed.

Lemma holds_length lq qs : holds lq qs -> Z.of_nat (length qs) = num_queue lq.
Proof. intros (Hlen & _ & HF). rewrite <- (Forall2_length _ _ _ HF). done. Qed.

Lemma holds_set_ring lq qs i rb q p :
  holds lq qs -> 0 <= i < num_queue lq -> Ring.holds rb q p ->
  holds (set_ring lq i rb) (<[Z.to_nat i := (q, p)]> qs).
Proof.
  intros (Hlen & Hc & HF) Hi Hh. split_and!; simpl; [by rewrite length_insert|lia|lia|].
  by apply Forall2_insert.
Qed.

Lemma holds_set_cur lq qs c :
  holds lq qs -> 0 <= c <= num_queue lq -> holds (set_cur lq c) qs.
Proof. by intros (Hlen & _ & HF) Hc. Qed.

Lemma at_index_ring lq qs i :
  holds lq qs -> 0 <= i < num_queue lq ->
  exists rb q p, at_index (q_ lq) i = Ok rb /\ q_ lq !! Z.to_nat i = Some rb /\
    qs !! Z.to_nat i = Some (q, p) /\ Ring.holds rb q p.
Proof.
  intros Hh Hi. destruct (holds_ring _ _ _ Hh Hi) as (rb & q & p & Hrb & Hq & HR).
  exists rb, q, p. split_and!; try done. apply at_index_ok. split; [lia|done].
Qed.

(** A returning [push] appends to the ring of its writer only. *)
Lemma push_holds lq qs i x lq' :
  holds lq qs -> 0 <= i < num_queue lq -> push lq i x = Ok lq' ->
  exists q p p', qs !! Z.to_nat i = Some (q, p) /\
    holds lq' (<[Z.to_nat i := (q ++ [x], p')]> qs) /\ num_queue lq' = num_queue lq.
Proof.
  intros Hh Hi Hpush. unfold push in Hpush.
  destruct (at_index_ring _ _ _ Hh Hi) as (rb & q & p & Hat & _ & Hq & HR).
  rewrite Hat in Hpush. simpl in Hpush.
  destruct (Ring.Insert rb x) as [rb'|] eqn:HI; [|done]. injection Hpush as <-.
  destruct (Ring.Insert_holds _ _ _ _ _ HR HI) as (p' & HR' & _).
  exists q, p, p'. split_and!; [done| |done]. by apply holds_set_ring.
Qed.

(** What [n] turns of [pop] can return. *)
Definition pop_result lq qs (n : nat) (res : option T) lq' : Prop :=
  num_queue lq' = num_queue lq /\
  match res with
  | None => holds lq' qs /\
      forall k, 0 <= k < Z.of_nat n -> exists q, qs !! Z.to_nat (turn lq k) = Some (q, 0)
  | Some x => exists k q p, 0 <= k < Z.of_nat n /\
      qs !! Z.to_nat (turn lq k) = Some (x :: q, p) /\ 0 < p /\
      (forall j, 0 <= j < k -> exists q, qs !! Z.to_nat (turn lq j) = Some (q, 0)) /\
      holds lq' (<[Z.to_nat (turn lq k) := (q, p - 1)]> qs) /\
      cur lq' = turn lq k + 1
  end.

Lemma turn_range lq k : 0 < num_queue lq -> 0 <= turn lq k < num_queue lq.
Proof. intros. by apply Z.mod_pos_bound. Qed.

Lemma normal_cur lq qs :
  holds lq qs -> 0 < num_queue lq ->
  (if num_queue lq <=? cur lq then set_cur lq 0 else lq) = set_cur lq (turn lq 0).
Proof.
  intros (_ & Hc & _) Hn. unfold turn. rewrite Z.add_0_r.
  destruct (Z.leb_spec (num_queue lq) (cur lq)).
  - replace (cur lq) with (num_queue lq) by lia. by rewrite Z_mod_same_full.
  - rewrite Z.mod_small by lia. by destruct lq.
Qed.

Lemma turn_shift lq k :
  0 < num_queue lq -> turn (set_cur lq (turn lq 0 + 1)) k = turn lq (k + 1).
Proof.
  intros. unfold turn. simpl. rewrite Z.add_0_r.
  replace (cur lq mod num_queue lq + 1 + k) with (cur lq mod num_queue lq + (k + 1)) by lia.
  rewrite Zplus_mod_idemp_l. done.
Qed.

Lemma pop_loop_spec n lq qs :
  holds lq qs -> 0 < num_queue lq ->
  exists res lq', pop_loop n lq = Ok (res, lq') /\ pop_result lq qs n res lq'.
Proof.
  revert lq. induction n as [|n IH]; intros lq Hh Hn; cbn [pop_loop].
  { exists None, lq. split; [done|]. split; [done|]. split; [done|]. intros; lia. }
  rewrite (normal_cur _ _ Hh Hn).
  pose proof (turn_range lq 0 Hn) as Ht.
  destruct (at_index_ring (set_cur lq (turn lq 0)) qs (turn lq 0)) as (rb & q & p & Hat & Hrb & Hq & HR);
    [by apply holds_set_cur; [|lia]|done|].
  cbn [cur set_cur] in *. rewrite Hat. simpl mbind.
  pose proof (Ring.Extract_holds _ _ _ HR) as HX.
  destruct (Ring.Extract rb) as [[slot|] rb'] eqn:HE.
  - destruct (Ring.Extract_Ack_holds _ _ _ _ _ HR HE) as (d & q' & -> & Hd & HR' & _).
    assert (Hslot : at_index (Ring.buffer rb') slot = Ok d).
    { apply at_index_ok. split; [|done]. unfold Ring.Extract in HE.
      destruct HR as (ins & R & LW & PW & LR & PR & Hinv & _).
      pose proof (Ring.ring_inv_index_bounds _ _ _ _ _ _ _ Hinv).
      repeat case_match; simplify_eq; simpl; lia. }
    rewrite Hslot. simpl mbind.
    eexists (Some d), _. split; [done|]. split; [done|].
    exists 0, q', p. split_and!; try done; try lia.
    apply holds_set_cur; [|simpl; lia]. apply holds_set_ring; [|done|done].
    by apply holds_set_cur; [|lia].
  - destruct HX as [-> ->].
    assert (Hsame : set_cur (set_ring (set_cur lq (turn lq 0)) (turn lq 0) rb) (turn lq 0 + 1)
                    = set_cur lq (turn lq 0 + 1)).
    { unfold set_ring, set_cur. simpl. f_equal. by apply list_insert_id. }
    rewrite Hsame.
    destruct (IH (set_cur lq (turn lq 0 + 1))) as (res & lq' & Hrun & Hnum & Hres);
      [by apply holds_set_cur; [|lia]|done|].
    exists res, lq'. split; [done|]. split; [done|].
    assert (Hfirst : forall j, 0 <= j < 1 -> exists q, qs !! Z.to_nat (turn lq j) = Some (q, 0)).
    { intros j Hj. replace j with 0 by lia. eauto. }
    destruct res as [x|].
    + destruct Hres as (k & q1 & p1 & Hk & Hlook & Hp & Hbefore & Hh' & Hc').
      rewrite turn_shift in Hlook, Hh', Hc' by done.
      exists (k + 1), q1, p1. split_and!; try done; try lia.
      intros j Hj. destruct (decide (j = 0)) as [->|]; [apply Hfirst; lia|].
      specialize (Hbefore (j - 1) ltac:(lia)). rewrite turn_shift in Hbefore by done.
      by replace (j - 1 + 1) with j in Hbefore by lia.
    + destruct Hres as [Hh' Hall]. split; [done|]. intros k Hk.
      destruct (decide (k = 0)) as [->|]; [apply Hfirst; lia|].
      specialize (Hall (k - 1) ltac:(lia)). rewrite turn_shift in Hall by done.
      by replace (k - 1 + 1) with k in Hall by lia.
Qed.

(** Every ring is looked at once in a full turn. *)
Lemma turn_surj lq i :
  0 <= i < num_queue lq -> exists k, 0 <= k < num_queue lq /\ turn lq k = i.
Proof.
  intros Hi. exists ((i - cur lq) mod num_queue lq). split; [apply Z.mod_pos_bound; lia|].
  unfold turn. rewrite Zplus_mod_idemp_r. replace (cur lq + (i - cur lq)) with i by lia.
  by apply Z.mod_small.
Qed.

End QueueSpec.

(** ** Slot pointers are conserved *)

(** Everything in the rings of one queue, and of all queues. *)
Definition items {T} (qs : list (list T * Z)) : list T := concat (fst <$> qs).
Definition all_items {T} (qss : list (list (list T * Z))) : list T := concat (items <$> qss).

(** One operation of a writer or a reader.  The second component of a state is
    the list of slots threads hold: taken from a queue and not yet passed on. *)
Inductive chan_step {T} : store T * list T -> store T * list T -> Prop :=
| cs_get h w s h' held :
    GetSlot h w = Ok (s, h') -> chan_step (h, held) (h', s :: held)
| cs_write h w reader s h' held held' :
    held ≡ₚ s :: held' -> Write h w reader s = Ok h' -> chan_step (h, held) (h', held')
| cs_read h r s h' held :
    Read h r = Ok (Some s, h') -> chan_step (h, held) (h', s :: held)
| cs_read_none h r h' held :
    Read h r = Ok (None, h') -> chan_step (h, held) (h', held)
| cs_ack h r writer s h' held held' :
    held ≡ₚ s :: held' -> Ack h r writer s = Ok h' -> chan_step (h, held) (h', held')
| cs_flush h o h' held :
    flush_peers h o = Ok h' -> chan_step (h, held) (h', held).

(** The slots in the rings together with the held ones are [all]. *)
Definition chan_inv {T} (all : list T) (st : store T * list T) : Prop :=
  exists qss, Forall2 holds st.1 qss /\ all_items qss ++ st.2 ≡ₚ all.

Section Conservation.
Context {T : Type}.
Implicit Types (lq : LockFreeQueue T) (h : store T) (qs : list (list T * Z)).

Lemma items_insert qs i q p q' p' :
  qs !! i = Some (q, p) ->
  exists rest, items qs ≡ₚ q ++ rest /\ items (<[i := (q', p')]> qs) ≡ₚ q' ++ rest.
Proof.
  intros Hi. unfold items. rewrite list_fmap_insert. simpl.
  apply concat_insert_perm. by rewrite list_lookup_fmap, Hi.
Qed.

Lemma all_items_insert (qss : list (list (list T * Z))) i qs qs' :
  qss !! i = Some qs ->
  exists rest, all_items qss ≡ₚ items qs ++ rest /\
    all_items (<[i := qs']> qss) ≡ₚ items qs' ++ rest.
Proof.
  intros Hi. unfold all_items. rewrite list_fmap_insert.
  apply concat_insert_perm. by rewrite list_lookup_fmap, Hi.
Qed.

Lemma push_items lq qs i x lq' :
  holds lq qs -> push lq i x = Ok lq' ->
  exists qs', holds lq' qs' /\ items qs' ≡ₚ x :: items qs.
Proof.
  intros Hh Hp. assert (Hi : 0 <= i < num_queue lq).
  { unfold push in Hp. destruct (at_index (q_ lq) i) eqn:E; [|done].
    apply at_index_ok in E as [E1 E2]. apply lookup_lt_Some in E2. destruct Hh; lia. }
  destruct (push_holds _ _ _ _ _ Hh Hi Hp) as (q & p & p' & Hq & Hh' & _).
  eexists. split; [done|].
  destruct (items_insert _ _ _ _ (q ++ [x]) p' Hq) as (rest & H1 & H2).
  rewrite H1, H2. rewrite <- app_assoc. simpl. by rewrite Permutation_middle.
Qed.

Lemma pop_items lq qs res lq' :
  holds lq qs -> pop lq = Ok (res, lq') ->
  exists qs', holds lq' qs' /\ items qs ≡ₚ option_list res ++ items qs'.
Proof.
  intros Hh Hp. destruct (decide (num_queue lq = 0)) as [E|Hn].
  { unfold pop in Hp. rewrite E in Hp. simpl in Hp. injection Hp as <- <-. by exists qs. }
  destruct (pop_loop_spec (Z.to_nat (num_queue lq)) lq qs Hh) as (r1 & l1 & Hrun & _ & Hres);
    [destruct Hh; lia|].
  unfold pop in Hp. rewrite Hrun in Hp. injection Hp as -> ->. destruct res as [x|].
  - destruct Hres as (k & q & p & _ & Hlook & _ & _ & Hh' & _). eexists. split; [done|]. simpl.
    destruct (items_insert _ _ _ _ q (p - 1) Hlook) as (rest & H1 & H2). by rewrite H1, H2.
  - destruct Hres as [Hh' _]. by exists qs.
Qed.

Lemma flush_holds lq qs :
  holds lq qs -> holds (flush lq) ((fun qp => (qp.1, Z.of_nat (length qp.1))) <$> qs).
Proof.
  intros (Hlen & Hc & HF). split_and!; simpl; [by rewrite length_fmap|lia|lia|].
  apply Forall2_fmap. eapply Forall2_impl; [done|]. intros rb [q p] HR. by apply Ring.Flush_holds in HR as [??].
Qed.

Lemma flush_items lq qs : holds lq qs -> exists qs', holds (flush lq) qs' /\ items qs' = items qs.
Proof.
  intros Hh. eexists. split; [by apply flush_holds|].
  unfold items. rewrite <- list_fmap_compose. done.
Qed.

(** An operation on one queue of the store that takes [out] from it and puts
    [into] in it does the same to the whole store. *)
Lemma on_queue_items {A} h qss p (f : LockFreeQueue T -> result (A * LockFreeQueue T)) a h' out into :
  Forall2 holds h qss -> on_queue h p f = Ok (a, h') ->
  (forall lq qs lq', holds lq qs -> f lq = Ok (a, lq') ->
     exists qs', holds lq' qs' /\ into ++ items qs ≡ₚ out ++ items qs') ->
  exists qss', Forall2 holds h' qss' /\ into ++ all_items qss ≡ₚ out ++ all_items qss'.
Proof.
  intros HF Hon Hf. unfold on_queue in Hon.
  destruct (at_index h p) as [lq|] eqn:Hat; [|done]. simpl in Hon.
  destruct (f lq) as [[a0 lq']|] eqn:Hrun; [|done]. simpl in Hon. injection Hon as -> <-.
  apply at_index_ok in Hat as [Hp0 Hat].
  destruct (Forall2_lookup_l _ _ _ _ _ HF Hat) as (qs & Hqs & Hh).
  destruct (Hf _ _ _ Hh Hrun) as (qs' & Hh' & Hperm).
  exists (<[Z.to_nat p := qs']> qss). split; [by apply Forall2_insert|].
  destruct (all_items_insert qss _ qs qs' Hqs) as (rest & H1 & H2).
  rewrite H1, H2, !app_assoc. by rewrite Hperm.
Qed.

Lemma peer_push_items h qss o i id x h' :
  Forall2 holds h qss -> peer_push h o i id x = Ok h' ->
  exists qss', Forall2 holds h' qss' /\ all_items qss' ≡ₚ x :: all_items qss.
Proof.
  intros HF Hp. unfold peer_push in Hp. result_inv. destruct a0 as [[] h1]. simpl.
  destruct (on_queue_items h qss _ _ _ _ [] [x] HF E0) as (qss' & HF' & Hperm).
  - intros lq qs lq' Hh Hpu. unfold push_unit in Hpu. result_inv.
    destruct (push_items _ _ _ _ _ Hh E1) as (qs' & ? & Hi). exists qs'. by rewrite Hi.
  - exists qss'. by rewrite <- Hperm.
Qed.

Lemma pop_on_queue_items h qss p res h' :
  Forall2 holds h qss -> on_queue h p pop = Ok (res, h') ->
  exists qss', Forall2 holds h' qss' /\ all_items qss ≡ₚ option_list res ++ all_items qss'.
Proof.
  intros HF Hon. apply (on_queue_items h qss p pop res h' (option_list res) []); [done|done|].
  intros lq qs lq' Hh Hp. by apply (pop_items lq).
Qed.

Lemma flush_peers_items h o h' qss :
  Forall2 holds h qss -> flush_peers h o = Ok h' ->
  exists qss', Forall2 holds h' qss' /\ all_items qss' ≡ₚ all_items qss.
Proof.
  unfold flush_peers. generalize (peers o). intros l. revert h qss.
  induction l as [|p l IH]; intros h qss HF Hf; simpl in Hf.
  { injection Hf as <-. by exists qss. }
  result_inv. destruct a0 as [[] h1]. simpl in *.
  destruct (on_queue_items h qss _ _ _ _ [] [] HF E0) as (qss1 & HF1 & Hp1).
  - intros lq qs lq' Hh Hfl. injection Hfl as <-.
    destruct (flush_items _ _ Hh) as (qs' & ? & Hi). exists qs'. by rewrite Hi.
  - destruct (IH _ _ HF1 Hf) as (qss' & HF' & Hp'). exists qss'. split; [done|].
    by rewrite Hp', <- Hp1.
Qed.

Lemma chan_step_inv (all : list T) st st' : chan_step st st' -> chan_inv all st -> chan_inv all st'.
Proof.
  intros Hstep (qss & HF & Hall). unfold chan_inv. destruct Hstep; simpl in *.
  - unfold GetSlot in H. result_inv. destruct a as [[x|] h1]; [|done]. simpl in H. injection H as -> ->.
    destruct (pop_on_queue_items _ _ _ _ _ HF E) as (qss' & HF' & Hp). exists qss'. split; [done|].
    rewrite <- Hall, Hp. simpl. by rewrite Permutation_middle.
  - destruct (peer_push_items _ _ _ _ _ _ _ HF H0) as (qss' & HF' & Hp). exists qss'. split; [done|].
    rewrite <- Hall, Hp, H. simpl. by rewrite Permutation_middle.
  - destruct (pop_on_queue_items _ _ _ _ _ HF H) as (qss' & HF' & Hp). exists qss'. split; [done|].
    rewrite <- Hall, Hp. simpl. by rewrite Permutation_middle.
  - destruct (pop_on_queue_items _ _ _ _ _ HF H) as (qss' & HF' & Hp). exists qss'. split; [done|].
    by rewrite <- Hall, Hp.
  - destruct (peer_push_items _ _ _ _ _ _ _ HF H0) as (qss' & HF' & Hp). exists qss'. split; [done|].
    rewrite <- Hall, Hp, H. simpl. by rewrite Permutation_middle.
  - destruct (flush_peers_items _ _ _ _ HF H) as (qss' & HF' & Hp). exists qss'. split; [done|].
    by rewrite Hp.
Qed.

Lemma chan_run_inv (all : list T) st st' : rtc chan_step st st' -> chan_inv all st -> chan_inv all st'.
Proof. induction 1; [done|]. eauto using chan_step_inv. Qed.

End Conservation.

(** ** Filling and draining *)

(** The number of items the consumer can see. *)
Definition visible {T} (qs : list (list T * Z)) : Z :=
  foldr (fun qp n => qp.2 + n) 0 qs.

Section FillDrain.
Context {T : Type}.
Implicit Types (lq : LockFreeQueue T) (qs : list (list T * Z)).

Lemma visible_insert qs i q p q' p' :
  qs !! i = Some (q, p) -> visible (<[i := (q', p')]> qs) = visible qs - p + p'.
Proof.
  unfold visible. revert i. induction qs as [|[q0 p0] qs IH]; intros [|i] Hi; simpl in Hi; [done|done|..].
  - injection Hi as -> ->. simpl. lia.
  - simpl. rewrite (IH _ Hi). lia.
Qed.

Lemma visible_nonneg lq qs : holds lq qs -> 0 <= visible qs.
Proof.
  intros (_ & _ & HF). unfold visible.
  induction HF as [|rb [q p] l k HR _ IH]; simpl; [lia|].
  apply Ring.holds_visible in HR. simpl in *. lia.
Qed.

Lemma visible_zero lq qs :
  holds lq qs -> (forall i, 0 <= i < num_queue lq -> exists q, qs !! Z.to_nat i = Some (q, 0)) ->
  visible qs = 0.
Proof.
  intros Hh Hall. pose proof (holds_length _ _ Hh) as Hlen.
  assert (HF : Forall (fun qp => qp.2 = 0) qs).
  { apply Forall_lookup. intros i [q p] Hi. pose proof (lookup_lt_Some _ _ _ Hi).
    destruct (Hall (Z.of_nat i) ltac:(lia)) as [q' Hq']. rewrite Nat2Z.id, Hi in Hq'. by simplify_eq. }
  clear -HF. induction HF as [|[q p] l Hp _ IH]; simpl in *; lia.
Qed.

(** A failed turn means that no ring had a visible item. *)
Lemma pop_none_visible lq qs n lq' :
  holds lq qs -> 0 < num_queue lq -> Z.of_nat n = num_queue lq ->
  pop_result lq qs n None lq' -> visible qs = 0.
Proof.
  intros Hh Hn Hlen (_ & _ & Hall). apply (visible_zero lq); [done|]. intros i Hi.
  destruct (turn_surj lq i Hi) as (k & Hk & Ht). rewrite <- Ht. apply Hall. lia.
Qed.

Lemma pop_spec lq qs :
  holds lq qs -> 0 < num_queue lq ->
  exists res lq', pop lq = Ok (res, lq') /\ pop_result lq qs (Z.to_nat (num_queue lq)) res lq'.
Proof. intros. by apply pop_loop_spec. Qed.

(** Draining stops after exactly the visible items. *)
Lemma drain_spec fuel lq qs n :
  holds lq qs -> 0 < num_queue lq -> visible qs < Z.of_nat fuel ->
  exists lq' qs', drain fuel lq n = Ok (Some (n + visible qs), lq') /\
    holds lq' qs' /\ visible qs' = 0 /\ num_queue lq' = num_queue lq.
Proof.
  revert lq qs n. induction fuel as [|fuel IH]; intros lq qs n Hh Hn Hv.
  { pose proof (visible_nonneg _ _ Hh). lia. }
  cbn [drain]. destruct (pop_spec _ _ Hh Hn) as (res & lq1 & Hpop & Hres). rewrite Hpop. simpl mbind.
  destruct res as [x|].
  - destruct Hres as (Hnum & k & q & p & _ & Hlook & Hp & _ & Hh' & _).
    pose proof (visible_insert _ _ _ _ q (p - 1) Hlook) as Hv'.
    destruct (IH lq1 _ (n + 1) Hh') as (lq' & qs' & Hd & Hh2 & Hv2 & Hn2); [lia|lia|].
    exists lq', qs'. split_and!; try done; [|by rewrite Hn2].
    cbn [fst snd]. rewrite Hd, Hv'. do 3 f_equal. lia.
  - pose proof (pop_none_visible _ _ (Z.to_nat (num_queue lq)) _ Hh Hn ltac:(lia) Hres) as Hz.
    destruct Hres as (Hnum & Hh' & _). exists lq1, qs. simpl. rewrite Hz, Z.add_0_r. by split_and!.
Qed.

(** A ring whose reader never acknowledged anything takes [RB_SIZE - 1] items;
    the other rings of the queue keep theirs. *)
Lemma fill_ring (slot : Z -> T) n lq rb rbs qs :
  holds lq (([], 0) :: qs) -> q_ lq = rb :: rbs -> Ring.batchSize rb = Ring.RB_BATCH -> Ring.rBatchCount rb = 0 -> 0 <= n < Ring.max rb ->
  exists lq' p, foldM (fun lq d => push lq 0 (slot d)) (seqZ 0 n) lq = Ok lq' /\
    holds lq' ((slot <$> seqZ 0 n, p) :: qs) /\ n - p < Ring.RB_BATCH.
Proof.
  intros Hh Hq Hb Hr Hn.
  destruct (foldM_inv (fun ds lq1 => exists rb1 p, q_ lq1 = rb1 :: rbs /\ Ring.rBatchCount rb1 = 0 /\
      Ring.max rb1 = Ring.max rb /\ Ring.batchSize rb1 = Ring.RB_BATCH /\ holds lq1 ((slot <$> ds, p) :: qs))
      (fun lq d => push lq 0 (slot d)) (seqZ 0 n) lq) as (lq' & Hf & rb1 & p & Hq1 & _ & _ & Hb1 & Hh').
  - exists rb, 0. done.
  - intros ds d lq1 (rb1 & p & Hq1 & Hr1 & Hm1 & Hb1 & Hh1) Hpre.
    assert (Hlen : Z.of_nat (S (length ds)) <= n).
    { apply prefix_length in Hpre. rewrite length_app, length_seqZ in Hpre. simpl in Hpre. lia. }
    assert (HR : Ring.holds rb1 (slot <$> ds) p).
    { destruct Hh1 as (_ & _ & HF). rewrite Hq1 in HF. by apply Forall2_cons_1 in HF as [? _]. }
    destruct (Ring.Insert_total rb1 (slot <$> ds) p (slot d) HR) as [rb2 Hrb2].
    { rewrite Hr1, Hm1, length_fmap. lia. }
    destruct (Ring.Insert_holds _ _ _ _ _ HR Hrb2) as (p' & HR' & _ & Hm2 & Hb2).
    exists (set_ring lq1 0 rb2). split.
    { unfold push. rewrite Hq1. simpl. by rewrite Hrb2. }
    exists rb2, p'. split_and!.
    + unfold set_ring. simpl. by rewrite Hq1.
    + by rewrite (Ring.Insert_rBatchCount _ _ _ Hrb2).
    + congruence.
    + congruence.
    + rewrite fmap_app. simpl. apply (holds_set_ring lq1 _ 0 rb2 _ p' Hh1); [|done].
      destruct Hh1 as (Hl & _). rewrite Hq1 in Hl. simpl in Hl. lia.
  - exists lq', p. split; [done|]. split; [done|].
    destruct Hh' as (_ & _ & HF). rewrite Hq1 in HF. apply Forall2_cons_1 in HF as [HR _].
    apply Ring.holds_visible in HR. cbn [fst snd] in HR. rewrite Hb1, length_fmap, length_seqZ in HR. lia.
Qed.

Lemma Writer_Init_run (slot : Z -> T) h w lq rb rbs qs :
  writer_id w <> -1 -> at_index h (own (w_obj w)) = Ok lq ->
  holds lq (([], 0) :: qs) -> q_ lq = rb :: rbs -> Ring.batchSize rb = Ring.RB_BATCH ->
  Ring.rBatchCount rb = 0 -> Ring.max rb = Ring.RB_SIZE ->
  exists lq' p,
    Writer_Init slot h w = Ok (mkMPSCWriter (w_obj w) (writer_id w) (clean_cnt w + 1), <[Z.to_nat (own (w_obj w)) := lq']> h) /\
    holds lq' ((slot <$> seqZ 0 (Ring.RB_SIZE - 1), p) :: qs) /\
    Ring.RB_SIZE - 1 - p < Ring.RB_BATCH.
Proof.
  intros Hid Hat Hh Hq Hb Hr Hm.
  destruct (fill_ring slot (Ring.RB_SIZE - 1) lq rb rbs qs Hh Hq Hb Hr) as (lq' & p & Hf & Hh' & Hp).
  { rewrite Hm. unfold Ring.RB_SIZE. lia. }
  unfold Writer_Init, on_queue. rewrite (proj2 (Z.eqb_neq _ _) Hid).
  cbn [negb afs_assert mbind result_bind]. rewrite Hat. cbn [mbind result_bind]. rewrite Hf.
  exists lq', p. done.
Qed.

End FillDrain.

(** ** Theorems *)

(** [pop] never stops the process on a queue with at least one ring.  It
    fails exactly when no ring has a visible item; otherwise it returns the
    oldest item of the first ring with one, in round-robin order from [cur],
    removes that item only, and the next turn starts after that ring. *)
Theorem pop_round_robin {T} (lq : LockFreeQueue T) qs :
  holds lq qs -> 0 < num_queue lq ->
  exists res lq', pop lq = Ok (res, lq') /\
    (res = None <-> visible qs = 0) /\
    match res with
    | None => holds lq' qs
    | Some x => exists k q p, 0 <= k < num_queue lq /\
        qs !! Z.to_nat (turn lq k) = Some (x :: q, p) /\
        (forall j, 0 <= j < k -> exists q, qs !! Z.to_nat (turn lq j) = Some (q, 0)) /\
        holds lq' (<[Z.to_nat (turn lq k) := (q, p - 1)]> qs) /\ cur lq' = turn lq k + 1
    end.
Proof.
  intros Hh Hn. destruct (pop_spec _ _ Hh Hn) as (res & lq' & Hpop & Hres).
  exists res, lq'. split; [done|]. destruct res as [x|].
  - destruct Hres as (_ & k & q & p & Hk & Hlook & Hp & Hbefore & Hh' & Hc).
    split; [|exists k, q, p; split_and!; try done; lia].
    split; [done|]. intros Hv. exfalso.
    pose proof (visible_insert _ _ _ _ q (p - 1) Hlook).
    pose proof (visible_nonneg _ _ Hh'). lia.
  - split; [|by destruct Hres as (_ & Hh' & _)].
    split; [|done]. intros _. apply (pop_none_visible lq qs (Z.to_nat (num_queue lq)) lq'); [done|done|lia|done].
Qed.

(** Slot pointers are neither lost nor duplicated: after any sequence of
    [GetSlot], [Write], [Read], [Ack] and [Flush] calls by any writers and
    readers, the pointers in all the rings together with the ones the threads
    hold are a permutation of the original ones, so no slot is in two places. *)
Theorem slots_conserved {T} (all : list T) (st st' : store T * list T) :
  chan_inv all st -> NoDup all -> rtc chan_step st st' ->
  exists qss, Forall2 holds st'.1 qss /\ all_items qss ++ st'.2 ≡ₚ all /\
    NoDup (all_items qss ++ st'.2).
Proof.
  intros Hinv Hnd Hsteps.
  destruct (chan_run_inv all st st' Hsteps Hinv) as (qss & HF & Hp). exists qss. split_and!; [done|done|]. by rewrite Hp.
Qed.

(** [MPSCWriter::Init] on a writer that was connected to at least one reader
    returns without spinning and leaves all [RB_SIZE - 1] slots in the first ring
    of the writer's queue. *)
Theorem Writer_Init_fills {T} (slot : Z -> T) garbage (zero : T) (h : store T) (w : MPSCWriter) k :
  writer_id w <> -1 -> h !! Z.to_nat (own (w_obj w)) = Some (fresh_queue garbage zero (S k)) ->
  0 <= own (w_obj w) ->
  exists lq' p,
    Writer_Init slot h w = Ok (mkMPSCWriter (w_obj w) (writer_id w) (clean_cnt w + 1), <[Z.to_nat (own (w_obj w)) := lq']> h) /\
    holds lq' ((slot <$> seqZ 0 (Ring.RB_SIZE - 1), p) :: replicate k ([], 0)) /\
    Ring.RB_SIZE - 1 - p < Ring.RB_BATCH.
Proof.
  intros Hid Hh Hown.
  apply (Writer_Init_run slot h w _ (Ring.new_ZeroRingBuffer garbage zero true)
    (replicate k (Ring.new_ZeroRingBuffer garbage zero true)) _ Hid
    (proj2 (at_index_ok h _ _) (conj Hown Hh))); try reflexivity.
  apply (fresh_queue_holds garbage zero (S k)).
Qed.

(** [AttemptClean] ends: with more turns than there are visible items it
    returns, having taken exactly the visible items of the writer's own queue
    and added their number to [clean_cnt]. *)
Theorem AttemptClean_counts {T} fuel (h : store T) (w : MPSCWriter) lq qs :
  at_index h (own (w_obj w)) = Ok lq -> holds lq qs -> 0 < num_queue lq -> visible qs < Z.of_nat fuel ->
  exists w' lq' qs', AttemptClean fuel h w = Ok (Some w', <[Z.to_nat (own (w_obj w)) := lq']> h) /\
    clean_cnt w' = clean_cnt w + visible qs /\ holds lq' qs' /\ visible qs' = 0.
Proof.
  intros Hat Hh Hn Hv. unfold AttemptClean, on_queue. rewrite Hat. simpl mbind.
  destruct (drain_spec fuel lq qs 0 Hh Hn Hv) as (lq' & qs' & Hd & Hh' & Hv' & _).
  rewrite Hd. simpl. by eexists _, lq', qs'.
Qed.

(** ** Witnesses *)

(** One producer that stored two items and published them. *)
Definition two_items : LockFreeQueue Z :=
  flush (match push (AddQueue 0 0 new_LockFreeQueue) 0 7 with
         | Ok l => match push l 0 8 with Ok l => l | Stop _ => l end | Stop _ => new_LockFreeQueue end).

Lemma two_items_holds : holds two_items [([7; 8], 2)].
Proof.
  assert (H0 : holds (AddQueue 0 0 new_LockFreeQueue) [([] : list Z, 0)]).
  { split_and!; simpl; try lia. constructor; [apply Ring.new_holds|constructor]. }
  destruct (push (AddQueue 0 0 new_LockFreeQueue) 0 7) as [l1|] eqn:E1; [|by vm_compute in E1].
  destruct (push_holds _ _ 0 _ _ H0 ltac:(simpl; lia) E1) as (q & p & p' & Hq & H1 & Hn1).
  simpl in Hq. injection Hq as <- <-. simpl in H1, Hn1.
  destruct (push l1 0 8) as [l2|] eqn:E2.
  2: { vm_compute in E1. injection E1 as <-. by vm_compute in E2. }
  destruct (push_holds _ _ 0 _ _ H1 ltac:(lia) E2) as (q & p2 & p3 & Hq & H2 & _).
  simpl in Hq. injection Hq as <- <-. simpl in H2.
  unfold two_items. rewrite E1, E2. apply (flush_holds _ _ H2).
Qed.

Lemma pop_round_robin_witness :
  exists res lq', pop two_items = Ok (res, lq') /\ (res = None <-> visible [([7; 8], 2)] = 0) /\
    match res with
    | None => holds lq' [([7; 8], 2)]
    | Some x => exists k q p, 0 <= k < num_queue two_items /\
        [([7; 8], 2)] !! Z.to_nat (turn two_items k) = Some (x :: q, p) /\
        (forall j, 0 <= j < k -> exists q, [([7; 8], 2)] !! Z.to_nat (turn two_items j) = Some (q, 0)) /\
        holds lq' (<[Z.to_nat (turn two_items k) := (q, p - 1)]> [([7; 8], 2)]) /\
        cur lq' = turn two_items k + 1
    end.
Proof. apply pop_round_robin; [exact two_items_holds | by vm_compute]. Defined.

Lemma slots_conserved_witness :
  exists qss, Forall2 holds ([two_items], [] : list Z).1 qss /\
    all_items qss ++ ([two_items], [] : list Z).2 ≡ₚ [7; 8] /\
    NoDup (all_items qss ++ ([two_items], [] : list Z).2).
Proof.
  apply (slots_conserved [7; 8] ([two_items], []) ([two_items], [])).
  - exists [[([7; 8], 2)]]. split; [|done]. constructor; [exact two_items_holds|constructor].
  - apply (bool_decide_unpack _). by vm_compute.
  - apply rtc_refl.
Defined.

Lemma Writer_Init_fills_witness :
  exists lq' p,
    Writer_Init (fun d => d) [fresh_queue 0 0 2] (SetWriterId (new_MPSCWriter (mkMPSCObject 0 [1; 2]) 0) 0)
      = Ok (mkMPSCWriter (mkMPSCObject 0 [1; 2]) 0 (0 + 1), <[Z.to_nat 0 := lq']> [fresh_queue 0 0 2]) /\
    holds lq' (((fun d => d) <$> seqZ 0 (Ring.RB_SIZE - 1), p) :: replicate 1 ([], 0)) /\
    Ring.RB_SIZE - 1 - p < Ring.RB_BATCH.
Proof.
  apply (Writer_Init_fills (fun d => d) 0 0 [fresh_queue 0 0 2]
    (SetWriterId (new_MPSCWriter (mkMPSCObject 0 [1; 2]) 0) 0) 1); [done|done|simpl; lia].
Defined.

Lemma AttemptClean_counts_witness :
  exists w' lq' qs',
    AttemptClean 3 [two_items] (new_MPSCWriter (mkMPSCObject 0 []) 5) = Ok (Some w', <[Z.to_nat 0 := lq']> [two_items]) /\
    clean_cnt w' = 5 + visible [([7; 8], 2)] /\ holds lq' qs' /\ visible qs' = 0.
Proof.
  apply (AttemptClean_counts 3 [two_items] (new_MPSCWriter (mkMPSCObject 0 []) 5) two_items [([7; 8], 2)]);
    [done | exact two_items_holds | by vm_compute | by vm_compute].
Defined.

(** A writer with one reader that was initialised, all of its slots back in its
    queue and visible; [clean_cnt] began as 0. *)
Definition idle_writer : result (MPSCWriter * store Z) :=
  x ← Writer_Init (fun d => d) [fresh_queue 0 0 1; fresh_queue 0 0 1] (SetWriterId (new_MPSCWriter (mkMPSCObject 0 [1]) 0) 0);
  Ok (x.1, map flush x.2).

(** [Init] has counted one slot as clean already, so [Clean] leaves one in the
    queue, and the second [Init] waits for room that no other thread makes. *)
Example flush_reverse_writer_hangs :
  (x ← idle_writer; FlushReverseWriter (fun d => d) x.2 (Some x.1)) = Stop WouldBlock /\
  exists w h, idle_writer = Ok (w, h) /\ exists h', Clean h w = Ok h'.
Proof.
  split; [vm_compute; exact eq_refl|].
  destruct idle_writer as [[w h]|] eqn:E; [|vm_compute in E; discriminate]. exists w, h. split; [exact eq_refl|].
  destruct (Clean h w) as [h'|] eqn:Ec; [by exists h'|]. exfalso.
  assert (Hb : match idle_writer with Ok (w, h) => match Clean h w with Ok _ => true | Stop _ => false end | Stop _ => false end = true)
    by (vm_compute; exact eq_refl).
  rewrite E, Ec in Hb. discriminate.
Qed.

End Mpsc.
