(* ===== verification/Locks.v ===== *)
(** The locks under the shared variables: [mutex_t] and [scoped_lock_t]
    (src/control_channel/mutex.hpp), and the two classes whose operations run
    under one, [atomic_ptr_t] (src/control_channel/atomic_ptr.hpp) and
    [atomic_counter_t] (src/net/atomic_counter.hpp).

    The operations are cut into their accesses to the mutex and the variable and
    interleaved by any number of threads; the theorem shows that callers cannot
    tell them from operations that take effect in one step, which is how the
    files YQueue, Mailbox and Msg use them. *)
From stdpp Require Import base numbers list relations.
From Stdlib Require Import ZArith Lia.
From S2P Require Import Prelude.

Module Locks.

(** ** The mutex *)

(** A pthread mutex: the thread that holds it. *)
Definition mutex_t : Type := option nat.
Definition new_mutex : mutex_t := None.

(** [pthread_mutex_lock] waits; with [posix_assert] on the other results. *)
Definition lock (t : nat) (m : mutex_t) : result mutex_t :=
  match m with None => Ok (Some t) | Some _ => Stop WouldBlock end.

Definition try_lock (t : nat) (m : mutex_t) : mutex_t * bool :=
  match m with None => (Some t, true) | Some _ => (m, false) end.

Definition unlock (t : nat) (m : mutex_t) : result mutex_t :=
  match m with Some t' => if (t =? t')%nat then Ok None else Stop AssertFailed | None => Stop AssertFailed end.

(** ** The operations *)

(** [xchg] and [cas] of [atomic_ptr_t]; [add], [sub] and [get] of
    [atomic_counter_t]. *)
Inductive call := xchg (val_ : Z) | cas (cmp_ val_ : Z) | add (increment_ : Z) | sub (decrement : Z) | get.

(** The variable with its mutex. *)
Record shared := mkshared { value : Z; sync : mutex_t }.

(** Where a call is: before an access to the mutex or the variable. *)
Inductive loc :=
| AtLock
| AtLoad                       (* old = value *)
| AtTest (old : Z)             (* if (ptr == cmp_) *)
| AtModify (old : Z)           (* the read of value += or -= *)
| AtStore (old new : Z)        (* the write *)
| AtResult                     (* result = value ? true : false *)
| AtUnlock (r : Z)
| AtReturn (r : Z).

(** Every operation as the accesses it consists of; the points another operation
    has do not exist in it. *)
Definition nowhere {A} : result A := Stop Uninitialised.

Definition take_lock (t : nat) (s : shared) (l : loc) : result (shared * loc) :=
  m ← lock t (sync s); Ok (mkshared (value s) m, l).

Definition give_lock (t : nat) (s : shared) (r : Z) : result (shared * loc) :=
  m ← unlock t (sync s); Ok (mkshared (value s) m, AtReturn r).

Definition xchg_step (t : nat) (s : shared) (val_ : Z) (l : loc) : result (shared * loc) :=
  match l with
  | AtLock => take_lock t s AtLoad
  | AtLoad => Ok (s, AtStore (value s) val_)
  | AtStore old new => Ok (mkshared new (sync s), AtUnlock old)
  | AtUnlock r => give_lock t s r
  | _ => nowhere
  end.

Definition cas_step (t : nat) (s : shared) (cmp_ val_ : Z) (l : loc) : result (shared * loc) :=
  match l with
  | AtLock => take_lock t s AtLoad
  | AtLoad => Ok (s, AtTest (value s))
  | AtTest old => Ok (s, if value s =? cmp_ then AtStore old val_ else AtUnlock old)
  | AtStore old new => Ok (mkshared new (sync s), AtUnlock old)
  | AtUnlock r => give_lock t s r
  | _ => nowhere
  end.

Definition add_step (t : nat) (s : shared) (increment_ : Z) (l : loc) : result (shared * loc) :=
  match l with
  | AtLock => take_lock t s AtLoad
  | AtLoad => Ok (s, AtModify (value s))
  | AtModify old => Ok (s, AtStore old (u32 (value s + increment_)))
  | AtStore old new => Ok (mkshared new (sync s), AtUnlock old)
  | AtUnlock r => give_lock t s r
  | _ => nowhere
  end.

Definition sub_step (t : nat) (s : shared) (decrement : Z) (l : loc) : result (shared * loc) :=
  match l with
  | AtLock => take_lock t s (AtModify 0)
  | AtModify old => Ok (s, AtStore old (u32 (value s - decrement)))
  | AtStore _ new => Ok (mkshared new (sync s), AtResult)
  | AtResult => Ok (s, AtUnlock (if value s =? 0 then 0 else 1))
  | AtUnlock r => give_lock t s r
  | _ => nowhere
  end.

(** [get] reads without the mutex. *)
Definition get_step (s : shared) (l : loc) : result (shared * loc) :=
  match l with
  | AtLoad => Ok (s, AtReturn (value s))
  | _ => nowhere
  end.

(** A call and where it is. *)
Abbreviation pc := (call * loc)%type.

Definition access (t : nat) (s : shared) (p : pc) : result (shared * loc) :=
  let (c, l) := p in
  match c with
  | xchg v => xchg_step t s v l
  | cas cmp v => cas_step t s cmp v l
  | add n => add_step t s n l
  | sub n => sub_step t s n l
  | get => get_step s l
  end.

(** ** Threads *)

(** Where a call begins. *)
Definition enter (c : call) : loc := match c with get => AtLoad | _ => AtLock end.

(** What a caller sees: calls and returns. *)
Inductive event := Call (t : nat) (c : call) | Return (t : nat) (r : Z).

Record system := mksystem { mem : shared; threads : list (option pc) }.

Definition new_system (v : Z) (n : nat) : system := mksystem (mkshared v new_mutex) (replicate n None).

Inductive step : system -> option event -> system -> Prop :=
| step_call s t c : threads s !! t = Some None -> step s (Some (Call t c)) (mksystem (mem s) (<[t := Some (c, enter c)]> (threads s)))
| step_access s t c l m l' : threads s !! t = Some (Some (c, l)) -> access t (mem s) (c, l) = Ok (m, l') ->
    step s None (mksystem m (<[t := Some (c, l')]> (threads s)))
| step_return s t c r : threads s !! t = Some (Some (c, AtReturn r)) -> step s (Some (Return t r)) (mksystem (mem s) (<[t := None]> (threads s))).

(** The scheduler's choice: a thread, with the call it makes when it is idle. *)
Definition turn (s : system) (i : nat * call) : result (system * option event) :=
  let (t, c) := i in
  match threads s !! t with
  | None => Stop OutOfBounds
  | Some None => Ok (mksystem (mem s) (<[t := Some (c, enter c)]> (threads s)), Some (Call t c))
  | Some (Some (_, AtReturn r)) => Ok (mksystem (mem s) (<[t := None]> (threads s)), Some (Return t r))
  | Some (Some (c, l)) => '(m, l') ← access t (mem s) (c, l); Ok (mksystem m (<[t := Some (c, l')]> (threads s)), None)
  end.

Fixpoint turns (s : system) (is_ : list (nat * call)) : result (system * list event) :=
  match is_ with
  | [] => Ok (s, [])
  | i :: is_ => '(s1, l) ← turn s i; '(s2, tr) ← turns s1 is_; Ok (s2, option_list l ++ tr)
  end.

(** ** The same in one step *)

(** The new value and what is returned. *)
Definition atomic (c : call) (v : Z) : Z * Z :=
  match c with
  | xchg x => (x, v)
  | cas cmp x => (if v =? cmp then x else v, v)
  | add n => (u32 (v + n), v)
  | sub n => (u32 (v - n), if u32 (v - n) =? 0 then 0 else 1)
  | get => (v, v)
  end.

Inductive status := Idle | Called (c : call) | Done (r : Z).

Record spec := mkspec { s_value : Z; callers : list status }.

Definition new_spec (v : Z) (n : nat) : spec := mkspec v (replicate n Idle).

Inductive spec_step : spec -> option event -> spec -> Prop :=
| spec_call s t c : callers s !! t = Some Idle -> spec_step s (Some (Call t c)) (mkspec (s_value s) (<[t := Called c]> (callers s)))
| spec_take s t c : callers s !! t = Some (Called c) ->
    spec_step s None (mkspec (atomic c (s_value s)).1 (<[t := Done (atomic c (s_value s)).2]> (callers s)))
| spec_return s t r : callers s !! t = Some (Done r) -> spec_step s (Some (Return t r)) (mkspec (s_value s) (<[t := Idle]> (callers s))).

(** Runs with the events that are seen. *)
Inductive runs {S : Type} (stp : S -> option event -> S -> Prop) : S -> list event -> S -> Prop :=
| runs_nil s : runs stp s [] s
| runs_snoc s tr s' l s'' : runs stp s tr s' -> stp s' l s'' -> runs stp s (tr ++ option_list l) s''.

Lemma turn_step s i s' l : turn s i = Ok (s', l) -> step s l s'.
Proof.
  destruct i as [t c]. unfold turn. destruct (threads s !! t) as [[[c' p]|]|] eqn:Ht; [| |done].
  - destruct p; try (intros [= <- <-]; by econstructor);
      (destruct (access _ _ _) as [[m p']|] eqn:E; cbn [mbind result_bind]; [|discriminate]); intros [= <- <-];
      by apply (step_access s t _ _ _ _ Ht).
  - intros [= <- <-]. by constructor.
Qed.

Lemma turns_runs is_ : forall s0 tr0 s s' tr,
  runs step s0 tr0 s -> turns s is_ = Ok (s', tr) -> runs step s0 (tr0 ++ tr) s'.
Proof.
  induction is_ as [|i is_ IH]; intros s0 tr0 s s' tr Hr; cbn.
  - intros [= <- <-]. by rewrite app_nil_r.
  - destruct (turn s i) as [[s1 l]|] eqn:E; cbn [mbind result_bind]; [|discriminate].
    destruct (turns s1 is_) as [[s2 tr2]|] eqn:E2; cbn [mbind result_bind]; [|discriminate].
    intros [= <- <-]. rewrite app_assoc. apply (IH _ _ s1); [|done]. by apply runs_snoc with s, turn_step with i.
Qed.

(** ** The simulation *)

(** What a thread inside an operation knows, [v] being the value. *)
Definition knows (v : Z) (x : option pc) : Prop :=
  match x with
  | None => True
  | Some (c, AtLock) => c <> get
  | Some (c, AtLoad) => match c with sub _ => False | _ => True end
  | Some (c, AtTest old) => old = v /\ match c with cas _ _ => True | _ => False end
  | Some (c, AtModify old) => match c with add _ => old = v | sub _ => True | _ => False end
  | Some (c, AtStore old new) => c <> get /\ new = (atomic c v).1 /\ match c with sub _ => True | _ => old = (atomic c v).2 end
  | Some (c, AtResult) => match c with sub _ => True | _ => False end
  | Some (c, AtUnlock _) => c <> get
  | Some (_, AtReturn _) => True
  end.

(** A thread that is between the lock and the unlock. *)
Definition inside (x : option pc) : bool :=
  match x with None | Some (_, AtLock) | Some (_, AtReturn _) | Some (get, _) => false | _ => true end.

(** What the specification says of the caller. *)
Definition abs (v : Z) (x : option pc) : status :=
  match x with
  | None => Idle
  | Some (c, (AtLock | AtLoad | AtTest _ | AtModify _ | AtStore _ _)) => Called c
  | Some (_, AtResult) => Done (if v =? 0 then 0 else 1)
  | Some (_, (AtUnlock r | AtReturn r)) => Done r
  end.

(** The holder of the mutex is the one thread inside an operation. *)
Record sim (s : system) (a : spec) : Prop := {
  sim_value : s_value a = value (mem s);
  sim_callers : callers a = abs (value (mem s)) <$> threads s;
  sim_inside : forall t x, threads s !! t = Some x -> inside x = true <-> sync (mem s) = Some t;
  sim_holder : forall t, sync (mem s) = Some t -> is_Some (threads s !! t);
  sim_knows : forall t x, threads s !! t = Some x -> knows (value (mem s)) x
}.

Lemma sim_init v n : sim (new_system v n) (new_spec v n).
Proof.
  split; cbn; [done | by rewrite fmap_replicate | | done |]; intros t x [-> _]%lookup_replicate; done.
Qed.

(** A thread outside the mutex does not depend on the value. *)
Lemma outside_abs v w x : inside x = false -> knows v x -> abs w x = abs v x.
Proof. by destruct x as [[[] []]|]. Qed.

Lemma outside_knows v w x : inside x = false -> knows v x -> knows w x.
Proof. by destruct x as [[[] []]|]; cbn; try (intros ? [? ?]). Qed.

Lemma others_outside s a t u x :
  sim s a -> sync (mem s) = Some t -> u <> t -> threads s !! u = Some x -> inside x = false.
Proof.
  intros Hs Ht Hu Hx. destruct (inside x) eqn:E; [|done].
  apply (sim_inside _ _ Hs _ _ Hx) in E. congruence.
Qed.

(** One thread moves from [x] to [y] and the variable becomes [m]; the value is
    written under the mutex only. *)
Lemma sim_move s a t x y m :
  sim s a -> threads s !! t = Some x ->
  (value m = value (mem s) \/ sync (mem s) = Some t) ->
  sync m = (if inside y then Some t else if inside x then None else sync (mem s)) ->
  (inside y = true -> inside x = true \/ sync (mem s) = None) ->
  knows (value m) y ->
  sim (mksystem m (<[t := y]> (threads s))) (mkspec (value m) (<[t := abs (value m) y]> (callers a))).
Proof.
  intros Hs Ht Hv Hm Hin Hk.
  assert (Hother : forall u z, u <> t -> threads s !! u = Some z ->
    abs (value m) z = abs (value (mem s)) z /\ knows (value m) z /\ (inside z = true <-> sync m = Some u)).
  { intros u z Hu Hz. pose proof (sim_knows _ _ Hs _ _ Hz) as Hkz. pose proof (sim_inside _ _ Hs _ _ Hz) as Hiz.
    assert (Hxt := sim_inside _ _ Hs _ _ Ht).
    split_and!.
    - destruct Hv as [->|Hl]; [done|]. apply outside_abs; [by apply (others_outside s a t u)|done].
    - destruct Hv as [->|Hl]; [done|]. eapply outside_knows, Hkz. by apply (others_outside s a t u).
    - rewrite Hm. destruct (inside y) eqn:Ey.
      + destruct (Hin eq_refl) as [Hx|Hx]; [apply Hxt in Hx|]; rewrite Hx in Hiz; destruct (inside z); intuition congruence.
      + destruct (inside x) eqn:Ex; [|done]. destruct Hxt as [Hxt _]. rewrite (Hxt eq_refl) in Hiz.
        destruct (inside z); intuition congruence. }
  assert (Hlen : (t < length (threads s))%nat) by (by eapply lookup_lt_Some).
  split; cbn [mem threads s_value callers].
  - done.
  - rewrite list_fmap_insert, (sim_callers _ _ Hs). apply list_eq. intros u.
    destruct (decide (u = t)) as [->|Hu].
    + rewrite !list_lookup_insert_eq by (rewrite ?length_fmap; done). done.
    + rewrite !list_lookup_insert_ne, !list_lookup_fmap by done.
      destruct (threads s !! u) eqn:E; cbn; [|done]. by rewrite (proj1 (Hother _ _ Hu E)).
  - intros u z. destruct (decide (u = t)) as [->|Hu].
    + rewrite list_lookup_insert_eq by done. intros [= <-]. rewrite Hm.
      pose proof (sim_inside _ _ Hs _ _ Ht) as Hi.
      destruct (inside y); [done|]. destruct (inside x); [done|]. naive_solver.
    + rewrite list_lookup_insert_ne by done. intros Hz. apply (Hother _ _ Hu Hz).
  - intros u Hu. rewrite list_lookup_insert_is_Some, lookup_lt_is_Some.
    rewrite Hm in Hu. destruct (inside y); [intuition congruence|]. destruct (inside x); [done|].
    apply (sim_holder _ _ Hs), lookup_lt_is_Some in Hu. done.
  - intros u z. destruct (decide (u = t)) as [->|Hu].
    + rewrite list_lookup_insert_eq by done. by intros [= <-].
    + rewrite list_lookup_insert_ne by done. intros Hz. apply (Hother _ _ Hu Hz).
Qed.

(** The specification need not move when the caller's status does not. *)
Lemma sim_stay s a t x y m :
  sim s a -> threads s !! t = Some x -> value m = value (mem s) -> abs (value m) y = abs (value (mem s)) x ->
  sync m = (if inside y then Some t else if inside x then None else sync (mem s)) ->
  (inside y = true -> inside x = true \/ sync (mem s) = None) ->
  knows (value m) y ->
  sim (mksystem m (<[t := y]> (threads s))) a.
Proof.
  intros Hs Ht Hv Ha Hm Hin Hk. pose proof (sim_move s a t x y m Hs Ht (or_introl Hv) Hm Hin Hk) as Hn.
  rewrite Ha, Hv, <- (sim_value _ _ Hs), (list_insert_id (callers a)) in Hn; [destruct a; exact Hn|].
  by rewrite (sim_callers _ _ Hs), list_lookup_fmap, Ht, (sim_value _ _ Hs).
Qed.

Lemma sim_status s a t x : sim s a -> threads s !! t = Some x -> callers a !! t = Some (abs (value (mem s)) x).
Proof. intros Hs Ht. by rewrite (sim_callers _ _ Hs), list_lookup_fmap, Ht. Qed.

(** A thread inside holds the mutex. *)
Lemma inside_holds s a t x : sim s a -> threads s !! t = Some x -> inside x = true -> sync (mem s) = Some t.
Proof. intros Hs Ht. apply (sim_inside _ _ Hs _ _ Ht). Qed.

(** An access that does not return: the specification takes the call, or stays. *)
Definition matched (a : spec) (l : option event) (a' : spec) : Prop := (l = None /\ a' = a) \/ spec_step a l a'.

Lemma sim_take s a t c x y m :
  sim s a -> threads s !! t = Some x -> abs (value (mem s)) x = Called c ->
  value m = (atomic c (value (mem s))).1 -> abs (value m) y = Done (atomic c (value (mem s))).2 ->
  (value m = value (mem s) \/ sync (mem s) = Some t) ->
  sync m = (if inside y then Some t else if inside x then None else sync (mem s)) ->
  (inside y = true -> inside x = true) ->
  knows (value m) y ->
  exists a', matched a None a' /\ sim (mksystem m (<[t := y]> (threads s))) a'.
Proof.
  intros Hs Ht Hc Hv Hy Hw Hm Hin Hk. eexists. split; [right; apply (spec_take a t c)|].
  - by rewrite (sim_status _ _ _ _ Hs Ht), Hc.
  - rewrite (sim_value _ _ Hs), <- Hv, <- Hy.
    apply sim_move with x; auto.
Qed.

(** The thread that holds the mutex goes on without writing. *)
Lemma holder_goes s a t x y :
  sim s a -> threads s !! t = Some x -> inside x = true -> inside y = true ->
  abs (value (mem s)) y = abs (value (mem s)) x -> knows (value (mem s)) y ->
  exists a', matched a None a' /\ sim (mksystem (mem s) (<[t := y]> (threads s))) a'.
Proof.
  intros Hs Ht Hx Hy Ha Hk. exists a. split; [by left|].
  apply sim_stay with x; auto. rewrite Hy. by apply (inside_holds s a t x).
Qed.

Lemma lock_matched s a t c l m l' :
  sim s a -> threads s !! t = Some (Some (c, AtLock)) -> take_lock t (mem s) l = Ok (m, l') ->
  l = match c with sub _ => AtModify 0 | _ => AtLoad end ->
  exists a', matched a None a' /\ sim (mksystem m (<[t := Some (c, l')]> (threads s))) a'.
Proof.
  intros Hs Ht Hm ->. pose proof (sim_knows _ _ Hs _ _ Ht) as Hk. unfold take_lock in Hm.
  destruct (sync (mem s)) eqn:E; [done|]. cbn in Hm. injection Hm as <- <-.
  exists a. split; [by left|]. eapply sim_stay; eauto; destruct c; cbn in *; done.
Qed.

Lemma unlock_matched s a t c r m l' :
  sim s a -> threads s !! t = Some (Some (c, AtUnlock r)) -> give_lock t (mem s) r = Ok (m, l') ->
  exists a', matched a None a' /\ sim (mksystem m (<[t := Some (c, l')]> (threads s))) a'.
Proof.
  intros Hs Ht. pose proof (sim_knows _ _ Hs _ _ Ht) as Hk.
  assert (Hi : inside (Some (c, AtUnlock r)) = true) by (by destruct c).
  unfold give_lock. rewrite (inside_holds _ _ _ _ Hs Ht Hi). cbn. rewrite Nat.eqb_refl. intros [= <- <-].
  exists a. split; [by left|]. eapply sim_stay; eauto; rewrite ?Hi; by destruct c.
Qed.

(** A store is where every operation that writes takes effect. *)
Lemma store_matched s a t c old new :
  sim s a -> threads s !! t = Some (Some (c, AtStore old new)) ->
  exists a', matched a None a' /\
    sim (mksystem (mkshared new (sync (mem s))) (<[t := Some (c, match c with sub _ => AtResult | _ => AtUnlock old end)]> (threads s))) a'.
Proof.
  intros Hs Ht. destruct (sim_knows _ _ Hs _ _ Ht) as (Hc & -> & Ho).
  assert (Hi : inside (Some (c, AtStore old (atomic c (value (mem s))).1)) = true) by (by destruct c).
  pose proof (inside_holds _ _ _ _ Hs Ht Hi) as Hh.
  eapply sim_take; eauto; destruct c; cbn in *; subst; done.
Qed.

(** A test that fails is where a compare-and-swap takes effect. *)
Lemma test_matched s a t cmp v old :
  sim s a -> threads s !! t = Some (Some (cas cmp v, AtTest old)) ->
  exists a', matched a None a' /\
    sim (mksystem (mem s) (<[t := Some (cas cmp v, if value (mem s) =? cmp then AtStore old v else AtUnlock old)]> (threads s))) a'.
Proof.
  intros Hs Ht. destruct (sim_knows _ _ Hs _ _ Ht) as [-> _].
  pose proof (inside_holds _ _ _ _ Hs Ht eq_refl) as Hh. destruct (value (mem s) =? cmp) eqn:E.
  - eapply holder_goes; eauto. cbn. by rewrite E.
  - eapply sim_take; eauto; cbn; by rewrite ?E.
Qed.

Lemma get_matched s a t :
  sim s a -> threads s !! t = Some (Some (get, AtLoad)) ->
  exists a', matched a None a' /\ sim (mksystem (mem s) (<[t := Some (get, AtReturn (value (mem s)))]> (threads s))) a'.
Proof. intros Hs Ht. eapply sim_take; eauto; done. Qed.

Lemma access_matched s a t c l m l' :
  sim s a -> threads s !! t = Some (Some (c, l)) -> access t (mem s) (c, l) = Ok (m, l') ->
  exists a', matched a None a' /\ sim (mksystem m (<[t := Some (c, l')]> (threads s))) a'.
Proof.
  intros Hs Ht Hp. pose proof (sim_knows _ _ Hs _ _ Ht) as Hk.
  destruct l as [| |old|old|old new| |r|r].
  - apply (lock_matched _ _ _ _ (match c with sub _ => AtModify 0 | _ => AtLoad end) _ _ Hs Ht); [|done]. destruct c; done.
  - destruct c; try done; injection Hp as <- <-; [by eapply holder_goes; eauto..|by apply get_matched].
  - destruct c; try by destruct Hk. injection Hp as <- <-. by apply test_matched.
  - destruct c; try done; injection Hp as <- <-; by eapply holder_goes; eauto.
  - pose proof (store_matched _ _ _ _ _ _ Hs Ht) as H. destruct c; try by destruct Hk. all: by injection Hp as <- <-.
  - destruct c; try done. injection Hp as <- <-. by eapply holder_goes; eauto.
  - apply (unlock_matched _ _ _ _ _ _ _ Hs Ht). by destruct c.
  - by destruct c.
Qed.

Lemma step_matched s a l s' : sim s a -> step s l s' -> exists a', matched a l a' /\ sim s' a'.
Proof.
  intros Hs Hstep. revert Hs. destruct Hstep as [s0 t c Ht|s0 t c p m p' Ht Hp|s0 t c r Ht]; intros Hs.
  - eexists. split; [right; apply (spec_call a t c); by rewrite (sim_status _ _ _ _ Hs Ht)|].
    replace (Called c) with (abs (value (mem s0)) (Some (c, enter c))) by (by destruct c).
    rewrite (sim_value _ _ Hs). apply sim_move with None; auto; destruct c; done.
  - by apply access_matched with p.
  - eexists. split; [right; apply (spec_return a t r); by rewrite (sim_status _ _ _ _ Hs Ht)|].
    change Idle with (abs (value (mem s0)) None).
    rewrite (sim_value _ _ Hs). apply sim_move with (Some (c, AtReturn r)); first [done | by left | by destruct c].
Qed.

Lemma runs_matched s0 tr s : runs step s0 tr s -> forall a0, sim s0 a0 -> exists a, runs spec_step a0 tr a /\ sim s a.
Proof.
  induction 1 as [s|s0 tr s l s' H IH Hstep]; intros a0 H0; [exists a0; split; [constructor|done]|].
  destruct (IH _ H0) as (a & Ha & Hs). destruct (step_matched _ _ _ _ Hs Hstep) as (a' & Hm & Hs').
  exists a'. split; [|done]. destruct Hm as [[-> ->]|Hm]; [by rewrite app_nil_r|]. by apply runs_snoc with a.
Qed.

(** ** Progress *)

Definition can_go (s : system) (t : nat) : Prop := exists l s', step s l s' /\ threads s' !! t <> threads s !! t.

Lemma access_goes s t c l m l' :
  threads s !! t = Some (Some (c, l)) -> access t (mem s) (c, l) = Ok (m, l') -> l' <> l -> can_go s t.
Proof.
  intros Ht Hp Hl. eexists _, _. split; [by eapply step_access|]. cbn [threads].
  assert (Hlen := lookup_lt_Some _ _ _ Ht). rewrite Ht, list_lookup_insert_eq by done. congruence.
Qed.

Lemma inside_goes s a t x : sim s a -> threads s !! t = Some x -> inside x = true -> can_go s t.
Proof.
  intros Hs Ht Hi. pose proof (inside_holds _ _ _ _ Hs Ht Hi) as Hh. pose proof (sim_knows _ _ Hs _ _ Ht) as Hk.
  destruct x as [[c l]|]; [|done].
  destruct c, l; try done; try (by destruct Hk);
    try (eapply access_goes; [done| cbn; unfold give_lock; rewrite ?Hh; cbn; rewrite ?Nat.eqb_refl; done | by try case_match]).
Qed.

Lemma lock_goes s a t c :
  sim s a -> threads s !! t = Some (Some (c, AtLock)) ->
  can_go s t \/ exists u, sync (mem s) = Some u /\ u <> t /\ can_go s u.
Proof.
  intros Hs Ht. pose proof (sim_knows _ _ Hs _ _ Ht) as Hk. destruct (sync (mem s)) as [u|] eqn:E.
  - right. exists u. destruct (sim_holder _ _ Hs _ E) as [x Hx]. pose proof (proj2 (sim_inside _ _ Hs _ _ Hx) E) as Hix.
    split_and!; [done | intros ->; rewrite Ht in Hx; injection Hx as <-; by destruct c | by apply inside_goes with a x].
  - left. destruct c; try done; (eapply access_goes; [done| cbn; unfold take_lock; rewrite E; done | done]).
Qed.

Lemma thread_goes s a t c l :
  sim s a -> threads s !! t = Some (Some (c, l)) ->
  can_go s t \/ (l = AtLock /\ exists u, sync (mem s) = Some u /\ u <> t /\ can_go s u).
Proof.
  intros Hs Ht. destruct (inside (Some (c, l))) eqn:Hi; [left; by apply inside_goes with a (Some (c, l))|].
  pose proof (sim_knows _ _ Hs _ _ Ht) as Hk. assert (Hlen := lookup_lt_Some _ _ _ Ht).
  destruct l as [| | | | | | |r].
  - destruct (lock_goes _ _ _ _ Hs Ht); auto.
  - left. destruct c; try done. by eapply access_goes.
  - destruct c; by destruct Hk.
  - destruct c; by destruct Hk.
  - destruct c; by destruct Hk.
  - destruct c; by destruct Hk.
  - destruct c; by destruct Hk.
  - left. eexists _, _. split; [by eapply step_return|]. cbn [threads]. by rewrite Ht, list_lookup_insert_eq.
Qed.

(** C15 What callers see of the operations of [atomic_ptr_t] and
    [atomic_counter_t], cut into their accesses to the mutex and the variable
    and interleaved by any number of threads, they could have seen of operations
    that take effect in one step; the variable has the value those leave. No
    access fails: a thread inside a call can go on, or waits for the mutex while
    the thread that holds it can go on. *)
Theorem atomics_linearize v n tr s :
  runs step (new_system v n) tr s ->
  (exists a, runs spec_step (new_spec v n) tr a /\ s_value a = value (mem s)) /\
  (forall t c l, threads s !! t = Some (Some (c, l)) ->
     can_go s t \/ (l = AtLock /\ exists u, sync (mem s) = Some u /\ u <> t /\ can_go s u)).
Proof.
  intros H. destruct (runs_matched _ _ _ H _ (sim_init v n)) as (a & Ha & Hs).
  split; [exists a; split; [done | apply (sim_value _ _ Hs)]|]. intros t c l. by apply (thread_goes s a).
Qed.

(** Two threads add and subtract: the second waits for the mutex, and the count
    that both saw drops to zero once. *)
Definition two_drops : list (nat * call) :=
  [(0, sub 1); (1, sub 1); (0, sub 1); (0, sub 1); (0, sub 1); (0, sub 1); (0, sub 1);
   (1, sub 1); (0, sub 1); (1, sub 1); (1, sub 1); (1, sub 1); (1, sub 1); (1, sub 1)]%nat.

Definition dropped : system * list event :=
  match turns (new_system 2 2) two_drops with Ok x => x | Stop _ => (new_system 2 2, []) end.

Lemma atomics_linearize_witness :
  dropped.2 = [Call 0 (sub 1); Call 1 (sub 1); Return 0 1; Return 1 0] /\
  exists a, runs spec_step (new_spec 2 2) dropped.2 a /\ s_value a = 0.
Proof.
  split; [vm_compute; exact eq_refl|].
  refine (proj1 (atomics_linearize 2 2 dropped.2 dropped.1 _)).
  refine (turns_runs two_drops _ [] _ dropped.1 dropped.2 (runs_nil _ _) _). vm_compute. exact eq_refl.
Defined.

(** Without the turns at the mutex the second thread waits. *)
Example second_waits : turns (new_system 2 2) [(0, sub 1); (1, sub 1); (0, sub 1); (1, sub 1)]%nat = Stop WouldBlock.
Proof. vm_compute. exact eq_refl. Qed.

End Locks.
