(* ===== verification/YQueue.v ===== *)
(** The chunked queue under the mailboxes of the worker's threads
    (src/control_channel/yqueue.hpp): a doubly linked list of chunks of [N]
    slots on the heap, one chunk kept as a spare.  Addresses are explicit, and
    [malloc] may return any free address, so that the file can show that the
    pointers into the queue that its users compare are never confused and that
    every chunk is freed exactly once. *)
From stdpp Require Import base numbers list gmap.
From Stdlib Require Import ZArith Lia.
From S2P Require Import Prelude.

Module YQueue.

Section Chunks.
Context {T : Type} (N : nat).

(** A chunk; a slot nothing was stored in and a link nobody set are [None]. *)
Record chunk_t := mkchunk {
  values : list (option T);
  prev : option Z;
  next : option Z
}.

Record yqueue_t := mkyqueue {
  heap : gmap Z chunk_t;
  begin_chunk : Z;
  begin_pos : nat;
  back_chunk : option Z;
  back_pos : nat;
  end_chunk : Z;
  end_pos : nat;
  spare_chunk : option Z
}.

(** The address of a slot, a [T*]. *)
Definition slot_ptr : Type := Z * nat.

(** The chunk [malloc] returns. *)
Definition fresh_chunk : chunk_t := mkchunk (replicate N None) None None.

Definition deref (h : gmap Z chunk_t) (a : Z) : result chunk_t :=
  match h !! a with Some c => Ok c | None => Stop NullDeref end.

Definition set_next (h : gmap Z chunk_t) (a : Z) (n : option Z) : result (gmap Z chunk_t) :=
  c ← deref h a; Ok (<[a := mkchunk (values c) (prev c) n]> h).

Definition set_prev (h : gmap Z chunk_t) (a : Z) (p : option Z) : result (gmap Z chunk_t) :=
  c ← deref h a; Ok (<[a := mkchunk (values c) p (next c)]> h).

(** Follow a link; a null link stops the process at its first use. *)
Definition follow (l : option Z) : result Z :=
  match l with Some a => Ok a | None => Stop NullDeref end.

(** [free (p)], which ignores a null pointer. *)
Definition free (h : gmap Z chunk_t) (p : option Z) : result (gmap Z chunk_t) :=
  match p with
  | None => Ok h
  | Some a => _ ← deref h a; Ok (delete a h)
  end.

(** The constructor; [a] is the address [malloc] returns. *)
Definition new_yqueue (a : Z) : yqueue_t :=
  mkyqueue {[ a := fresh_chunk ]} a 0 None 0 a 0 None.

(** [&front ()] and [&back ()]. *)
Definition front (q : yqueue_t) : slot_ptr := (begin_chunk q, begin_pos q).

Definition back (q : yqueue_t) : result slot_ptr :=
  a ← follow (back_chunk q); Ok (a, back_pos q).

(** Reading and writing through a reference to a slot. *)
Definition load (q : yqueue_t) (p : slot_ptr) : result T :=
  c ← deref (heap q) p.1;
  match values c !! p.2 with
  | Some (Some v) => Ok v
  | Some None => Stop Uninitialised
  | None => Stop OutOfBounds
  end.

Definition store (q : yqueue_t) (p : slot_ptr) (v : T) : result yqueue_t :=
  c ← deref (heap q) p.1;
  vs ← set_index (values c) (Z.of_nat p.2) (Some v);
  Ok (mkyqueue (<[p.1 := mkchunk vs (prev c) (next c)]> (heap q)) (begin_chunk q) (begin_pos q)
        (back_chunk q) (back_pos q) (end_chunk q) (end_pos q) (spare_chunk q)).

(** [end_chunk->next = n; n->prev = end_chunk]. *)
Definition link (h : gmap Z chunk_t) (e n : Z) : result (gmap Z chunk_t) :=
  h1 ← set_next h e (Some n); set_prev h1 n (Some e).

Definition push (q : yqueue_t) (a : Z) : result yqueue_t :=
  let bc := Some (end_chunk q) in
  let bp := end_pos q in
  let ep := S (end_pos q) in
  if negb (ep =? N)%nat
  then Ok (mkyqueue (heap q) (begin_chunk q) (begin_pos q) bc bp (end_chunk q) ep (spare_chunk q))
  else
    '(h, n) ← match spare_chunk q : option Z with
              | Some sc => h ← link (heap q) (end_chunk q) sc; Ok (h, sc)
              | None => h ← link (<[a := fresh_chunk]> (heap q)) (end_chunk q) a; Ok (h, a)
              end;
    Ok (mkyqueue h (begin_chunk q) (begin_pos q) bc bp n 0 None).

Definition unpush (q : yqueue_t) : result yqueue_t :=
  '(bc, bp) ← match back_pos q : nat with
              | S bp => Ok (back_chunk q, bp)
              | O => a ← follow (back_chunk q); c ← deref (heap q) a; Ok (prev c, (N - 1)%nat)
              end;
  match end_pos q with
  | S ep => Ok (mkyqueue (heap q) (begin_chunk q) (begin_pos q) bc bp (end_chunk q) ep (spare_chunk q))
  | O =>
      c ← deref (heap q) (end_chunk q);
      e ← follow (prev c);
      c' ← deref (heap q) e;
      h ← free (heap q) (next c');
      h' ← set_next h e None;
      Ok (mkyqueue h' (begin_chunk q) (begin_pos q) bc bp e (N - 1) (spare_chunk q))
  end.

Definition pop (q : yqueue_t) : result yqueue_t :=
  let p := S (begin_pos q) in
  if (p =? N)%nat then
    let o := begin_chunk q in
    c ← deref (heap q) o;
    n ← follow (next c);
    h ← set_prev (heap q) n None;
    h' ← free h (spare_chunk q);
    Ok (mkyqueue h' n 0 (back_chunk q) (back_pos q) (end_chunk q) (end_pos q) (Some o))
  else Ok (mkyqueue (heap q) (begin_chunk q) p (back_chunk q) (back_pos q) (end_chunk q) (end_pos q) (spare_chunk q)).

(** The loop of the destructor, which walks from the first chunk to the last;
    the fuel bounds the number of chunks. *)
Fixpoint free_chunks (fuel : nat) (h : gmap Z chunk_t) (b e : Z) : result (gmap Z chunk_t) :=
  match fuel with
  | O => Stop WouldBlock
  | S fuel' =>
      if (b =? e)%Z then free h (Some b)
      else
        c ← deref h b;
        n ← follow (next c);
        h' ← free h (Some b);
        free_chunks fuel' h' n e
  end.

Definition delete_yqueue (q : yqueue_t) : result (gmap Z chunk_t) :=
  h ← free_chunks (size (heap q)) (heap q) (begin_chunk q) (end_chunk q);
  free h (spare_chunk q).

End Chunks.

Arguments chunk_t : clear implicits.
Arguments yqueue_t : clear implicits.

(** ** What a queue holds *)

(** The next index is in the same chunk or starts the next one. *)
Lemma div_mod_S N k :
  (0 < N)%nat ->
  ((S (k mod N) = N /\ S k / N = S (k / N) /\ S k mod N = 0) \/
   (S (k mod N) <> N /\ S k / N = k / N /\ S k mod N = S (k mod N)))%nat.
Proof.
  intros HN. pose proof (Nat.div_mod_eq k N) as Hk. pose proof (Nat.mod_upper_bound k N ltac:(lia)) as Hb.
  destruct (decide (S (k mod N) = N)) as [E|E]; [left|right].
  - split_and!; [done| |].
    + symmetry. apply (Nat.div_unique _ _ _ 0); lia.
    + symmetry. apply (Nat.mod_unique _ _ (S (k / N)) 0); lia.
  - split_and!; [done| |].
    + symmetry. apply (Nat.div_unique _ _ _ (S (k mod N))); lia.
    + symmetry. apply (Nat.mod_unique _ _ (k / N) (S (k mod N))); lia.
Qed.

Section Representation.
Context {T : Type} (N : nat).
Implicit Types (q : yqueue_t T) (hist : list Z) (items : list T).

(** [hist] lists the chunk addresses in the order the queue used them, one
    entry per [N] slots; item number [k], counted from the construction of the
    queue, has the address [slot hist k].  An address may occur several times in
    [hist], but only once in the part the queue still uses. *)
Definition slot hist (k : nat) : option slot_ptr := (fun a => (a, (k mod N)%nat)) <$> hist !! (k / N)%nat.

Definition live hist (p : nat) : list Z := drop (p / N)%nat hist.

(** Slot [k] holds [v]. *)
Definition holds_at (h : gmap Z (chunk_t T)) hist (k : nat) (v : T) : Prop :=
  exists a c, hist !! (k / N)%nat = Some a /\ h !! a = Some c /\ values c !! (k mod N)%nat = Some (Some v).

(** The queue after [length items] items were pushed and [p] of them popped;
    the slot behind the last item is the terminator, whose content does not
    matter. *)
Record rep q hist items (p : nat) : Prop := mkrep {
  rp_N : (0 < N)%nat;
  rp_le : (p <= length items)%nat;
  rp_len : length hist = S (S (length items) / N);
  rp_begin : slot hist p = Some (begin_chunk q, begin_pos q);
  rp_back : exists a, back_chunk q = Some a /\ slot hist (length items) = Some (a, back_pos q);
  rp_end : slot hist (S (length items)) = Some (end_chunk q, end_pos q);
  rp_nodup : NoDup (live hist p);
  rp_links : forall j x y, (p / N <= j)%nat -> hist !! j = Some x -> hist !! S j = Some y ->
    exists cx cy, heap q !! x = Some cx /\ heap q !! y = Some cy /\ next cx = Some y /\ prev cy = Some x;
  rp_vals : forall k v, (p <= k)%nat -> items !! k = Some v -> holds_at (heap q) hist k v;
  rp_size : forall a c, heap q !! a = Some c -> length (values c) = N;
  rp_dom : forall a, is_Some (heap q !! a) <-> a ∈ live hist p \/ spare_chunk q = Some a;
  rp_spare : forall a, spare_chunk q = Some a -> a ∉ live hist p
}.

Lemma slot_inv hist k a i : slot hist k = Some (a, i) -> hist !! (k / N)%nat = Some a /\ i = (k mod N)%nat.
Proof. unfold slot. destruct (hist !! (k / N)%nat); simpl; intros; simplify_eq. done. Qed.

Lemma slot_intro hist k a : hist !! (k / N)%nat = Some a -> slot hist k = Some (a, (k mod N)%nat).
Proof. unfold slot. by intros ->. Qed.

Lemma live_elem hist p j a : (p / N <= j)%nat -> hist !! j = Some a -> a ∈ live hist p.
Proof.
  intros Hj Ha. apply list_elem_of_lookup. exists (j - p / N)%nat. unfold live. rewrite lookup_drop.
  by replace (p / N + (j - p / N))%nat with j by lia.
Qed.

Lemma live_inj hist p i j a :
  NoDup (live hist p) -> (p / N <= i)%nat -> (p / N <= j)%nat -> hist !! i = Some a -> hist !! j = Some a -> i = j.
Proof.
  intros Hnd Hi Hj Hai Haj.
  enough (i - p / N = j - p / N)%nat by lia.
  apply (NoDup_lookup (live hist p) _ _ a Hnd); unfold live; rewrite lookup_drop.
  - by replace (p / N + (i - p / N))%nat with i by lia.
  - by replace (p / N + (j - p / N))%nat with j by lia.
Qed.

Lemma rep_live_heap q hist items p j a :
  rep q hist items p -> (p / N <= j)%nat -> hist !! j = Some a -> is_Some (heap q !! a).
Proof. intros Hr Hj Ha. apply (rp_dom _ _ _ _ Hr). left. by eapply live_elem. Qed.

(** Addresses of items in use are distinct: comparing pointers compares
    positions. *)
Lemma slot_inj q hist items p k k' s :
  rep q hist items p -> (p <= k)%nat -> (p <= k')%nat ->
  slot hist k = Some s -> slot hist k' = Some s -> k = k'.
Proof.
  intros Hr Hk Hk' Hs Hs'. destruct s as [a i]. apply slot_inv in Hs as [Ha Hi], Hs' as [Ha' Hi'].
  pose proof (rp_N _ _ _ _ Hr) as HN.
  assert (Hd : (k / N = k' / N)%nat).
  { apply (live_inj hist p _ _ a (rp_nodup _ _ _ _ Hr)); try done; by apply Nat.Div0.div_le_mono. }
  rewrite (Nat.div_mod_eq k N), (Nat.div_mod_eq k' N). congruence.
Qed.

(** Every item up to the terminator has an address. *)
Lemma slot_total q hist items p k :
  rep q hist items p -> (k <= S (length items))%nat -> is_Some (slot hist k).
Proof.
  intros Hr Hk. unfold slot. apply fmap_is_Some, lookup_lt_is_Some_2. rewrite (rp_len _ _ _ _ Hr).
  pose proof (Nat.Div0.div_le_mono k (S (length items)) N Hk). lia.
Qed.

Lemma rep_front q hist items p : rep q hist items p -> slot hist p = Some (front q).
Proof. intros Hr. by rewrite (rp_begin _ _ _ _ Hr). Qed.

Lemma rep_back q hist items p :
  rep q hist items p -> exists b, back q = Ok b /\ slot hist (length items) = Some b.
Proof.
  intros Hr. destruct (rp_back _ _ _ _ Hr) as (a & Ha & Hs). exists (a, back_pos q).
  split; [|done]. unfold back. by rewrite Ha.
Qed.

(** Appending chunks keeps the addresses. *)
Lemma slot_prefix hist hist' k s : hist `prefix_of` hist' -> slot hist k = Some s -> slot hist' k = Some s.
Proof.
  intros [r ->] Hs. unfold slot in *. destruct (hist !! (k / N)%nat) eqn:E; [|done].
  by rewrite (lookup_app_l_Some _ _ _ _ E).
Qed.

Lemma rep_load_front q hist items p v :
  rep q hist items p -> items !! p = Some v -> load q (front q) = Ok v.
Proof.
  intros Hr Hv. destruct (rp_vals _ _ _ _ Hr p v ltac:(lia) Hv) as (a & c & Ha & Hc & Hval).
  pose proof (rep_front _ _ _ _ Hr) as Hf. unfold load. destruct (front q) as [a' i].
  apply slot_inv in Hf as [Ha' ->]. rewrite Ha in Ha'. injection Ha' as <-. simpl.
  unfold deref. rewrite Hc. simpl. by rewrite Hval.
Qed.

End Representation.

Section Operations.
Context {T : Type} (N : nat).
Implicit Types (q : yqueue_t T) (hist : list Z) (items : list T).

Lemma deref_Some (h : gmap Z (chunk_t T)) a c : h !! a = Some c -> deref h a = Ok c.
Proof. unfold deref. by intros ->. Qed.

(** Storing at the terminator: nothing else changes. *)
Lemma store_back q hist items p v :
  rep N q hist items p ->
  exists b q', back q = Ok b /\ store q b v = Ok q' /\ rep N q' hist items p /\
    holds_at N (heap q') hist (length items) v.
Proof.
  intros Hr. pose proof Hr as [HN Hle Hlen Hbeg (a & Hbc & Hback) Hend Hnd Hlinks Hvals Hsize Hdom Hspare].
  apply slot_inv in Hback as [Ha Hpos].
  assert (Hj : (p / N <= length items / N)%nat) by (by apply Nat.Div0.div_le_mono).
  destruct (rep_live_heap N _ _ _ _ _ _ Hr Hj Ha) as [c Hc].
  assert (Hbnd : (back_pos q < length (values c))%nat).
  { rewrite (Hsize _ _ Hc), Hpos. apply Nat.mod_upper_bound. lia. }
  eexists (a, back_pos q), _. split; [unfold back; by rewrite Hbc|].
  split; [unfold store; simpl; rewrite (deref_Some _ _ _ Hc); simpl; rewrite set_index_ok by lia; simpl; done|].
  rewrite Nat2Z.id. split.
  - split; simpl; eauto.
    + exists a. split; [done|]. rewrite (slot_intro _ _ _ _ Ha). by rewrite Hpos.
    + intros j x y Hjj Hx Hy. destruct (Hlinks j x y Hjj Hx Hy) as (cx & cy & Hcx & Hcy & Hn & Hp).
      rewrite !lookup_insert. repeat case_decide; subst; simplify_eq; eauto 10.
    + intros k w Hk Hw. destruct (Hvals k w Hk Hw) as (a' & c' & Ha' & Hc' & Hv').
      exists a'. rewrite lookup_insert. case_decide; subst; [|by eauto]. simplify_eq.
      eexists; split; [done|]. split; [done|]. simpl. rewrite list_lookup_insert_ne; [done|].
      intros E. apply lookup_lt_Some in Hw.
      assert (k = length items); [|lia]. apply (slot_inj N _ _ _ p _ _ (a', (k mod N)%nat) Hr); try lia.
      * by apply slot_intro.
      * rewrite (slot_intro _ _ _ _ Ha). by rewrite <- E, Hpos.
    + intros a' c'. rewrite lookup_insert. case_decide; [|by apply Hsize].
      intros [= <-]. simpl. rewrite length_insert. by apply (Hsize a).
    + intros a'. rewrite <- Hdom, lookup_insert. case_decide; [|done]. subst. rewrite Hc. split; eauto.
  - exists a. eexists. split; [done|]. simpl. rewrite lookup_insert_eq. split; [done|]. simpl.
    rewrite <- Hpos. by apply list_lookup_insert_eq.
Qed.

Lemma store_spare q b v q' : store q b v = Ok q' -> spare_chunk q = spare_chunk q'.
Proof. unfold store. intros. by result_inv. Qed.

(** Linking a chunk that is not in use behind the last one. *)
Lemma link_spec (h : gmap Z (chunk_t T)) e n ce cn :
  e <> n -> h !! e = Some ce -> h !! n = Some cn ->
  link h e n = Ok (<[n := mkchunk (values cn) (Some e) (next cn)]>
                    (<[e := mkchunk (values ce) (prev ce) (Some n)]> h)).
Proof.
  intros Hne He Hn. unfold link, set_next, set_prev. rewrite (deref_Some _ _ _ He). simpl.
  unfold deref. by rewrite lookup_insert_ne, Hn by done.
Qed.

(** Slots do not depend on the links. *)
Lemma holds_at_links h h' hist k (v : T) :
  (forall a c, hist !! (k / N)%nat = Some a -> h !! a = Some c ->
     exists c', h' !! a = Some c' /\ values c' = values c) ->
  holds_at N h hist k v -> holds_at N h' hist k v.
Proof.
  intros Hs (a & c & Ha & Hc & Hv). destruct (Hs a c Ha Hc) as (c' & Hc' & Hval).
  exists a, c'. by rewrite Hval.
Qed.

Lemma holds_at_prefix h hist hist' k (v : T) :
  hist `prefix_of` hist' -> holds_at N h hist k v -> holds_at N h hist' k v.
Proof. intros [r ->] (a & c & Ha & Hc & Hv). exists a, c. split; [|done]. by apply lookup_app_l_Some. Qed.

Lemma live_app q hist items p n :
  rep N q hist items p -> live N (hist ++ [n]) p = live N hist p ++ [n].
Proof.
  intros Hr. unfold live. rewrite drop_app_le; [done|]. rewrite (rp_len N _ _ _ _ Hr).
  pose proof (rp_le N _ _ _ _ Hr). pose proof (Nat.Div0.div_le_mono p (S (length items)) N ltac:(lia)). lia.
Qed.

(** [push] inside a chunk. *)
Lemma push_inside q hist items p v a :
  rep N q hist items p -> holds_at N (heap q) hist (length items) v ->
  S (S (length items) mod N) <> N ->
  exists q', push N q a = Ok q' /\ rep N q' hist (items ++ [v]) p.
Proof.
  intros Hr Hv HS. pose proof Hr as [HN Hle Hlen Hbeg Hback Hend Hnd Hlinks Hvals Hsize Hdom Hspare].
  pose proof Hend as Hend'. apply slot_inv in Hend' as [He Hep].
  destruct (div_mod_S N (S (length items)) HN) as [[? _]|(_ & Hd & Hm)]; [done|].
  unfold push. rewrite Hep, (proj2 (Nat.eqb_neq _ _)) by done. cbn [negb]. eexists. split; [done|].
  assert (HL : length (items ++ [v]) = S (length items)) by (rewrite length_app; simpl; lia).
  split; simpl; rewrite ?HL, ?Hd; eauto with lia.
  - exists (end_chunk q). split; [done|]. by apply slot_intro.
  - unfold slot. by rewrite Hd, He, Hm.
  - intros k w Hk Hw. apply lookup_snoc_Some in Hw as [[_ Hw]|[-> <-]]; [by apply Hvals|done].
Qed.

(** [push] that starts the chunk at [n], which was the spare chunk or comes
    from [malloc]; [h] is the heap with that chunk in it. *)
Lemma push_chunk q hist items p v h n cn :
  rep N q hist items p -> holds_at N (heap q) hist (length items) v ->
  S (S (length items) mod N) = N ->
  (forall b c, heap q !! b = Some c -> h !! b = Some c) -> h !! n = Some cn -> length (values cn) = N ->
  n ∉ live N hist p -> (forall b, is_Some (h !! b) <-> b ∈ live N hist p \/ b = n) ->
  exists h', link h (end_chunk q) n = Ok h' /\
    rep N (mkyqueue h' (begin_chunk q) (begin_pos q) (Some (end_chunk q)) (end_pos q) n 0 None)
      (hist ++ [n]) (items ++ [v]) p.
Proof.
  intros Hr Hv HS Hsub Hn Hcn Hfresh Hh. pose proof Hr as [HN Hle Hlen Hbeg Hback Hend Hnd Hlinks Hvals Hsize Hdom Hspare].
  pose proof Hend as Hend'. apply slot_inv in Hend' as [He Hep].
  destruct (div_mod_S N (S (length items)) HN) as [(_ & Hd & Hm)|[? _]]; [|done].
  assert (Hj : (p / N <= S (length items) / N)%nat) by (apply Nat.Div0.div_le_mono; lia).
  pose proof (live_elem N _ _ _ _ Hj He) as Hein.
  assert (Hne : end_chunk q <> n) by (by intros <-).
  destruct (proj2 (Hdom _) (or_introl Hein)) as [ce Hce]. pose proof (Hsub _ _ Hce) as Hce'.
  eexists. split; [by apply link_spec|].
  assert (HL : length (items ++ [v]) = S (length items)) by (rewrite length_app; simpl; lia).
  assert (Hpre : hist `prefix_of` hist ++ [n]) by (by eexists).
  set (h' := <[n := _]> _).
  assert (Hmono : forall b c, heap q !! b = Some c -> exists c', h' !! b = Some c' /\ values c' = values c).
  { intros b c Hb. pose proof (Hsub _ _ Hb) as Hb'. unfold h'. rewrite !lookup_insert.
    repeat case_decide; subst; simplify_eq; eauto. }
  assert (Hvk : forall k w, holds_at N (heap q) hist k w -> holds_at N h' (hist ++ [n]) k w).
  { intros k w Hw. apply (holds_at_prefix _ hist); [done|]. eapply holds_at_links; [|done]. intros b c _. apply Hmono. }
  split; cbn [heap begin_chunk begin_pos back_chunk back_pos end_chunk end_pos spare_chunk]; rewrite ?HL; try done.
  - lia.
  - rewrite length_app, Hlen, Hd. simpl. lia.
  - by apply (slot_prefix N hist).
  - exists (end_chunk q). split; [done|]. by apply (slot_prefix N hist).
  - unfold slot. rewrite Hd, lookup_app_r, Hlen by lia. rewrite Nat.sub_diag. simpl. by rewrite Hm.
  - rewrite (live_app _ _ _ _ _ Hr). apply NoDup_app. split_and!; [done| |apply NoDup_singleton].
    intros x Hx ->%list_elem_of_singleton. done.
  - intros j x y Hjj Hx Hy. apply lookup_snoc_Some in Hy as [[Hlt Hy]|[Hjl <-]].
    + rewrite lookup_app_l in Hx by lia. destruct (Hlinks j x y Hjj Hx Hy) as (cx & cy & Hcx & Hcy & Hnx & Hpy).
      assert (y <> n) by (intros ->; apply Hfresh; apply (live_elem N _ _ (S j)); [lia|done]).
      assert (x <> n) by (intros ->; apply Hfresh; by apply (live_elem N _ _ j)).
      assert (x <> end_chunk q).
      { intros ->. enough (j = S (length items) / N)%nat by lia. by apply (live_inj N hist p _ _ (end_chunk q)). }
      unfold h'. rewrite !(lookup_insert_ne _ n), (lookup_insert_ne _ _ x) by done. exists cx.
      destruct (decide (y = end_chunk q)) as [->|]; rewrite ?lookup_insert_eq, ?lookup_insert_ne by done; simplify_eq; eauto 10.
    + assert (j = S (length items) / N)%nat as -> by lia. rewrite lookup_app_l in Hx by lia.
      rewrite He in Hx. injection Hx as <-. unfold h'.
      rewrite (lookup_insert_ne _ n (end_chunk q)), !lookup_insert_eq by done. eauto 10.
  - intros k w Hk Hw. apply Hvk. apply lookup_snoc_Some in Hw as [[_ Hw]|[-> <-]]; [by apply Hvals|done].
  - intros b c. unfold h'. rewrite !lookup_insert. repeat case_decide; subst; intros; simplify_eq; simpl; eauto.
    destruct (proj1 (Hh b)) as [Hb| ->]; [by eexists| |congruence].
    destruct (proj2 (Hdom b) (or_introl Hb)) as [c' Hc']. rewrite (Hsub _ _ Hc') in *. simplify_eq. eauto.
  - intros b. rewrite (live_app _ _ _ _ _ Hr), elem_of_app, list_elem_of_singleton.
    assert (Hb : is_Some (h' !! b) <-> is_Some (h !! b)).
    { unfold h'. rewrite !lookup_insert. repeat case_decide; subst; rewrite ?Hn, ?Hce'; split; eauto. }
    rewrite Hb, Hh. split; [by left|by intros [?|?]].
Qed.

Lemma push_spec q hist items p v a :
  rep N q hist items p -> holds_at N (heap q) hist (length items) v -> heap q !! a = None ->
  exists q' hist', push N q a = Ok q' /\ rep N q' hist' (items ++ [v]) p /\ hist `prefix_of` hist'.
Proof.
  intros Hr Hv Ha. destruct (decide (S (S (length items) mod N) = N)) as [HS|HS].
  - pose proof (slot_inv _ _ _ _ _ (rp_end N _ _ _ _ Hr)) as [_ Hep].
    unfold push. rewrite Hep, HS, Nat.eqb_refl. cbn [negb].
    pose proof (rp_dom N _ _ _ _ Hr) as Hdom. destruct (spare_chunk q) as [sc|] eqn:Hsp.
    + destruct (proj2 (Hdom sc) (or_intror eq_refl)) as [cn Hcn].
      destruct (push_chunk q hist items p v (heap q) sc cn) as (h' & Hl & Hr'); try done.
      * by apply (rp_size N _ _ _ _ Hr sc).
      * by apply (rp_spare N _ _ _ _ Hr).
      * intros b. rewrite Hdom. intuition congruence.
      * rewrite Hl. simpl. eexists _, (hist ++ [sc]). split; [done|]. split; [by rewrite <- Hep|by eexists].
    + assert (Hna : a ∉ live N hist p).
      { intros Hin. destruct (proj2 (Hdom a) (or_introl Hin)). congruence. }
      destruct (push_chunk q hist items p v (<[a := fresh_chunk N]> (heap q)) a (fresh_chunk N)) as (h' & Hl & Hr'); try done.
      * intros b c Hb. rewrite lookup_insert_ne; [done|congruence].
      * apply lookup_insert_eq.
      * simpl. apply length_replicate.
      * intros b. rewrite lookup_insert. case_decide; [subst; split; eauto|]. rewrite Hdom. intuition congruence.
      * rewrite Hl. simpl. eexists _, (hist ++ [a]). split; [done|]. split; [by rewrite <- Hep|by eexists].
  - destruct (push_inside q hist items p v a) as (q' & Hq & Hr'); try done. by exists q', hist.
Qed.

Lemma live_S hist p a :
  hist !! (p / N)%nat = Some a -> (S p / N = S (p / N))%nat -> live N hist p = a :: live N hist (S p).
Proof. intros Ha Hd. unfold live. rewrite Hd. by apply drop_S. Qed.

(** [pop] that leaves its chunk: the chunk becomes the spare, and the old
    spare is freed. *)
Lemma pop_chunk q hist items p :
  rep N q hist items p -> (p < length items)%nat -> S (p mod N) = N ->
  exists q', pop N q = Ok q' /\ rep N q' hist items (S p).
Proof.
  intros Hr Hlt HS. pose proof Hr as [HN Hle Hlen Hbeg Hback Hend Hnd Hlinks Hvals Hsize Hdom Hspare].
  apply slot_inv in Hbeg as [Hb Hbp].
  destruct (div_mod_S N p HN) as [(_ & Hd & Hm)|[? _]]; [|done].
  destruct (lookup_lt_is_Some_2 hist (S (p / N))) as [n Hn].
  { rewrite Hlen, <- Hd. pose proof (Nat.Div0.div_le_mono (S p) (S (length items)) N ltac:(lia)). lia. }
  destruct (Hlinks _ _ _ (Nat.le_refl _) Hb Hn) as (cb & cn & Hcb & Hcn & Hnb & Hpn).
  pose proof (live_S _ _ _ Hb Hd) as Hlive. rewrite Hlive in Hnd. apply NoDup_cons in Hnd as [Hbnot Hnd].
  assert (Hnin : n ∈ live N hist (S p)) by (apply (live_elem N _ _ (S (p / N))); [lia|done]).
  assert (Hspne : forall a, spare_chunk q = Some a -> (a ∉ live N hist (S p)) /\ a <> begin_chunk q).
  { intros a Ha. pose proof (Hspare a Ha) as Hna. rewrite Hlive in Hna. apply not_elem_of_cons in Hna. tauto. }
  set (h := <[n := mkchunk (values cn) None (next cn)]> (heap q)).
  assert (Hfree : exists h', free h (spare_chunk q) = Ok h' /\
            forall a, h' !! a = if decide (spare_chunk q = Some a) then None else h !! a).
  { destruct (spare_chunk q) as [sp|] eqn:Hsp; simpl.
    - destruct (proj2 (Hdom sp) (or_intror eq_refl)) as [csp Hcsp].
      assert (sp <> n) by (intros ->; by destruct (Hspne n eq_refl)).
      rewrite (deref_Some h sp csp) by (unfold h; by rewrite lookup_insert_ne). simpl. eexists. split; [done|].
      intros a. rewrite lookup_delete. repeat case_decide; simplify_eq; done.
    - exists h. split; [done|]. done. }
  destruct Hfree as (h' & Hfree & Hh').
  assert (Hkeep : forall a c, a ∈ live N hist p -> heap q !! a = Some c ->
            exists c', h' !! a = Some c' /\ values c' = values c /\ next c' = next c /\ (a <> n -> c' = c)).
  { intros a c Ha Hc. assert (Hha : h' !! a = h !! a).
    { rewrite Hh'. case_decide as Hsp; [|done]. by apply Hspare in Hsp. }
    rewrite Hha. unfold h. rewrite lookup_insert. case_decide; [subst; simplify_eq|by eauto 10].
    eexists. split_and!; done. }
  unfold pop. rewrite Hbp, HS, Nat.eqb_refl. rewrite (deref_Some _ _ _ Hcb). cbn [mbind result_bind]. rewrite Hnb.
  cbn [follow mbind result_bind]. unfold set_prev. rewrite (deref_Some _ _ _ Hcn). cbn [mbind result_bind].
  fold h. rewrite Hfree. cbn [mbind result_bind]. eexists. split; [done|].
  split; cbn [heap begin_chunk begin_pos back_chunk back_pos end_chunk end_pos spare_chunk]; try done.
  - unfold slot. by rewrite Hd, Hn, Hm.
  - intros j x y Hj Hx Hy. destruct (Hlinks j x y ltac:(lia) Hx Hy) as (cx & cy & Hcx & Hcy & Hnx & Hpy).
    destruct (Hkeep x cx) as (cx' & Hcx' & _ & Hnx' & _); [apply (live_elem N _ _ j); [lia|done]|done|].
    destruct (Hkeep y cy) as (cy' & Hcy' & _ & _ & Hsame); [apply (live_elem N _ _ (S j)); [lia|done]|done|].
    exists cx', cy'. split_and!; [done|done|congruence|]. rewrite Hsame; [done|]. intros ->.
    assert (S j = S (p / N))%nat; [|lia]. apply (live_inj N hist (S p) _ _ n); [done|lia..|done|done].
  - intros k v Hk Hv. eapply holds_at_links; [|apply (Hvals k v); [lia|done]].
    intros a c Ha Hc. destruct (Hkeep a c) as (c' & Hc' & Hv' & _); [|done|by eauto].
    apply (live_elem N _ _ (k / N)); [|done]. apply Nat.Div0.div_le_mono. lia.
  - intros a c. rewrite Hh'. case_decide; [done|]. unfold h. rewrite lookup_insert.
    case_decide; [|by apply Hsize]. intros [= <-]. simpl. by apply (Hsize n).
  - intros a. rewrite Hh'. case_decide as Hsp; [split; [by intros []|]|].
    + destruct (Hspne a Hsp). intros [?|?]; [done|congruence].
    + assert (Hi : is_Some (h !! a) <-> is_Some (heap q !! a)).
      { unfold h. rewrite lookup_insert. case_decide; [subst; rewrite Hcn|done]. split; eauto. }
      rewrite Hi, Hdom, Hlive, elem_of_cons. intuition congruence.
  - by intros a [= <-].
Qed.

Lemma ypop_spec q hist items p :
  rep N q hist items p -> (p < length items)%nat ->
  exists q', pop N q = Ok q' /\ rep N q' hist items (S p).
Proof.
  intros Hr Hlt. destruct (decide (S (p mod N) = N)) as [HS|HS]; [by apply pop_chunk|].
  pose proof Hr as [HN Hle Hlen Hbeg Hback Hend Hnd Hlinks Hvals Hsize Hdom Hspare].
  apply slot_inv in Hbeg as [Hb Hbp]. destruct (div_mod_S N p HN) as [[? _]|(_ & Hd & Hm)]; [done|].
  unfold pop. rewrite Hbp, (proj2 (Nat.eqb_neq _ _)) by done. eexists. split; [done|].
  assert (Hlive : live N hist (S p) = live N hist p) by (unfold live; by rewrite Hd).
  split; simpl; rewrite ?Hlive, ?Hd; try done.
  - unfold slot. by rewrite Hd, Hb, Hm.
  - intros k v Hk. apply Hvals. lia.
Qed.

(** A new queue with its terminator. *)
Lemma new_push_rep a a' :
  (0 < N)%nat -> a <> a' ->
  exists (q : yqueue_t T) hist, push N (new_yqueue N a) a' = Ok q /\ rep N q hist [] 0.
Proof.
  intros HN Hne. unfold push, new_yqueue. cbn [end_pos end_chunk heap begin_chunk begin_pos spare_chunk].
  destruct (Nat.eqb_spec 1 N) as [<-|HN1]; cbn [negb].
  - rewrite (link_spec _ a a' (fresh_chunk 1) (fresh_chunk 1)); [|done| |apply lookup_insert_eq].
    2:{ rewrite lookup_insert_ne by done. apply lookup_singleton_eq. }
    cbn [mbind result_bind]. eexists _, [a; a']. split; [done|].
    split; simpl; try done; eauto.
    + apply NoDup_cons. rewrite list_elem_of_singleton. split; [done|apply NoDup_singleton].
    + intros [|[|j]] x y _ Hx Hy; try done. injection Hx as <-. injection Hy as <-.
      rewrite (lookup_insert_ne _ a' a), !lookup_insert_eq by done. eauto 10.
    + intros b c. rewrite !lookup_insert, lookup_singleton. repeat case_decide; intros; simplify_eq; done.
    + intros b. rewrite !lookup_insert, lookup_singleton. unfold live. simpl. rewrite elem_of_cons, list_elem_of_singleton.
      repeat case_decide; subst; split; eauto; try (by intros []); by intros [[]|].
  - eexists _, [a]. split; [done|].
    assert (Hd : (1 / N = 0)%nat) by (apply Nat.div_small; lia).
    assert (Hm : (1 mod N = 1)%nat) by (apply Nat.mod_small; lia).
    split; simpl; rewrite ?Hd; unfold slot, live; rewrite ?Nat.Div0.div_0_l, ?Nat.Div0.mod_0_l, ?Hd, ?Hm; simpl; try done; eauto.
    + apply NoDup_singleton.
    + intros b c. rewrite lookup_singleton. case_decide; intros; simplify_eq. apply length_replicate.
    + intros b. rewrite lookup_singleton, list_elem_of_singleton. case_decide; subst; split; eauto; try (by intros []); by intros [|].
Qed.

(** The first half of [unpush] moves [back] to the previous slot. *)
Lemma unpush_back q hist items v p :
  rep N q hist (items ++ [v]) p -> (p <= length items)%nat ->
  exists a, hist !! (length items / N)%nat = Some a /\
    match back_pos q : nat with
    | S bp => Ok (back_chunk q, bp)
    | O => a ← follow (back_chunk q); c ← deref (heap q) a; Ok (prev c, (N - 1)%nat)
    end = Ok (Some a, (length items mod N)%nat).
Proof.
  intros Hr Hle. pose proof Hr as [HN _ Hlen _ (b & Hbc & Hback) _ _ Hlinks _ _ _ _].
  rewrite length_app, Nat.add_comm in Hback, Hlen. simpl length in Hback, Hlen. simpl in Hback. apply slot_inv in Hback as [Hb Hbp].
  destruct (div_mod_S N (length items) HN) as [(HS & Hd & Hm)|(HS & Hd & Hm)].
  - rewrite Hbp, Hm, Hbc. destruct (lookup_lt_is_Some_2 hist (length items / N)) as [a Ha].
    { apply lookup_lt_Some in Hb. lia. }
    exists a. split; [done|]. rewrite Hd in Hb.
    destruct (Hlinks (length items / N)%nat a b) as (ca & cb & _ & Hcb & _ & Hp); [by apply Nat.Div0.div_le_mono|done|done|].
    simpl. rewrite (deref_Some _ _ _ Hcb). simpl. rewrite Hp. do 2 f_equal. lia.
  - exists b. rewrite <- Hd. split; [done|]. by rewrite Hbp, Hm, Hbc.
Qed.

(** The second half of [unpush] when the last chunk becomes obsolete. *)
Lemma unpush_chunk q hist items v p a e ce :
  rep N q (hist ++ [end_chunk q]) (items ++ [v]) p -> (p <= length items)%nat ->
  hist !! (length items / N)%nat = Some a -> hist !! (S (length items) / N)%nat = Some e ->
  length hist = S (S (length items) / N) -> S (S (length items) mod N) = N ->
  heap q !! e = Some ce ->
  let h := <[e := mkchunk (values ce) (prev ce) None]> (delete (end_chunk q) (heap q)) in
  rep N (mkyqueue h (begin_chunk q) (begin_pos q) (Some a) (length items mod N) e (N - 1) (spare_chunk q)) hist items p /\
  holds_at N h hist (length items) v.
Proof.
  intros Hr Hle Ha He Hlen HS Hce h.
  pose proof Hr as [HN _ _ Hbeg _ _ Hnd Hlinks Hvals Hsize Hdom Hspare].
  assert (Hpj : (p / N < length hist)%nat).
  { rewrite Hlen. pose proof (Nat.Div0.div_le_mono p (S (length items)) N ltac:(lia)). lia. }
  assert (Hlive : live N (hist ++ [end_chunk q]) p = live N hist p ++ [end_chunk q]).
  { unfold live. by rewrite drop_app_le by lia. }
  rewrite Hlive in Hnd. apply NoDup_app in Hnd as (Hnd & Hnew & _).
  assert (Hnot : end_chunk q ∉ live N hist p) by (intros Hin; by apply (Hnew _ Hin), list_elem_of_singleton).
  assert (Hin : forall j x, (p / N <= j)%nat -> hist !! j = Some x -> x ∈ live N hist p) by (intros; by eapply live_elem).
  assert (Hkeep : forall x c, x ∈ live N hist p -> heap q !! x = Some c ->
            exists c', h !! x = Some c' /\ values c' = values c /\ prev c' = prev c /\ (x <> e -> next c' = next c)).
  { intros x c Hx Hc. assert (x <> end_chunk q) by congruence. unfold h.
    rewrite lookup_insert, lookup_delete_ne by done. case_decide; [subst; simplify_eq|]; eexists; by split_and!. }
  assert (Hvk : forall k w, (p <= k <= length items)%nat -> (items ++ [v]) !! k = Some w -> holds_at N h hist k w).
  { intros k w Hk Hw. destruct (Hvals k w ltac:(lia) Hw) as (x & c & Hx & Hc & Hval).
    pose proof (Nat.Div0.div_le_mono k (S (length items)) N ltac:(lia)).
    rewrite lookup_app_l in Hx by lia.
    destruct (Hkeep x c) as (c' & Hc' & Hv' & _); [apply (Hin (k / N)%nat); [apply Nat.Div0.div_le_mono; lia|done]|done|].
    exists x, c'. by rewrite Hv'. }
  split; [|apply Hvk; [lia|]; by rewrite lookup_app_r, Nat.sub_diag by lia].
  split; cbn [heap begin_chunk begin_pos back_chunk back_pos end_chunk end_pos spare_chunk]; try done.
  - unfold slot in *. by rewrite lookup_app_l in Hbeg by lia.
  - exists a. split; [done|]. by apply slot_intro.
  - rewrite (slot_intro _ _ _ _ He). do 2 f_equal. lia.
  - intros j x y Hj Hx Hy. destruct (Hlinks j x y Hj) as (cx & cy & Hcx & Hcy & Hnx & Hpy); [by apply lookup_app_l_Some..|].
    destruct (Hkeep x cx) as (cx' & Hcx' & _ & _ & Hnx'); [by apply (Hin j)|done|].
    destruct (Hkeep y cy) as (cy' & Hcy' & _ & Hpy' & _); [apply (Hin (S j)); [lia|done]|done|].
    exists cx', cy'. split_and!; [done|done| |congruence]. rewrite Hnx'; [done|]. intros ->.
    assert (j = S (length items) / N)%nat; [|apply lookup_lt_Some in Hy; lia].
    apply (live_inj N hist p _ _ e); try done. apply Nat.Div0.div_le_mono. lia.
  - intros k w Hk Hw. apply Hvk; [apply lookup_lt_Some in Hw; lia|]. by apply lookup_app_l_Some.
  - intros x c. unfold h. rewrite lookup_insert, lookup_delete. repeat case_decide; try done; [|by apply Hsize].
    intros [= <-]. simpl. by apply (Hsize e).
  - intros x. destruct (decide (x = end_chunk q)) as [->|Hx].
    + unfold h. rewrite lookup_insert_ne, lookup_delete_eq by (intros ->; apply Hnot; apply (Hin (S (length items) / N)%nat); [lia|done]).
      split; [by intros []|]. intros [?|Hsp]; [done|]. apply Hspare in Hsp. rewrite Hlive, elem_of_app, list_elem_of_singleton in Hsp. tauto.
    + assert (Hi : is_Some (h !! x) <-> is_Some (heap q !! x)).
      { unfold h. rewrite lookup_insert, lookup_delete_ne by done. case_decide; [subst; rewrite Hce|done]. split; eauto. }
      rewrite Hi, Hdom, Hlive, elem_of_app, list_elem_of_singleton. tauto.
  - intros x Hsp. apply Hspare in Hsp. rewrite Hlive, elem_of_app in Hsp. tauto.
Qed.

(** [unpush] takes back the last [push]; the terminator then holds the item. *)
Lemma unpush_spec q hist items v p :
  rep N q hist (items ++ [v]) p -> (p <= length items)%nat ->
  exists q' hist', unpush N q = Ok q' /\ rep N q' hist' items p /\ hist' `prefix_of` hist /\
    holds_at N (heap q') hist' (length items) v.
Proof.
  intros Hr Hle. destruct (unpush_back _ _ _ _ _ Hr Hle) as (a & Ha & Hbk).
  pose proof Hr as [HN _ Hlen Hbeg _ Hend Hnd Hlinks Hvals Hsize Hdom Hspare].
  assert (HL : length (items ++ [v]) = S (length items)) by (rewrite length_app; simpl; lia).
  rewrite HL in Hend, Hlen. apply slot_inv in Hend as [He Hep].
  unfold unpush. rewrite Hbk. cbn [mbind result_bind].
  destruct (div_mod_S N (S (length items)) HN) as [(HS & Hd & Hm)|(HS & Hd & Hm)]; rewrite Hep, Hm.
  - rewrite Hd in He, Hlen. destruct (lookup_lt_is_Some_2 hist (S (length items) / N)) as [e He']; [lia|].
    assert (Hpj : (p / N <= S (length items) / N)%nat) by (apply Nat.Div0.div_le_mono; lia).
    destruct (Hlinks _ _ _ Hpj He' He) as (ce' & ce & Hce' & Hce & Hnx & Hpv).
    rewrite (deref_Some _ _ _ Hce). cbn [mbind result_bind]. rewrite Hpv. cbn [follow mbind result_bind].
    rewrite (deref_Some _ _ _ Hce'). cbn [mbind result_bind]. rewrite Hnx. cbn [free].
    rewrite (deref_Some _ _ _ Hce). cbn [mbind result_bind].
    assert (Hne : end_chunk q <> e).
    { intros E. rewrite E in He. enough (S (S (length items) / N) = S (length items) / N)%nat by lia.
      by apply (live_inj N hist p _ _ e); [|lia|..]. }
    unfold set_next. rewrite (deref_Some _ e ce') by (by rewrite lookup_delete_ne).
    cbn [mbind result_bind].
    assert (Hh : hist = take (S (S (length items) / N)) hist ++ [end_chunk q]).
    { rewrite <- (take_S_r _ _ _ He). by rewrite take_ge by lia. }
    set (hist' := take (S (S (length items) / N)) hist) in *.
    assert (Hl' : length hist' = S (S (length items) / N)) by (unfold hist'; rewrite length_take; lia).
    pose proof (Nat.Div0.div_le_mono (length items) (S (length items)) N ltac:(lia)).
    rewrite Hh in Ha, He', Hr. rewrite lookup_app_l in Ha, He' by lia.
    destruct (unpush_chunk q hist' items v p a e ce' Hr) as [Hrep Hv]; try done.
    eexists _, hist'. split; [done|]. split_and!; [done| |done]. rewrite Hh. by eexists.
  - eexists _, hist. split; [done|]. split_and!; [|done|].
    + split; simpl; try done.
      * by rewrite Hlen, Hd.
      * exists a. split; [done|]. by apply slot_intro.
      * rewrite Hd in He. by apply slot_intro.
      * intros k w Hk Hw. apply Hvals; [done|]. by apply lookup_app_l_Some.
    + simpl. apply Hvals; [lia|]. rewrite lookup_app_r, Nat.sub_diag by lia. done.
Qed.

(** The loop of the destructor frees the chunks of a linked list. *)
Lemma free_chunks_spec l (h : gmap Z (chunk_t T)) b e fuel :
  NoDup l -> head l = Some b -> last l = Some e -> (length l <= fuel)%nat ->
  Forall (fun a => is_Some (h !! a)) l ->
  (forall j x y, l !! j = Some x -> l !! S j = Some y -> exists c, h !! x = Some c /\ next c = Some y) ->
  exists h', free_chunks fuel h b e = Ok h' /\ forall a, h' !! a = if decide (a ∈ l) then None else h !! a.
Proof.
  revert h b fuel. induction l as [|x l IH]; intros h b fuel Hnd Hb He Hfuel Hall Hlinks; [done|].
  injection Hb as ->. destruct fuel as [|fuel]; [simpl in Hfuel; lia|]. simpl in Hfuel.
  apply NoDup_cons in Hnd as [Hbl Hnd]. apply Forall_cons in Hall as [[cb Hcb] Hall].
  simpl. rewrite (deref_Some _ _ _ Hcb). destruct l as [|y l].
  - injection He as ->. rewrite Z.eqb_refl. simpl. eexists. split; [done|]. intros a.
    rewrite lookup_delete. destruct (decide (a ∈ [e])) as [->%list_elem_of_singleton|Hn]; [by rewrite decide_True|].
    rewrite list_elem_of_singleton in Hn. by rewrite decide_False by congruence.
  - destruct (Z.eqb_spec b e) as [->|Hne].
    { exfalso. apply Hbl. rewrite last_cons_cons in He. by eapply last_Some_elem_of. }
    simpl. destruct (Hlinks 0%nat b y eq_refl eq_refl) as (c & Hc & Hnx). rewrite Hcb in Hc. injection Hc as <-.
    rewrite Hnx. simpl. destruct (IH (delete b h) y fuel) as (h' & Hf & Hh'); try done.
    + simpl in *. lia.
    + apply Forall_forall. intros a Ha. rewrite lookup_delete_ne by (intros ->; done).
      by eapply (proj1 (Forall_forall _ _) Hall).
    + intros j x z Hx Hz. destruct (Hlinks (S j) x z Hx Hz) as (c & Hc & Hnz). exists c.
      rewrite lookup_delete_ne; [done|]. intros ->. apply Hbl. by eapply list_elem_of_lookup_2.
    + exists h'. split; [done|]. intros a. rewrite Hh', lookup_delete. pose proof (elem_of_cons (y :: l) a b).
      repeat case_decide; subst; try done; exfalso; intuition congruence.
Qed.

(** The destructor frees every chunk, and each only once. *)
Lemma delete_yqueue_spec q hist items p : rep N q hist items p -> delete_yqueue q = Ok ∅.
Proof.
  intros Hr. pose proof Hr as [HN Hle Hlen Hbeg _ Hend Hnd Hlinks _ _ Hdom Hspare].
  apply slot_inv in Hbeg as [Hb _], Hend as [He _].
  assert (Hpj : (p / N <= S (length items) / N)%nat) by (apply Nat.Div0.div_le_mono; lia).
  destruct (free_chunks_spec (live N hist p) (heap q) (begin_chunk q) (end_chunk q) (size (heap q))) as (h & Hf & Hh); try done.
  - unfold live. by rewrite head_lookup, lookup_drop, Nat.add_0_r.
  - unfold live. rewrite last_lookup, lookup_drop, length_drop, Hlen.
    by replace (p / N + Nat.pred (S (S (length items) / N) - p / N))%nat with (S (length items) / N)%nat by lia.
  - rewrite <- (size_dom (D := gset Z)), <- (size_list_to_set (C := gset Z) _ Hnd). apply subseteq_size. intros a Ha.
    apply elem_of_dom, Hdom. left. by apply elem_of_list_to_set in Ha.
  - apply Forall_forall. intros a Ha. apply Hdom. by left.
  - intros j x y Hx Hy. unfold live in Hx, Hy. rewrite lookup_drop in Hx, Hy.
    destruct (Hlinks (p / N + j)%nat x y) as (cx & _ & Hcx & _ & Hnx & _); [lia|done| |by eauto].
    by replace (S (p / N + j))%nat with (p / N + S j)%nat by lia.
  - unfold delete_yqueue. rewrite Hf. cbn [mbind result_bind]. destruct (spare_chunk q) as [sp|] eqn:Hsp; simpl.
    + destruct (proj2 (Hdom sp) (or_intror eq_refl)) as [c Hc].
      rewrite (deref_Some h sp c). 2:{ rewrite Hh, decide_False by (by apply Hspare). done. }
      simpl. f_equal. apply map_eq. intros a. rewrite lookup_empty, lookup_delete, Hh.
      repeat case_decide; try done. apply eq_None_not_Some. rewrite Hdom. intuition congruence.
    + f_equal. apply map_eq. intros a. rewrite lookup_empty, Hh. case_decide; [done|].
      apply eq_None_not_Some. rewrite Hdom. intuition congruence.
Qed.

End Operations.

End YQueue.
