(* ===== verification/Mailbox.v ===== *)
(** The command channel between a worker and its threads: the lock-free pipe
    of src/control_channel/ypipe.hpp on the chunked queue of YQueue, the
    eventfd signaler of src/control_channel/signaler.cpp and the mailbox of
    src/control_channel/mailbox.cpp, with any number of senders and one
    receiver running at the same time.  The operations are defined as the code
    has them and again as the atomic steps they consist of (one access to [c],
    to the spare chunk or to the eventfd each); the theorems hold for every
    interleaving of the steps under sequential consistency.  A process that
    forked ([pid != getpid ()]) is in SocketOps. *)
From stdpp Require Import base numbers list gmap relations.
From Stdlib Require Import ZArith Lia.
From S2P Require Import Prelude YQueue.

(** ** The pipe *)

Module YPipe.
Import YQueue.

(** The chunk size of command pipes. *)
Definition command_pipe_granularity : nat := 16.

Section Pipe.
Context {T : Type} (N : nat).

Record ypipe_t := mkypipe {
  queue : yqueue_t T;
  w : slot_ptr;
  r : option slot_ptr;
  f : slot_ptr;
  c : option slot_ptr
}.

(** The constructor: the queue with its terminator; [a] and [a'] are the
    addresses [malloc] returns. *)
Definition new_ypipe (a a' : Z) : result ypipe_t :=
  q ← push N (new_yqueue N a) a';
  b ← back q;
  Ok (mkypipe q b (Some b) b (Some b)).

Definition write (y : ypipe_t) (value_ : T) (incomplete_ : bool) (a : Z) : result ypipe_t :=
  b ← back (queue y);
  q ← store (queue y) b value_;
  q' ← push N q a;
  b' ← back q';
  Ok (mkypipe q' (w y) (r y) (if incomplete_ then f y else b') (c y)).

Definition unwrite (y : ypipe_t) : result (ypipe_t * option T) :=
  b ← back (queue y);
  if bool_decide (f y = b) then Ok (y, None)
  else
    q ← unpush N (queue y);
    b' ← back q;
    v ← load q b';
    Ok (mkypipe q (w y) (r y) (f y) (c y), Some v).

(** [c.cas (w, f)] and, when it succeeds, [w = f]. *)
Definition flush_cas (y : ypipe_t) : ypipe_t * bool :=
  if bool_decide (c y = Some (w y))
  then (mkypipe (queue y) (f y) (r y) (f y) (Some (f y)), true)
  else (y, false).

(** [c.set (f); w = f] for a sleeping reader. *)
Definition flush_set (y : ypipe_t) : ypipe_t := mkypipe (queue y) (f y) (r y) (f y) (Some (f y)).

Definition flush (y : ypipe_t) : ypipe_t * bool :=
  if bool_decide (w y = f y) then (y, true)
  else
    let '(y', ok) := flush_cas y in
    if ok : bool then (y', true) else (flush_set y', false).

(** A value was prefetched already. *)
Definition prefetched (y : ypipe_t) : bool :=
  match r y with Some p => negb (bool_decide (front (queue y) = p)) | None => false end.

(** [r = c.cas (&queue.front (), NULL)] and the test of [r]. *)
Definition read_cas (y : ypipe_t) : ypipe_t * bool :=
  let old := c y in
  let c' := if bool_decide (c y = Some (front (queue y))) then None else c y in
  (mkypipe (queue y) (w y) old (f y) c',
   match old with Some p => negb (bool_decide (front (queue y) = p)) | None => false end).

Definition check_read (y : ypipe_t) : ypipe_t * bool :=
  if prefetched y then (y, true) else read_cas y.

(** [*value_ = queue.front (); queue.pop ()]. *)
Definition take_front (y : ypipe_t) : result (ypipe_t * T) :=
  v ← load (queue y) (front (queue y));
  q ← pop N (queue y);
  Ok (mkypipe q (w y) (r y) (f y) (c y), v).

Definition read (y : ypipe_t) : result (ypipe_t * option T) :=
  let '(y', ok) := check_read y in
  if ok : bool then '(y'', v) ← take_front y'; Ok (y'', Some v) else Ok (y', None).

Definition probe {A} (y : ypipe_t) (fn : T -> A) : result (ypipe_t * A) :=
  let '(y', ok) := check_read y in
  _ ← afs_assert ok;
  v ← load (queue y') (front (queue y'));
  Ok (y', fn v).

End Pipe.

Arguments ypipe_t : clear implicits.

(** ** The pipe's invariant *)

Section Invariant.
Context {T : Type} (N : nat).
Implicit Types (y : ypipe_t T) (items : list T).

(** [items] were written, all of them complete, the first [p] read, the first
    [wi] flushed and the first [ri] prefetched.  The reader is asleep when [c]
    is null, and then it has read everything that was flushed. *)
Definition pipe_inv y items (p wi ri : nat) : Prop :=
  exists hist, rep N (queue y) hist items p /\
    slot N hist wi = Some (w y) /\ slot N hist (length items) = Some (f y) /\
    (exists s, r y = Some s /\ slot N hist ri = Some s) /\
    (c y = None /\ p = wi \/ c y = Some (w y)) /\
    (p <= ri <= wi)%nat /\ (wi <= length items)%nat.

Lemma new_ypipe_inv a a' :
  (0 < N)%nat -> a <> a' ->
  exists y, new_ypipe N a a' = Ok y /\ pipe_inv y [] 0 0 0 /\ c y <> None.
Proof.
  intros HN Ha. destruct (new_push_rep (T := T) N a a' HN Ha) as (q & hist & Hq & Hr).
  destruct (rep_back N _ _ _ _ Hr) as (b & Hb & Hs).
  unfold new_ypipe. rewrite Hq. cbn [mbind result_bind]. rewrite Hb. cbn [mbind result_bind].
  eexists. split; [done|]. split; [|done]. exists hist. simpl in *. split_and!; eauto with lia.
Qed.

Lemma write_inv y items p wi ri v a :
  pipe_inv y items p wi ri -> heap (queue y) !! a = None ->
  exists y', write N y v false a = Ok y' /\ pipe_inv y' (items ++ [v]) p wi ri /\ c y' = c y.
Proof.
  intros (hist & Hr & Hw & Hf & (s & Hrr & Hs) & Hc & Hle & Hwi) Ha.
  destruct (store_back N _ _ _ _ v Hr) as (b & q & Hb & Hq & Hr' & Hv).
  assert (Ha' : heap q !! a = None).
  { apply eq_None_not_Some. rewrite (rp_dom N _ _ _ _ Hr'), <- (store_spare _ _ _ _ Hq), <- (rp_dom N _ _ _ _ Hr), Ha. by intros []. }
  destruct (push_spec N _ _ _ _ _ _ Hr' Hv Ha') as (q' & hist' & Hq' & Hr'' & Hpre).
  destruct (rep_back N _ _ _ _ Hr'') as (b' & Hb' & Hs').
  unfold write. rewrite Hb. cbn [mbind result_bind]. rewrite Hq. cbn [mbind result_bind]. rewrite Hq'.
  cbn [mbind result_bind]. rewrite Hb'. cbn [mbind result_bind]. eexists. split; [done|]. split; [|done].
  exists hist'. simpl. split_and!; try done; eauto using slot_prefix with lia.
  rewrite length_app. lia.
Qed.

Lemma flush_noop y items p wi ri :
  pipe_inv y items p wi ri -> w y = f y <-> wi = length items.
Proof.
  intros (hist & Hr & Hw & Hf & _ & _ & Hle & Hwi). split; [|intros ->; congruence].
  intros E. rewrite E in Hw. apply (slot_inj N _ _ _ p _ _ (f y) Hr); [lia..|done|done].
Qed.

Lemma flush_cas_inv y items p wi ri :
  pipe_inv y items p wi ri -> c y <> None ->
  exists y', flush_cas y = (y', true) /\ pipe_inv y' items p (length items) ri /\ c y' <> None.
Proof.
  intros (hist & Hr & Hw & Hf & Hrr & [[? _]|Hc] & Hle & Hwi) Hn; [done|].
  unfold flush_cas. rewrite bool_decide_true by done. eexists. split; [done|]. split; [|done].
  exists hist. simpl. split_and!; eauto with lia.
Qed.

Lemma flush_set_inv y items p wi ri :
  pipe_inv y items p wi ri -> pipe_inv (flush_set y) items p (length items) ri /\ c (flush_set y) <> None.
Proof.
  intros (hist & Hr & Hw & Hf & Hrr & _ & Hle & Hwi). split; [|done].
  exists hist. simpl. split_and!; eauto with lia.
Qed.

Lemma front_cmp y items p hist k s :
  rep N (queue y) hist items p -> slot N hist k = Some s -> (p <= k)%nat ->
  bool_decide (front (queue y) = s) = bool_decide (p = k).
Proof.
  intros Hr Hs Hk. apply bool_decide_ext. pose proof (rep_front N _ _ _ _ Hr) as Hf. split; [|intros ->; congruence].
  intros E. rewrite E in Hf. by apply (slot_inj N _ _ _ p _ _ s Hr).
Qed.

Lemma prefetched_spec y items p wi ri :
  pipe_inv y items p wi ri -> prefetched y = bool_decide (p < ri)%nat.
Proof.
  intros (hist & Hr & Hw & Hf & (s & Hrr & Hs) & _ & Hle & Hwi). unfold prefetched. rewrite Hrr.
  rewrite (front_cmp y items p hist ri s) by (done || lia). case_bool_decide; case_bool_decide; simpl; lia || done.
Qed.

(** The reader's compare-and-swap prefetches what was flushed, or puts the
    reader to sleep when there is nothing new. *)
Lemma read_cas_inv y items p wi ri :
  pipe_inv y items p wi ri -> c y <> None ->
  exists y', read_cas y = (y', bool_decide (p < wi)%nat) /\ pipe_inv y' items p wi wi /\
    (c y' = None <-> p = wi).
Proof.
  intros (hist & Hr & Hw & Hf & Hrr & [[? _]|Hc] & Hle & Hwi) Hn; [done|].
  unfold read_cas. rewrite Hc.
  assert (E : bool_decide (Some (w y) = Some (front (queue y))) = bool_decide (p = wi)).
  { rewrite <- (front_cmp y items p hist wi (w y)) by (done || lia). apply bool_decide_ext. split; congruence. }
  rewrite E, (front_cmp y items p hist wi (w y)) by (done || lia).
  assert (E' : negb (bool_decide (p = wi)) = bool_decide (p < wi)%nat) by (repeat case_bool_decide; simpl; done || lia).
  rewrite E'. eexists. split; [done|]. split.
  - exists hist. simpl. split_and!; eauto with lia. case_bool_decide; eauto.
  - simpl. case_bool_decide; split; intros; done || lia.
Qed.

Lemma take_front_inv y items p wi ri :
  pipe_inv y items p wi ri -> (p < ri)%nat ->
  exists y' v, take_front N y = Ok (y', v) /\ items !! p = Some v /\ pipe_inv y' items (S p) wi ri /\ c y' = c y.
Proof.
  intros (hist & Hr & Hw & Hf & Hrr & Hc & Hle & Hwi) Hlt.
  destruct (lookup_lt_is_Some_2 items p) as [v Hv]; [lia|].
  destruct (ypop_spec N _ _ _ _ Hr) as (q & Hq & Hr'); [lia|].
  unfold take_front. rewrite (rep_load_front N _ _ _ _ _ Hr Hv). cbn [mbind result_bind]. rewrite Hq. cbn [mbind result_bind].
  eexists _, v. split; [done|]. split; [done|]. split; [|done]. exists hist. simpl. split_and!; eauto with lia.
  destruct Hc as [[? ?]|?]; [lia|eauto].
Qed.

End Invariant.

End YPipe.

(** ** The signaler and the mailbox *)

Module Mailbox.
Import YQueue YPipe.

Section Operations.
Context {T : Type} (N : nat).

(** The state of the non-blocking eventfd is its counter. *)
Definition signaler_send (efd : Z) : Z := efd + 1.

(** The signal count [recv] read: one signal is consumed, a second one is
    written back, and anything else stops the process; a read of an empty
    eventfd fails with [EAGAIN]. *)
Inductive taken := Consumed | GrabbedTwo.

Definition signaler_take (efd : Z) : result taken :=
  _ ← afs_assert (negb (efd =? 0));
  if efd =? 2 then Ok GrabbedTwo else _ ← afs_assert (efd =? 1); Ok Consumed.

Definition signaler_recv (efd : Z) : result Z :=
  t ← signaler_take efd;
  match t with GrabbedTwo => Ok (signaler_send 0) | Consumed => Ok 0 end.

(** How [poll] ends: a signal, a timeout or an interrupt. *)
Inductive wait_rc := Ready | TimedOut | Interrupted.

Definition signaler_wait (efd timeout_ : Z) (intr : bool) : result wait_rc :=
  if intr then Ok Interrupted
  else if 0 <? efd then Ok Ready
  else if timeout_ <? 0 then Stop WouldBlock else Ok TimedOut.

Record mailbox_t := mkmailbox { cpipe : ypipe_t T; efd : Z; active : bool }.

(** The constructor puts the reader to sleep. *)
Definition new_mailbox (a a' : Z) : result mailbox_t :=
  y ← new_ypipe N a a';
  '(y', v) ← read N y;
  _ ← afs_assert (match v with Some _ => false | None => true end);
  Ok (mkmailbox y' 0 false).

Definition send (m : mailbox_t) (cmd_ : T) (a : Z) : result mailbox_t :=
  y ← write N (cpipe m) cmd_ false a;
  let '(y', ok) := flush y in
  Ok (mkmailbox y' (if ok then efd m else signaler_send (efd m)) (active m)).

(** The part of [recv] that waits for a signal. *)
Definition recv_wait (m : mailbox_t) (timeout_ : Z) (intr : bool) : result (mailbox_t * option T) :=
  rc ← signaler_wait (efd m) timeout_ intr;
  match rc with
  | TimedOut | Interrupted => Ok (m, None)
  | Ready =>
      '(y, v) ← read N (cpipe m);
      _ ← afs_assert (match v with Some _ => true | None => false end);
      Ok (mkmailbox y (efd m) true, v)
  end.

(** [recv] returns the command, or [None] for [-1]. *)
Definition recv (m : mailbox_t) (timeout_ : Z) (intr : bool) : result (mailbox_t * option T) :=
  if active m then
    '(y, v) ← read N (cpipe m);
    match v with
    | Some cmd => Ok (mkmailbox y (efd m) (active m), Some cmd)
    | None =>
        n ← signaler_recv (efd m);
        recv_wait (mkmailbox y n false) timeout_ intr
    end
  else recv_wait m timeout_ intr.

(** ** The operations step by step *)

(** Where the sender that holds [sync] is; the senders that released it with
    [ok] false and did not signal yet are counted by [pending]. *)
Inductive sender_pc :=
| S_flush        (* the command is written *)
| S_set.         (* the compare-and-swap found the reader asleep *)

(** Where the receiver is; the flag tells the read after a signal from the one
    at the start of [recv]. *)
Inductive receiver_pc :=
| R_idle
| R_check (signalled : bool)
| R_cas (signalled : bool)      (* nothing is prefetched *)
| R_take                        (* a value is prefetched *)
| R_signal                      (* about to read the eventfd *)
| R_giveback                    (* two signals were read *)
| R_poll.

Record sys := mksys {
  mbox : mailbox_t;
  holder : option sender_pc;
  pending : Z;
  rpc : receiver_pc;
  sent : list T;
  received : list T
}.

Definition set_pipe (y : ypipe_t T) (m : mailbox_t) : mailbox_t := mkmailbox y (efd m) (active m).
Definition set_efd (n : Z) (m : mailbox_t) : mailbox_t := mkmailbox (cpipe m) n (active m).
Definition set_active (b : bool) (m : mailbox_t) : mailbox_t := mkmailbox (cpipe m) (efd m) b.

(** The steps of [send].  The lock is taken when it is free, and [malloc] may
    return any address that is not in use. *)
Inductive send_step : sys -> result sys -> Prop :=
| ss_write m p rp se re v a :
    heap (queue (cpipe m)) !! a = None ->
    send_step (mksys m None p rp se re)
      (y ← write N (cpipe m) v false a; Ok (mksys (set_pipe y m) (Some S_flush) p rp (se ++ [v]) re))
| ss_nothing m p rp se re :
    w (cpipe m) = f (cpipe m) ->
    send_step (mksys m (Some S_flush) p rp se re) (Ok (mksys m None p rp se re))
| ss_cas m p rp se re y ok :
    w (cpipe m) <> f (cpipe m) -> flush_cas (cpipe m) = (y, ok) ->
    send_step (mksys m (Some S_flush) p rp se re)
      (Ok (mksys (set_pipe y m) (if ok then None else Some S_set) p rp se re))
| ss_set m p rp se re :
    send_step (mksys m (Some S_set) p rp se re)
      (Ok (mksys (set_pipe (flush_set (cpipe m)) m) None (p + 1) rp se re))
| ss_signal m h p rp se re :
    0 < p ->
    send_step (mksys m h p rp se re) (Ok (mksys (set_efd (signaler_send (efd m)) m) h (p - 1) rp se re)).

(** The steps of [recv]. *)
Inductive recv_step : sys -> result sys -> Prop :=
| rs_call m h p se re :
    recv_step (mksys m h p R_idle se re)
      (Ok (mksys m h p (if active m then R_check false else R_poll) se re))
| rs_check m h p b se re :
    recv_step (mksys m h p (R_check b) se re)
      (Ok (mksys m h p (if prefetched (cpipe m) then R_take else R_cas b) se re))
| rs_cas m h p b se re y ok :
    read_cas (cpipe m) = (y, ok) ->
    recv_step (mksys m h p (R_cas b) se re)
      (if ok then Ok (mksys (set_pipe y m) h p R_take se re)
       else if b then Stop AssertFailed
       else Ok (mksys (set_active false (set_pipe y m)) h p R_signal se re))
| rs_take m h p se re :
    recv_step (mksys m h p R_take se re)
      ('(y, v) ← take_front N (cpipe m); Ok (mksys (set_pipe y m) h p R_idle se (re ++ [v])))
| rs_signal m h p se re :
    recv_step (mksys m h p R_signal se re)
      (t ← signaler_take (efd m);
       Ok (mksys (set_efd 0 m) h p (match t with GrabbedTwo => R_giveback | Consumed => R_poll end) se re))
| rs_giveback m h p se re :
    recv_step (mksys m h p R_giveback se re) (Ok (mksys (set_efd (signaler_send (efd m)) m) h p R_poll se re))
| rs_fail m h p se re :        (* a timeout or an interrupt *)
    recv_step (mksys m h p R_poll se re) (Ok (mksys m h p R_idle se re))
| rs_ready m h p se re :
    0 < efd m ->
    recv_step (mksys m h p R_poll se re) (Ok (mksys (set_active true m) h p (R_check true) se re)).

Definition step (s : sys) (o : result sys) : Prop := send_step s o \/ recv_step s o.

(** The states senders and receiver can reach on a new mailbox. *)
Definition reaches (s s' : sys) : Prop := rtc (fun s s' => step s (Ok s')) s s'.

Definition start (m : mailbox_t) : sys := mksys m None 0 R_idle [] [].

End Operations.

Arguments mailbox_t : clear implicits.
Arguments sys : clear implicits.

(** ** The protocol's invariant *)

Section Protocol.
Context {T : Type} (N : nat).
Implicit Types (s : sys T) (m : mailbox_t T).

Definition awake m : bool := match c (cpipe m) with Some _ => true | None => false end.

(** What each program point of the receiver knows: [p] commands were received
    and [wi] flushed. *)
Definition receiver_knows m (rp : receiver_pc) (p wi ri : nat) : Prop :=
  match rp with
  | R_idle => if active m then awake m = true /\ efd m = 1 else awake m = true -> (p < wi)%nat
  | R_check b | R_cas b => active m = true /\ awake m = true /\ efd m = 1 /\ (b = true -> (p < wi)%nat)
  | R_take => active m = true /\ awake m = true /\ efd m = 1 /\ (p < ri)%nat
  | R_signal => active m = false /\ 1 <= efd m /\ (awake m = true -> (p < wi)%nat)
  | R_giveback | R_poll => active m = false /\ (awake m = true -> (p < wi)%nat)
  end.

Definition holder_knows m (h : option sender_pc) (wi n : nat) : Prop :=
  match h with
  | None => wi = n
  | Some S_flush => (wi < n)%nat
  | Some S_set => (wi < n)%nat /\ awake m = false
  end.

(** The signals sent or about to be sent are those the receiver consumes: one
    for every time it is woken up. *)
Definition signal_balance m (p : Z) (rp : receiver_pc) : Prop :=
  efd m + p + (match rp with R_giveback => 1 | _ => 0 end)
  = (match rp with R_signal => 1 | _ => 0 end) + (if awake m then 1 else 0).

Definition sys_inv s : Prop :=
  exists wi ri,
    pipe_inv N (cpipe (mbox s)) (sent s) (length (received s)) wi ri /\
    received s = take (length (received s)) (sent s) /\
    0 <= pending s /\ 0 <= efd (mbox s) /\
    signal_balance (mbox s) (pending s) (rpc s) /\
    holder_knows (mbox s) (holder s) wi (length (sent s)) /\
    receiver_knows (mbox s) (rpc s) (length (received s)) wi ri.

Lemma awake_true m : awake m = true <-> c (cpipe m) <> None.
Proof. unfold awake. destruct (c (cpipe m)); split; done. Qed.

Lemma awake_pipe m y : c y = c (cpipe m) -> awake (set_pipe y m) = awake m.
Proof. unfold awake. simpl. by intros ->. Qed.

Lemma awake_efd m n : awake (set_efd n m) = awake m.
Proof. done. Qed.

Lemma awake_active m b : awake (set_active b m) = awake m.
Proof. done. Qed.

Lemma mbox_inv_intro m h p rp se re wi ri :
  pipe_inv N (cpipe m) se (length re) wi ri -> re = take (length re) se ->
  0 <= p -> 0 <= efd m -> signal_balance m p rp -> holder_knows m h wi (length se) ->
  receiver_knows m rp (length re) wi ri -> sys_inv (mksys m h p rp se re).
Proof. intros. exists wi, ri. by split_and!. Qed.

(** More flushed commands keep what the receiver knows while it is awake or
    stays asleep. *)
Lemma receiver_knows_flush m m' rp p wi wi' ri :
  active m' = active m -> efd m' = efd m -> (wi <= wi')%nat ->
  (awake m' = awake m \/ awake m = false /\ (p < wi')%nat) ->
  receiver_knows m rp p wi ri -> receiver_knows m' rp p wi' ri.
Proof.
  intros Ha He Hle Hw. unfold receiver_knows. rewrite Ha, He.
  destruct Hw as [->|[Hs Hp]]; destruct rp; try rewrite Hs; try destruct (active m); intros; destruct_and?; split_and?;
    try done; intros; try lia; naive_solver lia.
Qed.

Lemma send_step_inv s o : sys_inv s -> send_step N s o -> exists s', o = Ok s' /\ sys_inv s'.
Proof.
  intros (wi & ri & Hp & Hre & Hpe & Hefd & Hbal & Hh & Hrk) Hstep.
  destruct Hstep as [m p rp se re v a Ha|m p rp se re Hwf|m p rp se re y ok Hwf Hcas|m p rp se re|m h p rp se re Hpos];
    simpl in *.
  - destruct (write_inv N _ _ _ _ _ v a Hp Ha) as (y & Hy & Hpy & Hcy). rewrite Hy. eexists. split; [done|].
    pose proof (awake_pipe m y Hcy) as Haw. apply (mbox_inv_intro _ _ _ _ _ _ wi ri); simpl; try done.
    + rewrite take_app_le; [done|]. rewrite Hre, length_take. lia.
    + unfold signal_balance in *. by rewrite Haw.
    + rewrite length_app. simpl. lia.
    + eapply receiver_knows_flush; [..|exact Hrk]; auto.
  - rewrite (flush_noop N _ _ _ _ _ Hp) in Hwf. lia.
  - destruct (c (cpipe m)) as [cc|] eqn:Hc.
    + destruct (flush_cas_inv N _ _ _ _ _ Hp) as (y' & Hcas' & Hpy & Hcy); [by rewrite Hc|].
      rewrite Hcas in Hcas'. injection Hcas' as -> ->. eexists. split; [done|].
      assert (Haw : awake (set_pipe y' m) = awake m).
      { unfold awake. simpl. rewrite Hc. by destruct (c y'). }
      apply (mbox_inv_intro _ _ _ _ _ _ (length se) ri); simpl; try done.
      * unfold signal_balance in *. by rewrite Haw.
      * eapply receiver_knows_flush; [..|exact Hrk]; auto. lia.
    + unfold flush_cas in Hcas. rewrite Hc in Hcas. rewrite bool_decide_false in Hcas by done. injection Hcas as <- <-.
      eexists. split; [done|]. replace (set_pipe (cpipe m) m) with m by (by destruct m).
      apply (mbox_inv_intro _ _ _ _ _ _ wi ri); simpl; try done. split; [done|]. unfold awake. by rewrite Hc.
  - destruct (flush_set_inv N _ _ _ _ _ Hp) as [Hpy Hcy]. destruct Hh as [Hlt Hs]. eexists. split; [done|].
    assert (Haw : awake (set_pipe (flush_set (cpipe m)) m) = true) by (by apply awake_true).
    assert (Hpw : length re = wi).
    { destruct Hp as (hist & _ & _ & _ & _ & [[_ ?]|Hc] & _); [done|]. unfold awake in Hs. by rewrite Hc in Hs. }
    apply (mbox_inv_intro _ _ _ _ _ _ (length se) ri); try done; [lia| |].
    + unfold signal_balance in *. rewrite Haw. rewrite Hs in Hbal. simpl. lia.
    + eapply receiver_knows_flush; [..|exact Hrk]; auto; [lia|]. right. split; [done|lia].
  - eexists. split; [done|]. apply (mbox_inv_intro _ _ _ _ _ _ wi ri); simpl; try done; try lia.
    + unfold signaler_send. lia.
    + unfold signal_balance, signaler_send in *. rewrite awake_efd. simpl. lia.
    + unfold receiver_knows, signal_balance, signaler_send in *. rewrite awake_efd. simpl in *.
      destruct (awake m), rp; try destruct (active m); destruct_and?; split_and?; try done; try lia.
Qed.

(** Re-establish the bookkeeping of signals after a step of the receiver. *)
Ltac solve_signals :=
  unfold signal_balance, receiver_knows, signaler_send in *; rewrite ?awake_efd, ?awake_active; simpl in *;
  destruct_and?; split_and?; intros; first [done | lia | naive_solver lia].

Lemma recv_step_inv s o : sys_inv s -> recv_step N s o -> exists s', o = Ok s' /\ sys_inv s'.
Proof.
  intros (wi & ri & Hp & Hre & Hpe & Hefd & Hbal & Hh & Hrk) Hstep.
  destruct Hstep as [m h p se re|m h p b se re|m h p b se re y ok Hcas|m h p se re|m h p se re|m h p se re|m h p se re|m h p se re Hpos];
    cbn [mbox holder pending rpc sent received receiver_knows] in *.
  - eexists. split; [done|]. apply (mbox_inv_intro _ _ _ _ _ _ wi ri); try done; destruct (active m) eqn:Ha; solve_signals.
  - eexists. split; [done|]. rewrite (prefetched_spec N _ _ _ _ _ Hp).
    apply (mbox_inv_intro _ _ _ _ _ _ wi ri); try done; case_bool_decide; solve_signals.
  - destruct Hrk as (Ha & Haw & He & Hb). destruct (read_cas_inv N _ _ _ _ _ Hp) as (y' & Hcas' & Hpy & Hcy); [by apply awake_true|].
    rewrite Hcas in Hcas'. injection Hcas' as -> ->. case_bool_decide as Hlt.
    + assert (Haw' : awake (set_pipe y' m) = true) by (apply awake_true; simpl; rewrite Hcy; lia).
      eexists. split; [done|]. apply (mbox_inv_intro _ _ _ _ _ _ wi wi); try done.
      * unfold signal_balance in *. by rewrite Haw', Haw in *.
      * destruct h as [[]|]; try done. simpl in *. destruct Hh. congruence.
    + destruct b; [specialize (Hb eq_refl); lia|]. destruct Hp as (_ & _ & _ & _ & _ & _ & ? & ?).
      assert (Haw' : awake (set_pipe y' m) = false) by (unfold awake; simpl; rewrite (proj2 Hcy) by lia; done).
      eexists. split; [done|]. apply (mbox_inv_intro _ _ _ _ _ _ wi wi); try done.
      * unfold signal_balance in *. rewrite awake_active, Haw'. rewrite Haw in Hbal. simpl. lia.
      * destruct h as [[]|]; try done. simpl in *. destruct Hh. congruence.
      * simpl. rewrite awake_active, Haw'. split_and!; [done|lia|done].
  - destruct Hrk as (Ha & Haw & He & Hlt). destruct (take_front_inv N _ _ _ _ _ Hp Hlt) as (y & v & Ht & Hv & Hpy & Hcy).
    rewrite Ht. eexists. split; [done|]. pose proof (awake_pipe m y Hcy) as Haw'.
    assert (HL : length (re ++ [v]) = S (length re)) by (rewrite length_app; simpl; lia).
    apply (mbox_inv_intro _ _ _ _ _ _ wi ri); rewrite ?HL; try done.
    + rewrite (take_S_r _ _ _ Hv). by rewrite <- Hre.
    + unfold signal_balance in *. by rewrite Haw'.
    + unfold holder_knows in *. by rewrite Haw'.
    + simpl. by rewrite Ha, Haw', Haw.
  - destruct Hrk as (Ha & He & Hlt).
    assert (Hn : efd m = 1 \/ efd m = 2 /\ awake m = true /\ p = 0).
    { unfold signal_balance in Hbal. destruct (awake m); simpl in Hbal; lia. }
    unfold signaler_take. destruct Hn as [Hn|(Hn & Haw & ->)]; rewrite Hn; simpl; eexists; (split; [done|]);
      apply (mbox_inv_intro _ _ _ _ _ _ wi ri); try done; solve_signals.
  - eexists. split; [done|]. apply (mbox_inv_intro _ _ _ _ _ _ wi ri); try done; solve_signals.
  - eexists. split; [done|]. apply (mbox_inv_intro _ _ _ _ _ _ wi ri); try done.
    simpl. by destruct Hrk as [-> Hlt].
  - eexists. split; [done|]. destruct Hrk as [Ha Hlt]. unfold signal_balance in *. simpl in Hbal.
    assert (Haw : awake m = true) by (destruct (awake m); [done|lia]). rewrite Haw in Hbal.
    apply (mbox_inv_intro _ _ _ _ _ _ wi ri); try done.
    + unfold signal_balance. rewrite awake_active, Haw. simpl. lia.
    + simpl. rewrite awake_active. split_and!; [done|done|lia|auto].
Qed.

Lemma new_mailbox_inv a a' :
  (0 < N)%nat -> a <> a' -> exists m, new_mailbox N a a' = Ok m /\ sys_inv (start m).
Proof.
  intros HN Ha. destruct (new_ypipe_inv (T := T) N a a' HN Ha) as (y & Hy & Hp & Hc).
  destruct (read_cas_inv N _ _ _ _ _ Hp Hc) as (y' & Hcas & Hp' & Hc').
  unfold new_mailbox. rewrite Hy. cbn [mbind result_bind]. unfold read, check_read.
  rewrite (prefetched_spec N _ _ _ _ _ Hp), bool_decide_false, Hcas, bool_decide_false by lia.
  simpl. eexists. split; [done|]. assert (Haw : awake (mkmailbox y' 0 false) = false).
  { unfold awake. simpl. by rewrite (proj2 Hc'). }
  apply (mbox_inv_intro _ _ _ _ _ _ 0 0); try done.
  - unfold signal_balance. by rewrite Haw.
  - simpl. by rewrite Haw.
Qed.

Lemma step_inv s o : sys_inv s -> step N s o -> exists s', o = Ok s' /\ sys_inv s'.
Proof. intros Hi [Hs|Hs]; eauto using send_step_inv, recv_step_inv. Qed.

Lemma reaches_inv s s' : reaches N s s' -> sys_inv s -> sys_inv s'.
Proof.
  induction 1 as [|s1 s2 s3 Hs _ IH]; intros Hi; [done|]. apply IH.
  destruct (step_inv _ _ Hi Hs) as (s' & [= ->] & Hi'). done.
Qed.

Lemma reachable_inv a a' m s :
  (0 < N)%nat -> a <> a' -> new_mailbox N a a' = Ok m -> reaches N (start m) s -> sys_inv s.
Proof.
  intros HN Ha Hm Hs. destruct (new_mailbox_inv a a' HN Ha) as (m' & Hm' & Hi).
  rewrite Hm in Hm'. injection Hm' as ->. by eapply reaches_inv.
Qed.

(** [read] on a pipe whose reader is awake. *)
Lemma read_awake (y : ypipe_t T) items p wi ri :
  pipe_inv N y items p wi ri -> c y <> None ->
  exists y', read N y = Ok (y', if decide (p < wi)%nat then items !! p else None) /\
    (p = wi -> c y' = None).
Proof.
  intros Hp Hc. pose proof Hp as (_ & _ & _ & _ & _ & _ & Hle & Hwi).
  unfold read, check_read. rewrite (prefetched_spec N _ _ _ _ _ Hp). case_bool_decide as Hpre.
  - destruct (take_front_inv N _ _ _ _ _ Hp Hpre) as (y' & v & Ht & Hv & _). rewrite Ht. simpl.
    exists y'. rewrite decide_True, Hv by lia. split; [done|lia].
  - destruct (read_cas_inv N _ _ _ _ _ Hp Hc) as (y1 & Hcas & Hp1 & Hc1). rewrite Hcas. case_bool_decide as Hlt.
    + destruct (take_front_inv N _ _ _ _ _ Hp1 Hlt) as (y' & v & Ht & Hv & _). rewrite Ht. simpl.
      exists y'. rewrite decide_True, Hv by lia. split; [done|lia].
    + exists y1. rewrite decide_False by lia. split; [done|tauto].
Qed.

(** [recv] when no sender is inside [send]. *)
Lemma recv_quiescent s timeout_ :
  sys_inv s -> holder s = None -> pending s = 0 -> rpc s = R_idle -> 0 <= timeout_ ->
  exists m', recv N (mbox s) timeout_ false = Ok (m', sent s !! length (received s)).
Proof.
  intros (wi & ri & Hp & Hre & _ & Hefd & Hbal & Hh & Hrk) Hh0 Hp0 Hr0 Ht. rewrite Hh0 in Hh. rewrite Hr0 in Hrk, Hbal.
  rewrite Hp0 in Hbal. unfold signal_balance in Hbal. simpl in Hh, Hrk, Hbal. subst wi.
  assert (Hwake : awake (mbox s) = true -> exists y', read N (cpipe (mbox s)) = Ok (y', sent s !! length (received s))).
  { intros Haw%awake_true. destruct (read_awake _ _ _ _ _ Hp Haw) as (y' & Hy & _). exists y'. rewrite Hy.
    case_decide; [done|]. do 2 f_equal. symmetry. apply lookup_ge_None_2. lia. }
  unfold recv. destruct (active (mbox s)) eqn:Ha.
  - destruct Hrk as [Haw He]. destruct (Hwake Haw) as (y & Hy). rewrite Hy. cbn [mbind result_bind].
    destruct (sent s !! length (received s)) as [v|]; [by eexists|]. rewrite He. simpl. unfold recv_wait. simpl.
    rewrite (proj2 (Z.ltb_ge timeout_ 0)) by lia. simpl. by eexists.
  - unfold recv_wait, signaler_wait. destruct (awake (mbox s)) eqn:Haw.
    + rewrite (proj2 (Z.ltb_lt 0 (efd (mbox s)))) by lia. cbn [mbind result_bind].
      destruct (Hwake eq_refl) as (y & Hy). rewrite Hy. cbn [mbind result_bind].
      destruct (lookup_lt_is_Some_2 (sent s) (length (received s))) as [v Hv]; [by apply Hrk|].
      rewrite Hv. simpl. by eexists.
    + rewrite (proj2 (Z.ltb_ge 0 (efd (mbox s)))), (proj2 (Z.ltb_ge timeout_ 0)) by lia. simpl. eexists. do 2 f_equal.
      symmetry. apply lookup_ge_None_2. destruct Hp as (_ & _ & _ & _ & _ & [[_ Hpw]|Hc] & _); [lia|].
      unfold awake in Haw. by rewrite Hc in Haw.
Qed.

(** The chunks of the pipe: those in use and at most one spare. *)
Lemma rep_size (q : yqueue_t T) hist items p :
  rep N q hist items p -> (size (heap q) <= (length items - p) / N + 4)%nat.
Proof.
  intros Hr. pose proof Hr as [HN Hle Hlen _ _ _ Hnd _ _ _ Hdom _].
  assert (Hs : (size (heap q) <= S (length (live N hist p)))%nat).
  { rewrite <- (size_dom (D := gset Z)).
    transitivity (size (list_to_set (live N hist p) ∪ match spare_chunk q with Some a => {[a]} | None => ∅ end : gset Z)).
    - apply subseteq_size. intros a Ha%elem_of_dom%Hdom. apply elem_of_union. destruct Ha as [Ha| ->].
      + left. by apply elem_of_list_to_set.
      + right. by apply elem_of_singleton.
    - rewrite size_union_alt, size_list_to_set by done. etransitivity; [apply Nat.add_le_mono_l, subseteq_size, subseteq_difference_l; done|].
      destruct (spare_chunk q); rewrite ?size_singleton, ?size_empty; lia. }
  unfold live in Hs. rewrite length_drop, Hlen in Hs.
  enough (S (length items) / N <= p / N + (length items - p) / N + 2)%nat by lia.
  apply Nat.lt_succ_r, Nat.Div0.div_lt_upper_bound.
  pose proof (Nat.div_mod_eq p N). pose proof (Nat.mod_upper_bound p N ltac:(lia)).
  pose proof (Nat.div_mod_eq (length items - p) N). pose proof (Nat.mod_upper_bound (length items - p) N ltac:(lia)).
  nia.
Qed.

End Protocol.

(** ** The operations are sequences of their steps *)

Section Adequacy.
Context {T : Type} (N : nat).
Implicit Types (m : mailbox_t T).

Lemma step_reaches (s s' s'' : sys T) o : step N s o -> o = Ok s' -> reaches N s' s'' -> reaches N s s''.
Proof. intros Hs -> Hr. by apply (rtc_l _ s s'). Qed.

Lemma send_steps m m' p rp se re v a :
  heap (queue (cpipe m)) !! a = None -> 0 <= p -> send N m v a = Ok m' ->
  reaches N (mksys m None p rp se re) (mksys m' None p rp (se ++ [v]) re).
Proof.
  intros Ha Hp Hs. unfold send in Hs. destruct (write N (cpipe m) v false a) as [y|] eqn:Hy; [|done].
  cbn [mbind result_bind] in Hs. eapply step_reaches; [left; apply (ss_write _ _ _ _ _ _ v a Ha)|by rewrite Hy|].
  unfold flush in Hs. case_bool_decide as Hwf.
  { injection Hs as <-. eapply step_reaches; [left; by apply ss_nothing|done|]. apply rtc_refl. }
  destruct (flush_cas y) as [y' []] eqn:Hcas; injection Hs as <-;
    (eapply step_reaches; [left; eapply ss_cas; [exact Hwf|exact Hcas]|done|]); simpl; [apply rtc_refl|].
  eapply step_reaches; [left; apply ss_set|done|]. eapply step_reaches; [left; apply ss_signal; lia|done|].
  simpl. replace (p + 1 - 1) with p by lia. apply rtc_refl.
Qed.

(** [read], from the point where the receiver checks for a prefetched value. *)
Lemma read_steps m y o h p b se re :
  read N (cpipe m) = Ok (y, o) -> (b = true -> o <> None) ->
  reaches N (mksys m h p (R_check b) se re)
    (match o with
     | Some v => mksys (set_pipe y m) h p R_idle se (re ++ [v])
     | None => mksys (set_active false (set_pipe y m)) h p R_signal se re
     end).
Proof.
  intros Hr Hb. eapply step_reaches; [right; apply rs_check|done|]. unfold read, check_read in Hr.
  assert (Htake : forall y0, ('(y', v) ← take_front N y0; Ok (y', Some v)) = Ok (y, o) ->
            exists v, o = Some v /\ reaches N (mksys (set_pipe y0 m) h p R_take se re) (mksys (set_pipe y m) h p R_idle se (re ++ [v]))).
  { intros y0 H0. destruct (take_front N y0) as [[y' v]|] eqn:Ht; [|done]. injection H0 as -> <-. exists v. split; [done|].
    eapply step_reaches; [right; apply rs_take|simpl; by rewrite Ht|]. apply rtc_refl. }
  destruct (prefetched (cpipe m)) eqn:Hpre.
  - destruct (Htake _ Hr) as (v & -> & Hreach). by destruct m.
  - destruct (read_cas (cpipe m)) as [y1 ok] eqn:Hcas. destruct ok.
    + eapply step_reaches; [right; by apply (rs_cas _ _ _ _ b _ _ y1 true)|done|].
      by destruct (Htake _ Hr) as (v & -> & Hreach).
    + injection Hr as <- <-. destruct b; [by destruct (Hb eq_refl)|].
      eapply step_reaches; [right; by apply (rs_cas _ _ _ _ false _ _ y1 false)|done|apply rtc_refl].
Qed.

Lemma recv_wait_steps m m' o timeout_ intr h p se re :
  active m = false -> recv_wait N m timeout_ intr = Ok (m', o) ->
  reaches N (mksys m h p R_poll se re) (mksys m' h p R_idle se (re ++ option_list o)).
Proof.
  intros Ha Hr. unfold recv_wait in Hr. destruct (signaler_wait (efd m) timeout_ intr) as [rc|] eqn:Hw; [|done].
  cbn [mbind result_bind] in Hr. destruct rc.
  - destruct (read N (cpipe m)) as [[y v]|] eqn:Hrd; [|done]. destruct v as [v|]; [|done]. injection Hr as <- <-.
    assert (He : 0 < efd m).
    { unfold signaler_wait in Hw. destruct intr; [done|]. destruct (Z.ltb_spec 0 (efd m)); [done|]. by destruct (_ <? _). }
    eapply step_reaches; [right; by apply rs_ready|done|].
    pose proof (read_steps (set_active true m) y (Some v) h p true se re Hrd) as Hs. by apply Hs.
  - injection Hr as <- <-. rewrite app_nil_r. eapply step_reaches; [right; apply rs_fail|done|apply rtc_refl].
  - injection Hr as <- <-. rewrite app_nil_r. eapply step_reaches; [right; apply rs_fail|done|apply rtc_refl].
Qed.

Lemma recv_steps m m' o timeout_ intr h p se re :
  recv N m timeout_ intr = Ok (m', o) ->
  reaches N (mksys m h p R_idle se re) (mksys m' h p R_idle se (re ++ option_list o)).
Proof.
  intros Hr. unfold recv in Hr. eapply step_reaches; [right; apply rs_call|done|].
  destruct (active m) eqn:Ha; [|by eapply recv_wait_steps].
  destruct (read N (cpipe m)) as [[y v]|] eqn:Hrd; [|done]. cbn [mbind result_bind] in Hr.
  pose proof (read_steps m y v h p false se re Hrd ltac:(done)) as Hs. unfold reaches in *. destruct v as [v|].
  - injection Hr as <- <-. unfold set_pipe in Hs. rewrite Ha in Hs. done.
  - etransitivity; [exact Hs|]. destruct (signaler_recv (efd m)) as [n|] eqn:Hn; [|done]. cbn [mbind result_bind] in Hr.
    unfold signaler_recv in Hn. destruct (signaler_take (efd m)) as [t|] eqn:Ht; [|done].
    eapply step_reaches; [right; apply rs_signal|simpl; by rewrite Ht|].
    destruct t; simpl in Hn; injection Hn as <-.
    + by apply (recv_wait_steps (mkmailbox y 0 false) _ _ timeout_ intr).
    + eapply step_reaches; [right; apply rs_giveback|done|]. by apply (recv_wait_steps (mkmailbox y 1 false) _ _ timeout_ intr).
Qed.

End Adequacy.

(** ** Theorems *)

(** C13 Whatever the senders and the receiver do at the same time, the receiver
    gets the commands in the order they were written, each at most once, and
    neither side ever stops the process: no assertion of the mailbox and the
    signaler fails, no null pointer or unwritten slot is read. *)
Theorem mailbox_safe {T} N a a' (m : mailbox_t T) s :
  (0 < N)%nat -> a <> a' -> new_mailbox N a a' = Ok m -> reaches N (start m) s ->
  received s `prefix_of` sent s /\ forall e, ~ step N s (Stop e).
Proof.
  intros HN Ha Hm Hs. pose proof (reachable_inv N _ _ _ _ HN Ha Hm Hs) as Hi. split.
  - destruct Hi as (_ & _ & _ & -> & _). apply prefix_take.
  - intros e He. by destruct (step_inv N _ _ Hi He) as (? & ? & _).
Qed.

(** C14 No command is lost and no wake-up is missed: when no sender is inside
    [send], the next call of [recv] returns the oldest command not received yet,
    and reports that there is none only when all of them were received. *)
Theorem mailbox_no_lost_command {T} N a a' (m : mailbox_t T) s timeout_ :
  (0 < N)%nat -> a <> a' -> new_mailbox N a a' = Ok m -> reaches N (start m) s ->
  holder s = None -> pending s = 0 -> rpc s = R_idle -> 0 <= timeout_ ->
  exists m', recv N (mbox s) timeout_ false = Ok (m', sent s !! length (received s)).
Proof. intros HN Ha Hm Hs. apply recv_quiescent. by eapply reachable_inv. Qed.

(** The pipe keeps its memory: at every moment it owns at most four chunks
    more than its unread commands fill, and its destructor frees every chunk
    exactly once. *)
Theorem mailbox_memory {T} N a a' (m : mailbox_t T) s :
  (0 < N)%nat -> a <> a' -> new_mailbox N a a' = Ok m -> reaches N (start m) s ->
  (size (heap (queue (cpipe (mbox s)))) <= (length (sent s) - length (received s)) / N + 4)%nat /\
  delete_yqueue (queue (cpipe (mbox s))) = Ok ∅.
Proof.
  intros HN Ha Hm Hs. destruct (reachable_inv N _ _ _ _ HN Ha Hm Hs) as (wi & ri & (hist & Hr & _) & _).
  split; [by eapply rep_size|by eapply delete_yqueue_spec].
Qed.

(** ** A run *)

Section Run.

Definition run_start : result (mailbox_t Z) := new_mailbox command_pipe_granularity 1 2.

(** Two commands sent and the first received, with the functions of the
    code. *)
Definition run_two : result (mailbox_t Z * option Z) :=
  m ← run_start;
  m1 ← send command_pipe_granularity m 7 3;
  m2 ← send command_pipe_granularity m1 8 3;
  recv command_pipe_granularity m2 0 false.

Definition no_mailbox : mailbox_t Z := mkmailbox (mkypipe (new_yqueue 1 0) (0, 0%nat) None (0, 0%nat) None) 0 false.

Definition run_m0 : mailbox_t Z := Eval vm_compute in match run_start with Ok m => m | Stop _ => no_mailbox end.
Definition run_m1 : mailbox_t Z := Eval vm_compute in
  match send command_pipe_granularity run_m0 7 3 with Ok m => m | Stop _ => no_mailbox end.
Definition run_m2 : mailbox_t Z := Eval vm_compute in
  match send command_pipe_granularity run_m1 8 3 with Ok m => m | Stop _ => no_mailbox end.
Definition run_m3 : mailbox_t Z := Eval vm_compute in match run_two with Ok (m, _) => m | Stop _ => no_mailbox end.

Definition run_end : sys Z := mksys run_m3 None 0 R_idle [7; 8] [7].

Lemma run_reaches : reaches command_pipe_granularity (start run_m0) run_end.
Proof.
  assert (H1 : reaches command_pipe_granularity (start run_m0) (mksys run_m1 None 0 R_idle [7] [])).
  { apply (send_steps command_pipe_granularity run_m0 run_m1 0 R_idle [] [] 7 3); [by vm_compute|lia|by vm_compute]. }
  assert (H2 : reaches command_pipe_granularity (mksys run_m1 None 0 R_idle [7] []) (mksys run_m2 None 0 R_idle [7; 8] [])).
  { apply (send_steps command_pipe_granularity run_m1 run_m2 0 R_idle [7] [] 8 3); [by vm_compute|lia|by vm_compute]. }
  assert (H3 : reaches command_pipe_granularity (mksys run_m2 None 0 R_idle [7; 8] []) run_end).
  { apply (recv_steps command_pipe_granularity run_m2 run_m3 (Some 7) 0 false None 0 [7; 8] []). by vm_compute. }
  unfold reaches in *. etransitivity; [exact H1|]. etransitivity; [exact H2|exact H3].
Qed.

Lemma mailbox_safe_witness :
  received run_end `prefix_of` sent run_end /\ forall e, ~ step command_pipe_granularity run_end (Stop e).
Proof.
  apply (mailbox_safe command_pipe_granularity 1 2 run_m0); [unfold command_pipe_granularity; lia|lia|by vm_compute|apply run_reaches].
Defined.

Lemma mailbox_no_lost_command_witness :
  exists m', recv command_pipe_granularity run_m3 0 false = Ok (m', Some 8).
Proof.
  apply (mailbox_no_lost_command command_pipe_granularity 1 2 run_m0 run_end 0);
    [unfold command_pipe_granularity; lia|lia|by vm_compute|apply run_reaches|done|done|done|lia].
Defined.

Lemma mailbox_memory_witness :
  (size (heap (queue (cpipe run_m3))) <= 1 / command_pipe_granularity + 4)%nat /\
  delete_yqueue (queue (cpipe run_m3)) = Ok ∅.
Proof.
  apply (mailbox_memory command_pipe_granularity 1 2 run_m0 run_end);
    [unfold command_pipe_granularity; lia|lia|by vm_compute|apply run_reaches].
Defined.

End Run.

End Mailbox.
