(* ===== verification/SocketOps.v ===== *)
(** Descriptors and what the code does to them with system calls: the socket
    helpers (src/net/tcp.cpp, src/control_channel/ip.cpp) and the life of a
    signaler (src/control_channel/signaler.cpp), from [eventfd] to the [close]
    that is tried again.

    The kernel is a table of descriptors with a list of the errors it will answer
    with; a call beyond the list succeeds.  The theorems show that a signaler with
    its descriptor is the counter the file Mailbox works with, and that closing it
    takes bounded time whatever the kernel answers. *)
From stdpp Require Import base numbers list gmap strings.
From Stdlib Require Import ZArith Lia.
From S2P Require Import Prelude Mailbox.

Module SocketOps.
Import Mailbox.

(** ** The kernel *)

Inductive errno := EAGAIN | EINTR | EMFILE | ENFILE | EBADF | EFAULT | EINVAL | ENOTSOCK | EOther (n : Z).

#[global] Instance errno_eq_dec : EqDecision errno.
Proof. solve_decision. Defined.

(** What a system call returns. *)
Inductive rc (A : Type) := Done (a : A) | Err (e : errno).
Arguments Done {A} a.
Arguments Err {A} e.

Inductive sockopt := TCP_NODELAY | SO_SNDBUF | SO_RCVBUF | SO_KEEPALIVE | TCP_KEEPCNT | TCP_KEEPIDLE | TCP_KEEPINTVL.

(** A descriptor: its status flags, whether it survives [exec], the options that
    were set on it in order, and the counter of an eventfd. *)
Record desc := mkdesc { flags : Z; cloexec : bool; set_options : list (sockopt * Z); counter : option Z }.

Definition O_NONBLOCK : Z := 2048.
Definition SOCK_CLOEXEC : Z := 524288.

Definition nonblocking (d : desc) : bool := negb (Z.land (flags d) O_NONBLOCK =? 0).

(** The process: its descriptors, its id, the errors to come ([None] for a call
    that succeeds), how long it slept and how often it called [close]. *)
Record os := mkos { descs : gmap Z desc; process : Z; answers : list (option errno); slept : Z; closes : Z }.

Definition set_descs (m : gmap Z desc) (k : os) : os := mkos m (process k) (answers k) (slept k) (closes k).
Definition set_answers (l : list (option errno)) (k : os) : os := mkos (descs k) (process k) l (slept k) (closes k).
Definition add_slept (ms : Z) (k : os) : os := mkos (descs k) (process k) (answers k) (slept k + ms) (closes k).
Definition add_close (k : os) : os := mkos (descs k) (process k) (answers k) (slept k) (closes k + 1).

Definition answer (k : os) : option errno * os :=
  match answers k with [] => (None, k) | a :: l => (a, set_answers l k) end.

(** A call on an open descriptor. *)
Definition on_desc {A} (k : os) (fd : Z) (f : os -> desc -> os * rc A) : os * rc A :=
  match descs k !! fd with
  | None => (k, Err EBADF)
  | Some d => match answer k with (Some e, k1) => (k1, Err e) | (None, k1) => f k1 d end
  end.

Definition setsockopt (k : os) (fd : Z) (o : sockopt) (v : Z) : os * rc unit :=
  on_desc k fd (fun k d =>
    (set_descs (<[fd := mkdesc (flags d) (cloexec d) (set_options d ++ [(o, v)]) (counter d)]> (descs k)) k, Done tt)).

Definition fcntl_getfl (k : os) (fd : Z) : os * rc Z := on_desc k fd (fun k d => (k, Done (flags d))).

Definition fcntl_setfl (k : os) (fd fl : Z) : os * rc unit :=
  on_desc k fd (fun k d => (set_descs (<[fd := mkdesc fl (cloexec d) (set_options d) (counter d)]> (descs k)) k, Done tt)).

(** A [close] that fails leaves the descriptor open. *)
Definition close (k : os) (fd : Z) : os * rc unit :=
  on_desc (add_close k) fd (fun k _ => (set_descs (base.delete fd (descs k)) k, Done tt)).

Section Kernel.

(** How many descriptors the process may have. *)
Context (nofile : nat).

(** The lowest number that is free. *)
Definition lowest (m : gmap Z desc) : option Z :=
  snd <$> list_find (fun fd => m !! fd = None) (Z.of_nat <$> seq 0 nofile).

Definition new_desc (k : os) (d : desc) : os * rc Z :=
  match answer k with
  | (Some e, k) => (k, Err e)
  | (None, k) =>
      match lowest (descs k) with
      | None => (k, Err EMFILE)
      | Some fd => (set_descs (<[fd := d]> (descs k)) k, Done fd)
      end
  end.

Definition socket (k : os) (type_ : Z) : os * rc Z :=
  new_desc k (mkdesc 0 (negb (Z.land type_ SOCK_CLOEXEC =? 0)) [] None).

Definition eventfd (k : os) (initval : Z) : os * rc Z := new_desc k (mkdesc 0 false [] (Some initval)).

(** [write] and [read] of eight bytes at an eventfd: a full counter and an empty
    one block, or fail with [EAGAIN]. *)
Definition write_efd (k : os) (fd inc : Z) : result (os * rc unit) :=
  match descs k !! fd with
  | Some (mkdesc fl ce so (Some n)) =>
      match answer k with
      | (Some e, k) => Ok (k, Err e)
      | (None, k) =>
          if 2 ^ 64 - 1 <=? n + inc then if nonblocking (mkdesc fl ce so (Some n)) then Ok (k, Err EAGAIN) else Stop WouldBlock
          else Ok (set_descs (<[fd := mkdesc fl ce so (Some (n + inc))]> (descs k)) k, Done tt)
      end
  | Some _ => Ok (k, Err EINVAL)
  | None => Ok (k, Err EBADF)
  end.

Definition read_efd (k : os) (fd : Z) : result (os * rc Z) :=
  match descs k !! fd with
  | Some (mkdesc fl ce so (Some n)) =>
      match answer k with
      | (Some e, k) => Ok (k, Err e)
      | (None, k) =>
          if n =? 0 then if nonblocking (mkdesc fl ce so (Some n)) then Ok (k, Err EAGAIN) else Stop WouldBlock
          else Ok (set_descs (<[fd := mkdesc fl ce so (Some 0)]> (descs k)) k, Done n)
      end
  | Some _ => Ok (k, Err EINVAL)
  | None => Ok (k, Err EBADF)
  end.

(** What [poll] of one descriptor reports: nothing until the timeout, [POLLIN],
    or [POLLNVAL] for a descriptor that is not open; a negative one is ignored. *)
Inductive polled := PNone | PIn | PNval.

Definition poll (k : os) (fd timeout : Z) : result (os * rc polled) :=
  match answer k with
  | (Some e, k) => Ok (k, Err e)
  | (None, k) =>
      let idle := if timeout <? 0 then Stop WouldBlock else Ok (k, Done PNone) in
      if fd <? 0 then idle
      else match descs k !! fd with
           | None => Ok (k, Done PNval)
           | Some d => if 0 <? default 0 (counter d) then Ok (k, Done PIn) else idle
           end
  end.

(** [errno_assert (rc == 0)]. *)
Definition errno_assert {A} (x : os * rc A) : result os :=
  match x.2 with Done _ => Ok x.1 | Err _ => Stop AssertFailed end.

(** ** tcp.cpp *)

Definition tune_tcp_socket (k : os) (s_ : Z) : result os := errno_assert (setsockopt k s_ TCP_NODELAY 1).

Definition set_tcp_send_buffer (k : os) (sockfd_ bufsize_ : Z) : result os :=
  errno_assert (setsockopt k sockfd_ SO_SNDBUF bufsize_).

Definition set_tcp_receive_buffer (k : os) (sockfd_ bufsize_ : Z) : result os :=
  errno_assert (setsockopt k sockfd_ SO_RCVBUF bufsize_).

Definition tune_tcp_keepalives (k : os) (s_ keepalive_ keepalive_cnt_ keepalive_idle_ keepalive_intvl_ : Z) : result os :=
  if negb (keepalive_ =? -1) then
    k ← errno_assert (setsockopt k s_ SO_KEEPALIVE keepalive_);
    k ← (if negb (keepalive_cnt_ =? -1) then errno_assert (setsockopt k s_ TCP_KEEPCNT keepalive_cnt_) else Ok k);
    k ← (if negb (keepalive_idle_ =? -1) then errno_assert (setsockopt k s_ TCP_KEEPIDLE keepalive_idle_) else Ok k);
    if negb (keepalive_intvl_ =? -1) then errno_assert (setsockopt k s_ TCP_KEEPINTVL keepalive_intvl_) else Ok k
  else Ok k.

(** ** ip.cpp *)

(** The descriptor, or -1. *)
Definition open_socket (k : os) (type_ : Z) : os * Z :=
  let type_ := Z.lor type_ SOCK_CLOEXEC in
  match socket k type_ with
  | (k, Done s) => (k, s)
  | (k, Err _) => (k, -1)
  end.

Definition unblock_socket (k : os) (s_ : Z) : result os :=
  let '(k, fl) := fcntl_getfl k s_ in
  let fl := match fl with Done fl => fl | Err _ => 0 end in
  errno_assert (fcntl_setfl k s_ (Z.lor fl O_NONBLOCK)).

(** [getpeername] answers with the address of the peer, and [getnameinfo] with
    its text. *)
Definition get_peer_ip_address {A} (getpeername : rc A) (getnameinfo : A -> option string) : result (option string) :=
  match getpeername with
  | Err e => _ ← afs_assert (bool_decide (e ∉ [EBADF; EFAULT; EINVAL; ENOTSOCK])); Ok None
  | Done ss => Ok (getnameinfo ss)
  end.

(** ** signaler.cpp *)

Definition sleep_ms (k : os) (ms_ : Z) : os := if ms_ =? 0 then k else add_slept ms_ k.

Definition step_of (max_ms_ : Z) : Z :=
  let step_ms := max_ms_ / 10 in
  let step_ms := if step_ms <? 1 then 1 else step_ms in
  if 100 <? step_ms then 100 else step_ms.

Definition again (x : rc unit) : bool := match x with Err EAGAIN => true | _ => false end.

(** One turn of the loop per unit of fuel; [None] when the fuel is used up. *)
Fixpoint close_loop (fuel : nat) (k : os) (fd_ max_ms_ step_ms ms_so_far : Z) (x : rc unit) : option (os * rc unit) :=
  match fuel with
  | O => None
  | S fuel =>
      let '(k, ms_so_far) := if again x then (sleep_ms k step_ms, u32 (ms_so_far + step_ms)) else (k, ms_so_far) in
      let '(k, x) := close k fd_ in
      if (ms_so_far <? max_ms_) && again x then close_loop fuel k fd_ max_ms_ step_ms ms_so_far x
      else Some (k, x)
  end.

Definition close_wait_ms (k : os) (fd_ max_ms_ : Z) : option (os * rc unit) :=
  close_loop (Z.to_nat max_ms_ + 2) k fd_ max_ms_ (step_of max_ms_) 0 (Done tt).

Record signaler_t := mksignaler { r : Z; w : Z; pid : Z }.

(** The return value, and what is stored through [r_] and [w_]. *)
Definition make_fdpair (k : os) : result (os * Z * Z) :=
  match eventfd k 0 with
  | (k, Err e) => _ ← afs_assert (bool_decide (e ∈ [ENFILE; EMFILE])); Ok (k, -1, -1)
  | (k, Done fd) => Ok (k, 0, fd)
  end.

Definition new_signaler (k : os) : result (os * signaler_t) :=
  '(k, rc, fd) ← make_fdpair k;
  k ← (if rc =? 0 then k ← unblock_socket k fd; unblock_socket k fd else Ok k);
  Ok (k, mksignaler fd fd (process k)).

Definition delete_signaler (k : os) (s : signaler_t) : result os :=
  match close_wait_ms k (r s) 2000 with
  | Some x => errno_assert x
  | None => Stop WouldBlock
  end.

Definition send (k : os) (s : signaler_t) : result os :=
  if negb (pid s =? process k) then Ok k
  else x ← write_efd k (w s) 1; errno_assert x.

Definition wait (k : os) (s : signaler_t) (timeout_ : Z) : result (os * wait_rc) :=
  if negb (pid s =? process k) then Ok (k, Interrupted)
  else
    '(k, rc) ← poll k (r s) timeout_;
    match rc with
    | Err e => _ ← afs_assert (bool_decide (e = EINTR)); Ok (k, Interrupted)
    | Done PNone => Ok (k, TimedOut)
    | Done p =>
        if negb (pid s =? process k) then Ok (k, Interrupted)
        else _ ← afs_assert (match p with PIn => true | _ => false end); Ok (k, Ready)
    end.

Definition recv (k : os) (s : signaler_t) : result os :=
  '(k, rc) ← read_efd k (r s);
  match rc with
  | Err _ => Stop AssertFailed
  | Done dummy =>
      if dummy =? 2 then x ← write_efd k (w s) 1; errno_assert x
      else _ ← afs_assert (dummy =? 1); Ok k
  end.

(** The results of [close] and [make_fdpair] are not used. *)
Definition forked (k : os) (s : signaler_t) : result (os * signaler_t) :=
  let k := (close k (r s)).1 in
  let k := (close k (w s)).1 in
  '(k, _, fd) ← make_fdpair k;
  Ok (k, mksignaler fd fd (pid s)).

(** ** Closing takes bounded time *)

(** What a [close] leaves, told by its result. *)
Definition closed_or_kept (k k' : os) (fd : Z) (x : rc unit) : Prop :=
  descs k' = match x with Done _ => base.delete fd (descs k) | Err _ => descs k end.

Lemma close_once k fd k' x :
  close k fd = (k', x) -> closes k' = closes k + 1 /\ slept k' = slept k /\ closed_or_kept k k' fd x.
Proof.
  unfold close, on_desc, answer, closed_or_kept. cbn. destruct (descs k !! fd) as [d|]; [|by intros [= <- <-]].
  destruct (answers k) as [|[e|] l]; intros [= <- <-]; done.
Qed.

Lemma sleep_slept k ms : slept (sleep_ms k ms) = slept k + ms /\ closes (sleep_ms k ms) = closes k /\ descs (sleep_ms k ms) = descs k.
Proof. unfold sleep_ms. destruct (Z.eqb_spec ms 0); cbn; split_and!; lia || done. Qed.

(** After a try that failed with [EAGAIN]: [n] more sleeps reach the limit. *)
Lemma close_loop_bounds fd max step : forall n fuel k ms x,
  0 < step -> max + step <= 2 ^ 32 -> again x = true -> 0 <= ms < max -> max <= ms + step * Z.of_nat n -> (n <= fuel)%nat ->
  exists k' x', close_loop fuel k fd max step ms x = Some (k', x') /\
    closes k < closes k' <= closes k + Z.of_nat n /\ slept k' <= slept k + step * Z.of_nat n /\ closed_or_kept k k' fd x'.
Proof.
  induction n as [|n IH]; intros fuel k ms x Hs Hm Hx Hms Hn Hf; [lia|].
  destruct fuel as [|fuel]; [lia|]. cbn [close_loop]. rewrite Hx.
  destruct (sleep_slept k step) as (Hsl & Hcl & Hde).
  destruct (close (sleep_ms k step) fd) as [k1 x1] eqn:E. destruct (close_once _ _ _ _ E) as (Hc1 & Hs1 & Hk1).
  assert (Hu : u32 (ms + step) = ms + step) by (apply Z.mod_small; lia). rewrite Hu.
  destruct ((ms + step <? max) && again x1) eqn:Eg.
  - apply andb_prop in Eg as [Hlt%Z.ltb_lt Ha].
    destruct (IH fuel k1 (ms + step) x1) as (k' & x' & -> & Hc & Hsl' & Hk'); try lia; [done|].
    exists k', x'. split_and!; try lia; [done|]. unfold closed_or_kept in *. rewrite <- Hde.
    destruct x1; [done|]. by rewrite Hk1 in Hk'.
  - exists k1, x1. split_and!; try lia; [done|]. unfold closed_or_kept in *. by rewrite <- Hde.
Qed.

Lemma step_of_range max : 0 <= max -> 1 <= step_of max <= 100.
Proof. intros H. unfold step_of. destruct (Z.ltb_spec (max / 10) 1); [cbn; lia|]. destruct (Z.ltb_spec 100 (max / 10)); lia. Qed.

(** How many sleeps reach the limit. *)
Definition sleeps (max_ms_ : Z) : Z := (max_ms_ + step_of max_ms_ - 1) / step_of max_ms_.

Lemma sleeps_enough max : 0 <= max -> 0 <= sleeps max <= max /\ max <= step_of max * sleeps max.
Proof.
  intros H. pose proof (step_of_range max H) as Hr. unfold sleeps. set (st := step_of max) in *. clearbody st.
  pose proof (Z.div_mod (max + st - 1) st ltac:(lia)) as Hd. pose proof (Z.mod_pos_bound (max + st - 1) st ltac:(lia)) as Hb.
  set (q := (max + st - 1) / st) in *. clearbody q. nia.
Qed.

(** However the kernel answers, [close_wait_ms] ends: it calls [close] at most
    once more than it sleeps, and the sleeps add up to the limit rounded up to
    whole steps. *)
Lemma close_wait_bounded k fd max :
  0 <= max -> max + step_of max <= 2 ^ 32 ->
  exists k' x, close_wait_ms k fd max = Some (k', x) /\
    closes k < closes k' <= closes k + sleeps max + 1 /\ slept k' <= slept k + step_of max * sleeps max /\ closed_or_kept k k' fd x.
Proof.
  intros H0 Hm. pose proof (step_of_range max H0) as Hr. destruct (sleeps_enough max H0) as [Hq Hq'].
  unfold close_wait_ms. replace (Z.to_nat max + 2)%nat with (S (Z.to_nat max + 1)) by lia. cbn [close_loop again].
  destruct (close k fd) as [k1 x1] eqn:E. destruct (close_once _ _ _ _ E) as (Hc1 & Hs1 & Hk1).
  destruct ((0 <? max) && again x1) eqn:Eg.
  - apply andb_prop in Eg as [Hlt%Z.ltb_lt Ha].
    destruct (close_loop_bounds fd max (step_of max) (Z.to_nat (sleeps max)) (Z.to_nat max + 1) k1 0 x1)
      as (k' & x' & -> & Hc & Hsl' & Hk'); try lia; [done|].
    exists k', x'. split_and!; try lia; [done|]. unfold closed_or_kept in *.
    destruct x1; [done|]. by rewrite Hk1 in Hk'.
  - exists k1, x1. split_and!; try nia; done.
Qed.

(** As long as the kernel asks to try again, [m] more times. *)
Lemma close_loop_retries fd max step d : forall m fuel k ms x,
  descs k !! fd = Some d -> answers k = replicate m (Some EAGAIN) -> again x = true ->
  0 < step -> 0 <= ms -> ms + step * Z.of_nat m < max -> max + step <= 2 ^ 32 -> (m < fuel)%nat ->
  exists k', close_loop fuel k fd max step ms x = Some (k', Done tt) /\
    descs k' = base.delete fd (descs k) /\ slept k' = slept k + step * Z.of_nat (S m).
Proof.
  induction m as [|m IH]; intros fuel k ms x Hd Ha Hx Hs Hms Hm H32 Hf; (destruct fuel as [|fuel]; [lia|]);
    cbn [close_loop]; rewrite Hx; unfold sleep_ms; (destruct (Z.eqb_spec step 0); [lia|]);
    unfold close, on_desc, answer; cbn; rewrite Hd, Ha; cbn.
  - rewrite andb_false_r. eexists. split; [done|]. cbn. split; [done|lia].
  - assert (Hu : u32 (ms + step) = ms + step) by (apply Z.mod_small; lia). rewrite Hu.
    destruct (Z.ltb_spec (ms + step) max); [|lia]. cbn.
    edestruct (IH fuel) as (k' & -> & Hdd & Hsl); [| | | | | | | |exists k'; split; [done|]]; try done; try lia.
    rewrite Hdd, Hsl. cbn. split; [done|lia].
Qed.

(** Twenty tries that fail for now are made up for within two seconds. *)
Lemma delete_retries k s d m :
  descs k !! r s = Some d -> answers k = replicate m (Some EAGAIN) -> (m <= 20)%nat ->
  exists k', delete_signaler k s = Ok k' /\ descs k' = base.delete (r s) (descs k) /\ slept k' = slept k + 100 * Z.of_nat m.
Proof.
  intros Hd Ha Hm. unfold delete_signaler, close_wait_ms. change (step_of 2000) with 100.
  replace (Z.to_nat 2000 + 2)%nat with (S (Z.to_nat 2000 + 1)) by lia.
  assert (HF : (20 < Z.to_nat 2000 + 1)%nat) by lia. revert HF. generalize (Z.to_nat 2000 + 1)%nat. intros F HF.
  cbn [close_loop again].
  destruct m as [|m].
  - unfold close, on_desc, answer. cbn. rewrite Hd, Ha. cbn. eexists. split; [done|]. cbn. split; [done|lia].
  - unfold close at 1, on_desc, answer. cbn [descs add_close]. rewrite Hd. cbn [answers add_close]. rewrite Ha. cbn [replicate andb again Z.ltb].
    edestruct (close_loop_retries (r s) 2000 100 d m F) as (k' & -> & Hdd & Hsl);
      [| | | | | | | |exists k'; split; [done|]]; try done; try lia.
Qed.

(** ** The signaler is its counter *)

(** A signaler in the process that made it, whose descriptor holds [n]; [rest] are
    the other descriptors of the process. *)
Record alive (rest : gmap Z desc) (k : os) (s : signaler_t) (n : Z) : Prop := {
  alive_one : w s = r s;
  alive_fd : 0 <= r s;
  alive_pid : pid s = process k;
  alive_desc : exists d, nonblocking d = true /\ counter d = Some n /\ descs k = <[r s := d]> rest;
  alive_rest : rest !! r s = None;
  alive_quiet : answers k = []
}.

Lemma lowest_free m fd : lowest m = Some fd -> m !! fd = None /\ 0 <= fd.
Proof.
  unfold lowest. destruct (list_find _ _) as [[i x]|] eqn:E; [|done]. intros [= <-].
  apply list_find_Some in E as (Hi & Hn & _). split; [done|]. cbn.
  apply list_elem_of_lookup_2, list_elem_of_fmap in Hi as (y & -> & _). lia.
Qed.

Lemma unblock_ok k fd fl ce so c :
  descs k !! fd = Some (mkdesc fl ce so c) -> answers k = [] ->
  unblock_socket k fd = Ok (set_descs (<[fd := mkdesc (Z.lor fl O_NONBLOCK) ce so c]> (descs k)) k).
Proof.
  intros Hd Ha. unfold unblock_socket, fcntl_getfl, fcntl_setfl, on_desc, answer. rewrite Hd, Ha. cbn. by rewrite Hd, Ha.
Qed.

Lemma new_signaler_alive k fd :
  answers k = [] -> lowest (descs k) = Some fd ->
  exists k0, new_signaler k = Ok (k0, mksignaler fd fd (process k)) /\ alive (descs k) k0 (mksignaler fd fd (process k)) 0 /\ slept k0 = slept k.
Proof.
  intros Ha Hl. pose proof (lowest_free _ _ Hl) as [Hf H0].
  unfold new_signaler, make_fdpair, eventfd, new_desc, answer. rewrite Ha, Hl. cbn [mbind result_bind Z.eqb].
  erewrite unblock_ok; [|apply lookup_insert_eq|done]. cbn [mbind result_bind].
  erewrite unblock_ok; [|apply lookup_insert_eq|done]. cbn.
  eexists. split; [done|]. split; [|done]. split; try done. cbn. rewrite !insert_insert_eq. eexists. split_and!; [| |done]; done.
Qed.

(** The operations one after the other, the kernel interrupting the waits that
    [intr] says. *)
Inductive sig_op := Send | Recv | Wait (timeout_ : Z) (intr : bool).

Definition run_op (k : os) (s : signaler_t) (o : sig_op) : result (os * list wait_rc) :=
  match o with
  | Send => k ← send k s; Ok (k, [])
  | Recv => k ← recv k s; Ok (k, [])
  | Wait t intr => '(k, rc) ← wait (set_answers (if intr then [Some EINTR] else []) k) s t; Ok (k, [rc])
  end.

Definition count_op (n : Z) (o : sig_op) : result (Z * list wait_rc) :=
  match o with
  | Send => Ok (signaler_send n, [])
  | Recv => n ← signaler_recv n; Ok (n, [])
  | Wait t intr => rc ← signaler_wait n t intr; Ok (n, [rc])
  end.

Fixpoint run_ops (k : os) (s : signaler_t) (os_ : list sig_op) : result (os * list wait_rc) :=
  match os_ with [] => Ok (k, []) | o :: os_ => '(k, l) ← run_op k s o; '(k, l') ← run_ops k s os_; Ok (k, l ++ l') end.

Fixpoint count_ops (n : Z) (os_ : list sig_op) : result (Z * list wait_rc) :=
  match os_ with [] => Ok (n, []) | o :: os_ => '(n, l) ← count_op n o; '(n, l') ← count_ops n os_; Ok (n, l ++ l') end.

(** What the descriptor and the counter must agree on. *)
Definition agree (rest : gmap Z desc) (s : signaler_t) (t : Z) (x : result (os * list wait_rc)) (y : result (Z * list wait_rc)) : Prop :=
  match y with
  | Stop e => x = Stop e
  | Ok (n, l) => exists k, x = Ok (k, l) /\ alive rest k s n /\ slept k = t
  end.

Lemma write_alive rest k s n :
  alive rest k s n -> n + 1 < 2 ^ 64 - 1 ->
  exists k', write_efd k (w s) 1 = Ok (k', Done tt) /\ alive rest k' s (n + 1) /\ slept k' = slept k.
Proof.
  intros [Hw H0 Hp ([fl ce so c] & Hnb & [= ->] & Hd) Hr Ha] Hn. unfold write_efd, answer. rewrite Hw, Hd, lookup_insert_eq, Ha.
  destruct (Z.leb_spec (2 ^ 64 - 1) (n + 1)); [lia|]. eexists. split; [done|]. split; [|done].
  split; try done. cbn. rewrite Hd, insert_insert_eq. eexists. by split_and!; [| |done].
Qed.

Lemma read_alive rest k s n :
  alive rest k s n ->
  exists k', read_efd k (r s) = Ok (k', if n =? 0 then Err EAGAIN else Done n) /\ alive rest k' s 0 /\ slept k' = slept k.
Proof.
  intros [Hw H0 Hp ([fl ce so c] & Hnb & [= ->] & Hd) Hr Ha]. unfold read_efd, answer. rewrite Hd, lookup_insert_eq, Ha.
  destruct (Z.eqb_spec n 0) as [->|].
  - rewrite Hnb. eexists. split; [done|]. split; [|done]. split; try done. eexists. by split_and!; [| |done].
  - eexists. split; [done|]. split; [|done]. split; try done. cbn. rewrite Hd, insert_insert_eq. eexists. by split_and!; [| |done].
Qed.

Lemma wait_agrees rest k s n t intr :
  alive rest k s n -> agree rest s (slept k) (run_op k s (Wait t intr)) (count_op n (Wait t intr)).
Proof.
  intros [Hw H0 Hp ([fl ce so c] & Hnb & [= ->] & Hd) Hr Ha]. unfold run_op, wait, poll, answer, count_op, signaler_wait. cbn [process set_answers].
  rewrite Hp, Z.eqb_refl. cbn [negb]. assert (Hrefl : alive rest (set_answers [] k) s n).
  { split; try done. eexists. by split_and!; [| |done]. }
  destruct intr; cbn [answers set_answers mbind result_bind].
  - exists (set_answers [] k). done.
  - destruct (Z.ltb_spec (r s) 0); [lia|]. cbn [descs set_answers]. rewrite Hd, lookup_insert_eq. cbn [counter default from_option id].
    destruct (0 <? n); cbn [mbind result_bind process set_answers]; [rewrite ?Hp, Z.eqb_refl; by exists (set_answers [] k)|].
    destruct (t <? 0); [done|]. by exists (set_answers [] k).
Qed.

Lemma op_agrees rest k s n o :
  alive rest k s n -> n + 1 < 2 ^ 64 - 1 -> agree rest s (slept k) (run_op k s o) (count_op n o).
Proof.
  intros Hs Hn. destruct o as [| |t intr]; [| |by apply wait_agrees].
  - destruct (write_alive _ _ _ _ Hs Hn) as (k' & E & Hs' & Hsl). unfold run_op, send.
    rewrite (alive_pid _ _ _ _ Hs), Z.eqb_refl. cbn [negb]. rewrite E. cbn. by exists k'.
  - destruct (read_alive _ _ _ _ Hs) as (k' & E & Hs' & Hsl). unfold run_op, recv. rewrite E. cbn [mbind result_bind].
    unfold count_op, signaler_recv, signaler_take. destruct (n =? 0); [done|]. cbn [negb afs_assert mbind result_bind].
    destruct (n =? 2).
    + destruct (write_alive _ _ _ _ Hs' ltac:(lia)) as (k2 & -> & Hs2 & Hsl2). cbn. exists k2. split_and!; [done..|congruence].
    + destruct (n =? 1); [|done]. cbn. by exists k'.
Qed.

Lemma count_op_grows n o m l : 0 <= n -> count_op n o = Ok (m, l) -> 0 <= m <= n + 1.
Proof.
  intros Hn. destruct o as [| |t intr]; cbn.
  - intros [= <- _]. unfold signaler_send. lia.
  - unfold signaler_recv, signaler_take. destruct (n =? 0); [done|]. cbn. destruct (n =? 2); [intros [= <- _]; unfold signaler_send; lia|].
    destruct (n =? 1); [|done]. cbn. intros [= <- _]. lia.
  - destruct (signaler_wait n t intr); [|done]. cbn. intros [= <- _]. lia.
Qed.

Lemma ops_agree rest s t ops : forall k n,
  alive rest k s n -> slept k = t -> 0 <= n -> n + Z.of_nat (length ops) < 2 ^ 64 - 1 -> agree rest s t (run_ops k s ops) (count_ops n ops).
Proof.
  induction ops as [|o ops IH]; intros k n Hs Ht H0 Hn; cbn [run_ops count_ops length] in *; [by exists k|].
  pose proof (op_agrees _ _ _ _ o Hs ltac:(lia)) as Ho. destruct (count_op n o) as [[m l]|e] eqn:E; cbn [agree] in Ho; cbn [mbind result_bind].
  - destruct Ho as (k1 & -> & Hs1 & Hsl). cbn [mbind result_bind]. apply count_op_grows in E; [|done].
    specialize (IH k1 m Hs1 ltac:(congruence) ltac:(lia) ltac:(lia)).
    destruct (count_ops m ops) as [[m2 l2]|e]; cbn [agree mbind result_bind] in *; [|by rewrite IH].
    destruct IH as (k2 & -> & Hs2). by exists k2.
  - by rewrite Ho.
Qed.

(** C16 A signaler is the counter of its eventfd: made in a process that has a
    descriptor left, it does on its descriptor, for every sequence of sends,
    receives and waits, what the counter does, failures included, touches no
    other descriptor, and its destructor closes the descriptor within two
    seconds even when the kernel asks twenty times to try again. *)
Theorem signaler_is_counter k fd ops :
  answers k = [] -> lowest (descs k) = Some fd -> Z.of_nat (length ops) < 2 ^ 64 - 1 ->
  exists k0 s, new_signaler k = Ok (k0, s) /\ r s = fd /\
    match count_ops 0 ops with
    | Stop e => run_ops k0 s ops = Stop e
    | Ok (n, l) => exists k1, run_ops k0 s ops = Ok (k1, l) /\ base.delete fd (descs k1) = descs k /\
        (exists d, descs k1 !! fd = Some d /\ nonblocking d = true /\ counter d = Some n) /\
        forall m, (m <= 20)%nat -> exists k2, delete_signaler (set_answers (replicate m (Some EAGAIN)) k1) s = Ok k2 /\
          descs k2 = descs k /\ slept k2 = slept k + 100 * Z.of_nat m
    end.
Proof.
  intros Ha Hl Hn. destruct (new_signaler_alive _ _ Ha Hl) as (k0 & E & Hs & Hsl). eexists k0, _. split; [done|]. split; [done|].
  pose proof (ops_agree _ _ _ ops _ _ Hs Hsl ltac:(lia) ltac:(lia)) as Ho. destruct (count_ops 0 ops) as [[n l]|e]; [|done].
  destruct Ho as (k1 & -> & [_ _ _ (d & Hnb & Hc & Hd) Hr _] & Hsl1). cbn [r] in *.
  exists k1. split_and!; [done | by rewrite Hd, delete_insert_id | exists d; by rewrite Hd, lookup_insert_eq |].
  intros m Hm. destruct (delete_retries (set_answers (replicate m (Some EAGAIN)) k1) (mksignaler fd fd (process k)) d m) as (k2 & -> & Hd2 & Hs2);
    [cbn; by rewrite Hd, lookup_insert_eq | done | done |].
  exists k2. cbn in *. split_and!; [done | by rewrite Hd2, Hd, delete_insert_id | congruence].
Qed.

(** ** Where no descriptor is left, and after a fork *)

(** The constructor does not report that it has no descriptor; the first send and
    the destructor stop the process. *)
Lemma signaler_without_descriptor k :
  answers k = [] -> lowest (descs k) = None -> descs k !! (-1) = None ->
  exists s, new_signaler k = Ok (k, s) /\ send k s = Stop AssertFailed /\ delete_signaler k s = Stop AssertFailed.
Proof.
  intros Ha Hl Hn. exists (mksignaler (-1) (-1) (process k)).
  unfold new_signaler, make_fdpair, eventfd, new_desc, answer. rewrite Ha, Hl. split; [done|].
  unfold send, write_efd. cbn [pid w]. rewrite Z.eqb_refl, Hn. split; [done|].
  unfold delete_signaler, close_wait_ms. replace (Z.to_nat 2000 + 2)%nat with (S (Z.to_nat 2000 + 1)) by lia.
  cbn [close_loop again r]. unfold close at 1, on_desc. cbn [descs add_close]. rewrite Hn. done.
Qed.

Lemma close_open k fd d :
  descs k !! fd = Some d -> answers k = [] -> close k fd = (set_descs (base.delete fd (descs k)) (add_close k), Done tt).
Proof. intros Hd Ha. unfold close, on_desc, answer. cbn. by rewrite Hd, Ha. Qed.

Lemma close_shut k fd : descs k !! fd = None -> close k fd = (add_close k, Err EBADF).
Proof. intros Hd. unfold close, on_desc. cbn. by rewrite Hd. Qed.

(** After [forked] in the child: the one descriptor was closed twice, the new one
    blocks, and, the process id being the parent's still, sends do nothing and
    waits return at once. *)
Lemma forked_is_deaf rest k s n c fd t :
  alive rest k s n -> c <> process k -> lowest rest = Some fd ->
  exists k' s', forked (mkos (descs k) c (answers k) (slept k) (closes k)) s = Ok (k', s') /\ closes k' = closes k + 2 /\
    (exists d, descs k' !! r s' = Some d /\ nonblocking d = false) /\
    send k' s' = Ok k' /\ wait k' s' t = Ok (k', Interrupted).
Proof.
  intros [Hw _ Hp (d & _ & _ & Hd) Hr Ha] Hc Hl. unfold forked.
  assert (Hdk : descs k !! r s = Some d) by (by rewrite Hd, lookup_insert_eq).
  rewrite (close_open _ (r s) d) by done. cbn [fst]; rewrite Hw.
  rewrite close_shut by (cbn; apply lookup_delete_eq). cbn [fst].
  unfold make_fdpair, eventfd, new_desc, answer. cbn [answers add_close set_descs descs]. rewrite Ha.
  cbn [descs add_close set_descs]. rewrite Hd, delete_insert_id, Hl by done. cbn [mbind result_bind].
  eexists _, _. split; [done|]. cbn [closes set_descs add_close r pid descs]. split; [lia|].
  split; [eexists; split; [apply lookup_insert_eq|done]|].
  unfold send, wait. cbn [pid process set_descs add_close]. destruct (Z.eqb_spec (pid s) c); [congruence|]. done.
Qed.

(** ** What is set on a socket *)

(** What the options of the program ask for; -1 leaves a value to the system. *)
Definition keepalive_options (keepalive_ cnt idle intvl : Z) : list (sockopt * Z) :=
  if keepalive_ =? -1 then []
  else (SO_KEEPALIVE, keepalive_) ::
    filter (fun o => o.2 <> -1) [(TCP_KEEPCNT, cnt); (TCP_KEEPIDLE, idle); (TCP_KEEPINTVL, intvl)].

Definition has_options (k : os) (fd : Z) (d : desc) (l : list (sockopt * Z)) : os :=
  set_descs (<[fd := mkdesc (flags d) (cloexec d) (set_options d ++ l) (counter d)]> (descs k)) k.

Lemma setsockopt_ok k fd d l o v :
  answers k = [] ->
  errno_assert (setsockopt (has_options k fd d l) fd o v) = Ok (has_options k fd d (l ++ [(o, v)])).
Proof.
  intros Ha. unfold setsockopt, on_desc, answer, has_options. cbn. rewrite lookup_insert_eq, Ha. cbn.
  by rewrite insert_insert_eq, <- app_assoc.
Qed.

Lemma has_no_options k fd d : descs k !! fd = Some d -> has_options k fd d [] = k.
Proof. intros Hd. unfold has_options. rewrite app_nil_r, insert_id; [by destruct k | by rewrite Hd; destruct d]. Qed.

(** What the listener and the connecter do with a connection: Nagle's algorithm is
    off, and the keep-alive options are set that are not -1, none of them when
    the first is -1. *)
Lemma tuned_connection k fd d ka cnt idle intvl :
  answers k = [] -> descs k !! fd = Some d ->
  (k ← tune_tcp_socket k fd; tune_tcp_keepalives k fd ka cnt idle intvl) =
  Ok (has_options k fd d ((TCP_NODELAY, 1) :: keepalive_options ka cnt idle intvl)).
Proof.
  intros Ha Hd. rewrite <- (has_no_options k fd d Hd) at 1. unfold tune_tcp_socket. rewrite setsockopt_ok by done.
  cbn [mbind result_bind app]. unfold tune_tcp_keepalives, keepalive_options. destruct (Z.eqb_spec ka (-1)); [done|]. cbn [negb].
  rewrite setsockopt_ok by done. cbn [mbind result_bind app].
  rewrite !filter_cons, filter_nil. cbn [snd].
  destruct (Z.eqb_spec cnt (-1)), (Z.eqb_spec idle (-1)), (Z.eqb_spec intvl (-1));
    repeat first [case_decide; [|done] | case_decide; [done|]]; cbn [negb mbind result_bind];
    repeat (rewrite setsockopt_ok by done; cbn [mbind result_bind app]); done.
Qed.

(** A socket that was opened is closed by [exec] and, unblocked, does not block. *)
Lemma opened_socket k type_ fd :
  answers k = [] -> lowest (descs k) = Some fd ->
  exists k1 k2 d, open_socket k type_ = (k1, fd) /\ unblock_socket k1 fd = Ok k2 /\
    descs k2 = <[fd := d]> (descs k) /\ cloexec d = true /\ nonblocking d = true.
Proof.
  intros Ha Hl. unfold open_socket, socket, new_desc, answer. rewrite Ha, Hl. eexists _, _, _. split; [done|].
  split; [apply unblock_ok; [apply lookup_insert_eq|done]|]. cbn. rewrite insert_insert_eq. split; [done|]. split; [|done]. cbn.
  rewrite Z.land_lor_distr_l. change (Z.land SOCK_CLOEXEC SOCK_CLOEXEC) with SOCK_CLOEXEC.
  destruct (Z.eqb_spec (Z.lor (Z.land type_ SOCK_CLOEXEC) SOCK_CLOEXEC) 0) as [E|]; [|done].
  apply Z.lor_eq_0_iff in E as [_ E]. done.
Qed.

End Kernel.

(** ** A run *)

(** A process with its three standard descriptors. *)
Definition sample_os : os :=
  mkos (list_to_map [(0, mkdesc 0 false [] None); (1, mkdesc 0 false [] None); (2, mkdesc 0 false [] None)]) 42 [] 0 0.

Definition sample_ops : list sig_op := [Send; Send; Wait (-1) false; Recv; Wait 10 true; Recv; Wait 10 false].

Lemma signaler_is_counter_witness :
  count_ops 0 sample_ops = Ok (0, [Ready; Interrupted; TimedOut]) /\
  exists k0 s, new_signaler 1024 sample_os = Ok (k0, s) /\ r s = 3 /\
    exists k1, run_ops k0 s sample_ops = Ok (k1, [Ready; Interrupted; TimedOut]).
Proof.
  split; [vm_compute; exact eq_refl|].
  destruct (signaler_is_counter 1024 sample_os 3 sample_ops eq_refl ltac:(vm_compute; exact eq_refl) ltac:(cbn; lia)) as (k0 & s & E & Hr & H).
  assert (Ec : count_ops 0 sample_ops = Ok (0, [Ready; Interrupted; TimedOut])) by (vm_compute; exact eq_refl).
  rewrite Ec in H. destruct H as (k1 & E1 & _). exists k0, s. split; [exact E|]. split; [exact Hr|]. exists k1. exact E1.
Defined.

End SocketOps.
