(* ===== verification/BackupItem.v ===== *)
(** The packed structures the fault-tolerance code sends and keeps:
    [BackupInfo], [BackupMeta], [BackupData] and [BackupItem]
    (src/fault_tolerance/backup_item.hpp), [CopyBackupItem]
    (src/fault_tolerance/backup_server.cpp) and [RecoveryItem]
    (src/fault_tolerance/recovery_item.hpp), with their memory layout on a
    little-endian machine. *)
From stdpp Require Import base numbers list.
From Stdlib Require Import ZArith Lia.
From S2P Require Import Prelude.

Module Item.

(** [#define MAX_BACKUP_ITEM_DATA_LEN 256] (src/params.hpp). *)
Definition MAX_BACKUP_ITEM_DATA_LEN : Z := 256.

Record BackupInfo := mkBackupInfo {
  backup_op : Z;   (* uint32_t; 0: write, 1: read len, 2: read data *)
  worker_id : Z;   (* uint32_t *)
  thread_id : Z;   (* uint16_t *)
  op_index : Z;    (* uint16_t *)
  seq : Z          (* uint64_t *)
}.

Record BackupMeta := mkBackupMeta {
  len : Z;         (* uint32_t *)
  key : Z          (* uint64_t *)
}.

Record BackupData := mkBackupData {
  meta : BackupMeta;
  data : list Z    (* unsigned char[MAX_BACKUP_ITEM_DATA_LEN] *)
}.

Record BackupItem := mkBackupItem {
  info : BackupInfo;
  bdata : BackupData
}.

(** [sizeof] of the packed structures. *)
Definition sizeof_BackupInfo : Z := 20.
Definition sizeof_BackupMeta : Z := 12.
Definition sizeof_BackupItem : Z := sizeof_BackupInfo + sizeof_BackupMeta + MAX_BACKUP_ITEM_DATA_LEN.

(** [BackupItem::size]. *)
Definition size (it : BackupItem) : Z :=
  u32 (sizeof_BackupInfo + sizeof_BackupMeta + len (meta (bdata it))).

(** The bytes of the object in memory. *)
Definition info_bytes (i : BackupInfo) : list Z :=
  le_bytes 4 (backup_op i) ++ le_bytes 4 (worker_id i) ++ le_bytes 2 (thread_id i) ++
  le_bytes 2 (op_index i) ++ le_bytes 8 (seq i).

Definition meta_bytes (m : BackupMeta) : list Z :=
  le_bytes 4 (len m) ++ le_bytes 8 (key m).

Definition item_bytes (it : BackupItem) : list Z :=
  info_bytes (info it) ++ meta_bytes (meta (bdata it)) ++ data (bdata it).

(** A [BackupItem*] to these bytes. *)
Definition item_at (buf : list Z) : BackupItem :=
  let '(op, buf) := get_uint 4 buf in
  let '(wid, buf) := get_uint 4 buf in
  let '(tid, buf) := get_uint 2 buf in
  let '(idx, buf) := get_uint 2 buf in
  let '(sq, buf) := get_uint 8 buf in
  let '(ln, buf) := get_uint 4 buf in
  let '(ky, buf) := get_uint 8 buf in
  {| info := {| backup_op := op; worker_id := wid; thread_id := tid; op_index := idx; seq := sq |};
     bdata := {| meta := {| len := ln; key := ky |}; data := buf |} |}.

(** [zmq_send (socket, &item, item.size (), 0)]: the message. *)
Definition item_message (it : BackupItem) : result (list Z) :=
  mem_read (item_bytes it) 0 (size it).

(** [zmq_recv (socket, &item, sizeof (BackupItem), 0)]: the message, cut at the
    size of the object, replaces its first bytes. *)
Definition item_receive (old : BackupItem) (msg : list Z) : BackupItem :=
  let m := take (Z.to_nat sizeof_BackupItem) msg in
  item_at (m ++ drop (length m) (item_bytes old)).

(** [memcpy (dst.data.data, src.data.data, src.data.meta.len)] and the copies of
    the other two parts. *)
Definition CopyBackupItem (dst src : BackupItem) : result BackupItem :=
  d ← mem_read (data (bdata src)) 0 (len (meta (bdata src)));
  d' ← mem_write (data (bdata dst)) 0 d;
  Ok {| info := info src; bdata := {| meta := meta (bdata src); data := d' |} |}.

(** The object holds values of its C types. *)
Record item_wf (it : BackupItem) : Prop := {
  wf_op : in_unsigned 32 (backup_op (info it));
  wf_wid : in_unsigned 32 (worker_id (info it));
  wf_tid : in_unsigned 16 (thread_id (info it));
  wf_idx : in_unsigned 16 (op_index (info it));
  wf_seq : in_unsigned 64 (seq (info it));
  wf_len : 0 <= len (meta (bdata it)) <= MAX_BACKUP_ITEM_DATA_LEN;
  wf_key : in_unsigned 64 (key (meta (bdata it)));
  wf_data : Z.of_nat (length (data (bdata it))) = MAX_BACKUP_ITEM_DATA_LEN
}.

(** The part of the data that means something. *)
Definition payload (it : BackupItem) : list Z :=
  take (Z.to_nat (len (meta (bdata it)))) (data (bdata it)).

(** Two objects that agree on everything but the bytes after the payload. *)
Definition same_item (a b : BackupItem) : Prop :=
  info a = info b /\ meta (bdata a) = meta (bdata b) /\ payload a = payload b.

#[global] Instance same_item_equiv : Equivalence same_item.
Proof.
  split; unfold same_item.
  - intros a. done.
  - intros a b (? & ? & ?). done.
  - intros a b c (H1 & H2 & H3) (H4 & H5 & H6). split_and!; congruence.
Qed.

(** The payload only depends on the class of the object. *)
#[global] Instance payload_proper : Proper (same_item ==> eq) payload.
Proof. by intros a b (_ & _ & H). Qed.

Lemma length_info_bytes i : length (info_bytes i) = 20%nat.
Proof. unfold info_bytes. rewrite !length_app, !length_le_bytes. done. Qed.

Lemma length_meta_bytes m : length (meta_bytes m) = 12%nat.
Proof. unfold meta_bytes. rewrite !length_app, !length_le_bytes. done. Qed.

#[export] Hint Rewrite length_info_bytes length_meta_bytes : afs_len.

Lemma length_item_bytes it :
  item_wf it -> Z.of_nat (length (item_bytes it)) = sizeof_BackupItem.
Proof.
  intros Hwf. unfold item_bytes. autorewrite with afs_len. destruct Hwf.
  unfold sizeof_BackupItem, sizeof_BackupInfo, sizeof_BackupMeta in *. lia.
Qed.

(** Reading the parts back, whatever follows them. *)
Lemma item_at_parts i m r :
  in_unsigned 32 (backup_op i) -> in_unsigned 32 (worker_id i) -> in_unsigned 16 (thread_id i) ->
  in_unsigned 16 (op_index i) -> in_unsigned 64 (seq i) -> in_unsigned 32 (len m) -> in_unsigned 64 (key m) ->
  item_at (info_bytes i ++ meta_bytes m ++ r) = {| info := i; bdata := {| meta := m; data := r |} |}.
Proof.
  intros. unfold item_at, info_bytes, meta_bytes. rewrite <- !app_assoc.
  repeat (rewrite get_uint_app by done; cbn beta iota). by destruct i, m.
Qed.

Lemma wf_len_u32 it : item_wf it -> in_unsigned 32 (len (meta (bdata it))).
Proof. intros []. unfold MAX_BACKUP_ITEM_DATA_LEN in *. unfold in_unsigned. lia. Qed.

Lemma item_at_bytes it r :
  item_wf it ->
  item_at (info_bytes (info it) ++ meta_bytes (meta (bdata it)) ++ r)
    = {| info := info it; bdata := {| meta := meta (bdata it); data := r |} |}.
Proof. intros Hwf. pose proof (wf_len_u32 it Hwf). destruct Hwf. by apply item_at_parts. Qed.

Lemma size_wf it : item_wf it -> size it = 32 + len (meta (bdata it)).
Proof.
  intros []. unfold size, sizeof_BackupInfo, sizeof_BackupMeta. apply unsigned_of_small.
  unfold in_unsigned, MAX_BACKUP_ITEM_DATA_LEN in *. lia.
Qed.

(** The message of a well-formed object is its header and its payload. *)
Lemma item_message_wf it :
  item_wf it ->
  item_message it = Ok (info_bytes (info it) ++ meta_bytes (meta (bdata it)) ++ payload it).
Proof.
  intros Hwf. unfold item_message. pose proof (length_item_bytes it Hwf) as Hlen.
  rewrite (size_wf it Hwf). pose proof Hwf as [].
  unfold sizeof_BackupItem, sizeof_BackupInfo, sizeof_BackupMeta in Hlen.
  rewrite mem_read_ok by lia. change (Z.to_nat 0) with 0%nat. rewrite drop_0. unfold item_bytes, payload.
  rewrite !take_app_ge by (autorewrite with afs_len; lia). autorewrite with afs_len.
  by replace (Z.to_nat (32 + len (meta (bdata it))) - 20 - 12)%nat
    with (Z.to_nat (len (meta (bdata it)))) by lia.
Qed.

(** Sending an object and receiving it into another one copies everything but
    the bytes after the payload, which stay. *)
Lemma item_receive_message old it msg :
  item_wf it -> item_message it = Ok msg ->
  item_receive old msg =
    {| info := info it;
       bdata := {| meta := meta (bdata it);
                   data := payload it ++ drop (length (payload it)) (data (bdata old)) |} |}.
Proof.
  intros Hwf Hmsg. rewrite (item_message_wf it Hwf) in Hmsg. apply (inj Ok) in Hmsg as <-.
  assert (Hp : length (payload it) = Z.to_nat (len (meta (bdata it)))).
  { unfold payload. rewrite length_take. destruct Hwf. lia. }
  unfold item_receive. cbv zeta. rewrite take_ge.
  - rewrite <- !app_assoc, <- (item_at_bytes it) by done. do 3 f_equal.
  - rewrite !length_app, length_info_bytes, length_meta_bytes, Hp. destruct Hwf.
    unfold sizeof_BackupItem, sizeof_BackupInfo, sizeof_BackupMeta. lia.
Qed.

Lemma length_payload it : item_wf it -> Z.of_nat (length (payload it)) = len (meta (bdata it)).
Proof. intros []. unfold payload. rewrite length_take. lia. Qed.

(** What a receiver with room for the data then holds. *)
Lemma item_receive_same old it msg :
  Z.of_nat (length (data (bdata old))) = MAX_BACKUP_ITEM_DATA_LEN ->
  item_wf it -> item_message it = Ok msg ->
  same_item (item_receive old msg) it /\ item_wf (item_receive old msg).
Proof.
  intros Hold Hwf Hmsg. rewrite (item_receive_message old it msg Hwf Hmsg).
  pose proof (length_payload it Hwf) as Hp. destruct Hwf. split.
  - split_and!; try done. unfold payload at 1. cbn [bdata meta data len].
    apply take_app_length'. lia.
  - split; cbn [info bdata meta data]; try done. rewrite length_app, length_drop. lia.
Qed.

(** [CopyBackupItem] between well-formed objects cannot leave them and copies
    the class of the source. *)
Lemma CopyBackupItem_wf dst src :
  Z.of_nat (length (data (bdata dst))) = MAX_BACKUP_ITEM_DATA_LEN -> item_wf src ->
  exists it, CopyBackupItem dst src = Ok it /\ same_item it src /\ item_wf it.
Proof.
  intros Hd Hwf. pose proof Hwf as []. unfold CopyBackupItem.
  rewrite mem_read_ok by lia. change (Z.to_nat 0) with 0%nat. rewrite drop_0. cbn [mbind result_bind].
  assert (Hp : length (take (Z.to_nat (len (meta (bdata src)))) (data (bdata src)))
               = Z.to_nat (len (meta (bdata src)))) by (rewrite length_take; lia).
  rewrite mem_write_ok by lia. cbn [mbind result_bind]. change (Z.to_nat 0) with 0%nat. rewrite take_0, app_nil_l, Hp.
  eexists. split; [done|]. split.
  - split_and!; simpl; try done. unfold payload at 1. simpl. by rewrite take_app_length' by (by rewrite Hp).
  - split; simpl; try done. rewrite length_app, Hp, length_drop. lia.
Qed.

(** ** Recovery items *)

Record RecoveryItem := mkRecoveryItem {
  raw : list Z;
  count : Z
}.

(** [RecoveryItem::size] for a count. *)
Definition recovery_size (c : Z) : Z := u32 (4 + sizeof_BackupItem * c).

(** The constructor; [malloc] stands for the fresh memory. *)
Definition new_RecoveryItem (malloc : nat -> list Z) (c : Z) : result RecoveryItem :=
  r ← mem_write (malloc (Z.to_nat (recovery_size c))) 0 (le_bytes 4 c);
  Ok {| raw := r; count := c |}.

Definition slot_offset (i : Z) : Z := 4 + sizeof_BackupItem * i.

(** The object [GetSlot (i)] points to. *)
Definition GetSlot (r : RecoveryItem) (i : Z) : result BackupItem :=
  b ← mem_read (raw r) (slot_offset i) sizeof_BackupItem;
  Ok (item_at b).

Definition GetCount (r : RecoveryItem) : result Z :=
  b ← mem_read (raw r) 0 4;
  Ok (le_val b).

(** [CopyBackupItem ( *ret->GetSlot (i), src)]. *)
Definition copy_to_slot (r : RecoveryItem) (i : Z) (src : BackupItem) : result RecoveryItem :=
  dst ← GetSlot r i;
  it ← CopyBackupItem dst src;
  raw' ← mem_write (raw r) (slot_offset i) (item_bytes it);
  Ok {| raw := raw'; count := count r |}.

(** The memory is the count and one block per slot. *)
Definition recovery_blocks (r : RecoveryItem) (bs : list (list Z)) : Prop :=
  raw r = le_bytes 4 (count r) ++ concat bs /\ Forall (fun b => length b = 288%nat) bs /\
  Z.of_nat (length bs) = count r.

Lemma new_RecoveryItem_blocks malloc c :
  (forall n, length (malloc n) = n) -> 0 <= c -> sizeof_BackupItem * c + 4 < 2 ^ 32 ->
  exists r bs, new_RecoveryItem malloc c = Ok r /\ count r = c /\ recovery_blocks r bs.
Proof.
  intros Hm Hc Hsz. unfold new_RecoveryItem, recovery_size.
  unfold sizeof_BackupItem, sizeof_BackupInfo, sizeof_BackupMeta, MAX_BACKUP_ITEM_DATA_LEN in *.
  rewrite unsigned_of_small by (unfold in_unsigned; lia).
  set (n := Z.to_nat (4 + (20 + 12 + 256) * c)).
  rewrite mem_write_ok; [|lia|rewrite length_le_bytes, Hm; lia].
  change (Z.to_nat 0) with 0%nat. rewrite take_0, app_nil_l, length_le_bytes. cbn [mbind result_bind].
  set (tail := drop (0 + 4) (malloc n)).
  assert (Ht : length tail = (Z.to_nat c * 288)%nat) by (unfold tail; rewrite length_drop, Hm; lia).
  clearbody tail.
  assert (exists bs, tail = concat bs /\ Forall (fun b => length b = 288%nat) bs /\ length bs = Z.to_nat c)
    as (bs & -> & Hbs & Hlen).
  { clear -Ht. revert tail Ht. induction (Z.to_nat c) as [|k IH]; intros tail Ht.
    - exists []. destruct tail; [done|simpl in Ht; lia].
    - destruct (IH (drop 288 tail)) as (bs & Hd & HF & Hl); [rewrite length_drop; lia|].
      exists (take 288 tail :: bs). split_and!; simpl; [by rewrite <- Hd, take_drop| |by rewrite Hl].
      constructor; [rewrite length_take; lia|done]. }
  eexists _, bs. split; [done|]. split; [done|]. split_and!; simpl; [done|done|lia].
Qed.

Lemma item_at_length buf : length (data (bdata (item_at buf))) = (length buf - 32)%nat.
Proof. unfold item_at, get_uint. cbn [bdata data]. rewrite !length_drop. lia. Qed.

Lemma slot_offset_nat (i : nat) : slot_offset (Z.of_nat i) = Z.of_nat 4 + Z.of_nat 288 * Z.of_nat i.
Proof. done. Qed.

Lemma GetSlot_block r bs i b :
  recovery_blocks r bs -> bs !! i = Some b -> GetSlot r (Z.of_nat i) = Ok (item_at b).
Proof.
  intros (Hraw & HF & _) Hi. unfold GetSlot. rewrite Hraw.
  pose proof (mem_read_block 288%nat (le_bytes 4 (count r)) bs i b HF Hi) as Hr.
  rewrite length_le_bytes in Hr. rewrite slot_offset_nat.
  change sizeof_BackupItem with (Z.of_nat 288). by rewrite Hr.
Qed.

(** Copying a well-formed item to a slot changes that slot only. *)
Lemma copy_to_slot_block r bs i b src :
  recovery_blocks r bs -> bs !! i = Some b -> item_wf src ->
  exists r' it, copy_to_slot r (Z.of_nat i) src = Ok r' /\ same_item it src /\ item_wf it /\
    count r' = count r /\ recovery_blocks r' (<[i := item_bytes it]> bs).
Proof.
  intros Hr Hi Hwf. pose proof Hr as (Hraw & HF & Hlen). unfold copy_to_slot.
  rewrite (GetSlot_block r bs i b Hr Hi). cbn [mbind result_bind].
  destruct (CopyBackupItem_wf (item_at b) src) as (it & Hcp & Hsame & Hwf'); [|done|].
  { rewrite item_at_length, (Forall_lookup_1 _ _ _ _ HF Hi). done. }
  rewrite Hcp. cbn [mbind result_bind]. rewrite Hraw.
  pose proof (length_item_bytes it Hwf') as Hl.
  assert (Hl' : length (item_bytes it) = 288%nat) by (vm_compute (sizeof_BackupItem) in Hl; lia).
  pose proof (mem_write_block 288%nat (le_bytes 4 (count r)) bs i b (item_bytes it) HF Hi Hl') as Hw.
  rewrite length_le_bytes in Hw. rewrite slot_offset_nat, Hw.
  eexists _, it. split; [done|]. do 3 (split; [done|]). split_and!; cbn [raw count].
  - done.
  - by apply Forall_insert.
  - by rewrite length_insert.
Qed.

Lemma GetCount_blocks r bs :
  recovery_blocks r bs -> in_unsigned 32 (count r) -> GetCount r = Ok (count r).
Proof.
  intros (Hraw & _) Hc. unfold GetCount. rewrite Hraw.
  rewrite (mem_read_app_mid [] (le_bytes 4 (count r)) (concat bs)) by (try rewrite length_le_bytes; done).
  cbn [mbind result_bind]. f_equal. rewrite le_val_bytes. apply Z.mod_small. unfold in_unsigned in Hc. lia.
Qed.

End Item.
