(* ===== verification/Operators.v ===== *)
(** The fault-tolerant operators of src/operator: the interface [FTInterface]
    (ft_interface.hpp) as a class, [NumericArray_MAX] (array_max.hpp),
    [NumericArray_L1] (array_l1.hpp) and [NumericArray_L2] (array_l2.hpp) for
    [V = long long], the contract a state backup obeys, and the proofs that the
    three arrays implement it. *)
From stdpp Require Import base numbers list.
From Stdlib Require Import ZArith Lia.
From S2P Require Import Prelude BackupItem.

(** ** The interface *)

(** [FTInterface] and [FTOperator::SetDivergenceThresh].  Divergences and
    thresholds are [double]s in the code; every divergence here is an integer, so
    a threshold enters through its floor only. *)
Class FTInterface (S : Type) := {
  CalculateDivergence : S -> Z;
  SerializeState : S -> Item.BackupData -> result (S * Item.BackupData);
  RecoveryState : S -> Item.BackupData -> result S;
  Clear : S -> S;
  GetDivergenceThresh : S -> Z
}.

(** A backup of entry [i] with value [v]: the index is the key and the first
    four bytes, the value the next eight. *)
Definition encodes (bd : Item.BackupData) (i v : Z) : Prop :=
  Item.key (Item.meta bd) = i /\ Item.len (Item.meta bd) = 12 /\
  exists rest, Item.data bd = le_bytes 4 i ++ le_bytes 8 v ++ rest.

(** The buffer the backup is written to. *)
Definition buffer_wf (bd : Item.BackupData) : Prop :=
  Z.of_nat (length (Item.data bd)) = Item.MAX_BACKUP_ITEM_DATA_LEN.

(** Entries far enough from the ends of [long long] for differences to be
    exact. *)
Definition small (v : Z) : Prop := - 2 ^ 62 <= v < 2 ^ 62.

(** What a state backup promises: serialising leaves the live state alone,
    writes one entry of it and marks exactly that entry as backed up; replaying
    the entry on an operator with nothing to back up restores it. *)
Class FTSpec (S : Type) `{!FTInterface S} := {
  op_inv : S -> Prop;
  live : S -> list Z;
  backed : S -> list Z;
  spec_lengths s : op_inv s -> length (backed s) = length (live s);
  spec_size s : op_inv s -> Z.of_nat (length (live s)) < 2 ^ 32;
  spec_value s i v : op_inv s -> live s !! i = Some v -> small v;
  spec_serialize s bd :
    op_inv s -> (0 < length (live s))%nat -> buffer_wf bd ->
    exists s' bd' i v, SerializeState s bd = Ok (s', bd') /\ op_inv s' /\ buffer_wf bd' /\
      encodes bd' (Z.of_nat i) v /\ live s !! i = Some v /\
      live s' = live s /\ backed s' = <[i := v]> (backed s) /\
      GetDivergenceThresh s' = GetDivergenceThresh s;
  spec_recover s bd i v :
    op_inv s -> live s = backed s -> encodes bd (Z.of_nat i) v -> (i < length (live s))%nat ->
    small v ->
    exists s', RecoveryState s bd = Ok s' /\ op_inv s' /\
      live s' = <[i := v]> (live s) /\ backed s' = <[i := v]> (backed s) /\
      GetDivergenceThresh s' = GetDivergenceThresh s
}.

(** ** Shared code of the arrays *)

(** The body [SerializeState] of all three arrays ends with: [meta.len],
    [meta.key], the two [memcpy]s. *)
Definition write_entry (bd : Item.BackupData) (i v : Z) : result Item.BackupData :=
  d1 ← mem_write (Item.data bd) 0 (le_bytes 4 i);
  d2 ← mem_write d1 4 (le_bytes 8 v);
  Ok {| Item.meta := {| Item.len := 12; Item.key := i |}; Item.data := d2 |}.

(** The body of [RecoveryState]: [index] and the value. *)
Definition read_entry (bd : Item.BackupData) : result (Z * Z) :=
  b ← mem_read (Item.data bd) 4 8;
  Ok (u32 (Item.key (Item.meta bd)), s64 (le_val b)).

Lemma write_entry_encodes bd i v :
  buffer_wf bd -> exists bd', write_entry bd i v = Ok bd' /\ encodes bd' i v /\ buffer_wf bd'.
Proof.
  intros Hwf. unfold buffer_wf, Item.MAX_BACKUP_ITEM_DATA_LEN in *. unfold write_entry.
  rewrite mem_write_ok; [|lia|rewrite length_le_bytes; lia].
  change (Z.to_nat 0) with 0%nat. rewrite take_0, app_nil_l, length_le_bytes. cbn [mbind result_bind].
  assert (Hsplit : le_bytes 4 i ++ drop (0 + 4) (Item.data bd) =
    le_bytes 4 i ++ take 8 (drop 4 (Item.data bd)) ++ drop 8 (drop 4 (Item.data bd))).
  { by rewrite take_drop. }
  rewrite Hsplit, mem_write_app_mid; [|by rewrite length_le_bytes|].
  - cbn [mbind result_bind]. eexists. split; [done|]. split.
    + split; [done|]. split; [done|]. by eexists.
    + cbn [Item.data]. rewrite !length_app, !length_le_bytes, !length_drop. lia.
  - rewrite length_le_bytes, length_take, length_drop. lia.
Qed.

Lemma read_entry_encodes bd i v :
  encodes bd i v -> in_unsigned 32 i -> in_signed 64 v -> read_entry bd = Ok (i, v).
Proof.
  intros (Hk & _ & rest & Hd) Hi Hv. unfold read_entry. rewrite Hd.
  rewrite (mem_read_app_mid (le_bytes 4 i) (le_bytes 8 v) rest) by (by rewrite length_le_bytes).
  cbn [mbind result_bind]. rewrite le_val_bytes, Hk, unsigned_of_small by done. do 2 f_equal.
  change (256 ^ Z.of_nat 8) with (2 ^ 64). fold (unsigned_of 64 v).
  rewrite signed_of_unsigned by lia. by apply signed_of_small.
Qed.

Lemma small_signed v : small v -> in_signed 64 v.
Proof. unfold small, in_signed. lia. Qed.

Lemma small_sub v w : small v -> small w -> s64 (v - w) = v - w.
Proof. unfold small. intros. apply signed_of_small; [lia|]. unfold in_signed. lia. Qed.

Lemma small_0 : small 0.
Proof. unfold small. lia. Qed.

#[export] Hint Resolve small_signed small_0 : afs.

(** ** NumericArray_MAX *)

Module MaxArray.

Record NumericArray_MAX := mkNumericArray_MAX {
  arr_length : Z;         (* size_t *)
  array : list Z;
  backup_array : list Z;
  max_diff : Z;
  max_diff_index : Z;     (* unsigned int *)
  theta : Z
}.

(** The constructor: its argument [d] is not used, [theta_] stays
    uninitialised until [SetDivergenceThresh]. *)
Definition new_NumericArray_MAX (garbage_theta : Z) (l : Z) : NumericArray_MAX :=
  {| arr_length := l; array := replicate (Z.to_nat l) 0; backup_array := replicate (Z.to_nat l) 0;
     max_diff := 0; max_diff_index := 0; theta := garbage_theta |}.

Definition SetDivergenceThresh (s : NumericArray_MAX) (d : Z) : NumericArray_MAX :=
  {| arr_length := arr_length s; array := array s; backup_array := backup_array s;
     max_diff := max_diff s; max_diff_index := max_diff_index s; theta := d |}.

Definition UpdateValue (s : NumericArray_MAX) (index value : Z) : result NumericArray_MAX :=
  array' ← set_index (array s) index value;
  b ← at_index (backup_array s) index;
  let diff := s64 (value - b) in
  if max_diff s <? diff
  then Ok {| arr_length := arr_length s; array := array'; backup_array := backup_array s;
             max_diff := diff; max_diff_index := index; theta := theta s |}
  else Ok {| arr_length := arr_length s; array := array'; backup_array := backup_array s;
             max_diff := max_diff s; max_diff_index := max_diff_index s; theta := theta s |}.

Definition GetValue (s : NumericArray_MAX) (index : Z) : result Z := at_index (array s) index.

(** [Clear] keeps [max_diff_index]. *)
Definition Clear_MAX (s : NumericArray_MAX) : NumericArray_MAX :=
  {| arr_length := arr_length s; array := replicate (Z.to_nat (arr_length s)) 0;
     backup_array := replicate (Z.to_nat (arr_length s)) 0;
     max_diff := 0; max_diff_index := max_diff_index s; theta := theta s |}.

Definition CalculateDivergence_MAX (s : NumericArray_MAX) : Z := max_diff s.

Definition SerializeState_MAX (s : NumericArray_MAX) (bd : Item.BackupData)
    : result (NumericArray_MAX * Item.BackupData) :=
  v ← at_index (array s) (max_diff_index s);
  bd' ← write_entry bd (max_diff_index s) v;
  backup' ← set_index (backup_array s) (max_diff_index s) v;
  Ok ({| arr_length := arr_length s; array := array s; backup_array := backup';
         max_diff := 0; max_diff_index := 0; theta := theta s |}, bd').

Definition RecoveryState_MAX (s : NumericArray_MAX) (bd : Item.BackupData) : result NumericArray_MAX :=
  e ← read_entry bd;
  backup' ← set_index (backup_array s) e.1 e.2;
  array' ← set_index (array s) e.1 e.2;
  Ok {| arr_length := arr_length s; array := array'; backup_array := backup';
        max_diff := max_diff s; max_diff_index := max_diff_index s; theta := theta s |}.

#[global] Instance MAX_FTInterface : FTInterface NumericArray_MAX := {|
  CalculateDivergence := CalculateDivergence_MAX;
  SerializeState := SerializeState_MAX;
  RecoveryState := RecoveryState_MAX;
  Clear := Clear_MAX;
  GetDivergenceThresh := theta
|}.

(** The arrays have their length, the tracked index is in them, the entries are
    far from the ends of [long long]. *)
Record max_inv (s : NumericArray_MAX) : Prop := {
  mi_len : 0 < arr_length s < 2 ^ 32;
  mi_array : Z.of_nat (length (array s)) = arr_length s;
  mi_backup : Z.of_nat (length (backup_array s)) = arr_length s;
  mi_index : 0 <= max_diff_index s < arr_length s;
  mi_small : Forall small (array s);
  mi_bsmall : Forall small (backup_array s);
  mi_diff : 0 <= max_diff s
}.

(** The condition of bounded divergence: nothing in the live array is more than
    [e] above its backup, apart from the tracked entry. *)
Definition gap_le (s : NumericArray_MAX) (e : Z) (i : nat) : Prop :=
  forall a b, array s !! i = Some a -> backup_array s !! i = Some b -> a - b <= e.

Lemma max_inv_lookup s i :
  max_inv s -> 0 <= i < arr_length s ->
  exists a b, array s !! Z.to_nat i = Some a /\ backup_array s !! Z.to_nat i = Some b /\ small a /\ small b.
Proof.
  intros Hs Hi. pose proof Hs as [].
  destruct (lookup_lt_is_Some_2 (array s) (Z.to_nat i)) as [a Ha]; [lia|].
  destruct (lookup_lt_is_Some_2 (backup_array s) (Z.to_nat i)) as [b Hb]; [lia|].
  exists a, b. split; [done|]. split; [done|].
  split; [exact (Forall_lookup_1 _ _ _ _ mi_small0 Ha)|exact (Forall_lookup_1 _ _ _ _ mi_bsmall0 Hb)].
Qed.

(** [UpdateValue] inside the array returns, stores the value and raises the
    tracked difference to the new one when that is larger. *)
Lemma UpdateValue_inv s index value :
  max_inv s -> 0 <= index < arr_length s -> small value ->
  exists s' b, UpdateValue s index value = Ok s' /\ max_inv s' /\
    backup_array s !! Z.to_nat index = Some b /\
    array s' = <[Z.to_nat index := value]> (array s) /\ backup_array s' = backup_array s /\
    theta s' = theta s /\ arr_length s' = arr_length s /\
    max_diff s' = Z.max (max_diff s) (value - b) /\
    (max_diff s < value - b -> max_diff_index s' = index).
Proof.
  intros Hs Hi Hv. destruct (max_inv_lookup s index Hs Hi) as (a & b & Ha & Hb & Hsa & Hsb).
  pose proof Hs as []. unfold UpdateValue.
  rewrite set_index_ok by lia. cbn [mbind result_bind].
  rewrite (proj2 (at_index_ok (backup_array s) index b)) by (split; [lia|done]). cbn [mbind result_bind].
  rewrite small_sub by done. cbv zeta.
  destruct (Z.ltb_spec (max_diff s) (value - b)); (eexists _, b; split; [reflexivity|]; split;
    [split; cbn; rewrite ?length_insert; try done; try lia; by apply Forall_insert
    |split_and!; cbn; try done; lia]).
Qed.

Lemma SerializeState_inv s bd :
  max_inv s -> buffer_wf bd ->
  exists s' bd' v, SerializeState_MAX s bd = Ok (s', bd') /\ max_inv s' /\ buffer_wf bd' /\
    encodes bd' (max_diff_index s) v /\ array s !! Z.to_nat (max_diff_index s) = Some v /\
    array s' = array s /\ backup_array s' = <[Z.to_nat (max_diff_index s) := v]> (backup_array s) /\
    theta s' = theta s /\ arr_length s' = arr_length s /\ max_diff s' = 0.
Proof.
  intros Hs Hbd. pose proof Hs as [].
  destruct (max_inv_lookup s (max_diff_index s) Hs mi_index0) as (v & b & Hv & Hb & Hsv & Hsb).
  unfold SerializeState_MAX.
  rewrite (proj2 (at_index_ok (array s) _ v)) by (split; [lia|done]). cbn [mbind result_bind].
  destruct (write_entry_encodes bd (max_diff_index s) v Hbd) as (bd' & -> & Henc & Hbd').
  cbn [mbind result_bind]. rewrite set_index_ok by lia. cbn [mbind result_bind].
  eexists _, bd', v. split; [reflexivity|]. split; [|split_and!; done].
  split; cbn; rewrite ?length_insert; try done; try lia. by apply Forall_insert.
Qed.

Lemma RecoveryState_inv s bd i v :
  max_inv s -> encodes bd i v -> 0 <= i < arr_length s -> small v ->
  exists s', RecoveryState_MAX s bd = Ok s' /\ max_inv s' /\
    array s' = <[Z.to_nat i := v]> (array s) /\ backup_array s' = <[Z.to_nat i := v]> (backup_array s) /\
    theta s' = theta s /\ max_diff s' = max_diff s.
Proof.
  intros Hs Henc Hi Hv. pose proof Hs as []. unfold RecoveryState_MAX.
  rewrite (read_entry_encodes bd i v Henc); [|unfold in_unsigned; lia|by apply small_signed].
  cbn [mbind result_bind fst snd]. rewrite set_index_ok by lia. cbn [mbind result_bind].
  rewrite set_index_ok by lia. cbn [mbind result_bind].
  eexists. split; [reflexivity|]. split; [|done].
  split; cbn; rewrite ?length_insert; try done; by apply Forall_insert.
Qed.

#[global] Program Instance MAX_FTSpec : FTSpec NumericArray_MAX := {|
  op_inv := max_inv;
  live := array;
  backed := backup_array
|}.
Next Obligation. intros s []. lia. Qed.
Next Obligation. intros s []. lia. Qed.
Next Obligation. intros s i v Hs Hv. exact (Forall_lookup_1 _ _ _ _ (mi_small s Hs) Hv). Qed.
Next Obligation.
  intros s bd Hs _ Hbd. destruct (SerializeState_inv s bd Hs Hbd)
    as (s' & bd' & v & H1 & H2 & H3 & H4 & H5 & H6 & H7 & H8 & _ & _).
  exists s', bd', (Z.to_nat (max_diff_index s)), v. rewrite Z2Nat.id by (destruct Hs; lia).
  by split_and!.
Qed.
Next Obligation.
  intros s bd i v Hs _ Henc Hi Hv.
  destruct (RecoveryState_inv s bd (Z.of_nat i) v Hs Henc) as (s' & H1 & H2 & H3 & H4 & H5 & _);
    [destruct Hs; lia|done|]. rewrite Nat2Z.id in *. by exists s'.
Qed.

End MaxArray.

(** ** NumericArray_L1 and NumericArray_L2 *)

(** The two classes differ in the function applied to a difference only:
    [abs] and [sqr]. *)
Class Norm (norm : Z -> Z) : Prop := {
  norm_nonneg x : 0 <= norm x;
  norm_zero x : norm x = 0 <-> x = 0
}.

Definition sqr (a : Z) : Z := a * a.

#[global] Instance abs_norm : Norm Z.abs.
Proof. split; intros; lia. Qed.

#[global] Instance sqr_norm : Norm sqr.
Proof. split; intros; unfold sqr; nia. Qed.

Module NormArray.

Record NumericArray (norm : Z -> Z) := mkNumericArray {
  arr_length : Z;        (* size_t *)
  array : list Z;
  backup_array : list Z;
  tot_diff : Z;
  theta : Z
}.

Arguments mkNumericArray {norm}.
Arguments arr_length {norm} _.
Arguments array {norm} _.
Arguments backup_array {norm} _.
Arguments tot_diff {norm} _.
Arguments theta {norm} _.

(** The constructor ignores both arguments: [length] is never set, so the
    arrays have the size that happens to be there. *)
Definition new_NumericArray {norm} (garbage_length garbage_theta : Z) (l : Z) : NumericArray norm :=
  {| arr_length := garbage_length; array := replicate (Z.to_nat garbage_length) 0;
     backup_array := replicate (Z.to_nat garbage_length) 0; tot_diff := 0; theta := garbage_theta |}.

(** [V diff = norm (a - b)]. *)
Definition diff_of (norm : Z -> Z) (a b : Z) : Z := s64 (norm (s64 (a - b))).

Definition UpdateValue_Norm {norm} (s : NumericArray norm) (index value : Z) : result (NumericArray norm) :=
  a ← at_index (array s) index;
  b ← at_index (backup_array s) index;
  let old_diff := diff_of norm a b in
  let new_diff := diff_of norm value b in
  array' ← set_index (array s) index value;
  Ok {| arr_length := arr_length s; array := array'; backup_array := backup_array s;
        tot_diff := s64 (s64 (tot_diff s - old_diff) + new_diff); theta := theta s |}.

Definition GetValue_Norm {norm} (s : NumericArray norm) (index : Z) : result Z := at_index (array s) index.

Definition Clear_Norm {norm} (s : NumericArray norm) : NumericArray norm :=
  {| arr_length := arr_length s; array := replicate (Z.to_nat (arr_length s)) 0;
     backup_array := replicate (Z.to_nat (arr_length s)) 0; tot_diff := 0; theta := theta s |}.

(** One turn of the search for the largest difference. *)
Definition search_step {norm} (s : NumericArray norm) (m i : Z) : result Z :=
  a ← at_index (array s) i;
  b ← at_index (backup_array s) i;
  am ← at_index (array s) m;
  bm ← at_index (backup_array s) m;
  Ok (if diff_of norm am bm <? diff_of norm a b then i else m).

Definition SerializeState_Norm {norm} (s : NumericArray norm) (bd : Item.BackupData)
    : result (NumericArray norm * Item.BackupData) :=
  m ← foldM (search_step s) (indices (Z.to_nat (arr_length s))) 0;
  v ← at_index (array s) m;
  bd' ← write_entry bd m v;
  b ← at_index (backup_array s) m;
  backup' ← set_index (backup_array s) m v;
  Ok ({| arr_length := arr_length s; array := array s; backup_array := backup';
         tot_diff := s64 (tot_diff s - diff_of norm v b); theta := theta s |}, bd').

(** [RecoveryState] does not recompute [tot_diff]. *)
Definition RecoveryState_Norm {norm} (s : NumericArray norm) (bd : Item.BackupData) : result (NumericArray norm) :=
  e ← read_entry bd;
  backup' ← set_index (backup_array s) e.1 e.2;
  array' ← set_index (array s) e.1 e.2;
  Ok {| arr_length := arr_length s; array := array'; backup_array := backup';
        tot_diff := tot_diff s; theta := theta s |}.

#[global] Instance Norm_FTInterface norm : FTInterface (NumericArray norm) := {|
  CalculateDivergence := tot_diff;
  SerializeState := SerializeState_Norm;
  RecoveryState := RecoveryState_Norm;
  Clear := Clear_Norm;
  GetDivergenceThresh := theta
|}.

(** The distance between the live array and its backup. *)
Definition diffs (norm : Z -> Z) (a b : list Z) : list Z := zip_with (fun x y => norm (x - y)) a b.
Definition total (l : list Z) : Z := foldr Z.add 0 l.
Definition distance {norm} (s : NumericArray norm) : Z := total (diffs norm (array s) (backup_array s)).

Record norm_inv {norm} (s : NumericArray norm) : Prop := {
  ni_len : 0 < arr_length s < 2 ^ 32;
  ni_array : Z.of_nat (length (array s)) = arr_length s;
  ni_backup : Z.of_nat (length (backup_array s)) = arr_length s;
  ni_small : Forall small (array s);
  ni_bsmall : Forall small (backup_array s);
  ni_total : tot_diff s = distance s;
  ni_range : distance s < 2 ^ 63
}.

Section Lemmas.
Context {norm : Z -> Z} `{!Norm norm}.
Implicit Types s : NumericArray norm.

Lemma total_insert l i x y :
  l !! i = Some x -> total (<[i := y]> l) = total l - x + y.
Proof.
  revert i. induction l as [|z l IH]; intros [|i] Hi; simpl in *; [done|done|..].
  - injection Hi as ->. lia.
  - rewrite (IH _ Hi). lia.
Qed.

Lemma total_nonneg l : Forall (fun x => 0 <= x) l -> 0 <= total l.
Proof. induction 1; simpl; lia. Qed.

Lemma total_ge l i x : Forall (fun x => 0 <= x) l -> l !! i = Some x -> x <= total l.
Proof.
  intros HF. revert i. induction HF as [|z l Hz HF IH]; intros [|i] Hi; simpl in *; [done|done|..].
  - injection Hi as ->. pose proof (total_nonneg _ HF). lia.
  - specialize (IH _ Hi). lia.
Qed.

Lemma diffs_nonneg a b : Forall (fun x => 0 <= x) (diffs norm a b).
Proof.
  apply Forall_lookup. intros i x Hx. unfold diffs in Hx.
  apply lookup_zip_with_Some in Hx as (? & ? & -> & _). apply norm_nonneg.
Qed.

Lemma diffs_lookup a b i x y :
  a !! i = Some x -> b !! i = Some y -> diffs norm a b !! i = Some (norm (x - y)).
Proof. intros Hx Hy. apply lookup_zip_with_Some. eauto. Qed.

Lemma diffs_insert_l a b i x y :
  b !! i = Some y -> diffs norm (<[i := x]> a) b = <[i := norm (x - y)]> (diffs norm a b).
Proof.
  revert a b. induction i as [|i IH]; intros [|u a] [|w b] Hb; simpl in *; try done.
  - by injection Hb as ->.
  - f_equal. by apply IH.
Qed.

Lemma diffs_insert_r a b i x y :
  a !! i = Some x -> diffs norm a (<[i := y]> b) = <[i := norm (x - y)]> (diffs norm a b).
Proof.
  revert a b. induction i as [|i IH]; intros [|u a] [|w b] Ha; simpl in *; try done.
  - by injection Ha as ->.
  - f_equal. by apply IH.
Qed.

Lemma norm_inv_lookup s i :
  norm_inv s -> 0 <= i < arr_length s ->
  exists a b, array s !! Z.to_nat i = Some a /\ backup_array s !! Z.to_nat i = Some b /\ small a /\ small b.
Proof.
  intros Hs Hi. pose proof Hs as [].
  destruct (lookup_lt_is_Some_2 (array s) (Z.to_nat i)) as [a Ha]; [lia|].
  destruct (lookup_lt_is_Some_2 (backup_array s) (Z.to_nat i)) as [b Hb]; [lia|].
  exists a, b. split; [done|]. split; [done|].
  split; [exact (Forall_lookup_1 _ _ _ _ ni_small0 Ha)|exact (Forall_lookup_1 _ _ _ _ ni_bsmall0 Hb)].
Qed.

(** Differences are computed exactly while the total fits. *)
Lemma diff_of_exact s i a b :
  norm_inv s -> array s !! i = Some a -> backup_array s !! i = Some b -> small a -> small b ->
  diff_of norm a b = norm (a - b) /\ 0 <= norm (a - b) <= distance s.
Proof.
  intros [] Ha Hb Hsa Hsb.
  assert (Hle : norm (a - b) <= distance s).
  { eapply total_ge; [apply diffs_nonneg|]. by eapply diffs_lookup. }
  pose proof (norm_nonneg (a - b)).
  split; [|lia]. unfold diff_of. rewrite small_sub by done.
  apply signed_of_small; [lia|]. unfold in_signed. lia.
Qed.

Lemma at_index_lookup {A} (l : list A) i a : 0 <= i -> l !! Z.to_nat i = Some a -> at_index l i = Ok a.
Proof. intros. by apply at_index_ok. Qed.

(** [UpdateValue_Norm] keeps [tot_diff] equal to the distance. *)
Lemma UpdateValue_norm_inv s index value :
  norm_inv s -> 0 <= index < arr_length s -> small value ->
  total (diffs norm (<[Z.to_nat index := value]> (array s)) (backup_array s)) < 2 ^ 63 ->
  exists s', UpdateValue_Norm s index value = Ok s' /\ norm_inv s' /\
    array s' = <[Z.to_nat index := value]> (array s) /\ backup_array s' = backup_array s.
Proof.
  intros Hs Hi Hv Hnew. destruct (norm_inv_lookup s index Hs Hi) as (a & b & Ha & Hb & Hsa & Hsb).
  destruct (diff_of_exact s _ a b Hs Ha Hb Hsa Hsb) as [Hold Hob]. pose proof Hs as [].
  rewrite (diffs_insert_l _ _ _ value b Hb) in Hnew.
  pose proof (total_insert _ _ _ (norm (value - b)) (diffs_lookup _ _ _ _ _ Ha Hb)) as Htot.
  rewrite Htot in Hnew. fold (distance s) in Htot, Hnew.
  pose proof (norm_nonneg (value - b)) as Hnn.
  unfold UpdateValue_Norm. rewrite (at_index_lookup (array s) index a) by (done || lia). cbn [mbind result_bind].
  rewrite (at_index_lookup (backup_array s) index b) by (done || lia). cbn [mbind result_bind]. cbv zeta.
  rewrite set_index_ok by lia. cbn [mbind result_bind].
  assert (Hnewd : diff_of norm value b = norm (value - b)).
  { unfold diff_of. rewrite small_sub by done. apply signed_of_small; [lia|]. unfold in_signed. lia. }
  rewrite Hold, Hnewd, ni_total0.
  rewrite (signed_of_small 64 (distance s - norm (a - b))) by (unfold in_signed; lia).
  rewrite (signed_of_small 64) by (unfold in_signed; lia).
  eexists. split; [reflexivity|]. split; [|done].
  split; cbn [arr_length array backup_array tot_diff]; rewrite ?length_insert; try done.
  - by apply Forall_insert.
  - unfold distance. cbn [array backup_array]. by rewrite (diffs_insert_l _ _ _ value b Hb), Htot.
  - unfold distance. cbn [array backup_array]. rewrite (diffs_insert_l _ _ _ value b Hb), Htot. lia.
Qed.

(** The search finds an entry with the largest difference. *)
Lemma search_spec s :
  norm_inv s ->
  exists m, foldM (search_step s) (indices (Z.to_nat (arr_length s))) 0 = Ok m /\
    0 <= m < arr_length s /\
    forall i x y, diffs norm (array s) (backup_array s) !! i = Some x ->
      diffs norm (array s) (backup_array s) !! Z.to_nat m = Some y -> x <= y.
Proof.
  intros Hs. pose proof Hs as [].
  destruct (foldM_inv (fun ds m => 0 <= m < arr_length s /\
      forall i x y, i ∈ ds -> diffs norm (array s) (backup_array s) !! Z.to_nat i = Some x ->
        diffs norm (array s) (backup_array s) !! Z.to_nat m = Some y -> x <= y)
    (search_step s) (indices (Z.to_nat (arr_length s))) 0) as (m & Hm & Hr & Hmax).
  - split; [lia|]. intros i x y Hi. by apply not_elem_of_nil in Hi.
  - intros ds i m [Hm Hmax] Hpre.
    assert (Hi : 0 <= i < arr_length s).
    { assert (i ∈ indices (Z.to_nat (arr_length s))) as Hin.
      { eapply elem_of_prefix; [|exact Hpre]. apply elem_of_app. right. by apply list_elem_of_singleton. }
      unfold indices in Hin. apply list_elem_of_fmap in Hin as (k & -> & Hk). apply elem_of_seq in Hk. lia. }
    destruct (norm_inv_lookup s i Hs Hi) as (a & b & Ha & Hb & Hsa & Hsb).
    destruct (norm_inv_lookup s m Hs Hm) as (am & bm & Ham & Hbm & Hsam & Hsbm).
    destruct (diff_of_exact s _ a b Hs Ha Hb Hsa Hsb) as [Hd1 _].
    destruct (diff_of_exact s _ am bm Hs Ham Hbm Hsam Hsbm) as [Hd2 _].
    unfold search_step.
    rewrite (at_index_lookup (array s) i a) by (done || lia). cbn [mbind result_bind].
    rewrite (at_index_lookup (backup_array s) i b) by (done || lia). cbn [mbind result_bind].
    rewrite (at_index_lookup (array s) m am) by (done || lia). cbn [mbind result_bind].
    rewrite (at_index_lookup (backup_array s) m bm) by (done || lia). cbn [mbind result_bind].
    rewrite Hd1, Hd2. eexists. split; [reflexivity|].
    pose proof (diffs_lookup _ _ _ _ _ Ha Hb) as Hli. pose proof (diffs_lookup _ _ _ _ _ Ham Hbm) as Hlm.
    destruct (Z.ltb_spec (norm (am - bm)) (norm (a - b))); (split; [lia|]); intros j x y Hj Hx Hy;
      apply elem_of_app in Hj as [Hj|Hj%list_elem_of_singleton]; subst;
      try specialize (Hmax j x _ Hj Hx Hlm); simplify_eq; lia.
  - exists m. split; [done|]. split; [done|]. intros i x y Hx Hy.
    apply (Hmax (Z.of_nat i) x y); [|by rewrite Nat2Z.id|done].
    unfold indices. apply list_elem_of_fmap. exists i. split; [done|]. apply elem_of_seq.
    apply lookup_lt_Some in Hx. unfold diffs in Hx. rewrite length_zip_with in Hx. lia.
Qed.

(** [SerializeState] backs up the entry that is furthest from its backup. *)
Lemma SerializeState_norm_inv s bd :
  norm_inv s -> buffer_wf bd ->
  exists s' bd' m v b, SerializeState_Norm s bd = Ok (s', bd') /\ norm_inv s' /\ buffer_wf bd' /\
    encodes bd' (Z.of_nat m) v /\ array s !! m = Some v /\ backup_array s !! m = Some b /\
    array s' = array s /\ backup_array s' = <[m := v]> (backup_array s) /\ theta s' = theta s /\
    distance s' = distance s - norm (v - b) /\
    (forall i x, diffs norm (array s) (backup_array s) !! i = Some x -> x <= norm (v - b)).
Proof.
  intros Hs Hbd. pose proof Hs as [].
  destruct (search_spec s Hs) as (m & Hm & Hr & Hmax).
  destruct (norm_inv_lookup s m Hs Hr) as (v & b & Hv & Hb & Hsv & Hsb).
  destruct (diff_of_exact s _ v b Hs Hv Hb Hsv Hsb) as [Hd Hdb].
  pose proof (diffs_lookup _ _ _ _ _ Hv Hb) as Hl.
  unfold SerializeState_Norm. rewrite Hm. cbn [mbind result_bind].
  rewrite (at_index_lookup (array s) m v) by (done || lia). cbn [mbind result_bind].
  destruct (write_entry_encodes bd m v Hbd) as (bd' & -> & Henc & Hbd'). cbn [mbind result_bind].
  rewrite (at_index_lookup (backup_array s) m b) by (done || lia). cbn [mbind result_bind].
  rewrite set_index_ok by lia. cbn [mbind result_bind].
  rewrite Hd, ni_total0, signed_of_small by (unfold in_signed; lia).
  assert (Hdist : total (diffs norm (array s) (<[Z.to_nat m := v]> (backup_array s))) = distance s - norm (v - b)).
  { rewrite (diffs_insert_r _ _ _ v v Hv), (total_insert _ _ _ _ Hl), Z.sub_diag.
    rewrite (proj2 (norm_zero 0) eq_refl). unfold distance. lia. }
  eexists _, bd', (Z.to_nat m), v, b. rewrite Z2Nat.id by lia. split; [reflexivity|].
  split; [|split; [done|]; split; [done|]; do 6 (split; [done|]); intros i x Hx; by apply (Hmax i x)].
  split; cbn [arr_length array backup_array tot_diff]; rewrite ?length_insert; try done.
  - by apply Forall_insert.
  - unfold distance. cbn [array backup_array]. rewrite Hdist. lia.
Qed.

(** Replaying an entry on an operator with nothing to back up keeps it so; on
    another one [tot_diff] would be wrong. *)
Lemma RecoveryState_norm_inv s bd i v :
  norm_inv s -> array s = backup_array s -> encodes bd i v -> 0 <= i < arr_length s -> small v ->
  exists s', RecoveryState_Norm s bd = Ok s' /\ norm_inv s' /\
    array s' = <[Z.to_nat i := v]> (array s) /\ backup_array s' = <[Z.to_nat i := v]> (backup_array s) /\
    theta s' = theta s.
Proof.
  intros Hs Heq Henc Hi Hv. destruct (norm_inv_lookup s i Hs Hi) as (a & b & Ha & Hb & _ & _).
  assert (a = b) as -> by (rewrite Heq in Ha; congruence).
  pose proof Hs as []. unfold RecoveryState_Norm.
  rewrite (read_entry_encodes bd i v Henc); [|unfold in_unsigned; lia|by apply small_signed].
  cbn [mbind result_bind fst snd]. rewrite set_index_ok by lia. cbn [mbind result_bind].
  rewrite set_index_ok by lia. cbn [mbind result_bind].
  eexists. split; [reflexivity|]. split; [|done].
  assert (Hd : total (diffs norm (<[Z.to_nat i := v]> (array s)) (<[Z.to_nat i := v]> (backup_array s)))
               = distance s).
  { rewrite (diffs_insert_r _ _ _ v) by (apply list_lookup_insert_eq; lia).
    rewrite (diffs_insert_l _ _ _ _ _ Hb), list_insert_insert_eq, Z.sub_diag.
    rewrite (total_insert _ _ (norm (b - b))) by (by apply diffs_lookup).
    rewrite Z.sub_diag. unfold distance. lia. }
  split; cbn [arr_length array backup_array tot_diff]; rewrite ?length_insert; try done.
  - by apply Forall_insert.
  - by apply Forall_insert.
  - unfold distance at 1. cbn [array backup_array]. by rewrite Hd.
  - unfold distance. cbn [array backup_array]. by rewrite Hd.
Qed.

Lemma total_le l M : Forall (fun x => x <= M) l -> total l <= Z.of_nat (length l) * M.
Proof. induction 1; cbn [total foldr length]; [lia|]. unfold total in *. nia. Qed.

#[global] Program Instance Norm_FTSpec : FTSpec (NumericArray norm) := {|
  op_inv := norm_inv;
  live := array;
  backed := backup_array
|}.
Next Obligation. intros s []. lia. Qed.
Next Obligation. intros s []. lia. Qed.
Next Obligation. intros s i v Hs Hv. exact (Forall_lookup_1 _ _ _ _ (ni_small s Hs) Hv). Qed.
Next Obligation.
  intros s bd Hs _ Hbd. destruct (SerializeState_norm_inv s bd Hs Hbd)
    as (s' & bd' & m & v & b & H1 & H2 & H3 & H4 & H5 & _ & H7 & H8 & H9 & _ & _).
  exists s', bd', m, v. by split_and!.
Qed.
Next Obligation.
  intros s bd i v Hs Heq Henc Hi Hv.
  destruct (RecoveryState_norm_inv s bd (Z.of_nat i) v Hs Heq Henc) as (s' & H1 & H2 & H3 & H4 & H5);
    [destruct Hs; lia|done|]. rewrite Nat2Z.id in *. by exists s'.
Qed.

End Lemmas.


(** A two-entry array that moved away from its backup. *)
Definition sample_l1 : NumericArray Z.abs :=
  {| arr_length := 2; array := [7; 1]; backup_array := [2; 3]; tot_diff := 7; theta := 0 |}.

Definition empty_data : Item.BackupData :=
  {| Item.meta := {| Item.len := 0; Item.key := 0 |}; Item.data := replicate 256 0 |}.


End NormArray.

(** The two instances. *)
Definition NumericArray_L1 : Type := NormArray.NumericArray Z.abs.
Definition NumericArray_L2 : Type := NormArray.NumericArray sqr.

(** The bound of [NumericArray_MAX] needs one update per item: two updates of
    different entries in one item, as the merge thread makes, leave an entry
    more than the threshold above its backup after the check. *)
Theorem two_updates_exceed_threshold :
  exists s1 s2 s3 bd, MaxArray.UpdateValue (MaxArray.new_NumericArray_MAX 1 2) 0 5 = Ok s1 /\
    MaxArray.UpdateValue s1 1 4 = Ok s2 /\
    MaxArray.SerializeState_MAX s2 NormArray.empty_data = Ok (s3, bd) /\
    MaxArray.CalculateDivergence_MAX s3 = 0 /\ MaxArray.array s3 !! 1%nat = Some 4 /\
    MaxArray.backup_array s3 !! 1%nat = Some 0 /\ MaxArray.theta s3 = 1.
Proof.
  do 4 eexists. split; [vm_compute; reflexivity|]. split; [vm_compute; reflexivity|].
  split; [vm_compute; reflexivity|]. by vm_compute.
Qed.
