(* ===== verification/Backup.v ===== *)
(** The backup server (src/fault_tolerance/backup_server.cpp), the client that
    talks to it (backup_client.cpp) and the operator tracker that replays what
    comes back (operator_tracker.cpp).  The server's contents are reached
    through two maps that share pointers, so they live in a store.  The loop of
    the server's program around [handle] is in the file BackupServer. *)
From stdpp Require Import base numbers list gmap sets.
From Stdlib Require Import ZArith Lia.
From S2P Require Import Prelude BackupItem Operators.

Module Server.

(** [(uint64_t) worker << 32 | (uint64_t) thread << 16 | op] of
    [MAKE_OP_KEY (uint16_t worker, uint16_t thread, uint32_t op)]. *)
Definition MAKE_OP_KEY (worker thread op : Z) : Z :=
  Z.lor (Z.lor (Z.shiftl (u16 worker) 32) (Z.shiftl (u16 thread) 16)) (u32 op).

(** One per (worker, thread, operator). *)
Record BackupContent := mkBackupContent {
  map : gmap Z Z;                  (* unordered_map<uint64_t, uint32_t> *)
  slots : list Item.BackupItem;
  used_slots : Z;
  max_slots : Z
}.

(** An object filled with zeros ([calloc]). *)
Definition zero_item : Item.BackupItem :=
  {| Item.info := {| Item.backup_op := 0; Item.worker_id := 0; Item.thread_id := 0;
                     Item.op_index := 0; Item.seq := 0 |};
     Item.bdata := {| Item.meta := {| Item.len := 0; Item.key := 0 |};
                      Item.data := replicate 256 0 |} |}.

Definition new_BackupContent : BackupContent :=
  {| map := ∅; slots := [zero_item]; used_slots := 0; max_slots := 1 |}.

(** [realloc] leaves the new half uninitialised: [garbage]. *)
Definition Expand (garbage : Item.BackupItem) (c : BackupContent) : BackupContent :=
  let m := u32 (max_slots c * 2) in
  {| map := map c; slots := resize (Z.to_nat m) garbage (slots c);
     used_slots := used_slots c; max_slots := m |}.

Definition SelectSlot (garbage : Item.BackupItem) (c : BackupContent) (it : Item.BackupItem) : Z * BackupContent :=
  let bak_key := Item.key (Item.meta (Item.bdata it)) in
  match map c !! bak_key with
  | None =>
      let ret := used_slots c in
      let c := {| map := <[bak_key := ret]> (map c); slots := slots c;
                  used_slots := u32 (used_slots c + 1); max_slots := max_slots c |} in
      (ret, if ret =? max_slots c then Expand garbage c else c)
  | Some ret => (ret, c)
  end.

Definition SaveBackup (garbage : Item.BackupItem) (c : BackupContent) (it : Item.BackupItem) : result BackupContent :=
  let '(index, c) := SelectSlot garbage c it in
  dst ← at_index (slots c) index;
  it' ← Item.CopyBackupItem dst it;
  slots' ← set_index (slots c) index it';
  Ok {| map := map c; slots := slots'; used_slots := used_slots c; max_slots := max_slots c |}.

Definition AppendRecoveryItem (c : BackupContent) (ret : Item.RecoveryItem) (cur_count : Z) : result Item.RecoveryItem :=
  foldM (fun ret i =>
      it ← at_index (slots c) i;
      Item.copy_to_slot ret (u32 (cur_count + i)) it)
    (indices (Z.to_nat (used_slots c))) ret.

Definition GetCount (c : BackupContent) : Z := used_slots c.

(** The globals of the server; pointers to contents are positions in
    [contents]. *)
Record server := mkserver {
  contents : list BackupContent;
  ops : gmap Z nat;
  worker_ops_new : gmap Z (list nat);
  backup_item : Item.BackupItem;
  cnt : Z;
  cur_stop : Z
}.

Definition new_server (garbage : Item.BackupItem) : server :=
  {| contents := []; ops := ∅; worker_ops_new := ∅; backup_item := garbage; cnt := 0; cur_stop := 0 |}.

(** [worker_ops_new[id]], which creates an empty vector when there is none;
    the key is a [uint16_t]. *)
Definition worker_vector (s : server) (id : Z) : list nat := default [] (worker_ops_new s !! u16 id).

Definition with_worker (s : server) (id : Z) (v : list nat) : server :=
  {| contents := contents s; ops := ops s; worker_ops_new := <[u16 id := v]> (worker_ops_new s);
     backup_item := backup_item s; cnt := cnt s; cur_stop := cur_stop s |}.

(** [content->...] through a pointer. *)
Definition deref (s : server) (p : nat) : result BackupContent :=
  match contents s !! p with Some c => Ok c | None => Stop NullDeref end.

(** [ops[op_key]], with a new content when it is [NULL]. *)
Definition find_content (s : server) (it : Item.BackupItem) : nat * server :=
  let op_key := MAKE_OP_KEY (Item.worker_id (Item.info it)) (Item.thread_id (Item.info it))
                  (Item.op_index (Item.info it)) in
  match ops s !! op_key with
  | Some p => (p, s)
  | None =>
      let p := length (contents s) in
      (p, with_worker
            {| contents := contents s ++ [new_BackupContent]; ops := <[op_key := p]> (ops s);
               worker_ops_new := worker_ops_new s; backup_item := backup_item s;
               cnt := cnt s; cur_stop := cur_stop s |}
            (Item.worker_id (Item.info it))
            (worker_vector s (Item.worker_id (Item.info it)) ++ [p]))
  end.

Definition save (garbage : Item.BackupItem) (s : server) (it : Item.BackupItem) : result server :=
  let '(p, s) := find_content s it in
  c ← deref s p;
  c' ← SaveBackup garbage c it;
  Ok {| contents := <[p := c']> (contents s); ops := ops s; worker_ops_new := worker_ops_new s;
        backup_item := backup_item s; cnt := s32 (cnt s + 1); cur_stop := cur_stop s |}.

(** The sum of the counts of a worker's contents. *)
Definition total_count (s : server) (ps : list nat) : result Z :=
  foldM (fun n p => c ← deref s p; Ok (u32 (n + GetCount c))) ps 0.

Definition append_all (s : server) (ps : list nat) (r : Item.RecoveryItem) : result (Item.RecoveryItem * Z) :=
  foldM (fun '(r, cur_count) p =>
      c ← deref s p;
      r' ← AppendRecoveryItem c r cur_count;
      Ok (r', u32 (cur_count + GetCount c))) ps (r, 0).

(** What the server does with one request: its reply, if any, and whether the
    loop ends. *)
Record outcome := mkoutcome { srv : server; reply : option (list Z); stop : bool }.

(** The body of [while (1)] in [main]. *)
Definition handle (malloc : nat -> list Z) (garbage : Item.BackupItem) (num_sender : Z)
    (s : server) (msg : list Z) : result outcome :=
  let it := Item.item_receive (backup_item s) msg in
  let s := {| contents := contents s; ops := ops s; worker_ops_new := worker_ops_new s;
              backup_item := it; cnt := cnt s; cur_stop := cur_stop s |} in
  let id := Item.worker_id (Item.info it) in
  if Item.backup_op (Item.info it) =? 0 then
    if Item.len (Item.meta (Item.bdata it)) =? 0 then
      let s := {| contents := contents s; ops := ops s; worker_ops_new := worker_ops_new s;
                  backup_item := backup_item s; cnt := cnt s; cur_stop := s32 (cur_stop s + 1) |} in
      Ok {| srv := s; reply := Some []; stop := cur_stop s =? num_sender |}
    else
      s' ← save garbage s it;
      Ok {| srv := s'; reply := Some []; stop := false |}
  else if Item.backup_op (Item.info it) =? 1 then
    let s := with_worker s id (worker_vector s id) in
    n ← total_count s (worker_vector s id);
    Ok {| srv := s; reply := Some (le_bytes 4 n); stop := false |}
  else if Item.backup_op (Item.info it) =? 2 then
    let s := with_worker s id (worker_vector s id) in
    n ← total_count s (worker_vector s id);
    r ← Item.new_RecoveryItem malloc n;
    r' ← append_all s (worker_vector s id) r;
    b ← mem_read (Item.raw r'.1) 0 (Item.recovery_size n);
    Ok {| srv := s; reply := Some b; stop := false |}
  else Ok {| srv := s; reply := None; stop := false |}.

End Server.

(** ** The client *)

Module Client.
Import Server.

(** A request and its reply over the REQ/REP socket; without a reply the client
    waits for ever. *)
Definition exchange (malloc : nat -> list Z) (garbage : Item.BackupItem) (num_sender : Z)
    (s : server) (it : Item.BackupItem) : result (list Z * server) :=
  msg ← Item.item_message it;
  o ← handle malloc garbage num_sender s msg;
  match reply o with
  | Some b => Ok (b, srv o)
  | None => Stop WouldBlock
  end.

(** [MakeBackup]: the reply goes to one [char] and is not looked at. *)
Definition MakeBackup (malloc : nat -> list Z) (garbage : Item.BackupItem) (num_sender : Z)
    (s : server) (it : Item.BackupItem) : result server :=
  r ← exchange malloc garbage num_sender s it;
  Ok r.2.

(** The request [RetriveBackups] sends; [stack] is the uninitialised object. *)
Definition request_item (stack : Item.BackupItem) (worker_id op : Z) : Item.BackupItem :=
  {| Item.info := {| Item.backup_op := op; Item.worker_id := worker_id;
                     Item.thread_id := Item.thread_id (Item.info stack);
                     Item.op_index := Item.op_index (Item.info stack);
                     Item.seq := Item.seq (Item.info stack) |};
     Item.bdata := {| Item.meta := {| Item.len := 0; Item.key := Item.key (Item.meta (Item.bdata stack)) |};
                      Item.data := Item.data (Item.bdata stack) |} |}.

(** [zmq_recv (socket, dst, n, 0)] into a buffer with contents [old]. *)
Definition recv_into (old : list Z) (n : Z) (msg : list Z) : list Z :=
  let m := take (Z.to_nat n) msg in m ++ drop (length m) old.

Definition RetriveBackups (malloc : nat -> list Z) (garbage stack : Item.BackupItem) (num_sender worker_id : Z)
    (s : server) : result (Item.RecoveryItem * server) :=
  r1 ← exchange malloc garbage num_sender s (request_item stack worker_id 1);
  let count := le_val (recv_into (le_bytes 4 0) 4 r1.1) in
  r2 ← exchange malloc garbage num_sender r1.2 (request_item stack worker_id 2);
  ri ← Item.new_RecoveryItem malloc count;
  Ok ({| Item.raw := recv_into (Item.raw ri) (Item.recovery_size count) r2.1; Item.count := count |}, r2.2).

End Client.

(** ** The operator tracker *)

Module Tracker.

Section Tracker.
Context {S : Type} `{!FTInterface S}.

Record OperatorTracker := mkOperatorTracker {
  worker_id_ : Z;              (* uint32_t *)
  operators_ : list (list S);  (* one vector per compute thread *)
  seed_ : Z                    (* uint32_t *)
}.

Definition new_OperatorTracker (worker_id num_analyzer : Z) : OperatorTracker :=
  {| worker_id_ := worker_id; operators_ := replicate (Z.to_nat num_analyzer) []; seed_ := 0 |}.

(** [RegisterFTOperator] of the thread [thr_id]; it always returns 0. *)
Definition RegisterFTOperator (t : OperatorTracker) (thr_id : Z) (op : S) : result (Z * OperatorTracker) :=
  v ← at_index (operators_ t) thr_id;
  ops' ← set_index (operators_ t) thr_id (v ++ [op]);
  Ok (0, {| worker_id_ := worker_id_ t; operators_ := ops'; seed_ := seed_ t |}).

Definition GetThreadOps (t : OperatorTracker) (thr_id : Z) : result (list S) := at_index (operators_ t) thr_id.

Definition GetSeed (t : OperatorTracker) : Z * OperatorTracker :=
  (seed_ t, {| worker_id_ := worker_id_ t; operators_ := operators_ t; seed_ := u32 (seed_ t + 1) |}).

(** [operators_[thread]->at (op)->RecoveryState (data)]. *)
Definition recover_one (t : OperatorTracker) (it : Item.BackupItem) : result OperatorTracker :=
  if negb (Item.worker_id (Item.info it) =? worker_id_ t) then Stop ExitFailure
  else
    v ← at_index (operators_ t) (Item.thread_id (Item.info it));
    match v !! Z.to_nat (Item.op_index (Item.info it)) with
    | None => Stop UncaughtException
    | Some op =>
        op' ← RecoveryState op (Item.bdata it);
        ops' ← set_index (operators_ t) (Item.thread_id (Item.info it))
                 (<[Z.to_nat (Item.op_index (Item.info it)) := op']> v);
        Ok {| worker_id_ := worker_id_ t; operators_ := ops'; seed_ := seed_ t |}
    end.

Definition RecoverOps (t : OperatorTracker) (r : Item.RecoveryItem) : result OperatorTracker :=
  count ← Item.GetCount r;
  foldM (fun t i => it ← Item.GetSlot r i; recover_one t it) (indices (Z.to_nat count)) t.

End Tracker.

Arguments OperatorTracker S : clear implicits.

End Tracker.
