(* ===== verification/BackupSpec.v ===== *)
(** The backup server as a key-value store: what it keeps is, for every
    (worker, thread, operator) and every entry key, the last item saved under
    them; the client gets exactly those items of its worker back, and replaying
    them on fresh operators restores what was backed up. *)
From stdpp Require Import base numbers list gmap sets.
From Stdlib Require Import ZArith Lia.
From S2P Require Import Prelude BackupItem Operators Backup.

Module BackupSpec.
Import Server.

(** ** One content *)

(** What an object says: its header and its payload. *)
Abbreviation entry := (Item.BackupInfo * Item.BackupMeta * list Z)%type.
Definition strip (it : Item.BackupItem) : entry :=
  (Item.info it, Item.meta (Item.bdata it), Item.payload it).

#[global] Instance strip_proper : Proper (Item.same_item ==> eq) strip.
Proof. intros a b (H1 & H2 & H3). unfold strip. by rewrite H1, H2, H3. Qed.

Definition key_of (it : Item.BackupItem) : Z := Item.key (Item.meta (Item.bdata it)).

Record content_inv (c : BackupContent) (m : gmap Z entry) : Prop := {
  ci_slots : Z.of_nat (length (slots c)) = max_slots c;
  ci_max : 1 <= max_slots c <= Z.max 1 (2 * used_slots c);
  ci_used : 0 <= used_slots c <= max_slots c;
  ci_data : Forall (fun it => buffer_wf (Item.bdata it)) (slots c);
  ci_map : forall k i, map c !! k = Some i -> 0 <= i < used_slots c /\
    exists it, slots c !! Z.to_nat i = Some it /\ Item.item_wf it /\ key_of it = k /\ m !! k = Some (strip it);
  ci_surj : forall i, 0 <= i < used_slots c -> exists k, map c !! k = Some i;
  ci_dom : forall k, map c !! k = None -> m !! k = None
}.

Lemma new_content_inv : content_inv new_BackupContent ∅.
Proof.
  split; cbn [slots used_slots max_slots map new_BackupContent]; try done; try lia.
  by repeat constructor.
Qed.

(** A slot no key of the map refers to can be overwritten by a new key. *)
Lemma content_inv_add c m it it' slots' mx :
  content_inv c m -> map c !! key_of it = None ->
  Item.item_wf it' -> Item.same_item it' it ->
  used_slots c < mx -> Z.of_nat (length slots') = mx -> mx <= 2 * (used_slots c + 1) ->
  (forall i, 0 <= i < used_slots c -> slots' !! Z.to_nat i = slots c !! Z.to_nat i) ->
  Forall (fun it => buffer_wf (Item.bdata it)) slots' ->
  content_inv {| map := <[key_of it := used_slots c]> (map c);
                 slots := <[Z.to_nat (used_slots c) := it']> slots';
                 used_slots := used_slots c + 1; max_slots := mx |}
    (<[key_of it := strip it]> m).
Proof.
  intros [] Hnone Hwf Hsame Hmx Hlen Hmx2 Hkeep HF.
  assert (Hk : key_of it' = key_of it) by (unfold key_of; by destruct Hsame as (_ & -> & _)).
  split; cbn [map slots used_slots max_slots].
  - by rewrite length_insert.
  - lia.
  - lia.
  - apply Forall_insert; [done|]. destruct Hwf. done.
  - intros k i Hki. destruct (decide (k = key_of it)) as [->|Hne].
    + rewrite lookup_insert_eq in Hki. injection Hki as <-. split; [lia|].
      exists it'. split; [apply list_lookup_insert_eq; lia|]. split; [done|]. split; [done|].
      rewrite lookup_insert_eq. by rewrite Hsame.
    + rewrite lookup_insert_ne in Hki by done. destruct (ci_map0 _ _ Hki) as (Hi & x & Hx & Hxw & Hxk & Hxm).
      split; [lia|]. exists x. rewrite list_lookup_insert_ne by lia. rewrite Hkeep by done.
      split_and!; try done. by rewrite lookup_insert_ne.
  - intros i Hi. destruct (decide (i = used_slots c)) as [->|Hne].
    + exists (key_of it). by rewrite lookup_insert_eq.
    + destruct (ci_surj0 i) as [k Hki]; [lia|]. exists k. rewrite lookup_insert_ne; [done|].
      intros <-. congruence.
  - intros k Hki. destruct (decide (k = key_of it)) as [->|Hne]; [by rewrite lookup_insert_eq in Hki|].
    rewrite lookup_insert_ne in Hki by done. rewrite lookup_insert_ne by done. by apply ci_dom0.
Qed.

(** An occupied slot can be overwritten by an item with the same key. *)
Lemma content_inv_replace c m it it' i :
  content_inv c m -> map c !! key_of it = Some i ->
  Item.item_wf it' -> Item.same_item it' it ->
  content_inv {| map := map c; slots := <[Z.to_nat i := it']> (slots c);
                 used_slots := used_slots c; max_slots := max_slots c |}
    (<[key_of it := strip it]> m).
Proof.
  intros [] Hi Hwf Hsame.
  assert (Hk : key_of it' = key_of it) by (unfold key_of; by destruct Hsame as (_ & -> & _)).
  destruct (ci_map0 _ _ Hi) as (Hir & x & Hx & _ & Hxk & _).
  split; cbn [map slots used_slots max_slots]; try done.
  - by rewrite length_insert.
  - apply Forall_insert; [done|]. destruct Hwf. done.
  - intros k j Hkj. destruct (ci_map0 _ _ Hkj) as (Hj & y & Hy & Hyw & Hyk & Hym). split; [done|].
    destruct (decide (k = key_of it)) as [->|Hne].
    + rewrite Hi in Hkj. injection Hkj as <-. exists it'.
      split; [apply list_lookup_insert_eq; apply lookup_lt_Some in Hy; lia|].
      split; [done|]. split; [done|]. rewrite lookup_insert_eq. by rewrite Hsame.
    + exists y. rewrite list_lookup_insert_ne.
      * split; [done|]. split; [done|]. split; [done|]. by rewrite lookup_insert_ne.
      * intros Heq. assert (i = j) as -> by lia. congruence.
  - intros k Hkn. rewrite lookup_insert_ne by (intros <-; congruence). by apply ci_dom0.
Qed.

(** [SaveBackup] returns and records the item under its key. *)
Lemma SaveBackup_inv garbage c m it :
  content_inv c m -> buffer_wf (Item.bdata garbage) -> Item.item_wf it -> used_slots c < 2 ^ 30 ->
  exists c', SaveBackup garbage c it = Ok c' /\ content_inv c' (<[key_of it := strip it]> m) /\
    used_slots c <= used_slots c' <= used_slots c + 1.
Proof.
  intros Hc Hg Hwf Hu. pose proof Hc as []. unfold SaveBackup, SelectSlot. fold (key_of it).
  destruct (map c !! key_of it) as [i|] eqn:Hi.
  - destruct (ci_map0 _ _ Hi) as (Hir & x & Hx & Hxw & _).
    rewrite (proj2 (at_index_ok (slots c) i x)) by (split; [lia|done]). cbn [mbind result_bind].
    destruct (Item.CopyBackupItem_wf x it) as (it' & -> & Hsame & Hwf'); [by destruct Hxw|done|].
    cbn [mbind result_bind]. rewrite set_index_ok by lia. cbn [mbind result_bind].
    eexists. split; [reflexivity|]. split; [by apply (content_inv_replace c m it it' i)|]. cbn. lia.
  - cbv zeta. rewrite unsigned_of_small by (unfold in_unsigned; lia).
    assert (Hstep : forall slots' mx, used_slots c < mx -> Z.of_nat (length slots') = mx ->
      mx <= 2 * (used_slots c + 1) ->
      (forall i, 0 <= i < used_slots c -> slots' !! Z.to_nat i = slots c !! Z.to_nat i) ->
      Forall (fun it => buffer_wf (Item.bdata it)) slots' ->
      exists c', (dst ← at_index slots' (used_slots c);
                  it' ← Item.CopyBackupItem dst it;
                  slots1 ← set_index slots' (used_slots c) it';
                  Ok {| map := <[key_of it := used_slots c]> (map c); slots := slots1;
                        used_slots := used_slots c + 1; max_slots := mx |}) = Ok c' /\
        content_inv c' (<[key_of it := strip it]> m) /\ used_slots c <= used_slots c' <= used_slots c + 1).
    { intros slots' mx Hmx Hlen Hmx2 Hkeep HF.
      destruct (at_index_total slots' (used_slots c)) as [x Hx]; [lia|]. rewrite Hx. cbn [mbind result_bind].
      apply at_index_ok in Hx as [_ Hx].
      destruct (Item.CopyBackupItem_wf x it) as (it' & -> & Hsame & Hwf');
        [exact (Forall_lookup_1 _ _ _ _ HF Hx)|done|].
      cbn [mbind result_bind]. rewrite set_index_ok by lia. cbn [mbind result_bind].
      eexists. split; [reflexivity|]. split; [by apply content_inv_add|]. cbn. lia. }
    cbn [max_slots]. destruct (Z.eqb_spec (used_slots c) (max_slots c)) as [E|E].
    + unfold Expand. cbn [map slots used_slots max_slots].
      rewrite unsigned_of_small by (unfold in_unsigned; lia).
      apply Hstep; [lia|rewrite length_resize; lia|lia| |by apply Forall_resize].
      intros i Hir. apply lookup_resize; lia.
    + cbn [map slots used_slots max_slots]. apply Hstep; [lia|done|lia|done|done].
Qed.

(** ** The server *)

(** (worker, thread, operator); the server keeps 16 bits of each. *)
Abbreviation label := (Z * Z * Z)%type.
Definition label_range (l : label) : Prop :=
  in_unsigned 16 l.1.1 /\ in_unsigned 16 l.1.2 /\ in_unsigned 16 l.2.
Definition info_label (i : Item.BackupInfo) : label := (Item.worker_id i, Item.thread_id i, Item.op_index i).
Definition label_of (it : Item.BackupItem) : label := info_label (Item.info it).
Definition label_key (l : label) : Z := MAKE_OP_KEY l.1.1 l.1.2 l.2.

Lemma label_key_sum l :
  label_range l -> label_key l = (l.1.1 * 2 ^ 16 + l.1.2) * 2 ^ 16 + l.2.
Proof.
  destruct l as [[w t] o]. intros (Hw & Ht & Ho). cbn [fst snd] in *. unfold label_key, MAKE_OP_KEY. cbn [fst snd].
  unfold in_unsigned in *. rewrite (unsigned_of_small 16 w), (unsigned_of_small 16 t) by done.
  rewrite (unsigned_of_small 32 o) by (unfold in_unsigned; lia).
  replace (Z.lor (Z.shiftl w 32) (Z.shiftl t 16)) with (Z.shiftl (w * 2 ^ 16 + t) 16).
  - by rewrite lor_shiftl_add by lia.
  - rewrite <- lor_shiftl_add, Z.shiftl_lor, Z.shiftl_shiftl by lia. done.
Qed.

(** Different (worker, thread, operator) triples have different keys. *)
Lemma label_key_inj l l' : label_range l -> label_range l' -> label_key l = label_key l' -> l = l'.
Proof.
  intros Hl Hl' Heq. rewrite !label_key_sum in Heq by done.
  destruct l as [[w t] o], l' as [[w' t'] o'], Hl as (? & ? & ?), Hl' as (? & ? & ?).
  unfold in_unsigned in *. cbn [fst snd] in *. assert (o = o' /\ t = t' /\ w = w') as (-> & -> & ->) by lia. done.
Qed.

(** The worker of the [p]-th content. *)
Definition worker_at (labels : list label) (p : nat) : Z := from_option (fun l => l.1.1) (-1) (labels !! p).

(** [labels] and [ms] are ghosts: what the [p]-th content is for and what it
    means. *)
Record server_inv (s : server) (labels : list label) (ms : list (gmap Z entry)) : Prop := {
  si_labels : length labels = length (contents s);
  si_ms : length ms = length (contents s);
  si_nodup : NoDup labels;
  si_range : Forall label_range labels;
  si_ops : forall l p, label_range l -> ops s !! label_key l = Some p <-> labels !! p = Some l;
  si_worker : forall w, in_unsigned 16 w ->
    worker_vector s w = filter (fun p => worker_at labels p = w) (seq 0 (length labels));
  si_content : forall p c m l, contents s !! p = Some c -> ms !! p = Some m -> labels !! p = Some l ->
    content_inv c m /\ map_Forall (fun k e => info_label e.1.1 = l) m;
  si_item : buffer_wf (Item.bdata (backup_item s))
}.

Definition server_ok (s : server) : Prop := exists labels ms, server_inv s labels ms.

(** What the server keeps for an entry of an operator. *)
Definition stored (s : server) (l : label) (k : Z) : option entry :=
  p ← ops s !! label_key l;
  c ← contents s !! p;
  i ← map c !! k;
  it ← slots c !! Z.to_nat i;
  Some (strip it).

Lemma new_server_ok garbage : buffer_wf (Item.bdata garbage) -> server_ok (new_server garbage).
Proof.
  intros Hg. exists [], []. split; [done|done|constructor|constructor| | |done|done].
  - intros l p _. cbn. by rewrite lookup_empty, lookup_nil.
  - intros w Hw. unfold worker_vector. cbn. by rewrite lookup_empty.
Qed.

Lemma content_stored c m k :
  content_inv c m -> (i ← map c !! k; it ← slots c !! Z.to_nat i; Some (strip it)) = m !! k.
Proof.
  intros []. destruct (map c !! k) as [i|] eqn:E; simpl.
  - destruct (ci_map0 _ _ E) as (_ & it & -> & _ & _ & ->). done.
  - symmetry. by apply ci_dom0.
Qed.

Lemma stored_spec s labels ms l p m k :
  server_inv s labels ms -> label_range l -> labels !! p = Some l -> ms !! p = Some m ->
  stored s l k = m !! k.
Proof.
  intros Hs Hl Hp Hm. pose proof Hs as []. unfold stored.
  rewrite (proj2 (si_ops0 l p Hl) Hp). simpl.
  destruct (lookup_lt_is_Some_2 (contents s) p) as [c Hc]; [apply lookup_lt_Some in Hp; lia|].
  rewrite Hc. simpl. by apply content_stored, (si_content0 p c m l).
Qed.

Lemma stored_none s labels ms l k :
  server_inv s labels ms -> label_range l -> l ∉ labels -> stored s l k = None.
Proof.
  intros [] Hl Hn. unfold stored. destruct (ops s !! label_key l) as [p|] eqn:E; [|done].
  apply si_ops0 in E; [|done]. exfalso. apply Hn. by eapply list_elem_of_lookup_2.
Qed.

Lemma worker_vector_add (labels : list label) (l : label) w :
  filter (fun p => worker_at (labels ++ [l]) p = w) (seq 0 (length (labels ++ [l]))) =
  filter (fun p => worker_at labels p = w) (seq 0 (length labels)) ++
    (if decide (l.1.1 = w) then [length labels] else []).
Proof.
  rewrite length_app. cbn [length]. rewrite Nat.add_1_r, seq_S, filter_app. apply f_equal2.
  - apply filter_ext_in. intros p Hp. apply elem_of_seq in Hp. unfold worker_at.
    rewrite lookup_app_l by lia. done.
  - rewrite filter_cons, filter_nil. unfold worker_at. cbn [Nat.add].
    rewrite lookup_app_r, Nat.sub_diag by lia. done.
Qed.


(** The content of an operator, if there is one, can take one more entry. *)
Definition has_room (s : server) (l : label) : Prop :=
  forall p c, ops s !! label_key l = Some p -> contents s !! p = Some c -> used_slots c < 2 ^ 30.

(** A content for the item's operator exists afterwards, and nothing that was
    stored changes. *)
Lemma find_content_inv s labels ms it p s' :
  server_inv s labels ms -> label_range (label_of it) -> find_content s it = (p, s') ->
  exists labels' ms', server_inv s' labels' ms' /\ labels' !! p = Some (label_of it) /\
    (forall l k, label_range l -> stored s' l k = stored s l k) /\
    (has_room s (label_of it) -> has_room s' (label_of it)).
Proof.
  intros Hs Hl Hfind. pose proof Hs as []. unfold find_content in Hfind.
  change (MAKE_OP_KEY (Item.worker_id (Item.info it)) (Item.thread_id (Item.info it)) (Item.op_index (Item.info it)))
    with (label_key (label_of it)) in Hfind.
  destruct (ops s !! label_key (label_of it)) as [q|] eqn:E.
  { apply pair_equal_spec in Hfind as [-> ->]. exists labels, ms. split; [done|]. split; [by apply si_ops0|done]. }
  cbv zeta in Hfind. apply pair_equal_spec in Hfind as [<- <-].
  set (l := label_of it) in *. set (s1 := with_worker _ _ _).
  assert (Hnew : l ∉ labels).
  { intros Hin. apply list_elem_of_lookup in Hin as [q Hq]. apply si_ops0 in Hq; [congruence|done]. }
  assert (Hinv : server_inv s1 (labels ++ [l]) (ms ++ [∅])).
  { split; cbn [contents ops worker_ops_new backup_item s1 with_worker].
    - by rewrite !length_app, si_labels0.
    - by rewrite !length_app, si_ms0.
    - apply NoDup_app. split; [done|]. split; [|apply NoDup_singleton].
      intros x Hx Hx'%list_elem_of_singleton. by subst.
    - apply Forall_app. split; [done|]. by constructor.
    - intros l' q Hl'. destruct (decide (l' = l)) as [->|Hne].
      + rewrite lookup_insert_eq. split.
        * intros [= <-]. rewrite lookup_app_r, si_labels0, Nat.sub_diag by lia. done.
        * intros Hq. apply lookup_app_Some in Hq as [Hq|[Hge Hq]].
          -- exfalso. apply Hnew. by eapply list_elem_of_lookup_2.
          -- apply list_lookup_singleton_Some in Hq as [Hq _]. f_equal. lia.
      + rewrite lookup_insert_ne by (intros Hk; apply Hne; symmetry; by apply label_key_inj).
        rewrite si_ops0 by done. split; intros Hq.
        * by apply lookup_app_l_Some.
        * apply lookup_app_Some in Hq as [Hq|[Hge Hq]]; [done|].
          apply list_lookup_singleton_Some in Hq as [_ Hq]. by subst.
    - intros w Hw. rewrite worker_vector_add. unfold worker_vector, s1, with_worker. cbn [worker_ops_new].
      assert (Hwl : u16 (Item.worker_id (Item.info it)) = l.1.1) by (apply unsigned_of_small, Hl).
      rewrite Hwl, (unsigned_of_small 16 w) by done. destruct (decide (l.1.1 = w)) as [<-|Hne].
      + rewrite lookup_insert_eq. cbn [default from_option].
        specialize (si_worker0 _ Hw). unfold worker_vector in si_worker0.
        rewrite unsigned_of_small in si_worker0 by done.
        rewrite <- si_worker0, <- si_labels0. unfold worker_vector. by rewrite Hwl.
      + rewrite lookup_insert_ne by done. rewrite app_nil_r.
        specialize (si_worker0 _ Hw). unfold worker_vector in si_worker0.
        rewrite unsigned_of_small in si_worker0 by done. done.
    - intros q c m l' Hc Hm Hl'. destruct (decide (q = length (contents s))) as [->|Hne].
      + rewrite lookup_app_r, Nat.sub_diag in Hc by lia. rewrite lookup_app_r, si_ms0, Nat.sub_diag in Hm by lia.
        injection Hc as <-. injection Hm as <-. split; [apply new_content_inv|done].
      + assert (q < length (contents s))%nat.
        { apply lookup_lt_Some in Hc. rewrite length_app in Hc. simpl in Hc. lia. }
        rewrite lookup_app_l in Hc by lia. rewrite lookup_app_l in Hm by lia. rewrite lookup_app_l in Hl' by lia.
        by apply (si_content0 q).
    - done. }
  exists (labels ++ [l]), (ms ++ [∅]). split; [done|]. split.
  { rewrite lookup_app_r, si_labels0, Nat.sub_diag by lia. done. }
  split.
  - intros l' k Hl'. destruct (decide (l' ∈ labels)) as [Hin|Hnin].
    + apply list_elem_of_lookup in Hin as [q Hq].
      destruct (lookup_lt_is_Some_2 ms q) as [m Hm]; [apply lookup_lt_Some in Hq; lia|].
      transitivity (m !! k); [|by symmetry; apply (stored_spec s labels ms l' q m k)].
      by apply (stored_spec s1 _ _ l' q m k Hinv); try done; apply lookup_app_l_Some.
    + rewrite (stored_none s labels ms l' k) by done. destruct (decide (l' = l)) as [->|Hne].
      * rewrite (stored_spec s1 _ _ l (length labels) ∅ k Hinv); try done.
        -- rewrite lookup_app_r, Nat.sub_diag by lia. done.
        -- rewrite lookup_app_r, si_ms0, si_labels0, Nat.sub_diag by lia. done.
      * apply (stored_none s1 (labels ++ [l]) (ms ++ [∅])); [done|done|].
        rewrite elem_of_app, list_elem_of_singleton. tauto.
  - intros _ q c Hq Hc. cbn [ops contents s1 with_worker] in Hq, Hc. fold l in Hq. rewrite lookup_insert_eq in Hq.
    injection Hq as <-. rewrite lookup_app_r, Nat.sub_diag in Hc by lia. injection Hc as <-. cbn. lia.
Qed.

(** Updating one content keeps the invariant and changes one entry. *)
Lemma save_content_inv s labels ms p c c' m l k e :
  server_inv s labels ms -> contents s !! p = Some c -> ms !! p = Some m -> labels !! p = Some l ->
  content_inv c' (<[k := e]> m) -> info_label e.1.1 = l ->
  forall s', contents s' = <[p := c']> (contents s) -> ops s' = ops s ->
    worker_ops_new s' = worker_ops_new s -> backup_item s' = backup_item s ->
    server_inv s' labels (<[p := <[k := e]> m]> ms) /\
    (forall l' k', label_range l' ->
       stored s' l' k' = if decide (l' = l /\ k' = k) then Some e else stored s l' k').
Proof.
  intros Hs Hc Hm Hl Hc' He s' E1 E2 E3 E4. pose proof Hs as [].
  assert (Hinv : server_inv s' labels (<[p := <[k := e]> m]> ms)).
  { split; rewrite ?E1, ?E2, ?E4, ?length_insert; try done.
    - intros w Hw. unfold worker_vector. rewrite E3. by apply si_worker0.
    - intros q d n l' Hd Hn Hl'. destruct (decide (q = p)) as [->|Hne].
      + rewrite list_lookup_insert_eq in Hd by (by eapply lookup_lt_Some).
        rewrite list_lookup_insert_eq in Hn by (by eapply lookup_lt_Some).
        injection Hd as <-. injection Hn as <-. split; [done|]. rewrite Hl in Hl'. injection Hl' as <-.
        apply map_Forall_insert_2; [done|]. by apply (si_content0 p c m l).
      + rewrite list_lookup_insert_ne in Hd by done. rewrite list_lookup_insert_ne in Hn by done.
        by apply (si_content0 q). }
  split; [done|]. intros l' k' Hl'. destruct (decide (l' ∈ labels)) as [Hin|Hnin].
  - apply list_elem_of_lookup in Hin as [q Hq].
    destruct (lookup_lt_is_Some_2 ms q) as [n Hn]; [apply lookup_lt_Some in Hq; lia|].
    rewrite (stored_spec s labels ms l' q n k' Hs Hl' Hq Hn).
    destruct (decide (q = p)) as [->|Hne].
    + assert (l' = l) as -> by congruence. assert (n = m) as -> by congruence.
      rewrite (stored_spec s' labels _ l p (<[k := e]> m) k' Hinv Hl' Hq)
        by (apply list_lookup_insert_eq; by eapply lookup_lt_Some).
      destruct (decide (k' = k)) as [->|Hk].
      * rewrite lookup_insert_eq, decide_True by done. done.
      * rewrite lookup_insert_ne by done. rewrite decide_False by (by intros [_ ?]). done.
    + rewrite (stored_spec s' labels _ l' q n k' Hinv Hl' Hq) by (by rewrite list_lookup_insert_ne).
      rewrite decide_False; [done|]. intros [-> _]. apply Hne. by eapply NoDup_lookup.
  - rewrite (stored_none s labels ms l' k'), (stored_none s' labels _ l' k' Hinv) by done.
    rewrite decide_False; [done|]. intros [-> _]. apply Hnin. by eapply list_elem_of_lookup_2.
Qed.

Lemma save_inv garbage s it :
  server_ok s -> has_room s (label_of it) -> buffer_wf (Item.bdata garbage) -> Item.item_wf it -> label_range (label_of it) ->
  exists s', save garbage s it = Ok s' /\ server_ok s' /\
    forall l k, label_range l ->
      stored s' l k = if decide (l = label_of it /\ k = key_of it) then Some (strip it) else stored s l k.
Proof.
  intros (labels & ms & Hs) Hroom Hg Hwf Hl. unfold save.
  destruct (find_content s it) as [p s1] eqn:Hfind.
  destruct (find_content_inv s labels ms it p s1 Hs Hl Hfind) as (labels1 & ms1 & Hs1 & Hp & Hsame & Hroom1).
  specialize (Hroom1 Hroom). pose proof Hs1 as [].
  destruct (lookup_lt_is_Some_2 (contents s1) p) as [c Hc]; [apply lookup_lt_Some in Hp; lia|].
  destruct (lookup_lt_is_Some_2 ms1 p) as [m Hm]; [apply lookup_lt_Some in Hp; lia|].
  unfold deref. rewrite Hc. cbn [mbind result_bind].
  destruct (si_content0 p c m _ Hc Hm Hp) as [Hci _].
  destruct (SaveBackup_inv garbage c m it Hci Hg Hwf) as (c' & -> & Hci' & _);
    [apply (Hroom1 p c); [by apply si_ops0|done]|].
  cbn [mbind result_bind]. eexists. split; [reflexivity|].
  destruct (save_content_inv s1 labels1 ms1 p c c' m (label_of it) (key_of it) (strip it) Hs1 Hc Hm Hp Hci' eq_refl
    {| contents := <[p := c']> (contents s1); ops := ops s1; worker_ops_new := worker_ops_new s1;
       backup_item := backup_item s1; cnt := s32 (cnt s1 + 1); cur_stop := cur_stop s1 |})
    as [Hinv Hst]; try done.
  split; [by exists labels1, (<[p := <[key_of it := strip it]> m]> ms1)|].
  intros l k Hlr. rewrite Hst by done. rewrite Hsame by done. done.
Qed.

(** The object the server receives into does not matter. *)
Lemma server_ok_receive s it :
  server_ok s -> buffer_wf (Item.bdata it) ->
  let s' := {| contents := contents s; ops := ops s; worker_ops_new := worker_ops_new s;
               backup_item := it; cnt := cnt s; cur_stop := cur_stop s |} in
  server_ok s' /\ (forall l k, stored s' l k = stored s l k).
Proof.
  intros (labels & ms & []) Hit. split; [|done]. exists labels, ms. by split.
Qed.

Lemma same_item_label a b : Item.same_item a b -> label_of a = label_of b.
Proof. intros (H & _). unfold label_of. by rewrite H. Qed.

Lemma same_item_key a b : Item.same_item a b -> key_of a = key_of b.
Proof. intros (_ & H & _). unfold key_of. by rewrite H. Qed.

Lemma MakeBackup_stored malloc garbage num_sender (s : server) (it : Item.BackupItem) :
  server_ok s -> has_room s (label_of it) -> buffer_wf (Item.bdata garbage) ->
  Item.item_wf it -> label_range (label_of it) ->
  Item.backup_op (Item.info it) = 0 -> Item.len (Item.meta (Item.bdata it)) <> 0 ->
  exists s', Client.MakeBackup malloc garbage num_sender s it = Ok s' /\ server_ok s' /\
    forall l k, label_range l ->
      stored s' l k = if decide (l = label_of it /\ k = key_of it) then Some (strip it) else stored s l k.
Proof.
  intros Hs Hroom Hg Hwf Hl Hop Hlen. unfold Client.MakeBackup, Client.exchange.
  destruct (Item.item_message it) as [msg|] eqn:Hmsg; [|by rewrite Item.item_message_wf in Hmsg].
  cbn [mbind result_bind].
  assert (Hbuf : buffer_wf (Item.bdata (backup_item s))) by (by destruct Hs as (? & ? & [])).
  destruct (Item.item_receive_same (backup_item s) it msg Hbuf Hwf Hmsg) as [Hsame Hwf'].
  unfold handle. set (it' := Item.item_receive (backup_item s) msg) in *. clearbody it'.
  pose proof Hsame as (Hi & Hm & _). rewrite Hi, Hm, Hop, (proj2 (Z.eqb_neq _ _) Hlen). cbn [Z.eqb].
  destruct (server_ok_receive s it' Hs) as [Hs1 Hst1]; [by destruct Hwf'|].
  assert (Hroom' : has_room s (label_of it')) by (by rewrite (same_item_label _ _ Hsame)).
  destruct (save_inv garbage _ it' Hs1 Hroom' Hg Hwf') as (s' & Hsave & Hok & Hst);
    [by rewrite (same_item_label _ _ Hsame)|].
  rewrite Hsave. cbn [mbind result_bind reply srv snd]. exists s'. split; [done|]. split; [done|].
  intros l k Hlr. rewrite Hst by done.
  rewrite (same_item_label _ _ Hsame), (same_item_key _ _ Hsame), Hst1. by rewrite (strip_proper _ _ Hsame).
Qed.

(** ** What the client gets back *)

Definition content_items (s : server) (p : nat) : list Item.BackupItem :=
  match contents s !! p with
  | Some c => take (Z.to_nat (used_slots c)) (slots c)
  | None => []
  end.

Definition items_of (s : server) (ps : list nat) : list Item.BackupItem := concat (content_items s <$> ps).

Definition worker_items (s : server) (w : Z) : list Item.BackupItem := items_of s (worker_vector s w).

(** The name of an item: its operator and its key. *)
Definition name_of (it : Item.BackupItem) : label * Z := (label_of it, key_of it).

Lemma content_items_lookup c m i it :
  content_inv c m -> take (Z.to_nat (used_slots c)) (slots c) !! i = Some it ->
  map c !! key_of it = Some (Z.of_nat i) /\ Item.item_wf it /\ m !! key_of it = Some (strip it).
Proof.
  intros [] Hi. assert (i < Z.to_nat (used_slots c))%nat.
  { apply lookup_lt_Some in Hi. rewrite length_take in Hi. lia. }
  rewrite lookup_take_lt in Hi by done. destruct (ci_surj0 (Z.of_nat i)) as [k Hk]; [lia|].
  destruct (ci_map0 _ _ Hk) as (_ & x & Hx & Hxw & Hxk & Hxm). rewrite Nat2Z.id, Hi in Hx.
  injection Hx as <-. rewrite Hxk. done.
Qed.

Lemma content_items_names c m l :
  content_inv c m -> map_Forall (fun k e => info_label e.1.1 = l) m ->
  NoDup (name_of <$> take (Z.to_nat (used_slots c)) (slots c)) /\
  Forall (fun it => label_of it = l /\ Item.item_wf it) (take (Z.to_nat (used_slots c)) (slots c)).
Proof.
  intros Hc Hm. split.
  - apply NoDup_fmap_2_strong.
    + intros x y Hx Hy Hxy. apply list_elem_of_lookup in Hx as [i Hi], Hy as [j Hj].
      destruct (content_items_lookup c m i x Hc Hi) as (H1 & _), (content_items_lookup c m j y Hc Hj) as (H2 & _).
      apply pair_equal_spec in Hxy as [_ Hk]. rewrite Hk, H2 in H1. injection H1 as H1.
      assert (i = j) as -> by lia. rewrite Hi in Hj. by injection Hj.
    + apply NoDup_alt. intros i j x Hi Hj.
      destruct (content_items_lookup c m i x Hc Hi) as (H1 & _), (content_items_lookup c m j x Hc Hj) as (H2 & _).
      rewrite H1 in H2. injection H2 as H2. lia.
  - apply Forall_lookup. intros i x Hx. destruct (content_items_lookup c m i x Hc Hx) as (_ & Hwf & Hk).
    split; [|done]. exact (Hm _ _ Hk).
Qed.

Lemma items_of_names s labels ms ps :
  server_inv s labels ms -> NoDup ps -> (forall p, p ∈ ps -> (p < length labels)%nat) ->
  NoDup (name_of <$> items_of s ps) /\
  forall it, it ∈ items_of s ps -> Item.item_wf it /\ exists p, p ∈ ps /\ labels !! p = Some (label_of it).
Proof.
  intros Hs. pose proof Hs as []. induction ps as [|p ps IH]; intros Hnd Hin.
  { split; [constructor|]. intros it Hit. by apply not_elem_of_nil in Hit. }
  apply NoDup_cons in Hnd as [Hp Hnd]. destruct (IH Hnd) as [IH1 IH2].
  { intros q Hq. apply Hin. by apply list_elem_of_further. }
  assert (Hpl : (p < length labels)%nat) by (apply Hin, list_elem_of_here).
  destruct (lookup_lt_is_Some_2 labels p) as [l Hl]; [done|].
  destruct (lookup_lt_is_Some_2 (contents s) p) as [c Hc]; [lia|].
  destruct (lookup_lt_is_Some_2 ms p) as [m Hm]; [lia|].
  destruct (si_content0 p c m l Hc Hm Hl) as [Hci Hml].
  destruct (content_items_names c m l Hci Hml) as [Hn1 Hn2].
  assert (Hcons : items_of s (p :: ps) = take (Z.to_nat (used_slots c)) (slots c) ++ items_of s ps).
  { unfold items_of, content_items at 1. simpl. unfold content_items at 1. by rewrite Hc. }
  rewrite Hcons. split.
  - rewrite fmap_app. apply NoDup_app. split; [done|]. split; [|done].
    intros x Hx Hx'. apply list_elem_of_fmap in Hx as (y & -> & Hy), Hx' as (z & Hz1 & Hz2).
    destruct (IH2 z Hz2) as (_ & q & Hq & Hlq).
    apply list_elem_of_lookup in Hy as [i Hy]. destruct (Forall_lookup_1 _ _ _ _ Hn2 Hy) as [Hly _].
    apply pair_equal_spec in Hz1 as [Hz1 _]. rewrite <- Hz1, Hly in Hlq.
    by rewrite (NoDup_lookup labels p q l si_nodup0 Hl Hlq) in Hp.
  - intros it Hit. apply elem_of_app in Hit as [Hit|Hit].
    + apply list_elem_of_lookup in Hit as [i Hi]. destruct (Forall_lookup_1 _ _ _ _ Hn2 Hi) as [Hli Hwf].
      split; [done|]. exists p. split; [apply list_elem_of_here|]. by rewrite Hli.
    + destruct (IH2 it Hit) as (Hwf & q & Hq & Hlq). split; [done|]. exists q.
      split; [by apply list_elem_of_further|done].
Qed.

(** The items of a worker are what is stored for it, each once. *)
Lemma worker_items_spec s labels ms w :
  server_inv s labels ms -> in_unsigned 16 w ->
  NoDup (name_of <$> worker_items s w) /\
  (forall it, it ∈ worker_items s w -> Item.item_wf it /\ label_range (label_of it) /\ (label_of it).1.1 = w /\
     stored s (label_of it) (key_of it) = Some (strip it)) /\
  (forall l k e, label_range l -> l.1.1 = w -> stored s l k = Some e ->
     exists it, it ∈ worker_items s w /\ label_of it = l /\ key_of it = k /\ strip it = e).
Proof.
  intros Hs Hw. pose proof Hs as [].
  assert (Hin : forall p, p ∈ worker_vector s w <-> (p < length labels)%nat /\ worker_at labels p = w).
  { intros p. rewrite si_worker0 by done. rewrite list_elem_of_filter, elem_of_seq. lia. }
  destruct (items_of_names s labels ms (worker_vector s w) Hs) as [Hn1 Hn2].
  { rewrite si_worker0 by done. apply NoDup_filter, NoDup_seq. }
  { intros p Hp. by apply Hin in Hp as [? _]. }
  split; [done|]. split.
  - intros it Hit. destruct (Hn2 it Hit) as (Hwf & p & Hp & Hl). split; [done|].
    assert (Hr : label_range (label_of it)) by exact (Forall_lookup_1 _ _ _ _ si_range0 Hl).
    split; [done|]. apply Hin in Hp as [Hpl Hpw]. unfold worker_at in Hpw. rewrite Hl in Hpw. split; [done|].
    destruct (lookup_lt_is_Some_2 (contents s) p) as [c Hc]; [lia|].
    destruct (lookup_lt_is_Some_2 ms p) as [m Hm]; [lia|].
    rewrite (stored_spec s labels ms _ p m _ Hs Hr Hl Hm).
    unfold worker_items, items_of in Hit. apply elem_of_concat in Hit as (its & Hits & Hit).
    apply list_elem_of_fmap in Hits as (q & -> & Hq). unfold content_items in Hit.
    apply Hin in Hq as [Hql _].
    destruct (lookup_lt_is_Some_2 (contents s) q) as [cq Hcq]; [lia|]. rewrite Hcq in Hit.
    destruct (lookup_lt_is_Some_2 ms q) as [mq Hmq]; [lia|].
    destruct (lookup_lt_is_Some_2 labels q) as [lq Hlq]; [done|].
    destruct (si_content0 q cq mq lq Hcq Hmq Hlq) as [Hciq Hmlq].
    apply list_elem_of_lookup in Hit as [i Hi].
    destruct (content_items_lookup cq mq i it Hciq Hi) as (_ & _ & Hmk).
    pose proof (Hmlq _ _ Hmk) as Hlab. cbn in Hlab.
    rewrite <- Hlab in Hlq.
    assert (p = q) as -> by exact (NoDup_lookup labels p q _ si_nodup0 Hl Hlq).
    by assert (m = mq) as -> by congruence.
  - intros l k e Hr Hlw Hst. destruct (decide (l ∈ labels)) as [Hl|Hl].
    2: { by rewrite (stored_none s labels ms l k Hs Hr Hl) in Hst. }
    apply list_elem_of_lookup in Hl as [p Hp].
    assert (Hpl : (p < length labels)%nat) by (by eapply lookup_lt_Some).
    destruct (lookup_lt_is_Some_2 (contents s) p) as [c Hc]; [lia|].
    destruct (lookup_lt_is_Some_2 ms p) as [m Hm]; [lia|].
    destruct (si_content0 p c m l Hc Hm Hp) as [Hci Hml].
    rewrite (stored_spec s labels ms l p m k Hs Hr Hp Hm) in Hst.
    destruct Hci as [? ? ? ? Hmap ? Hdom].
    destruct (map c !! k) as [i|] eqn:Hk; [|by rewrite (Hdom _ Hk) in Hst].
    destruct (Hmap k i Hk) as (Hi & it & Hit & Hwf & Hik & Him). rewrite Hst in Him. injection Him as ->.
    exists it. split; [|split; [|done]].
    + unfold worker_items, items_of. apply elem_of_concat.
      exists (content_items s p). split.
      * apply list_elem_of_fmap. exists p. split; [done|]. apply Hin. split; [done|]. unfold worker_at. by rewrite Hp.
      * unfold content_items. rewrite Hc. apply (list_elem_of_lookup_2 _ (Z.to_nat i)).
        rewrite lookup_take_lt by lia. done.
    + exact (Hml _ _ Hst).
Qed.

(** The slots of a recovery item hold these items, up to the bytes after the
    payload. *)
Definition filled (r : Item.RecoveryItem) (its : list Item.BackupItem) : Prop :=
  exists bs, Item.recovery_blocks r bs /\
    forall i it, its !! i = Some it ->
      exists it', bs !! i = Some (Item.item_bytes it') /\ Item.same_item it' it /\ Item.item_wf it'.

Lemma copy_to_slot_filled r its src :
  filled r its -> Item.item_wf src -> Z.of_nat (length its) < Item.count r ->
  exists r', Item.copy_to_slot r (Z.of_nat (length its)) src = Ok r' /\
    filled r' (its ++ [src]) /\ Item.count r' = Item.count r.
Proof.
  intros (bs & Hbs & Hits) Hwf Hlt. pose proof Hbs as (_ & _ & Hlen).
  destruct (lookup_lt_is_Some_2 bs (length its)) as [b Hb]; [lia|].
  destruct (Item.copy_to_slot_block r bs (length its) b src Hbs Hb Hwf) as (r' & it & Hc & Hsame & Hwf' & Hcnt & Hbs').
  exists r'. split; [done|]. split; [|done]. exists (<[length its := Item.item_bytes it]> bs). split; [done|].
  intros i x Hx. apply lookup_app_Some in Hx as [Hx|[Hge Hx]].
  - rewrite list_lookup_insert_ne by (apply lookup_lt_Some in Hx; lia). by apply Hits.
  - apply list_lookup_singleton_Some in Hx as [Hi <-]. assert (i = length its) as -> by lia.
    exists it. split; [|done]. apply list_lookup_insert_eq. lia.
Qed.

Lemma content_items_length s c p m :
  contents s !! p = Some c -> content_inv c m -> Z.of_nat (length (content_items s p)) = used_slots c.
Proof. intros Hc []. unfold content_items. rewrite Hc, length_take. lia. Qed.

(** [AppendRecoveryItem] writes the content after what is there. *)
Lemma AppendRecoveryItem_filled c m r its :
  content_inv c m -> filled r its -> Item.count r < 2 ^ 32 ->
  Z.of_nat (length its) + used_slots c <= Item.count r ->
  exists r', AppendRecoveryItem c r (Z.of_nat (length its)) = Ok r' /\
    filled r' (its ++ take (Z.to_nat (used_slots c)) (slots c)) /\ Item.count r' = Item.count r.
Proof.
  intros Hc Hf Hcnt Hfit. pose proof Hc as []. unfold AppendRecoveryItem.
  destruct (foldM_inv (fun ds r' => Item.count r' = Item.count r /\ filled r' (its ++ take (length ds) (slots c)))
    (fun ret i => it ← at_index (slots c) i; Item.copy_to_slot ret (u32 (Z.of_nat (length its) + i)) it)
    (indices (Z.to_nat (used_slots c))) r) as (r' & Hrun & Hcount & Hfilled).
  - split; [done|]. by rewrite app_nil_r.
  - intros ds i r1 [Hc1 Hf1] Hpre.
    destruct (indices_prefix _ _ _ Hpre) as [-> Hds].
    destruct (lookup_lt_is_Some_2 (slots c) (length ds)) as [it Hit]; [lia|].
    assert (Hwf : Item.item_wf it).
    { apply (content_items_lookup c m (length ds) it Hc). rewrite lookup_take_lt by lia. done. }
    rewrite (proj2 (at_index_ok (slots c) (Z.of_nat (length ds)) it)) by (rewrite Nat2Z.id; split; [lia|done]).
    cbn [mbind result_bind]. rewrite unsigned_of_small by (unfold in_unsigned; lia).
    destruct (copy_to_slot_filled r1 (its ++ take (length ds) (slots c)) it Hf1 Hwf) as (r2 & Hr2 & Hf2 & Hc2).
    { rewrite length_app, length_take. lia. }
    exists r2. split.
    + rewrite <- Hr2. f_equal. rewrite length_app, length_take. lia.
    + split; [congruence|]. rewrite length_app. cbn [length]. rewrite Nat.add_1_r.
      rewrite (take_S_r _ _ it Hit), app_assoc. done.
  - exists r'. split; [done|]. split; [|done].
    replace (length (indices (Z.to_nat (used_slots c)))) with (Z.to_nat (used_slots c)) in Hfilled; [done|].
    unfold indices. by rewrite length_fmap, length_seq.
Qed.

Section Collect.
Context (s : server) (labels : list label) (ms : list (gmap Z entry)).
Hypothesis Hs : server_inv s labels ms.

Lemma deref_content p :
  (p < length labels)%nat -> exists c m, deref s p = Ok c /\ content_inv c m /\
    content_items s p = take (Z.to_nat (used_slots c)) (slots c) /\
    Z.of_nat (length (content_items s p)) = used_slots c.
Proof.
  intros Hp. pose proof Hs as [].
  destruct (lookup_lt_is_Some_2 (contents s) p) as [c Hc]; [lia|].
  destruct (lookup_lt_is_Some_2 ms p) as [m Hm]; [lia|].
  destruct (lookup_lt_is_Some_2 labels p) as [l Hl]; [done|].
  destruct (si_content0 p c m l Hc Hm Hl) as [Hci _].
  exists c, m. unfold deref. rewrite Hc. split; [done|]. split; [done|].
  split; [unfold content_items; by rewrite Hc|]. by apply (content_items_length s c p m).
Qed.

Lemma items_of_snoc ps p : items_of s (ps ++ [p]) = items_of s ps ++ content_items s p.
Proof. unfold items_of. rewrite fmap_app, concat_app. simpl. by rewrite app_nil_r. Qed.

Lemma items_of_prefix ps qs : ps `prefix_of` qs -> (length (items_of s ps) <= length (items_of s qs))%nat.
Proof. intros [k ->]. unfold items_of. rewrite fmap_app, concat_app, length_app. lia. Qed.

Lemma total_count_ok ps :
  (forall p, p ∈ ps -> (p < length labels)%nat) -> Z.of_nat (length (items_of s ps)) < 2 ^ 32 ->
  total_count s ps = Ok (Z.of_nat (length (items_of s ps))).
Proof.
  intros Hin Hlt. unfold total_count.
  destruct (foldM_inv (fun ds n => n = Z.of_nat (length (items_of s ds)))
    (fun n p => c ← deref s p; Ok (u32 (n + GetCount c))) ps 0) as (n & Hn & ->); [done| |done].
  intros ds p n -> Hpre.
  destruct (deref_content p) as (c & m & -> & _ & _ & Hl).
  { apply Hin. eapply elem_of_prefix; [|exact Hpre]. apply elem_of_app. right. by apply list_elem_of_singleton. }
  cbn [mbind result_bind]. eexists. split; [reflexivity|].
  pose proof (items_of_prefix _ _ Hpre) as Hle. rewrite items_of_snoc, length_app in Hle |- *.
  unfold GetCount. rewrite unsigned_of_small; [lia|]. unfold in_unsigned. lia.
Qed.

Lemma append_all_ok ps r :
  (forall p, p ∈ ps -> (p < length labels)%nat) -> filled r [] -> Item.count r < 2 ^ 32 ->
  Z.of_nat (length (items_of s ps)) = Item.count r ->
  exists r' n, append_all s ps r = Ok (r', n) /\ filled r' (items_of s ps) /\ Item.count r' = Item.count r.
Proof.
  intros Hin Hf Hlt Hcnt. unfold append_all.
  destruct (foldM_inv (fun ds '(r', n) => n = Z.of_nat (length (items_of s ds)) /\
      filled r' (items_of s ds) /\ Item.count r' = Item.count r)
    (fun '(r, cur_count) p => c ← deref s p; r' ← AppendRecoveryItem c r cur_count;
      Ok (r', u32 (cur_count + GetCount c))) ps (r, 0)) as ([r' n] & Hrun & _ & Hfl & Hc); [done| |eauto].
  intros ds p [r1 n] (-> & Hf1 & Hc1) Hpre.
  destruct (deref_content p) as (c & m & -> & Hci & Heq & Hl).
  { apply Hin. eapply elem_of_prefix; [|exact Hpre]. apply elem_of_app. right. by apply list_elem_of_singleton. }
  cbn [mbind result_bind].
  pose proof (items_of_prefix _ _ Hpre) as Hle. rewrite items_of_snoc, length_app in Hle.
  destruct (AppendRecoveryItem_filled c m r1 (items_of s ds) Hci Hf1) as (r2 & -> & Hf2 & Hc2); [lia|lia|].
  cbn [mbind result_bind]. eexists. split; [reflexivity|].
  rewrite items_of_snoc, length_app, Heq. split; [|split; [done|congruence]].
  unfold GetCount. rewrite <- Heq. rewrite unsigned_of_small; [lia|]. unfold in_unsigned. lia.
Qed.

End Collect.

(** Looking a worker up changes nothing that matters. *)
Lemma with_worker_same s labels ms id :
  server_inv s labels ms -> in_unsigned 16 id ->
  let s' := with_worker s id (worker_vector s id) in
  server_inv s' labels ms /\ (forall l k, stored s' l k = stored s l k) /\
  (forall w, worker_vector s' w = worker_vector s w) /\ (forall ps, items_of s' ps = items_of s ps).
Proof.
  intros Hs Hid s'.
  assert (Hw : forall w, worker_vector s' w = worker_vector s w).
  { intros w. unfold s', worker_vector, with_worker. cbn [worker_ops_new].
    destruct (decide (u16 id = u16 w)) as [->|Hne]; [by rewrite lookup_insert_eq|by rewrite lookup_insert_ne]. }
  split; [|done]. destruct Hs. split; try done. intros w Hwr. rewrite Hw. by apply si_worker0.
Qed.

(** The blocks of a recovery item are all of its memory. *)
Lemma recovery_blocks_length r bs :
  Item.recovery_blocks r bs -> Z.of_nat (length (Item.raw r)) = 4 + Item.sizeof_BackupItem * Item.count r.
Proof.
  intros (Hraw & HF & Hlen). rewrite Hraw, length_app, length_le_bytes, (length_concat_blocks 288) by done.
  rewrite <- Hlen. change (Item.sizeof_BackupItem) with 288. lia.
Qed.

Lemma mem_read_all l n : Z.of_nat (length l) = n -> mem_read l 0 n = Ok l.
Proof. intros <-. rewrite mem_read_ok by lia. change (Z.to_nat 0) with 0%nat. by rewrite drop_0, Nat2Z.id, firstn_all. Qed.

Lemma recv_into_all old n msg :
  Z.of_nat (length msg) = n -> length old = length msg -> Client.recv_into old n msg = msg.
Proof.
  intros <- Hlen. unfold Client.recv_into. rewrite Nat2Z.id, firstn_all. cbv zeta.
  rewrite drop_ge by lia. apply app_nil_r.
Qed.

Section Retrieve.
Context (malloc : nat -> list Z) (garbage stack : Item.BackupItem) (num_sender w : Z).
Hypothesis Hmalloc : forall n, length (malloc n) = n.
Hypothesis Hw : in_unsigned 16 w.
Hypothesis Hstack : forall op, in_unsigned 32 op -> Item.item_wf (Client.request_item stack w op).

(** What the server decodes from a request. *)
Lemma request_received s op msg :
  buffer_wf (Item.bdata (backup_item s)) -> in_unsigned 32 op ->
  Item.item_message (Client.request_item stack w op) = Ok msg ->
  let it := Item.item_receive (backup_item s) msg in
  Item.backup_op (Item.info it) = op /\ Item.worker_id (Item.info it) = w /\ buffer_wf (Item.bdata it).
Proof.
  intros Hbuf Hop Hmsg. destruct (Item.item_receive_same _ _ _ Hbuf (Hstack op Hop) Hmsg) as [(Hi & _) Hwf].
  cbv zeta. rewrite Hi. split_and!; try done. by destruct Hwf.
Qed.

Lemma exchange_count s labels ms :
  server_inv s labels ms -> Z.of_nat (length (worker_items s w)) < 2 ^ 32 ->
  exists s', Client.exchange malloc garbage num_sender s (Client.request_item stack w 1)
      = Ok (le_bytes 4 (Z.of_nat (length (worker_items s w))), s') /\
    server_inv s' labels ms /\ (forall l k, stored s' l k = stored s l k) /\ worker_items s' w = worker_items s w.
Proof.
  intros Hs Hlt. unfold Client.exchange.
  destruct (Item.item_message (Client.request_item stack w 1)) as [msg|] eqn:Hmsg;
    [|by rewrite Item.item_message_wf in Hmsg by (by apply Hstack)].
  cbn [mbind result_bind]. pose proof Hs as [].
  destruct (request_received s 1 msg si_item0 ltac:(done) Hmsg) as (Hop & Hid & Hbuf).
  unfold handle. set (it := Item.item_receive (backup_item s) msg) in *. clearbody it.
  rewrite Hop, Hid. cbn [Z.eqb Pos.eqb].
  set (s0 := {| contents := contents s; backup_item := it |}).
  assert (Hs0 : server_inv s0 labels ms) by (by split).
  destruct (with_worker_same s0 labels ms w Hs0 Hw) as (Hs1 & Hst & Hv & Hit). rewrite Hv.
  change (worker_vector s0 w) with (worker_vector s w) in *.
  assert (Hps : forall p, p ∈ worker_vector s w -> (p < length labels)%nat).
  { intros p Hp. rewrite si_worker0 in Hp by done. apply list_elem_of_filter in Hp as [_ Hp].
    apply elem_of_seq in Hp. lia. }
  rewrite (total_count_ok _ labels ms Hs1 _ Hps); rewrite Hit; [|done].
  cbn [mbind result_bind reply srv]. eexists. split; [reflexivity|]. split; [done|]. split; [done|].
  unfold worker_items. by rewrite Hv, Hit.
Qed.

Lemma exchange_data s labels ms :
  server_inv s labels ms -> Item.sizeof_BackupItem * Z.of_nat (length (worker_items s w)) + 4 < 2 ^ 32 ->
  exists s' r, Client.exchange malloc garbage num_sender s (Client.request_item stack w 2)
      = Ok (Item.raw r, s') /\
    server_inv s' labels ms /\ (forall l k, stored s' l k = stored s l k) /\
    filled r (worker_items s w) /\ Item.count r = Z.of_nat (length (worker_items s w)).
Proof.
  intros Hs Hlt. unfold Client.exchange. change Item.sizeof_BackupItem with 288 in Hlt.
  destruct (Item.item_message (Client.request_item stack w 2)) as [msg|] eqn:Hmsg;
    [|by rewrite Item.item_message_wf in Hmsg by (by apply Hstack)].
  cbn [mbind result_bind]. pose proof Hs as [].
  destruct (request_received s 2 msg si_item0 ltac:(done) Hmsg) as (Hop & Hid & Hbuf).
  unfold handle. set (it := Item.item_receive (backup_item s) msg) in *. clearbody it.
  rewrite Hop, Hid. cbn [Z.eqb Pos.eqb].
  set (s0 := {| contents := contents s; backup_item := it |}).
  assert (Hs0 : server_inv s0 labels ms) by (by split).
  destruct (with_worker_same s0 labels ms w Hs0 Hw) as (Hs1 & Hst & Hv & Hit). rewrite Hv.
  change (worker_vector s0 w) with (worker_vector s w) in *.
  assert (Hps : forall p, p ∈ worker_vector s w -> (p < length labels)%nat).
  { intros p Hp. rewrite si_worker0 in Hp by done. apply list_elem_of_filter in Hp as [_ Hp].
    apply elem_of_seq in Hp. lia. }
  change (items_of s0 (worker_vector s w)) with (worker_items s w) in *.
  rewrite (total_count_ok _ labels ms Hs1 _ Hps); rewrite Hit;
    change (items_of s0 (worker_vector s w)) with (worker_items s w); [|lia].
  cbn [mbind result_bind].
  destruct (Item.new_RecoveryItem_blocks malloc (Z.of_nat (length (worker_items s w))))
    as (r & bs & -> & Hrc & Hrb); [done|lia|change Item.sizeof_BackupItem with 288; lia|].
  cbn [mbind result_bind].
  destruct (append_all_ok _ labels ms Hs1 _ r Hps) as (r' & n & -> & Hfl & Hrc').
  { exists bs. split; [done|]. by intros i x Hx. }
  { lia. }
  { by rewrite Hit, Hrc. }
  rewrite Hit in Hfl. change (items_of s0 (worker_vector s w)) with (worker_items s w) in Hfl.
  cbn [mbind result_bind fst snd]. pose proof Hfl as (bs' & Hbs' & _).
  rewrite mem_read_all.
  - cbn [mbind result_bind reply srv]. eexists _, r'. split; [reflexivity|]. split; [done|]. split; [done|].
    split; [done|]. congruence.
  - rewrite (recovery_blocks_length _ _ Hbs'), Hrc', Hrc. unfold Item.recovery_size.
    change Item.sizeof_BackupItem with 288. symmetry. apply unsigned_of_small. unfold in_unsigned. lia.
Qed.

Lemma filled_slot r its i it :
  filled r its -> its !! i = Some it ->
  exists it', Item.GetSlot r (Z.of_nat i) = Ok it' /\ Item.same_item it' it /\ Item.item_wf it'.
Proof.
  intros (bs & Hbs & Hall) Hi. destruct (Hall i it Hi) as (it' & Hb & Hsame & Hwf).
  exists it'. split; [|done]. rewrite (Item.GetSlot_block r bs i _ Hbs Hb). f_equal.
  unfold Item.item_bytes. rewrite Item.item_at_bytes by done. by destruct it' as [? []].
Qed.

(** The client gets the worker's items. *)
Lemma RetriveBackups_items s labels ms :
  server_inv s labels ms -> Item.sizeof_BackupItem * Z.of_nat (length (worker_items s w)) + 4 < 2 ^ 32 ->
  exists r s', Client.RetriveBackups malloc garbage stack num_sender w s = Ok (r, s') /\
    server_inv s' labels ms /\ (forall l k, stored s' l k = stored s l k) /\
    Item.GetCount r = Ok (Z.of_nat (length (worker_items s w))) /\ filled r (worker_items s w).
Proof.
  intros Hs Hlt. unfold Client.RetriveBackups. change Item.sizeof_BackupItem with 288 in Hlt.
  destruct (exchange_count s labels ms Hs) as (s1 & -> & Hs1 & Hst1 & Hit1); [lia|].
  cbn [mbind result_bind fst snd].
  destruct (exchange_data s1 labels ms Hs1) as (s2 & r & -> & Hs2 & Hst2 & Hfl & Hc).
  { rewrite Hit1. change Item.sizeof_BackupItem with 288. lia. }
  cbn [mbind result_bind fst snd]. rewrite Hit1 in *.
  assert (Hcount : le_val (Client.recv_into (le_bytes 4 0) 4 (le_bytes 4 (Z.of_nat (length (worker_items s w)))))
                   = Z.of_nat (length (worker_items s w))).
  { rewrite recv_into_all by (rewrite ?length_le_bytes; done). rewrite le_val_bytes. apply Z.mod_small.
    change (256 ^ Z.of_nat 4) with (2 ^ 32). lia. }
  rewrite Hcount. cbv zeta.
  destruct (Item.new_RecoveryItem_blocks malloc (Z.of_nat (length (worker_items s w))))
    as (ri & bs & -> & Hric & Hrib); [done|lia|change Item.sizeof_BackupItem with 288; lia|].
  cbn [mbind result_bind]. pose proof Hfl as (bs' & Hbs' & _).
  pose proof (recovery_blocks_length _ _ Hbs') as Hl1. pose proof (recovery_blocks_length _ _ Hrib) as Hl2.
  rewrite recv_into_all; [| |lia].
  - destruct r as [raw cnt]. cbn [Item.raw Item.count] in *. rewrite <- Hc.
    eexists _, s2. split; [reflexivity|]. split; [done|]. split; [intros; by rewrite Hst2|].
    split; [|done]. apply (Item.GetCount_blocks _ _ Hbs'). cbn [Item.count]. unfold in_unsigned. lia.
  - rewrite Hl1, Hc. unfold Item.recovery_size.
    change Item.sizeof_BackupItem with 288. symmetry. apply unsigned_of_small. unfold in_unsigned. lia.
Qed.

End Retrieve.

(** ** Replaying the items *)

(** The operator at a position of [operators_]. *)
Definition op_at {S} (ops : list (list S)) (th o : nat) : option S := v ← ops !! th; v !! o.

(** An entry that says "the value at [i] is [v]". *)
Definition says (e : entry) (i v : Z) : Prop :=
  e.1.2 = {| Item.len := 12; Item.key := i |} /\ e.2 = le_bytes 4 i ++ le_bytes 8 v /\ small v.

Definition entry_value (oe : option entry) (i v : Z) : Prop :=
  match oe with Some e => says e i v | None => v = 0 end.

Lemma says_encodes it i v : Item.item_wf it -> says (strip it) i v -> encodes (Item.bdata it) i v.
Proof.
  intros Hwf (Hm & Hp & _). unfold strip in *. cbn [fst snd] in *. unfold encodes. rewrite Hm.
  split; [done|]. split; [done|]. exists (drop 12 (Item.data (Item.bdata it))).
  rewrite app_assoc, <- Hp. unfold Item.payload. rewrite Hm. cbn [Item.len].
  change (Z.to_nat 12) with 12%nat. by rewrite take_drop.
Qed.

Section Replay.
Context {S : Type} `{!FTInterface S} `{!FTSpec S}.
Implicit Types ops orig : list (list S).

Lemma op_at_insert ops th v o x th' o' :
  ops !! th = Some v -> (o < length v)%nat ->
  op_at (<[th := <[o := x]> v]> ops) th' o' =
    if decide (th' = th /\ o' = o) then Some x else op_at ops th' o'.
Proof.
  intros Hv Ho. unfold op_at. destruct (decide (th' = th)) as [->|Hne].
  - rewrite list_lookup_insert_eq by (by eapply lookup_lt_Some). rewrite Hv. simpl.
    destruct (decide (o' = o)) as [->|Hne].
    + rewrite decide_True by done. by apply list_lookup_insert_eq.
    + rewrite decide_False by (by intros [_ ?]). by apply list_lookup_insert_ne.
  - rewrite list_lookup_insert_ne by done. by rewrite decide_False by (by intros [? _]).
Qed.

(** The server keeps for every operator of the worker what the operator
    believes to be backed up, and nothing else. *)
Record mirrors (srv : server) (w : Z) (orig : list (list S)) : Prop := {
  mr_value : forall th o s0 i v, op_at orig th o = Some s0 -> backed s0 !! i = Some v ->
    entry_value (stored srv (w, Z.of_nat th, Z.of_nat o) (Z.of_nat i)) (Z.of_nat i) v;
  mr_key : forall l k e, label_range l -> l.1.1 = w -> stored srv l k = Some e ->
    exists s0, op_at orig (Z.to_nat l.1.2) (Z.to_nat l.2) = Some s0 /\ 0 <= k < Z.of_nat (length (backed s0))
}.

(** [ops] is a freshly started copy of [orig]: the same operators, all zero. *)
Record fresh_copy (orig ops : list (list S)) : Prop := {
  fc_shape : forall th o s0, op_at orig th o = Some s0 ->
    exists s1, op_at ops th o = Some s1 /\ op_inv s1 /\ live s1 = replicate (length (backed s0)) 0 /\
      backed s1 = replicate (length (backed s0)) 0
}.

(** The state of the replay after the items [done]. *)
Definition replayed (w : Z) (orig ops : list (list S)) (done : list Item.BackupItem) : Prop :=
  forall th o s0, op_at orig th o = Some s0 ->
    exists s1, op_at ops th o = Some s1 /\ op_inv s1 /\ live s1 = backed s1 /\
      length (live s1) = length (backed s0) /\
      forall i, (i < length (backed s0))%nat ->
        live s1 !! i =
          if decide (((w, Z.of_nat th, Z.of_nat o), Z.of_nat i) ∈ name_of <$> done) then backed s0 !! i else Some 0.

Lemma replayed_step srv w orig t it done :
  mirrors srv w orig -> Tracker.worker_id_ t = w ->
  Item.item_wf it -> label_range (label_of it) -> (label_of it).1.1 = w ->
  stored srv (label_of it) (key_of it) = Some (strip it) ->
  replayed w orig (Tracker.operators_ t) done ->
  exists t', Tracker.recover_one t it = Ok t' /\ Tracker.worker_id_ t' = w /\
    replayed w orig (Tracker.operators_ t') (done ++ [it]).
Proof.
  intros Hmir Hw Hwf Hr Hlw Hst Hrep.
  destruct (mr_key _ _ _ Hmir _ _ _ Hr Hlw Hst) as (s0 & Hs0 & Hk).
  set (th := Z.to_nat (label_of it).1.2) in *. set (o := Z.to_nat (label_of it).2) in *.
  destruct (Hrep th o s0 Hs0) as (s1 & Hs1 & Hinv & Hlb & Hlen & Hval).
  assert (Hlab : label_of it = (w, Z.of_nat th, Z.of_nat o)).
  { destruct Hr as (_ & Ht & Ho). unfold in_unsigned in *. subst th o. rewrite !Z2Nat.id by lia.
    rewrite <- Hlw. by destruct (label_of it) as [[? ?] ?]. }
  set (i := Z.to_nat (key_of it)). assert (Hi : key_of it = Z.of_nat i) by lia.
  destruct (lookup_lt_is_Some_2 (backed s0) i) as [v Hv]; [lia|].
  pose proof (mr_value _ _ _ Hmir th o s0 i v Hs0 Hv) as Hval'. rewrite <- Hlab, <- Hi, Hst in Hval'.
  cbn [entry_value] in Hval'. pose proof (says_encodes it _ v Hwf Hval') as Henc. rewrite Hi in Henc.
  destruct (spec_recover s1 (Item.bdata it) i v Hinv Hlb Henc) as (s2 & Hrec & Hinv2 & Hl2 & Hb2 & _);
    [lia|by destruct Hval' as (_ & _ & ?)|].
  unfold Tracker.recover_one.
  assert (Hwid : Item.worker_id (Item.info it) = w) by exact Hlw.
  rewrite Hwid, Hw, Z.eqb_refl. cbn [negb].
  assert (Htid : Item.thread_id (Item.info it) = Z.of_nat th) by (change (Item.thread_id (Item.info it)) with (label_of it).1.2; by rewrite Hlab).
  assert (Hoid : Item.op_index (Item.info it) = Z.of_nat o) by (change (Item.op_index (Item.info it)) with (label_of it).2; by rewrite Hlab).
  rewrite Htid, Hoid. unfold op_at in Hs1.
  destruct (Tracker.operators_ t !! th) as [vec|] eqn:Hvec; [|done]. simpl in Hs1.
  rewrite (proj2 (at_index_ok _ (Z.of_nat th) vec)) by (rewrite Nat2Z.id; split; [lia|done]).
  cbn [mbind result_bind]. rewrite Nat2Z.id, Hs1, Hrec. cbn [mbind result_bind].
  rewrite set_index_ok by (apply lookup_lt_Some in Hvec; lia). cbn [mbind result_bind]. rewrite Nat2Z.id.
  eexists. split; [reflexivity|]. split; [done|]. cbn [Tracker.operators_].
  intros th' o' s0' Hs0'. rewrite (op_at_insert _ _ _ _ _ _ _ Hvec) by (by eapply lookup_lt_Some).
  assert (Hmem : forall x, x ∈ name_of <$> (done ++ [it]) <->
    x ∈ name_of <$> done \/ x = ((w, Z.of_nat th, Z.of_nat o), Z.of_nat i)).
  { intros x. rewrite fmap_app, elem_of_app. cbn [fmap list_fmap]. rewrite list_elem_of_singleton.
    unfold name_of at 2. by rewrite Hlab, Hi. }
  destruct (decide (th' = th /\ o' = o)) as [[-> ->]|Hne].
  - rewrite Hs0 in Hs0'. injection Hs0' as <-. exists s2. split; [done|]. split; [done|].
    split; [by rewrite Hl2, Hb2, Hlb|]. split; [by rewrite Hl2, length_insert|].
    intros j Hj. rewrite Hl2. destruct (decide (j = i)) as [->|Hji].
    + rewrite list_lookup_insert_eq by lia. rewrite decide_True; [done|].
      apply Hmem. by right.
    + rewrite list_lookup_insert_ne by done. rewrite Hval by done. apply decide_ext.
      rewrite Hmem. split; [tauto|]. intros [?|[=]]; [done|lia].
  - destruct (Hrep th' o' s0' Hs0') as (s1' & H1 & H2 & H3 & H4 & H5). exists s1'.
    do 4 (split; [done|]). intros j Hj. rewrite H5 by done. apply decide_ext.
    rewrite Hmem. split; [tauto|]. intros [?|[=]]; [done|].
    exfalso. apply Hne. split; lia.
Qed.

End Replay.

(** The loop of [RecoverOps] replays the slots in order. *)
Lemma RecoverOps_replayed {S} `{!FTInterface S} `{!FTSpec S} srv w (orig : list (list S)) t r its :
  mirrors srv w orig -> Tracker.worker_id_ t = w ->
  (forall it, it ∈ its -> label_range (label_of it) /\ (label_of it).1.1 = w /\
     stored srv (label_of it) (key_of it) = Some (strip it)) ->
  filled r its -> Item.GetCount r = Ok (Z.of_nat (length its)) ->
  replayed w orig (Tracker.operators_ t) [] ->
  exists t' dn, Tracker.RecoverOps t r = Ok t' /\ replayed w orig (Tracker.operators_ t') dn /\
    name_of <$> dn = name_of <$> its.
Proof.
  intros Hmir Hw Hits Hfl Hcnt Hrep. unfold Tracker.RecoverOps. rewrite Hcnt. cbn [mbind result_bind].
  rewrite Nat2Z.id.
  destruct (foldM_inv (fun ds t' => Tracker.worker_id_ t' = w /\ exists dn,
      replayed w orig (Tracker.operators_ t') dn /\ name_of <$> dn = name_of <$> take (length ds) its)
    (fun t i => it ← Item.GetSlot r i; Tracker.recover_one t it) (indices (length its)) t)
    as (t' & Hrun & _ & dn & Hd & Hn).
  - split; [done|]. exists []. done.
  - intros ds i t1 (Hw1 & dn & Hd & Hn) Hpre.
    destruct (indices_prefix _ _ _ Hpre) as [-> Hlt].
    destruct (lookup_lt_is_Some_2 its (length ds)) as [it Hit]; [done|].
    destruct (filled_slot r its (length ds) it Hfl Hit) as (it' & -> & Hsame & Hwf'). cbn [mbind result_bind].
    destruct (Hits it) as (Hr & Hlw & Hst); [by eapply list_elem_of_lookup_2|].
    rewrite <- (same_item_label _ _ Hsame), <- (same_item_key _ _ Hsame), <- (strip_proper _ _ Hsame) in *.
    destruct (replayed_step srv w orig t1 it' dn Hmir Hw1 Hwf' Hr Hlw Hst Hd) as (t2 & -> & Hw2 & Hd2).
    exists t2. split; [done|]. split; [done|]. exists (dn ++ [it']). split; [done|].
    rewrite length_app. cbn [length]. rewrite Nat.add_1_r, (take_S_r _ _ it Hit), !fmap_app, Hn. f_equal.
    cbn [fmap list_fmap]. unfold name_of. by rewrite (same_item_label _ _ Hsame), (same_item_key _ _ Hsame).
  - exists t', dn. split; [done|]. split; [done|]. rewrite Hn. f_equal. apply take_ge.
    unfold indices. rewrite length_fmap, length_seq. done.
Qed.

Lemma fresh_replayed {S} `{!FTInterface S} `{!FTSpec S} w (orig ops : list (list S)) :
  fresh_copy orig ops -> replayed w orig ops [].
Proof.
  intros [H] th o s0 Hs0. destruct (H th o s0 Hs0) as (s1 & H1 & H2 & H3 & H4). exists s1.
  split; [done|]. split; [done|]. split; [by rewrite H3, H4|]. split; [by rewrite H3, length_replicate|].
  intros i Hi. rewrite decide_False by (by apply not_elem_of_nil). rewrite H3. by apply lookup_replicate_2.
Qed.

(** Fetching and replaying gives every operator what it had backed up. *)
Lemma recovery_run {S} `{!FTInterface S} `{!FTSpec S} malloc garbage stack num_sender srv w
    (orig : list (list S)) (t : Tracker.OperatorTracker S) :
  (forall n, length (malloc n) = n) ->
  (forall op, in_unsigned 32 op -> Item.item_wf (Client.request_item stack w op)) ->
  server_ok srv -> in_unsigned 16 w -> mirrors srv w orig ->
  (forall th o s0, op_at orig th o = Some s0 -> label_range (w, Z.of_nat th, Z.of_nat o)) ->
  Item.sizeof_BackupItem * Z.of_nat (length (worker_items srv w)) + 4 < 2 ^ 32 ->
  Tracker.worker_id_ t = w -> fresh_copy orig (Tracker.operators_ t) ->
  exists r srv' t', Client.RetriveBackups malloc garbage stack num_sender w srv = Ok (r, srv') /\
    Tracker.RecoverOps t r = Ok t' /\
    forall th o s0, op_at orig th o = Some s0 ->
      exists s1, op_at (Tracker.operators_ t') th o = Some s1 /\ op_inv s1 /\
        live s1 = backed s0 /\ backed s1 = backed s0.
Proof.
  intros Hmalloc Hstack (labels & ms & Hs) Hw Hmir Hlab Hsize Htw Hfresh.
  destruct (RetriveBackups_items malloc garbage stack num_sender w Hmalloc Hw Hstack srv labels ms Hs Hsize)
    as (r & srv' & Hret & _ & _ & Hcnt & Hfl).
  destruct (worker_items_spec srv labels ms w Hs Hw) as (_ & Hits & Hall).
  destruct (RecoverOps_replayed srv w orig t r (worker_items srv w) Hmir Htw) as (t' & dn & Hrun & Hrep & Hnames);
    [intros it Hit; by destruct (Hits it Hit) as (_ & ? & ? & ?)|done|done|by apply fresh_replayed|].
  exists r, srv', t'. split; [done|]. split; [done|]. intros th o s0 Hs0.
  destruct (Hrep th o s0 Hs0) as (s1 & H1 & H2 & H3 & H4 & H5).
  assert (Hlive : live s1 = backed s0).
  { apply list_eq. intros i. destruct (decide (i < length (backed s0))%nat) as [Hi|Hi].
    2: { rewrite !lookup_ge_None_2 by lia. done. }
    rewrite H5 by done. destruct (decide _) as [_|Hn]; [done|].
    destruct (lookup_lt_is_Some_2 (backed s0) i Hi) as [v Hv]. rewrite Hv.
    pose proof (mr_value _ _ _ Hmir th o s0 i v Hs0 Hv) as Hval.
    destruct (stored srv (w, Z.of_nat th, Z.of_nat o) (Z.of_nat i)) as [e|] eqn:Hst; cbn in Hval; [|congruence].
    exfalso. apply Hn. rewrite Hnames.
    destruct (Hall _ _ _ (Hlab th o s0 Hs0) eq_refl Hst) as (it & Hit & Hl & Hk & _).
    apply list_elem_of_fmap. exists it. unfold name_of. by rewrite Hl, Hk. }
  exists s1. split_and!; try done. by rewrite <- H3.
Qed.

(** ** Keeping the mirror *)

Section Mirror.
Context {S : Type} `{!FTInterface S} `{!FTSpec S}.
Implicit Types orig : list (list S).

(** The mirror depends on the backed-up arrays only. *)
Lemma mirrors_ext srv w orig orig' :
  (forall th o, backed <$> op_at orig' th o = backed <$> op_at orig th o) ->
  mirrors srv w orig -> mirrors srv w orig'.
Proof.
  intros Heq [Hv Hk]. split.
  - intros th o s0 i v Hs Hb. specialize (Heq th o). rewrite Hs in Heq. simpl in Heq.
    destruct (op_at orig th o) as [s1|] eqn:E; [|done]. simpl in Heq. injection Heq as Heq.
    apply (Hv th o s1); [done|congruence].
  - intros l k e Hl Hw He. destruct (Hk l k e Hl Hw He) as (s1 & Hs1 & Hr).
    specialize (Heq (Z.to_nat l.1.2) (Z.to_nat l.2)). rewrite Hs1 in Heq. simpl in Heq.
    destruct (op_at orig' _ _) as [s0|] eqn:E; [|done]. simpl in Heq. injection Heq as Heq.
    exists s0. split; [done|]. by rewrite Heq.
Qed.

(** Storing the entry an operator has just marked keeps the mirror. *)
Lemma mirrors_save srv srv' w orig orig' (th o : nat) s0 s1 (j : nat) v e :
  mirrors srv w orig -> op_at orig th o = Some s0 -> backed s1 = <[j := v]> (backed s0) ->
  (j < length (backed s0))%nat -> says e (Z.of_nat j) v -> label_range (w, Z.of_nat th, Z.of_nat o) ->
  (forall th o s, op_at orig th o = Some s -> label_range (w, Z.of_nat th, Z.of_nat o)) ->
  (forall th' o', op_at orig' th' o' = if decide (th' = th /\ o' = o) then Some s1 else op_at orig th' o') ->
  (forall l k, label_range l -> stored srv' l k =
     if decide (l = (w, Z.of_nat th, Z.of_nat o) /\ k = Z.of_nat j) then Some e else stored srv l k) ->
  mirrors srv' w orig'.
Proof.
  intros [Hv Hk] Hs0 Hb Hj He Hlr Hrange Hops Hst. split.
  - intros th' o' s i x Hs Hx. rewrite Hops in Hs.
    destruct (decide (th' = th /\ o' = o)) as [[-> ->]|Hne].
    + injection Hs as <-. rewrite Hb in Hx. rewrite Hst by done.
      destruct (decide (i = j)) as [->|Hij].
      * rewrite list_lookup_insert_eq in Hx by done. injection Hx as <-. by rewrite decide_True.
      * rewrite list_lookup_insert_ne in Hx by done. rewrite decide_False by (intros [_ ?]; lia).
        by apply (Hv th o s0).
    + rewrite Hst by (by eapply Hrange). rewrite decide_False; [by apply (Hv th' o' s)|].
      intros [[= H1 H2] _]. apply Hne. lia.
  - intros l k e' Hl Hw He'. rewrite Hst in He' by done. rewrite Hops.
    destruct (decide (l = (w, Z.of_nat th, Z.of_nat o) /\ k = Z.of_nat j)) as [[-> ->]|Hne].
    + cbn [fst snd]. rewrite !Nat2Z.id, decide_True by done. exists s1. split; [done|].
      rewrite Hb, length_insert. lia.
    + destruct (Hk l k e' Hl Hw He') as (s & Hs & Hr).
      destruct (decide _) as [[H1 H2]|_]; [|by exists s].
      rewrite H1, H2, Hs0 in Hs. injection Hs as <-. exists s1. split; [done|]. by rewrite Hb, length_insert.
Qed.

(** A server that mirrors arrays of a bounded length has room. *)
Lemma mirrors_room srv w orig (th o : nat) s0 :
  server_ok srv -> mirrors srv w orig -> label_range (w, Z.of_nat th, Z.of_nat o) ->
  op_at orig th o = Some s0 -> Z.of_nat (length (backed s0)) < 2 ^ 30 ->
  has_room srv (w, Z.of_nat th, Z.of_nat o).
Proof.
  intros (labels & ms & Hs) [_ Hk] Hl Hs0 Hlen p c Hp Hc. pose proof Hs as [].
  apply si_ops0 in Hp; [|done].
  destruct (lookup_lt_is_Some_2 ms p) as [m Hm]; [apply lookup_lt_Some in Hp; lia|].
  destruct (si_content0 p c m _ Hc Hm Hp) as [Hci Hml].
  assert (Hsub : (key_of <$> content_items srv p) ⊆+ seqZ 0 (Z.of_nat (length (backed s0)))).
  { unfold content_items. rewrite Hc. apply NoDup_submseteq.
    - destruct (content_items_names c m _ Hci Hml) as [Hnd HF].
      apply NoDup_fmap_2_strong; [|by apply NoDup_fmap_1 in Hnd].
      intros x y Hx Hy Hxy. eapply (NoDup_fmap_inj_in name_of); [exact Hnd|done|done|].
      rewrite Forall_forall in HF. unfold name_of.
      destruct (HF x) as [-> _]; [done|]. destruct (HF y) as [-> _]; [done|]. by rewrite Hxy.
    - intros k Hin. apply list_elem_of_fmap in Hin as (it & -> & Hit).
      apply list_elem_of_lookup in Hit as [i Hi].
      destruct (content_items_lookup c m i it Hci Hi) as (_ & _ & Hmk).
      destruct (Hk (w, Z.of_nat th, Z.of_nat o) (key_of it) (strip it)) as (s1 & Hs1 & Hr); [done|done| |].
      + by rewrite (stored_spec srv labels ms _ p m _ Hs Hl Hp Hm).
      + cbn [fst snd] in Hs1. rewrite !Nat2Z.id, Hs0 in Hs1. injection Hs1 as <-. apply elem_of_seqZ. lia. }
  apply submseteq_length in Hsub. rewrite length_fmap, length_seqZ in Hsub.
  pose proof (content_items_length srv c p m Hc Hci). lia.
Qed.

End Mirror.

(** ** Theorems *)

(** C4 The backup server is a store of entries: a backup message with a payload
    is always accepted and answered, it becomes the value stored for its
    (worker, thread, operator) and key, and what is stored under any other
    triple or key stays as it was. *)
Theorem backup_is_stored malloc garbage num_sender (s : server) (it : Item.BackupItem) :
  server_ok s -> has_room s (label_of it) -> buffer_wf (Item.bdata garbage) ->
  Item.item_wf it -> label_range (label_of it) ->
  Item.backup_op (Item.info it) = 0 -> Item.len (Item.meta (Item.bdata it)) <> 0 ->
  exists s', Client.MakeBackup malloc garbage num_sender s it = Ok s' /\ server_ok s' /\
    forall l k, label_range l ->
      stored s' l k = if decide (l = label_of it /\ k = key_of it) then Some (strip it) else stored s l k.
Proof. apply MakeBackup_stored. Qed.

(** C3 A worker that starts again gets back what it had backed up: when the
    server mirrors what the operators believe to be saved, [RetriveBackups]
    returns and [RecoverOps] replays its items on freshly registered operators
    without failing, after which every operator's state is the backed-up one. *)
Theorem recovery_restores_backups {S} `{!FTInterface S} `{!FTSpec S} malloc garbage stack num_sender srv w
    (orig : list (list S)) (t : Tracker.OperatorTracker S) :
  (forall n, length (malloc n) = n) ->
  (forall op, in_unsigned 32 op -> Item.item_wf (Client.request_item stack w op)) ->
  server_ok srv -> in_unsigned 16 w -> mirrors srv w orig ->
  (forall th o s0, op_at orig th o = Some s0 -> label_range (w, Z.of_nat th, Z.of_nat o)) ->
  Item.sizeof_BackupItem * Z.of_nat (length (worker_items srv w)) + 4 < 2 ^ 32 ->
  Tracker.worker_id_ t = w -> fresh_copy orig (Tracker.operators_ t) ->
  exists r srv' t', Client.RetriveBackups malloc garbage stack num_sender w srv = Ok (r, srv') /\
    Tracker.RecoverOps t r = Ok t' /\
    forall th o s0, op_at orig th o = Some s0 ->
      exists s1, op_at (Tracker.operators_ t') th o = Some s1 /\ op_inv s1 /\
        live s1 = backed s0 /\ backed s1 = backed s0.
Proof. apply recovery_run. Qed.

(** C5 What [RetriveBackups] returns is the set of entries stored for the
    worker: the count is exact, every slot is such an entry with its header and
    payload intact, every entry of the worker has a slot, no two slots are for
    the same operator and key, and the server's contents stay. *)
Theorem retrieve_is_exact malloc garbage stack num_sender (s : server) w :
  (forall n, length (malloc n) = n) ->
  (forall op, in_unsigned 32 op -> Item.item_wf (Client.request_item stack w op)) ->
  server_ok s -> in_unsigned 16 w ->
  Item.sizeof_BackupItem * Z.of_nat (length (worker_items s w)) + 4 < 2 ^ 32 ->
  exists r s' n, Client.RetriveBackups malloc garbage stack num_sender w s = Ok (r, s') /\ server_ok s' /\
    (forall l k, stored s' l k = stored s l k) /\ Item.GetCount r = Ok (Z.of_nat n) /\
    (forall i : nat, (i < n)%nat -> exists it, Item.GetSlot r (Z.of_nat i) = Ok it /\
       (label_of it).1.1 = w /\ stored s (label_of it) (key_of it) = Some (strip it)) /\
    (forall l k e, label_range l -> l.1.1 = w -> stored s l k = Some e ->
       exists (i : nat) it, (i < n)%nat /\ Item.GetSlot r (Z.of_nat i) = Ok it /\
         label_of it = l /\ key_of it = k /\ strip it = e) /\
    (forall (i j : nat) x y, (i < n)%nat -> (j < n)%nat ->
       Item.GetSlot r (Z.of_nat i) = Ok x -> Item.GetSlot r (Z.of_nat j) = Ok y ->
       label_of x = label_of y -> key_of x = key_of y -> i = j).
Proof.
  intros Hmalloc Hstack (labels & ms & Hs) Hw Hsize.
  destruct (RetriveBackups_items malloc garbage stack num_sender w Hmalloc Hw Hstack s labels ms Hs Hsize)
    as (r & s' & Hret & Hs' & Hst & Hcnt & Hfl).
  destruct (worker_items_spec s labels ms w Hs Hw) as (Hnd & Hits & Hall).
  exists r, s', (length (worker_items s w)). split; [done|]. split; [by exists labels, ms|].
  split; [done|]. split; [done|].
  assert (Hslot : forall i : nat, (i < length (worker_items s w))%nat -> exists x it,
    worker_items s w !! i = Some x /\ Item.GetSlot r (Z.of_nat i) = Ok it /\ Item.same_item it x).
  { intros i Hi. destruct (lookup_lt_is_Some_2 (worker_items s w) i Hi) as [x Hx].
    destruct (filled_slot r _ i x Hfl Hx) as (it & Hit & Hsame & _). eauto. }
  split; [|split].
  - intros i Hi. destruct (Hslot i Hi) as (x & it & Hx & Hit & Hsame). exists it. split; [done|].
    destruct (Hits x) as (_ & _ & Hxw & Hxs); [by eapply list_elem_of_lookup_2|].
    by rewrite (same_item_label _ _ Hsame), (same_item_key _ _ Hsame), (strip_proper _ _ Hsame).
  - intros l k e Hl Hlw He. destruct (Hall l k e Hl Hlw He) as (x & Hx & H1 & H2 & H3).
    apply list_elem_of_lookup in Hx as [i Hx].
    destruct (Hslot i) as (x' & it & Hx' & Hit & Hsame); [by eapply lookup_lt_Some|].
    assert (x' = x) as -> by congruence. exists i, it. split; [by eapply lookup_lt_Some|]. split; [done|].
    by rewrite (same_item_label _ _ Hsame), (same_item_key _ _ Hsame), (strip_proper _ _ Hsame).
  - intros i j x y Hi Hj Hx Hy Hl Hk.
    destruct (Hslot i Hi) as (x' & itx & Hx' & Hitx & Hsx), (Hslot j Hj) as (y' & ity & Hy' & Hity & Hsy).
    assert (itx = x) as -> by congruence. assert (ity = y) as -> by congruence.
    apply (NoDup_lookup (name_of <$> worker_items s w) i j (name_of x') Hnd);
      rewrite list_lookup_fmap, ?Hx', ?Hy'; cbn; [done|].
    f_equal. unfold name_of. rewrite <- (same_item_label _ _ Hsx), <- (same_item_key _ _ Hsx),
      <- (same_item_label _ _ Hsy), <- (same_item_key _ _ Hsy). by rewrite Hl, Hk.
Qed.

(** ** Witnesses *)

(** The backup of entry 0 with value 9 by operator 0 of thread 0 of worker 0. *)
Definition sample_item : Item.BackupItem :=
  {| Item.info := {| Item.backup_op := 0; Item.worker_id := 0; Item.thread_id := 0;
                     Item.op_index := 0; Item.seq := 5 |};
     Item.bdata := {| Item.meta := {| Item.len := 12; Item.key := 0 |};
                      Item.data := le_bytes 4 0 ++ le_bytes 8 9 ++ replicate 244 0 |} |}.

Definition zeros (n : nat) : list Z := replicate n 0.

Definition sample_server : server :=
  match Client.MakeBackup zeros zero_item 1 (new_server zero_item) sample_item with
  | Ok s => s
  | Stop _ => new_server zero_item
  end.

Lemma sample_item_wf : Item.item_wf sample_item.
Proof. by split; vm_compute. Qed.

Lemma sample_label_range : label_range (label_of sample_item).
Proof. by repeat split; vm_compute. Qed.

Lemma sample_server_spec :
  server_ok sample_server /\
  forall l k, label_range l -> stored sample_server l k =
    if decide (l = (0, 0, 0) /\ k = 0) then Some (strip sample_item) else None.
Proof.
  destruct (MakeBackup_stored zeros zero_item 1 (new_server zero_item) sample_item) as (s' & Hrun & Hok & Hst);
    try done; [by apply new_server_ok|].
  unfold sample_server. rewrite Hrun. split; [done|]. intros l k Hl. rewrite Hst by done. done.
Qed.

Lemma request_wf w op : in_unsigned 32 w -> in_unsigned 32 op -> Item.item_wf (Client.request_item zero_item w op).
Proof. intros Hw Hop. by split. Qed.

Lemma backup_is_stored_witness :
  exists s', Client.MakeBackup zeros zero_item 1 (new_server zero_item) sample_item = Ok s' /\ server_ok s' /\
    forall l k, label_range l ->
      stored s' l k = if decide (l = label_of sample_item /\ k = key_of sample_item) then Some (strip sample_item)
                      else stored (new_server zero_item) l k.
Proof.
  apply (backup_is_stored zeros zero_item 1 (new_server zero_item) sample_item); try done;
    by apply new_server_ok.
Defined.

(** An operator that backed up its only entry and then counted on. *)
Definition sample_op : MaxArray.NumericArray_MAX :=
  {| MaxArray.arr_length := 1; MaxArray.array := [11]; MaxArray.backup_array := [9];
     MaxArray.max_diff := 2; MaxArray.max_diff_index := 0; MaxArray.theta := 4 |}.

Definition sample_tracker : Tracker.OperatorTracker MaxArray.NumericArray_MAX :=
  {| Tracker.worker_id_ := 0; Tracker.operators_ := [[MaxArray.new_NumericArray_MAX 4 1]]; Tracker.seed_ := 0 |}.

Lemma sample_op_at th o s : op_at [[sample_op]] th o = Some s -> th = 0%nat /\ o = 0%nat /\ s = sample_op.
Proof.
  unfold op_at. intros H. destruct th as [|th]; [|done]. simpl in H. destruct o as [|o]; [|done].
  by injection H as <-.
Qed.

Lemma sample_mirrors : mirrors sample_server 0 [[sample_op]].
Proof.
  destruct sample_server_spec as [_ Hst]. split.
  - intros th o s0 i v Hs Hv. apply sample_op_at in Hs as (-> & -> & ->).
    rewrite Hst by (by repeat split). destruct i as [|i]; [|done]. simpl in Hv. injection Hv as <-.
    rewrite decide_True by done. by split_and!.
  - intros l k e Hl Hlw He. rewrite Hst in He by done.
    destruct (decide (l = (0, 0, 0) /\ k = 0)) as [[-> ->]|]; [|done].
    exists sample_op. split; [done|]. simpl. lia.
Qed.

Lemma retrieve_is_exact_witness :
  exists r s' n, Client.RetriveBackups zeros zero_item zero_item 1 0 sample_server = Ok (r, s') /\ server_ok s' /\
    (forall l k, stored s' l k = stored sample_server l k) /\ Item.GetCount r = Ok (Z.of_nat n) /\
    (forall i : nat, (i < n)%nat -> exists it, Item.GetSlot r (Z.of_nat i) = Ok it /\
       (label_of it).1.1 = 0 /\ stored sample_server (label_of it) (key_of it) = Some (strip it)) /\
    (forall l k e, label_range l -> l.1.1 = 0 -> stored sample_server l k = Some e ->
       exists (i : nat) it, (i < n)%nat /\ Item.GetSlot r (Z.of_nat i) = Ok it /\
         label_of it = l /\ key_of it = k /\ strip it = e) /\
    (forall (i j : nat) x y, (i < n)%nat -> (j < n)%nat ->
       Item.GetSlot r (Z.of_nat i) = Ok x -> Item.GetSlot r (Z.of_nat j) = Ok y ->
       label_of x = label_of y -> key_of x = key_of y -> i = j).
Proof.
  apply (retrieve_is_exact zeros zero_item zero_item 1 sample_server 0).
  - intros n. apply length_replicate.
  - intros op Hop. by apply request_wf.
  - exact (proj1 sample_server_spec).
  - by vm_compute.
  - by vm_compute.
Defined.

Lemma recovery_restores_backups_witness :
  exists r srv' t', Client.RetriveBackups zeros zero_item zero_item 1 0 sample_server = Ok (r, srv') /\
    Tracker.RecoverOps sample_tracker r = Ok t' /\
    forall th o s0, op_at [[sample_op]] th o = Some s0 ->
      exists s1, op_at (Tracker.operators_ t') th o = Some s1 /\ op_inv s1 /\
        live s1 = backed s0 /\ backed s1 = backed s0.
Proof.
  apply (recovery_restores_backups zeros zero_item zero_item 1 sample_server 0 [[sample_op]] sample_tracker).
  - intros n. apply length_replicate.
  - intros op Hop. by apply request_wf.
  - exact (proj1 sample_server_spec).
  - by vm_compute.
  - exact sample_mirrors.
  - intros th o s0 Hs. apply sample_op_at in Hs as (-> & -> & _). by repeat split.
  - by vm_compute.
  - done.
  - split. intros th o s0 Hs. apply sample_op_at in Hs as (-> & -> & ->).
    exists (MaxArray.new_NumericArray_MAX 4 1). split; [done|]. split; [|done].
    by split; repeat constructor; vm_compute.
Defined.

End BackupSpec.
