(* ===== verification/ComputeThread.v ===== *)
(** The compute thread (src/thread/compute_thread.hpp): one turn of its main
    loop with the feedback loop, the forward queue and the divergence checks,
    the finish protocol, and the backup of an operator through the worker
    (src/thread/worker.hpp).  Items are [WrapItem]s (src/wrap_item.hpp). *)
From stdpp Require Import base numbers list gmap relations.
From Stdlib Require Import ZArith Lia.
From S2P Require Import Prelude BackupItem Operators Backup BackupSpec.

Module Compute.

Inductive ITEM_TYPE := ITEM_NORMAL | ITEM_FINISH | ITEM_TIMEOUT | ITEM_REVERSE | ITEM_ACK.

#[global] Instance ITEM_TYPE_eq_dec : EqDecision ITEM_TYPE.
Proof. solve_decision. Defined.

Record WrapItem (T : Type) := mkWrapItem {
  type_ : ITEM_TYPE;
  seq_ : Z;       (* uint64_t *)
  t_source_ : Z;  (* uint32_t *)
  w_source_ : Z;  (* uint32_t *)
  data_ : T
}.

Arguments mkWrapItem {T}.
Arguments type_ {T} _.
Arguments seq_ {T} _.
Arguments t_source_ {T} _.
Arguments w_source_ {T} _.
Arguments data_ {T} _.

(** What the constructor of the thread and [set_wid]/[set_tid] fix. *)
Record conf := mkconf {
  wid : Z;
  tid : Z;
  num_upstream_ : Z;
  num_downstream_ : Z;
  reverse : bool       (* r_in_queue_ is not NULL *)
}.

(** [down_writer_ != NULL] and [up_writer_ != NULL]. *)
Definition has_down_writer (c : conf) : bool := 0 <? num_downstream_ c.
Definition has_up_writer (c : conf) : bool := 0 <? num_upstream_ c.

Section Thread.
Context {U S InT OutT RInT ROutT : Type} `{!FTInterface S}.

(** What a user handler did: its own state, the operators it reaches, and the
    data it emitted in both directions. *)
Record effect := mkeffect {
  e_user : U;
  e_ops : list S;
  e_out : list (Z * OutT);
  e_rout : list (Z * ROutT)
}.

(** The virtual functions of [ComputeThread]. *)
Record handlers := mkhandlers {
  ProcessData : U -> list S -> Z -> Z -> Z -> InT -> result effect;
  ProcessPunc : U -> list S -> result effect;
  ProcessFeedback : U -> list S -> Z -> Z -> RInT -> result effect
}.

(** The local variables of [ThreadMainHandler] and the fields it changes.  The
    queues are the items the thread can extract, [client] is the server behind
    the worker's backup client, if it has one. *)
Record thread := mkthread {
  event_ : Z;
  r_event_ : Z;
  up_stop : Z;
  down_stop : Z;
  in_queue : list (WrapItem InT);
  r_in_queue : list (WrapItem RInT);
  tuple : option (WrapItem InT);
  user : U;
  operators : list S;
  cmd_item : Item.BackupItem;
  out : list (Z * WrapItem OutT);
  r_out : list (Z * WrapItem ROutT);
  client : option Server.server
}.

(** Assignments to one field. *)
Definition set_event_ (v : Z) (t : thread) : thread :=
  {| event_ := v; r_event_ := r_event_ t; up_stop := up_stop t; down_stop := down_stop t; in_queue
     := in_queue t; r_in_queue := r_in_queue t; tuple := tuple t; user := user t; operators :=
     operators t; cmd_item := cmd_item t; out := out t; r_out := r_out t; client := client t |}.
Definition set_r_event_ (v : Z) (t : thread) : thread :=
  {| event_ := event_ t; r_event_ := v; up_stop := up_stop t; down_stop := down_stop t; in_queue :=
     in_queue t; r_in_queue := r_in_queue t; tuple := tuple t; user := user t; operators :=
     operators t; cmd_item := cmd_item t; out := out t; r_out := r_out t; client := client t |}.
Definition set_up_stop (v : Z) (t : thread) : thread :=
  {| event_ := event_ t; r_event_ := r_event_ t; up_stop := v; down_stop := down_stop t; in_queue :=
     in_queue t; r_in_queue := r_in_queue t; tuple := tuple t; user := user t; operators :=
     operators t; cmd_item := cmd_item t; out := out t; r_out := r_out t; client := client t |}.
Definition set_down_stop (v : Z) (t : thread) : thread :=
  {| event_ := event_ t; r_event_ := r_event_ t; up_stop := up_stop t; down_stop := v; in_queue :=
     in_queue t; r_in_queue := r_in_queue t; tuple := tuple t; user := user t; operators :=
     operators t; cmd_item := cmd_item t; out := out t; r_out := r_out t; client := client t |}.
Definition set_in_queue (v : list (WrapItem InT)) (t : thread) : thread :=
  {| event_ := event_ t; r_event_ := r_event_ t; up_stop := up_stop t; down_stop := down_stop t;
     in_queue := v; r_in_queue := r_in_queue t; tuple := tuple t; user := user t; operators :=
     operators t; cmd_item := cmd_item t; out := out t; r_out := r_out t; client := client t |}.
Definition set_r_in_queue (v : list (WrapItem RInT)) (t : thread) : thread :=
  {| event_ := event_ t; r_event_ := r_event_ t; up_stop := up_stop t; down_stop := down_stop t;
     in_queue := in_queue t; r_in_queue := v; tuple := tuple t; user := user t; operators :=
     operators t; cmd_item := cmd_item t; out := out t; r_out := r_out t; client := client t |}.
Definition set_tuple (v : option (WrapItem InT)) (t : thread) : thread :=
  {| event_ := event_ t; r_event_ := r_event_ t; up_stop := up_stop t; down_stop := down_stop t;
     in_queue := in_queue t; r_in_queue := r_in_queue t; tuple := v; user := user t; operators :=
     operators t; cmd_item := cmd_item t; out := out t; r_out := r_out t; client := client t |}.
Definition set_user (v : U) (t : thread) : thread :=
  {| event_ := event_ t; r_event_ := r_event_ t; up_stop := up_stop t; down_stop := down_stop t;
     in_queue := in_queue t; r_in_queue := r_in_queue t; tuple := tuple t; user := v; operators :=
     operators t; cmd_item := cmd_item t; out := out t; r_out := r_out t; client := client t |}.
Definition set_operators (v : list S) (t : thread) : thread :=
  {| event_ := event_ t; r_event_ := r_event_ t; up_stop := up_stop t; down_stop := down_stop t;
     in_queue := in_queue t; r_in_queue := r_in_queue t; tuple := tuple t; user := user t; operators
     := v; cmd_item := cmd_item t; out := out t; r_out := r_out t; client := client t |}.
Definition set_cmd_item (v : Item.BackupItem) (t : thread) : thread :=
  {| event_ := event_ t; r_event_ := r_event_ t; up_stop := up_stop t; down_stop := down_stop t;
     in_queue := in_queue t; r_in_queue := r_in_queue t; tuple := tuple t; user := user t; operators
     := operators t; cmd_item := v; out := out t; r_out := r_out t; client := client t |}.
Definition set_out (v : list (Z * WrapItem OutT)) (t : thread) : thread :=
  {| event_ := event_ t; r_event_ := r_event_ t; up_stop := up_stop t; down_stop := down_stop t;
     in_queue := in_queue t; r_in_queue := r_in_queue t; tuple := tuple t; user := user t; operators
     := operators t; cmd_item := cmd_item t; out := v; r_out := r_out t; client := client t |}.
Definition set_r_out (v : list (Z * WrapItem ROutT)) (t : thread) : thread :=
  {| event_ := event_ t; r_event_ := r_event_ t; up_stop := up_stop t; down_stop := down_stop t;
     in_queue := in_queue t; r_in_queue := r_in_queue t; tuple := tuple t; user := user t; operators
     := operators t; cmd_item := cmd_item t; out := out t; r_out := v; client := client t |}.
Definition set_client (v : option Server.server) (t : thread) : thread :=
  {| event_ := event_ t; r_event_ := r_event_ t; up_stop := up_stop t; down_stop := down_stop t;
     in_queue := in_queue t; r_in_queue := r_in_queue t; tuple := tuple t; user := user t; operators
     := operators t; cmd_item := cmd_item t; out := out t; r_out := r_out t; client := v |}.

(** The environment of the loop: the user's code, the ids, the contents of
    fresh memory, the number of senders the server waits for, and the sequence
    number a slot happens to hold, which [EmitData] does not set. *)
Context (h : handlers) (c : conf) (malloc : nat -> list Z) (garbage : Item.BackupItem) (num_sender slot_seq : Z).

(** [EmitData] and [EmitReverseData] fill a slot like this. *)
Definition wrap {T} (ty : ITEM_TYPE) (sq : Z) (d : T) : WrapItem T :=
  {| type_ := ty; seq_ := sq; t_source_ := u32 (tid c); w_source_ := u32 (wid c); data_ := d |}.

Definition EmitData (t : thread) (m : Z * OutT) : result thread :=
  if has_down_writer c then Ok (set_out (out t ++ [(m.1, wrap ITEM_NORMAL slot_seq m.2)]) t)
  else Stop NullDeref.

Definition EmitReverseData (t : thread) (m : Z * ROutT) : result thread :=
  _ ← afs_assert (has_up_writer c);
  Ok (set_r_out (r_out t ++ [(m.1, wrap ITEM_REVERSE slot_seq m.2)]) t).

(** Run a user handler in the thread. *)
Definition run_handler (t : thread) (r : result effect) : result thread :=
  e ← r;
  t1 ← foldM EmitData (e_out e) (set_user (e_user e) (set_operators (e_ops e) t));
  foldM EmitReverseData (e_rout e) t1.

(** [EmitFinish]: a finish item to every downstream; a fresh [WrapItem] has
    sequence number 0 and no data yet ([d]). *)
Definition EmitFinish (d : OutT) (t : thread) : thread :=
  if has_down_writer c
  then set_out (out t ++ ((fun i => (i, wrap ITEM_FINISH 0 d)) <$> indices (Z.to_nat (num_downstream_ c)))) t
  else t.

Definition EmitReverseFinish (d : ROutT) (t : thread) : thread :=
  if has_up_writer c
  then set_r_out (r_out t ++ ((fun i => (i, wrap ITEM_FINISH 0 d)) <$> indices (Z.to_nat (num_upstream_ c)))) t
  else t.

(** [EmitReverseTimeout]: feedback without data, offered to the user's code; it
    does not check the writer. *)
Definition EmitReverseTimeout (d : ROutT) (dest : Z) (t : thread) : result thread :=
  if has_up_writer c then Ok (set_r_out (r_out t ++ [(dest, wrap ITEM_REVERSE 0 d)]) t) else Stop NullDeref.

(** One item of the feedback queue. *)
Definition reverse_item (t : thread) (r : WrapItem RInT) : result thread :=
  match type_ r with
  | ITEM_FINISH => Ok (set_down_stop (down_stop t + 1) t)
  | ITEM_REVERSE =>
      run_handler (set_r_event_ (u64 (r_event_ t + 1)) t)
        (ProcessFeedback h (user t) (operators t) (w_source_ r) (t_source_ r) (data_ r))
  | _ => Stop ExitFailure
  end.

(** [while (down_stop<num_downstream_ && (r_tuple=r_in_queue_->Extract ()) != NULL)],
    over the items that can be extracted. *)
Fixpoint reverse_loop (q : list (WrapItem RInT)) (t : thread) : result thread :=
  if down_stop t <? num_downstream_ c then
    if reverse c then
      match q with
      | [] => Ok (set_r_in_queue [] t)
      | r :: q' => t' ← reverse_item t r; reverse_loop q' t'
      end
    else Stop NullDeref
  else Ok (set_r_in_queue q t).

(** The number of upstreams the loop waits for: an external source counts as
    one. *)
Definition upstreams : Z := if num_upstream_ c =? 0 then 1 else num_upstream_ c.

(** The [switch] on a forward item. *)
Definition forward_item (d : OutT) (t : thread) (x : WrapItem InT) : result thread :=
  match type_ x with
  | ITEM_FINISH =>
      let t := set_up_stop (up_stop t + 1) t in
      Ok (if up_stop t =? upstreams then EmitFinish d t else t)
  | ITEM_TIMEOUT => run_handler t (ProcessPunc h (user t) (operators t))
  | ITEM_NORMAL =>
      run_handler (set_event_ (u64 (event_ t + 1)) t)
        (ProcessData h (user t) (operators t) (w_source_ x) (t_source_ x) (seq_ x) (data_ x))
  | _ => Stop ExitFailure
  end.

(** The forward part of a turn.  [AttemptClean] needs the writer. *)
Definition forward (d : OutT) (t : thread) : result thread :=
  if up_stop t =? upstreams then
    if has_down_writer c then Ok t else Stop NullDeref
  else
    match in_queue t with
    | [] => Ok (set_tuple None t)
    | x :: q => forward_item d (set_tuple (Some x) (set_in_queue q t)) x
    end.

(** What [NotifyWorker (cmd)] makes the worker do with a state backup before it
    answers. *)
Definition worker_backup (s : option Server.server) (it : Item.BackupItem) : result (option Server.server) :=
  match s with
  | Some srv => srv' ← Client.MakeBackup malloc garbage num_sender srv it; Ok (Some srv')
  | None => Ok None
  end.

(** [backup_item.info = ...] before the notification. *)
Definition backup_info (i sq : Z) : Item.BackupInfo :=
  {| Item.backup_op := 0; Item.worker_id := u32 (wid c); Item.thread_id := u16 (tid c);
     Item.op_index := u16 i; Item.seq := sq |}.

(** The body of the loop over the operators. *)
Definition check_operator (t : thread) (i : Z) : result thread :=
  op ← at_index (operators t) i;
  if GetDivergenceThresh op <? CalculateDivergence op then
    r ← SerializeState op (Item.bdata (cmd_item t));
    ops' ← set_index (operators t) i r.1;
    if Item.len (Item.meta r.2) =? 0 then
      Ok (set_operators ops' (set_cmd_item {| Item.info := Item.info (cmd_item t); Item.bdata := r.2 |} t))
    else
      match tuple t with
      | None => Stop NullDeref
      | Some x =>
          let it := {| Item.info := backup_info i (seq_ x); Item.bdata := r.2 |} in
          cl ← worker_backup (client t) it;
          Ok (set_operators ops' (set_client cl (set_cmd_item
            {| Item.info := Item.info it;
               Item.bdata := {| Item.meta := {| Item.len := 0; Item.key := Item.key (Item.meta r.2) |};
                                Item.data := Item.data r.2 |} |} t)))
      end
  else Ok t.

Definition check_operators (t : thread) : result thread :=
  foldM check_operator (indices (length (operators t))) t.

(** The condition of the main loop and one turn of it. *)
Definition running (t : thread) : bool := (up_stop t <? upstreams) || (down_stop t <? num_downstream_ c).

Definition turn (d : OutT) (t : thread) : result thread :=
  t1 ← reverse_loop (r_in_queue t) t;
  t2 ← forward d t1;
  check_operators t2.

(** After the loop: [AttemptClean] changes no field of this state. *)
Definition finish (d : ROutT) (t : thread) : thread := EmitReverseFinish d t.

(** The thread and the threads that feed it. *)
Inductive step (d : OutT) : thread -> thread -> Prop :=
| step_turn t t' : running t = true -> turn d t = Ok t' -> step d t t'
| step_arrive t x : in_unsigned 64 (seq_ x) -> step d t (set_in_queue (in_queue t ++ [x]) t)
| step_feedback t x : step d t (set_r_in_queue (r_in_queue t ++ [x]) t).

End Thread.

Arguments effect : clear implicits.
Arguments handlers : clear implicits.
Arguments thread : clear implicits.

(** ** The finish protocol *)

(** Where finish items went. *)
Definition finish_dests {T} (l : list (Z * WrapItem T)) : list Z :=
  fst <$> filter (fun m => type_ m.2 = ITEM_FINISH) l.

Lemma finish_dests_app {T} (l k : list (Z * WrapItem T)) :
  finish_dests (l ++ k) = finish_dests l ++ finish_dests k.
Proof. unfold finish_dests. by rewrite filter_app, fmap_app. Qed.

Section FinishProtocol.
Context {U S InT OutT RInT ROutT : Type} `{!FTInterface S}.
Abbreviation thread' := (thread U S InT OutT RInT ROutT).
Context (h : handlers U S InT OutT RInT ROutT) (c : conf) (malloc : nat -> list Z) (garbage : Item.BackupItem)
  (num_sender slot_seq : Z).

(** The fields the finish protocol is about. *)
Definition same_finish (t t' : thread') : Prop :=
  finish_dests (out t') = finish_dests (out t) /\ up_stop t' = up_stop t.

#[global] Instance same_finish_preorder : PreOrder same_finish.
Proof.
  split; unfold same_finish.
  - done.
  - intros x y z [? ?] [? ?]. split; congruence.
Qed.

Lemma foldM_preserve {A B} (R : A -> A -> Prop) `{!PreOrder R} (f : A -> B -> result A) l s s' :
  (forall s b s', f s b = Ok s' -> R s s') -> foldM f l s = Ok s' -> R s s'.
Proof.
  intros Hf. revert s. induction l as [|b l IH]; intros s H; simpl in H.
  - injection H as <-. done.
  - destruct (f s b) as [s1|] eqn:E; [|done]. simpl in H. transitivity s1; eauto.
Qed.

Lemma EmitData_finish t m t' : EmitData c slot_seq t m = Ok t' -> same_finish t t'.
Proof.
  unfold EmitData. destruct (has_down_writer c); [|done]. intros [= <-]. split; [|done].
  cbn [out set_out]. rewrite finish_dests_app. apply app_nil_r.
Qed.

Lemma run_handler_finish t r t' : run_handler c slot_seq t r = Ok t' -> same_finish t t'.
Proof.
  unfold run_handler. intros H. destruct r as [e|]; [|done]. simpl in H.
  destruct (foldM (EmitData c slot_seq) (e_out e) _) as [t1|] eqn:E; [|done]. simpl in H.
  apply (foldM_preserve same_finish) in E; [|apply EmitData_finish].
  apply (foldM_preserve same_finish) in H.
  - etransitivity; [|exact H]. exact E.
  - clear. intros s m s' Hm. unfold EmitReverseData in Hm. destruct (has_up_writer c); [|done].
    cbn in Hm. by injection Hm as <-.
Qed.

Lemma reverse_loop_finish q t t' : reverse_loop h c slot_seq q t = Ok t' -> same_finish t t'.
Proof.
  revert t. induction q as [|r q IH]; intros t H; cbn [reverse_loop] in H.
  - destruct (_ <? _); [destruct (reverse c); [|done]|]; by injection H as <-.
  - destruct (_ <? _); [destruct (reverse c); [|done]|by injection H as <-].
    destruct (reverse_item h c slot_seq t r) as [t1|] eqn:E; [|done]. simpl in H.
    transitivity t1; [|by apply IH]. unfold reverse_item in E.
    destruct (type_ r); try done; [by injection E as <-|]. by apply run_handler_finish in E.
Qed.

Lemma check_operator_finish t i t' :
  check_operator c malloc garbage num_sender t i = Ok t' -> same_finish t t'.
Proof.
  unfold check_operator. intros H. result_inv.
  destruct (_ <? _); [|by injection H as <-]. result_inv.
  destruct (_ =? _); [by injection H as <-|]. destruct (tuple t) eqn:Et; [|done]. cbv zeta in H. result_inv.
  done.
Qed.

(** Finish items are sent once to every downstream, when the last upstream has
    finished, and never before. *)
Definition finish_inv (t : thread') : Prop :=
  0 <= up_stop t <= upstreams c /\
  finish_dests (out t) =
    if up_stop t =? upstreams c then indices (Z.to_nat (num_downstream_ c)) else [].

Lemma finish_dests_emit (d : OutT) l :
  finish_dests ((fun i => (i, wrap c ITEM_FINISH 0 d)) <$> l) = l.
Proof.
  unfold finish_dests. induction l as [|i l IH]; [done|]. cbn [fmap list_fmap].
  rewrite filter_cons_True by done. cbn [fmap list_fmap fst]. f_equal. exact IH.
Qed.

Lemma same_finish_inv t t' : same_finish t t' -> finish_inv t -> finish_inv t'.
Proof. unfold finish_inv. by intros [-> ->]. Qed.

Lemma forward_finish d t t' :
  0 <= num_downstream_ c -> forward h c slot_seq d t = Ok t' -> finish_inv t -> finish_inv t'.
Proof.
  intros Hn Hf Hinv. pose proof Hinv as [Hr Hd]. unfold forward in Hf.
  destruct (Z.eqb_spec (up_stop t) (upstreams c)) as [E|E].
  { destruct (has_down_writer c); [|done]. by injection Hf as <-. }
  destruct (in_queue t) as [|x q]; [by injection Hf as <-|].
  unfold forward_item in Hf. destruct (type_ x); try done.
  - apply run_handler_finish in Hf. by apply (same_finish_inv t) in Hf.
  - injection Hf as <-. unfold finish_inv. cbn [up_stop set_up_stop set_tuple set_in_queue].
    simpl in Hd.
    destruct (Z.eqb_spec (up_stop t + 1) (upstreams c)) as [E'|E'].
    + unfold EmitFinish, has_down_writer. destruct (Z.ltb_spec 0 (num_downstream_ c)) as [Hd0|Hd0].
      * cbn [up_stop out set_out set_up_stop set_tuple set_in_queue].
        split; [lia|]. rewrite E', Z.eqb_refl, finish_dests_app, Hd, finish_dests_emit. done.
      * cbn [up_stop out set_out set_up_stop set_tuple set_in_queue].
        split; [lia|]. rewrite E', Z.eqb_refl, Hd. by replace (num_downstream_ c) with 0 by lia.
    + cbn [up_stop out set_out set_up_stop set_tuple set_in_queue].
      split; [lia|]. by rewrite (proj2 (Z.eqb_neq _ _) E').
  - apply run_handler_finish in Hf. by apply (same_finish_inv t) in Hf.
Qed.

Lemma turn_finish d t t' :
  0 <= num_downstream_ c -> turn h c malloc garbage num_sender slot_seq d t = Ok t' -> finish_inv t -> finish_inv t'.
Proof.
  intros Hn H Hinv. unfold turn in H.
  destruct (reverse_loop h c slot_seq (r_in_queue t) t) as [t1|] eqn:E1; [|done]. simpl in H.
  destruct (forward h c slot_seq d t1) as [t2|] eqn:E2; [|done]. simpl in H.
  apply reverse_loop_finish in E1.
  apply (foldM_preserve same_finish) in H; [|apply check_operator_finish].
  eapply same_finish_inv; [exact H|]. eapply forward_finish; [done|exact E2|].
  eapply same_finish_inv; [exact E1|done].
Qed.

Lemma step_finish d t t' :
  0 <= num_downstream_ c -> step h c malloc garbage num_sender slot_seq d t t' -> finish_inv t -> finish_inv t'.
Proof. intros Hn Hs Hinv. destruct Hs; [by eapply turn_finish|done|done]. Qed.

End FinishProtocol.


(** ** Bounded divergence *)

Module Bounded.
Import MaxArray BackupSpec.

(** No entry of the live array is further above its backup than the threshold
    allows, nor is the tracked difference. *)
Definition within (s : NumericArray_MAX) : Prop :=
  max_diff s <= theta s /\ forall i, gap_le s (theta s) i.

(** As after one update: at most the tracked entry is too far. *)
Definition pending (s : NumericArray_MAX) : Prop :=
  within s \/ (theta s < max_diff s /\ forall i, i <> Z.to_nat (max_diff_index s) -> gap_le s (theta s) i).

(** A well-formed operator with a usable threshold. *)
Record op_wf (s : NumericArray_MAX) : Prop := {
  ow_inv : max_inv s;
  ow_theta : 0 <= theta s;
  ow_len : arr_length s < 2 ^ 30
}.

(** What the user code may do to an operator in one call. *)
Definition one_update (s s' : NumericArray_MAX) : Prop :=
  s' = s \/ exists index value, 0 <= index < arr_length s /\ small value /\ UpdateValue s index value = Ok s'.

Lemma one_update_pending s s' :
  op_wf s -> within s -> one_update s s' -> op_wf s' /\ pending s' /\ backup_array s' = backup_array s.
Proof.
  intros [Hinv Hth Hl] Hw [->|(index & value & Hi & Hv & Hu)].
  { split; [done|]. split; [by left|done]. }
  destruct (UpdateValue_inv s index value Hinv Hi Hv) as (s1 & b & Hu' & Hinv' & Hb & Ha & Hba & Ht & Hal & Hmd & Hidx).
  assert (s1 = s') as -> by congruence. split; [split; [done|congruence|congruence]|]. split; [|done].
  assert (Hother : forall i, i <> Z.to_nat index -> gap_le s' (theta s') i).
  { intros i Hne a x Hax Hbx. rewrite Ha, list_lookup_insert_ne in Hax by done. rewrite Hba in Hbx.
    rewrite Ht. by apply (proj2 Hw i a x). }
  assert (Hat : gap_le s' (value - b) (Z.to_nat index)).
  { intros a x Hax Hbx. rewrite Hba, Hb in Hbx. injection Hbx as <-.
    rewrite Ha, list_lookup_insert_eq in Hax; [by injection Hax as <-|].
    destruct Hinv. lia. }
  destruct Hw as [Hmax _]. destruct (decide (theta s < value - b)) as [Hgt|Hle].
  - right. split; [rewrite Hmd, Ht; lia|]. rewrite Hidx by lia. done.
  - left. split; [rewrite Hmd, Ht; lia|]. intros i. destruct (decide (i = Z.to_nat index)) as [->|Hne]; [|by apply Hother].
    intros a x Hax Hbx. specialize (Hat a x Hax Hbx). rewrite Ht. lia.
Qed.

(** Serialising a pending operator whose divergence is over the threshold brings
    it back within it. *)
Lemma serialize_within s bd :
  op_wf s -> pending s -> theta s < max_diff s -> buffer_wf bd ->
  exists s' bd' v, SerializeState s bd = Ok (s', bd') /\ op_wf s' /\ within s' /\ buffer_wf bd' /\
    encodes bd' (max_diff_index s) v /\ small v /\ array s' = array s /\
    backup_array s' = <[Z.to_nat (max_diff_index s) := v]> (backup_array s) /\
    0 <= max_diff_index s < Z.of_nat (length (backup_array s)).
Proof.
  intros [Hinv Hth Hl] Hp Hgt Hbd.
  destruct (SerializeState_inv s bd Hinv Hbd) as (s' & bd' & v & Hs & Hinv' & Hbd' & Henc & Hv & Ha & Hb & Ht & Hal & Hmd).
  exists s', bd', v. split; [done|]. split; [split; [done|congruence|congruence]|].
  split.
  - split; [rewrite Hmd, Ht; lia|]. intros i a x Hax Hbx. rewrite Ha in Hax. rewrite Hb in Hbx. rewrite Ht.
    destruct (decide (i = Z.to_nat (max_diff_index s))) as [->|Hne].
    + rewrite list_lookup_insert_eq in Hbx by (destruct Hinv; lia). assert (a = x) as -> by congruence. lia.
    + rewrite list_lookup_insert_ne in Hbx by done. destruct Hp as [[Hm _]|[_ Hp]]; [lia|]. by apply (Hp i Hne).
  - split; [done|]. split; [done|]. split; [exact (Forall_lookup_1 _ _ _ _ (mi_small _ Hinv) Hv)|].
    split; [done|]. split; [done|]. destruct Hinv. lia.
Qed.

Lemma pending_within s : pending s -> max_diff s <= theta s -> within s.
Proof. intros [Hw|[Hgt _]] Hle; [done|lia]. Qed.

(** The bytes of a backup say its entry. *)
Lemma encodes_says info bd (i : nat) v :
  encodes bd (Z.of_nat i) v -> small v ->
  says (strip {| Item.info := info; Item.bdata := bd |}) (Z.of_nat i) v.
Proof.
  intros (Hk & Hl & rest & Hd) Hv. unfold says, strip. cbn [fst snd Item.info Item.bdata].
  split; [destruct (Item.meta bd); cbn in *; by subst|]. split; [|done].
  unfold Item.payload. cbn [Item.bdata]. rewrite Hl, Hd, app_assoc.
  rewrite take_app_length'; [done|]. rewrite length_app, !length_le_bytes. done.
Qed.

Section Loop.
Context {U InT OutT RInT ROutT : Type}.
Abbreviation thread' := (thread U NumericArray_MAX InT OutT RInT ROutT).
Context (h : handlers U NumericArray_MAX InT OutT RInT ROutT) (c : conf) (malloc : nat -> list Z)
  (garbage : Item.BackupItem) (num_sender slot_seq : Z).
Context (others : list (list NumericArray_MAX)).

Hypothesis Hgarbage : buffer_wf (Item.bdata garbage).
Hypothesis Hwid : in_unsigned 16 (wid c).
Hypothesis Htid : in_unsigned 16 (tid c).
Hypothesis Hothers : (Z.to_nat (tid c) < length others)%nat.
Hypothesis Hrange : forall th o s, op_at others th o = Some s -> label_range (wid c, Z.of_nat th, Z.of_nat o).

(** Every operator of the worker, when this thread's are [ops]. *)
Definition all_ops (ops : list NumericArray_MAX) : list (list NumericArray_MAX) := <[Z.to_nat (tid c) := ops]> others.

Definition mirrored (t : thread') : Prop :=
  match client t with
  | Some srv => server_ok srv /\ mirrors srv (wid c) (all_ops (operators t))
  | None => True
  end.

(** What holds all along a turn. *)
Record loop_inv (t : thread') : Prop := {
  li_ops : Forall op_wf (operators t);
  li_num : Z.of_nat (length (operators t)) < 2 ^ 16;
  li_cmd : buffer_wf (Item.bdata (cmd_item t));
  li_seq : forall x, tuple t = Some x -> in_unsigned 64 (seq_ x);
  li_queue : Forall (fun x => in_unsigned 64 (seq_ x)) (in_queue t);
  li_mirror : mirrored t
}.

(** What holds when a turn starts. *)
Definition head_inv (t : thread') : Prop := loop_inv t /\ Forall within (operators t).

Lemma all_ops_at ops th o :
  op_at (all_ops ops) th o = if decide (th = Z.to_nat (tid c)) then ops !! o else op_at others th o.
Proof.
  unfold op_at, all_ops. destruct (decide (th = Z.to_nat (tid c))) as [->|Hne].
  - by rewrite list_lookup_insert_eq.
  - by rewrite list_lookup_insert_ne.
Qed.

Lemma all_ops_range ops th o s :
  Z.of_nat (length ops) < 2 ^ 16 -> op_at (all_ops ops) th o = Some s ->
  label_range (wid c, Z.of_nat th, Z.of_nat o).
Proof.
  intros Hlen. rewrite all_ops_at. destruct (decide _) as [->|Hne]; [|apply Hrange].
  intros Hs. apply lookup_lt_Some in Hs. split; [done|]. cbn [fst snd]. unfold in_unsigned in *.
  split; lia.
Qed.

(** The item of a backup of operator [i]. *)
Lemma backup_item_wf i sq bd k v :
  0 <= i < 2 ^ 16 -> in_unsigned 64 sq -> buffer_wf bd -> encodes bd (Z.of_nat k) v -> Z.of_nat k < 2 ^ 64 ->
  Item.item_wf {| Item.info := backup_info c i sq; Item.bdata := bd |} /\
  label_of {| Item.info := backup_info c i sq; Item.bdata := bd |}
    = (wid c, Z.of_nat (Z.to_nat (tid c)), Z.of_nat (Z.to_nat i)).
Proof.
  intros Hi Hsq Hbd (Hk & Hl & _) Hk64. unfold in_unsigned in *.
  assert (H32 : u32 (wid c) = wid c) by (apply unsigned_of_small; unfold in_unsigned; lia).
  assert (H16 : u16 (tid c) = tid c) by (apply unsigned_of_small; unfold in_unsigned; lia).
  assert (Hi16 : u16 i = i) by (apply unsigned_of_small; unfold in_unsigned; lia).
  unfold label_of, info_label, backup_info. cbn. rewrite H32, H16, Hi16, !Z2Nat.id by lia. split; [|done].
  split; cbn; rewrite ?H32, ?H16, ?Hi16, ?Hk, ?Hl; unfold in_unsigned, Item.MAX_BACKUP_ITEM_DATA_LEN; try lia.
  exact Hbd.
Qed.

(** One divergence check. *)
Lemma check_operator_ok t (i : nat) op :
  loop_inv t -> operators t !! i = Some op -> pending op -> (tuple t = None -> within op) ->
  exists t' op', check_operator c malloc garbage num_sender t (Z.of_nat i) = Ok t' /\ loop_inv t' /\
    operators t' = <[i := op']> (operators t) /\ within op' /\ array op' = array op /\
    tuple t' = tuple t /\ in_queue t' = in_queue t.
Proof.
  intros Ht Hop Hp Hnull. pose proof Ht as []. pose proof (Forall_lookup_1 _ _ _ _ li_ops0 Hop) as Hwf.
  pose proof (lookup_lt_Some _ _ _ Hop) as Hi. unfold check_operator.
  rewrite (proj2 (at_index_ok _ (Z.of_nat i) op)) by (rewrite Nat2Z.id; split; [lia|done]). cbn [mbind result_bind].
  change (GetDivergenceThresh op) with (theta op). change (CalculateDivergence op) with (max_diff op).
  destruct (Z.ltb_spec (theta op) (max_diff op)) as [Hgt|Hle].
  2: { exists t, op. split; [done|]. split; [done|]. rewrite list_insert_id by done.
       split; [done|]. split; [by apply pending_within|done]. }
  destruct (serialize_within op (Item.bdata (cmd_item t)) Hwf Hp Hgt li_cmd0)
    as (op' & bd' & v & Hser & Hwf' & Hwithin & Hbd' & Henc & Hv & Harr & Hback & Hidx).
  set (j := Z.to_nat (max_diff_index op)) in *. assert (Hj : max_diff_index op = Z.of_nat j) by lia.
  rewrite Hj in Henc. rewrite Hser. cbn [mbind result_bind fst snd].
  rewrite set_index_ok by lia. cbn [mbind result_bind]. rewrite Nat2Z.id.
  rewrite (proj1 (proj2 Henc)). cbn [Z.eqb].
  destruct (tuple t) as [x|] eqn:Htup; [|destruct (Hnull eq_refl); lia]. cbv zeta.
  destruct (backup_item_wf (Z.of_nat i) (seq_ x) bd' j v) as [Hitem Hlabel];
    [lia|by apply li_seq0|done|done|destruct Hwf as [[]]; lia|].
  set (it := {| Item.info := backup_info c (Z.of_nat i) (seq_ x); Item.bdata := bd' |}) in *.
  assert (Hcl : exists cl, worker_backup malloc garbage num_sender (client t) it = Ok cl /\
    match cl with
    | Some srv => server_ok srv /\ mirrors srv (wid c) (all_ops (<[i := op']> (operators t)))
    | None => True
    end).
  { unfold worker_backup. unfold mirrored in li_mirror0. destruct (client t) as [srv|]; [|by exists None].
    destruct li_mirror0 as [Hok Hmir].
    assert (Hopat : op_at (all_ops (operators t)) (Z.to_nat (tid c)) i = Some op)
      by (rewrite all_ops_at, decide_True by done; done).
    pose proof (all_ops_range _ _ _ _ li_num0 Hopat) as Hlr. rewrite Nat2Z.id in Hlabel.
    destruct (MakeBackup_stored malloc garbage num_sender srv it) as (srv' & Hmk & Hok' & Hst); try done.
    - rewrite Hlabel. apply (mirrors_room srv (wid c) (all_ops (operators t)) (Z.to_nat (tid c)) i op); try done.
      destruct Hwf as [[]]. cbn. lia.
    - by rewrite Hlabel.
    - change (Item.len (Item.meta bd') <> 0). by rewrite (proj1 (proj2 Henc)).
    - rewrite Hmk. cbn [mbind result_bind]. exists (Some srv'). split; [done|]. split; [done|].
      apply (mirrors_save srv srv' (wid c) (all_ops (operators t)) _ (Z.to_nat (tid c)) i op op' j v (strip it)); try done.
      + cbn. lia.
      + by apply encodes_says.
      + intros th o s. by apply all_ops_range.
      + intros th o. rewrite !all_ops_at. destruct (decide (th = Z.to_nat (tid c))) as [->|Hne].
        * destruct (decide (o = i)) as [->|Hne]; [rewrite decide_True by done; by apply list_lookup_insert_eq|].
          rewrite decide_False by (by intros [_ ?]). by apply list_lookup_insert_ne.
        * by rewrite decide_False by (by intros [? _]).
      + intros l k Hl. rewrite Hst by done. rewrite Hlabel. change (key_of it) with (Item.key (Item.meta bd')).
        by rewrite (proj1 Henc). }
  destruct Hcl as (cl & -> & Hcl). cbn [mbind result_bind].
  eexists _, op'. split; [reflexivity|]. split; [|by split_and!].
  split; cbn; try done.
  - by apply Forall_insert.
  - by rewrite length_insert.
  - intros x0 Hx0. apply li_seq0. congruence.
Qed.

(** The loop over the operators returns and leaves all of them within their
    thresholds. *)
Lemma check_operators_ok t :
  loop_inv t -> Forall pending (operators t) -> (tuple t = None -> Forall within (operators t)) ->
  exists t', check_operators c malloc garbage num_sender t = Ok t' /\ head_inv t' /\
    array <$> operators t' = array <$> operators t.
Proof.
  intros Ht Hp Hnull. unfold check_operators.
  destruct (foldM_inv (fun ds t' => loop_inv t' /\ tuple t' = tuple t /\
      length (operators t') = length (operators t) /\ array <$> operators t' = array <$> operators t /\
      (forall i op, operators t' !! i = Some op ->
         if decide (i < length ds)%nat then within op else operators t !! i = Some op))
    (check_operator c malloc garbage num_sender) (indices (length (operators t))) t)
    as (t' & Hrun & Hinv & _ & Hlen & Harr & Hall).
  - by split_and!.
  - intros ds i t1 (Hinv & Htup & Hlen & Harr & Hall) Hpre.
    destruct (indices_prefix _ _ _ Hpre) as [-> Hlt].
    destruct (lookup_lt_is_Some_2 (operators t1) (length ds)) as [op Hop]; [lia|].
    pose proof (Hall _ _ Hop) as Hop0. rewrite decide_False in Hop0 by lia.
    destruct (check_operator_ok t1 (length ds) op Hinv Hop) as (t2 & op' & Hck & Hinv2 & Hops & Hw & Ha & Htup2 & _).
    + exact (Forall_lookup_1 _ _ _ _ Hp Hop0).
    + rewrite Htup. intros Hn. exact (Forall_lookup_1 _ _ _ _ (Hnull Hn) Hop0).
    + exists t2. split; [done|]. split; [done|]. split; [congruence|]. rewrite Hops, length_insert.
      split; [done|]. split.
      * rewrite list_fmap_insert, Ha, <- Harr. apply list_insert_id. by rewrite list_lookup_fmap, Hop.
      * intros i x Hx. rewrite length_app. cbn [length]. destruct (decide (i = length ds)) as [->|Hne].
        -- rewrite list_lookup_insert_eq in Hx by lia. injection Hx as <-. by rewrite decide_True by lia.
        -- rewrite list_lookup_insert_ne in Hx by done. specialize (Hall i x Hx).
           destruct (decide (i < length ds)%nat); [by rewrite decide_True by lia|by rewrite decide_False by lia].
  - exists t'. split; [done|]. split; [|done]. split; [done|]. apply Forall_lookup. intros i op Hop.
    specialize (Hall i op Hop). rewrite decide_True in Hall; [done|].
    unfold indices. rewrite length_fmap, length_seq. apply lookup_lt_Some in Hop. lia.
Qed.

(** User code that updates every operator at most once per item and leaves them
    alone on feedback. *)
Record well_behaved : Prop := {
  wb_data : forall u ops w t sq d e, Forall op_wf ops -> ProcessData h u ops w t sq d = Ok e ->
    Forall2 one_update ops (e_ops e);
  wb_punc : forall u ops e, Forall op_wf ops -> ProcessPunc h u ops = Ok e -> Forall2 one_update ops (e_ops e);
  wb_feedback : forall u ops w t d e, ProcessFeedback h u ops w t d = Ok e -> e_ops e = ops
}.

(** The fields neither handlers nor the queues' bookkeeping touch. *)
Definition same_core (t t' : thread') : Prop :=
  tuple t' = tuple t /\ in_queue t' = in_queue t /\ cmd_item t' = cmd_item t /\ client t' = client t.

Definition same_core_ops (t t' : thread') : Prop := same_core t t' /\ operators t' = operators t.

#[global] Instance same_core_ops_preorder : PreOrder same_core_ops.
Proof.
  split; unfold same_core_ops, same_core.
  - done.
  - intros x y z ((? & ? & ? & ?) & ?) ((? & ? & ? & ?) & ?). split_and!; congruence.
Qed.

Lemma run_handler_core t r t' :
  run_handler c slot_seq t r = Ok t' -> exists e, r = Ok e /\ operators t' = e_ops e /\ same_core t t'.
Proof.
  unfold run_handler. intros H. destruct r as [e|]; [|done]. exists e. split; [done|]. simpl in H.
  destruct (foldM (EmitData c slot_seq) (e_out e) _) as [t1|] eqn:E; [|done]. simpl in H.
  apply (foldM_preserve same_core_ops) in E.
  2: { clear. intros s m s' Hm. unfold EmitData in Hm. destruct (has_down_writer c); [|done]. by injection Hm as <-. }
  apply (foldM_preserve same_core_ops) in H.
  2: { clear. intros s m s' Hm. unfold EmitReverseData in Hm. destruct (has_up_writer c); [|done].
       cbn in Hm. by injection Hm as <-. }
  destruct E as [(E1 & E2 & E3 & E4) E5], H as [(H1 & H2 & H3 & H4) H5].
  split; [by rewrite H5, E5|]. split_and!; [by rewrite H1, E1|by rewrite H2, E2|by rewrite H3, E3|by rewrite H4, E4].
Qed.

Lemma reverse_loop_core q t t' :
  well_behaved -> reverse_loop h c slot_seq q t = Ok t' -> same_core_ops t t'.
Proof.
  intros Hwb. revert t. induction q as [|r q IH]; intros t H; cbn [reverse_loop] in H.
  - destruct (_ <? _); [destruct (reverse c); [|done]|]; by injection H as <-.
  - destruct (_ <? _); [destruct (reverse c); [|done]|by injection H as <-].
    destruct (reverse_item h c slot_seq t r) as [t1|] eqn:E; [|done]. simpl in H.
    transitivity t1; [|by apply IH]. unfold reverse_item in E.
    destruct (type_ r); try done; [by injection E as <-|].
    apply run_handler_core in E as (e & He & Hops & Hcore). split; [done|].
    rewrite Hops. by apply (wb_feedback Hwb) in He.
Qed.

Lemma mirrored_ext t t' :
  client t' = client t -> length (operators t') = length (operators t) ->
  (forall i op op', operators t !! i = Some op -> operators t' !! i = Some op' -> backup_array op' = backup_array op) ->
  mirrored t -> mirrored t'.
Proof.
  intros Hc Hlen Hb. unfold mirrored. rewrite Hc. destruct (client t) as [srv|]; [|done].
  intros [Hok Hmir]. split; [done|]. eapply mirrors_ext; [|exact Hmir]. intros th o. rewrite !all_ops_at.
  destruct (decide (th = Z.to_nat (tid c))); [|done].
  destruct (operators t !! o) as [op|] eqn:E.
  - destruct (lookup_lt_is_Some_2 (operators t') o) as [op' Hop']; [apply lookup_lt_Some in E; lia|].
    rewrite Hop'. simpl. f_equal. by eapply Hb.
  - apply lookup_ge_None in E. by rewrite (lookup_ge_None_2 (operators t') o) by lia.
Qed.

(** User code that updates once leaves pending operators. *)
Lemma handler_pending t t' ops' :
  head_inv t -> Forall2 one_update (operators t) ops' -> operators t' = ops' -> same_core t t' ->
  loop_inv t' /\ Forall pending (operators t').
Proof.
  intros [[] Hw] Hup Hops (H1 & H2 & H3 & H4). rewrite <- Hops in Hup.
  assert (Hall : forall i op op', operators t !! i = Some op -> operators t' !! i = Some op' ->
    op_wf op' /\ pending op' /\ backup_array op' = backup_array op).
  { intros i op op' Hi Hi'. pose proof (Forall2_lookup_lr _ _ _ _ _ _ Hup Hi Hi') as H.
    apply (one_update_pending op op'); [exact (Forall_lookup_1 _ _ _ _ li_ops0 Hi)|
      exact (Forall_lookup_1 _ _ _ _ Hw Hi)|done]. }
  assert (Hlen : length (operators t') = length (operators t)) by (symmetry; by eapply Forall2_length).
  assert (Hex : forall i op', operators t' !! i = Some op' -> exists op, operators t !! i = Some op).
  { intros i op' Hi. apply lookup_lt_is_Some_2. apply lookup_lt_Some in Hi. lia. }
  split; [split; rewrite ?H1, ?H2, ?H3, ?Hlen; try done|].
  - apply Forall_lookup. intros i op' Hi. destruct (Hex i op' Hi) as [op Hop]. by destruct (Hall i op op' Hop Hi).
  - eapply (mirrored_ext t); [done|done| |done]. intros i op op' Hi Hi'. by destruct (Hall i op op' Hi Hi') as (_ & _ & ?).
  - apply Forall_lookup. intros i op' Hi. destruct (Hex i op' Hi) as [op Hop].
    by destruct (Hall i op op' Hop Hi) as (_ & ? & _).
Qed.

Lemma forward_pending d t t' :
  well_behaved -> head_inv t -> forward h c slot_seq d t = Ok t' ->
  loop_inv t' /\ Forall pending (operators t') /\ (tuple t' = None -> Forall within (operators t')).
Proof.
  intros Hwb Hh Hf. pose proof Hh as [Ht Hw]. pose proof Ht as [].
  assert (Hpw : Forall pending (operators t)) by (eapply Forall_impl; [exact Hw|]; intros; by left).
  unfold forward in Hf. destruct (_ =? _).
  { destruct (has_down_writer c); [|done]. by injection Hf as <-. }
  destruct (in_queue t) as [|x q] eqn:Hq.
  { injection Hf as <-. split; [|done]. split; cbn; try done. by rewrite Hq. }
  apply Forall_cons in li_queue0 as [Hx Hqs].
  assert (Hh1 : head_inv (set_tuple (Some x) (set_in_queue q t))).
  { split; [|done]. split; cbn; try done. intros y [= <-]. done. }
  set (t1 := set_tuple (Some x) (set_in_queue q t)) in *.
  unfold forward_item in Hf. destruct (type_ x); try done.
  - apply run_handler_core in Hf as (e & He & Hops & Hcore).
    assert (Htup : tuple t' = Some x) by (by destruct Hcore).
    destruct (handler_pending t1 t' (e_ops e) Hh1) as [H1 H2]; [by eapply (wb_data Hwb)|done|done|].
    split_and!; [done|done|by rewrite Htup].
  - injection Hf as <-. split; [|split].
    + unfold EmitFinish. destruct (_ =? _); [destruct (has_down_writer c)|]; by destruct (proj1 Hh1); split.
    + unfold EmitFinish. destruct (_ =? _); [destruct (has_down_writer c)|]; done.
    + unfold EmitFinish. destruct (_ =? _); [destruct (has_down_writer c)|]; done.
  - apply run_handler_core in Hf as (e & He & Hops & Hcore).
    assert (Htup : tuple t' = Some x) by (by destruct Hcore).
    destruct (handler_pending t1 t' (e_ops e) Hh1) as [H1 H2]; [by eapply (wb_punc Hwb)|done|done|].
    split_and!; [done|done|by rewrite Htup].
Qed.

Lemma same_core_head t t' : same_core_ops t t' -> head_inv t -> head_inv t'.
Proof.
  intros [(H1 & H2 & H3 & H4) H5] [[] Hw]. split; [|by rewrite H5].
  split; rewrite ?H1, ?H2, ?H3, ?H5; try done.
  eapply mirrored_ext; [exact H4|by rewrite H5| |done]. intros i op op'. rewrite H5. congruence.
Qed.

(** The checks of a turn never stop the process: a backup only happens when
    there is a tuple to take the sequence number from. *)
Lemma turn_checks d t t1 t2 :
  well_behaved -> head_inv t -> reverse_loop h c slot_seq (r_in_queue t) t = Ok t1 ->
  forward h c slot_seq d t1 = Ok t2 ->
  exists t', turn h c malloc garbage num_sender slot_seq d t = Ok t' /\ head_inv t' /\
    array <$> operators t' = array <$> operators t2.
Proof.
  intros Hwb Hh H1 H2. unfold turn. rewrite H1. cbn [mbind result_bind]. rewrite H2. cbn [mbind result_bind].
  assert (Hh1 : head_inv t1) by (eapply same_core_head; [by eapply reverse_loop_core|done]).
  destruct (forward_pending d t1 t2 Hwb Hh1 H2) as (Hl & Hp & Hn). by apply check_operators_ok.
Qed.

Lemma step_head d t t' :
  well_behaved -> head_inv t -> step h c malloc garbage num_sender slot_seq d t t' -> head_inv t'.
Proof.
  intros Hwb Hh Hs. destruct Hs as [t t' _ Ht|t x Hx|t x].
  - unfold turn in Ht. destruct (reverse_loop h c slot_seq (r_in_queue t) t) as [t1|] eqn:E1; [|done]. simpl in Ht.
    destruct (forward h c slot_seq d t1) as [t2|] eqn:E2; [|done]. simpl in Ht.
    destruct (turn_checks d t t1 t2 Hwb Hh E1 E2) as (t3 & Hrun & Hh' & _).
    unfold turn in Hrun. rewrite E1 in Hrun. simpl in Hrun. rewrite E2 in Hrun. simpl in Hrun. congruence.
  - destruct Hh as [[] Hw]. split; [|done]. split; cbn; try done. apply Forall_app. split; [done|]. by constructor.
  - destruct Hh as [[] Hw]. by split; [split|].
Qed.

Lemma steps_head d t t' :
  well_behaved -> head_inv t -> rtc (step h c malloc garbage num_sender slot_seq d) t t' -> head_inv t'.
Proof. intros Hwb Hh Hs. induction Hs; [done|]. apply IHHs. by eapply step_head. Qed.

End Loop.

End Bounded.

(** ** Theorems *)

Section Theorems.
Import MaxArray BackupSpec Bounded.



End Theorems.

(** ** Concrete threads *)

Module Sample.
Import MaxArray BackupSpec Bounded.

Abbreviation sample_thread := (thread unit NumericArray_MAX Z unit unit unit).

(** User code that stores each item in entry 0 of the first operator. *)
Definition store_first (u : unit) (ops : list NumericArray_MAX) (w t sq d : Z)
    : result (effect unit NumericArray_MAX unit unit) :=
  match ops with
  | [] => Ok {| e_user := tt; e_ops := []; e_out := []; e_rout := [] |}
  | op :: rest =>
      if ((- 2 ^ 62 <=? d) && (d <? 2 ^ 62)) then
        op' ← UpdateValue op 0 d;
        Ok {| e_user := tt; e_ops := op' :: rest; e_out := []; e_rout := [] |}
      else Stop OutOfBounds
  end.

Definition keep (u : unit) (ops : list NumericArray_MAX) : result (effect unit NumericArray_MAX unit unit) :=
  Ok {| e_user := tt; e_ops := ops; e_out := []; e_rout := [] |}.

Definition sample_handlers : handlers unit NumericArray_MAX Z unit unit unit :=
  {| ProcessData := store_first; ProcessPunc := keep; ProcessFeedback := fun u ops _ _ _ => keep u ops |}.

Definition sample_conf : conf :=
  {| wid := 0; tid := 0; num_upstream_ := 1; num_downstream_ := 0; reverse := false |}.

Definition sample_start (theta : Z) (q : list (WrapItem Z)) : sample_thread :=
  {| event_ := 0; r_event_ := 0; up_stop := 0; down_stop := 0; in_queue := q; r_in_queue := [];
     tuple := None; user := tt; operators := [new_NumericArray_MAX theta 1];
     cmd_item := Server.zero_item; out := []; r_out := []; client := Some (Server.new_server Server.zero_item) |}.

Definition sample_queue : list (WrapItem Z) :=
  [ {| type_ := ITEM_NORMAL; seq_ := 1; t_source_ := 0; w_source_ := 0; data_ := 5 |};
    {| type_ := ITEM_NORMAL; seq_ := 2; t_source_ := 0; w_source_ := 0; data_ := 6 |} ].

Abbreviation sample_turn := (turn sample_handlers sample_conf zeros Server.zero_item 1 0 tt).

(** The thread after it has processed both items. *)
Definition sample_end : sample_thread :=
  match sample_turn (sample_start 1 sample_queue) with
  | Ok t => match sample_turn t with Ok t => t | Stop _ => t end
  | Stop _ => sample_start 1 sample_queue
  end.

Lemma one_update_refl ops : Forall2 one_update ops ops.
Proof. induction ops; constructor; [by left|done]. Qed.

Lemma sample_well_behaved : well_behaved sample_handlers.
Proof.
  split.
  - intros u ops w t sq d e Hwf He. cbn in He. unfold store_first in He. destruct ops as [|op rest].
    + injection He as <-. constructor.
    + apply Forall_cons in Hwf as [[[Hl] ? ?] _]. destruct (_ && _) eqn:Hd; [|done].
      apply andb_true_iff in Hd as [H1 H2]. apply Z.leb_le in H1. apply Z.ltb_lt in H2.
      destruct (UpdateValue op 0 d) as [op'|] eqn:Hu; [|done]. cbn in He. injection He as <-.
      constructor; [|apply one_update_refl]. right. exists 0, d. split; [lia|done].
  - intros u ops e _ He. cbn in He. injection He as <-. apply one_update_refl.
  - intros u ops w t d e He. cbn in He. by injection He as <-.
Qed.

Lemma sample_head q : Forall (fun x => in_unsigned 64 (seq_ x)) q -> head_inv sample_conf [[]] (sample_start 1 q).
Proof.
  intros Hq. assert (Hinv : max_inv (new_NumericArray_MAX 1 1)).
  { by split; repeat constructor; vm_compute. }
  split.
  - split; cbn; try done; [by constructor; [split|]|]. split; [by apply new_server_ok|]. split.
    + intros th o s0 i v Hs Hv. destruct th as [|th]; [|done]. destruct o as [|o]; [|done].
      injection Hs as <-. destruct i as [|i]; [|done]. by injection Hv as <-.
    + done.
  - constructor; [|constructor]. split; [done|]. intros i a b Ha Hb. destruct i as [|i]; [|done].
    injection Ha as <-. injection Hb as <-. done.
Qed.

Lemma sample_steps :
  rtc (step sample_handlers sample_conf zeros Server.zero_item 1 0 tt) (sample_start 1 sample_queue) sample_end.
Proof.
  destruct (sample_turn (sample_start 1 sample_queue)) as [t1|] eqn:E1; [|by vm_compute in E1].
  destruct (sample_turn t1) as [t2|] eqn:E2.
  2: { vm_compute in E1. injection E1 as <-. by vm_compute in E2. }
  assert (sample_end = t2) as -> by (unfold sample_end; by rewrite E1, E2).
  eapply rtc_l; [apply step_turn; [done|exact E1]|].
  eapply rtc_l; [apply step_turn; [|exact E2]|apply rtc_refl].
  vm_compute in E1. by injection E1 as <-.
Qed.

Lemma no_other_ops th o s : op_at (S := NumericArray_MAX) [[]] th o = Some s -> label_range (0, Z.of_nat th, Z.of_nat o).
Proof. intros Hs. destruct th; [|done]. by destruct o. Qed.


Definition sample_server : Server.server := default (Server.new_server Server.zero_item) (client sample_end).

Definition sample_tracker : Tracker.OperatorTracker NumericArray_MAX :=
  {| Tracker.worker_id_ := 0; Tracker.operators_ := [[new_NumericArray_MAX 1 1]]; Tracker.seed_ := 0 |}.



(** With a negative threshold, the value the applications use when
    [sys.fault_tolerance.max_state_err] is not set, the first turn of a compute
    thread whose queue is still empty reads the sequence number of a null tuple. *)
Theorem idle_backup_reads_null_tuple : sample_turn (sample_start (-1) []) = Stop NullDeref.
Proof. vm_compute. reflexivity. Qed.

End Sample.

End Compute.
