(* ===== verification/Callbacks.v ===== *)
(** The callbacks between the network engines and the compute threads:
    [InCallbackSimple] (src/thread/in_callback_simple.hpp) puts received records
    into the rings of the compute threads and counts the upstream workers that
    finished; [OutCallbackSimple] (src/thread/out_callback_simple.hpp) takes
    records from the channel of the compute threads and counts the threads that
    finished.  The rings are those of RingBuffer and the channels those of Mpsc;
    the time stamps and the throughput report are left out. *)
From stdpp Require Import base numbers list gmap.
From Stdlib Require Import ZArith Lia.
From S2P Require Import Prelude RingBuffer Mpsc BackupItem Operators Backup BackupSpec ComputeThread.

Module Callbacks.
Import Compute.

(** ** Incoming records *)

Section In.
Context {T : Type}.

Record InCallbackSimple := mkInCallback {
  queues_ : list (Ring.ZeroRingBuffer (WrapItem T));
  stopped_ : list bool;
  num_in_ : Z;
  num_stop_ : Z;
  event_ : Z
}.

Definition new_InCallbackSimple (num_in : Z) : InCallbackSimple := mkInCallback [] [] num_in 0 0.

(** One entry of [stopped_] per queue. *)
Definition AddOutQueue (q : Ring.ZeroRingBuffer (WrapItem T)) (cb : InCallbackSimple) : InCallbackSimple :=
  mkInCallback (queues_ cb ++ [q]) (stopped_ cb ++ [false]) (num_in_ cb) (num_stop_ cb) (event_ cb).

Definition GetDestination (_ : WrapItem T) : Z := 0.

(** [Insert] waits while the ring is full. *)
Definition ring_insert (rb : Ring.ZeroRingBuffer (WrapItem T)) (x : WrapItem T)
    : result (Ring.ZeroRingBuffer (WrapItem T)) :=
  match Ring.Insert rb x with Some rb' => Ok rb' | None => Stop WouldBlock end.

(** [for (auto x : queues_) { x->Insert (data); x->Flush (); }]. *)
Fixpoint insert_flush_all (qs : list (Ring.ZeroRingBuffer (WrapItem T))) (x : WrapItem T)
    : result (list (Ring.ZeroRingBuffer (WrapItem T))) :=
  match qs with
  | [] => Ok []
  | rb :: qs' =>
      rb' ← ring_insert rb x;
      rest ← insert_flush_all qs' x;
      Ok (Ring.Flush rb' :: rest)
  end.

Definition PushRecord (cb : InCallbackSimple) (data : WrapItem T) : result (Z * InCallbackSimple) :=
  if bool_decide (type_ data = ITEM_FINISH) then
    let source := s32 (w_source_ data) in
    st ← at_index (stopped_ cb) source;
    if st : bool then Ok (0, cb)
    else
      stopped' ← set_index (stopped_ cb) source true;
      qs ← insert_flush_all (queues_ cb) data;
      let cb' := mkInCallback qs stopped' (num_in_ cb) (num_stop_ cb + 1) (event_ cb) in
      Ok (if num_stop_ cb' =? num_in_ cb' then 1 else 0, cb')
  else
    let d := GetDestination data in
    rb ← at_index (queues_ cb) d;
    rb' ← ring_insert rb data;
    qs ← set_index (queues_ cb) d rb';
    Ok (0, mkInCallback qs (stopped_ cb) (num_in_ cb) (num_stop_ cb) (event_ cb + 1)).

(** A sequence of records, with the codes [PushRecord] returned. *)
Definition push_all (cb : InCallbackSimple) (l : list (WrapItem T)) : result (list Z * InCallbackSimple) :=
  foldM (fun '(codes, cb) r => '(code, cb') ← PushRecord cb r; Ok (codes ++ [code], cb')) l ([], cb).

(** ** What the compute threads are promised *)

(** The contents of the queues and the upstream workers that finished. *)
Record in_spec := mkinspec { contents : list (list (WrapItem T)); finished : list Z }.

(** A record goes to the first compute thread; the first finish of every
    upstream worker goes to all of them, and the last worker ends the input. *)
Definition spec_push (num_in : Z) (s : in_spec) (r : WrapItem T) : Z * in_spec :=
  if bool_decide (type_ r = ITEM_FINISH) then
    if bool_decide (w_source_ r ∈ finished s) then (0, s)
    else (if Z.of_nat (length (finished s)) + 1 =? num_in then 1 else 0,
          mkinspec ((fun q => q ++ [r]) <$> contents s) (finished s ++ [w_source_ r]))
  else (0, mkinspec (alter (fun q => q ++ [r]) 0%nat (contents s)) (finished s)).

Fixpoint spec_push_all (num_in : Z) (s : in_spec) (l : list (WrapItem T)) : list Z * in_spec :=
  match l with
  | [] => ([], s)
  | r :: l' =>
      let '(code, s') := spec_push num_in s r in
      let '(codes, s'') := spec_push_all num_in s' l' in
      (code :: codes, s'')
  end.

(** A ring holds [q] and has room for [n] more items before its producer has to
    wait for the consumer. *)
Definition roomy (n : nat) (rb : Ring.ZeroRingBuffer (WrapItem T)) (q : list (WrapItem T)) : Prop :=
  (exists p, Ring.holds rb q p) /\
  Z.of_nat (length q) + Z.of_nat n + Ring.rBatchCount rb < Ring.max rb.

(** The callback implements the specification's state. *)
Definition cb_ok (n : nat) (cb : InCallbackSimple) (s : in_spec) : Prop :=
  Forall2 (roomy n) (queues_ cb) (contents s) /\
  length (stopped_ cb) = length (queues_ cb) /\
  (forall i b, stopped_ cb !! i = Some b -> b = bool_decide (Z.of_nat i ∈ finished s)) /\
  num_stop_ cb = Z.of_nat (length (finished s)).

(** The record's worker has a flag. *)
Definition known_source (k : nat) (r : WrapItem T) : Prop :=
  type_ r = ITEM_FINISH -> 0 <= w_source_ r < Z.of_nat k /\ w_source_ r < 2 ^ 31.

Lemma roomy_insert n rb q x :
  roomy (S n) rb q ->
  exists rb', ring_insert rb x = Ok rb' /\ roomy n rb' (q ++ [x]).
Proof.
  intros [[p Hp] Hroom]. unfold ring_insert.
  destruct (Ring.Insert_total rb q p x Hp) as [rb' Hrb]; [lia|]. rewrite Hrb. exists rb'. split; [done|].
  destruct (Ring.Insert_holds _ _ _ _ _ Hp Hrb) as (p' & Hp' & _ & Hm & _). split; [by eexists|].
  rewrite length_app, Hm, (Ring.Insert_rBatchCount _ _ _ Hrb). simpl. lia.
Qed.

Lemma roomy_flush n rb q : roomy n rb q -> roomy n (Ring.Flush rb) q.
Proof.
  intros [[p Hp] Hroom]. destruct (Ring.Flush_holds _ _ _ Hp) as (Hf & Hm & _). split; [by eexists|].
  by rewrite Hm.
Qed.

Lemma roomy_less n rb q : roomy (S n) rb q -> roomy n rb q.
Proof. intros [? ?]. split; [done|lia]. Qed.

Lemma insert_flush_all_spec n rbs qs x :
  Forall2 (roomy (S n)) rbs qs ->
  exists rbs', insert_flush_all rbs x = Ok rbs' /\ Forall2 (roomy n) rbs' ((fun q => q ++ [x]) <$> qs).
Proof.
  induction 1 as [|rb q rbs qs Hr _ IH]; simpl; [by eauto|].
  destruct (roomy_insert _ _ _ x Hr) as (rb' & -> & Hr'). destruct IH as (rbs' & -> & Hall). simpl.
  eexists. split; [done|]. constructor; [by apply roomy_flush|done].
Qed.

Lemma push_step n cb s r :
  cb_ok (S n) cb s -> contents s <> [] -> known_source (length (queues_ cb)) r ->
  exists cb', PushRecord cb r = Ok ((spec_push (num_in_ cb) s r).1, cb') /\
    cb_ok n cb' (spec_push (num_in_ cb) s r).2 /\ num_in_ cb' = num_in_ cb /\
    length (queues_ cb') = length (queues_ cb).
Proof.
  intros (Hq & Hlen & Hst & Hns) Hne Hsrc. unfold PushRecord, spec_push.
  assert (Hless : Forall2 (roomy n) (queues_ cb) (contents s)) by (eapply Forall2_impl; [done|apply roomy_less]).
  case_bool_decide as Hty.
  - destruct (Hsrc Hty) as [Hk H31]. rewrite (signed_of_small 32) by (try lia; split; simpl; lia).
    destruct (lookup_lt_is_Some_2 (stopped_ cb) (Z.to_nat (w_source_ r))) as [b Hb]; [lia|].
    pose proof (Hst _ _ Hb) as Hbv. rewrite Z2Nat.id in Hbv by lia.
    rewrite (proj2 (at_index_ok (stopped_ cb) (w_source_ r) b)) by (split; [lia|done]). cbn [mbind result_bind].
    subst b. case_bool_decide as Hin.
    + exists cb. by split_and!.
    + rewrite set_index_ok by lia. cbn [mbind result_bind].
      destruct (insert_flush_all_spec _ _ _ r Hq) as (qs' & Hqs & Hall). rewrite Hqs. cbn [mbind result_bind].
      simpl. rewrite Hns. eexists. split; [done|]. split; [|split; [done|]].
      2:{ apply Forall2_length in Hall, Hq. simpl. rewrite length_fmap in Hall. lia. }
      split_and!; simpl; [done| | |].
      * rewrite length_insert, Hlen. apply Forall2_length in Hall, Hq. rewrite length_fmap in Hall. lia.
      * intros i b Hib. rewrite list_lookup_insert in Hib. case_decide as E.
        -- destruct E as [<- _]. injection Hib as <-. symmetry. apply bool_decide_eq_true.
           apply elem_of_app. right. rewrite Z2Nat.id by lia. by apply list_elem_of_singleton.
        -- rewrite (Hst _ _ Hib). apply bool_decide_ext. rewrite elem_of_app, list_elem_of_singleton.
           apply lookup_lt_Some in Hib. split; [tauto|]. intros [?|Hi]; [done|]. destruct E. split; lia.
      * rewrite length_app. simpl. lia.
  - unfold GetDestination. destruct (queues_ cb) as [|rb rbs] eqn:Hqs; [by apply Forall2_nil_inv_l in Hq|].
    apply Forall2_cons_inv_l in Hq as (q & qs & Hr & Hrs & Hcs). rewrite Hcs in *.
    rewrite (proj2 (at_index_ok (rb :: rbs) 0 rb)) by (split; [lia|done]). cbn [mbind result_bind].
    destruct (roomy_insert _ _ _ r Hr) as (rb' & Hins & Hr'). rewrite Hins. cbn [mbind result_bind].
    rewrite set_index_ok by (simpl; lia). simpl. eexists. split; [done|]. apply Forall2_cons in Hless as [_ Hless].
    split; [|split; [done|simpl; lia]]. split_and!; simpl; [|done|done|done]. by constructor.
Qed.

(** Everything was said: the whole sequence follows the specification. *)
Lemma push_all_spec l codes cb s :
  cb_ok (length l) cb s -> contents s <> [] -> Forall (known_source (length (queues_ cb))) l ->
  exists cb', foldM (fun '(codes, cb) r => '(code, cb') ← PushRecord cb r; Ok (codes ++ [code], cb')) l (codes, cb)
      = Ok (codes ++ (spec_push_all (num_in_ cb) s l).1, cb') /\
    cb_ok 0 cb' (spec_push_all (num_in_ cb) s l).2.
Proof.
  revert codes cb s. induction l as [|r l IH]; intros codes cb s Hok Hne Hsrc.
  { exists cb. simpl. by rewrite app_nil_r. }
  apply Forall_cons in Hsrc as [Hr Hsrc]. destruct (push_step _ _ _ _ Hok Hne Hr) as (cb1 & Hpush & Hok1 & Hn & Hl).
  cbn [foldM mbind result_bind]. rewrite Hpush. cbn [mbind result_bind spec_push_all].
  destruct (spec_push (num_in_ cb) s r) as [code s1] eqn:Hs. simpl in Hok1 |- *. rewrite <- Hl in Hsrc.
  assert (Hne1 : contents s1 <> []).
  { unfold spec_push in Hs. destruct (contents s) eqn:Hc; [done|].
    repeat case_bool_decide; simplify_eq; simpl; congruence. }
  destruct (IH (codes ++ [code]) cb1 s1 Hok1 Hne1 Hsrc) as (cb' & Hrun & Hok').
  rewrite Hn in Hrun, Hok'. exists cb'. rewrite Hrun.
  destruct (spec_push_all (num_in_ cb) s1 l) as [codes' s'] eqn:Hs'. simpl in *. by rewrite <- app_assoc.
Qed.

End In.

Arguments InCallbackSimple : clear implicits.
Arguments in_spec : clear implicits.

(** ** Outgoing records *)

Section Out.
Context {A T : Type}.

(** The items behind the slot pointers. *)
Context (mem : A -> WrapItem T).

Record OutCallbackSimple := mkOutCallback {
  reader_ : Mpsc.MPSCReader;
  o_num_in_ : Z;
  o_num_stop_ : Z;
  o_event_ : Z      (* size_t *)
}.

(** The record is passed on to the engine, which acknowledges it later; the
    finish items of all threads but the last one are acknowledged here. *)
Definition PullRecord (h : Mpsc.store A) (cb : OutCallbackSimple)
    : result (Z * option A * (Mpsc.store A * OutCallbackSimple)) :=
  '(d, h1) ← Mpsc.Read h (reader_ cb);
  match d with
  | None => Ok (0, None, (h1, cb))
  | Some a =>
      let ev := u64 (o_event_ cb + 1) in
      if bool_decide (type_ (mem a) = ITEM_FINISH) then
        let cb' := mkOutCallback (reader_ cb) (o_num_in_ cb) (o_num_stop_ cb + 1) ev in
        h2 ← Mpsc.flush_peers h1 (Mpsc.r_obj (reader_ cb));
        if o_num_stop_ cb' =? o_num_in_ cb' then Ok (1, Some a, (h2, cb'))
        else
          h3 ← Mpsc.Ack h2 (reader_ cb) (s32 (t_source_ (mem a))) a;
          Ok (0, None, (h3, cb'))
      else Ok (0, Some a, (h1, mkOutCallback (reader_ cb) (o_num_in_ cb) (o_num_stop_ cb) ev))
  end.

Definition Ack (h : Mpsc.store A) (cb : OutCallbackSimple) (data : A) : result (Mpsc.store A) :=
  Mpsc.Ack h (reader_ cb) (s32 (t_source_ (mem data))) data.

Definition Flush (h : Mpsc.store A) (cb : OutCallbackSimple) : result (Mpsc.store A) :=
  Mpsc.flush_peers h (Mpsc.r_obj (reader_ cb)).

End Out.

(** ** Theorems *)


(** The output callback only moves slots: [PullRecord] is a sequence of
    operations of the channel that ends with the record it returns held by the
    caller and nothing else; it reports the end of the output with the finish
    item of the last thread and with no other record. *)
Theorem pull_record_steps {A T} (mem : A -> WrapItem T) h cb code d h' cb' held :
  PullRecord mem h cb = Ok (code, d, (h', cb')) ->
  rtc Mpsc.chan_step (h, held) (h', option_list d ++ held) /\
  (code = 1 <-> exists a, d = Some a /\ type_ (mem a) = ITEM_FINISH) /\
  (code = 1 -> o_num_stop_ cb' = o_num_in_ cb).
Proof.
  unfold PullRecord. intros H. destruct (Mpsc.Read h (reader_ cb)) as [[[a|] h1]|] eqn:Hrd; [| |done].
  2:{ injection H as <- <- <- <-. split_and!; [|split; [done|by intros (?&?&?)]|done]. apply rtc_once. by eapply Mpsc.cs_read_none. }
  cbn [mbind result_bind] in H. pose proof (Mpsc.cs_read h (reader_ cb) a h1 held Hrd) as Hread.
  case_bool_decide as Hty.
  - destruct (Mpsc.flush_peers h1 (Mpsc.r_obj (reader_ cb))) as [h2|] eqn:Hfl; [|done]. cbn [mbind result_bind] in H. simpl in H.
    pose proof (Mpsc.cs_flush h1 _ h2 (a :: held) Hfl) as Hflush.
    destruct (Z.eqb_spec (o_num_stop_ cb + 1) (o_num_in_ cb)) as [E|E].
    + injection H as <- <- <- <-. split_and!; [|by split; eauto|done]. simpl. eapply rtc_l; [done|]. by apply rtc_once.
    + destruct (Mpsc.Ack _ _ _ _) as [h3|] eqn:Hack in H; [|done]. injection H as <- <- <- <-.
      split_and!; [|split; [done|by intros (?&?&?)]|done]. simpl. eapply rtc_l; [done|]. eapply rtc_l; [done|]. apply rtc_once.
      by eapply (Mpsc.cs_ack _ (reader_ cb) (s32 (t_source_ (mem a))) a).
  - injection H as <- <- <- <-. split_and!; [by apply rtc_once|split; [done|by intros (?&[= <-]&?)]|done].
Qed.

(** A finish item of a worker whose number is not below the number of compute
    threads is outside [stopped_]. *)
Lemma unknown_upstream_out_of_bounds {T} (cb : InCallbackSimple T) r :
  type_ r = ITEM_FINISH -> Z.of_nat (length (stopped_ cb)) <= w_source_ r < 2 ^ 31 ->
  PushRecord cb r = Stop OutOfBounds.
Proof.
  intros Hty Hs. unfold PushRecord. rewrite bool_decide_true by done.
  rewrite (signed_of_small 32) by (try lia; split; simpl; lia). unfold at_index.
  destruct (Z.ltb_spec (w_source_ r) 0); [lia|]. by rewrite lookup_ge_None_2 by lia.
Qed.

(** ** Samples *)

Section Sample.

Definition item (ty : ITEM_TYPE) (src d : Z) : WrapItem Z := mkWrapItem ty 0 0 src d.

Definition two_threads : InCallbackSimple Z :=
  let rb := Ring.new_ZeroRingBuffer 0 (item ITEM_NORMAL 0 0) false in
  AddOutQueue rb (AddOutQueue rb (new_InCallbackSimple 2)).

Definition arrivals : list (WrapItem Z) :=
  [item ITEM_NORMAL 0 7; item ITEM_FINISH 1 0; item ITEM_FINISH 1 0; item ITEM_NORMAL 0 8; item ITEM_FINISH 0 0].


Definition one_reader : OutCallbackSimple := mkOutCallback (Mpsc.mkMPSCReader (Mpsc.mkMPSCObject 0 []) 0) 1 0 0.

Lemma pull_record_steps_witness :
  exists h' cb', rtc Mpsc.chan_step ([Mpsc.two_items], []) (h', [7]) /\ o_num_stop_ cb' = 1 /\
    PullRecord (fun _ => item ITEM_FINISH 0 0) [Mpsc.two_items] one_reader = Ok (1, Some 7, (h', cb')).
Proof.
  destruct (PullRecord (fun _ => item ITEM_FINISH 0 0) [Mpsc.two_items] one_reader) as [[[code d] [h' cb']]|] eqn:E;
    [|by vm_compute in E].
  destruct (pull_record_steps _ _ _ _ _ _ _ [] E) as (H1 & _ & H3).
  assert (Hc : code = 1) by (vm_compute in E; by injection E). assert (Hd : d = Some 7) by (vm_compute in E; by injection E).
  subst. exists h', cb'. split_and!; [exact H1|by apply H3|done].
Defined.

End Sample.

End Callbacks.
