(* ===== verification/Worker.v ===== *)
(** The worker and its threads: the life of a thread
    ([ThreadBase::thread_fun], src/thread/thread.cpp) and the main routine of
    the worker ([Worker::Start], src/thread/worker.hpp), which creates the
    threads, releases them, serves their backup requests and collects them at
    the end.  They talk through two mailboxes per thread; the file Mailbox shows
    that a mailbox is a FIFO queue that neither loses commands nor wake-ups, so
    a mailbox is a list here.  Each step sends or receives one command; worker
    and threads interleave arbitrarily.  The handlers of the threads
    ([ThreadInitHandler] and so on) are the steps that do not touch the
    mailboxes; a compute thread may ask for a backup any number of times
    (src/thread/compute_thread.hpp, lines 336-356).  What Start
    does before it releases the threads (ids, CPU affinity, the connection of the
    queues) is in the file Wiring, the ZooKeeper client in ZkClients and the
    retrieval of backups in recovery mode in Backup and BackupSpec. *)
From stdpp Require Import base numbers list relations.
From Stdlib Require Import ZArith Lia.
From S2P Require Import Prelude.

Module Worker.

Section Protocol.
Context {B : Type}.    (* backup items *)

(** [command_t]; a backup request carries its item, the answer carries none. *)
Inductive command :=
| ready
| clean
| finish
| backup (it : option B).

(** Where a thread is in [thread_fun]. *)
Inductive thread_pc :=
| T_uncreated
| T_init          (* before [NotifyWorker (ready)] *)
| T_wait_ready    (* [WaitWorker (ready, true)] *)
| T_main          (* in [ThreadMainHandler] *)
| T_wait_backup   (* [WaitWorker (backup, true)] *)
| T_wait_clean    (* [WaitWorker (clean, true)] *)
| T_clean         (* in [ThreadFinishHandler] *)
| T_done.

(** A thread with its mailboxes, and the backups it asked for. *)
Record thread := mkthread {
  tpc : thread_pc;
  thread_to_main_ : list command;
  main_to_thread_ : list command;
  submitted : list B
}.

Definition NotifyWorker (cmd : command) (t : thread) : thread :=
  mkthread (tpc t) (thread_to_main_ t ++ [cmd]) (main_to_thread_ t) (submitted t).

Definition NotifyThread (cmd : command) (t : thread) : thread :=
  mkthread (tpc t) (thread_to_main_ t) (main_to_thread_ t ++ [cmd]) (submitted t).

Definition goto (pc : thread_pc) (t : thread) : thread :=
  mkthread pc (thread_to_main_ t) (main_to_thread_ t) (submitted t).

Definition submit (it : B) (t : thread) : thread :=
  mkthread (tpc t) (thread_to_main_ t) (main_to_thread_ t) (submitted t ++ [it]).

(** Same type, whatever the arguments are. *)
Definition same_type (c c' : command) : bool :=
  match c, c' with
  | ready, ready | clean, clean | finish, finish | backup _, backup _ => true
  | _, _ => false
  end.

(** [WaitWorker (type, true)] and [WaitThread (type)] once a command is there:
    it is taken, and must have the expected type. *)
Definition WaitWorker (type : command) (t : thread) : option (result thread) :=
  match main_to_thread_ t with
  | [] => None
  | cmd :: rest =>
      Some (_ ← afs_assert (same_type cmd type);
            Ok (mkthread (tpc t) (thread_to_main_ t) rest (submitted t)))
  end.

Definition WaitThread (t : thread) : option (command * thread) :=
  match thread_to_main_ t with
  | [] => None
  | cmd :: rest => Some (cmd, mkthread (tpc t) rest (main_to_thread_ t) (submitted t))
  end.

Definition WaitThread_type (type : command) (t : thread) : option (result thread) :=
  '(cmd, t') ← WaitThread t;
  Some (_ ← afs_assert (same_type cmd type); Ok t').

(** [thread_fun], one command at a time; only compute threads ask for
    backups. *)
Inductive thread_step (compute : bool) : thread -> result thread -> Prop :=
| ts_init t :
    tpc t = T_init -> thread_step compute t (Ok (goto T_wait_ready (NotifyWorker ready t)))
| ts_start t o :
    tpc t = T_wait_ready -> WaitWorker ready t = Some o ->
    thread_step compute t (t' ← o; Ok (goto T_main t'))
| ts_backup t it :
    compute = true -> tpc t = T_main ->
    thread_step compute t (Ok (goto T_wait_backup (NotifyWorker (backup (Some it)) (submit it t))))
| ts_backup_done t o :
    tpc t = T_wait_backup -> WaitWorker (backup None) t = Some o ->
    thread_step compute t (t' ← o; Ok (goto T_main t'))
| ts_main_end t :
    tpc t = T_main -> thread_step compute t (Ok (goto T_wait_clean (NotifyWorker finish t)))
| ts_clean t o :
    tpc t = T_wait_clean -> WaitWorker clean t = Some o ->
    thread_step compute t (t' ← o; Ok (goto T_clean t'))
| ts_end t :
    tpc t = T_clean -> thread_step compute t (Ok (goto T_done (NotifyWorker finish t))).

(** Where the worker is in [Start]; the index is that of a thread: 0 is the up
    thread, then the compute threads, then the down thread if there is one. *)
Inductive worker_pc :=
| W_create (i : nat)
| W_wait_ready (i : nat)
| W_notify (i : nat)
| W_loop (i : nat)
| W_wait_down
| W_clean (i : nat)
| W_wait_finish (i : nat)
| W_end.

(** What the worker knows of a thread. *)
Inductive phase := P_uncreated | P_created | P_ready | P_running | P_finished | P_cleaned | P_over.

#[global] Instance phase_eq_dec : EqDecision phase.
Proof. solve_decision. Defined.

#[global] Instance worker_pc_eq_dec : EqDecision worker_pc.
Proof. solve_decision. Defined.

(** The worker with its threads.  [log] are the items the
    worker took for [MakeBackup], which it calls when it has a backup client;
    [phases] repeats what the program counter and the received commands say of
    each thread. *)
Record sys := mksys {
  threads : list thread;
  phases : list phase;
  wpc : worker_pc;
  stop : Z;
  log : list (nat * B)
}.

Context (n : nat) (has_down : bool).

Definition num_threads : nat := S n + (if has_down then 1 else 0).
Definition max_stop : Z := Z.of_nat n + 1.

(** Replace thread [i] and its phase, and go on at [w]. *)
Definition update (i : nat) (t : thread) (p : phase) (w : worker_pc) (s : sys) : sys :=
  mksys (<[i := t]> (threads s)) (<[i := p]> (phases s)) w (stop s) (log s).

Definition at_pc (w : worker_pc) (s : sys) : sys := mksys (threads s) (phases s) w (stop s) (log s).

(** What the loop does with a command of thread [i]. *)
Definition serve (i : nat) (cmd : command) (t : thread) (s : sys) : result sys :=
  match cmd with
  | finish =>
      Ok (mksys (<[i := t]> (threads s)) (<[i := P_finished]> (phases s)) (W_loop (S i)) (stop s + 1) (log s))
  | backup (Some it) =>
      let t' := if (i =? 0)%nat then t else NotifyThread (backup None) t in
      Ok (mksys (<[i := t']> (threads s)) (phases s) (W_loop (S i)) (stop s) (log s ++ [(i, it)]))
  | _ => Stop AssertFailed
  end.

Inductive worker_step : sys -> result sys -> Prop :=
| ws_create s i t :
    wpc s = W_create i -> threads s !! i = Some t ->
    worker_step s (Ok (update i (goto T_init t) P_created (W_wait_ready i) s))
| ws_created s :
    wpc s = W_create num_threads -> worker_step s (Ok (at_pc (W_notify 0) s))
| ws_ready s i t o :
    wpc s = W_wait_ready i -> threads s !! i = Some t -> WaitThread_type ready t = Some o ->
    worker_step s (t' ← o; Ok (update i t' P_ready (W_create (S i)) s))
| ws_notify s i t :
    wpc s = W_notify i -> threads s !! i = Some t ->
    worker_step s (Ok (update i (NotifyThread ready t) P_running (W_notify (S i)) s))
| ws_notified s :
    wpc s = W_notify num_threads -> worker_step s (Ok (at_pc (W_loop 0) s))
| ws_poll_nothing s i t :
    wpc s = W_loop i -> (i <= n)%nat -> threads s !! i = Some t -> WaitThread t = None ->
    worker_step s (Ok (at_pc (W_loop (S i)) s))
| ws_poll s i t cmd t' :
    wpc s = W_loop i -> (i <= n)%nat -> threads s !! i = Some t -> WaitThread t = Some (cmd, t') ->
    worker_step s (serve i cmd t' s)
| ws_again s :
    wpc s = W_loop (S n) -> stop s <> max_stop -> worker_step s (Ok (at_pc (W_loop 0) s))
| ws_break s :
    wpc s = W_loop (S n) -> stop s = max_stop ->
    worker_step s (Ok (at_pc (if has_down then W_wait_down else W_clean 0) s))
| ws_down s t o :
    wpc s = W_wait_down -> threads s !! S n = Some t -> WaitThread_type finish t = Some o ->
    worker_step s (t' ← o; Ok (update (S n) t' P_finished (W_clean 0) s))
| ws_clean s i t :
    wpc s = W_clean i -> threads s !! i = Some t ->
    worker_step s (Ok (update i (NotifyThread clean t) P_cleaned (W_wait_finish i) s))
| ws_cleaned s i t o :
    wpc s = W_wait_finish i -> threads s !! i = Some t -> WaitThread_type finish t = Some o ->
    worker_step s (t' ← o; Ok (update i t' P_over (W_clean (S i)) s))
| ws_end s :
    wpc s = W_clean num_threads -> worker_step s (Ok (at_pc W_end s)).

Definition is_compute (i : nat) : bool := (0 <? i)%nat && (i <=? n)%nat.

Inductive step : sys -> result sys -> Prop :=
| st_worker s o : worker_step s o -> step s o
| st_thread s i t o :
    threads s !! i = Some t -> thread_step (is_compute i) t o ->
    step s (t' ← o; Ok (mksys (<[i := t']> (threads s)) (phases s) (wpc s) (stop s) (log s))).

Definition reaches (s s' : sys) : Prop := rtc (fun s s' => step s (Ok s')) s s'.

Definition start : sys :=
  mksys (replicate num_threads (mkthread T_uncreated [] [] [])) (replicate num_threads P_uncreated) (W_create 0) 0 [].

End Protocol.

Arguments command : clear implicits.
Arguments thread : clear implicits.
Arguments sys : clear implicits.

(** ** The protocol's invariant *)

Section Invariant.
Context {B : Type} (n : nat) (has_down : bool).
Implicit Types (s : sys B) (t : thread B) (lg : list (nat * B)).

(** The items logged for thread [i]. *)
Definition log_of (i : nat) lg : list B := snd <$> filter (fun x => x.1 = i) lg.

(** What a thread and its mailboxes can be when the worker knows its phase. *)
Inductive coherent (compute : bool) (logged : list B) : phase -> thread B -> Prop :=
| co_uncreated : coherent compute logged P_uncreated (mkthread T_uncreated [] [] logged)
| co_init : coherent compute logged P_created (mkthread T_init [] [] logged)
| co_ready : coherent compute logged P_created (mkthread T_wait_ready [ready] [] logged)
| co_waiting : coherent compute logged P_ready (mkthread T_wait_ready [] [] logged)
| co_released : coherent compute logged P_running (mkthread T_wait_ready [] [ready] logged)
| co_main : coherent compute logged P_running (mkthread T_main [] [] logged)
| co_asking it : compute = true ->
    coherent compute logged P_running (mkthread T_wait_backup [backup (Some it)] [] (logged ++ [it]))
| co_answered : compute = true ->
    coherent compute logged P_running (mkthread T_wait_backup [] [backup None] logged)
| co_finishing : coherent compute logged P_running (mkthread T_wait_clean [finish] [] logged)
| co_finished : coherent compute logged P_finished (mkthread T_wait_clean [] [] logged)
| co_clean : coherent compute logged P_cleaned (mkthread T_wait_clean [] [clean] logged)
| co_cleaning : coherent compute logged P_cleaned (mkthread T_clean [] [] logged)
| co_ending : coherent compute logged P_cleaned (mkthread T_done [finish] [] logged)
| co_over : coherent compute logged P_over (mkthread T_done [] [] logged).

(** The phase of thread [i] at every point of [Start]. *)
Definition phase_at (w : worker_pc) (i : nat) (p : phase) : Prop :=
  match w with
  | W_create k => p = if (i <? k)%nat then P_ready else P_uncreated
  | W_wait_ready k => p = if (i <? k)%nat then P_ready else if (i =? k)%nat then P_created else P_uncreated
  | W_notify k => p = if (i <? k)%nat then P_running else P_ready
  | W_loop k => p = P_running \/ p = P_finished /\ (i <= n)%nat
  | W_wait_down => p = if (i <=? n)%nat then P_finished else P_running
  | W_clean k => p = if (i <? k)%nat then P_over else P_finished
  | W_wait_finish k => p = if (i <? k)%nat then P_over else if (i =? k)%nat then P_cleaned else P_finished
  | W_end => p = P_over
  end.

Definition pc_range (w : worker_pc) : Prop :=
  match w with
  | W_create k | W_notify k | W_clean k => (k <= num_threads n has_down)%nat
  | W_wait_ready k | W_wait_finish k => (k < num_threads n has_down)%nat
  | W_loop k => (k <= S n)%nat
  | W_wait_down => has_down = true
  | W_end => True
  end.

Definition finished_count (ps : list phase) : nat := length (filter (fun p => p = P_finished) (take (S n) ps)).

Record inv s : Prop := mkinv {
  i_threads : length (threads s) = num_threads n has_down;
  i_phases : length (phases s) = num_threads n has_down;
  i_coherent : forall i t p, threads s !! i = Some t -> phases s !! i = Some p ->
    coherent (is_compute n i) (log_of i (log s)) p t;
  i_phase_at : forall i p, phases s !! i = Some p -> phase_at (wpc s) i p;
  i_range : pc_range (wpc s);
  i_stop : match wpc s with
           | W_create _ | W_wait_ready _ | W_notify _ => stop s = 0
           | W_loop _ => stop s = Z.of_nat (finished_count (phases s))
           | _ => True
           end
}.

#[local] Hint Constructors coherent : core.

Lemma thread_step_coherent b logged p t o :
  coherent b logged p t -> thread_step b t o -> exists t', o = Ok t' /\ coherent b logged p t'.
Proof.
  intros Hc Hs. destruct Hs; destruct Hc; unfold WaitWorker in *; simplify_eq/=;
    (eexists; split; [reflexivity|]); unfold goto, NotifyWorker, submit; simpl; auto.
Qed.

Lemma inv_start : inv (start n has_down).
Proof.
  split; unfold start; cbn [threads phases wpc stop log]; rewrite ?length_replicate; try done; try (simpl; lia).
  - intros i t p [-> _]%lookup_replicate [-> _]%lookup_replicate. constructor.
  - by intros i p [-> _]%lookup_replicate.
Qed.

Lemma inv_thread_step s i t o :
  inv s -> threads s !! i = Some t -> thread_step (is_compute n i) t o ->
  exists t', o = Ok t' /\ inv (mksys (<[i := t']> (threads s)) (phases s) (wpc s) (stop s) (log s)).
Proof.
  intros [Hlt Hlp Hcoh Hph Hrg Hst] Ht Hs.
  destruct (lookup_lt_is_Some_2 (phases s) i) as [p Hp]; [apply lookup_lt_Some in Ht; lia|].
  destruct (thread_step_coherent _ _ _ _ _ (Hcoh _ _ _ Ht Hp) Hs) as (t' & -> & Hc').
  exists t'. split; [done|]. split; simpl; rewrite ?length_insert; try done.
  intros j t1 p1 Hj Hpj. rewrite list_lookup_insert in Hj. case_decide as E; [|by apply Hcoh].
  destruct E as [-> _]. injection Hj as <-. rewrite Hp in Hpj. by injection Hpj as <-.
Qed.

(** The worker's updates: thread [i] changes, the log does not. *)
Lemma inv_update s i t p w :
  inv s -> (i < num_threads n has_down)%nat -> coherent (is_compute n i) (log_of i (log s)) p t ->
  (forall j q, <[i := p]> (phases s) !! j = Some q -> phase_at w j q) -> pc_range w ->
  match w with
  | W_create _ | W_wait_ready _ | W_notify _ => stop s = 0
  | W_loop _ => stop s = Z.of_nat (finished_count (<[i := p]> (phases s)))
  | _ => True
  end -> inv (update i t p w s).
Proof.
  intros [Hlt Hlp Hcoh Hph Hrg Hst] Hi Hc Hw Hr Hs. split; simpl; rewrite ?length_insert; try done.
  intros j t1 p1 Hj Hpj. destruct (decide (i = j)) as [<-|Hne].
  - rewrite list_lookup_insert_eq in Hj by lia. rewrite list_lookup_insert_eq in Hpj by lia. by simplify_eq.
  - rewrite list_lookup_insert_ne in Hj by done. rewrite list_lookup_insert_ne in Hpj by done. by apply Hcoh.
Qed.

Lemma inv_at_pc s w :
  inv s -> (forall j q, phases s !! j = Some q -> phase_at (wpc s) j q -> phase_at w j q) -> pc_range w ->
  match w with
  | W_create _ | W_wait_ready _ | W_notify _ => stop s = 0
  | W_loop _ => stop s = Z.of_nat (finished_count (phases s))
  | _ => True
  end -> inv (at_pc w s).
Proof. intros [Hlt Hlp Hcoh Hph Hrg Hst] Hw Hr Hs. split; simpl; eauto. Qed.

Lemma log_of_app i lg j (it : B) :
  log_of i (lg ++ [(j, it)]) = log_of i lg ++ (if decide (j = i) then [it] else []).
Proof.
  unfold log_of. rewrite filter_app, fmap_app. f_equal. rewrite filter_cons. simpl. by case_decide.
Qed.

Lemma filter_insert_running (ps : list phase) i :
  ps !! i = Some P_running ->
  length (filter (fun p => p = P_finished) (<[i := P_finished]> ps)) = S (length (filter (fun p => p = P_finished) ps)).
Proof.
  revert i. induction ps as [|q ps IH]; intros [|i] Hi; simplify_eq/=; [done|].
  rewrite !filter_cons. specialize (IH _ Hi). case_decide; simpl; rewrite IH; done.
Qed.

Lemma finished_count_insert (ps : list phase) i :
  ps !! i = Some P_running -> (i <= n)%nat ->
  finished_count (<[i := P_finished]> ps) = S (finished_count ps).
Proof.
  intros Hi Hle. unfold finished_count. rewrite take_insert_lt by lia. rewrite filter_insert_running; [done|].
  by rewrite lookup_take_lt by lia.
Qed.

Lemma finished_count_zero (ps : list phase) :
  (forall i p, ps !! i = Some p -> p <> P_finished) -> finished_count ps = 0%nat.
Proof.
  intros Hp. unfold finished_count.
  destruct (filter (fun p => p = P_finished) (take (S n) ps)) as [|p l] eqn:E; [done|].
  assert (Hin : p ∈ filter (fun p => p = P_finished) (take (S n) ps)) by (rewrite E; apply list_elem_of_here).
  apply list_elem_of_filter in Hin as [-> Hin]. apply list_elem_of_lookup in Hin as [i Hi].
  apply lookup_take_Some in Hi as [Hi _]. by destruct (Hp i P_finished).
Qed.

Lemma finished_count_full (ps : list phase) i p :
  finished_count ps = S n -> (i <= n)%nat -> ps !! i = Some p -> p = P_finished.
Proof.
  unfold finished_count. intros Hc Hi Hp.
  assert (Hall : Forall (fun p => p = P_finished) (take (S n) ps)).
  { apply Forall_forall. intros q Hq. destruct (decide (q = P_finished)) as [|Hne]; [done|]. exfalso.
    pose proof (length_filter_lt (fun p => p = P_finished) (take (S n) ps) q Hq Hne) as Hlt.
    rewrite length_take in Hlt. lia. }
  apply (Forall_lookup_1 _ _ i _ Hall). by rewrite lookup_take_lt by lia.
Qed.

(** Phases after an update of one thread, from those before. *)
Ltac solve_phases :=
  intros ?j ?q ?Hq;
  match goal with Hq : <[?i := ?p]> ?ps !! ?j = Some ?q |- _ =>
    destruct (decide (i = j)) as [<-|];
    [ rewrite list_lookup_insert_eq in Hq by lia; simplify_eq
    | rewrite list_lookup_insert_ne in Hq by done ]
  end;
  repeat match goal with Hp : forall i p, phases _ !! i = Some p -> _, Hq : phases _ !! _ = Some _ |- _ =>
    let H := fresh "Hat" in pose proof (Hp _ _ Hq) as H; clear Hq end;
  simpl in *;
  repeat match goal with
  | |- context [(?a <? ?b)%nat] => destruct (Nat.ltb_spec a b)
  | |- context [(?a =? ?b)%nat] => destruct (Nat.eqb_spec a b)
  | H : context [(?a <? ?b)%nat] |- _ => destruct (Nat.ltb_spec a b)
  | H : context [(?a =? ?b)%nat] |- _ => destruct (Nat.eqb_spec a b)
  end; try done; try lia.

Lemma inv_worker_step s o : inv s -> worker_step n has_down s o -> exists s', o = Ok s' /\ inv s'.
Proof.
  intros Hinv Hs. pose proof Hinv as [Hlt Hlp Hcoh Hph Hrg Hst].
  assert (Hget : forall i t, threads s !! i = Some t -> (i < num_threads n has_down)%nat /\ exists p, phases s !! i = Some p /\
            phase_at (wpc s) i p /\ coherent (is_compute n i) (log_of i (log s)) p t).
  { intros i t Ht. pose proof (lookup_lt_Some _ _ _ Ht). split; [lia|].
    destruct (lookup_lt_is_Some_2 (phases s) i) as [p Hp]; [lia|]. exists p. split_and!; [done|by apply Hph|by apply Hcoh]. }
  destruct Hs as [s i t Hw Ht|s Hw|s i t o Hw Ht Ho|s i t Hw Ht|s Hw|s i t Hw Hi Ht Hnone|s i t cmd t' Hw Hi Ht Hcmd
                 |s Hw Hstop|s Hw Hstop|s t o Hw Ht Ho|s i t Hw Ht|s i t o Hw Ht Ho|s Hw]; rewrite Hw in *; simpl in Hrg, Hst, Hph.
  - destruct (Hget i t Ht) as (Hi & p & Hp & Hat & Hc). simpl in Hat. rewrite Nat.ltb_irrefl in Hat. subst p.
    inversion Hc; subst. eexists. split; [done|]. apply inv_update; try done; try solve_phases.
  - eexists. split; [done|]. apply inv_at_pc; try done; [|simpl; lia]. rewrite Hw. intros j q Hq Hat. simpl in *.
    apply lookup_lt_Some in Hq. destruct (Nat.ltb_spec j (num_threads n has_down)); [done|lia].
  - destruct (Hget i t Ht) as (Hi & p & Hp & Hat & Hc). simpl in Hat. rewrite Nat.ltb_irrefl, Nat.eqb_refl in Hat. subst p.
    inversion Hc; subst; unfold WaitThread_type in Ho; simplify_eq/=.
    eexists. split; [done|]. apply inv_update; try done; try solve_phases.
  - destruct (Hget i t Ht) as (Hi & p & Hp & Hat & Hc). simpl in Hat. rewrite Nat.ltb_irrefl in Hat. subst p.
    inversion Hc; subst. eexists. split; [done|]. apply inv_update; try done; try solve_phases.
  - eexists. split; [done|].
    assert (Hall : forall j q, phases s !! j = Some q -> q = P_running).
    { intros j q Hq. pose proof (Hph j q Hq) as Hat. apply lookup_lt_Some in Hq.
      destruct (Nat.ltb_spec j (num_threads n has_down)); [done|lia]. }
    apply inv_at_pc; try done; [|simpl; lia|].
    + intros j q Hq _. left. by eapply Hall.
    + rewrite finished_count_zero; [done|]. intros j q Hq ->. by apply Hall in Hq.
  - eexists. split; [done|]. apply inv_at_pc; try done; [by rewrite Hw|simpl; lia].
  - destruct (Hget i t Ht) as (Hb & p & Hp & Hat & Hc). simpl in Hat.
    unfold WaitThread in Hcmd. inversion Hc; subst; simplify_eq/=; try (destruct Hat as [|[? _]]; done).
    + eexists. split; [done|].
      assert (Hi0 : (i =? 0)%nat = false).
      { unfold is_compute in *. destruct i; done. }
      rewrite Hi0. split; simpl; rewrite ?length_insert; try done; try lia.
      intros j t1 p1 Hj Hpj. rewrite log_of_app. destruct (decide (i = j)) as [<-|Hne].
      * rewrite list_lookup_insert_eq in Hj by lia. simplify_eq. apply co_answered. done.
      * rewrite list_lookup_insert_ne in Hj by done. rewrite app_nil_r. by apply Hcoh.
    + eexists. split; [done|].
      split; simpl; rewrite ?length_insert; try done; try lia.
      * intros j t1 p1 Hj Hpj. destruct (decide (i = j)) as [<-|Hne].
        -- rewrite list_lookup_insert_eq in Hj by lia. rewrite list_lookup_insert_eq in Hpj by lia. simplify_eq. apply co_finished.
        -- rewrite list_lookup_insert_ne in Hj by done. rewrite list_lookup_insert_ne in Hpj by done. by apply Hcoh.
      * solve_phases. by right.
      * rewrite finished_count_insert by done. lia.
  - eexists. split; [done|]. apply inv_at_pc; try done; [by rewrite Hw|simpl; lia].
  - eexists. split; [done|]. unfold max_stop in Hstop.
    assert (Hfull : forall i p, (i <= n)%nat -> phases s !! i = Some p -> p = P_finished).
    { intros i p Hi Hp. eapply finished_count_full; [|done|done]. lia. }
    apply inv_at_pc; try done.
    + intros j q Hq Hat. rewrite Hw in Hat. destruct has_down eqn:Hd; simpl in *.
      * destruct (Nat.leb_spec j n); [by apply (Hfull j)|]. destruct Hat as [|[_ ?]]; [done|lia].
      * apply (Hfull j); [|done]. apply lookup_lt_Some in Hq. unfold num_threads in Hlp. lia.
    + destruct has_down eqn:Hd; simpl; [done|lia].
    + by destruct has_down.
  - destruct (Hget (S n) t Ht) as (Hi & p & Hp & Hat & Hc). cbn [phase_at] in Hat. rewrite (proj2 (Nat.leb_gt _ _)) in Hat by lia. subst p.
    unfold WaitThread_type in Ho. inversion Hc; subst; simplify_eq/=.
    + unfold is_compute in *. rewrite (proj2 (Nat.leb_gt (S n) n)) in * by lia. done.
    + eexists. split; [done|]. apply inv_update; try done; try (simpl; lia).
      intros j q Hq. destruct (decide (S n = j)) as [<-|Hne].
      * rewrite list_lookup_insert_eq in Hq by lia. by simplify_eq.
      * rewrite list_lookup_insert_ne in Hq by done. pose proof (Hph j q Hq) as Hat. apply lookup_lt_Some in Hq. simpl.
        unfold num_threads in Hlp. rewrite Hrg in Hlp. destruct (Nat.leb_spec j n); [done|lia].
  - destruct (Hget i t Ht) as (Hi & p & Hp & Hat & Hc). simpl in Hat. rewrite Nat.ltb_irrefl in Hat. subst p.
    inversion Hc; subst. eexists. split; [done|]. apply inv_update; try done; try solve_phases.
  - destruct (Hget i t Ht) as (Hi & p & Hp & Hat & Hc). simpl in Hat. rewrite Nat.ltb_irrefl, Nat.eqb_refl in Hat. subst p.
    unfold WaitThread_type in Ho. inversion Hc; subst; simplify_eq/=.
    eexists. split; [done|]. apply inv_update; try done; try solve_phases.
  - eexists. split; [done|]. apply inv_at_pc; try done. rewrite Hw. intros j q Hq Hat. simpl in *.
    apply lookup_lt_Some in Hq. destruct (Nat.ltb_spec j (num_threads n has_down)); [done|lia].
Qed.

Lemma worker_step_inv s o : inv s -> step n has_down s o -> exists s', o = Ok s' /\ inv s'.
Proof.
  intros Hi Hs. destruct Hs as [s o Hs|s i t o Ht Hs]; [by eapply inv_worker_step|].
  destruct (inv_thread_step _ _ _ _ Hi Ht Hs) as (t' & -> & Hi'). by eexists.
Qed.

Lemma worker_reaches_inv s s' : reaches n has_down s s' -> inv s -> inv s'.
Proof.
  induction 1 as [|s1 s2 s3 Hs _ IH]; intros Hi; [done|]. apply IH.
  by destruct (worker_step_inv _ _ Hi Hs) as (? & [= ->] & ?).
Qed.

End Invariant.

(** ** Every run can be completed *)

Section Progress.
Context {B : Type} (n : nat) (has_down : bool).
Implicit Types (s : sys B) (t : thread B).

Abbreviation inv := (inv n has_down).
Abbreviation reaches := (reaches n has_down).
Abbreviation step := (step n has_down).

(** The commands and steps still to come for one thread and for the worker. *)
Definition pc_weight (pc : thread_pc) : nat :=
  match pc with
  | T_uncreated => 12 | T_init => 11 | T_wait_ready => 8 | T_main => 7 | T_wait_backup => 7
  | T_wait_clean => 4 | T_clean => 3 | T_done => 0
  end.

Definition phase_weight (p : phase) : nat :=
  match p with
  | P_uncreated => 6 | P_created => 5 | P_ready => 4 | P_running => 3 | P_finished => 2 | P_cleaned => 1 | P_over => 0
  end.

Definition weight t (p : phase) : nat :=
  2 * phase_weight p + pc_weight (tpc t) + 2 * length (thread_to_main_ t) + length (main_to_thread_ t).

Definition stage (w : worker_pc) : nat :=
  match w with
  | W_create _ | W_wait_ready _ => 5 | W_notify _ => 4 | W_loop _ => 3 | W_wait_down => 2
  | W_clean _ | W_wait_finish _ => 1 | W_end => 0
  end.

Definition rank s : nat := stage (wpc s) + sum_list (zip_with weight (threads s) (phases s)).

Lemma sum_zip_insert (ts : list (thread B)) (ps : list phase) i t p t' p' :
  ts !! i = Some t -> ps !! i = Some p ->
  (sum_list (zip_with weight (<[i := t']> ts) (<[i := p']> ps)) + weight t p
   = sum_list (zip_with weight ts ps) + weight t' p')%nat.
Proof.
  revert ps i. induction ts as [|t0 ts IH]; intros [|p0 ps] [|i] Ht Hp; simplify_eq/=; [lia|].
  specialize (IH _ _ Ht Hp). lia.
Qed.

(** A step that leaves less to do. *)
Definition advances s : Prop := exists s', reaches s s' /\ inv s' /\ (rank s' < rank s)%nat.

Lemma step_advances s s' : inv s -> step s (Ok s') -> (rank s' < rank s)%nat -> advances s.
Proof.
  intros Hi Hs Hr. exists s'. destruct (worker_step_inv _ _ _ _ Hi Hs) as (? & [= <-] & Hi'). split; [by apply rtc_once|done].
Qed.

Lemma reaches_advances s s' : reaches s s' -> (rank s' <= rank s)%nat -> advances s' -> advances s.
Proof.
  intros Hs Hr (s'' & Hs' & Hi & Hlt). exists s''. split; [|split; [done|lia]]. unfold Worker.reaches in *. by etransitivity.
Qed.

Lemma thread_advances s i t p t' :
  inv s -> threads s !! i = Some t -> phases s !! i = Some p -> thread_step (is_compute n i) t (Ok t') ->
  (weight t' p < weight t p)%nat -> advances s.
Proof.
  intros Hi Ht Hp Hs Hw. eapply step_advances; [done|by apply (st_thread n has_down s i t (Ok t'))|].
  unfold rank. simpl. pose proof (sum_zip_insert _ _ _ _ _ t' p Ht Hp) as Hsum.
  rewrite (list_insert_id (phases s)) in Hsum by done. lia.
Qed.

Lemma update_advances s i t p t' p' w :
  inv s -> threads s !! i = Some t -> phases s !! i = Some p -> step s (Ok (update i t' p' w s)) ->
  (stage w <= stage (wpc s))%nat -> (weight t' p' < weight t p)%nat -> advances s.
Proof.
  intros Hi Ht Hp Hs Hst Hw. eapply step_advances; [done..|].
  unfold rank. simpl. pose proof (sum_zip_insert _ _ _ _ _ t' p' Ht Hp). lia.
Qed.

Lemma at_pc_advances s w : inv s -> step s (Ok (at_pc w s)) -> (stage w < stage (wpc s))%nat -> advances s.
Proof. intros Hi Hs Hw. eapply step_advances; [done..|]. unfold rank. simpl. lia. Qed.

Lemma inv_lookup s i :
  inv s -> (i < num_threads n has_down)%nat ->
  exists t p, threads s !! i = Some t /\ phases s !! i = Some p /\ phase_at n (wpc s) i p /\
    coherent (is_compute n i) (log_of i (log s)) p t.
Proof.
  intros [Hlt Hlp Hcoh Hph _ _] Hi. destruct (lookup_lt_is_Some_2 (threads s) i) as [t Ht]; [lia|].
  destruct (lookup_lt_is_Some_2 (phases s) i) as [p Hp]; [lia|]. exists t, p. split_and!; auto.
Qed.

(** A running thread can go on by itself or has a command for the worker. *)
Lemma running_cases b lg t :
  coherent b lg P_running t ->
  (exists t', thread_step b t (Ok t') /\ (weight t' P_running < weight t P_running)%nat) \/
  (exists cmd t', WaitThread t = Some (cmd, t') /\ (cmd = finish \/ b = true /\ exists it, cmd = backup (Some it)) /\
     (tpc t = T_wait_clean \/ tpc t = T_wait_backup) /\ (cmd = finish -> tpc t = T_wait_clean)).
Proof.
  intros Hc. inversion Hc; subst; [left|left|right|left|right].
  - eexists. split; [apply (ts_start _ _ (Ok (mkthread T_wait_ready [] [] lg))); done|]. unfold weight. simpl. lia.
  - eexists. split; [by apply ts_main_end|]. unfold weight. simpl. lia.
  - eexists _, _. split; [done|]. split_and!; eauto. done.
  - eexists. split; [apply (ts_backup_done _ _ (Ok (mkthread T_wait_backup [] [] lg))); done|]. unfold weight. simpl. lia.
  - eexists _, _. split; [done|]. split_and!; eauto.
Qed.

Lemma poll_message s i t cmd t' :
  inv s -> wpc s = W_loop i -> (i <= n)%nat -> threads s !! i = Some t -> WaitThread t = Some (cmd, t') -> advances s.
Proof.
  intros Hi Hw Hle Ht Hcmd.
  assert (Hb : (i < num_threads n has_down)%nat) by (unfold num_threads; lia).
  destruct (inv_lookup s i Hi Hb) as (t1 & p & Ht1 & Hp & Hat & Hc). rewrite Ht in Ht1. injection Ht1 as <-.
  pose proof (st_worker n has_down _ _ (ws_poll n has_down s i t cmd t' Hw Hle Ht Hcmd)) as Hstep.
  rewrite Hw in Hat. simpl in Hat. unfold WaitThread in Hcmd.
  inversion Hc; subst; simplify_eq/=; try (destruct Hat as [|[? _]]; done).
  - assert (Hi0 : (i =? 0)%nat = false) by (unfold is_compute in *; destruct i; done). rewrite Hi0 in Hstep.
    eapply step_advances; [done|exact Hstep|]. unfold rank. rewrite Hw. simpl.
    pose proof (sum_zip_insert _ _ _ _ _ (NotifyThread (backup None) (mkthread T_wait_backup [] [] (log_of i (log s) ++ [it]))) P_running Ht Hp) as Hsum.
    rewrite (list_insert_id (phases s)) in Hsum by done. unfold weight in Hsum at 2 4. simpl in Hsum. lia.
  - eapply step_advances; [done|exact Hstep|]. unfold rank. rewrite Hw. simpl.
    pose proof (sum_zip_insert _ _ _ _ _ (mkthread T_wait_clean [] [] (log_of i (log s))) P_finished Ht Hp) as Hsum.
    unfold weight in Hsum at 2 4. simpl in Hsum. lia.
Qed.

(** The loop walks from thread to thread until it finds a command. *)
Lemma poll_walk s j k :
  inv s -> wpc s = W_loop j -> (j <= k <= S n)%nat -> advances s \/ reaches s (at_pc (W_loop k) s).
Proof.
  intros Hi Hw [Hjk Hk]. induction Hjk as [|k Hjk IH].
  - right. replace (at_pc (W_loop j) s) with s by (destruct s; simpl in *; by subst). apply rtc_refl.
  - destruct IH as [|Hr]; [lia|by left|]. set (s1 := at_pc (W_loop k) s) in *.
    assert (Hi1 : inv s1) by (by eapply worker_reaches_inv).
    assert (Hrank : rank s1 = rank s) by (unfold rank; simpl; by rewrite Hw).
    assert (Hb : (k < num_threads n has_down)%nat) by (unfold num_threads; lia).
    destruct (inv_lookup s1 k Hi1 Hb) as (t & p & Ht & _).
    destruct (WaitThread t) as [[cmd t']|] eqn:Hcmd.
    + left. apply (reaches_advances s s1); [done|lia|]. apply (poll_message s1 k t cmd t'); [done|done|lia|done|done].
    + right. eapply rtc_r; [exact Hr|]. apply st_worker. apply (ws_poll_nothing n has_down s1 k t); [done|lia|done|done].
Qed.

Lemma filter_all {A} (P : A -> Prop) `{!forall x, Decision (P x)} (l : list A) : Forall P l -> filter P l = l.
Proof. induction 1 as [|x l Hx _ IH]; [done|]. rewrite filter_cons, decide_True by done. by rewrite IH. Qed.

Lemma finished_count_all (ps : list phase) :
  (forall i, (i <= n)%nat -> ps !! i = Some P_finished) -> finished_count n ps = S n.
Proof.
  intros Hall. unfold finished_count. rewrite filter_all.
  - rewrite length_take. pose proof (lookup_lt_Some _ _ _ (Hall n (Nat.le_refl n))). lia.
  - apply Forall_lookup. intros i q Hq. apply lookup_take_Some in Hq as [Hq Hlt]. by rewrite Hall in Hq by lia; simplify_eq.
Qed.

Lemma loop_advances s j : inv s -> wpc s = W_loop j -> advances s.
Proof.
  intros Hi Hw. pose proof (i_range _ _ _ Hi) as Hj. pose proof (i_stop _ _ _ Hi) as Hst. rewrite Hw in Hj, Hst. simpl in Hj.
  destruct (poll_walk s j (S n) Hi Hw) as [|Hend]; [lia|done|]. set (s1 := at_pc (W_loop (S n)) s) in *.
  assert (Hi1 : inv s1) by (by eapply worker_reaches_inv).
  assert (Hrank : rank s1 = rank s) by (unfold rank; simpl; by rewrite Hw).
  apply (reaches_advances s s1); [done|lia|].
  destruct (decide (stop s = max_stop n)) as [Hmax|Hmax].
  { eapply at_pc_advances; [done|apply st_worker; by apply ws_break|]. simpl. destruct has_down; simpl; lia. }
  destruct (decide (Forall (fun i => phases s !! i = Some P_finished) (seq 0 (S n)))) as [Hall|Hex].
  { exfalso. apply Hmax. rewrite Hst, finished_count_all; [unfold max_stop; lia|].
    intros i Hle. apply (proj1 (Forall_forall _ _) Hall), elem_of_seq. lia. }
  apply not_Forall_Exists, Exists_exists in Hex as (i & Hin%elem_of_seq & Hnf); [|apply _].
  assert (Hb : (i < num_threads n has_down)%nat) by (unfold num_threads; lia).
  destruct (inv_lookup s1 i Hi1 Hb) as (t & p & Ht & Hp & [-> |[-> _]] & Hc); [|done].
  destruct (running_cases _ _ _ Hc) as [(t' & Hts & Hwt)|(cmd & t' & Hcmd & _)].
  { by apply (thread_advances s1 i t P_running t'). }
  set (s2 := at_pc (W_loop 0) s1).
  assert (Hr2 : reaches s1 s2) by (apply rtc_once, st_worker; by apply ws_again).
  assert (Hi2 : inv s2) by (by eapply worker_reaches_inv).
  apply (reaches_advances s1 s2); [done|unfold rank; simpl; lia|].
  destruct (poll_walk s2 0 i Hi2) as [|Hr3]; [done|lia|done|]. set (s3 := at_pc (W_loop i) s2) in *.
  apply (reaches_advances s2 s3); [done|unfold rank; simpl; lia|].
  apply (poll_message s3 i t cmd t'); [by eapply worker_reaches_inv|done|lia|done|done].
Qed.

Lemma wait_type_advances s i t p t' p' w type cmd :
  inv s -> threads s !! i = Some t -> phases s !! i = Some p -> WaitThread t = Some (cmd, t') ->
  same_type cmd type = true ->
  (forall o, WaitThread_type type t = Some o -> step s (t' ← o; Ok (update i t' p' w s))) ->
  (stage w <= stage (wpc s))%nat -> (weight t' p' < weight t p)%nat -> advances s.
Proof.
  intros Hi Ht Hp Hcmd Hty Hs Hst Hwt. eapply (update_advances s i t p t' p' w); try done.
  specialize (Hs (Ok t')). apply Hs. unfold WaitThread_type. rewrite Hcmd. simpl. by rewrite Hty.
Qed.

Lemma inv_advances s : inv s -> wpc s <> W_end -> advances s.
Proof.
  intros Hi Hne. pose proof (i_range _ _ _ Hi) as Hrg. destruct (wpc s) as [k|k|k|k| |k|k|] eqn:Hw; simpl in Hrg; try done.
  - destruct (decide (k = num_threads n has_down)) as [->|].
    { eapply at_pc_advances; [done|apply st_worker; by apply ws_created|]. rewrite Hw. simpl. lia. }
    destruct (inv_lookup s k Hi ltac:(lia)) as (t & p & Ht & Hp & Hat & Hc). rewrite Hw in Hat. simpl in Hat.
    rewrite Nat.ltb_irrefl in Hat. subst p. inversion Hc; subst.
    eapply (update_advances s k); [done..|apply st_worker; by apply ws_create| |]; [by rewrite Hw|unfold weight; simpl; lia].
  - destruct (inv_lookup s k Hi Hrg) as (t & p & Ht & Hp & Hat & Hc). rewrite Hw in Hat. simpl in Hat.
    rewrite Nat.ltb_irrefl, Nat.eqb_refl in Hat. subst p. inversion Hc; subst.
    + eapply thread_advances; [done|done|done|by apply ts_init|unfold weight; simpl; lia].
    + eapply (wait_type_advances s k _ _ _ P_ready (W_create (S k)) ready); [done..| |by rewrite Hw|unfold weight; simpl; lia].
      intros o Ho. apply st_worker. by eapply ws_ready.
  - destruct (decide (k = num_threads n has_down)) as [->|].
    { eapply at_pc_advances; [done|apply st_worker; by apply ws_notified|]. rewrite Hw. simpl. lia. }
    destruct (inv_lookup s k Hi ltac:(lia)) as (t & p & Ht & Hp & Hat & Hc). rewrite Hw in Hat. simpl in Hat.
    rewrite Nat.ltb_irrefl in Hat. subst p. inversion Hc; subst.
    eapply (update_advances s k); [done..|apply st_worker; by apply ws_notify| |]; [by rewrite Hw|unfold weight; simpl; lia].
  - by eapply loop_advances.
  - assert (Hb : (S n < num_threads n has_down)%nat) by (unfold num_threads; rewrite Hrg; lia).
    destruct (inv_lookup s (S n) Hi Hb) as (t & p & Ht & Hp & Hat & Hc). rewrite Hw in Hat. cbn [phase_at] in Hat.
    rewrite (proj2 (Nat.leb_gt _ _)) in Hat by lia. subst p.
    destruct (running_cases _ _ _ Hc) as [(t' & Hts & Hwt)|(cmd & t' & Hcmd & Hk & _)].
    { by apply (thread_advances s (S n) t P_running t'). }
    destruct Hk as [->|[Hco _]]; [|unfold is_compute in Hco; rewrite (proj2 (Nat.leb_gt (S n) n)) in Hco by lia; done].
    eapply (wait_type_advances s (S n) _ _ t' P_finished (W_clean 0) finish); [done..| |rewrite Hw; simpl; lia|].
    + intros o Ho. apply st_worker. by eapply ws_down.
    + unfold WaitThread in Hcmd. inversion Hc; subst; simplify_eq/=. unfold weight. simpl. lia.
  - destruct (decide (k = num_threads n has_down)) as [->|].
    { eapply at_pc_advances; [done|apply st_worker; by apply ws_end|]. rewrite Hw. simpl. lia. }
    destruct (inv_lookup s k Hi ltac:(lia)) as (t & p & Ht & Hp & Hat & Hc). rewrite Hw in Hat. simpl in Hat.
    rewrite Nat.ltb_irrefl in Hat. subst p. inversion Hc; subst.
    eapply (update_advances s k); [done..|apply st_worker; by apply ws_clean| |]; [by rewrite Hw|unfold weight; simpl; lia].
  - destruct (inv_lookup s k Hi Hrg) as (t & p & Ht & Hp & Hat & Hc). rewrite Hw in Hat. simpl in Hat.
    rewrite Nat.ltb_irrefl, Nat.eqb_refl in Hat. subst p. inversion Hc; subst.
    + eapply (thread_advances s k _ P_cleaned); [done|done|done|apply (ts_clean _ _ (Ok (mkthread T_wait_clean [] [] (log_of k (log s))))); done|].
      unfold weight. simpl. lia.
    + eapply thread_advances; [done|done|done|by apply ts_end|unfold weight; simpl; lia].
    + eapply (wait_type_advances s k _ _ _ P_over (W_clean (S k)) finish); [done..| |by rewrite Hw|unfold weight; simpl; lia].
      intros o Ho. apply st_worker. by eapply ws_cleaned.
Qed.

Lemma inv_completes s : inv s -> exists s', reaches s s' /\ inv s' /\ wpc s' = W_end.
Proof.
  remember (rank s) as r eqn:Hr. revert s Hr. induction (lt_wf r) as [r _ IH]. intros s -> Hi.
  destruct (decide (wpc s = W_end)) as [|Hne]; [by exists s; split_and!; [apply rtc_refl|..]|].
  destruct (inv_advances s Hi Hne) as (s1 & Hs1 & Hi1 & Hlt).
  destruct (IH _ Hlt s1 eq_refl Hi1) as (s' & Hs' & Hi' & Hw). exists s'. split; [|done].
  unfold Worker.reaches in *. by etransitivity.
Qed.

End Progress.

(** ** Theorems *)

(** C12 No run of the worker protocol stops the process: the worker never sees a
    command it does not expect from a thread, and no thread sees one it does not
    expect from the worker. *)
Theorem worker_protocol_safe {B} n has_down (s : sys B) e :
  reaches n has_down (start n has_down) s -> ~ step n has_down s (Stop e).
Proof.
  intros Hr Hs. pose proof (worker_reaches_inv _ _ _ _ Hr (inv_start n has_down)) as Hi.
  by destruct (worker_step_inv _ _ _ _ Hi Hs) as (? & ? & _).
Qed.

(** C10 A backup is synchronous: whenever a compute thread is in its main handler,
    the worker has taken every item the thread asked it to back up, in order, and
    nothing else in its name. *)
Theorem backup_synchronous {B} n has_down (s : sys B) i t :
  reaches n has_down (start n has_down) s -> threads s !! i = Some t -> tpc t = T_main ->
  log_of i (log s) = submitted t.
Proof.
  intros Hr Ht Hpc. pose proof (worker_reaches_inv _ _ _ _ Hr (inv_start n has_down)) as Hi.
  destruct (inv_lookup n has_down s i Hi) as (t1 & p & Ht1 & _ & _ & Hc).
  { rewrite <- (i_threads _ _ _ Hi). by eapply lookup_lt_Some. }
  rewrite Ht in Ht1. injection Ht1 as <-. by inversion Hc; subst.
Qed.

(** C11 The protocol has no dead end: from every state a run can reach there is a
    way to the end of [Start], where every thread has ended and all mailboxes are
    empty. *)
Theorem worker_can_finish {B} n has_down (s : sys B) :
  reaches n has_down (start n has_down) s ->
  exists s', reaches n has_down s s' /\ wpc s' = W_end /\
    Forall (fun t => tpc t = T_done /\ thread_to_main_ t = [] /\ main_to_thread_ t = []) (threads s').
Proof.
  intros Hr. pose proof (worker_reaches_inv _ _ _ _ Hr (inv_start n has_down)) as Hi.
  destruct (inv_completes n has_down s Hi) as (s' & Hs' & Hi' & Hw). exists s'. split_and!; [done|done|].
  apply Forall_lookup. intros i t Ht. destruct (inv_lookup n has_down s' i Hi') as (t1 & p & Ht1 & _ & Hat & Hc).
  { rewrite <- (i_threads _ _ _ Hi'). by eapply lookup_lt_Some. }
  rewrite Ht in Ht1. injection Ht1 as <-. rewrite Hw in Hat. simpl in Hat. subst p. by inversion Hc; subst.
Qed.

(** ** A run *)

Section Run.

(** A worker with one compute thread and no down thread, stopped while the
    compute thread is in its main handler after one backup. *)
Definition run_state : sys Z :=
  mksys [mkthread T_main [] [] []; mkthread T_main [] [] [5]] [P_running; P_running] (W_loop 2) 0 [(1%nat, 5)].

Lemma reach_step n has_down (s s' s'' : sys Z) o :
  step n has_down s o -> o = Ok s' -> reaches n has_down s' s'' -> reaches n has_down s s''.
Proof. intros Hs -> Hr. by apply (rtc_l _ s s'). Qed.

Ltac go tac := eapply reach_step; [tac|vm_compute; reflexivity|].
Ltac go_worker c := go ltac:(apply st_worker; eapply c; first [done | lia]).
Ltac go_thread i c := go ltac:(eapply (st_thread _ _ _ i); [done|eapply c; done]).

Lemma run_reaches_main : reaches 1 false (start 1 false) run_state.
Proof.
  go_worker @ws_create. go_thread 0%nat @ts_init. go_worker @ws_ready.
  go_worker @ws_create. go_thread 1%nat @ts_init. go_worker @ws_ready.
  go_worker @ws_created. go_worker @ws_notify. go_worker @ws_notify. go_worker @ws_notified.
  go_thread 0%nat @ts_start. go_thread 1%nat @ts_start.
  go ltac:(eapply (st_thread _ _ _ 1%nat); [done|by apply (ts_backup _ _ 5)]).
  go_worker @ws_poll_nothing. go_worker @ws_poll.
  go_thread 1%nat @ts_backup_done. apply rtc_refl.
Qed.

Lemma worker_protocol_safe_witness : ~ step 1 false run_state (Stop AssertFailed).
Proof. apply worker_protocol_safe, run_reaches_main. Defined.

Lemma backup_synchronous_witness : log_of 1 (log run_state) = [5].
Proof. apply (backup_synchronous 1 false run_state 1 (mkthread T_main [] [] [5])); [apply run_reaches_main|done|done]. Defined.

Lemma worker_can_finish_witness :
  exists s', reaches 1 false run_state s' /\ wpc s' = W_end /\
    Forall (fun t => tpc t = T_done /\ thread_to_main_ t = [] /\ main_to_thread_ t = []) (threads s').
Proof. apply worker_can_finish, run_reaches_main. Defined.

End Run.

End Worker.
