(* ===== verification/Trace.v ===== *)
(** Where a worker's input comes from: the adapters that read a trace file
    (src/thread/adapter_ram.hpp, src/thread/adapter_disk.hpp) or backed-up data
    (src/fault_tolerance/adapter_recovery.hpp), the round-robin router
    (src/thread/router_rr.hpp) and the thread that passes the records to the
    rings of the compute threads (src/thread/up_thread_trace.hpp).  Files and
    buffers are byte strings; the values of the configuration are arguments.
    Statistics and the throughput report are left out. *)
From stdpp Require Import base numbers list.
From Stdlib Require Import ZArith Lia.
From S2P Require Import Prelude.

Module Trace.

(** ** Lines and C strings *)

Definition MAX_RECORD_LENGTH : Z := 8192.

(** At most [n] bytes, up to and including the first newline. *)
Fixpoint take_line (n : nat) (file : list Z) : list Z * list Z :=
  match n, file with
  | O, _ => ([], file)
  | _, [] => ([], [])
  | S n', b :: file' =>
      if b =? 10 then ([b], file')
      else let '(l, r) := take_line n' file' in (b :: l, r)
  end.

(** [fgets (buf, size, file)]: the line stored before the terminating zero and
    the rest of the file, or [None] at the end. *)
Definition fgets (size : Z) (file : list Z) : option (list Z * list Z) :=
  match file with
  | [] => None
  | _ => Some (take_line (Z.to_nat (size - 1)) file)
  end.

(** The bytes before the first zero; [strlen] is their number. *)
Fixpoint cstr (l : list Z) : list Z :=
  match l with
  | [] => []
  | b :: l' => if b =? 0 then [] else b :: cstr l'
  end.

Definition strlen (l : list Z) : Z := Z.of_nat (length (cstr l)).

(** ** The RAM adapter *)

Record AdapterRAM := mkRAM {
  buf_ : list Z;
  ptr_ : Z;       (* uint64_t *)
  tot_cnt_ : Z;   (* uint64_t *)
  cur_cnt_ : Z;   (* uint64_t *)
  tot_byte_ : Z   (* uint64_t *)
}.

(** Store one record behind the others. *)
Definition store_record (st : AdapterRAM) (line : list Z) : result AdapterRAM :=
  let len := strlen line in
  b1 ← mem_write (buf_ st) (ptr_ st) (le_bytes 4 len);
  let p := ptr_ st + 4 in
  b2 ← mem_write b1 p (cstr line);
  Ok (mkRAM b2 (p + len) (tot_cnt_ st + 1) (cur_cnt_ st) (tot_byte_ st + len)).

(** The loop of [Init]; every turn takes at least one byte of the file, which
    bounds the fuel. *)
Fixpoint load (fuel : nat) (buf_size max : Z) (file : list Z) (st : AdapterRAM) : result AdapterRAM :=
  match fuel with
  | O => Stop WouldBlock
  | S fuel' =>
      match fgets MAX_RECORD_LENGTH file with
      | None => Ok st
      | Some (line, file') =>
          if u64 (buf_size - ptr_ st) <? 4 + strlen line then Ok st
          else
            st' ← store_record st line;
            if negb (max =? 0) && (tot_cnt_ st' =? max) then Ok st' else load fuel' buf_size max file' st'
      end
  end.

Definition rewind (st : AdapterRAM) : AdapterRAM := mkRAM (buf_ st) 0 (tot_cnt_ st) (cur_cnt_ st) (tot_byte_ st).

(** [Init]; [file] is [None] when the trace file cannot be opened. *)
Definition Init_RAM (buf_size max : Z) (file : option (list Z)) : result AdapterRAM :=
  _ ← afs_assert (negb (buf_size =? 0));
  match file with
  | None => Stop AssertFailed
  | Some f =>
      st ← load (S (length f)) buf_size max f (mkRAM (replicate (Z.to_nat buf_size) 0) 0 0 0 0);
      Ok (rewind st)
  end.

(** [ReadRecord]: the offset and the length of the record, or [None] for a
    null [*data]. *)
Definition ReadRecord_RAM (st : AdapterRAM) : result (option (Z * Z) * AdapterRAM) :=
  if cur_cnt_ st =? tot_cnt_ st then Ok (None, st)
  else
    lb ← mem_read (buf_ st) (ptr_ st) 4;
    let len := le_val lb in
    let p := ptr_ st + 4 in
    Ok (Some (p, len), mkRAM (buf_ st) (p + len) (tot_cnt_ st) (cur_cnt_ st + 1) (tot_byte_ st)).

(** ** The disk adapter *)

Record AdapterDisk := mkDisk {
  file_ : list Z;
  dbuf : list Z;
  dmax : Z;   (* unsigned long long *)
  cnt : Z     (* unsigned long long, not initialised *)
}.

(** The contents of [buf], or [None] for a null [*data]. *)
Definition ReadRecord_Disk (st : AdapterDisk) : option (list Z) * AdapterDisk :=
  let st1 := match fgets MAX_RECORD_LENGTH (file_ st) with
             | None => st
             | Some (line, rest) => mkDisk rest line (dmax st) (cnt st)
             end in
  if negb (dmax st1 =? 0) && (cnt st1 =? dmax st1) then (None, st1)
  else (Some (dbuf st1), mkDisk (file_ st1) (dbuf st1) (dmax st1) (u64 (cnt st1 + 1))).

(** ** The recovery adapter *)

Record AdapterRecovery := mkRecovery { data_buf_ : list Z; data_size_ : Z; rptr_ : Z }.

(** The loop that looks for the last gap in the sequence numbers. *)
Definition find_start (seqs : list Z) : result Z :=
  match seqs with
  | [] => Stop OutOfBounds
  | s0 :: rest =>
      Ok (fst (fst (fold_left (fun '(start, last_seq, i) cur_seq =>
        if u64 (cur_seq - last_seq) =? 1 then (start, cur_seq, i + 1) else (i, cur_seq, i + 1)) rest (0, s0, 1))))
  end.

(** Skip one record. *)
Definition skip_record (buf : list Z) (p : Z) : result Z :=
  lb ← mem_read buf p 4; Ok (p + 4 + le_val lb).

Fixpoint words (n : nat) (l : list Z) : list Z :=
  match n with O => [] | S n' => le_val (take 8 l) :: words n' (drop 8 l) end.

(** [Init] on the contents of the two files. *)
Definition Init_Recovery (data seq : list Z) : result AdapterRecovery :=
  let data_size := Z.of_nat (length data) in
  if data_size =? 0 then Ok (mkRecovery [] 0 0)
  else
    _ ← afs_assert (Z.of_nat (length seq) mod 8 =? 0);
    start ← find_start (words (length seq / 8) seq);
    p ← foldM (fun p (_ : nat) => skip_record data p) (List.seq 0 (Z.to_nat start)) 0;
    Ok (mkRecovery data data_size p).

Definition ReadRecord_Recovery (st : AdapterRecovery) : result (option (Z * Z) * AdapterRecovery) :=
  if rptr_ st =? data_size_ st then Ok (None, st)
  else
    lb ← mem_read (data_buf_ st) (rptr_ st) 4;
    let len := le_val lb in
    let p := rptr_ st + 4 in
    Ok (Some (p, len), mkRecovery (data_buf_ st) (data_size_ st) (p + len)).

(** ** The router *)

Record RouterRR := mkRouter { cur_ : Z; max_ : Z }.

Definition new_RouterRR (m : Z) : RouterRR := mkRouter (-1) m.

Definition GetDestination (r : RouterRR) : result (Z * RouterRR) :=
  if max_ r =? 0 then Stop DivByZero
  else let c := Z.rem (s32 (cur_ r + 1)) (max_ r) in Ok (c, mkRouter c (max_ r)).

(** ** The thread *)

(** What the thread does to a ring: fill the next slot from the memory at
    [data] ([GetSlot], [slot->data () = *(InT* ) data], [CompleteWrite]), insert a
    finish item, or flush. *)
Inductive ring_op := Put (src : list Z) | PutFinish | DoFlush.

Record UpThreadTrace := mkUp {
  adapter_ : AdapterRAM;
  router_ : RouterRR;
  queues_ : list (list ring_op);
  event_ : Z    (* uint64_t *)
}.

Definition on_ring (i : Z) (op : ring_op) (qs : list (list ring_op)) : result (list (list ring_op)) :=
  q ← at_index qs i; set_index qs i (q ++ [op]).

Definition Emit (p : Z) (t : UpThreadTrace) : result UpThreadTrace :=
  '(index, r) ← GetDestination (router_ t);
  qs ← on_ring index (Put (drop (Z.to_nat p) (buf_ (adapter_ t)))) (queues_ t);
  Ok (mkUp (adapter_ t) r qs (event_ t)).

(** The loop of [ThreadMainHandler]; the adapter has [tot_cnt_] records, which
    bounds the fuel. *)
Fixpoint read_loop (fuel : nat) (t : UpThreadTrace) : result UpThreadTrace :=
  match fuel with
  | O => Stop WouldBlock
  | S fuel' =>
      '(d, a) ← ReadRecord_RAM (adapter_ t);
      match d with
      | None => Ok (mkUp a (router_ t) (queues_ t) (event_ t))
      | Some (p, _) =>
          t' ← Emit p (mkUp a (router_ t) (queues_ t) (event_ t + 1));
          read_loop fuel' t'
      end
  end.

Definition ThreadMainHandler (t : UpThreadTrace) : result UpThreadTrace :=
  t' ← read_loop (S (Z.to_nat (tot_cnt_ (adapter_ t) - cur_cnt_ (adapter_ t)))) t;
  Ok (mkUp (adapter_ t') (router_ t') ((fun q => q ++ [PutFinish; DoFlush]) <$> queues_ t') (event_ t')).

(** [RawItem::operator=]: the bytes of the source's string, without a
    terminator; the rest of the slot stays. *)
Definition raw_assign (slot src : list Z) : list Z := cstr src ++ drop (length (cstr src)) slot.

(** ** What the adapters deliver *)

(** A record in the adapters' buffers. *)
Definition frame (rec : list Z) : list Z := le_bytes 4 (Z.of_nat (length rec)) ++ rec.

Definition frames (recs : list (list Z)) : list Z := concat (frame <$> recs).

(** Read [n] records and their contents. *)
Fixpoint read_records (n : nat) (st : AdapterRAM) : result (list (list Z) * AdapterRAM) :=
  match n with
  | O => Ok ([], st)
  | S n' =>
      '(d, st1) ← ReadRecord_RAM st;
      match d with
      | None => Ok ([], st1)
      | Some (p, len) =>
          rec ← mem_read (buf_ st1) p len;
          '(recs, st2) ← read_records n' st1;
          Ok (rec :: recs, st2)
      end
  end.

Lemma length_frame rec : length (frame rec) = (4 + length rec)%nat.
Proof. unfold frame. by rewrite length_app, length_le_bytes. Qed.

Lemma frames_cons rec recs : frames (rec :: recs) = frame rec ++ frames recs.
Proof. done. Qed.

Lemma frames_snoc recs rec : frames (recs ++ [rec]) = frames recs ++ frame rec.
Proof. unfold frames. rewrite fmap_app, concat_app. simpl. by rewrite app_nil_r. Qed.

Lemma take_line_spec n file l r :
  take_line (S n) file = (l, r) -> file <> [] -> l ++ r = file /\ l <> [] /\ (length l <= S n)%nat.
Proof.
  revert file l r. induction n as [|n IH]; intros [|b file] l r Hl Hne; try done; simpl in Hl.
  - destruct (b =? 10); injection Hl as <- <-; simpl; split_and!; auto with lia; done.
  - destruct (b =? 10); [injection Hl as <- <-; simpl; split_and!; [done|done|lia]|].
    destruct file as [|b' file]; [injection Hl as <- <-; simpl; split_and!; [done|done|lia]|].
    destruct (take_line (S n) (b' :: file)) as [l' r'] eqn:E.
    destruct (IH _ _ _ E ltac:(done)) as (H1 & H2 & H3).
    change (match b' =? 10 with true => _ | false => _ end) with (take_line (S n) (b' :: file)) in Hl.
    rewrite E in Hl. injection Hl as <- <-. simpl. rewrite H1. split_and!; [done|done|lia].
Qed.

Lemma fgets_spec file l r :
  fgets MAX_RECORD_LENGTH file = Some (l, r) -> l ++ r = file /\ l <> [] /\ Z.of_nat (length l) < MAX_RECORD_LENGTH.
Proof.
  unfold fgets. destruct (decide (file = [])) as [->|Hne]; [done|]. intros Hg.
  assert (Hl : take_line (Z.to_nat (MAX_RECORD_LENGTH - 1)) file = (l, r)) by (destruct file; [done|by injection Hg]).
  replace (Z.to_nat (MAX_RECORD_LENGTH - 1)) with (S (Z.to_nat (MAX_RECORD_LENGTH - 2))) in Hl by (unfold MAX_RECORD_LENGTH; lia).
  destruct (take_line_spec _ _ _ _ Hl Hne) as (? & ? & ?). split_and!; [done|done|unfold MAX_RECORD_LENGTH in *; lia].
Qed.

Lemma cstr_nonzero l : Forall (fun b => b <> 0) l -> cstr l = l.
Proof. induction 1 as [|b l Hb _ IH]; simpl; [done|]. rewrite (proj2 (Z.eqb_neq b 0) Hb). by rewrite IH. Qed.

(** A buffer that holds [recs], followed by room. *)
Definition filled (buf_size : Z) (st : AdapterRAM) (recs : list (list Z)) : Prop :=
  exists room, buf_ st = frames recs ++ room /\ Z.of_nat (length (buf_ st)) = buf_size /\
    ptr_ st = Z.of_nat (length (frames recs)) /\ tot_cnt_ st = Z.of_nat (length recs) /\ cur_cnt_ st = 0 /\
    Forall (fun rec => Z.of_nat (length rec) < MAX_RECORD_LENGTH) recs.

Lemma store_record_filled buf_size st recs line :
  filled buf_size st recs -> Forall (fun b => b <> 0) line -> Z.of_nat (length line) < MAX_RECORD_LENGTH ->
  Z.of_nat (length (frames recs)) + 4 + Z.of_nat (length line) <= buf_size ->
  exists st', store_record st line = Ok st' /\ filled buf_size st' (recs ++ [line]).
Proof.
  intros (room & Hb & Hlen & Hp & Ht & Hc & Hall) Hnz Hll Hroom. unfold store_record, strlen.
  rewrite (cstr_nonzero _ Hnz), Hb. rewrite Hb, length_app in Hlen.
  rewrite (mem_write_snoc (frames recs) room); [|done|rewrite length_le_bytes; lia].
  cbn [mbind result_bind]. rewrite length_le_bytes.
  rewrite (mem_write_snoc (frames recs ++ le_bytes 4 (Z.of_nat (length line)))); [|rewrite length_app, length_le_bytes; lia|rewrite length_drop; lia].
  cbn [mbind result_bind]. eexists. split; [done|]. exists (drop (length line) (drop 4 room)).
  rewrite frames_snoc. cbn [buf_ ptr_ tot_cnt_ cur_cnt_]. unfold frame.
  split_and!; [by rewrite !app_assoc| | | |done|apply Forall_app; by split; [|constructor]].
  - rewrite !length_app, length_le_bytes, !length_drop. lia.
  - rewrite !length_app, length_le_bytes. lia.
  - rewrite length_app. simpl. lia.
Qed.

Lemma load_filled fuel buf_size max file st recs :
  filled buf_size st recs -> Forall (fun b => b <> 0) file -> (length file < fuel)%nat -> buf_size < 2 ^ 64 ->
  (max <> 0 -> Z.of_nat (length recs) < max) ->
  exists st' recs' rest, load fuel buf_size max file st = Ok st' /\ filled buf_size st' (recs ++ recs') /\
    file = concat recs' ++ rest /\ (max <> 0 -> Z.of_nat (length (recs ++ recs')) <= max) /\
    (max = 0 -> Z.of_nat (length (frames recs)) + 5 * Z.of_nat (length file) <= buf_size -> rest = []).
Proof.
  revert file st recs. induction fuel as [|fuel IH]; intros file st recs Hf Hnz Hfuel Hbs Hmax; [lia|].
  cbn [load]. destruct (fgets MAX_RECORD_LENGTH file) as [[line file']|] eqn:Hg.
  2:{ exists st, [], file. rewrite app_nil_r. destruct file; [|done]. split_and!; try done. lia. }
  destruct (fgets_spec _ _ _ Hg) as (Heq & Hne & Hll).
  assert (Hlne : (0 < length line)%nat) by (destruct line; simpl; [done|lia]).
  rewrite <- Heq in Hnz. apply Forall_app in Hnz as [Hnl Hnf].
  pose proof Hf as (room & Hb & Hlen & Hp & Ht & Hc & Hall).
  assert (Hpl : Z.of_nat (length (frames recs)) <= buf_size) by (rewrite <- Hlen, Hb, length_app; lia).
  rewrite (unsigned_of_small 64) by (split; lia). unfold strlen. rewrite (cstr_nonzero _ Hnl), Hp.
  destruct (Z.ltb_spec (buf_size - Z.of_nat (length (frames recs))) (4 + Z.of_nat (length line))) as [Hfull|Hroom].
  { exists st, [], file. rewrite app_nil_r. split_and!; [done|done|done|lia|].
    intros _ Hsz. exfalso. rewrite <- Heq, length_app in Hsz. lia. }
  destruct (store_record_filled buf_size st recs line Hf Hnl Hll ltac:(lia)) as (st1 & Hst & Hf1).
  rewrite Hst. cbn [mbind result_bind]. pose proof Hf1 as (room1 & _ & _ & _ & Ht1 & _ & _).
  rewrite length_app in Ht1. simpl in Ht1.
  destruct (negb (max =? 0) && (tot_cnt_ st1 =? max)) eqn:Hstop.
  - apply andb_prop in Hstop as [Hm1%negb_true_iff%Z.eqb_neq Hm2%Z.eqb_eq]. exists st1, [line], file'.
    split_and!; [done|done|simpl; by rewrite app_nil_r| |done]. intros _. rewrite length_app. simpl. lia.
  - destruct (IH file' st1 (recs ++ [line]) Hf1 Hnf) as (st' & recs' & rest & Hld & Hf' & Hfile & Hm & Hrest).
    + rewrite <- Heq, length_app in Hfuel. lia.
    + done.
    + intros Hm0. specialize (Hmax Hm0). rewrite length_app. simpl.
      apply andb_false_iff in Hstop as [Hz%negb_false_iff%Z.eqb_eq|Hz%Z.eqb_neq]; [done|lia].
    + exists st', (line :: recs'), rest. rewrite Hld, <- Heq. rewrite <- app_assoc in Hf', Hm.
      split_and!; [done|done|simpl; by rewrite Hfile, app_assoc|done|].
      intros H0 Hsz. apply Hrest; [done|]. rewrite frames_snoc, length_app, length_frame.
      rewrite length_app in Hsz. lia.
Qed.

(** Reading back what a buffer holds. *)
Definition unread (st : AdapterRAM) (recs : list (list Z)) : Prop :=
  exists pre room, buf_ st = pre ++ frames recs ++ room /\ ptr_ st = Z.of_nat (length pre) /\
    tot_cnt_ st - cur_cnt_ st = Z.of_nat (length recs) /\ Forall (fun rec => Z.of_nat (length rec) < MAX_RECORD_LENGTH) recs.

Lemma ReadRecord_unread st rec recs :
  unread st (rec :: recs) ->
  exists st', ReadRecord_RAM st = Ok (Some (ptr_ st + 4, Z.of_nat (length rec)), st') /\ buf_ st' = buf_ st /\
    mem_read (buf_ st) (ptr_ st + 4) (Z.of_nat (length rec)) = Ok rec /\
    rec `prefix_of` drop (Z.to_nat (ptr_ st + 4)) (buf_ st) /\ unread st' recs /\
    tot_cnt_ st' - cur_cnt_ st' = tot_cnt_ st - cur_cnt_ st - 1.
Proof.
  intros (pre & room & Hb & Hp & Hc & Hall). apply Forall_cons in Hall as [Hrec Hall]. simpl in Hc.
  unfold ReadRecord_RAM. destruct (Z.eqb_spec (cur_cnt_ st) (tot_cnt_ st)) as [E|_]; [lia|].
  rewrite frames_cons in Hb. unfold frame in Hb. rewrite <- !app_assoc in Hb.
  assert (Hr : mem_read (buf_ st) (ptr_ st) 4 = Ok (le_bytes 4 (Z.of_nat (length rec)))).
  { rewrite Hb. by apply mem_read_app_mid. }
  rewrite Hr. cbn [mbind result_bind]. rewrite le_val_bytes, Z.mod_small by (change (256 ^ Z.of_nat 4) with (2 ^ 32); unfold MAX_RECORD_LENGTH in Hrec; lia).
  eexists. split; [done|]. split; [done|].
  assert (Hl4 : length (pre ++ le_bytes 4 (Z.of_nat (length rec))) = (length pre + 4)%nat) by (by rewrite length_app, length_le_bytes).
  rewrite (app_assoc pre) in Hb. rewrite Hb. split; [apply mem_read_app_mid; lia|]. split.
  { rewrite drop_app_length' by lia. by exists (frames recs ++ room). }
  split; [|simpl; lia].
  exists ((pre ++ le_bytes 4 (Z.of_nat (length rec))) ++ rec), room. cbn [buf_ ptr_ tot_cnt_ cur_cnt_].
  split_and!; [by rewrite <- !app_assoc| |lia|done]. rewrite length_app, Hl4. lia.
Qed.

Lemma ReadRecord_end st : unread st [] -> ReadRecord_RAM st = Ok (None, st).
Proof.
  intros (pre & room & _ & _ & Hc & _). unfold ReadRecord_RAM. simpl in Hc.
  destruct (Z.eqb_spec (cur_cnt_ st) (tot_cnt_ st)); [done|lia].
Qed.

Lemma read_records_unread recs st :
  unread st recs -> exists st', read_records (length recs) st = Ok (recs, st') /\ unread st' [].
Proof.
  revert st. induction recs as [|rec recs IH]; intros st Hu; [by exists st|].
  destruct (ReadRecord_unread _ _ _ Hu) as (st1 & Hr & Hb & Hm & _ & Hu1 & _).
  destruct (IH st1 Hu1) as (st' & Hrs & Hu'). exists st'. split; [|done].
  cbn [length read_records]. rewrite Hr. cbn [mbind result_bind]. rewrite Hb, Hm. cbn [mbind result_bind].
  rewrite Hrs. done.
Qed.

(** [Init] fills the buffer with records that are a prefix of the file. *)
Lemma Init_RAM_spec buf_size max file :
  0 < buf_size < 2 ^ 64 -> 0 <= max -> Forall (fun b => b <> 0) file ->
  exists st recs rest, Init_RAM buf_size max (Some file) = Ok st /\ unread st recs /\
    file = concat recs ++ rest /\ (max <> 0 -> Z.of_nat (length recs) <= max) /\
    (max = 0 -> 5 * Z.of_nat (length file) <= buf_size -> rest = []).
Proof.
  intros Hbs Hm Hnz. unfold Init_RAM. rewrite (proj2 (Z.eqb_neq buf_size 0)) by lia. cbn [negb afs_assert mbind result_bind].
  destruct (load_filled (S (length file)) buf_size max file (mkRAM (replicate (Z.to_nat buf_size) 0) 0 0 0 0) [])
    as (st & recs & rest & Hld & (room & Hb & Hlen & Hp & Ht & Hc & Hall) & Hfile & Hmx & Hrest); try done; try (simpl; lia).
  - exists (replicate (Z.to_nat buf_size) 0). simpl. rewrite length_replicate. split_and!; try done. lia.
  - rewrite Hld. cbn [mbind result_bind]. exists (rewind st), recs, rest. split; [done|]. split; [|by split_and!].
    exists [], room. simpl in *. split_and!; [done|done|lia|done].
Qed.

(** ** The thread deals the records out *)

(** The elements whose number, counted from [c], is [i] modulo [m]. *)
Fixpoint share {A} (m i c : Z) (l : list A) : list A :=
  match l with
  | [] => []
  | x :: l' => (if c mod m =? i then [x] else []) ++ share m i (c + 1) l'
  end.

Definition dealt {A} (m c : Z) (qs : list (list A)) (l : list A) : list (list A) :=
  imap (fun i q => q ++ share m (Z.of_nat i) c l) qs.

Lemma on_ring_dealt op srcs m c (qs : list (list ring_op)) :
  m = Z.of_nat (length qs) -> 0 < m ->
  exists qs', on_ring (c mod m) op qs = Ok qs' /\ length qs' = length qs /\
    dealt m c qs (op :: srcs) = dealt m (c + 1) qs' srcs.
Proof.
  intros Hm Hpos. pose proof (Z.mod_pos_bound c m Hpos) as Hr.
  destruct (lookup_lt_is_Some_2 qs (Z.to_nat (c mod m))) as [q Hq]; [lia|].
  unfold on_ring. rewrite (proj2 (at_index_ok qs (c mod m) q)) by (split; [lia|done]). cbn [mbind result_bind].
  rewrite set_index_ok by lia. eexists. split; [done|]. split; [by rewrite length_insert|].
  apply list_eq. intros i. unfold dealt. rewrite !list_lookup_imap. simpl.
  destruct (decide (i = Z.to_nat (c mod m))) as [->|Hne].
  - rewrite list_lookup_insert_eq by lia. rewrite Hq. simpl. rewrite Z2Nat.id, Z.eqb_refl by lia. f_equal. by rewrite <- app_assoc.
  - rewrite list_lookup_insert_ne by done. destruct (qs !! i) as [q'|] eqn:Hi; [|done]. simpl. apply lookup_lt_Some in Hi.
    destruct (Z.eqb_spec (c mod m) (Z.of_nat i)); [lia|done].
Qed.

(** A router that will choose [c mod m] next. *)
Definition router_at (r : RouterRR) (m c : Z) : Prop :=
  max_ r = m /\ -1 <= cur_ r < m /\ (cur_ r + 1) mod m = c mod m.

Lemma GetDestination_at r m c :
  0 < m < 2 ^ 31 -> router_at r m c ->
  exists r', GetDestination r = Ok (c mod m, r') /\ router_at r' m (c + 1).
Proof.
  intros Hm (Hmx & Hcur & Hc). unfold GetDestination. rewrite Hmx, (proj2 (Z.eqb_neq m 0)) by lia.
  rewrite (signed_of_small 32) by (try lia; split; simpl; lia). rewrite Z.rem_mod_nonneg, Hc by lia.
  eexists. split; [done|]. pose proof (Z.mod_pos_bound c m ltac:(lia)). split_and!; simpl; [done|lia|lia|].
  by rewrite Zplus_mod_idemp_l.
Qed.

Lemma read_loop_deals recs t c fuel m :
  unread (adapter_ t) recs -> m = Z.of_nat (length (queues_ t)) -> 0 < m < 2 ^ 31 ->
  router_at (router_ t) m c -> (length recs < fuel)%nat ->
  exists t' srcs, read_loop fuel t = Ok t' /\ Forall2 prefix recs srcs /\
    queues_ t' = dealt m c (queues_ t) (Put <$> srcs) /\ event_ t' = event_ t + Z.of_nat (length recs).
Proof.
  revert t c fuel. induction recs as [|rec recs IH]; intros t c fuel Hu Hm Hpos Hr Hfuel; (destruct fuel as [|fuel]; [simpl in Hfuel; lia|]).
  - cbn [read_loop]. rewrite (ReadRecord_end _ Hu). cbn [mbind result_bind]. eexists _, []. split; [done|].
    split_and!; [constructor| |simpl; lia]. simpl. unfold dealt. apply list_eq. intros i. rewrite list_lookup_imap.
    destruct (queues_ t !! i); [|done]. simpl. by rewrite app_nil_r.
  - destruct (ReadRecord_unread _ _ _ Hu) as (a & Hread & Hb & _ & Hpre & Hu' & _).
    cbn [read_loop]. rewrite Hread. cbn [mbind result_bind]. unfold Emit. cbn [router_ adapter_ queues_ event_].
    destruct (GetDestination_at _ _ _ Hpos Hr) as (r' & Hdst & Hr'). rewrite Hdst. cbn [mbind result_bind]. rewrite Hb.
    set (src := drop (Z.to_nat (ptr_ (adapter_ t) + 4)) (buf_ (adapter_ t))) in *.
    destruct (on_ring_dealt (Put src) [] m c (queues_ t) Hm ltac:(lia)) as (qs' & Hon & Hlen & _).
    rewrite Hon. cbn [mbind result_bind].
    destruct (IH (mkUp a r' qs' (event_ t + 1)) (c + 1) fuel) as (t' & srcs & Hrun & Hall & Hq & Hev); try done.
    { simpl. by rewrite Hlen. }
    { simpl in Hfuel. lia. }
    exists t', (src :: srcs). split; [done|]. split_and!; [by constructor| |simpl in *; lia].
    rewrite Hq. simpl. destruct (on_ring_dealt (Put src) (Put <$> srcs) m c (queues_ t) Hm ltac:(lia)) as (qs2 & Hon2 & _ & Hdeal).
    rewrite Hon in Hon2. injection Hon2 as <-. symmetry. exact Hdeal.
Qed.

(** ** The recovery adapter *)

(** Sequence numbers that follow each other. *)
Definition consecutive (seqs : list Z) : Prop :=
  forall i a b, seqs !! i = Some a -> seqs !! S i = Some b -> u64 (b - a) = 1.

(** The loop keeps the last number and the start of the current run. *)
Lemma find_start_fold rest pre start last_seq i :
  last pre = Some last_seq -> i = Z.of_nat (length pre) -> 0 <= start < i ->
  consecutive (drop (Z.to_nat start) pre) ->
  (start = 0 \/ exists a b, pre !! Z.to_nat (start - 1) = Some a /\ pre !! Z.to_nat start = Some b /\ u64 (b - a) <> 1) ->
  let '(start', _, _) := fold_left (fun '(start, last_seq, i) cur_seq =>
        if u64 (cur_seq - last_seq) =? 1 then (start, cur_seq, i + 1) else (i, cur_seq, i + 1)) rest (start, last_seq, i) in
  0 <= start' < Z.of_nat (length (pre ++ rest)) /\ consecutive (drop (Z.to_nat start') (pre ++ rest)) /\
  (start' = 0 \/ exists a b, (pre ++ rest) !! Z.to_nat (start' - 1) = Some a /\
     (pre ++ rest) !! Z.to_nat start' = Some b /\ u64 (b - a) <> 1).
Proof.
  revert pre start last_seq i. induction rest as [|s rest IH]; intros pre start last_seq i Hlast Hi Hst Hcons Hgap.
  { cbn [fold_left]. rewrite app_nil_r, <- Hi. split; [lia|]. split; done. }
  cbn [fold_left]. rewrite (cons_middle s pre rest), app_assoc.
  assert (Hlast' : last (pre ++ [s]) = Some s) by apply last_snoc.
  assert (Hlen : length (pre ++ [s]) = S (length pre)) by (rewrite length_app; simpl; lia).
  rewrite last_lookup in Hlast.
  destruct (Z.eqb_spec (u64 (s - last_seq)) 1) as [Heq|Hne]; apply IH; try done; try lia.
  - intros j a b Ha Hb. rewrite lookup_drop in Ha, Hb.
    destruct (decide (Z.to_nat start + S j = length pre)%nat) as [E|E].
    + rewrite E, lookup_app_r, Nat.sub_diag in Hb by lia. injection Hb as <-.
      rewrite lookup_app_l in Ha by lia. replace (Z.to_nat start + j)%nat with (Nat.pred (length pre)) in Ha by lia. congruence.
    + apply lookup_lt_Some in Hb as Hlt. rewrite Hlen in Hlt. rewrite lookup_app_l in Ha, Hb by lia.
      apply (Hcons j); rewrite lookup_drop; [done|]. done.
  - destruct Hgap as [->|(a & b & Ha & Hb & Hn)]; [by left|]. right. exists a, b.
    rewrite !lookup_app_l by lia. done.
  - replace (Z.to_nat i) with (length pre) by lia. rewrite drop_app_length. intros [|j] a b Ha Hb; done.
  - right. exists last_seq, s. split_and!; [| |done].
    + rewrite lookup_app_l by lia. by replace (Z.to_nat (i - 1)) with (Nat.pred (length pre)) by lia.
    + rewrite lookup_app_r by lia. by replace (Z.to_nat i - length pre)%nat with 0%nat by lia.
Qed.

Lemma find_start_spec seqs :
  seqs <> [] ->
  exists start, find_start seqs = Ok start /\ 0 <= start < Z.of_nat (length seqs) /\
    consecutive (drop (Z.to_nat start) seqs) /\
    (start = 0 \/ exists a b, seqs !! Z.to_nat (start - 1) = Some a /\ seqs !! Z.to_nat start = Some b /\ u64 (b - a) <> 1).
Proof.
  destruct seqs as [|s0 rest]; [done|]. intros _. unfold find_start.
  pose proof (find_start_fold rest [s0] 0 s0 1 eq_refl eq_refl ltac:(lia)) as Hf.
  destruct (fold_left _ rest (0, s0, 1)) as [[start' l] i]. exists start'. split; [done|]. apply Hf; [|by left].
  intros [|j] a b Ha Hb; done.
Qed.

Lemma words_le_bytes seqs :
  Forall (in_unsigned 64) seqs -> words (length seqs) (concat (le_bytes 8 <$> seqs)) = seqs.
Proof.
  induction 1 as [|s seqs Hs _ IH]; [done|]. cbn [length words fmap list_fmap concat].
  rewrite take_app_length', drop_app_length' by (by rewrite length_le_bytes). rewrite le_val_bytes, IH.
  by rewrite Z.mod_small.
Qed.

Definition small (rec : list Z) : Prop := Z.of_nat (length rec) < 2 ^ 32.

Lemma skip_record_frames pre rec rest :
  small rec -> skip_record (pre ++ frame rec ++ rest) (Z.of_nat (length pre)) = Ok (Z.of_nat (length (pre ++ frame rec))).
Proof.
  intros Hs. unfold skip_record, frame. rewrite <- !app_assoc, (mem_read_app_mid pre) by done. cbn [mbind result_bind].
  rewrite le_val_bytes, Z.mod_small by (change (256 ^ Z.of_nat 4) with (2 ^ 32); unfold small in Hs; lia).
  f_equal. rewrite !length_app, length_le_bytes. lia.
Qed.

Lemma skip_records n pre recs j :
  (n <= length recs)%nat -> Forall small recs ->
  foldM (fun p (_ : nat) => skip_record (pre ++ frames recs) p) (List.seq j n) (Z.of_nat (length pre))
    = Ok (Z.of_nat (length (pre ++ frames (take n recs)))).
Proof.
  revert pre recs j. induction n as [|n IH]; intros pre recs j Hn Hs; [simpl; by rewrite app_nil_r|].
  destruct recs as [|rec recs]; [simpl in Hn; lia|]. apply Forall_cons in Hs as [Hr Hs]. cbn [List.seq foldM take].
  rewrite !frames_cons, skip_record_frames by done. cbn [mbind result_bind].
  rewrite !app_assoc. apply IH; [simpl in Hn; lia|done].
Qed.

(** Read what is left. *)
Fixpoint recover_records (n : nat) (st : AdapterRecovery) : result (list (list Z) * AdapterRecovery) :=
  match n with
  | O => Ok ([], st)
  | S n' =>
      '(d, st1) ← ReadRecord_Recovery st;
      match d with
      | None => Ok ([], st1)
      | Some (p, len) =>
          rec ← mem_read (data_buf_ st1) p len;
          '(recs, st2) ← recover_records n' st1;
          Ok (rec :: recs, st2)
      end
  end.

Lemma recover_records_spec recs pre n :
  Forall small recs -> (length recs < n)%nat ->
  exists st, recover_records n (mkRecovery (pre ++ frames recs) (Z.of_nat (length (pre ++ frames recs))) (Z.of_nat (length pre)))
    = Ok (recs, st).
Proof.
  revert pre n. induction recs as [|rec recs IH]; intros pre n Hs Hn; (destruct n as [|n]; [simpl in Hn; lia|]).
  - cbn [recover_records]. unfold ReadRecord_Recovery. cbn [rptr_ data_size_]. unfold frames. simpl. rewrite app_nil_r, Z.eqb_refl.
    by eexists.
  - apply Forall_cons in Hs as [Hr Hs]. cbn [recover_records]. unfold ReadRecord_Recovery. cbn [rptr_ data_size_ data_buf_].
    rewrite frames_cons. destruct (Z.eqb_spec (Z.of_nat (length pre)) (Z.of_nat (length (pre ++ frame rec ++ frames recs)))) as [E|_].
    { rewrite !length_app, length_frame in E. lia. }
    assert (Hlb : mem_read (pre ++ frame rec ++ frames recs) (Z.of_nat (length pre)) 4 = Ok (le_bytes 4 (Z.of_nat (length rec)))).
    { unfold frame. rewrite <- !app_assoc. by apply mem_read_app_mid. }
    assert (Hrec : mem_read (pre ++ frame rec ++ frames recs) (Z.of_nat (length pre) + 4) (Z.of_nat (length rec)) = Ok rec).
    { unfold frame. rewrite <- !app_assoc, (app_assoc pre). apply mem_read_app_mid; [|done].
      rewrite length_app, length_le_bytes. lia. }
    rewrite Hlb. cbn [mbind result_bind data_buf_].
    rewrite le_val_bytes, Z.mod_small by (change (256 ^ Z.of_nat 4) with (2 ^ 32); unfold small in Hr; lia).
    rewrite Hrec. cbn [mbind result_bind]. destruct (IH (pre ++ frame rec) n Hs) as (st & Hrun); [simpl in Hn; lia|].
    exists st. rewrite <- app_assoc in Hrun.
    replace (Z.of_nat (length pre) + 4 + Z.of_nat (length rec)) with (Z.of_nat (length (pre ++ frame rec)))
      by (rewrite length_app, length_frame; lia).
    rewrite Hrun. done.
Qed.

(** ** Theorems *)

(** The RAM adapter returns the trace: on a file without zero bytes, [Init]
    and then one [ReadRecord] after the other deliver consecutive pieces of the
    file from its start, at most [max] of them, and then a null pointer; the
    whole file is delivered when the buffer has five bytes for every byte of the
    file and no maximum is set. *)
Theorem ram_adapter_delivers buf_size max file :
  0 < buf_size < 2 ^ 64 -> 0 <= max -> Forall (fun b => b <> 0) file ->
  exists st recs st' rest, Init_RAM buf_size max (Some file) = Ok st /\
    read_records (length recs) st = Ok (recs, st') /\ ReadRecord_RAM st' = Ok (None, st') /\
    file = concat recs ++ rest /\ (max <> 0 -> Z.of_nat (length recs) <= max) /\
    (max = 0 -> 5 * Z.of_nat (length file) <= buf_size -> rest = []).
Proof.
  intros Hbs Hm Hnz. destruct (Init_RAM_spec _ _ _ Hbs Hm Hnz) as (st & recs & rest & Hi & Hu & Hf & Hmx & Hr).
  destruct (read_records_unread _ _ Hu) as (st' & Hrd & Hend). exists st, recs, st', rest.
  split_and!; try done. by apply ReadRecord_end.
Qed.



(** Without a maximum the disk adapter never reports the end of its file:
    every further [ReadRecord] returns the last line again. *)
Theorem disk_adapter_never_ends st n :
  file_ st = [] -> dmax st = 0 ->
  exists st', Nat.iter n (fun '(_, st) => ReadRecord_Disk st) (Some (dbuf st), st) = (Some (dbuf st), st') /\
    file_ st' = [] /\ dmax st' = 0 /\ dbuf st' = dbuf st.
Proof.
  intros Hf Hm. induction n as [|n (st' & Hrun & Hf' & Hm' & Hb')]; [by exists st|].
  rewrite Nat.iter_succ, Hrun. unfold ReadRecord_Disk. rewrite Hf'. cbn [fgets]. rewrite Hm'. simpl. rewrite Hb'. by eexists.
Qed.

(** An assignment to a [RawItem] that held a longer record leaves the old tail
    behind the new one. *)
Lemma raw_assign_keeps_tail new old :
  Forall (fun b => b <> 0) new -> (length new <= length old)%nat ->
  raw_assign old (new ++ [0]) = new ++ drop (length new) old.
Proof.
  intros Hnz Hl. assert (Hc : cstr (new ++ [0]) = new).
  { induction Hnz as [|b l Hb _ IH]; [done|]. simpl in *. rewrite (proj2 (Z.eqb_neq b 0) Hb). by rewrite IH by lia. }
  unfold raw_assign. by rewrite Hc.
Qed.

(** ** Samples *)

Section Sample.

(** "ab\n" and "c\n". *)
Definition sample_file : list Z := [97; 98; 10; 99; 10].

Lemma ram_adapter_delivers_witness :
  exists st recs st' rest, Init_RAM 32 0 (Some sample_file) = Ok st /\
    read_records (length recs) st = Ok (recs, st') /\ ReadRecord_RAM st' = Ok (None, st') /\
    sample_file = concat recs ++ rest /\ (0 <> 0 -> Z.of_nat (length recs) <= 0) /\
    (0 = 0 -> 5 * Z.of_nat (length sample_file) <= 32 -> rest = []).
Proof. apply (ram_adapter_delivers 32 0 sample_file); [lia|lia|]. unfold sample_file. repeat constructor; lia. Defined.

Definition sample_ram : AdapterRAM := Eval vm_compute in
  match Init_RAM 32 0 (Some sample_file) with Ok st => st | Stop _ => mkRAM [] 0 0 0 0 end.



Lemma disk_adapter_never_ends_witness :
  exists st', Nat.iter 3 (fun '(_, st) => ReadRecord_Disk st) (Some [97; 10], mkDisk [] [97; 10] 0 1) = (Some [97; 10], st') /\
    file_ st' = [] /\ dmax st' = 0 /\ dbuf st' = [97; 10].
Proof. apply (disk_adapter_never_ends (mkDisk [] [97; 10] 0 1) 3); done. Defined.

End Sample.

End Trace.
