(* ===== verification/Hash.v ===== *)
(** The hash functions of src/operator/hash.cpp: [AwareHash] on 32-bit integers
    and the class [Hash], which an application seeds from the operator
    tracker. *)
From stdpp Require Import base numbers list.
From Stdlib Require Import ZArith Lia.
From S2P Require Import Prelude.

Module HashModel.

(** The loop of [AwareHash]: [hash *= scale; hash += *data++], in [unsigned]. *)
Fixpoint aware_loop (data : list Z) (hash scale : Z) : Z :=
  match data with
  | [] => hash
  | b :: data' => aware_loop data' (u32 (u32 (hash * scale) + b)) scale
  end.

(** [AwareHash (data, n, hash, scale, hardener)] on the first [n] bytes. *)
Definition AwareHash (data : list Z) (n hash scale hardener : Z) : result Z :=
  bytes ← mem_read data 0 n;
  Ok (Z.lxor (aware_loop bytes hash scale) hardener).

Definition DEFAULT_HASH : Z := 388650253.
Definition DEFAULT_SCALE : Z := 388650319.
Definition DEFAULT_HARDENER : Z := 1176845762.

Record Hash := mkHash {
  hash : Z;      (* uint64_t *)
  scale : Z;     (* uint64_t *)
  hardener : Z;  (* uint64_t *)
  MAX_VALUE : Z  (* size_t *)
}.

(** The constructor: all three parameters are the same hash of the seed. *)
Definition new_Hash (afs_seed max_value : Z) : result Hash :=
  v ← AwareHash (le_bytes 8 afs_seed) 8 DEFAULT_HASH DEFAULT_SCALE DEFAULT_HARDENER;
  Ok {| hash := v; scale := v; hardener := v; MAX_VALUE := max_value |}.

(** [AwareHash] takes [unsigned int]s, so the 64-bit parameters are cut. *)
Definition GetHashValue (h : Hash) (key : list Z) (len : Z) : result Z :=
  v ← AwareHash key (u32 len) (u32 (hash h)) (u32 (scale h)) (u32 (hardener h));
  if MAX_VALUE h =? 0 then Stop DivByZero else Ok (v mod MAX_VALUE h).

Lemma aware_loop_range data h sc : in_unsigned 32 h -> in_unsigned 32 (aware_loop data h sc).
Proof.
  revert h. induction data as [|b data IH]; intros h Hh; simpl; [done|].
  apply IH. by apply unsigned_of_range.
Qed.

(** Both operands of the final exclusive or fit in 32 bits, so the result does. *)
Lemma lxor_range w a b : 0 <= w -> in_unsigned w a -> in_unsigned w b -> in_unsigned w (Z.lxor a b).
Proof.
  intros Hw [Ha1 Ha2] [Hb1 Hb2]. split; [by apply Z.lxor_nonneg|].
  destruct (Z.eq_dec (Z.lxor a b) 0) as [->|Hne]; [lia|].
  assert (0 < Z.lxor a b) by (pose proof (proj2 (Z.lxor_nonneg a b)); lia).
  apply Z.log2_lt_pow2; [done|].
  pose proof (Z.log2_lxor a b Ha1 Hb1) as Hl.
  assert (Hlog : forall x, 0 <= x < 2 ^ w -> x = 0 \/ Z.log2 x < w).
  { intros x Hx. destruct (Z.eq_dec x 0); [by left|right]. apply Z.log2_lt_pow2; lia. }
  destruct (Hlog a) as [->|H1]; [lia| |]; destruct (Hlog b) as [->|H2]; try lia; rewrite ?Z.log2_nonpos in * by lia.
  - done.
  - rewrite Z.lxor_0_l in *. lia.
  - rewrite Z.lxor_0_r in *. lia.
Qed.

Lemma new_Hash_ok seed max : exists h, new_Hash seed max = Ok h /\ MAX_VALUE h = max /\
  in_unsigned 32 (hash h) /\ in_unsigned 32 (scale h) /\ in_unsigned 32 (hardener h).
Proof.
  unfold new_Hash, AwareHash. rewrite mem_read_ok by (rewrite ?length_le_bytes; lia).
  cbn [mbind result_bind]. eexists. split; [reflexivity|]. split; [done|]. cbn [hash scale hardener].
  assert (H : in_unsigned 32 (Z.lxor (aware_loop (take (Z.to_nat 8) (drop (Z.to_nat 0) (le_bytes 8 seed)))
    DEFAULT_HASH DEFAULT_SCALE) DEFAULT_HARDENER)).
  { apply lxor_range; [lia| |by vm_compute]. apply aware_loop_range. by vm_compute. }
  done.
Qed.

Lemma GetHashValue_ok h key len :
  0 < MAX_VALUE h -> in_unsigned 32 len -> len <= Z.of_nat (length key) ->
  exists v, GetHashValue h key len = Ok v /\ 0 <= v < MAX_VALUE h.
Proof.
  intros Hmax Hlen Hkey. unfold GetHashValue, AwareHash. rewrite (unsigned_of_small 32 len) by done.
  unfold in_unsigned in Hlen. rewrite mem_read_ok by lia. cbn [mbind result_bind].
  rewrite (proj2 (Z.eqb_neq (MAX_VALUE h) 0)) by lia. eexists. split; [reflexivity|]. by apply Z.mod_pos_bound.
Qed.

(** A seeded hash maps every key of at least [len] bytes into
    [0, max_value - 1], as its comment promises, and only a table of size zero
    makes it divide by zero. *)
Theorem hash_in_range (seed max_value : Z) (key : list Z) (len : Z) :
  in_unsigned 32 len -> len <= Z.of_nat (length key) -> 0 <= max_value ->
  exists h, new_Hash seed max_value = Ok h /\
    if max_value =? 0 then GetHashValue h key len = Stop DivByZero
    else exists v, GetHashValue h key len = Ok v /\ 0 <= v <= max_value - 1.
Proof.
  intros Hlen Hkey Hmax. destruct (new_Hash_ok seed max_value) as (h & Hh & Hm & _).
  exists h. split; [done|]. destruct (Z.eqb_spec max_value 0) as [->|Hne].
  - unfold GetHashValue, AwareHash. rewrite (unsigned_of_small 32 len) by done.
    unfold in_unsigned in Hlen. rewrite mem_read_ok by lia. cbn [mbind result_bind]. by rewrite Hm.
  - destruct (GetHashValue_ok h key len) as (v & Hv & Hr); [lia|done|done|]. exists v. split; [done|lia].
Qed.

Lemma hash_in_range_witness :
  exists h, new_Hash 3 8000 = Ok h /\
    if 8000 =? 0 then GetHashValue h (le_bytes 8 77) 8 = Stop DivByZero
    else exists v, GetHashValue h (le_bytes 8 77) 8 = Ok v /\ 0 <= v <= 8000 - 1.
Proof. apply (hash_in_range 3 8000 (le_bytes 8 77) 8); by vm_compute. Defined.

End HashModel.
