(* ===== verification/CountMin.v ===== *)
(** The count-min application (apps/count_min): the sketch over
    [NumericArray_MAX] rows and [Hash] functions (cm_sketch.hpp; cm_sketch.cpp
    repeats the class and is not built), the item that carries a window's
    counters and candidates (cm_item.hpp), the compute thread that fills windows
    (cm_thread.hpp) and the thread that merges them (merge_thread.hpp).  The rows are the operators of the compute thread,
    so every operation takes and returns them. *)
From stdpp Require Import base numbers list.
From Stdlib Require Import ZArith Lia.
From S2P Require Import Prelude BackupItem Operators Hash Backup BackupSpec ComputeThread.

(** ** The sketch *)

Module Sketch.
Import MaxArray HashModel.

(** The class without its array of rows. *)
Record CountMin := mkCountMin {
  row : Z;          (* size_t *)
  width : Z;        (* size_t *)
  hashes : list Hash
}.

Abbreviation rows := (list NumericArray_MAX).

(** One turn of the constructor's loop: a row with its threshold, a hash with
    the next seed. *)
Definition new_row (w d : Z) (st : rows * list Hash * Z) (i : Z) : result (rows * list Hash * Z) :=
  let '(arrs, hs, seed) := st in
  h ← new_Hash seed w;
  Ok (arrs ++ [SetDivergenceThresh (new_NumericArray_MAX 0 w) d], hs ++ [h], u32 (seed + 1)).

Definition new_CountMin (seed r w d : Z) : result (CountMin * rows) :=
  st ← foldM (new_row w d) (indices (Z.to_nat r)) ([], [], seed);
  Ok ({| row := r; width := w; hashes := st.1.2 |}, st.1.1).

(** [hash[i]->GetHashValue (&key, sizeof (size_t))]. *)
Definition row_index (cm : CountMin) (i key : Z) : result Z :=
  h ← at_index (hashes cm) i;
  GetHashValue h (le_bytes 8 key) 8.

(** One turn of [UpdateSketch]. *)
Definition update_row (cm : CountMin) (key value : Z) (st : Z * rows) (i : Z) : result (Z * rows) :=
  index ← row_index cm i key;
  a ← at_index st.2 i;
  old ← GetValue a (u32 index);
  let new_v := s64 (old + value) in
  a' ← UpdateValue a (u32 index) new_v;
  arrs ← set_index st.2 i a';
  Ok (if (i =? 0) || (new_v <? st.1) then new_v else st.1, arrs).

Definition UpdateSketch (cm : CountMin) (arrs : rows) (key value : Z) : result (Z * rows) :=
  foldM (update_row cm key value) (indices (Z.to_nat (row cm))) (0, arrs).

Definition GetCell (arrs : rows) (r w : Z) : result Z :=
  a ← at_index arrs r;
  GetValue a (u32 w).

Definition SetValue (arrs : rows) (r w v : Z) : result rows :=
  a ← at_index arrs r;
  a' ← UpdateValue a (u32 w) v;
  set_index arrs r a'.

(** One turn of [GetEstimate]. *)
Definition estimate_row (cm : CountMin) (arrs : rows) (key : Z) (ret i : Z) : result Z :=
  index ← row_index cm i key;
  a ← at_index arrs i;
  v ← GetValue a (u32 index);
  Ok (if (i =? 0) || (v <? ret) then v else ret).

Definition GetEstimate (cm : CountMin) (arrs : rows) (key : Z) : result Z :=
  foldM (estimate_row cm arrs key) (indices (Z.to_nat (row cm))) 0.

Definition ClearSketch (cm : CountMin) (arrs : rows) : result rows :=
  foldM (fun arrs i => a ← at_index arrs i; set_index arrs i (Clear_MAX a)) (indices (Z.to_nat (row cm))) arrs.

(** ** What the cells mean *)

(** The hash of a key in a row. *)
Definition hv (h : Hash) (key : Z) : Z :=
  match GetHashValue h (le_bytes 8 key) 8 with Ok v => v | Stop _ => 0 end.

(** Sums over a sequence of updates. *)
Definition sum_if (P : Z -> bool) (upds : list (Z * Z)) : Z :=
  foldr (fun u n => (if P u.1 then u.2 else 0) + n) 0 upds.
Definition cell_sum (h : Hash) (j : Z) (upds : list (Z * Z)) : Z := sum_if (fun k => hv h k =? j) upds.
Definition true_sum (key : Z) (upds : list (Z * Z)) : Z := sum_if (fun k => k =? key) upds.
Definition total_sum (upds : list (Z * Z)) : Z := sum_if (fun _ => true) upds.

(** Every cell is the sum of the updates its hash sends there. *)
Record sketch_inv (cm : CountMin) (arrs : rows) (upds : list (Z * Z)) : Prop := {
  sk_row : 0 < row cm;
  sk_width : 0 < width cm < 2 ^ 32;
  sk_hashes : Z.of_nat (length (hashes cm)) = row cm;
  sk_arrays : Z.of_nat (length arrs) = row cm;
  sk_max : Forall (fun h => MAX_VALUE h = width cm) (hashes cm);
  sk_len : Forall (fun a => max_inv a /\ arr_length a = width cm) arrs;
  sk_cell : forall i h a (j : nat), hashes cm !! i = Some h -> arrs !! i = Some a -> Z.of_nat j < width cm ->
    array a !! j = Some (cell_sum h (Z.of_nat j) upds);
  sk_pos : Forall (fun u => 0 <= u.2) upds;
  sk_total : total_sum upds < 2 ^ 62
}.

Lemma sum_if_app P l k : sum_if P (l ++ k) = sum_if P l + sum_if P k.
Proof. unfold sum_if. induction l as [|u l IH]; simpl; [lia|]. rewrite IH. lia. Qed.

Lemma sum_if_mono P Q upds :
  Forall (fun u => 0 <= u.2) upds -> (forall k, P k = true -> Q k = true) -> 0 <= sum_if P upds <= sum_if Q upds.
Proof.
  intros HF HPQ. induction HF as [|u l Hu _ IH]; simpl; [lia|].
  destruct (P u.1) eqn:E; [rewrite (HPQ _ E); lia|]. destruct (Q u.1); lia.
Qed.

Lemma hv_range h key : 0 < MAX_VALUE h -> 0 <= hv h key < MAX_VALUE h /\ GetHashValue h (le_bytes 8 key) 8 = Ok (hv h key).
Proof.
  intros Hm. destruct (GetHashValue_ok h (le_bytes 8 key) 8 Hm) as (v & Hv & Hr); [done|rewrite length_le_bytes; lia|].
  unfold hv. rewrite Hv. done.
Qed.

Section Cells.
Context (cm : CountMin) (arrs : rows) (upds : list (Z * Z)).
Hypothesis Hinv : sketch_inv cm arrs upds.

Lemma sketch_row i :
  0 <= i < row cm -> exists h a, hashes cm !! Z.to_nat i = Some h /\ arrs !! Z.to_nat i = Some a /\
    at_index arrs i = Ok a /\ MAX_VALUE h = width cm /\ max_inv a /\ arr_length a = width cm.
Proof.
  intros Hi. pose proof Hinv as [].
  destruct (lookup_lt_is_Some_2 (hashes cm) (Z.to_nat i)) as [h Hh]; [lia|].
  destruct (lookup_lt_is_Some_2 arrs (Z.to_nat i)) as [a Ha]; [lia|].
  exists h, a. split; [done|]. split; [done|]. split; [apply at_index_ok; split; [lia|done]|].
  split; [exact (Forall_lookup_1 _ _ _ _ sk_max0 Hh)|]. exact (Forall_lookup_1 _ _ _ _ sk_len0 Ha).
Qed.

(** The cell a key goes to in row [i], and its value. *)
Lemma sketch_cell i key h a :
  hashes cm !! Z.to_nat i = Some h -> arrs !! Z.to_nat i = Some a -> 0 <= i ->
  row_index cm i key = Ok (hv h key) /\ u32 (hv h key) = hv h key /\ 0 <= hv h key < width cm /\
  GetValue a (hv h key) = Ok (cell_sum h (hv h key) upds).
Proof.
  intros Hh Ha Hi. pose proof Hinv as [].
  pose proof (Forall_lookup_1 _ _ _ _ sk_max0 Hh) as Hmax. cbn in Hmax.
  destruct (hv_range h key) as [Hr Hg]; [lia|].
  split; [unfold row_index; rewrite (proj2 (at_index_ok (hashes cm) i h)) by (split; [lia|done]); done|].
  split; [apply unsigned_of_small; unfold in_unsigned; lia|]. split; [lia|].
  unfold GetValue. apply at_index_ok. split; [lia|].
  rewrite (sk_cell0 (Z.to_nat i) h a (Z.to_nat (hv h key)) Hh Ha) by lia. by rewrite Z2Nat.id by lia.
Qed.

Lemma cell_sum_bounds h j : 0 <= cell_sum h j upds <= total_sum upds.
Proof. destruct Hinv. by apply sum_if_mono. Qed.

(** The rows' answers for a key. *)
Definition answers (key : Z) : list Z := (fun h => cell_sum h (hv h key) upds) <$> hashes cm.

Lemma answer_bounds key x : x ∈ answers key -> true_sum key upds <= x <= total_sum upds.
Proof.
  intros Hx. unfold answers in Hx. apply list_elem_of_fmap in Hx as (h & -> & _).
  split; [|apply cell_sum_bounds]. destruct Hinv. apply sum_if_mono; [done|].
  intros k Hk. apply Z.eqb_eq in Hk as ->. apply Z.eqb_refl.
Qed.

(** The running minimum of the loops. *)
Definition min_step (ret : Z) (i v : Z) : Z := if (i =? 0) || (v <? ret) then v else ret.

Definition is_min (l : list Z) (m : Z) : Prop := m ∈ l /\ Forall (fun x => m <= x) l.

Lemma min_step_spec l ret v :
  (l = [] \/ is_min l ret) -> is_min (l ++ [v]) (min_step ret (Z.of_nat (length l)) v).
Proof.
  unfold min_step, is_min. intros [->|[Hin HF]].
  - cbn. split; [apply list_elem_of_here|]. by repeat constructor.
  - destruct (Z.eqb_spec (Z.of_nat (length l)) 0) as [E|E].
    { destruct l; [by apply not_elem_of_nil in Hin|simpl in E; lia]. }
    cbn [orb]. destruct (Z.ltb_spec v ret).
    + split; [apply elem_of_app; right; by apply list_elem_of_singleton|].
      apply Forall_app. split; [|by repeat constructor]. eapply Forall_impl; [exact HF|]. cbn. lia.
    + split; [apply elem_of_app; by left|]. apply Forall_app. split; [done|]. by constructor.
Qed.

Lemma answers_snoc key n h :
  hashes cm !! n = Some h -> take (S n) (answers key) = take n (answers key) ++ [cell_sum h (hv h key) upds].
Proof. intros Hh. apply take_S_r. unfold answers. by rewrite list_lookup_fmap, Hh. Qed.

(** [GetEstimate] is the minimum of the rows' answers. *)
Lemma GetEstimate_min key : exists e, GetEstimate cm arrs key = Ok e /\ is_min (answers key) e.
Proof.
  pose proof Hinv as []. unfold GetEstimate.
  destruct (foldM_inv (fun ds m => let l := take (length ds) (answers key) in
      length l = length ds /\ (l = [] \/ is_min l m))
    (estimate_row cm arrs key) (indices (Z.to_nat (row cm))) 0) as (e & He & _ & Hmin).
  - split; [done|by left].
  - intros ds i m [Hl Hm] Hpre. destruct (indices_prefix _ _ _ Hpre) as [-> Hlt].
    destruct (sketch_row (Z.of_nat (length ds))) as (h & a & Hh & Ha & Hat & _); [lia|].
    destruct (sketch_cell (Z.of_nat (length ds)) key h a Hh Ha) as (H1 & H2 & _ & H4); [lia|].
    unfold estimate_row. rewrite H1. cbn [mbind result_bind]. rewrite Hat. cbn [mbind result_bind].
    rewrite H2, H4. cbn [mbind result_bind]. eexists. split; [reflexivity|].
    rewrite Nat2Z.id in Hh. rewrite length_app. cbn [length]. rewrite Nat.add_1_r.
    rewrite (answers_snoc key _ h Hh). split; [rewrite length_app, Hl; cbn; lia|]. right.
    pose proof (min_step_spec _ _ (cell_sum h (hv h key) upds) Hm) as Hs. by rewrite Hl in Hs.
  - exists e. split; [done|]. unfold indices in Hmin. rewrite length_fmap, length_seq in Hmin.
    assert (Hla : length (answers key) = Z.to_nat (row cm)) by (unfold answers; rewrite length_fmap; lia).
    rewrite take_ge in Hmin by lia. destruct Hmin as [Hnil|]; [|done].
    rewrite Hnil in Hla. simpl in Hla. lia.
Qed.

End Cells.

Lemma cell_sum_snoc h j upds key value :
  cell_sum h j (upds ++ [(key, value)]) = cell_sum h j upds + (if hv h key =? j then value else 0).
Proof. unfold cell_sum. rewrite sum_if_app. simpl. destruct (hv h key =? j); lia. Qed.

Lemma total_sum_snoc upds key value : total_sum (upds ++ [(key, value)]) = total_sum upds + value.
Proof. unfold total_sum. rewrite sum_if_app. simpl. lia. Qed.

(** A row after the update of one key. *)
Definition row_updated (w : Z) (h : Hash) (key value : Z) (upds : list (Z * Z)) (a a' : NumericArray_MAX) : Prop :=
  Compute.Bounded.one_update a a' /\ max_inv a' /\ arr_length a' = w /\
  array a' = <[Z.to_nat (hv h key) := cell_sum h (hv h key) upds + value]> (array a).

Section Update.
Context (cm : CountMin) (arrs : rows) (upds : list (Z * Z)) (key value : Z).
Hypothesis Hinv : sketch_inv cm arrs upds.
Hypothesis Hpos : 0 <= value.
Hypothesis Hfit : total_sum upds + value < 2 ^ 62.

Abbreviation upds' := (upds ++ [(key, value)]).

Lemma update_row_ok (n : nat) h a arrs' ret :
  hashes cm !! n = Some h -> arrs !! n = Some a -> arrs' !! n = Some a ->
  exists a', row_updated (width cm) h key value upds a a' /\
    update_row cm key value (ret, arrs') (Z.of_nat n)
      = Ok (min_step ret (Z.of_nat n) (cell_sum h (hv h key) upds'), <[n := a']> arrs').
Proof.
  intros Hh Ha Ha'. pose proof Hinv as []. pose proof (lookup_lt_Some _ _ _ Hh) as Hn.
  destruct (sketch_cell cm arrs upds Hinv (Z.of_nat n) key h a) as (H1 & H2 & H3 & H4);
    [by rewrite Nat2Z.id|by rewrite Nat2Z.id|lia|].
  destruct (Forall_lookup_1 _ _ _ _ sk_len0 Ha) as [Hmax Hlen].
  pose proof (cell_sum_bounds cm arrs upds Hinv h (hv h key)) as Hcb.
  assert (Hsmall : small (cell_sum h (hv h key) upds + value)) by (unfold small; lia).
  destruct (UpdateValue_inv a (hv h key) (cell_sum h (hv h key) upds + value) Hmax) as
    (a' & b & Hu & Hmax' & _ & Harr & _ & _ & Hal & _); [lia|done|].
  exists a'. split.
  - split; [|split; [done|]; split; [congruence|done]]. right.
    exists (hv h key), (cell_sum h (hv h key) upds + value). split; [lia|]. done.
  - unfold update_row. rewrite H1. cbn [mbind result_bind fst snd].
    rewrite (proj2 (at_index_ok arrs' (Z.of_nat n) a)) by (rewrite Nat2Z.id; split; [lia|done]).
    cbn [mbind result_bind]. rewrite H2, H4. cbn [mbind result_bind]. cbv zeta.
    rewrite (signed_of_small 64) by (unfold in_signed, small in *; lia).
    rewrite Hu. cbn [mbind result_bind].
    rewrite set_index_ok by (apply lookup_lt_Some in Ha'; lia). cbn [mbind result_bind]. rewrite Nat2Z.id.
    unfold min_step. by rewrite cell_sum_snoc, Z.eqb_refl.
Qed.

(** [UpdateSketch] adds the update to every row, once per row, and returns the
    estimate afterwards. *)
Lemma UpdateSketch_ok :
  exists ret arrs', UpdateSketch cm arrs key value = Ok (ret, arrs') /\ sketch_inv cm arrs' upds' /\
    Forall2 Compute.Bounded.one_update arrs arrs' /\ is_min (answers cm upds' key) ret.
Proof.
  pose proof Hinv as []. unfold UpdateSketch.
  destruct (foldM_inv (fun ds st => length st.2 = length arrs /\
      (forall i a', st.2 !! i = Some a' -> if decide (i < length ds)%nat then
         exists h a, hashes cm !! i = Some h /\ arrs !! i = Some a /\ row_updated (width cm) h key value upds a a'
         else arrs !! i = Some a') /\
      length (take (length ds) (answers cm upds' key)) = length ds /\
      (take (length ds) (answers cm upds' key) = [] \/ is_min (take (length ds) (answers cm upds' key)) st.1))
    (update_row cm key value) (indices (Z.to_nat (row cm))) (0, arrs)) as ([ret arrs'] & Hrun & Hlen & Hrows & _ & Hmin).
  - split; [done|]. split; [|split; [done|by left]]. intros i a' Hi. by rewrite decide_False by (simpl; lia).
  - intros ds i [ret arrs1] (Hlen & Hrows & Hl & Hm) Hpre. cbn [fst snd] in *.
    destruct (indices_prefix _ _ _ Hpre) as [-> Hlt]. set (n := length ds) in *.
    destruct (lookup_lt_is_Some_2 (hashes cm) n) as [h Hh]; [lia|].
    destruct (lookup_lt_is_Some_2 arrs1 n) as [a Ha]; [lia|].
    pose proof (Hrows n a Ha) as Ha0. rewrite decide_False in Ha0 by lia.
    destruct (update_row_ok n h a arrs1 ret Hh Ha0 Ha) as (a' & Hup & Hrun).
    eexists. split; [exact Hrun|]. cbn [fst snd]. rewrite length_insert. split; [done|].
    rewrite length_app. cbn [length]. fold n. rewrite Nat.add_1_r. split; [|split].
    + intros i x Hx. destruct (decide (i = n)) as [->|Hne].
      * rewrite list_lookup_insert_eq in Hx by (by eapply lookup_lt_Some). injection Hx as <-.
        rewrite decide_True by lia. by exists h, a.
      * rewrite list_lookup_insert_ne in Hx by done. specialize (Hrows i x Hx).
        destruct (decide (i < n)%nat); [by rewrite decide_True by lia|by rewrite decide_False by lia].
    + rewrite (answers_snoc cm upds' key n h Hh), length_app, Hl. cbn. lia.
    + right. rewrite (answers_snoc cm upds' key n h Hh).
      pose proof (min_step_spec _ _ (cell_sum h (hv h key) upds') Hm) as Hs. by rewrite Hl in Hs.
  - cbn [fst snd] in *. unfold indices in Hrows, Hmin. rewrite length_fmap, length_seq in Hrows, Hmin.
    assert (Hall : forall i a', arrs' !! i = Some a' -> exists h a, hashes cm !! i = Some h /\ arrs !! i = Some a /\
      row_updated (width cm) h key value upds a a').
    { intros i a' Hi. specialize (Hrows i a' Hi). rewrite decide_True in Hrows; [done|].
      apply lookup_lt_Some in Hi. lia. }
    exists ret, arrs'. split; [done|]. split; [|split].
    + split; try done; [lia| | | |].
      * apply Forall_lookup. intros i a' Hi. by destruct (Hall i a' Hi) as (h & a & _ & _ & _ & ? & ? & _).
      * intros i h a' j Hh Ha' Hj. destruct (Hall i a' Ha') as (h' & a & Hh' & Ha & _ & _ & _ & Harr).
        assert (h' = h) as -> by congruence. rewrite Harr, cell_sum_snoc.
        pose proof (Forall_lookup_1 _ _ _ _ sk_max0 Hh) as Hmx. cbn in Hmx.
        destruct (hv_range h key) as [Hr _]; [lia|].
        destruct (Z.eqb_spec (hv h key) (Z.of_nat j)) as [E|E].
        -- rewrite E, Nat2Z.id. apply list_lookup_insert_eq.
           destruct (Forall_lookup_1 _ _ _ _ sk_len0 Ha) as [[] Hl]. lia.
        -- rewrite list_lookup_insert_ne by lia. rewrite Z.add_0_r. by apply (sk_cell0 i h a).
      * apply Forall_app. split; [done|]. by repeat constructor.
      * by rewrite total_sum_snoc.
    + apply Forall2_same_length_lookup_2; [by symmetry|]. intros i a a' Ha Ha'.
      destruct (Hall i a' Ha') as (h & a0 & _ & Ha0 & Hup & _). by assert (a0 = a) as -> by congruence.
    + assert (Hla : length (answers cm upds' key) = Z.to_nat (row cm)) by (unfold answers; rewrite length_fmap; lia).
      rewrite take_ge in Hmin by lia. destruct Hmin as [Hnil|]; [|done]. rewrite Hnil in Hla. simpl in Hla. lia.
Qed.

End Update.

(** ** A fresh sketch *)

Lemma new_CountMin_ok seed r w d :
  0 < r -> 0 < w < 2 ^ 32 ->
  exists cm arrs, new_CountMin seed r w d = Ok (cm, arrs) /\ sketch_inv cm arrs [] /\
    row cm = r /\ width cm = w /\ Forall (fun a => theta a = d /\ array a = replicate (Z.to_nat w) 0) arrs.
Proof.
  intros Hr Hw. unfold new_CountMin.
  destruct (foldM_inv (fun ds st => length st.1.1 = length ds /\ length st.1.2 = length ds /\
      Forall (fun h => MAX_VALUE h = w) st.1.2 /\
      Forall (fun a => a = SetDivergenceThresh (new_NumericArray_MAX 0 w) d) st.1.1)
    (new_row w d) (indices (Z.to_nat r)) ([], [], seed)) as ([[arrs hs] sd] & Hrun & Ha & Hh & Hmax & Hall).
  - done.
  - intros ds i [[arrs hs] sd] (Ha & Hh & Hmax & Hall) Hpre. cbn [fst snd] in *.
    destruct (new_Hash_ok sd w) as (h & Hnew & Hm & _). unfold new_row. rewrite Hnew. cbn [mbind result_bind].
    eexists. split; [reflexivity|]. cbn [fst snd]. rewrite !length_app, Ha, Hh. split_and!; try done.
    + apply Forall_app. split; [done|]. by repeat constructor.
    + apply Forall_app. split; [done|]. by repeat constructor.
  - rewrite Hrun. cbn [mbind result_bind fst snd] in *. unfold indices in Ha, Hh. rewrite length_fmap, length_seq in Ha, Hh.
    eexists _, arrs. split; [reflexivity|]. cbn [row width hashes].
    assert (Hrows : Forall (fun a => max_inv a /\ arr_length a = w) arrs).
    { eapply Forall_impl; [exact Hall|]. intros a ->. split; [|done].
      split; cbn; rewrite ?length_replicate; try lia; apply Forall_replicate; unfold small; lia. }
    split; [|split; [done|]; split; [done|]].
    + split; cbn [row width hashes]; try done; try lia.
      intros i h a j _ Hai Hj. rewrite (Forall_lookup_1 _ _ _ _ Hall Hai). cbn. apply lookup_replicate_2. lia.
    + eapply Forall_impl; [exact Hall|]. by intros a ->.
Qed.

(** Run a sequence of updates. *)
Definition run_updates (cm : CountMin) (arrs : rows) (upds : list (Z * Z)) : result rows :=
  foldM (fun arrs u => r ← UpdateSketch cm arrs u.1 u.2; Ok r.2) upds arrs.

Lemma run_updates_ok cm arrs upds0 upds :
  sketch_inv cm arrs upds0 -> Forall (fun u => 0 <= u.2) upds -> total_sum (upds0 ++ upds) < 2 ^ 62 ->
  exists arrs', run_updates cm arrs upds = Ok arrs' /\ sketch_inv cm arrs' (upds0 ++ upds).
Proof.
  revert arrs upds0. induction upds as [|[k v] upds IH]; intros arrs upds0 Hinv HF Hfit.
  { exists arrs. by rewrite app_nil_r. }
  apply Forall_cons in HF as [Hv HF]. cbn in Hv.
  assert (Hstep : total_sum upds0 + v < 2 ^ 62).
  { change ((k, v) :: upds) with ([(k, v)] ++ upds) in Hfit. rewrite app_assoc in Hfit.
    unfold total_sum in Hfit. rewrite sum_if_app in Hfit. fold (total_sum (upds0 ++ [(k, v)])) in Hfit.
    rewrite total_sum_snoc in Hfit.
    pose proof (sum_if_mono (fun _ => true) (fun _ => true) upds HF ltac:(done)). lia. }
  destruct (UpdateSketch_ok cm arrs upds0 k v Hinv Hv Hstep) as (ret & arrs1 & Hu & Hinv1 & _ & _).
  destruct (IH arrs1 (upds0 ++ [(k, v)]) Hinv1 HF) as (arrs' & Hrun & Hinv'); [by rewrite <- app_assoc|].
  exists arrs'. rewrite <- app_assoc in Hinv'. split; [|done].
  unfold run_updates in *. cbn [foldM fst snd]. rewrite Hu. cbn [mbind result_bind snd]. done.
Qed.

(** C37 The count-min guarantee on the real tables and hashes: after any sequence
    of updates with non-negative values, on a sketch of any positive size,
    [GetEstimate] returns a value that is at least the true sum of the key and
    at most the sum of all updates. *)
Theorem estimate_never_under seed r w d (upds : list (Z * Z)) key :
  0 < r -> 0 < w < 2 ^ 32 -> Forall (fun u => 0 <= u.2) upds -> total_sum upds < 2 ^ 62 ->
  exists cm arrs arrs' e, new_CountMin seed r w d = Ok (cm, arrs) /\ run_updates cm arrs upds = Ok arrs' /\
    GetEstimate cm arrs' key = Ok e /\ true_sum key upds <= e <= total_sum upds.
Proof.
  intros Hr Hw HF Hfit. destruct (new_CountMin_ok seed r w d Hr Hw) as (cm & arrs & Hnew & Hinv & _).
  destruct (run_updates_ok cm arrs [] upds Hinv HF) as (arrs' & Hrun & Hinv'); [done|]. simpl in Hinv'.
  destruct (GetEstimate_min cm arrs' upds Hinv' key) as (e & He & Hin & _).
  exists cm, arrs, arrs', e. split_and!; try done; by eapply answer_bounds.
Qed.

Lemma estimate_never_under_witness :
  exists cm arrs arrs' e, new_CountMin 0 2 5 1 = Ok (cm, arrs) /\ run_updates cm arrs [(7, 3); (9, 1); (7, 2)] = Ok arrs' /\
    GetEstimate cm arrs' 7 = Ok e /\ true_sum 7 [(7, 3); (9, 1); (7, 2)] <= e <= total_sum [(7, 3); (9, 1); (7, 2)].
Proof.
  apply (estimate_never_under 0 2 5 1 [(7, 3); (9, 1); (7, 2)] 7); [lia|lia|repeat constructor; simpl; lia|by vm_compute].
Defined.

(** [UpdateSketch] is what the bounded-divergence theorem asks of user code:
    it returns the new estimate and makes exactly one [UpdateValue] call on each
    row, which are the operators of the compute thread. *)
Theorem sketch_updates_rows_once cm arrs upds key value :
  sketch_inv cm arrs upds -> 0 <= value -> total_sum upds + value < 2 ^ 62 ->
  exists ret arrs', UpdateSketch cm arrs key value = Ok (ret, arrs') /\
    Forall2 Compute.Bounded.one_update arrs arrs' /\ GetEstimate cm arrs' key = Ok ret.
Proof.
  intros Hinv Hv Hfit. destruct (UpdateSketch_ok cm arrs upds key value Hinv Hv Hfit)
    as (ret & arrs' & Hu & Hinv' & Hone & Hmin).
  destruct (GetEstimate_min cm arrs' _ Hinv' key) as (e & He & Hmin').
  exists ret, arrs'. split; [done|]. split; [done|]. rewrite He. f_equal.
  destruct Hmin as [Hin HF], Hmin' as [Hin' HF'].
  rewrite Forall_forall in HF, HF'. pose proof (HF e Hin'). pose proof (HF' ret Hin). lia.
Qed.

Definition tiny_sketch : CountMin * rows :=
  match new_CountMin 0 2 5 1 with Ok s => s | Stop _ => ({| row := 0; width := 0; hashes := [] |}, []) end.

Lemma tiny_sketch_inv : sketch_inv tiny_sketch.1 tiny_sketch.2 [].
Proof.
  destruct (new_CountMin_ok 0 2 5 1) as (cm & arrs & Hnew & Hinv & _); [lia|lia|].
  unfold tiny_sketch. by rewrite Hnew.
Qed.

Lemma sketch_updates_rows_once_witness :
  exists ret arrs', UpdateSketch tiny_sketch.1 tiny_sketch.2 7 3 = Ok (ret, arrs') /\
    Forall2 Compute.Bounded.one_update tiny_sketch.2 arrs' /\ GetEstimate tiny_sketch.1 arrs' 7 = Ok ret.
Proof. apply (sketch_updates_rows_once tiny_sketch.1 tiny_sketch.2 [] 7 3 tiny_sketch_inv); by vm_compute. Defined.

End Sketch.
