(* ===== verification/CountMinApp.v ===== *)
(** The count-min application's threads: the item a window is sent in
    (apps/count_min/cm_item.hpp), the parsing of a trace line and the window of
    [ComputeThreadThread] (cm_thread.hpp), and [MergeThread]
    (merge_thread.hpp). *)
From stdpp Require Import base numbers list sorting.
From Stdlib Require Import ZArith Lia.
From S2P Require Import Prelude BackupItem Operators Hash Backup BackupSpec ComputeThread CountMin.

(** ** The item of a window *)

Module CM.

Definition SK_SIZE : Z := 8000.
Definition MAX_HH : Z := 100.
Definition RAW_SIZE : Z := SK_SIZE * 12 + MAX_HH * 8.

Record CMItem := mkCMItem {
  num_counter : Z;  (* uint32_t *)
  num_hh : Z;       (* uint32_t *)
  raw : list Z;
  start : Z         (* start - raw *)
}.

(** The constructor leaves [raw] as it finds it. *)
Definition new_CMItem (garbage : list Z) : CMItem :=
  {| num_counter := 0; num_hh := 0; raw := garbage; start := 0 |}.

Definition AppendCounter (it : CMItem) (index value : Z) : result CMItem :=
  r1 ← mem_write (raw it) (start it) (le_bytes 4 index);
  r2 ← mem_write r1 (start it + 4) (le_bytes 8 value);
  Ok {| num_counter := u32 (num_counter it + 1); num_hh := num_hh it; raw := r2; start := start it + 12 |}.

Definition AppendHH (it : CMItem) (key : Z) : result CMItem :=
  r1 ← mem_write (raw it) (start it) (le_bytes 8 key);
  Ok {| num_counter := num_counter it; num_hh := u32 (num_hh it + 1); raw := r1; start := start it + 8 |}.

Definition GetCounter (it : CMItem) (n : Z) : result (Z * Z) :=
  b1 ← mem_read (raw it) (n * 12) 4;
  b2 ← mem_read (raw it) (n * 12 + 4) 8;
  Ok (le_val b1, s64 (le_val b2)).

Definition GetKey (it : CMItem) (n : Z) : result Z :=
  b ← mem_read (raw it) (num_counter it * 12 + n * 8) 8;
  Ok (le_val b).

Definition size (it : CMItem) : Z := u32 (4 + 4 + num_counter it * 12 + num_hh it * 8).

(** The bytes of a counter, and the item that holds counters and keys. *)
Definition counter_bytes (c : Z * Z) : list Z := le_bytes 4 c.1 ++ le_bytes 8 c.2.

Definition item_holds (it : CMItem) (cs : list (Z * Z)) (ks : list Z) : Prop :=
  Z.of_nat (length (raw it)) = RAW_SIZE /\
  num_counter it = Z.of_nat (length cs) /\ num_hh it = Z.of_nat (length ks) /\
  start it = 12 * Z.of_nat (length cs) + 8 * Z.of_nat (length ks) /\
  exists rest, raw it = (concat (counter_bytes <$> cs) ++ concat (le_bytes 8 <$> ks)) ++ rest.

Lemma length_counter_bytes c : length (counter_bytes c) = 12%nat.
Proof. unfold counter_bytes. by rewrite length_app, !length_le_bytes. Qed.

Lemma length_counters cs : length (concat (counter_bytes <$> cs)) = (12 * length cs)%nat.
Proof.
  rewrite (length_concat_blocks 12), length_fmap; [done|]. apply Forall_fmap, Forall_true. intros c.
  apply length_counter_bytes.
Qed.

Lemma length_keys ks : length (concat (le_bytes 8 <$> ks)) = (8 * length ks)%nat.
Proof.
  rewrite (length_concat_blocks 8), length_fmap; [done|]. apply Forall_fmap, Forall_true. intros c. apply length_le_bytes.
Qed.

Lemma AppendCounter_ok it cs c :
  item_holds it cs [] -> 12 * (Z.of_nat (length cs) + 1) <= RAW_SIZE ->
  exists it', AppendCounter it c.1 c.2 = Ok it' /\ item_holds it' (cs ++ [c]) [].
Proof.
  intros (Hlen & Hc & Hk & Hst & rest & Hraw) Hfit. unfold AppendCounter. cbn [fmap list_fmap concat] in Hraw.
  rewrite app_nil_r in Hraw. pose proof (length_counters cs) as Hlc.
  assert (Hrl : (12 <= length rest)%nat).
  { rewrite Hraw, length_app, Hlc in Hlen. cbn [length] in Hst. lia. }
  rewrite Hraw, mem_write_snoc by (rewrite ?length_le_bytes, ?Hlc; simpl in *; lia). cbn [mbind result_bind].
  rewrite mem_write_snoc.
  2: { rewrite length_app, length_le_bytes, Hlc. simpl in *. lia. }
  2: { rewrite length_drop, !length_le_bytes. lia. }
  cbn [mbind result_bind]. rewrite !length_le_bytes. eexists. split; [reflexivity|].
  assert (Hsplit : concat (counter_bytes <$> (cs ++ [c])) = (concat (counter_bytes <$> cs) ++ le_bytes 4 c.1) ++ le_bytes 8 c.2).
  { rewrite fmap_app, concat_app. cbn [fmap list_fmap concat]. rewrite app_nil_r. unfold counter_bytes at 2. by rewrite app_assoc. }
  unfold item_holds. cbn [raw num_counter num_hh start fmap list_fmap concat]. rewrite !app_nil_r. split_and!.
  - rewrite Hraw, length_app, Hlc in Hlen. rewrite !length_app, !length_le_bytes, !length_drop, Hlc. lia.
  - rewrite Hc, length_app. cbn [length]. rewrite unsigned_of_small; [lia|]. unfold in_unsigned, RAW_SIZE, SK_SIZE, MAX_HH in *. lia.
  - done.
  - rewrite Hst, length_app. cbn [length]. lia.
  - exists (drop 8 (drop 4 rest)). by rewrite Hsplit.
Qed.

Lemma AppendHH_ok it cs ks k :
  item_holds it cs ks -> 12 * Z.of_nat (length cs) + 8 * (Z.of_nat (length ks) + 1) <= RAW_SIZE ->
  exists it', AppendHH it k = Ok it' /\ item_holds it' cs (ks ++ [k]).
Proof.
  intros (Hlen & Hc & Hk & Hst & rest & Hraw) Hfit. unfold AppendHH.
  pose proof (length_counters cs) as Hlc. pose proof (length_keys ks) as Hlk.
  assert (Hrl : (8 <= length rest)%nat).
  { rewrite Hraw, !length_app, Hlc, Hlk in Hlen. lia. }
  rewrite Hraw, mem_write_snoc by (rewrite ?length_app, ?length_le_bytes, ?Hlc, ?Hlk; lia).
  cbn [mbind result_bind]. rewrite !length_le_bytes. eexists. split; [reflexivity|].
  unfold item_holds. cbn [raw num_counter num_hh start]. split_and!.
  - rewrite Hraw, !length_app, Hlc, Hlk in Hlen. rewrite !length_app, !length_le_bytes, !length_drop, Hlc, Hlk. lia.
  - done.
  - rewrite Hk, length_app. cbn [length]. rewrite unsigned_of_small; [lia|]. unfold in_unsigned, RAW_SIZE, SK_SIZE, MAX_HH in *. lia.
  - rewrite Hst, length_app. cbn [length]. lia.
  - exists (drop 8 rest). rewrite fmap_app, concat_app. cbn [fmap list_fmap concat]. by rewrite app_nil_r, <- !app_assoc.
Qed.

(** A counter of the C types. *)
Definition counter_ok (c : Z * Z) : Prop := in_unsigned 32 c.1 /\ in_signed 64 c.2.

Lemma GetCounter_ok it cs ks (n : nat) c :
  item_holds it cs ks -> cs !! n = Some c -> counter_ok c -> GetCounter it (Z.of_nat n) = Ok c.
Proof.
  intros (_ & _ & _ & _ & rest & Hraw) Hn [Hc1 Hc2]. pose proof (length_counters cs) as Hlc.
  pose proof (lookup_lt_Some _ _ _ Hn) as Hlt. unfold GetCounter.
  assert (HF : Forall (fun b => length b = 12%nat) (counter_bytes <$> cs)).
  { apply Forall_fmap, Forall_true. intros x. apply length_counter_bytes. }
  destruct (concat_split_block 12 (counter_bytes <$> cs) n (counter_bytes c) HF) as [Hsp Hpl];
    [by rewrite list_lookup_fmap, Hn|].
  set (pre := concat (take n (counter_bytes <$> cs))) in *.
  assert (exists tail, raw it = pre ++ le_bytes 4 c.1 ++ le_bytes 8 c.2 ++ tail) as [tail Hr].
  { rewrite Hraw, Hsp. eexists. rewrite <- !app_assoc. reflexivity. }
  rewrite Hr, (mem_read_app_mid pre (le_bytes 4 c.1) _ (Z.of_nat n * 12)); [|rewrite Hpl; lia|by rewrite length_le_bytes].
  cbn [mbind result_bind]. rewrite (app_assoc pre).
  rewrite (mem_read_app_mid _ (le_bytes 8 c.2));
    [|rewrite length_app, Hpl, length_le_bytes; lia|by rewrite length_le_bytes].
  cbn [mbind result_bind]. rewrite !le_val_bytes. destruct c as [i v]. cbn [fst snd] in *. do 2 f_equal.
  - apply Z.mod_small. unfold in_unsigned in Hc1. change (256 ^ Z.of_nat 4) with (2 ^ 32). lia.
  - change (256 ^ Z.of_nat 8) with (2 ^ 64). fold (unsigned_of 64 v). rewrite signed_of_unsigned by lia.
    by apply signed_of_small.
Qed.

Lemma GetKey_ok it cs ks (n : nat) k :
  item_holds it cs ks -> ks !! n = Some k -> in_unsigned 64 k -> GetKey it (Z.of_nat n) = Ok k.
Proof.
  intros (_ & Hc & _ & _ & rest & Hraw) Hn Hk. pose proof (length_counters cs) as Hlc.
  pose proof (lookup_lt_Some _ _ _ Hn) as Hlt. unfold GetKey. rewrite Hraw, Hc.
  rewrite mem_read_prefix by (rewrite ?length_app, ?Hlc, ?length_keys; lia).
  assert (HF : Forall (fun b => length b = 8%nat) (le_bytes 8 <$> ks)).
  { apply Forall_fmap, Forall_true. intros x. apply length_le_bytes. }
  pose proof (mem_read_block 8%nat (concat (counter_bytes <$> cs)) (le_bytes 8 <$> ks) n (le_bytes 8 k) HF) as Hr.
  rewrite Hlc in Hr. replace (Z.of_nat (12 * length cs) + Z.of_nat 8 * Z.of_nat n)
    with (Z.of_nat (length cs) * 12 + Z.of_nat n * 8) in Hr by lia.
  change (Z.of_nat 8) with 8 in Hr. rewrite Hr by (by rewrite list_lookup_fmap, Hn).
  cbn [mbind result_bind]. rewrite le_val_bytes. f_equal. apply Z.mod_small.
  unfold in_unsigned in Hk. change (256 ^ Z.of_nat 8) with (2 ^ 64). lia.
Qed.

(** Write counters and keys into a new item. *)
Definition fill (garbage : list Z) (cs : list (Z * Z)) (ks : list Z) : result CMItem :=
  it ← foldM (fun it c => AppendCounter it c.1 c.2) cs (new_CMItem garbage);
  foldM AppendHH ks it.

Lemma append_counters_ok it cs0 cs :
  item_holds it cs0 [] -> 12 * Z.of_nat (length (cs0 ++ cs)) <= RAW_SIZE ->
  exists it', foldM (fun it c => AppendCounter it c.1 c.2) cs it = Ok it' /\ item_holds it' (cs0 ++ cs) [].
Proof.
  revert it cs0. induction cs as [|c cs IH]; intros it cs0 Hit Hfit; cbn [foldM].
  { exists it. by rewrite app_nil_r. }
  rewrite length_app in Hfit. cbn [length] in Hfit.
  destruct (AppendCounter_ok it cs0 c Hit) as (it1 & -> & Hit1); [lia|]. cbn [mbind result_bind].
  destruct (IH it1 (cs0 ++ [c]) Hit1) as (it' & Hrun & Hit'); [rewrite <- app_assoc, length_app; simpl; lia|].
  exists it'. rewrite <- app_assoc in Hit'. done.
Qed.

Lemma append_keys_ok it cs ks0 ks :
  item_holds it cs ks0 -> 12 * Z.of_nat (length cs) + 8 * Z.of_nat (length (ks0 ++ ks)) <= RAW_SIZE ->
  exists it', foldM AppendHH ks it = Ok it' /\ item_holds it' cs (ks0 ++ ks).
Proof.
  revert it ks0. induction ks as [|k ks IH]; intros it ks0 Hit Hfit; cbn [foldM].
  { exists it. by rewrite app_nil_r. }
  rewrite length_app in Hfit. cbn [length] in Hfit.
  destruct (AppendHH_ok it cs ks0 k Hit) as (it1 & -> & Hit1); [lia|]. cbn [mbind result_bind].
  destruct (IH it1 (ks0 ++ [k]) Hit1) as (it' & Hrun & Hit'); [rewrite <- app_assoc, length_app; simpl; lia|].
  exists it'. rewrite <- app_assoc in Hit'. done.
Qed.

Lemma new_CMItem_holds garbage : Z.of_nat (length garbage) = RAW_SIZE -> item_holds (new_CMItem garbage) [] [].
Proof. intros Hg. split_and!; try done. by exists garbage. Qed.

(** A window item is read back as it was written: any counters and candidate
    keys that fit into its buffer are written without leaving it, and
    [GetCounter] and [GetKey] return them in order; [size] counts exactly the
    bytes they take. *)
Theorem cm_item_roundtrip (garbage : list Z) cs ks :
  Z.of_nat (length garbage) = RAW_SIZE -> Forall counter_ok cs -> Forall (in_unsigned 64) ks ->
  12 * Z.of_nat (length cs) + 8 * Z.of_nat (length ks) <= RAW_SIZE ->
  exists it, fill garbage cs ks = Ok it /\
    (forall (n : nat) c, cs !! n = Some c -> GetCounter it (Z.of_nat n) = Ok c) /\
    (forall (n : nat) k, ks !! n = Some k -> GetKey it (Z.of_nat n) = Ok k) /\
    num_counter it = Z.of_nat (length cs) /\ num_hh it = Z.of_nat (length ks) /\
    size it = 8 + start it.
Proof.
  intros Hg Hcs Hks Hfit. unfold fill.
  destruct (append_counters_ok (new_CMItem garbage) [] cs (new_CMItem_holds garbage Hg)) as (it1 & -> & Hit1); [simpl; lia|].
  cbn [mbind result_bind]. destruct (append_keys_ok it1 cs [] ks Hit1) as (it & -> & Hit); [simpl; lia|].
  change ([] ++ ks) with ks in Hit. exists it. split; [done|]. split; [|split].
  - intros n c Hn. apply (GetCounter_ok it cs ks n c Hit Hn). by apply (Forall_lookup_1 _ _ _ _ Hcs Hn).
  - intros n k Hn. apply (GetKey_ok it cs ks n k Hit Hn). by apply (Forall_lookup_1 _ _ _ _ Hks Hn).
  - destruct Hit as (_ & Hc & Hk & Hst & _). split; [done|]. split; [done|].
    unfold size. rewrite Hc, Hk, Hst, unsigned_of_small; [lia|].
    unfold in_unsigned, RAW_SIZE, SK_SIZE, MAX_HH in *. lia.
Qed.

Lemma cm_item_roundtrip_witness :
  exists it, fill (replicate (Z.to_nat RAW_SIZE) 0) [(3, 41); (7, -2)] [12; 99] = Ok it /\
    (forall (n : nat) c, [(3, 41); (7, -2)] !! n = Some c -> GetCounter it (Z.of_nat n) = Ok c) /\
    (forall (n : nat) k, [12; 99] !! n = Some k -> GetKey it (Z.of_nat n) = Ok k) /\
    num_counter it = 2 /\ num_hh it = 2 /\ size it = 8 + start it.
Proof.
  apply (cm_item_roundtrip (replicate (Z.to_nat RAW_SIZE) 0) [(3, 41); (7, -2)] [12; 99]).
  - rewrite length_replicate, Z2Nat.id; [done|]. unfold RAW_SIZE, SK_SIZE, MAX_HH. lia.
  - repeat constructor; vm_compute; congruence.
  - repeat constructor; vm_compute; congruence.
  - vm_compute. congruence.
Defined.

Lemma AppendCounter_overflow it cs c :
  item_holds it cs [] -> RAW_SIZE < 12 * (Z.of_nat (length cs) + 1) -> AppendCounter it c.1 c.2 = Stop OutOfBounds.
Proof.
  intros (Hlen & _ & _ & Hst & _) Hbig. cbn [length] in Hst. unfold AppendCounter, mem_write.
  destruct ((0 <=? start it) && _) eqn:E; [|done]. cbn [mbind result_bind].
  apply andb_true_iff in E as [_ E%Z.leb_le]. rewrite length_le_bytes in E.
  rewrite (proj2 (andb_false_iff _ _)); [done|]. right. apply Z.leb_gt.
  rewrite !length_app, length_take, length_drop, !length_le_bytes. lia.
Qed.

(** The item holds 8066 counters and no more: with a larger number of counters
    the writes leave the buffer, whatever they are.  Nothing in the code compares
    [row * width] with [SK_SIZE]; the shipped configuration has 4 rows of 8000. *)
Theorem window_item_overflows (garbage : list Z) cs ks :
  Z.of_nat (length garbage) = RAW_SIZE -> 8066 < Z.of_nat (length cs) -> fill garbage cs ks = Stop OutOfBounds.
Proof.
  intros Hg Hbig. rewrite <- (take_drop (Z.to_nat 8066) cs). unfold fill. rewrite foldM_app.
  destruct (append_counters_ok (new_CMItem garbage) [] (take (Z.to_nat 8066) cs) (new_CMItem_holds garbage Hg)) as (it & -> & Hit).
  { cbn [app]. rewrite length_take. unfold RAW_SIZE, SK_SIZE, MAX_HH. lia. }
  cbn [mbind result_bind]. destruct (drop (Z.to_nat 8066) cs) as [|c rest] eqn:E.
  { apply (f_equal length) in E. rewrite length_drop in E. cbn [length] in E. lia. }
  cbn [foldM]. rewrite (AppendCounter_overflow it (take (Z.to_nat 8066) cs) c Hit); [done|].
  rewrite length_take. unfold RAW_SIZE, SK_SIZE, MAX_HH. lia.
Qed.

Lemma window_item_overflows_witness :
  fill (replicate (Z.to_nat RAW_SIZE) 0) (replicate (Z.to_nat (4 * 8000)) (1, 1)) [] = Stop OutOfBounds.
Proof.
  apply (window_item_overflows (replicate (Z.to_nat RAW_SIZE) 0) (replicate (Z.to_nat (4 * 8000)) (1, 1)) []);
    rewrite length_replicate, Z2Nat.id; unfold RAW_SIZE, SK_SIZE, MAX_HH; lia.
Defined.

End CM.

(** ** C library functions the threads call *)

Module CLib.

Definition is_space (c : Z) : bool := (c =? 32) || ((9 <=? c) && (c <=? 13)).
Definition is_digit (c : Z) : bool := (48 <=? c) && (c <=? 57).

(** Successive [strtok (line, " ")] calls: the non-empty pieces between spaces,
    up to the terminator. *)
Fixpoint tokens (l cur : list Z) : list (list Z) :=
  let flush := match cur with [] => [] | _ => [cur] end in
  match l with
  | [] => flush
  | c :: l' =>
      if c =? 0 then flush
      else if c =? 32 then flush ++ tokens l' []
      else tokens l' (cur ++ [c])
  end.

Fixpoint skip_space (l : list Z) : list Z :=
  match l with
  | c :: l' => if is_space c then skip_space l' else l
  | [] => []
  end.

Fixpoint digits (l : list Z) (acc : Z) : Z :=
  match l with
  | c :: l' => if is_digit c then digits l' (acc * 10 + (c - 48)) else acc
  | [] => acc
  end.

(** The sign and the magnitude of a decimal number. *)
Definition number (l : list Z) : bool * Z :=
  match skip_space l with
  | c :: l' => if c =? 45 then (true, digits l' 0) else if c =? 43 then (false, digits l' 0) else (false, digits (c :: l') 0)
  | [] => (false, 0)
  end.

(** [strtoull (s, NULL, 10)] and [strtoll (s, NULL, 10)], with their saturation. *)
Definition strtoull (l : list Z) : Z :=
  let '(neg, v) := number l in
  if 2 ^ 64 - 1 <? v then 2 ^ 64 - 1 else if neg then u64 (- v) else v.

Definition strtoll (l : list Z) : Z :=
  let '(neg, v) := number l in
  Z.max (- 2 ^ 63) (Z.min (2 ^ 63 - 1) (if neg then - v else v)).

End CLib.

(** ** The threads *)

Module App.
Import Sketch CM Compute.

(** [std::set<unsigned long long>], in its iteration order. *)
Fixpoint set_insert (k : Z) (l : list Z) : list Z :=
  match l with
  | [] => [k]
  | x :: l' => if k <? x then k :: l else if k =? x then l else x :: set_insert k l'
  end.

Definition set_mem (k : Z) (l : list Z) : bool := existsb (Z.eqb k) l.

(** The fields of [ComputeThreadThread] but the rows, which are operators. *)
Record cm_thread := mkcm_thread {
  cm_sketch : CountMin;
  window : Z;      (* unsigned long long *)
  byte : Z;        (* unsigned long long *)
  cand : list Z;
  thresh : Z;      (* unsigned long long *)
  r : Z;
  w : Z
}.

Definition set_cand_byte (t : cm_thread) (c : list Z) (b : Z) : cm_thread :=
  {| cm_sketch := cm_sketch t; window := window t; byte := b; cand := c; thresh := thresh t; r := r t; w := w t |}.

(** [ComputeThreadInit] with what the configuration returns for [row], [width],
    [max_state_err], [thresh] (-1 when it is not set) and [window_bytes]; [byte]
    keeps the value it finds in memory. *)
Definition ComputeThreadInit_cm (cfg_row cfg_width cfg_err cfg_thresh cfg_window byte0 seed : Z)
    : result (cm_thread * rows) :=
  let r := s32 cfg_row in
  _ ← afs_assert (0 <? r);
  let w := s32 cfg_width in
  _ ← afs_assert (0 <? w);
  sk ← new_CountMin seed r w cfg_err;
  let thresh := u64 cfg_thresh in
  _ ← afs_assert (0 <=? thresh);
  Ok ({| cm_sketch := sk.1; window := u64 cfg_window; byte := byte0; cand := []; thresh := thresh; r := r; w := w |}, sk.2).

(** The cells in the order of the two nested loops. *)
Definition cells (r w : Z) : list (Z * Z) :=
  i ← indices (Z.to_nat r); j ← indices (Z.to_nat w); [(i, j)].

Definition append_cell (w : Z) (arrs : rows) (it : CMItem) (ij : Z * Z) : result CMItem :=
  v ← GetCell arrs ij.1 ij.2;
  if 0 <? v then AppendCounter it (u32 (ij.1 * w + ij.2)) v else Ok it.

(** The item [TerminateWindow] builds. *)
Definition window_item (garbage : list Z) (t : cm_thread) (arrs : rows) : result CMItem :=
  it ← foldM (append_cell (w t) arrs) (cells (r t) (w t)) (new_CMItem garbage);
  foldM AppendHH (cand t) it.

Definition TerminateWindow (garbage : list Z) (t : cm_thread) (arrs : rows) : result (CMItem * cm_thread * rows) :=
  it ← window_item garbage t arrs;
  arrs' ← ClearSketch (cm_sketch t) arrs;
  Ok (it, set_cand_byte t [] 0, arrs').

(** [ProcessData] after the line has been parsed. *)
Definition process (garbage : list Z) (t : cm_thread) (arrs : rows) (key value : Z)
    : result (list CMItem * cm_thread * rows) :=
  u ← UpdateSketch (cm_sketch t) arrs key value;
  let sum := u64 u.1 in
  let c := if (thresh t <? sum) && negb (set_mem key (cand t)) then set_insert key (cand t) else cand t in
  let t := set_cand_byte t c (u64 (byte t + value)) in
  if window t <? byte t then
    e ← TerminateWindow garbage t u.2;
    Ok ([e.1.1], e.1.2, e.2)
  else Ok ([], t, u.2).

(** [ProcessData]: the second and third tokens of the line; [strtok] returns
    [NULL] when there is none. *)
Definition ProcessData_cm (garbage : list Z) (t : cm_thread) (arrs : rows) (worker thread seq : Z) (line : list Z)
    : result (effect cm_thread MaxArray.NumericArray_MAX CMItem unit) :=
  match CLib.tokens line [] with
  | _ :: k :: v :: _ =>
      e ← process garbage t arrs (CLib.strtoull k) (CLib.strtoll v);
      Ok {| e_user := e.1.2; e_ops := e.2; e_out := (fun it => (0, it)) <$> e.1.1; e_rout := [] |}
  | _ => Stop NullDeref
  end.

(** The fields of [MergeThread]; [output] is the file. *)
Record merge_thread := mkmerge_thread {
  m_sketch : CountMin;
  m_cand : list Z;
  m_thresh : Z;
  m_w : Z;
  output : list (Z * Z)
}.

(** [MergeThread::ComputeThreadInit] once the output file is open. *)
Definition ComputeThreadInit_merge (cfg_output : option (list Z)) (cfg_row cfg_width cfg_err cfg_thresh seed : Z)
    : result (merge_thread * rows) :=
  _ ← afs_assert (if cfg_output is Some _ then true else false);
  let r := s32 cfg_row in
  _ ← afs_assert (0 <? r);
  let w := s32 cfg_width in
  _ ← afs_assert (0 <? w);
  sk ← new_CountMin seed r w cfg_err;
  let thresh := u64 cfg_thresh in
  _ ← afs_assert (0 <=? thresh);
  Ok ({| m_sketch := sk.1; m_cand := []; m_thresh := thresh; m_w := w; output := [] |}, sk.2).

(** One turn of the loop over the counters. *)
Definition merge_counter (w : Z) (arrs : rows) (c : Z * Z) : result rows :=
  if w =? 0 then Stop DivByZero else
  let k := c.1 / w in
  let j := c.1 mod w in
  old_v ← GetCell arrs k j;
  SetValue arrs k j (s64 (old_v + c.2)).

(** One turn of the loop over the candidates. *)
Definition merge_key (arrs : rows) (t : merge_thread) (key : Z) : result merge_thread :=
  v ← GetEstimate (m_sketch t) arrs key;
  let e := u64 v in
  if (m_thresh t <? e) && negb (set_mem key (m_cand t))
  then Ok {| m_sketch := m_sketch t; m_cand := set_insert key (m_cand t); m_thresh := m_thresh t;
             m_w := m_w t; output := output t ++ [(key, e)] |}
  else Ok t.

Definition ProcessData_merge (t : merge_thread) (arrs : rows) (worker thread seq : Z) (it : CMItem)
    : result (effect merge_thread MaxArray.NumericArray_MAX unit unit) :=
  arrs' ← foldM (fun arrs i => c ← GetCounter it i; merge_counter (m_w t) arrs c)
            (indices (Z.to_nat (num_counter it))) arrs;
  t' ← foldM (fun t i => k ← GetKey it i; merge_key arrs' t k) (indices (Z.to_nat (num_hh it))) t;
  Ok {| e_user := t'; e_ops := arrs'; e_out := []; e_rout := [] |}.

(** A concrete line: [sip 77 12]. *)
Example tokens_line : CLib.tokens [115; 105; 112; 32; 55; 55; 32; 49; 50; 10; 0] []
  = [[115; 105; 112]; [55; 55]; [49; 50; 10]].
Proof. reflexivity. Qed.


(** An unset threshold is read as the largest one: the check that it is not
    negative cannot fail, and the thread then never finds a candidate. *)
Lemma unset_thresh_accepted cfg_row cfg_width cfg_err cfg_window byte0 seed :
  0 < cfg_row < 2 ^ 31 -> 0 < cfg_width < 2 ^ 31 ->
  exists t arrs, ComputeThreadInit_cm cfg_row cfg_width cfg_err (-1) cfg_window byte0 seed = Ok (t, arrs) /\
    thresh t = 2 ^ 64 - 1.
Proof.
  intros Hr Hw. unfold ComputeThreadInit_cm. rewrite !signed_of_small by (unfold in_signed; lia). cbv zeta.
  rewrite !(proj2 (Z.ltb_lt 0 _)) by lia. cbn [afs_assert mbind result_bind].
  destruct (new_CountMin_ok seed cfg_row cfg_width cfg_err) as (cm & arrs & -> & _); [lia|lia|].
  cbn [mbind result_bind]. eexists _, arrs. split; [reflexivity|]. done.
Qed.

(** ** The candidates of a window *)

Lemma set_insert_elem k l x : x ∈ set_insert k l <-> x = k \/ x ∈ l.
Proof.
  induction l as [|y l IH]; simpl.
  - rewrite elem_of_cons. tauto.
  - destruct (Z.ltb_spec k y); [rewrite !elem_of_cons; tauto|].
    destruct (Z.eqb_spec k y) as [->|]; rewrite !elem_of_cons; [|rewrite IH]; tauto.
Qed.

Lemma set_mem_spec k l : set_mem k l = true <-> k ∈ l.
Proof.
  unfold set_mem. rewrite existsb_exists. split.
  - intros (x & Hx & ->%Z.eqb_eq). by apply list_elem_of_In.
  - intros Hk. exists k. split; [by apply list_elem_of_In|apply Z.eqb_refl].
Qed.

(** The items of a sequence of parsed lines, and the state after them. *)
Definition run_lines (garbage : list Z) (upds : list (Z * Z)) (st : list CMItem * cm_thread * rows)
    : result (list CMItem * cm_thread * rows) :=
  foldM (fun st u => e ← process garbage st.1.2 st.2 u.1 u.2; Ok (st.1.1 ++ e.1.1, e.1.2, e.2)) upds st.

(** The state of a window in which the lines [upds] have been counted. *)
Record window_inv (b0 : Z) (t : cm_thread) (arrs : rows) (upds : list (Z * Z)) : Prop := {
  wi_sketch : sketch_inv (cm_sketch t) arrs upds;
  wi_byte : byte t = b0 + total_sum upds;
  wi_complete : forall key, thresh t < true_sum key upds -> key ∈ cand t;
  wi_sound : forall key, key ∈ cand t -> Forall (fun x => thresh t < x) (answers (cm_sketch t) upds key)
}.

Lemma true_sum_snoc key upds k v :
  true_sum key (upds ++ [(k, v)]) = true_sum key upds + (if k =? key then v else 0).
Proof. unfold true_sum. rewrite sum_if_app. simpl. lia. Qed.

(** More updates only raise the answers. *)
Lemma answers_grow cm upds k v key x :
  0 <= v -> Forall (fun y => x < y) (answers cm upds key) -> Forall (fun y => x < y) (answers cm (upds ++ [(k, v)]) key).
Proof.
  intros Hv HF. unfold answers in *. rewrite Forall_fmap in *. eapply Forall_impl; [exact HF|].
  intros h Hh. simpl in *. rewrite cell_sum_snoc. destruct (_ =? _); lia.
Qed.

Lemma process_window garbage b0 t arrs upds key value :
  window_inv b0 t arrs upds -> 0 <= b0 -> 0 <= value -> total_sum upds + value < 2 ^ 62 ->
  b0 + total_sum upds + value <= window t < 2 ^ 64 ->
  exists t' arrs', process garbage t arrs key value = Ok ([], t', arrs') /\
    window_inv b0 t' arrs' (upds ++ [(key, value)]) /\
    window t' = window t /\ thresh t' = thresh t /\ cm_sketch t' = cm_sketch t.
Proof.
  intros [Hsk Hby Hco Hso] Hb0 Hv Hfit Hwin. unfold process.
  destruct (UpdateSketch_ok _ _ _ key value Hsk Hv Hfit) as (ret & arrs' & -> & Hsk' & _ & Hin & HF).
  cbn [mbind result_bind fst snd]. cbv zeta.
  pose proof (answer_bounds _ _ _ Hsk' key ret Hin) as Hret. rewrite total_sum_snoc in Hret.
  assert (0 <= true_sum key (upds ++ [(key, value)])) as Hts
    by (destruct Hsk'; by apply (sum_if_mono _ (fun _ => true))).
  assert (0 <= total_sum upds) as Htot by (destruct Hsk; by apply (sum_if_mono _ (fun _ => true))).
  rewrite (unsigned_of_small 64 ret) by (unfold in_unsigned; lia).
  rewrite (unsigned_of_small 64 (byte t + value)) by (unfold in_unsigned; lia).
  cbn [window byte set_cand_byte]. rewrite (proj2 (Z.ltb_ge (window t) _)) by lia.
  eexists _, arrs'. split; [reflexivity|]. split; [|done].
  split; cbn [cm_sketch byte cand thresh set_cand_byte]; [done|rewrite total_sum_snoc; lia| |].
  - intros k Hk. rewrite true_sum_snoc in Hk. destruct (Z.eqb_spec key k) as [Heq|Hne]; [subst k|].
    + rewrite (proj2 (Z.ltb_lt (thresh t) ret)) by (rewrite true_sum_snoc, Z.eqb_refl in Hret; lia). cbn [andb].
      destruct (set_mem key (cand t)) eqn:E; cbn [negb]; [by apply set_mem_spec|]. apply set_insert_elem. by left.
    + assert (k ∈ cand t) by (apply Hco; lia). destruct (_ && _); [|done]. apply set_insert_elem. by right.
  - intros k Hk. destruct (decide (k ∈ cand t)) as [Hold|Hnew]; [by apply answers_grow, Hso|].
    destruct (Z.ltb_spec (thresh t) ret); cbn [andb] in Hk; [|done].
    destruct (negb (set_mem key (cand t))); [|done]. apply set_insert_elem in Hk as [->|]; [|done].
    eapply Forall_impl; [exact HF|]. cbn. lia.
Qed.

Lemma run_lines_window garbage b0 t arrs upds0 upds :
  window_inv b0 t arrs upds0 -> 0 <= b0 -> Forall (fun u => 0 <= u.2) upds ->
  total_sum (upds0 ++ upds) < 2 ^ 62 -> b0 + total_sum (upds0 ++ upds) <= window t < 2 ^ 64 ->
  exists t' arrs', run_lines garbage upds ([], t, arrs) = Ok ([], t', arrs') /\
    window_inv b0 t' arrs' (upds0 ++ upds) /\ thresh t' = thresh t /\ cm_sketch t' = cm_sketch t.
Proof.
  intros Hinv Hb0. revert t arrs upds0 Hinv. induction upds as [|[k v] upds IH]; intros t arrs upds0 Hinv HF Hfit Hwin.
  { exists t, arrs. by rewrite app_nil_r. }
  apply Forall_cons in HF as [Hv HF]. cbn in Hv. replace (upds0 ++ (k, v) :: upds) with ((upds0 ++ [(k, v)]) ++ upds) in *
    by (by rewrite <- app_assoc).
  assert (Hle : total_sum upds0 + v <= total_sum ((upds0 ++ [(k, v)]) ++ upds)).
  { unfold total_sum. rewrite !sum_if_app. pose proof (sum_if_mono (fun _ => true) (fun _ => true) upds HF ltac:(done)).
    simpl. lia. }
  destruct (process_window garbage b0 t arrs upds0 k v) as (t1 & arrs1 & Hp & Hinv1 & Hw & Hth & Hcm); try done; [lia|lia|].
  destruct (IH t1 arrs1 (upds0 ++ [(k, v)])) as (t' & arrs' & Hrun & ? & Hth' & Hcm'); try done; [by rewrite Hw|].
  exists t', arrs'. split; [|split; [done|split; congruence]].
  unfold run_lines in *. cbn [foldM fst snd]. rewrite Hp. cbn [mbind result_bind fst snd app]. done.
Qed.

(** Heavy hitters are not missed and candidates are justified: in a window
    that has not filled up, starting from an empty sketch, every key whose true
    sum exceeds the threshold is a candidate, and every candidate's estimate
    exceeds the threshold. *)
Theorem heavy_hitters_are_candidates garbage seed rr ww d (t : cm_thread) arrs upds :
  0 < rr -> 0 < ww < 2 ^ 32 -> new_CountMin seed rr ww d = Ok (cm_sketch t, arrs) -> cand t = [] ->
  0 <= byte t -> 0 <= thresh t -> Forall (fun u => 0 <= u.2) upds -> total_sum upds < 2 ^ 62 ->
  byte t + total_sum upds <= window t < 2 ^ 64 ->
  exists t' arrs', run_lines garbage upds ([], t, arrs) = Ok ([], t', arrs') /\
    (forall key, thresh t < true_sum key upds -> key ∈ cand t') /\
    (forall key, key ∈ cand t' -> exists e, GetEstimate (cm_sketch t) arrs' key = Ok e /\ thresh t < e).
Proof.
  intros Hr Hw Hnew Hc Hb Hth HF Hfit Hwin. destruct (new_CountMin_ok seed rr ww d Hr Hw) as (cm & arrs0 & Hn & Hsk & _).
  rewrite Hnew in Hn. injection Hn as <- <-.
  destruct (run_lines_window garbage (byte t) t arrs [] upds) as (t' & arrs' & Hrun & [Hs' _ Hco Hso] & Et & Ec); try done.
  { split; try done; [cbn; lia| |]; rewrite ?Hc; intros key; [cbn; lia|by intros ?%not_elem_of_nil]. }
  exists t', arrs'. rewrite Et in *. rewrite Ec in *. split; [done|]. split; [done|]. intros key Hk.
  destruct (GetEstimate_min _ _ _ Hs' key) as (e & He & Hin & _). exists e. split; [done|].
  specialize (Hso key Hk). rewrite Forall_forall in Hso. by apply Hso.
Qed.

Definition tiny_thread : cm_thread :=
  {| cm_sketch := tiny_sketch.1; window := 100; byte := 0; cand := []; thresh := 4; r := 2; w := 5 |}.

Lemma heavy_hitters_are_candidates_witness :
  exists t' arrs', run_lines [] [(7, 3); (9, 1); (7, 2)] ([], tiny_thread, tiny_sketch.2) = Ok ([], t', arrs') /\
    (forall key, 4 < true_sum key [(7, 3); (9, 1); (7, 2)] -> key ∈ cand t') /\
    (forall key, key ∈ cand t' -> exists e, GetEstimate tiny_sketch.1 arrs' key = Ok e /\ 4 < e).
Proof.
  apply (heavy_hitters_are_candidates [] 0 2 5 1 tiny_thread tiny_sketch.2 [(7, 3); (9, 1); (7, 2)]);
    [lia|lia|by vm_compute|done|done|done|repeat constructor; simpl; lia|by vm_compute|by vm_compute].
Defined.


(** ** Merging a window *)

Lemma cells_elem rr ww i j : (i, j) ∈ cells rr ww <-> 0 <= i < rr /\ 0 <= j < ww.
Proof.
  unfold cells, indices. rewrite list_elem_of_bind. setoid_rewrite list_elem_of_bind. split.
  - intros (i' & (j' & [= <- <-]%list_elem_of_singleton & Hj) & Hi).
    apply list_elem_of_fmap in Hi as (n & -> & Hn%elem_of_seq), Hj as (m & -> & Hm%elem_of_seq). lia.
  - intros [Hi Hj]. exists i. split; [|apply list_elem_of_fmap; exists (Z.to_nat i); split; [lia|apply elem_of_seq; lia]].
    exists j. split; [by apply list_elem_of_singleton|].
    apply list_elem_of_fmap. exists (Z.to_nat j). split; [lia|apply elem_of_seq; lia].
Qed.

Lemma NoDup_indices n : NoDup (indices n).
Proof. apply (NoDup_fmap_2 Z.of_nat), NoDup_seq. Qed.

Lemma cells_NoDup rr ww : NoDup (cells rr ww).
Proof.
  unfold cells. apply NoDup_bind; [|intros i _|apply NoDup_indices].
  - intros i1 i2 [a b] _ _ (j1 & E1 & _)%list_elem_of_bind (j2 & E2 & _)%list_elem_of_bind.
    apply list_elem_of_singleton in E1, E2. congruence.
  - apply NoDup_bind; [|intros j _; apply NoDup_singleton|apply NoDup_indices].
    intros j1 j2 [a b] _ _ E1%list_elem_of_singleton E2%list_elem_of_singleton. congruence.
Qed.

(** The counter a cell contributes to the window's item. *)
Definition cell_counter (ww : Z) (arrs : rows) (ij : Z * Z) : list (Z * Z) :=
  match GetCell arrs ij.1 ij.2 with
  | Ok v => if 0 <? v then [(ij.1 * ww + ij.2, v)] else []
  | Stop _ => []
  end.

Definition window_counters (rr ww : Z) (arrs : rows) : list (Z * Z) := cells rr ww ≫= cell_counter ww arrs.

(** The loop over the counters of an item is the loop over the list it holds. *)
Lemma foldM_indices_get {A S} (get : Z -> result A) (f : S -> A -> result S) (l : list A) s :
  (forall (n : nat) a, l !! n = Some a -> get (Z.of_nat n) = Ok a) ->
  foldM (fun s i => a ← get i; f s a) (indices (length l)) s = foldM f l s.
Proof.
  induction l as [|a l IH] using rev_ind; intros Hget; [done|].
  rewrite length_app, Nat.add_1_r. unfold indices. rewrite seq_S, fmap_app, !foldM_app.
  fold (indices (length l)). rewrite IH.
  - destruct (foldM f l s) as [s'|]; [|done]. cbn [mbind result_bind foldM fmap list_fmap Nat.add].
    rewrite (Hget (length l) a) by (apply list_lookup_middle; done). done.
  - intros n x Hn. apply Hget. by apply lookup_app_l_Some.
Qed.

Lemma foldM_bind {A B S} (F : A -> list B) (f : S -> B -> result S) (l : list A) s :
  foldM f (l ≫= F) s = foldM (fun s a => foldM f (F a) s) l s.
Proof.
  revert s. induction l as [|a l IH]; intros s; [done|]. cbn [mbind list_bind foldM].
  rewrite foldM_app. destruct (foldM f (F a) s); [|done]. cbn [mbind result_bind]. apply IH.
Qed.

Section Merge.
Import MaxArray.
Context (cm : CountMin) (arrs0 arrs1 : rows) (upds0 upds1 : list (Z * Z)).
Hypothesis H0 : sketch_inv cm arrs0 upds0.
Hypothesis H1 : sketch_inv cm arrs1 upds1.
Hypothesis Hsum : total_sum upds0 + total_sum upds1 < 2 ^ 62.
Hypothesis Hsize : row cm * width cm < 2 ^ 32.

Lemma window_cell i j h a :
  hashes cm !! Z.to_nat i = Some h -> arrs1 !! Z.to_nat i = Some a -> 0 <= i < row cm -> 0 <= j < width cm ->
  GetCell arrs1 i j = Ok (cell_sum h j upds1).
Proof.
  intros Hh Ha Hi Hj. destruct H1. unfold GetCell. rewrite (proj2 (at_index_ok arrs1 i a)) by (split; [lia|done]).
  cbn [mbind result_bind]. unfold GetValue. rewrite unsigned_of_small by (unfold in_unsigned; lia).
  apply at_index_ok. split; [lia|]. rewrite (sk_cell0 (Z.to_nat i) h a (Z.to_nat j) Hh Ha) by lia.
  by rewrite Z2Nat.id by lia.
Qed.

Lemma append_cells_ok (l : list (Z * Z)) it cs :
  Forall (fun ij => 0 <= ij.1 < row cm /\ 0 <= ij.2 < width cm) l -> item_holds it cs [] ->
  12 * Z.of_nat (length (cs ++ (l ≫= cell_counter (width cm) arrs1))) <= RAW_SIZE ->
  exists it', foldM (append_cell (width cm) arrs1) l it = Ok it' /\
    item_holds it' (cs ++ (l ≫= cell_counter (width cm) arrs1)) [].
Proof.
  revert it cs. induction l as [|[i j] l IH]; intros it cs HF Hit Hfit.
  { exists it. cbn [mbind list_bind]. by rewrite app_nil_r. }
  apply Forall_cons in HF as [[Hi Hj] HF]. cbn [fst snd] in Hi, Hj.
  destruct (sketch_row cm arrs1 upds1 H1 i Hi) as (h & a & Hh & Ha & _).
  pose proof (window_cell i j h a Hh Ha Hi Hj) as Hcell. cbn [foldM mbind list_bind] in *.
  assert (Hap : append_cell (width cm) arrs1 it (i, j) = if 0 <? cell_sum h j upds1
    then AppendCounter it (u32 (i * width cm + j)) (cell_sum h j upds1) else Ok it)
    by (unfold append_cell; cbn [fst snd]; by rewrite Hcell).
  assert (Hcc : cell_counter (width cm) arrs1 (i, j) = if 0 <? cell_sum h j upds1
    then [(i * width cm + j, cell_sum h j upds1)] else []) by (unfold cell_counter; cbn [fst snd]; by rewrite Hcell).
  rewrite Hap, Hcc in *. clear Hap Hcc. destruct (Z.ltb_spec 0 (cell_sum h j upds1)).
  - rewrite unsigned_of_small by (unfold in_unsigned; nia).
    destruct (AppendCounter_ok it cs (i * width cm + j, cell_sum h j upds1) Hit) as (it1 & Hap & Hit1).
    { rewrite !length_app in Hfit. cbn [length] in Hfit. lia. }
    cbn [fst snd] in Hap. rewrite Hap. cbn [mbind result_bind].
    destruct (IH it1 (cs ++ [(i * width cm + j, cell_sum h j upds1)]) HF Hit1) as (it' & Hrun & Hit');
      rewrite <- app_assoc in *; [done|]. by exists it'.
  - apply IH; done.
Qed.

(** What one cell adds to the merged sketch, and what is left to add. *)
Definition merged (ds : list (Z * Z)) (arrs : rows) : Prop :=
  length arrs = length arrs0 /\ Forall (fun a => max_inv a /\ arr_length a = width cm) arrs /\
  forall i h a (j : nat), hashes cm !! i = Some h -> arrs !! i = Some a -> Z.of_nat j < width cm ->
    array a !! j = Some (cell_sum h (Z.of_nat j) upds0 +
      (if decide ((Z.of_nat i, Z.of_nat j) ∈ ds) then cell_sum h (Z.of_nat j) upds1 else 0)).

Lemma merged_skip ds arrs (i : nat) h (j : nat) :
  merged ds arrs -> hashes cm !! i = Some h -> cell_sum h (Z.of_nat j) upds1 = 0 ->
  merged (ds ++ [(Z.of_nat i, Z.of_nat j)]) arrs.
Proof.
  intros (Hl & Hw & Hc) Hh Hz. split; [done|]. split; [done|]. intros i' h' a j' Hh' Ha Hj.
  rewrite (Hc i' h' a j' Hh' Ha Hj). do 2 f_equal. destruct (decide (i' = i /\ j' = j)) as [[-> ->]|Hne].
  - assert (h' = h) as -> by congruence. rewrite Hz. by repeat case_decide.
  - apply decide_ext. rewrite elem_of_app, list_elem_of_singleton. split; [by left|].
    intros [|[= ?%Nat2Z.inj ?%Nat2Z.inj]]; [done|by destruct Hne].
Qed.

Lemma merge_counter_ok ds arrs (i : nat) h (j : nat) :
  merged ds arrs -> hashes cm !! i = Some h -> Z.of_nat j < width cm -> (Z.of_nat i, Z.of_nat j) ∉ ds ->
  exists arrs', merge_counter (width cm) arrs (Z.of_nat i * width cm + Z.of_nat j, cell_sum h (Z.of_nat j) upds1) = Ok arrs' /\
    merged (ds ++ [(Z.of_nat i, Z.of_nat j)]) arrs'.
Proof.
  intros (Hl & Hw & Hc) Hh Hj Hnew. destruct (lookup_lt_is_Some_2 arrs i) as [a Ha].
  { apply lookup_lt_Some in Hh. destruct H0. lia. }
  destruct (Forall_lookup_1 _ _ _ _ Hw Ha) as [Hmax Hal]. pose proof (Hc i h a j Hh Ha Hj) as Hcell.
  rewrite decide_False, Z.add_0_r in Hcell by done.
  pose proof (cell_sum_bounds cm arrs0 upds0 H0 h (Z.of_nat j)). pose proof (cell_sum_bounds cm arrs1 upds1 H1 h (Z.of_nat j)).
  assert (Hwid : 0 < width cm < 2 ^ 32) by (by destruct H0).
  unfold merge_counter. rewrite (proj2 (Z.eqb_neq _ _)) by lia. cbn [fst snd].
  rewrite Z.div_add_l, (Z.div_small (Z.of_nat j)), Z.add_0_r by lia.
  rewrite (Z.add_comm (_ * _)), Z.mod_add, Z.mod_small by lia. cbv zeta.
  assert (Hai : at_index arrs (Z.of_nat i) = Ok a) by (apply at_index_ok; rewrite Nat2Z.id; split; [lia|done]).
  unfold GetCell, SetValue. rewrite Hai. cbn [mbind result_bind]. rewrite unsigned_of_small by (unfold in_unsigned; lia).
  unfold GetValue. rewrite (proj2 (at_index_ok (array a) (Z.of_nat j) _)) by (rewrite Nat2Z.id; split; [lia|exact Hcell]).
  cbn [mbind result_bind]. rewrite signed_of_small by (unfold in_signed; lia).
  destruct (UpdateValue_inv a (Z.of_nat j) (cell_sum h (Z.of_nat j) upds0 + cell_sum h (Z.of_nat j) upds1) Hmax)
    as (a' & b & -> & Hmax' & _ & Harr & _ & _ & Hal' & _); [lia|unfold small; lia|].
  cbn [mbind result_bind]. rewrite set_index_ok, Nat2Z.id by (apply lookup_lt_Some in Ha; lia).
  eexists. split; [reflexivity|]. split; [by rewrite length_insert|]. split; [by apply Forall_insert; [|split; [|congruence]]|].
  intros i' h' x j' Hh' Hx Hj'. destruct (decide (i' = i)) as [->|Hi].
  - assert (h' = h) as -> by congruence. rewrite list_lookup_insert_eq in Hx by (by eapply lookup_lt_Some).
    injection Hx as <-. rewrite Harr, Nat2Z.id. destruct (decide (j' = j)) as [->|Hne].
    + rewrite list_lookup_insert_eq by (by eapply lookup_lt_Some).
      rewrite decide_True; [done|]. apply elem_of_app. right. by apply list_elem_of_singleton.
    + rewrite list_lookup_insert_ne by done. rewrite (Hc i h a j' Hh Ha Hj'). do 2 f_equal. apply decide_ext.
      rewrite elem_of_app, list_elem_of_singleton. split; [by left|]. by intros [|[= ?%Nat2Z.inj]].
  - rewrite list_lookup_insert_ne in Hx by done. rewrite (Hc i' h' x j' Hh' Hx Hj'). do 2 f_equal. apply decide_ext.
    rewrite elem_of_app, list_elem_of_singleton. split; [by left|]. by intros [|[= ?%Nat2Z.inj _]].
Qed.

(** Merging the counters of a window adds the two sketches. *)
Lemma merge_counters_ok :
  exists arrs', foldM (merge_counter (width cm)) (window_counters (row cm) (width cm) arrs1) arrs0 = Ok arrs' /\
    sketch_inv cm arrs' (upds0 ++ upds1).
Proof.
  unfold window_counters. rewrite foldM_bind.
  destruct (foldM_inv merged (fun s a => foldM (merge_counter (width cm)) (cell_counter (width cm) arrs1 a) s)
    (cells (row cm) (width cm)) arrs0) as (arrs' & Hrun & Hl & Hw & Hc).
  - destruct H0. split; [done|]. split; [done|]. intros i h a j Hh Ha Hj.
    rewrite decide_False by apply not_elem_of_nil. rewrite Z.add_0_r. by apply (sk_cell0 i).
  - intros ds [i j] arrs Hm [rest Hpre].
    assert (Hin : (i, j) ∈ cells (row cm) (width cm)) by (rewrite Hpre; rewrite !elem_of_app, list_elem_of_singleton; tauto).
    assert (Hnew : (i, j) ∉ ds).
    { pose proof (cells_NoDup (row cm) (width cm)) as Hnd. rewrite Hpre, <- app_assoc in Hnd.
      apply NoDup_app in Hnd as (_ & Hd & _). intros Hx. apply (Hd _ Hx). apply elem_of_app. left. by apply list_elem_of_singleton. }
    apply cells_elem in Hin as [Hi Hj]. destruct (sketch_row cm arrs1 upds1 H1 i Hi) as (h & a & Hh & Ha & _).
    unfold cell_counter. cbn [fst snd]. rewrite (window_cell i j h a Hh Ha Hi Hj).
    rewrite <- (Z2Nat.id i), <- (Z2Nat.id j) in * by lia. rewrite ?Nat2Z.id in *.
    pose proof (cell_sum_bounds cm arrs1 upds1 H1 h (Z.of_nat (Z.to_nat j))).
    destruct (Z.ltb_spec 0 (cell_sum h (Z.of_nat (Z.to_nat j)) upds1)).
    + destruct (merge_counter_ok ds arrs _ h (Z.to_nat j) Hm Hh) as (arrs' & Hrun & Hm'); [lia|done|]. exists arrs'.
      cbn [foldM]. rewrite Hrun. by split.
    + exists arrs. split; [done|]. apply (merged_skip _ _ _ h); [done|done|lia].
  - exists arrs'. split; [exact Hrun|]. destruct H0. destruct H1. split; try done.
    + lia.
    + intros i h a j Hh Ha Hj. rewrite (Hc i h a j Hh Ha Hj). unfold cell_sum. rewrite sum_if_app.
      rewrite decide_True; [done|]. apply cells_elem. apply lookup_lt_Some in Hh. lia.
    + by apply Forall_app.
    + unfold total_sum in *. rewrite sum_if_app. lia.
Qed.


Lemma merge_keys_ok arrs upds (ks : list Z) mt :
  sketch_inv cm arrs upds -> m_sketch mt = cm -> 0 <= m_thresh mt ->
  exists mt', foldM (merge_key arrs) ks mt = Ok mt' /\ m_sketch mt' = cm /\ m_thresh mt' = m_thresh mt /\
    (forall k, k ∈ m_cand mt -> k ∈ m_cand mt') /\
    (forall k, k ∈ ks -> m_thresh mt < true_sum k upds -> k ∈ m_cand mt').
Proof.
  intros Hinv. revert mt. induction ks as [|k ks IH]; intros mt Hcm Hth; cbn [foldM].
  { exists mt. split_and!; try done. by intros k ?%not_elem_of_nil. }
  destruct (GetEstimate_min cm arrs upds Hinv k) as (e & He & Hin & _).
  pose proof (answer_bounds cm arrs upds Hinv k e Hin) as Hb.
  assert (0 <= true_sum k upds) by (destruct Hinv; by apply (sum_if_mono _ (fun _ => true))).
  assert (Hstep : exists mt1, merge_key arrs mt k = Ok mt1 /\ m_sketch mt1 = cm /\ m_thresh mt1 = m_thresh mt /\
    (forall x, x ∈ m_cand mt -> x ∈ m_cand mt1) /\ (m_thresh mt < true_sum k upds -> k ∈ m_cand mt1)).
  { unfold merge_key. rewrite Hcm, He. cbn [mbind result_bind]. cbv zeta.
    rewrite unsigned_of_small by (destruct Hinv; unfold in_unsigned; lia).
    destruct (Z.ltb_spec (m_thresh mt) e); destruct (set_mem k (m_cand mt)) eqn:E; cbn [andb negb];
      eexists; (split; [reflexivity|]); cbn [m_sketch m_thresh m_cand]; split_and!; try done; try lia.
    - intros _. by apply set_mem_spec.
    - intros x Hx. apply set_insert_elem. by right.
    - intros _. apply set_insert_elem. by left. }
  destruct Hstep as (mt1 & -> & Hcm1 & Hth1 & Hmono & Hk). cbn [mbind result_bind].
  destruct (IH mt1 Hcm1) as (mt' & -> & Hcm' & Hth' & Hmono' & Hks); [lia|].
  exists mt'. split_and!; try done; [congruence|auto|].
  intros x Hx Hxs. apply elem_of_cons in Hx as [->|Hx]; [auto|]. apply Hks; [done|by rewrite Hth1].
Qed.

Lemma window_item_ok garbage t :
  Z.of_nat (length garbage) = RAW_SIZE -> r t = row cm -> w t = width cm ->
  12 * Z.of_nat (length (window_counters (row cm) (width cm) arrs1)) + 8 * Z.of_nat (length (cand t)) <= RAW_SIZE ->
  exists it, window_item garbage t arrs1 = Ok it /\
    item_holds it (window_counters (row cm) (width cm) arrs1) (cand t).
Proof.
  intros Hg Er Ew Hfit. unfold window_item. rewrite Er, Ew.
  destruct (append_cells_ok (cells (row cm) (width cm)) (new_CMItem garbage) []) as (it & -> & Hit);
    [apply Forall_forall; intros [i j]; apply cells_elem|by apply new_CMItem_holds|cbn [app]; fold (window_counters (row cm) (width cm) arrs1); lia|].
  cbn [mbind result_bind]. exact (append_keys_ok it _ [] (cand t) Hit ltac:(cbn [app]; fold (window_counters (row cm) (width cm) arrs1); lia)).
Qed.

Lemma window_counters_ok : Forall counter_ok (window_counters (row cm) (width cm) arrs1).
Proof.
  apply Forall_forall. intros c. unfold window_counters. rewrite list_elem_of_bind. intros ([i j] & Hc & [Hi Hj]%cells_elem).
  destruct (sketch_row cm arrs1 upds1 H1 i Hi) as (h & a & Hh & Ha & _). unfold cell_counter in Hc. cbn [fst snd] in Hc.
  rewrite (window_cell i j h a Hh Ha Hi Hj) in Hc. pose proof (cell_sum_bounds cm arrs1 upds1 H1 h j).
  destruct (Z.ltb_spec 0 (cell_sum h j upds1)); [|by apply not_elem_of_nil in Hc].
  apply list_elem_of_singleton in Hc as ->. destruct H1. split; cbn [fst snd]; [unfold in_unsigned; nia|unfold in_signed; lia].
Qed.

(** A window's item merged into a sketch with the same hashes. *)
Lemma merge_window_ok garbage t mt wk th sq :
  Z.of_nat (length garbage) = RAW_SIZE -> r t = row cm -> w t = width cm -> Forall (in_unsigned 64) (cand t) ->
  12 * Z.of_nat (length (window_counters (row cm) (width cm) arrs1)) + 8 * Z.of_nat (length (cand t)) <= RAW_SIZE ->
  m_sketch mt = cm -> m_w mt = width cm -> 0 <= m_thresh mt ->
  exists it e, window_item garbage t arrs1 = Ok it /\ ProcessData_merge mt arrs0 wk th sq it = Ok e /\
    sketch_inv cm (e_ops e) (upds0 ++ upds1) /\
    forall k, k ∈ cand t -> m_thresh mt < true_sum k (upds0 ++ upds1) -> k ∈ m_cand (e_user e).
Proof.
  intros Hg Er Ew Hks Hfit Ecm Emw Hth. destruct (window_item_ok garbage t Hg Er Ew Hfit) as (it & Hwi & Hit).
  exists it. setoid_rewrite Hwi. unfold ProcessData_merge. pose proof Hit as (_ & Enc & Enh & _). rewrite Enc, Enh, !Nat2Z.id, Emw.
  rewrite (foldM_indices_get (GetCounter it) (merge_counter (width cm)) (window_counters (row cm) (width cm) arrs1)).
  2: { intros n c Hn. apply (GetCounter_ok it _ _ n c Hit Hn). exact (Forall_lookup_1 _ _ _ _ window_counters_ok Hn). }
  destruct merge_counters_ok as (arrs' & Hmc & Hinv). rewrite Hmc. cbn [mbind result_bind].
  rewrite (foldM_indices_get (GetKey it) (merge_key arrs') (cand t)).
  2: { intros n k Hn. apply (GetKey_ok it _ _ n k Hit Hn). exact (Forall_lookup_1 _ _ _ _ Hks Hn). }
  destruct (merge_keys_ok arrs' (upds0 ++ upds1) (cand t) mt Hinv Ecm Hth) as (mt' & -> & _ & _ & _ & Hk).
  cbn [mbind result_bind]. eexists. split; [done|]. split; [reflexivity|]. done.
Qed.

End Merge.


Definition tiny_merge : merge_thread :=
  {| m_sketch := tiny_sketch.1; m_cand := []; m_thresh := 4; m_w := 5; output := [] |}.

Definition tiny_window : rows :=
  match run_updates tiny_sketch.1 tiny_sketch.2 [(7, 3); (9, 4)] with Ok a => a | Stop _ => [] end.

Lemma tiny_window_inv : sketch_inv tiny_sketch.1 tiny_window [(7, 3); (9, 4)].
Proof.
  destruct (run_updates_ok tiny_sketch.1 tiny_sketch.2 [] [(7, 3); (9, 4)] tiny_sketch_inv) as (a & Hrun & Hinv);
    [repeat constructor; simpl; lia|by vm_compute|]. unfold tiny_window. by rewrite Hrun.
Qed.


End App.
