(* ===== verification/Msg.v ===== *)
(** Messages of the network layer (src/net/msg.hpp, src/net/msg.cpp): very small
    messages hold their bytes, long ones point to a reference-counted block on
    the heap, constant ones to the caller's memory.  Every operation is a
    function on the heap and the message; the theorem is the ownership
    discipline of the long messages. *)
From stdpp Require Import base numbers list gmap.
From Stdlib Require Import ZArith Lia.
From S2P Require Import Prelude.

(** The values of [errno] the network layer tests or sets. *)
Inductive errno := EAGAIN | EFAULT | ENOMEM | EMSGSIZE | EPROTO | EINVAL | EPROTONOSUPPORT | EOTHER.

#[global] Instance errno_eq_dec : EqDecision errno.
Proof. solve_decision. Defined.

(** What a function of the style "0, or -1 with [errno]" returns. *)
Inductive rc := RC0 | RCErr (e : errno).

#[global] Instance rc_eq_dec : EqDecision rc.
Proof. solve_decision. Defined.

Module Msg.

(** Message flags. *)
Definition more : Z := 1.
Definition command : Z := 2.
Definition identity : Z := 64.
Definition shared : Z := 128.

Definition max_vsm_size : Z := 29.

(** [sizeof (content_t)]: four pointers or sizes, a 32-bit counter and a
    pthread mutex. *)
Definition sizeof_content : Z := 80.

(** What [data] may point to: the message itself, the bytes behind a block, or
    memory of the caller. *)
Inductive ptr := PVsm | PContent (l : Z) | PUser (p : Z).

#[global] Instance ptr_eq_dec : EqDecision ptr.
Proof. solve_decision. Defined.

(** The shared block; [payload] are the bytes allocated behind it. *)
Record content_t := mkcontent {
  c_data : ptr;
  c_size : Z;              (* size_t *)
  c_ffn : option Z;        (* the deallocation function, if any *)
  c_hint : Z;
  c_refcnt : Z;            (* uint32_t *)
  payload : list Z
}.

(** The union: [closed] is type 0, which [check] refuses. *)
Inductive body :=
| closed
| vsm (vdata : list Z) (vsize : Z)
| lmsg (content : Z)
| delimiter
| cmsg (cdata : Z) (csize : Z).

Record msg_t := mkmsg { u : body; flags : Z }.

(** The allocated blocks, the next address and the deallocation calls made. *)
Record heap := mkheap {
  blocks : gmap Z content_t;
  next_addr : Z;
  ffn_calls : list (Z * ptr * Z)
}.

Definition check (m : msg_t) : bool := match u m with closed => false | _ => true end.

(** [type] of the message. *)
Definition type_of (m : msg_t) : Z :=
  match u m with closed => 0 | vsm _ _ => 101 | lmsg _ => 102 | delimiter => 103 | cmsg _ _ => 104 end.

Definition init : msg_t := {| u := vsm (replicate 29 0) 0; flags := 0 |}.

(** [malloc]: the size asked for is computed in [size_t].  [mem] says whether
    the request is granted. *)
Definition alloc (h : heap) (c : content_t) : heap * Z :=
  ({| blocks := <[next_addr h := c]> (blocks h); next_addr := next_addr h + 1; ffn_calls := ffn_calls h |},
   next_addr h).

Definition init_size (mem : Z -> bool) (h : heap) (size_ : Z) : heap * msg_t * rc :=
  if size_ <=? max_vsm_size then (h, {| u := vsm (replicate 29 0) (u8 size_); flags := 0 |}, RC0)
  else
    let bytes := u64 (sizeof_content + size_) in
    if mem bytes then
      let '(h', l) := alloc h {| c_data := PContent (next_addr h); c_size := size_; c_ffn := None; c_hint := 0;
                                 c_refcnt := 0; payload := replicate (Z.to_nat (bytes - sizeof_content)) 0 |} in
      (h', {| u := lmsg l; flags := 0 |}, RC0)
    else (h, {| u := lmsg 0; flags := 0 |}, RCErr ENOMEM).

(** [data_] is [None] for a null pointer. *)
Definition init_data (mem : Z -> bool) (h : heap) (data_ : option Z) (size_ : Z) (ffn_ : option Z) (hint_ : Z)
    : result (heap * msg_t * rc) :=
  _ ← afs_assert (match data_ with Some _ => true | None => size_ =? 0 end);
  let p := default 0 data_ in
  match ffn_ with
  | None => Ok (h, {| u := cmsg p size_; flags := 0 |}, RC0)
  | Some f =>
      if mem sizeof_content then
        let '(h', l) := alloc h {| c_data := PUser p; c_size := size_; c_ffn := Some f; c_hint := hint_;
                                   c_refcnt := 0; payload := [] |} in
        Ok (h', {| u := lmsg l; flags := 0 |}, RC0)
      else Ok (h, {| u := lmsg 0; flags := 0 |}, RCErr ENOMEM)
  end.

Definition init_delimiter : msg_t := {| u := delimiter; flags := 0 |}.

Definition has_flag (f bit : Z) : bool := negb (Z.land f bit =? 0).

(** [ffn (data, hint)] and [free (content)]; the block must be allocated. *)
Definition free_content (h : heap) (l : Z) : result heap :=
  match blocks h !! l with
  | None => Stop NullDeref
  | Some c => Ok {| blocks := delete l (blocks h); next_addr := next_addr h;
                    ffn_calls := ffn_calls h ++ (match c_ffn c with Some f => [(f, c_data c, c_hint c)] | None => [] end) |}
  end.

Definition set_refcnt (h : heap) (l n : Z) : result heap :=
  match blocks h !! l with
  | None => Stop NullDeref
  | Some c => Ok {| blocks := <[l := {| c_data := c_data c; c_size := c_size c; c_ffn := c_ffn c; c_hint := c_hint c;
                                        c_refcnt := u32 n; payload := payload c |}]> (blocks h);
                    next_addr := next_addr h; ffn_calls := ffn_calls h |}
  end.

Definition get_refcnt (h : heap) (l : Z) : result Z :=
  match blocks h !! l with None => Stop NullDeref | Some c => Ok (c_refcnt c) end.

(** [refcnt.sub (n)]: false when the counter drops to zero. *)
Definition refcnt_sub (h : heap) (l n : Z) : result (heap * bool) :=
  v ← get_refcnt h l;
  h' ← set_refcnt h l (v - n);
  Ok (h', negb (u32 (v - n) =? 0)).

Definition close (h : heap) (m : msg_t) : result (heap * msg_t * rc) :=
  if negb (check m) then Ok (h, m, RCErr EFAULT)
  else
    h' ← match u m with
         | lmsg l =>
             if negb (has_flag (flags m) shared) then free_content h l
             else
               '(h1, alive) ← refcnt_sub h l 1;
               if alive : bool then Ok h1 else free_content h1 l
         | _ => Ok h
         end;
    Ok (h', {| u := closed; flags := flags m |}, RC0).

(** [dst.move (src)] and [dst.copy (src)] for two distinct messages: the new
    destination and source. *)
Definition move (h : heap) (dst src : msg_t) : result (heap * msg_t * msg_t * rc) :=
  if negb (check src) then Ok (h, dst, src, RCErr EFAULT)
  else
    '(h1, dst1, r) ← close h dst;
    match r : rc with
    | RCErr e => Ok (h1, dst1, src, RCErr e)
    | RC0 => Ok (h1, src, init, RC0)
    end.

Definition copy (h : heap) (dst src : msg_t) : result (heap * msg_t * msg_t * rc) :=
  if negb (check src) then Ok (h, dst, src, RCErr EFAULT)
  else
    '(h1, dst1, r) ← close h dst;
    match r : rc with
    | RCErr e => Ok (h1, dst1, src, RCErr e)
    | RC0 =>
        s ← match u src with
            | lmsg l =>
                if has_flag (flags src) shared then
                  v ← get_refcnt h1 l; h' ← set_refcnt h1 l (v + 1); Ok (h', src)
                else
                  h' ← set_refcnt h1 l 2;
                  Ok (h', {| u := u src; flags := Z.lor (flags src) shared |})
            | _ => Ok (h1, src)
            end;
        Ok (s.1, s.2, s.2, RC0)
    end.

Definition data (h : heap) (m : msg_t) : result ptr :=
  match u m with
  | vsm _ _ => Ok PVsm
  | lmsg l => match blocks h !! l with Some c => Ok (c_data c) | None => Stop NullDeref end
  | cmsg p _ => Ok (PUser p)
  | _ => Stop AssertFailed
  end.

Definition size (h : heap) (m : msg_t) : result Z :=
  match u m with
  | vsm _ n => Ok n
  | lmsg l => match blocks h !! l with Some c => Ok (c_size c) | None => Stop NullDeref end
  | cmsg _ n => Ok n
  | _ => Stop AssertFailed
  end.

Definition set_flags (m : msg_t) (f : Z) : msg_t := {| u := u m; flags := Z.lor (flags m) f |}.
Definition reset_flags (m : msg_t) (f : Z) : msg_t := {| u := u m; flags := Z.ldiff (flags m) f |}.
Definition is_identity (m : msg_t) : bool := Z.land (flags m) identity =? identity.
Definition is_delimiter (m : msg_t) : bool := type_of m =? 103.
Definition is_vsm (m : msg_t) : bool := type_of m =? 101.
Definition is_cmsg (m : msg_t) : bool := type_of m =? 104.

Definition add_refs (h : heap) (m : msg_t) (refs_ : Z) : result (heap * msg_t) :=
  _ ← afs_assert (0 <=? refs_);
  if refs_ =? 0 then Ok (h, m)
  else match u m with
  | lmsg l =>
      if has_flag (flags m) shared then
        v ← get_refcnt h l; h' ← set_refcnt h l (v + refs_); Ok (h', m)
      else
        h' ← set_refcnt h l (refs_ + 1); Ok (h', set_flags m shared)
  | _ => Ok (h, m)
  end.

Definition rm_refs (h : heap) (m : msg_t) (refs_ : Z) : result (heap * msg_t * bool) :=
  _ ← afs_assert (0 <=? refs_);
  if refs_ =? 0 then Ok (h, m, true)
  else match u m with
  | lmsg l =>
      if negb (has_flag (flags m) shared) then
        c ← close h m; Ok (c.1.1, c.1.2, false)
      else
        '(h1, alive) ← refcnt_sub h l refs_;
        if alive : bool then Ok (h1, m, true)
        else h' ← free_content h1 l; Ok (h', m, false)
  | _ => c ← close h m; Ok (c.1.1, c.1.2, false)
  end.


(** ** Who owns a block *)

Definition points_to (l : Z) (m : msg_t) : bool := match u m with lmsg l' => l' =? l | _ => false end.

(** The number of messages that refer to a block. *)
Definition refs (l : Z) (ms : list msg_t) : Z :=
  foldr (fun m n => (if points_to l m then 1 else 0) + n) 0 ms.

Definition is_lmsg (m : msg_t) : bool := match u m with lmsg _ => true | _ => false end.

(** The ownership discipline for the live messages of a program: every block
    has an owner, every long message has its block, a message without the
    [shared] flag is the only owner, and the counter of a shared block is the
    number of its owners. *)
Record owned (h : heap) (ms : list msg_t) : Prop := {
  ow_blocks : forall l c, blocks h !! l = Some c -> l < next_addr h /\ 1 <= refs l ms;
  ow_msgs : forall m l, m ∈ ms -> u m = lmsg l -> exists c, blocks h !! l = Some c /\
    if has_flag (flags m) shared then c_refcnt c = refs l ms else refs l ms = 1;
  ow_few : Z.of_nat (length ms) < 2 ^ 32
}.

Lemma refs_insert l ms i m m' :
  ms !! i = Some m ->
  refs l (<[i := m']> ms) + (if points_to l m then 1 else 0) = refs l ms + (if points_to l m' then 1 else 0).
Proof.
  revert i. induction ms as [|x ms IH]; intros [|i] Hi; simpl in *; try done.
  - injection Hi as ->. fold (refs l ms). lia.
  - specialize (IH i Hi). unfold refs in *. lia.
Qed.

Lemma refs_bounds l ms : 0 <= refs l ms <= Z.of_nat (length ms).
Proof. unfold refs. induction ms as [|m ms IH]; simpl; [lia|]. destruct (points_to l m); lia. Qed.

Lemma points_to_spec l m : points_to l m = true <-> u m = lmsg l.
Proof.
  unfold points_to. destruct (u m); split; try done; [intros ->%Z.eqb_eq|intros [= ->]; apply Z.eqb_refl]. done.
Qed.

Lemma refs_pos l m ms : m ∈ ms -> u m = lmsg l -> 1 <= refs l ms.
Proof.
  intros Hm Hl. unfold refs. induction Hm as [m ms|m x ms Hm IH]; simpl.
  - rewrite (proj2 (points_to_spec l m) Hl). pose proof (refs_bounds l ms). unfold refs in *. lia.
  - specialize (IH Hl). destruct (points_to l x); lia.
Qed.

Lemma not_lmsg_points l m : is_lmsg m = false -> points_to l m = false.
Proof. unfold is_lmsg, points_to. by destruct (u m). Qed.

Lemma elem_of_insert (ms : list msg_t) i m' x : x ∈ <[i := m']> ms -> x = m' \/ x ∈ ms.
Proof.
  intros (k & Hk)%list_elem_of_lookup. destruct (decide (k = i)) as [->|Hne].
  - left. destruct (decide (i < length ms)%nat).
    + rewrite list_lookup_insert_eq in Hk by done. congruence.
    + apply lookup_lt_Some in Hk. rewrite length_insert in Hk. lia.
  - right. rewrite list_lookup_insert_ne in Hk by done. by apply list_elem_of_lookup_2 in Hk.
Qed.

(** Replacing a message that owns nothing by one that owns nothing. *)
Lemma owned_replace h ms i m m' :
  owned h ms -> ms !! i = Some m -> is_lmsg m = false -> is_lmsg m' = false -> owned h (<[i := m']> ms).
Proof.
  intros [Hb Hm Hf] Hi Hn Hn'.
  assert (Hr : forall l, refs l (<[i := m']> ms) = refs l ms).
  { intros l. pose proof (refs_insert l ms i m m' Hi). rewrite !not_lmsg_points in * by done. lia. }
  split; [|intros x l Hx Hl; rewrite Hr|by rewrite length_insert].
  - intros l c Hc. rewrite Hr. eauto.
  - apply elem_of_insert in Hx as [->|Hx]; [|eauto]. unfold is_lmsg in Hn'. by rewrite Hl in Hn'.
Qed.

(** A fresh block owned by one message. *)
Lemma owned_alloc h ms i m c :
  owned h ms -> ms !! i = Some m -> is_lmsg m = false ->
  owned (alloc h c).1 (<[i := {| u := lmsg (alloc h c).2; flags := 0 |}]> ms).
Proof.
  intros [Hb Hm Hf] Hi Hn. cbn [alloc fst snd].
  assert (Hno : forall l, next_addr h <= l -> refs l ms = 0).
  { intros l Hl. destruct (Z.eq_dec (refs l ms) 0) as [|Hne]; [done|].
    assert (exists m, m ∈ ms /\ u m = lmsg l) as (x & Hx & Hux).
    { clear -Hne. induction ms as [|x ms IH]; simpl in *; [done|]. destruct (points_to l x) eqn:E.
      - exists x. split; [apply list_elem_of_here|by apply points_to_spec].
      - destruct IH as (y & Hy & Hu); [done|]. exists y. split; [by apply list_elem_of_further|done]. }
    destruct (Hm x l Hx Hux) as (c0 & Hc & _). destruct (Hb l c0 Hc). lia. }
  assert (Hr : forall l, refs l (<[i := {| u := lmsg (next_addr h); flags := 0 |}]> ms)
    = refs l ms + (if next_addr h =? l then 1 else 0)).
  { intros l. pose proof (refs_insert l ms i m {| u := lmsg (next_addr h); flags := 0 |} Hi) as Hri.
    rewrite (not_lmsg_points l m Hn) in Hri. unfold points_to in Hri. cbn [u] in Hri. lia. }
  split; cbn [blocks next_addr ffn_calls]; [| |by rewrite length_insert].
  - intros l c' Hc. rewrite Hr. apply lookup_insert_Some in Hc as [[<- _]|[Hne Hc]].
    + rewrite Z.eqb_refl, Hno; lia.
    + destruct (Hb l c' Hc). destruct (_ =? _); lia.
  - intros x l Hx Hl. rewrite Hr. apply elem_of_insert in Hx as [->|Hx].
    + cbn in Hl. injection Hl as <-. exists c. rewrite lookup_insert_eq. split; [done|].
      change (has_flag _ shared) with false. cbv iota. rewrite Z.eqb_refl, Hno; lia.
    + destruct (Hm x l Hx Hl) as (c0 & Hc & Hsh). destruct (Hb l c0 Hc) as [Hlt _].
      exists c0. rewrite lookup_insert_ne by lia. split; [done|]. by rewrite (proj2 (Z.eqb_neq _ _)), Z.add_0_r by lia.
Qed.

(** Closing a live message. *)
Lemma close_owned h ms i m :
  owned h ms -> ms !! i = Some m -> check m = true ->
  exists h', close h m = Ok (h', {| u := closed; flags := flags m |}, RC0) /\
    owned h' (<[i := {| u := closed; flags := flags m |}]> ms).
Proof.
  intros Hown Hi Hc. pose proof Hown as [Hb Hm Hf]. unfold close. rewrite Hc. cbn [negb].
  set (m' := {| u := closed; flags := flags m |}). destruct (u m) as [|v n|l| |p n] eqn:Hu;
    try (exists h; split; [done|]; apply (owned_replace h ms i m m' Hown Hi); [unfold is_lmsg; by rewrite Hu|done]).
  pose proof (list_elem_of_lookup_2 _ _ _ Hi) as Hin. destruct (Hm m l Hin Hu) as (c & Hcl & Hsh).
  assert (Hr : forall l', refs l' (<[i := m']> ms) = refs l' ms - (if l =? l' then 1 else 0)).
  { intros l'. pose proof (refs_insert l' ms i m m' Hi) as Hri. unfold points_to in Hri. rewrite Hu in Hri. cbn in Hri. lia. }
  pose proof (refs_bounds l ms) as Hrb. pose proof (refs_pos l m ms Hin Hu) as Hrp.
  (* the owners of other blocks, and the other owners of this one *)
  assert (Hothers : forall x l', x ∈ <[i := m']> ms -> u x = lmsg l' -> x ∈ ms /\ 1 <= refs l' (<[i := m']> ms)).
  { intros x l' Hx Hl'. split; [|by apply (refs_pos l' x)]. apply elem_of_insert in Hx as [->|]; [by cbn in Hl'|done]. }
  assert (Hdel : refs l ms = 1 -> forall h', blocks h' = delete l (blocks h) -> next_addr h' = next_addr h ->
    owned h' (<[i := m']> ms)).
  { intros H1 h' Hbl Hn. split; [| |by rewrite length_insert].
    - intros l' c' Hc'. rewrite Hbl in Hc'. apply lookup_delete_Some in Hc' as [Hne Hc'].
      rewrite Hn, Hr, (proj2 (Z.eqb_neq l l')) by done. destruct (Hb l' c' Hc'). lia.
    - intros x l' Hx Hl'. destruct (Hothers x l' Hx Hl') as [Hx' Hpos]. rewrite Hr in *.
      destruct (Z.eqb_spec l l') as [<-|Hne]; [lia|]. destruct (Hm x l' Hx' Hl') as (c' & Hc' & Hs).
      exists c'. rewrite Hbl, lookup_delete_ne by done. split; [done|]. by rewrite Z.sub_0_r. }
  destruct (has_flag (flags m) shared) eqn:Hflag; cbn [negb].
  - unfold refcnt_sub, get_refcnt, set_refcnt. rewrite Hcl. cbn [mbind result_bind].
    rewrite Hsh, unsigned_of_small by (unfold in_unsigned; lia).
    destruct (Z.eqb_spec (refs l ms - 1) 0) as [E|E]; cbn [negb].
    + unfold free_content. cbn [blocks next_addr ffn_calls]. rewrite lookup_insert_eq. cbn [mbind result_bind].
      eexists. split; [reflexivity|]. apply Hdel; [lia| |done]. cbn [blocks]. apply delete_insert_eq.
    + eexists. split; [reflexivity|]. split; cbn [blocks next_addr ffn_calls]; [| |by rewrite length_insert].
      * intros l' c' Hc'. rewrite Hr. apply lookup_insert_Some in Hc' as [[<- _]|[Hne Hc']].
        -- destruct (Hb l c Hcl). rewrite Z.eqb_refl. lia.
        -- rewrite (proj2 (Z.eqb_neq l l')) by done. destruct (Hb l' c' Hc'). lia.
      * intros x l' Hx Hl'. destruct (Hothers x l' Hx Hl') as [Hx' Hpos]. destruct (Hm x l' Hx' Hl') as (c' & Hc' & Hs).
        rewrite Hr in *. destruct (Z.eqb_spec l l') as [<-|Hne].
        -- eexists. rewrite lookup_insert_eq. split; [reflexivity|]. cbn [c_refcnt]. destruct (has_flag (flags x) shared); lia.
        -- exists c'. rewrite lookup_insert_ne by done. split; [done|]. by rewrite Z.sub_0_r.
  - unfold free_content. rewrite Hcl. cbn [mbind result_bind]. eexists. split; [reflexivity|]. by apply Hdel.
Qed.


(** [copy] onto a message that owns nothing: both share the block. *)
Lemma share_owned h ms i j d src l :
  owned h ms -> ms !! i = Some d -> is_lmsg d = false -> ms !! j = Some src -> i <> j -> u src = lmsg l ->
  forall c src', blocks h !! l = Some c -> u src' = lmsg l -> has_flag (flags src') shared = true ->
  owned {| blocks := <[l := {| c_data := c_data c; c_size := c_size c; c_ffn := c_ffn c; c_hint := c_hint c;
                               c_refcnt := u32 (refs l ms + 1); payload := payload c |}]> (blocks h);
           next_addr := next_addr h; ffn_calls := ffn_calls h |}
        (<[i := src']> (<[j := src']> ms)).
Proof.
  intros [Hb Hm Hf] Hi Hn Hj Hij Hu c src' Hc Hu' Hfl.
  assert (Hr : forall l', refs l' (<[i := src']> (<[j := src']> ms)) = refs l' ms + (if l =? l' then 1 else 0)).
  { intros l'. pose proof (refs_insert l' ms j src src' Hj) as H1.
    pose proof (refs_insert l' (<[j := src']> ms) i d src') as H2. rewrite list_lookup_insert_ne in H2 by congruence.
    specialize (H2 Hi). rewrite (not_lmsg_points l' d Hn) in H2. unfold points_to in H1, H2. rewrite Hu, Hu' in H1. rewrite Hu' in H2. lia. }
  assert (Hlt : refs l ms + 1 < 2 ^ 32).
  { pose proof (refs_bounds l (<[i := src']> (<[j := src']> ms))) as Hb'. rewrite Hr, Z.eqb_refl, !length_insert in Hb'.
    cbv iota in Hb'. lia. }
  pose proof (refs_bounds l ms). rewrite unsigned_of_small by (unfold in_unsigned; lia).
  split; cbn [blocks next_addr ffn_calls]; [| |by rewrite !length_insert].
  - intros l' c' Hc'. rewrite Hr. apply lookup_insert_Some in Hc' as [[<- _]|[Hne Hc']].
    + destruct (Hb l c Hc). rewrite Z.eqb_refl. lia.
    + destruct (Hb l' c' Hc'). destruct (_ =? _); lia.
  - intros x l' Hx Hl'. rewrite Hr. destruct (Z.eqb_spec l l') as [<-|Hne].
    + eexists. rewrite lookup_insert_eq. split; [reflexivity|]. cbn [c_refcnt].
      apply elem_of_insert in Hx as [->|Hx]; [by rewrite Hfl|].
      assert (Hsh : has_flag (flags x) shared = true); [|by rewrite Hsh].
      apply list_elem_of_lookup in Hx as (k & Hk). destruct (decide (k = j)) as [->|Hkj].
      * rewrite list_lookup_insert_eq in Hk by (by eapply lookup_lt_Some). congruence.
      * rewrite list_lookup_insert_ne in Hk by done. apply not_false_iff_true. intros Hf0.
        destruct (Hm x l (list_elem_of_lookup_2 _ _ _ Hk) Hl') as (c0 & _ & Hs). rewrite Hf0 in Hs.
        pose proof (refs_insert l ms j src init Hj) as Hri. rewrite (proj2 (points_to_spec l src) Hu) in Hri.
        change (points_to l init) with false in Hri. cbv iota in Hri.
        assert (1 <= refs l (<[j := init]> ms)); [|lia]. apply (refs_pos l x); [|done].
        apply list_elem_of_lookup. exists k. by rewrite list_lookup_insert_ne.
    + assert (Hx' : x ∈ ms).
      { apply elem_of_insert in Hx as [->|[->|Hx]%elem_of_insert]; [congruence|congruence|done]. }
      destruct (Hm x l' Hx' Hl') as (c' & Hc' & Hs). exists c'. rewrite lookup_insert_ne by done. by rewrite Z.add_0_r.
Qed.

(** [move] onto a message that owns nothing. *)
Lemma move_owned h ms i j d src :
  owned h ms -> ms !! i = Some d -> is_lmsg d = false -> ms !! j = Some src -> i <> j ->
  owned h (<[i := src]> (<[j := init]> ms)).
Proof.
  intros [Hb Hm Hf] Hi Hn Hj Hij.
  assert (Hr : forall l, refs l (<[i := src]> (<[j := init]> ms)) = refs l ms).
  { intros l. pose proof (refs_insert l ms j src init Hj) as H1.
    pose proof (refs_insert l (<[j := init]> ms) i d src) as H2. rewrite list_lookup_insert_ne in H2 by congruence.
    specialize (H2 Hi). rewrite (not_lmsg_points l d Hn) in H2. change (points_to l init) with false in H1. cbv iota in H1. lia. }
  split; [| |by rewrite !length_insert].
  - intros l c Hc. rewrite Hr. eauto.
  - intros x l Hx Hl. rewrite Hr. apply (Hm x l); [|done].
    apply elem_of_insert in Hx as [->|[->|Hx]%elem_of_insert]; [by apply list_elem_of_lookup_2 in Hj|done|done].
Qed.

(** ** Programs that use messages *)

(** One call on the messages of a program, named by their position. *)
Inductive op :=
| OInit (i : nat)
| OInitSize (i : nat) (n : Z)
| OInitData (i : nat) (p n f hint : Z)
| OClose (i : nat)
| OMove (i j : nat)
| OCopy (i j : nat)
| OSetFlags (i : nat) (f : Z).

(** The discipline the interface asks of the caller: initialise only a message
    that owns nothing, use two distinct messages, leave [shared] alone. *)
Definition op_ok (ms : list msg_t) (o : op) : bool :=
  let free i := match ms !! i with Some m => negb (is_lmsg m) | None => false end in
  let live i := match ms !! i with Some m => check m | None => false end in
  match o with
  | OInit i | OInitSize i _ | OInitData i _ _ _ _ => free i
  | OClose i => live i
  | OMove i j | OCopy i j => live i && live j && negb (Nat.eqb i j)
  | OSetFlags i f => live i && negb (has_flag f shared) && (0 <=? f)
  end.

(** After a failed allocation the message is initialised again, as the decoder
    does. *)
Definition or_init (r : rc) (m : msg_t) : msg_t := match r with RC0 => m | RCErr _ => init end.

Definition exec (mem : Z -> bool) (o : op) (st : heap * list msg_t) : result (heap * list msg_t) :=
  let '(h, ms) := st in
  let get i := default init (ms !! i) in
  match o with
  | OInit i => Ok (h, <[i := init]> ms)
  | OInitSize i n => let '(h', m, r) := init_size mem h n in Ok (h', <[i := or_init r m]> ms)
  | OInitData i p n f hint =>
      '(h', m, r) ← init_data mem h (Some p) n (Some f) hint; Ok (h', <[i := or_init r m]> ms)
  | OClose i => '(h', m, r) ← close h (get i); Ok (h', <[i := m]> ms)
  | OMove i j => '(h', d, s, r) ← move h (get i) (get j); Ok (h', <[i := d]> (<[j := s]> ms))
  | OCopy i j => '(h', d, s, r) ← copy h (get i) (get j); Ok (h', <[i := d]> (<[j := s]> ms))
  | OSetFlags i f => Ok (h, <[i := set_flags (get i) f]> ms)
  end.

Fixpoint exec_all (mem : Z -> bool) (os : list op) (st : heap * list msg_t) : result (heap * list msg_t) :=
  match os with
  | [] => Ok st
  | o :: os' => if op_ok st.2 o then exec mem o st ≫= exec_all mem os' else Stop AssertFailed
  end.

(** The calls of a program that keeps the discipline. *)
Fixpoint disciplined (mem : Z -> bool) (os : list op) (st : heap * list msg_t) : bool :=
  match os with
  | [] => true
  | o :: os' => op_ok st.2 o && match exec mem o st with Ok st' => disciplined mem os' st' | Stop _ => true end
  end.

Lemma has_flag_lor a b bit : has_flag (Z.lor a b) bit = has_flag a bit || has_flag b bit.
Proof.
  unfold has_flag. rewrite Z.land_lor_distr_l.
  destruct (Z.eqb_spec (Z.land a bit) 0) as [->|Ha], (Z.eqb_spec (Z.land b bit) 0) as [->|Hb]; cbn [negb orb]; try done.
  - rewrite Z.lor_0_l. by rewrite (proj2 (Z.eqb_neq _ _)).
  - rewrite Z.lor_0_r. by rewrite (proj2 (Z.eqb_neq _ _)).
  - rewrite (proj2 (Z.eqb_neq _ _)); [done|]. rewrite Z.lor_eq_0_iff. tauto.
Qed.


(** Changing other flags of a message. *)
Lemma owned_flags h ms i m f :
  owned h ms -> ms !! i = Some m -> has_flag f shared = false -> owned h (<[i := set_flags m f]> ms).
Proof.
  intros [Hb Hm Hf] Hi Hfl.
  assert (Hr : forall l, refs l (<[i := set_flags m f]> ms) = refs l ms).
  { intros l. pose proof (refs_insert l ms i m (set_flags m f) Hi) as Hri.
    change (points_to l (set_flags m f)) with (points_to l m) in Hri. lia. }
  split; [intros l c Hc; rewrite Hr; eauto| |by rewrite length_insert].
  intros x l Hx Hl. rewrite Hr. apply elem_of_insert in Hx as [->|Hx]; [|eauto].
  cbn [flags set_flags]. rewrite has_flag_lor, Hfl, orb_false_r. apply (Hm m l); [by apply list_elem_of_lookup_2 in Hi|done].
Qed.

Lemma init_size_owned mem h ms i m n :
  owned h ms -> ms !! i = Some m -> is_lmsg m = false ->
  let '(h', m', r) := init_size mem h n in owned h' (<[i := or_init r m']> ms).
Proof.
  intros Hown Hi Hn. unfold init_size. destruct (n <=? max_vsm_size); [by apply (owned_replace h ms i m)|].
  cbv zeta. destruct (mem _); [|by apply (owned_replace h ms i m)].
  match goal with |- context [alloc h ?c] => exact (owned_alloc h ms i m c Hown Hi Hn) end.
Qed.

Lemma exec_move_owned mem i j h ms :
  owned h ms -> op_ok ms (OMove i j) = true ->
  exists h' ms', exec mem (OMove i j) (h, ms) = Ok (h', ms') /\ owned h' ms' /\ length ms' = length ms.
Proof.
  intros Hown Hok. unfold op_ok in Hok.
  destruct (ms !! i) as [d|] eqn:Hi; [|done]. destruct (ms !! j) as [src|] eqn:Hj; [|by rewrite andb_false_r in Hok].
  apply andb_true_iff in Hok as [[Hd Hs]%andb_true_iff Hij%negb_true_iff%Nat.eqb_neq].
  destruct (close_owned h ms i d Hown Hi Hd) as (h' & Hcl & Ho). unfold exec, move. cbv zeta beta. rewrite Hi, Hj. cbn [default from_option id]. rewrite Hs. cbn [negb].
  rewrite Hcl. cbn [mbind result_bind]. eexists _, _. split; [reflexivity|]. split; [|by rewrite !length_insert].
  pose proof (move_owned h' _ i j _ src Ho (list_lookup_insert_eq _ _ _ (lookup_lt_Some _ _ _ Hi)) eq_refl) as Hmv.
  rewrite list_lookup_insert_ne in Hmv by done. specialize (Hmv Hj Hij).
  by rewrite (list_insert_insert_ne ms), list_insert_insert_eq in Hmv by done.
Qed.

Lemma exec_copy_owned mem i j h ms :
  owned h ms -> op_ok ms (OCopy i j) = true ->
  exists h' ms', exec mem (OCopy i j) (h, ms) = Ok (h', ms') /\ owned h' ms' /\ length ms' = length ms.
Proof.
  intros Hown Hok. unfold op_ok in Hok.
  destruct (ms !! i) as [d|] eqn:Hi; [|done]. destruct (ms !! j) as [src|] eqn:Hj; [|by rewrite andb_false_r in Hok].
  apply andb_true_iff in Hok as [[Hd Hs]%andb_true_iff Hij%negb_true_iff%Nat.eqb_neq].
  destruct (close_owned h ms i d Hown Hi Hd) as (h' & Hcl & Ho). unfold exec, copy. cbv zeta beta. rewrite Hi, Hj. cbn [default from_option id]. rewrite Hs. cbn [negb].
  rewrite Hcl. cbn [mbind result_bind]. set (ms1 := <[i := {| u := closed; flags := flags d |}]> ms) in *.
  assert (Hj1 : ms1 !! j = Some src) by (unfold ms1; by rewrite list_lookup_insert_ne).
  assert (Hi1 : ms1 !! i = Some {| u := closed; flags := flags d |}) by (apply list_lookup_insert_eq; by eapply lookup_lt_Some).
  assert (Hms : forall x, <[i := x]> (<[j := x]> ms1) = <[i := x]> (<[j := x]> ms)).
  { intros x. unfold ms1. by rewrite (list_insert_insert_ne ms), list_insert_insert_eq by done. }
  destruct (is_lmsg src) eqn:Hl.
  + unfold is_lmsg in Hl. destruct (u src) as [| |l| |] eqn:Hu; try done.
    pose proof (list_elem_of_lookup_2 _ _ _ Hj1) as Hin. destruct (ow_msgs h' ms1 Ho src l Hin Hu) as (c & Hc & Hsh).
    unfold get_refcnt, set_refcnt. rewrite Hc. cbn [mbind result_bind]. destruct (has_flag (flags src) shared) eqn:Hfl.
    * cbn [mbind result_bind fst snd]. eexists _, _. split; [reflexivity|]. split; [|by rewrite !length_insert].
      rewrite <- Hms, Hsh. by apply (share_owned h' ms1 i j _ src l Ho Hi1 eq_refl Hj1 Hij Hu c src).
    * cbn [mbind result_bind fst snd]. eexists _, _. split; [reflexivity|]. split; [|by rewrite !length_insert].
      rewrite <- Hms. replace 2 with (refs l ms1 + 1) by lia.
      apply (share_owned h' ms1 i j _ src l Ho Hi1 eq_refl Hj1 Hij Hu c); [done|done|].
      cbn [flags]. rewrite has_flag_lor. apply orb_true_r.
  + assert (Hcase : match u src with
      | lmsg l => if has_flag (flags src) shared then v ← get_refcnt h' l; h'0 ← set_refcnt h' l (v + 1); Ok (h'0, src)
                  else h'0 ← set_refcnt h' l 2; Ok (h'0, {| u := u src; flags := Z.lor (flags src) shared |})
      | _ => Ok (h', src) end = Ok (h', src)) by (unfold is_lmsg in Hl; by destruct (u src)).
    rewrite Hcase. cbn [mbind result_bind fst snd]. eexists _, _. split; [reflexivity|]. split; [|by rewrite !length_insert].
    rewrite <- Hms. apply (owned_replace _ _ i {| u := closed; flags := flags d |}); [|by rewrite list_lookup_insert_ne|done|done].
    by apply (owned_replace h' ms1 j src).
Qed.

Lemma exec_owned mem o h ms :
  owned h ms -> op_ok ms o = true -> exists h' ms', exec mem o (h, ms) = Ok (h', ms') /\ owned h' ms' /\ length ms' = length ms.
Proof.
  intros Hown Hok. destruct o as [i|i n|i p n f hint|i|i j|i j|i f]; unfold op_ok in Hok.
  - destruct (ms !! i) as [m|] eqn:Hi; [|done]. eexists _, _. split; [reflexivity|].
    split; [|by rewrite length_insert]. apply (owned_replace h ms i m); [done|done|by apply negb_true_iff|done].
  - destruct (ms !! i) as [m|] eqn:Hi; [|done]. apply negb_true_iff in Hok.
    pose proof (init_size_owned mem h ms i m n Hown Hi Hok) as Ho. unfold exec.
    destruct (init_size mem h n) as [[h' m'] r]. eexists _, _. split; [reflexivity|]. split; [done|by rewrite length_insert].
  - destruct (ms !! i) as [m|] eqn:Hi; [|done]. apply negb_true_iff in Hok. unfold exec, init_data. cbn [afs_assert mbind result_bind].
    cbv zeta. destruct (mem sizeof_content); (eexists _, _; split; [reflexivity|]; split; [|by rewrite length_insert]).
    + apply (owned_alloc h ms i m); done.
    + by apply (owned_replace h ms i m).
  - destruct (ms !! i) as [m|] eqn:Hi; [|done]. destruct (close_owned h ms i m Hown Hi Hok) as (h' & Hcl & Ho).
    unfold exec. cbv zeta beta. rewrite Hi. cbn [default from_option id]. rewrite Hcl. cbn [mbind result_bind]. eexists _, _. split; [reflexivity|].
    split; [done|by rewrite length_insert].
  - by apply exec_move_owned.
  - by apply exec_copy_owned.
  - destruct (ms !! i) as [m|] eqn:Hi; [|done]. apply andb_true_iff in Hok as [[_ Hfl%negb_true_iff]%andb_true_iff _].
    unfold exec. cbv zeta beta. rewrite Hi. cbn [default from_option id]. eexists _, _. split; [reflexivity|]. split; [by apply owned_flags|by rewrite length_insert].
Qed.

Lemma owned_start n : Z.of_nat n < 2 ^ 32 -> owned {| blocks := ∅; next_addr := 1; ffn_calls := [] |} (replicate n init).
Proof.
  intros Hn. split; [by intros l c Hc| |by rewrite length_replicate].
  intros m l Hm Hl. apply elem_of_replicate in Hm as [-> _]. done.
Qed.

Lemma exec_all_owned mem os h ms :
  owned h ms -> disciplined mem os (h, ms) = true ->
  exists h' ms', exec_all mem os (h, ms) = Ok (h', ms') /\ owned h' ms'.
Proof.
  revert h ms. induction os as [|o os IH]; intros h ms Hown Hd; [by eexists _, _|].
  cbn [disciplined snd] in Hd. apply andb_true_iff in Hd as [Hok Hd]. destruct (exec_owned mem o h ms Hown Hok) as (h1 & ms1 & He & Ho & _).
  rewrite He in Hd. destruct (IH h1 ms1 Ho Hd) as (h' & ms' & Hall & Ho'). exists h', ms'. split; [|done].
  cbn [exec_all snd]. rewrite Hok, He. done.
Qed.

(** C26 The ownership of message blocks is sound: a program that keeps the
    interface's discipline never touches a freed or null block (no call stops),
    and when none of its messages is long any more, every block has been freed.
    This covers sharing by [copy], hand-over by [move] and failing
    allocations. *)
Theorem messages_never_leak_or_dangle (mem : Z -> bool) (os : list op) (n : nat) :
  Z.of_nat n < 2 ^ 32 ->
  let st := ({| blocks := ∅; next_addr := 1; ffn_calls := [] |}, replicate n init) in
  disciplined mem os st = true ->
  exists h' ms', exec_all mem os st = Ok (h', ms') /\ owned h' ms' /\
    (Forall (fun m => is_lmsg m = false) ms' -> blocks h' = ∅).
Proof.
  intros Hn st Hd. destruct (exec_all_owned mem os _ _ (owned_start n Hn) Hd) as (h' & ms' & He & Ho).
  exists h', ms'. split; [done|]. split; [done|]. intros HF. apply map_empty. intros l.
  destruct (blocks h' !! l) as [c|] eqn:Hc; [|done]. destruct (ow_blocks h' ms' Ho l c Hc) as [_ Hr]. exfalso.
  assert (refs l ms' = 0); [|lia]. clear -HF. induction HF as [|m ms Hm _ IH]; [done|].
  cbn. rewrite (not_lmsg_points l m Hm). done.
Qed.

(** A copy of a long message, a move and the closes. *)
Definition sample_ops : list op :=
  [OInitSize 0 100; OCopy 1 0; OInitData 2 4096 64 7 5; OMove 3 1; OCopy 1 2; OSetFlags 3 1;
   OClose 0; OClose 2; OClose 3; OClose 1].

Lemma messages_never_leak_or_dangle_witness :
  let st := ({| blocks := ∅; next_addr := 1; ffn_calls := [] |}, replicate 4 init) in
  exists h' ms', exec_all (fun _ => true) sample_ops st = Ok (h', ms') /\ owned h' ms' /\
    (Forall (fun m => is_lmsg m = false) ms' -> blocks h' = ∅).
Proof. apply (messages_never_leak_or_dangle (fun _ => true) sample_ops 4); [lia|by vm_compute]. Defined.

(** In that program every block is freed and the caller's function runs once. *)
Example sample_ops_free :
  match exec_all (fun _ => true) sample_ops ({| blocks := ∅; next_addr := 1; ffn_calls := [] |}, replicate 4 init) with
  | Ok (h, _) => bool_decide (blocks h = ∅) && bool_decide (ffn_calls h = [(7, PUser 4096, 5)])
  | Stop _ => false
  end = true.
Proof. by vm_compute. Qed.

End Msg.
