(* ===== verification/Codec.v ===== *)
(** The wire format of the network layer: integers in network byte order
    (src/net/wire.hpp), the ZMTP 2.0 frame encoder (src/net/encoder.hpp,
    v2_encoder.cpp) and decoder (src/net/decoder.hpp, v2_decoder.cpp).  Both are
    resumable state machines over buffers of any size; the theorems say that
    whatever the buffer sizes and the sizes of the reads, the bytes on the wire
    are the frames of the messages and the messages decoded are the messages
    encoded. *)
From stdpp Require Import base numbers list gmap.
From Stdlib Require Import ZArith Lia.
From S2P Require Import Prelude Msg.

(** ** Integers on the wire *)

Module Wire.

(** The byte of [value] that lies [s] bits up. *)
Definition byte_at (value s : Z) : Z := u8 (Z.land (Z.shiftr value s) 255).

Definition put_uint8 (value : Z) : list Z := [u8 value].
Definition put_uint16 (value : Z) : list Z := [byte_at value 8; byte_at value 0].
Definition put_uint32 (value : Z) : list Z :=
  [byte_at value 24; byte_at value 16; byte_at value 8; byte_at value 0].
Definition put_uint64 (value : Z) : list Z :=
  [byte_at value 56; byte_at value 48; byte_at value 40; byte_at value 32;
   byte_at value 24; byte_at value 16; byte_at value 8; byte_at value 0].

(** Byte [i] of the buffer, moved [s] bits up in a [w]-bit integer. *)
Definition field (w : Z) (buffer_ : list Z) (i : nat) (s : Z) : Z :=
  unsigned_of w (Z.shiftl (nth i buffer_ 0) s).

Definition get_uint8 (buffer_ : list Z) : Z := nth 0 buffer_ 0.
Definition get_uint16 (b : list Z) : Z := u16 (Z.lor (Z.shiftl (nth 0 b 0) 8) (nth 1 b 0)).
Definition get_uint32 (b : list Z) : Z :=
  Z.lor (Z.lor (Z.lor (field 32 b 0 24) (field 32 b 1 16)) (field 32 b 2 8)) (nth 3 b 0).
Definition get_uint64 (b : list Z) : Z :=
  Z.lor (Z.lor (Z.lor (Z.lor (Z.lor (Z.lor (Z.lor (field 64 b 0 56) (field 64 b 1 48)) (field 64 b 2 40))
    (field 64 b 3 32)) (field 64 b 4 24)) (field 64 b 5 16)) (field 64 b 6 8)) (nth 7 b 0).

Lemma byte_at_div value s : 0 <= s -> byte_at value s = value / 2 ^ s mod 256.
Proof.
  intros Hs. unfold byte_at, unsigned_of. change 255 with (Z.ones 8). rewrite Z.land_ones, Zmod_mod by lia.
  by rewrite Z.shiftr_div_pow2.
Qed.

Lemma byte_at_range value s : 0 <= byte_at value s < 256.
Proof. unfold byte_at, unsigned_of. apply Z.mod_pos_bound. lia. Qed.

(** Adding the next byte below a number that ends in [k + 8] zero bits. *)
Lemma lor_byte hi x s : 0 <= s -> 0 <= x < 256 -> Z.lor (hi * 2 ^ (s + 8)) (x * 2 ^ s) = (hi * 256 + x) * 2 ^ s.
Proof.
  intros Hs Hx. rewrite <- (Z.shiftl_mul_pow2 hi) by lia. rewrite lor_shiftl_add; [|lia|].
  - rewrite Z.pow_add_r by lia. change (2 ^ 8) with 256. ring.
  - rewrite Z.pow_add_r by lia. change (2 ^ 8) with 256. pose proof (Z.pow_pos_nonneg 2 s). nia.
Qed.

Lemma field_small w b i s x :
  nth i b 0 = x -> 0 <= x < 256 -> 0 <= s -> s + 8 <= w -> field w b i s = x * 2 ^ s.
Proof.
  intros <- Hx Hs Hw. unfold field. rewrite Z.shiftl_mul_pow2 by lia. apply unsigned_of_small. split; [nia|].
  assert (2 ^ (s + 8) <= 2 ^ w) by (apply Z.pow_le_mono_r; lia). rewrite Z.pow_add_r in * by lia.
  change (2 ^ 8) with 256 in *. pose proof (Z.pow_pos_nonneg 2 s). nia.
Qed.

(** The bytes of a number, most significant first. *)
Lemma div_step v s : 0 <= s -> (v / 2 ^ (s + 8)) * 256 + v / 2 ^ s mod 256 = v / 2 ^ s.
Proof.
  intros Hs. rewrite Z.pow_add_r, <- Z.div_div by lia. change (2 ^ 8) with 256.
  pose proof (Z.div_mod (v / 2 ^ s) 256). lia.
Qed.

Lemma lor_next v s x : 0 <= s -> x = byte_at v s ->
  Z.lor (v / 2 ^ (s + 8) * 2 ^ (s + 8)) (x * 2 ^ s) = v / 2 ^ s * 2 ^ s.
Proof.
  intros Hs ->. rewrite lor_byte by (try lia; apply byte_at_range). rewrite byte_at_div by lia. by rewrite div_step.
Qed.

Lemma top_byte v s : 0 <= s -> 0 <= v < 2 ^ (s + 8) -> byte_at v s * 2 ^ s = v / 2 ^ s * 2 ^ s.
Proof.
  intros Hs Hv. rewrite byte_at_div by lia. f_equal. apply Z.mod_small. rewrite Z.pow_add_r in Hv by lia.
  change (2 ^ 8) with 256 in Hv. pose proof (Z.pow_pos_nonneg 2 s). split; [apply Z.div_pos; lia|].
  apply Z.div_lt_upper_bound; lia.
Qed.

Ltac wire_bytes w v :=
  repeat match goal with
  | |- context [field w ?b ?i ?s] => rewrite (field_small w b i s (byte_at v s)) by (try apply byte_at_range; done)
  end.

Lemma get_put_uint64 v rest : in_unsigned 64 v -> get_uint64 (put_uint64 v ++ rest) = v.
Proof.
  intros Hv. unfold get_uint64, put_uint64. wire_bytes 64 v. cbn [nth app].
  rewrite (top_byte v 56) by (try lia; exact Hv).
  change 56 with (48 + 8). rewrite (lor_next v 48) by (try lia; done).
  change 48 with (40 + 8). rewrite (lor_next v 40) by (try lia; done).
  change 40 with (32 + 8). rewrite (lor_next v 32) by (try lia; done).
  change 32 with (24 + 8). rewrite (lor_next v 24) by (try lia; done).
  change 24 with (16 + 8). rewrite (lor_next v 16) by (try lia; done).
  change 16 with (8 + 8). rewrite (lor_next v 8) by (try lia; done).
  change 8 with (0 + 8). replace (byte_at v 0) with (byte_at v 0 * 2 ^ 0) by lia.
  rewrite (lor_next v 0) by (try lia; done). by rewrite Z.div_1_r, Z.mul_1_r.
Qed.

Lemma get_put_uint32 v rest : in_unsigned 32 v -> get_uint32 (put_uint32 v ++ rest) = v.
Proof.
  intros Hv. unfold get_uint32, put_uint32. wire_bytes 32 v. cbn [nth app].
  rewrite (top_byte v 24) by (try lia; exact Hv).
  change 24 with (16 + 8). rewrite (lor_next v 16) by (try lia; done).
  change 16 with (8 + 8). rewrite (lor_next v 8) by (try lia; done).
  change 8 with (0 + 8). replace (byte_at v 0) with (byte_at v 0 * 2 ^ 0) by lia.
  rewrite (lor_next v 0) by (try lia; done). by rewrite Z.div_1_r, Z.mul_1_r.
Qed.

Lemma get_put_uint16 v rest : in_unsigned 16 v -> get_uint16 (put_uint16 v ++ rest) = v.
Proof.
  intros Hv. unfold get_uint16, put_uint16. cbn [nth app]. rewrite Z.shiftl_mul_pow2 by lia.
  rewrite (top_byte v 8) by (try lia; exact Hv). change 8 with (0 + 8).
  replace (byte_at v 0) with (byte_at v 0 * 2 ^ 0) by lia. rewrite (lor_next v 0) by (try lia; done).
  rewrite Z.div_1_r, Z.mul_1_r. by apply unsigned_of_small.
Qed.

(** Integers survive the wire: each [put] writes bytes, most significant
    first, that the matching [get] turns back into the same 8-, 16-, 32- or
    64-bit value, whatever follows in the buffer. *)
Theorem wire_roundtrip (v : Z) (rest : list Z) :
  get_uint8 (put_uint8 (u8 v) ++ rest) = u8 v /\ get_uint16 (put_uint16 (u16 v) ++ rest) = u16 v /\
  get_uint32 (put_uint32 (u32 v) ++ rest) = u32 v /\ get_uint64 (put_uint64 (u64 v) ++ rest) = u64 v /\
  Forall is_byte (put_uint64 v).
Proof.
  split; [apply unsigned_of_idemp|]. split; [apply get_put_uint16, unsigned_of_range; lia|].
  split; [apply get_put_uint32, unsigned_of_range; lia|]. split; [apply get_put_uint64, unsigned_of_range; lia|].
  unfold put_uint64. repeat constructor; apply byte_at_range.
Qed.

End Wire.

(** ** Frames *)

Module Frame.
Import Wire Msg.

Definition more_flag : Z := 1.
Definition large_flag : Z := 2.
Definition command_flag : Z := 4.

(** The bytes of a message's body; writing at an offset of [data ()]. *)
Definition body_of (h : heap) (m : msg_t) : result (list Z) :=
  match u m with
  | vsm d n => mem_read d 0 n
  | lmsg l => match blocks h !! l with Some c => mem_read (payload c) 0 (c_size c) | None => Stop NullDeref end
  | _ => Stop AssertFailed
  end.

Definition set_payload (c : content_t) (p : list Z) : content_t :=
  {| c_data := c_data c; c_size := c_size c; c_ffn := c_ffn c; c_hint := c_hint c; c_refcnt := c_refcnt c; payload := p |}.

Definition store_body (h : heap) (m : msg_t) (off : Z) (bytes : list Z) : result (heap * msg_t) :=
  match u m with
  | vsm d n => d' ← mem_write d off bytes; Ok (h, {| u := vsm d' n; flags := flags m |})
  | lmsg l =>
      match blocks h !! l with
      | Some c =>
          p' ← mem_write (payload c) off bytes;
          Ok ({| blocks := <[l := set_payload c p']> (blocks h); next_addr := next_addr h; ffn_calls := ffn_calls h |}, m)
      | None => Stop NullDeref
      end
  | _ => Stop NullDeref
  end.

(** *** The decoder *)

Inductive dstep := flags_ready | one_byte_size_ready | eight_byte_size_ready | message_ready.

(** Where [read_pos] points. *)
Inductive dpos := AtTmp (off : Z) | AtMsg (off : Z).

Record v2_decoder := mkdecoder {
  tmpbuf : list Z;      (* 8 bytes *)
  msg_flags : Z;
  in_progress : msg_t;
  maxmsgsize : Z;       (* int64_t *)
  next : dstep;
  read_pos : dpos;
  to_read : Z;          (* size_t *)
  bufsize : Z           (* size_t *)
}.

(** What a step and [decode] return: 0, 1 or -1 with [errno]. *)
Inductive drc := DMore | DMsg | DErr (e : errno).

#[global] Instance drc_eq_dec : EqDecision drc.
Proof. solve_decision. Defined.

Definition next_step (d : v2_decoder) (pos : dpos) (n : Z) (s : dstep) : v2_decoder :=
  {| tmpbuf := tmpbuf d; msg_flags := msg_flags d; in_progress := in_progress d; maxmsgsize := maxmsgsize d;
     next := s; read_pos := pos; to_read := n; bufsize := bufsize d |}.

Definition set_msg_flags (d : v2_decoder) (f : Z) : v2_decoder :=
  {| tmpbuf := tmpbuf d; msg_flags := f; in_progress := in_progress d; maxmsgsize := maxmsgsize d;
     next := next d; read_pos := read_pos d; to_read := to_read d; bufsize := bufsize d |}.

Definition set_in_progress (d : v2_decoder) (m : msg_t) : v2_decoder :=
  {| tmpbuf := tmpbuf d; msg_flags := msg_flags d; in_progress := m; maxmsgsize := maxmsgsize d;
     next := next d; read_pos := read_pos d; to_read := to_read d; bufsize := bufsize d |}.

Definition set_tmpbuf (d : v2_decoder) (t : list Z) : v2_decoder :=
  {| tmpbuf := t; msg_flags := msg_flags d; in_progress := in_progress d; maxmsgsize := maxmsgsize d;
     next := next d; read_pos := read_pos d; to_read := to_read d; bufsize := bufsize d |}.

Definition new_v2_decoder (bufsize_ maxmsgsize_ : Z) : v2_decoder :=
  {| tmpbuf := replicate 8 0; msg_flags := 0; in_progress := init; maxmsgsize := maxmsgsize_;
     next := flags_ready; read_pos := AtTmp 0; to_read := 1; bufsize := bufsize_ |}.

Definition step_flags (d : v2_decoder) : v2_decoder :=
  let b := nth 0 (tmpbuf d) 0 in
  let f0 := if has_flag b more_flag then more else 0 in
  let f1 := if has_flag b command_flag then Z.lor f0 command else f0 in
  let d := set_msg_flags d f1 in
  if has_flag b large_flag then next_step d (AtTmp 0) 8 eight_byte_size_ready
  else next_step d (AtTmp 0) 1 one_byte_size_ready.

(** The common part of the two size steps: the message of that size.  The one in
    [in_progress] is not closed first. *)
Definition start_message (mem : Z -> bool) (d : v2_decoder) (h : heap) (size_ : Z)
    : result (v2_decoder * heap * drc) :=
  let '(h', m, r) := init_size mem h size_ in
  match r with
  | RCErr e =>
      _ ← afs_assert (bool_decide (e = ENOMEM));
      Ok (set_in_progress d init, h', DErr ENOMEM)
  | RC0 =>
      let m := set_flags m (msg_flags d) in
      n ← size h' m;
      Ok (next_step (set_in_progress d m) (AtMsg 0) n message_ready, h', DMore)
  end.

Definition step_one_byte (mem : Z -> bool) (d : v2_decoder) (h : heap) : result (v2_decoder * heap * drc) :=
  let b := nth 0 (tmpbuf d) 0 in
  if (0 <=? maxmsgsize d) && (u64 (maxmsgsize d) <? b) then Ok (d, h, DErr EMSGSIZE)
  else start_message mem d h b.

Definition step_eight_byte (mem : Z -> bool) (d : v2_decoder) (h : heap) : result (v2_decoder * heap * drc) :=
  let msg_size := get_uint64 (tmpbuf d) in
  if (0 <=? maxmsgsize d) && (u64 (maxmsgsize d) <? msg_size) then Ok (d, h, DErr EMSGSIZE)
  else if negb (msg_size =? u64 msg_size) then Ok (d, h, DErr EMSGSIZE)
  else start_message mem d h msg_size.

(** [(this->*next) ()]. *)
Definition run_next (mem : Z -> bool) (d : v2_decoder) (h : heap) : result (v2_decoder * heap * drc) :=
  match next d with
  | flags_ready => Ok (step_flags d, h, DMore)
  | one_byte_size_ready => step_one_byte mem d h
  | eight_byte_size_ready => step_eight_byte mem d h
  | message_ready => Ok (next_step d (AtTmp 0) 1 flags_ready, h, DMsg)
  end.

(** [while (!to_read) { rc = next (); if (rc) return rc; }], at most [fuel]
    turns. *)
Fixpoint drive (mem : Z -> bool) (fuel : nat) (d : v2_decoder) (h : heap) : result (v2_decoder * heap * drc) :=
  if negb (to_read d =? 0) then Ok (d, h, DMore)
  else match fuel with
  | O => Stop WouldBlock
  | S fuel' =>
      '(d', h', r) ← run_next mem d h;
      match r : drc with DMore => drive mem fuel' d' h' | _ => Ok (d', h', r) end
  end.

(** [memcpy (read_pos, bytes)]. *)
Definition store (d : v2_decoder) (h : heap) (bytes : list Z) : result (v2_decoder * heap) :=
  match read_pos d with
  | AtTmp off => t ← mem_write (tmpbuf d) off bytes; Ok (set_tmpbuf d t, h)
  | AtMsg off => '(h', m) ← store_body h (in_progress d) off bytes; Ok (set_in_progress d m, h')
  end.

(** [read_pos += n; to_read -= n]. *)
Definition advance (d : v2_decoder) (n : Z) : v2_decoder :=
  next_step d (match read_pos d with AtTmp o => AtTmp (o + n) | AtMsg o => AtMsg (o + n) end) (to_read d - n) (next d).

(** [get_buffer]: the message itself for a large read, the decoder's buffer
    otherwise; and how much may be read. *)
Definition get_buffer (d : v2_decoder) : bool * Z :=
  if bufsize d <=? to_read d then (true, to_read d) else (false, bufsize d).

(** [decode] on [size_] bytes that already are at [read_pos]. *)
Definition decode_in_place (mem : Z -> bool) (d : v2_decoder) (h : heap) (size_ : Z)
    : result (v2_decoder * heap * drc) :=
  _ ← afs_assert (size_ <=? to_read d);
  drive mem 4 (advance d size_) h.

(** [decode] on bytes in another buffer: the bytes used and the return value. *)
Fixpoint decode_loop (mem : Z -> bool) (fuel : nat) (d : v2_decoder) (h : heap) (bytes : list Z) (used : Z)
    : result (v2_decoder * heap * drc * Z) :=
  match bytes with
  | [] => Ok (d, h, DMore, used)
  | _ =>
      match fuel with
      | O => Stop WouldBlock
      | S fuel' =>
          let to_copy := Z.min (to_read d) (Z.of_nat (length bytes)) in
          '(d1, h1) ← store d h (take (Z.to_nat to_copy) bytes);
          '(d2, h2, r) ← drive mem 4 (advance d1 to_copy) h1;
          match r : drc with
          | DMore => decode_loop mem fuel' d2 h2 (drop (Z.to_nat to_copy) bytes) (used + to_copy)
          | _ => Ok (d2, h2, r, used + to_copy)
          end
      end
  end.

Definition decode (mem : Z -> bool) (d : v2_decoder) (h : heap) (bytes : list Z) : result (v2_decoder * heap * drc * Z) :=
  decode_loop mem (length bytes) d h bytes 0.

(** The input loop of the engine: decode the bytes read, deliver each message,
    stop at an error. *)
Fixpoint consume (mem : Z -> bool) (fuel : nat) (d : v2_decoder) (h : heap) (bytes : list Z) (out : list (Z * list Z))
    : result (v2_decoder * heap * list (Z * list Z) * option errno) :=
  match bytes with
  | [] => Ok (d, h, out, None)
  | _ =>
      match fuel with
      | O => Stop WouldBlock
      | S fuel' =>
          '(d', h', r, used) ← decode mem d h bytes;
          match r : drc with
          | DMore => Ok (d', h', out, None)
          | DErr e => Ok (d', h', out, Some e)
          | DMsg =>
              b ← body_of h' (in_progress d');
              consume mem fuel' d' h' (drop (Z.to_nat used) bytes) (out ++ [(flags (in_progress d'), b)])
          end
      end
  end.

(** One readable event: [get_buffer], a [recv] that returns [bytes], and the
    loop. *)
Definition feed (mem : Z -> bool) (d : v2_decoder) (h : heap) (bytes : list Z) (out : list (Z * list Z))
    : result (v2_decoder * heap * list (Z * list Z) * option errno) :=
  if (get_buffer d).1 then
    '(d1, h1) ← store d h bytes;
    '(d2, h2, r) ← decode_in_place mem d1 h1 (Z.of_nat (length bytes));
    match r : drc with
    | DMore => Ok (d2, h2, out, None)
    | DErr e => Ok (d2, h2, out, Some e)
    | DMsg => b ← body_of h2 (in_progress d2); Ok (d2, h2, out ++ [(flags (in_progress d2), b)], None)
    end
  else consume mem (length bytes) d h bytes out.

(** The frame of a message with the flags [f] and the body [b]. *)
Definition header (f : Z) (n : Z) : list Z :=
  let p := Z.lor (Z.lor (if has_flag f more then more_flag else 0) (if 255 <? n then large_flag else 0))
                 (if has_flag f command then command_flag else 0) in
  p :: (if 255 <? n then put_uint64 n else [u8 n]).

Definition frame (f : Z) (b : list Z) : list Z := header f (Z.of_nat (length b)) ++ b.

Example frame_decodes :
  consume (fun _ => true) 20 (new_v2_decoder 8192 (-1)) {| blocks := ∅; next_addr := 1; ffn_calls := [] |}
    (frame 1 [10; 20; 30] ++ frame 0 [] ++ frame 2 (replicate 300 5) ++ [1; 2]) []
  = Ok (set_tmpbuf (set_msg_flags (set_in_progress (next_step (new_v2_decoder 8192 (-1)) (AtMsg 0) 2 message_ready)
          {| u := vsm (replicate 29 0) 2; flags := 1 |}) 1) (2 :: drop 1 (put_uint64 300)),
        {| blocks := {[1 := {| c_data := PContent 1; c_size := 300; c_ffn := None; c_hint := 0; c_refcnt := 0;
                               payload := replicate 300 5 |}]}; next_addr := 2; ffn_calls := [] |},
        [(1, [10; 20; 30]); (0, []); (2, replicate 300 5)], None).
Proof. vm_compute. reflexivity. Qed.


(** *** A field of the frame being read *)

(** The memory a message's body may be written to. *)
Definition body_buf (h : heap) (m : msg_t) : option (list Z) :=
  match u m with
  | vsm d _ => Some d
  | lmsg l => payload <$> blocks h !! l
  | _ => None
  end.

(** The first [i] bytes of [fld] have been read to where [read_pos] points, and
    [to_read] says how many are missing. *)
Definition in_field (d : v2_decoder) (h : heap) (fld : list Z) (i : nat) : Prop :=
  (i <= length fld)%nat /\ to_read d = Z.of_nat (length fld) - Z.of_nat i /\
  match read_pos d with
  | AtTmp o => o = Z.of_nat i /\ (length fld <= length (tmpbuf d))%nat /\ take i (tmpbuf d) = take i fld
  | AtMsg o => o = Z.of_nat i /\ exists buf, body_buf h (in_progress d) = Some buf /\
      (length fld <= length buf)%nat /\ take i buf = take i fld
  end.

(** What reading into a field leaves alone. *)
Record same_ctx (d d' : v2_decoder) (h h' : heap) : Prop := {
  sc_next : next d' = next d;
  sc_flags : msg_flags d' = msg_flags d;
  sc_max : maxmsgsize d' = maxmsgsize d;
  sc_buf : bufsize d' = bufsize d;
  sc_tmp : length (tmpbuf d') = length (tmpbuf d);
  sc_mflags : flags (in_progress d') = flags (in_progress d);
  sc_msize : size h' (in_progress d') = size h (in_progress d);
  sc_dom : dom (blocks h') = dom (blocks h);
  sc_addr : next_addr h' = next_addr h
}.

Lemma take_write (buf bytes fld : list Z) (i n : nat) :
  (length fld <= length buf)%nat -> (i + n <= length fld)%nat -> take i buf = take i fld ->
  bytes = take n (drop i fld) ->
  take (i + n) (take i buf ++ bytes ++ drop (i + length bytes) buf) = take (i + n) fld.
Proof.
  intros Hb Hin Ht ->. assert (Hl : length (take n (drop i fld)) = n) by (rewrite length_take, length_drop; lia).
  rewrite app_assoc, take_app_length'; [|rewrite length_app, Hl, length_take; lia].
  rewrite Ht. by rewrite take_take_drop.
Qed.

Lemma store_field d h fld i n bytes :
  in_field d h fld i -> (i + n <= length fld)%nat -> bytes = take n (drop i fld) ->
  exists d1 h1, store d h bytes = Ok (d1, h1) /\ in_field (advance d1 (Z.of_nat n)) h1 fld (i + n) /\
    same_ctx d d1 h h1 /\ to_read d1 = to_read d.
Proof.
  intros (Hi & Hr & Hpos) Hn Hbytes. unfold store.
  assert (Hl : length bytes = n) by (subst; rewrite length_take, length_drop; lia).
  destruct (read_pos d) as [o|o] eqn:Hrp.
  - destruct Hpos as (-> & Hlen & Htake). rewrite mem_write_ok by lia. cbn [mbind result_bind].
    eexists _, h. split; [reflexivity|]. rewrite Nat2Z.id. split; [|split; [|done]].
    + unfold in_field, advance. cbn [to_read read_pos next_step set_tmpbuf tmpbuf]. rewrite Hrp.
      split; [lia|]. split; [lia|]. split; [lia|]. split; [rewrite !length_app, length_take, length_drop; lia|].
      by apply take_write.
    + split; cbn; try done. rewrite !length_app, length_take, length_drop. lia.
  - destruct Hpos as (-> & buf & Hbuf & Hlen & Htake). unfold store_body, body_buf in *.
    destruct (u (in_progress d)) as [|vd vn|l| |p pn] eqn:Hu; try done.
    + injection Hbuf as ->. rewrite mem_write_ok by lia. cbn [mbind result_bind]. eexists _, h. split; [reflexivity|].
      rewrite Nat2Z.id. split; [|split; [|done]].
      * unfold in_field, advance. cbn [to_read read_pos next_step set_in_progress in_progress]. rewrite Hrp.
        split; [lia|]. split; [lia|]. split; [lia|]. eexists. split; [reflexivity|].
        split; [rewrite !length_app, length_take, length_drop; lia|]. by apply take_write.
      * split; cbn; try done. unfold size. cbn [u]. by rewrite Hu.
    + destruct (blocks h !! l) as [c|] eqn:Hc; [|done]. cbn in Hbuf. injection Hbuf as Hbuf. rewrite Hbuf.
      rewrite mem_write_ok by lia. cbn [mbind result_bind]. eexists _, _. split; [reflexivity|].
      rewrite Nat2Z.id. split; [|split; [|done]].
      * unfold in_field, advance. cbn [to_read read_pos next_step set_in_progress in_progress]. rewrite Hrp.
        split; [lia|]. split; [lia|]. split; [lia|]. unfold body_buf. rewrite Hu. cbn [blocks]. rewrite lookup_insert_eq.
        eexists. split; [reflexivity|]. cbn [payload set_payload].
        split; [rewrite !length_app, length_take, length_drop; lia|]. by apply take_write.
      * split; cbn; try done.
        -- unfold size. rewrite Hu. cbn [blocks]. by rewrite lookup_insert_eq, Hc.
        -- rewrite dom_insert_L. apply subseteq_union_1_L. apply singleton_subseteq_l. by apply elem_of_dom_2 in Hc.
Qed.


(** *** Decoding one message *)

(** Blocks are below the next address. *)
Definition heap_wf (h : heap) : Prop := forall l, l ∈ dom (blocks h) -> l < next_addr h.

(** A message the protocol can carry and the decoder accepts. *)
Record valid_msg (mem : Z -> bool) (mx : Z) (f : Z) (b : list Z) : Prop := {
  vm_flags : 0 <= f < 4;
  vm_size : sizeof_content + Z.of_nat (length b) < 2 ^ 64;
  vm_max : mx < 0 \/ Z.of_nat (length b) <= mx < 2 ^ 63;
  vm_mem : mem (sizeof_content + Z.of_nat (length b)) = true
}.

Section OneMessage.
Context (mem : Z -> bool) (mx bs : Z) (f : Z) (b : list Z) (doms : gset Z).
Hypothesis Hvalid : valid_msg mem mx f b.

Definition flag_byte : Z :=
  Z.lor (Z.lor (if has_flag f more then more_flag else 0) (if 255 <? Z.of_nat (length b) then large_flag else 0))
        (if has_flag f command then command_flag else 0).

Definition len_bytes : list Z :=
  if 255 <? Z.of_nat (length b) then put_uint64 (Z.of_nat (length b)) else [u8 (Z.of_nat (length b))].

Lemma frame_eq : frame f b = flag_byte :: len_bytes ++ b.
Proof. done. Qed.

Lemma flag_byte_bits :
  has_flag flag_byte large_flag = (255 <? Z.of_nat (length b)) /\
  (if has_flag flag_byte command_flag
   then Z.lor (if has_flag flag_byte more_flag then more else 0) command
   else if has_flag flag_byte more_flag then more else 0) = f.
Proof.
  destruct Hvalid as [Hf _ _ _]. unfold flag_byte.
  assert (f = 0 \/ f = 1 \/ f = 2 \/ f = 3) as [-> | [-> | [-> | ->]]] by lia;
    destruct (255 <? Z.of_nat (length b)); by vm_compute.
Qed.

(** The decoder between two messages. *)
Definition ready (d : v2_decoder) (h : heap) : Prop :=
  next d = flags_ready /\ read_pos d = AtTmp 0 /\ to_read d = 1 /\ length (tmpbuf d) = 8%nat /\
  maxmsgsize d = mx /\ bufsize d = bs /\ heap_wf h.

(** The blocks allocated once the size is known. *)
Definition grown (h : heap) : Prop :=
  if 29 <? Z.of_nat (length b) then (exists l, (l ∉ doms) /\ dom (blocks h) = doms ∪ {[l]}) else dom (blocks h) = doms.

(** The decoder inside the message: [rest] are the bytes of its frame that are
    still to come. *)
Inductive phase (d : v2_decoder) (h : heap) : list Z -> Prop :=
| ph_flags :
    ready d h -> dom (blocks h) = doms -> phase d h (frame f b)
| ph_len (i : nat) :
    in_field d h len_bytes i -> (i < length len_bytes)%nat -> (exists o, read_pos d = AtTmp o) -> length (tmpbuf d) = 8%nat ->
    next d = (if 255 <? Z.of_nat (length b) then eight_byte_size_ready else one_byte_size_ready) ->
    msg_flags d = f -> maxmsgsize d = mx -> bufsize d = bs -> heap_wf h -> dom (blocks h) = doms ->
    phase d h (drop i len_bytes ++ b)
| ph_body (i : nat) :
    in_field d h b i -> (i < length b)%nat -> (exists o, read_pos d = AtMsg o) -> length (tmpbuf d) = 8%nat ->
    next d = message_ready -> flags (in_progress d) = f -> size h (in_progress d) = Ok (Z.of_nat (length b)) ->
    maxmsgsize d = mx -> bufsize d = bs -> heap_wf h -> grown h -> phase d h (drop i b).

(** The message has been read. *)
Definition decoded (d : v2_decoder) (h : heap) : Prop :=
  ready d h /\ flags (in_progress d) = f /\ body_of h (in_progress d) = Ok b /\ grown h.

Lemma body_complete h m buf :
  body_buf h m = Some buf -> size h m = Ok (Z.of_nat (length b)) -> (length b <= length buf)%nat ->
  take (length b) buf = b -> body_of h m = Ok b.
Proof.
  unfold body_buf, size, body_of. intros Hbuf Hs Hl Ht. destruct (u m) as [|vd vn|l| |]; try done.
  - injection Hbuf as ->. injection Hs as ->. rewrite mem_read_ok by lia. rewrite drop_0, Nat2Z.id. by rewrite Ht.
  - destruct (blocks h !! l) as [c|]; [|done]. cbn in Hbuf. injection Hbuf as ->. injection Hs as ->.
    rewrite mem_read_ok by lia. rewrite drop_0, Nat2Z.id. by rewrite Ht.
Qed.

Lemma drive_flags d h :
  in_field d h [flag_byte] 1 -> (exists o, read_pos d = AtTmp o) -> next d = flags_ready -> length (tmpbuf d) = 8%nat ->
  maxmsgsize d = mx -> bufsize d = bs -> heap_wf h -> dom (blocks h) = doms ->
  exists d', drive mem 4 d h = Ok (d', h, DMore) /\ phase d' h (len_bytes ++ b).
Proof.
  intros (_ & Hr & Hpos) [o Ho] Hn Ht Hm Hbs Hwf Hd. rewrite Ho in Hpos. destruct Hpos as (_ & Hlt & Htk).
  assert (Hb0 : nth 0 (tmpbuf d) 0 = flag_byte) by (destruct (tmpbuf d); simpl in *; congruence).
  cbn [drive]. rewrite Hr. cbn [length negb Z.eqb Z.sub Z.of_nat]. change (negb (Z.of_nat 1 - Z.of_nat 1 =? 0)) with false. cbv iota.
  unfold run_next. rewrite Hn. cbn [mbind result_bind]. destruct flag_byte_bits as [Hlg Hfl].
  exists (step_flags d). split.
  - unfold step_flags. rewrite Hb0, Hlg. by destruct (255 <? Z.of_nat (length b)).
  - change (len_bytes ++ b) with (drop 0 len_bytes ++ b).
    unfold step_flags. rewrite Hb0, Hlg, Hfl. unfold len_bytes.
    apply ph_len; unfold len_bytes; destruct (255 <? Z.of_nat (length b)); cbn; try done; try lia; try (by exists 0);
      (split; [cbn; lia|]; split; [done|]; cbn; split; [done|]; rewrite Ht; split; [lia|done]).
Qed.

Lemma drive_body d h fuel :
  in_field d h b (length b) -> (exists o, read_pos d = AtMsg o) -> length (tmpbuf d) = 8%nat ->
  next d = message_ready -> flags (in_progress d) = f -> size h (in_progress d) = Ok (Z.of_nat (length b)) ->
  maxmsgsize d = mx -> bufsize d = bs -> heap_wf h -> grown h ->
  exists d', drive mem (S fuel) d h = Ok (d', h, DMsg) /\ decoded d' h.
Proof.
  intros (_ & Hr & Hpos) [o Ho] Ht Hn Hfl Hs Hm Hbs Hwf Hg. rewrite Ho in Hpos.
  destruct Hpos as (_ & buf & Hbuf & Hlb & Htk). cbn [drive]. rewrite Hr, Z.sub_diag. cbn [Z.eqb negb].
  unfold run_next. rewrite Hn. cbn [mbind result_bind]. eexists. split; [reflexivity|].
  split; [done|]. split; [done|]. split; [|done]. cbn [in_progress next_step].
  apply (body_complete h _ buf); try done. by rewrite Htk, firstn_all.
Qed.

(** The message is allocated with its size and flags. *)
Lemma start_message_ok d h :
  msg_flags d = f -> length (tmpbuf d) = 8%nat -> maxmsgsize d = mx -> bufsize d = bs -> heap_wf h -> dom (blocks h) = doms ->
  exists d' h', start_message mem d h (Z.of_nat (length b)) = Ok (d', h', DMore) /\
    in_field d' h' b 0 /\ read_pos d' = AtMsg 0 /\ length (tmpbuf d') = 8%nat /\ next d' = message_ready /\
    flags (in_progress d') = f /\ size h' (in_progress d') = Ok (Z.of_nat (length b)) /\
    maxmsgsize d' = mx /\ bufsize d' = bs /\ heap_wf h' /\ grown h'.
Proof.
  intros Hfl Ht Hm Hbs Hwf Hd. destruct Hvalid as [Hf Hsz _ Hmem]. unfold start_message, init_size.
  destruct (Z.leb_spec (Z.of_nat (length b)) max_vsm_size) as [Hle|Hgt]; unfold max_vsm_size in *.
  - cbn [mbind result_bind size set_flags u]. rewrite unsigned_of_small by (unfold in_unsigned; lia).
    eexists _, h. split; [reflexivity|]. cbn [read_pos next_step]. split_and!; try done.
    + split; [lia|]. split; [cbn; lia|]. cbn [read_pos next_step]. split; [done|].
      eexists. split; [reflexivity|]. cbn [length replicate]. split; [lia|done].
    + unfold grown. by rewrite (proj2 (Z.ltb_ge _ _)) by lia.
  - cbv zeta. rewrite (unsigned_of_small 64) by (unfold in_unsigned, sizeof_content in *; lia). rewrite Hmem.
    cbn [alloc]. unfold size at 1. cbn [u set_flags blocks]. rewrite lookup_insert_eq. cbn [mbind result_bind c_size].
    eexists _, _. split; [reflexivity|]. cbn [read_pos next_step]. split_and!; try done.
    + split; [lia|]. split; [cbn; lia|]. cbn [read_pos next_step]. split; [done|]. unfold body_buf. cbn [in_progress next_step set_in_progress set_flags u blocks]. rewrite lookup_insert_eq.
      eexists. split; [reflexivity|]. cbn [payload]. rewrite length_replicate. split; [unfold sizeof_content; lia|done].
    + unfold size. cbn [in_progress next_step set_in_progress set_flags u blocks]. by rewrite lookup_insert_eq.
    + intros l Hl. cbn [blocks next_addr] in *. rewrite dom_insert_L in Hl. apply elem_of_union in Hl as [Hl|Hl].
      * apply elem_of_singleton in Hl. lia.
      * specialize (Hwf l Hl). lia.
    + unfold grown. rewrite (proj2 (Z.ltb_lt _ _)) by lia. exists (next_addr h). cbn [blocks]. split.
      * rewrite <- Hd. intros Hin. specialize (Hwf _ Hin). lia.
      * rewrite dom_insert_L, Hd. by rewrite (comm_L (∪)).
Qed.


Lemma decoded_size d h :
  in_field d h len_bytes (length len_bytes) -> (exists o, read_pos d = AtTmp o) -> length (tmpbuf d) = 8%nat ->
  next d = (if 255 <? Z.of_nat (length b) then eight_byte_size_ready else one_byte_size_ready) -> maxmsgsize d = mx ->
  to_read d = 0 /\ run_next mem d h = start_message mem d h (Z.of_nat (length b)).
Proof.
  intros (_ & Hr & Hpos) [o Ho] Ht Hn Hm. rewrite Ho in Hpos. destruct Hpos as (_ & _ & Htk). destruct Hvalid as [_ Hsz Hmax _].
  unfold sizeof_content in Hsz. split; [lia|]. unfold run_next. rewrite Hn. rewrite firstn_all in Htk.
  assert (Hlim : (0 <=? mx) && (u64 mx <? Z.of_nat (length b)) = false).
  { destruct Hmax as [Hneg|Hle]; [by rewrite (proj2 (Z.leb_gt 0 mx)) by lia|].
    rewrite (unsigned_of_small 64 mx) by (unfold in_unsigned; lia). rewrite (proj2 (Z.ltb_ge _ _)) by lia. apply andb_false_r. }
  unfold len_bytes in Htk. destruct (Z.ltb_spec 255 (Z.of_nat (length b))).
  - assert (Hg : get_uint64 (tmpbuf d) = Z.of_nat (length b)).
    { rewrite <- (take_ge (tmpbuf d) 8) by lia. change 8%nat with (length (put_uint64 (Z.of_nat (length b)))).
      rewrite Htk, <- (app_nil_r (put_uint64 _)). apply get_put_uint64. unfold in_unsigned. lia. }
    unfold step_eight_byte. rewrite Hg, Hm, Hlim. rewrite (unsigned_of_small 64) by (unfold in_unsigned; lia). by rewrite Z.eqb_refl.
  - rewrite (unsigned_of_small 8) in Htk by (unfold in_unsigned; lia).
    assert (Hg : nth 0 (tmpbuf d) 0 = Z.of_nat (length b)) by (destruct (tmpbuf d); simpl in *; congruence).
    unfold step_one_byte. by rewrite Hg, Hm, Hlim.
Qed.


(** The outcome of driving the machine after some bytes of the frame: the
    message, when there were no more, or a later phase. *)
Definition outcome (d : v2_decoder) (h : heap) (rest : list Z) : Prop :=
  exists d' h', (rest = [] /\ drive mem 4 d h = Ok (d', h', DMsg) /\ decoded d' h') \/
                (rest <> [] /\ drive mem 4 d h = Ok (d', h', DMore) /\ phase d' h' rest).

Lemma drive_len d h :
  in_field d h len_bytes (length len_bytes) -> (exists o, read_pos d = AtTmp o) -> length (tmpbuf d) = 8%nat ->
  next d = (if 255 <? Z.of_nat (length b) then eight_byte_size_ready else one_byte_size_ready) ->
  msg_flags d = f -> maxmsgsize d = mx -> bufsize d = bs -> heap_wf h -> dom (blocks h) = doms -> outcome d h b.
Proof.
  intros Hfld Ho Ht Hn Hfl Hm Hbs Hwf Hd. destruct (decoded_size d h Hfld Ho Ht Hn Hm) as [Hr Hrun].
  destruct (start_message_ok d h Hfl Ht Hm Hbs Hwf Hd) as (d1 & h1 & Hst & Hf1 & Hp1 & Ht1 & Hn1 & Hfl1 & Hs1 & Hm1 & Hb1 & Hw1 & Hg1).
  assert (Hdr : drive mem 4 d h = drive mem 3 d1 h1).
  { cbn [drive]. rewrite Hr. cbn [Z.eqb negb]. rewrite Hrun, Hst. done. }
  unfold outcome. rewrite Hdr. destruct (nil_or_length_pos b) as [E|E].
  - destruct (drive_body d1 h1 2) as (d' & Hdr' & Hdec); try done; [by rewrite E in *|by exists 0|].
    exists d', h1. left. done.
  - exists d1, h1. right. split; [intros ->; done|]. split.
    + destruct Hf1 as (_ & Hr1 & _). cbn [drive]. rewrite Hr1. rewrite (proj2 (Z.eqb_neq _ _)); [done|]. destruct b; [done|simpl; lia].
    + apply (ph_body d1 h1 0); try done; [destruct b; simpl; [done|lia]|by exists 0].
Qed.

(** A decoder that stops in the middle of a field. *)
Lemma outcome_partial d h fld i rest :
  in_field d h fld i -> (i < length fld)%nat -> rest <> [] -> phase d h rest -> outcome d h rest.
Proof.
  intros (_ & Hr & _) Hi Hne Hph. exists d, h. right. split; [done|]. split; [|done].
  cbn [drive]. rewrite Hr. rewrite (proj2 (Z.eqb_neq _ _)) by lia. done.
Qed.

Lemma heap_wf_same d d1 h h1 : same_ctx d d1 h h1 -> heap_wf h -> heap_wf h1.
Proof. intros [] Hwf l Hl. rewrite sc_addr0. apply Hwf. by rewrite <- sc_dom0. Qed.

Lemma grown_same d d1 h h1 : same_ctx d d1 h h1 -> grown h -> grown h1.
Proof. intros [] Hg. unfold grown in *. by rewrite sc_dom0. Qed.

Lemma phase_to_read d h rest : phase d h rest -> 1 <= to_read d <= Z.of_nat (length rest).
Proof.
  intros [Hready _|i (_ & Hr & _) Hi _ _ _ _ _ _ _ _|i (_ & Hr & _) Hi _ _ _ _ _ _ _ _ _].
  - destruct Hready as (_ & _ & -> & _). rewrite frame_eq. simpl. lia.
  - rewrite Hr, length_app, length_drop. lia.
  - rewrite Hr, length_drop. lia.
Qed.

(** Reading [n] bytes of the frame, not more than the decoder asked for. *)
Lemma step_phase d h rest (n : nat) :
  phase d h rest -> (1 <= n)%nat -> Z.of_nat n <= to_read d ->
  exists d1 h1, store d h (take n rest) = Ok (d1, h1) /\ to_read d1 = to_read d /\
    outcome (advance d1 (Z.of_nat n)) h1 (drop n rest).
Proof.
  intros Hph Hn Hto. destruct Hph as [Hready Hd|i Hfld Hi [o Ho] Ht Hnx Hfl Hm Hbs Hwf Hd|i Hfld Hi [o Ho] Ht Hnx Hfl Hs Hm Hbs Hwf Hg].
  - destruct Hready as (Hnx & Hp & Hr & Ht & Hm & Hbs & Hwf). assert (n = 1%nat) as -> by lia.
    destruct (store_field d h [flag_byte] 0 1 [flag_byte]) as (d1 & h1 & Hst & Hf1 & Hsame & Htr); [|done|done|].
    { split; [simpl; lia|]. split; [done|]. rewrite Hp. rewrite Ht. split; [done|]. split; [simpl; lia|done]. }
    exists d1, h1. rewrite frame_eq. split; [exact Hst|]. split; [done|]. pose proof Hsame as [].
    destruct (drive_flags (advance d1 (Z.of_nat 1)) h1) as (d' & Hdr & Hph'); cbn; try congruence.
    { exact Hf1. } { unfold store in Hst. rewrite Hp in Hst. destruct (mem_write _ _ _); cbn in Hst; [|done]. injection Hst as <- _. cbn. rewrite Hp. by eexists. }
    { by eapply heap_wf_same. }
    exists d', h1. right. split; [|done]. unfold len_bytes. by destruct (255 <? _).
  - assert (Hin : (i + n <= length len_bytes)%nat) by (destruct Hfld as (_ & Hr & _); lia).
    destruct (store_field d h len_bytes i n (take n (drop i len_bytes)) Hfld Hin eq_refl) as (d1 & h1 & Hst & Hf1 & Hsame & Htr).
    exists d1, h1. rewrite take_app_le, drop_app_le by (rewrite length_drop; lia). split; [done|]. split; [done|].
    pose proof Hsame as []. rewrite drop_drop.
    assert (Hpos1 : exists o', read_pos (advance d1 (Z.of_nat n)) = AtTmp o').
    { unfold store in Hst. rewrite Ho in Hst. destruct (mem_write _ _ _); cbn in Hst; [|done]. injection Hst as <- _. cbn. rewrite Ho. by eexists. }
    destruct (decide (i + n = length len_bytes)%nat) as [E|E].
    + rewrite E in *. rewrite drop_all. cbn [app]. apply drive_len; cbn; first [done|congruence|by eapply heap_wf_same].
    + apply (outcome_partial _ _ len_bytes (i + n)); [done|lia| |].
      * intros [Hx _]%app_eq_nil. apply (f_equal length) in Hx. rewrite length_drop in Hx. simpl in Hx. lia.
      * apply ph_len; cbn; first [done|congruence|lia|by eapply heap_wf_same].
  - assert (Hin : (i + n <= length b)%nat) by (destruct Hfld as (_ & Hr & _); lia).
    destruct (store_field d h b i n (take n (drop i b)) Hfld Hin eq_refl) as (d1 & h1 & Hst & Hf1 & Hsame & Htr).
    exists d1, h1. split; [done|]. split; [done|]. pose proof Hsame as []. rewrite drop_drop.
    assert (Hpos1 : exists o', read_pos (advance d1 (Z.of_nat n)) = AtMsg o').
    { unfold store in Hst. rewrite Ho in Hst. destruct (store_body _ _ _ _) as [[]|]; cbn in Hst; [|done]. injection Hst as <- _. cbn. rewrite Ho. by eexists. }
    destruct (decide (i + n = length b)%nat) as [E|E].
    + rewrite E in *. rewrite drop_all.
      destruct (drive_body (advance d1 (Z.of_nat n)) h1 3) as (d' & Hdr & Hdec); [by first [exact Hf1|exact Hpos1|cbn; congruence|by eapply heap_wf_same|by eapply grown_same]..|]. exists d', h1. by left.
    + apply (outcome_partial _ _ b (i + n)); [done|lia| |].
      * intros Hx. apply (f_equal length) in Hx. rewrite length_drop in Hx. simpl in Hx. lia.
      * apply ph_body; cbn; first [done|congruence|lia|by eapply heap_wf_same|by eapply grown_same].
Qed.


(** [decode] on bytes that agree with the rest of the frame, as far as both
    go: it takes them all when the frame is longer, and the frame when not. *)
Lemma decode_loop_phase fuel d h rest bytes used :
  phase d h rest -> rest <> [] -> (length bytes <= fuel)%nat -> bytes <> [] ->
  take (length rest) bytes = take (length bytes) rest ->
  exists d' h', if decide (length bytes < length rest)%nat
    then decode_loop mem fuel d h bytes used = Ok (d', h', DMore, used + Z.of_nat (length bytes)) /\
         phase d' h' (drop (length bytes) rest)
    else decode_loop mem fuel d h bytes used = Ok (d', h', DMsg, used + Z.of_nat (length rest)) /\ decoded d' h'.
Proof.
  revert d h rest bytes used. induction fuel as [|fuel IH]; intros d h rest bytes used Hph Hrest Hfuel Hbytes Hcompat.
  { destruct bytes; [done|simpl in Hfuel; lia]. }
  pose proof (phase_to_read d h rest Hph) as Htr. assert (1 <= length bytes)%nat as Hlb by (destruct bytes; [done|simpl; lia]).
  set (n := Z.to_nat (Z.min (to_read d) (Z.of_nat (length bytes)))).
  assert (Hn1 : (1 <= n)%nat) by lia. assert (Hn2 : (n <= length bytes)%nat) by lia. assert (Hn3 : (n <= length rest)%nat) by lia.
  assert (Htk : take n bytes = take n rest).
  { apply (f_equal (take n)) in Hcompat. rewrite !take_take in Hcompat. by rewrite !Nat.min_l in Hcompat by lia. }
  destruct (step_phase d h rest n Hph Hn1) as (d1 & h1 & Hst & Htr1 & d2 & h2 & Hout); [lia|].
  assert (Hunf : decode_loop mem (S fuel) d h bytes used =
    ('(d2, h2, r) ← drive mem 4 (advance d1 (Z.of_nat n)) h1;
     match r : drc with
     | DMore => decode_loop mem fuel d2 h2 (drop n bytes) (used + Z.of_nat n)
     | _ => Ok (d2, h2, r, used + Z.of_nat n)
     end)).
  { destruct bytes as [|x bytes]; [done|]. cbn [decode_loop]. fold n. rewrite Htk, Hst. cbn [mbind result_bind].
    replace (Z.min (to_read d) (Z.of_nat (length (x :: bytes)))) with (Z.of_nat n) by lia. done. }
  rewrite Hunf. clear Hunf. destruct Hout as [(Hnil & Hdr & Hdec)|(Hne & Hdr & Hph2)]; rewrite Hdr; cbn [mbind result_bind].
  - apply (f_equal length) in Hnil. rewrite length_drop in Hnil. simpl in Hnil. exists d2, h2.
    rewrite decide_False by lia. split; [|done]. do 2 f_equal. lia.
  - assert (Hlt : (n < length rest)%nat).
    { destruct (decide (n < length rest)%nat); [done|]. destruct Hne. apply drop_ge. lia. }
    destruct (decide (n = length bytes)) as [E|E].
    + rewrite E, drop_all. exists d2, h2. rewrite decide_True by lia. split; [|by rewrite E in Hph2].
      destruct fuel; cbn [decode_loop]; do 2 f_equal; lia.
    + destruct (IH d2 h2 (drop n rest) (drop n bytes) (used + Z.of_nat n) Hph2 Hne) as (d' & h' & Hres).
      * rewrite length_drop. lia.
      * intros Hx. apply (f_equal length) in Hx. rewrite length_drop in Hx. simpl in Hx. lia.
      * rewrite !length_drop, <- !skipn_firstn_comm.
        replace (n + (length rest - n))%nat with (length rest) by lia. replace (n + (length bytes - n))%nat with (length bytes) by lia.
        by rewrite Hcompat.
      * exists d', h'. rewrite !length_drop in Hres. destruct (decide (length bytes < length rest)%nat) as [Hd|Hd].
        -- rewrite decide_True in Hres by lia. destruct Hres as [-> Hp]. rewrite drop_drop in Hp.
           replace (n + (length bytes - n))%nat with (length bytes) in Hp by lia. split; [|done]. do 2 f_equal. lia.
        -- rewrite decide_False in Hres by lia. destruct Hres as [-> Hp]. split; [|done]. do 2 f_equal. lia.
Qed.

End OneMessage.

(** *** Decoding a stream of messages *)

Definition frames (qs : list (Z * list Z)) : list Z := q ← qs; frame q.1 q.2.

(** How many of the messages are too long to be stored in place. *)
Definition long_count (qs : list (Z * list Z)) : nat :=
  length (filter (fun q => 29 < Z.of_nat (length q.2)) qs).

Section Stream.
Context (mem : Z -> bool) (mx bs : Z).
Hypothesis Hbs : 1 <= bs.

(** The decoder when [rem] is still to come, the frames of [qs] with the first
    one possibly started; [k] blocks were allocated for the messages before. *)
Definition streaming (d : v2_decoder) (h : heap) (k : nat) (qs : list (Z * list Z)) (rem : list Z) : Prop :=
  match qs with
  | [] => ready mx bs d h /\ rem = [] /\ base.size (dom (blocks h)) = k
  | q :: qs' => exists doms rest, phase mx bs q.1 q.2 doms d h rest /\ rest <> [] /\ rem = rest ++ frames qs' /\ base.size doms = k
  end.

Lemma frame_not_nil f b : frame f b <> [].
Proof. done. Qed.

Lemma grown_size b doms h :
  grown b doms h -> base.size (dom (blocks h)) = (base.size doms + (if (29 <? Z.of_nat (length b))%Z then 1 else 0))%nat.
Proof.
  unfold grown. destruct (29 <? _); [|intros ->; lia]. intros (l & Hl & ->).
  rewrite size_union by set_solver. by rewrite size_singleton.
Qed.

Lemma streaming_next f b doms d h qs :
  decoded mx bs f b doms d h -> streaming d h (base.size doms + (if (29 <? Z.of_nat (length b))%Z then 1 else 0))%nat qs (frames qs).
Proof.
  intros (Hready & _ & _ & Hg). pose proof (grown_size b doms h Hg) as Hs. destruct qs as [|[f' b'] qs]; [done|].
  exists (dom (blocks h)), (frame f' b'). split; [by apply ph_flags|]. split; [apply frame_not_nil|]. done.
Qed.

Lemma long_count_cons f b qs : long_count ((f, b) :: qs) = ((if (29 <? Z.of_nat (length b))%Z then 1 else 0) + long_count qs)%nat.
Proof.
  unfold long_count. rewrite filter_cons. cbn [snd]. destruct (Z.ltb_spec 29 (Z.of_nat (length b)));
    [rewrite decide_True by done|rewrite decide_False by lia]; done.
Qed.

Lemma prefix_compat {A} (l rest tail : list A) :
  l `prefix_of` rest ++ tail -> take (length rest) l = take (length l) rest.
Proof.
  intros [z Hz]. destruct (decide (length l < length rest)%nat).
  - rewrite (take_ge l) by lia. apply (f_equal (take (length l))) in Hz. rewrite take_app_length, take_app_le in Hz by lia. done.
  - rewrite (take_ge rest) by lia. apply (f_equal (take (length rest))) in Hz. rewrite take_app_length, take_app_le in Hz by lia. done.
Qed.


Lemma decode_streaming d h k f b qs rem bytes :
  streaming d h k ((f, b) :: qs) rem -> valid_msg mem mx f b -> bytes <> [] -> bytes `prefix_of` rem ->
  exists d' h', (decode mem d h bytes = Ok (d', h', DMore, Z.of_nat (length bytes)) /\
                 streaming d' h' k ((f, b) :: qs) (drop (length bytes) rem)) \/
    (exists used extra, decode mem d h bytes = Ok (d', h', DMsg, Z.of_nat used) /\ (1 <= used <= length bytes)%nat /\
       extra = drop used bytes /\ extra `prefix_of` frames qs /\ drop (length bytes) rem = drop (length extra) (frames qs) /\
       flags (in_progress d') = f /\ body_of h' (in_progress d') = Ok b /\
       streaming d' h' (k + long_count [(f, b)]) qs (frames qs)).
Proof.
  intros (doms & rest & Hph & Hne & -> & Hk) Hv Hbytes Hpre. cbn [fst snd] in *. pose proof (prefix_compat _ _ _ Hpre) as Hc.
  destruct (decode_loop_phase mem mx bs f b doms Hv (length bytes) d h rest bytes 0 Hph Hne (le_n _) Hbytes Hc) as (d' & h' & Hres).
  exists d', h'. unfold decode. destruct (decide (length bytes < length rest)%nat) as [Hlt|Hge].
  - destruct Hres as [-> Hp]. left. split; [done|]. exists doms, (drop (length bytes) rest). split; [done|]. split; [|split; [|done]].
    + intros Hx. apply (f_equal length) in Hx. rewrite length_drop in Hx. simpl in Hx. lia.
    + by rewrite drop_app_le by lia.
  - destruct Hres as [-> Hdec]. right. exists (length rest), (drop (length rest) bytes).
    assert (Hrl : (1 <= length rest)%nat) by (destruct rest; [done|simpl; lia]).
    pose proof Hdec as (Hready & Hfl & Hbd & Hg). destruct Hpre as [z Hz].
    assert (Hb : bytes = rest ++ drop (length rest) bytes).
    { rewrite <- (take_drop (length rest) bytes) at 1. by rewrite Hc, take_ge by lia. }
    assert (Hz' : frames qs = drop (length rest) bytes ++ z).
    { rewrite Hb, <- app_assoc in Hz. by apply app_inv_head in Hz. }
    split; [done|]. split; [lia|]. split; [done|]. split; [by exists z|]. split.
    + rewrite drop_app_ge, Hz' by lia. by rewrite length_drop, drop_app_length'; [|rewrite length_drop; lia].
    + split; [done|]. split; [done|]. rewrite long_count_cons. change (long_count []) with 0%nat. rewrite Nat.add_0_r, <- Hk.
      by eapply streaming_next.
Qed.

Lemma consume_streaming fuel d h k qs rem bytes out :
  streaming d h k qs rem -> Forall (fun q => valid_msg mem mx q.1 q.2) qs -> bytes `prefix_of` rem -> (length bytes <= fuel)%nat ->
  exists d' h' got qs', consume mem fuel d h bytes out = Ok (d', h', out ++ got, None) /\ qs = got ++ qs' /\
    streaming d' h' (k + long_count got) qs' (drop (length bytes) rem).
Proof.
  revert d h k qs rem bytes out. induction fuel as [|fuel IH]; intros d h k qs rem bytes out Hs Hv Hpre Hfuel.
  { destruct bytes; [|simpl in Hfuel; lia]. exists d, h, [], qs. rewrite app_nil_r, Nat.add_0_r. done. }
  destruct (nil_or_length_pos bytes) as [->|Hne].
  { exists d, h, [], qs. rewrite app_nil_r, Nat.add_0_r. done. }
  assert (bytes <> []) as Hbn by (by destruct bytes).
  destruct qs as [|[f b] qs].
  { destruct Hs as (_ & -> & _). apply prefix_nil_inv in Hpre. done. }
  apply Forall_cons in Hv as [Hvb Hv]. cbn [fst snd] in Hvb.
  assert (Hunf : consume mem (S fuel) d h bytes out =
    ('(d', h', r, used) ← decode mem d h bytes;
      match r : drc with
      | DMore => Ok (d', h', out, None)
      | DErr e => Ok (d', h', out, Some e)
      | DMsg => b ← body_of h' (in_progress d');
          consume mem fuel d' h' (drop (Z.to_nat used) bytes) (out ++ [(flags (in_progress d'), b)])
      end)) by (by destruct bytes).
  rewrite Hunf. destruct (decode_streaming d h k f b qs rem bytes Hs Hvb Hbn Hpre) as
    (d' & h' & [[-> Hs']|(used & extra & -> & Hu & Hex & Hpre' & Hdr & Hfl & Hbd & Hs')]); cbn [mbind result_bind].
  - exists d', h', [], ((f, b) :: qs). rewrite app_nil_r, Nat.add_0_r. done.
  - rewrite Hbd. cbn [mbind result_bind]. rewrite Hfl, Nat2Z.id, <- Hex.
    destruct (IH d' h' _ qs (frames qs) extra (out ++ [(f, b)]) Hs' Hv Hpre') as (d2 & h2 & got & qs' & Hrun & -> & Hs2).
    { rewrite Hex, length_drop. lia. }
    exists d2, h2, ((f, b) :: got), qs'. rewrite Hrun, <- app_assoc. split; [done|]. split; [done|].
    rewrite Hdr. replace (k + long_count ((f, b) :: got))%nat with (k + long_count [(f, b)] + long_count got)%nat; [done|].
    rewrite !long_count_cons. change (long_count []) with 0%nat. lia.
Qed.

Lemma feed_streaming d h k qs rem bytes out :
  streaming d h k qs rem -> Forall (fun q => valid_msg mem mx q.1 q.2) qs -> bytes `prefix_of` rem -> bytes <> [] ->
  Z.of_nat (length bytes) <= (get_buffer d).2 ->
  exists d' h' got qs', feed mem d h bytes out = Ok (d', h', out ++ got, None) /\ qs = got ++ qs' /\
    streaming d' h' (k + long_count got) qs' (drop (length bytes) rem).
Proof.
  intros Hs Hv Hpre Hbn Hcap. unfold feed. unfold get_buffer in *. destruct (Z.leb_spec (bufsize d) (to_read d)); cbn [fst snd] in *.
  2: { by apply (consume_streaming (length bytes)). }
  destruct qs as [|[f b] qs]; [by destruct Hs as (_ & -> & _); apply prefix_nil_inv in Hpre|].
  apply Forall_cons in Hv as [Hvb Hv]. cbn [fst snd] in Hvb. destruct Hs as (doms & rest & Hph & Hne & -> & Hk).
  pose proof (phase_to_read _ _ _ _ _ _ _ _ Hph) as Htr. cbn [fst snd] in *.
  assert (Hbl : (1 <= length bytes <= length rest)%nat) by (destruct bytes; [done|simpl in *; lia]).
  pose proof (prefix_compat _ _ _ Hpre) as Hc. rewrite take_ge in Hc by lia.
  destruct (step_phase mem mx bs f b doms Hvb d h rest (length bytes) Hph) as (d1 & h1 & Hst & Htr1 & d2 & h2 & Hout); [lia|lia|].
  rewrite <- Hc in Hst. rewrite Hst. cbn [mbind result_bind]. unfold decode_in_place.
  rewrite Htr1, (proj2 (Z.leb_le _ _)) by lia. cbn [afs_assert mbind result_bind].
  destruct Hout as [(Hnil & Hdr & Hdec)|(Hnn & Hdr & Hph2)]; rewrite Hdr; cbn [mbind result_bind].
  - pose proof Hdec as (_ & Hfl & Hbd & _). rewrite Hbd. cbn [mbind result_bind]. rewrite Hfl.
    exists d2, h2, [(f, b)], qs. split; [done|]. split; [done|]. rewrite drop_app_le, Hnil by lia. cbn [app].
    rewrite long_count_cons. change (long_count []) with 0%nat. rewrite Nat.add_0_r, <- Hk. by eapply streaming_next.
  - exists d2, h2, [], ((f, b) :: qs). rewrite app_nil_r, Nat.add_0_r. split; [done|]. split; [done|].
    exists doms, (drop (length bytes) rest). split; [done|]. split; [done|]. split; [|done]. by rewrite drop_app_le by lia.
Qed.

(** A connection: the bytes the peer has sent and the sizes of the successive
    reads, each limited by the buffer the decoder offers. *)
Fixpoint run_reads (sizes : list Z) (stream : list Z) (d : v2_decoder) (h : heap) (out : list (Z * list Z))
    : result (list Z * v2_decoder * heap * list (Z * list Z) * option errno) :=
  match sizes with
  | [] => Ok (stream, d, h, out, None)
  | n :: sizes' =>
      let bytes := take (Z.to_nat (Z.min n (get_buffer d).2)) stream in
      match bytes with
      | [] => Ok (stream, d, h, out, None)
      | _ =>
          '(d', h', out', e) ← feed mem d h bytes out;
          match e : option errno with
          | None => run_reads sizes' (drop (length bytes) stream) d' h' out'
          | Some _ => Ok (stream, d', h', out', e)
          end
      end
  end.

Lemma streaming_rem d h k qs rem : streaming d h k qs rem -> rem = [] <-> qs = [].
Proof.
  destruct qs as [|q qs]; cbn; [by intros (_ & -> & _)|]. intros (doms & rest & _ & Hne & -> & _).
  split; [|done]. intros [Hx _]%app_eq_nil. done.
Qed.

Lemma run_reads_streaming sizes stream d h k qs out :
  streaming d h k qs stream -> bufsize d = bs -> Forall (fun q => valid_msg mem mx q.1 q.2) qs -> Forall (fun n => 1 <= n) sizes ->
  exists stream' d' h' got qs', run_reads sizes stream d h out = Ok (stream', d', h', out ++ got, None) /\ qs = got ++ qs' /\
    streaming d' h' (k + long_count got) qs' stream' /\ (length stream' <= length stream - length sizes)%nat.
Proof.
  revert stream d h k qs out. induction sizes as [|n sizes IH]; intros stream d h k qs out Hs Hbuf Hv Hsz.
  { exists stream, d, h, [], qs. rewrite app_nil_r, Nat.add_0_r. split; [done|]. split; [done|]. split; [done|]. simpl. lia. }
  apply Forall_cons in Hsz as [Hn Hsz]. cbn [run_reads]. cbv zeta.
  set (bytes := take (Z.to_nat (Z.min n (get_buffer d).2)) stream).
  assert (Hcap : 1 <= (get_buffer d).2).
  { unfold get_buffer. destruct (Z.leb_spec (bufsize d) (to_read d)); cbn [snd]; lia. }
  destruct (nil_or_length_pos bytes) as [E|E].
  { rewrite E. assert (stream = []) as ->.
    { destruct stream; [done|]. subst bytes. apply (f_equal length) in E. rewrite length_take in E. simpl in E. lia. }
    exists [], d, h, [], qs. rewrite app_nil_r, Nat.add_0_r. split; [done|]. split; [done|]. split; [done|]. simpl. lia. }
  assert (Hbn : bytes <> []) by (by destruct bytes).
  assert (Hpre : bytes `prefix_of` stream) by (exists (drop (Z.to_nat (Z.min n (get_buffer d).2)) stream); unfold bytes; by rewrite take_drop).
  destruct (feed_streaming d h k qs stream bytes out Hs Hv Hpre Hbn) as (d1 & h1 & got1 & qs1 & Hf & -> & Hs1).
  { unfold bytes. rewrite length_take. lia. }
  apply Forall_app in Hv as [_ Hv].
  assert (Hbuf1 : bufsize d1 = bs).
  { clear -Hs1. destruct qs1 as [|q qs1]; [by destruct Hs1 as ((_ & _ & _ & _ & _ & ? & _) & _)|].
    destruct Hs1 as (doms & rest & Hph & _). by destruct Hph as [(_ & _ & _ & _ & _ & ? & _)| |]. }
  destruct (IH (drop (length bytes) stream) d1 h1 _ qs1 (out ++ got1) Hs1 Hbuf1 Hv Hsz)
    as (stream' & d' & h' & got2 & qs' & Hrun & -> & Hs' & Hlen).
  exists stream', d', h', (got1 ++ got2), qs'. destruct bytes as [|x bytes'] eqn:Eb; [done|]. rewrite Hf. cbn [mbind result_bind].
  rewrite Hrun, <- !app_assoc. split; [done|]. split; [done|]. split.
  - replace (k + long_count (got1 ++ got2))%nat with (k + long_count got1 + long_count got2)%nat; [done|].
    unfold long_count. rewrite filter_app, length_app. lia.
  - rewrite length_drop in Hlen. cbn [length] in *. lia.
Qed.

End Stream.

Lemma streaming_start mx bs ms h :
  heap_wf h -> streaming mx bs (new_v2_decoder bs mx) h (base.size (dom (blocks h))) ms (frames ms).
Proof.
  intros Hwf. assert (Hr : ready mx bs (new_v2_decoder bs mx) h) by done.
  destruct ms as [|[f b] ms]; [done|]. exists (dom (blocks h)), (frame f b). split; [by apply ph_flags|]. done.
Qed.

(** The decoder is right for every way the bytes arrive: on the frames of any
    valid messages, cut into reads of any sizes (through the decoder's buffer or
    straight into a large message), it delivers exactly these messages, in order,
    with their flags and bodies, never reports an error, never leaves a buffer
    and always returns; once there were as many reads as bytes, all messages
    have been delivered. *)
Theorem decoder_delivers mem mx bs ms (sizes : list Z) :
  1 <= bs -> Forall (fun q => valid_msg mem mx q.1 q.2) ms -> Forall (fun n => 1 <= n) sizes ->
  let h0 := {| blocks := ∅; next_addr := 1; ffn_calls := [] |} in
  exists stream' d h got rest, run_reads mem sizes (frames ms) (new_v2_decoder bs mx) h0 [] = Ok (stream', d, h, got, None) /\
    ms = got ++ rest /\ ((length (frames ms) <= length sizes)%nat -> got = ms).
Proof.
  intros Hbs Hv Hsz h0. assert (Hwf : heap_wf h0) by (intros l Hl; cbn in Hl; by rewrite dom_empty_L in Hl).
  destruct (run_reads_streaming mem mx bs Hbs sizes (frames ms) _ h0 _ ms [] (streaming_start mx bs ms h0 Hwf) eq_refl Hv Hsz)
    as (stream' & d & h & got & qs' & Hrun & Hms & Hs & Hlen).
  exists stream', d, h, got, qs'. split; [done|]. split; [done|]. intros Hall.
  assert (stream' = []) as E by (destruct stream'; [done|simpl in Hlen; lia]).
  apply (streaming_rem _ _ _ _ _ _ _ Hs) in E as ->. by rewrite app_nil_r in Hms.
Qed.

Lemma decoder_delivers_witness :
  let h0 := {| blocks := ∅; next_addr := 1; ffn_calls := [] |} in
  let ms := [(1, [10; 20; 30]); (0, []); (2, replicate 300 5)] in
  exists stream' d h got rest,
    run_reads (fun _ => true) [4; 300; 7; 1] (frames ms) (new_v2_decoder 64 (-1)) h0 [] = Ok (stream', d, h, got, None) /\
    ms = got ++ rest /\ ((length (frames ms) <= length [4; 300; 7; 1])%nat -> got = ms).
Proof.
  intros h0 ms. apply (decoder_delivers (fun _ => true) (-1) 64 ms [4; 300; 7; 1]); [lia| |repeat constructor; lia].
  repeat constructor; cbn; lia.
Defined.


(** What the decoder allocates is never released by it: when all messages
    have been delivered there is one live block for each message longer than 29
    bytes, because the size steps initialise [in_progress] again without closing
    it (their comment takes it for an empty message). *)
Theorem decoder_leaks_blocks mem mx bs ms (sizes : list Z) :
  1 <= bs -> Forall (fun q => valid_msg mem mx q.1 q.2) ms -> Forall (fun n => 1 <= n) sizes ->
  (length (frames ms) <= length sizes)%nat ->
  let h0 := {| blocks := ∅; next_addr := 1; ffn_calls := [] |} in
  exists stream' d h, run_reads mem sizes (frames ms) (new_v2_decoder bs mx) h0 [] = Ok (stream', d, h, ms, None) /\
    base.size (dom (blocks h)) = long_count ms.
Proof.
  intros Hbs Hv Hsz Hall h0. assert (Hwf : heap_wf h0) by (intros l Hl; cbn in Hl; by rewrite dom_empty_L in Hl).
  destruct (run_reads_streaming mem mx bs Hbs sizes (frames ms) _ h0 _ ms [] (streaming_start mx bs ms h0 Hwf) eq_refl Hv Hsz)
    as (stream' & d & h & got & qs' & Hrun & Hms & Hs & Hlen).
  assert (stream' = []) as E by (destruct stream'; [done|simpl in Hlen; lia]).
  apply (streaming_rem _ _ _ _ _ _ _ Hs) in E as ->. rewrite app_nil_r in Hms. subst got.
  exists stream', d, h. split; [done|]. destruct Hs as (_ & _ & ->). done.
Qed.

Lemma decoder_leaks_blocks_witness :
  let h0 := {| blocks := ∅; next_addr := 1; ffn_calls := [] |} in
  let ms := [(0, replicate 32 1); (0, replicate 40 2)] in
  exists stream' d h, run_reads (fun _ => true) (replicate 80 5) (frames ms) (new_v2_decoder 8192 (-1)) h0 [] = Ok (stream', d, h, ms, None) /\
    base.size (dom (blocks h)) = long_count ms.
Proof.
  intros h0 ms. apply (decoder_leaks_blocks (fun _ => true) (-1) 8192 ms (replicate 80 5)); [lia| | |].
  - repeat constructor; cbn; lia.
  - apply Forall_replicate. lia.
  - vm_compute. lia.
Defined.

(** Without a limit on the message size (the default, -1) the size of the
    allocation overflows: after the nine bytes of a frame that announces
    2^64-1 bytes the decoder has a block without room for a single one and asks
    the caller to read 2^64-1 bytes straight into it; any byte then written is
    out of bounds. *)
Theorem huge_frame_overflows (bytes : list Z) :
  let h0 := {| blocks := ∅; next_addr := 1; ffn_calls := [] |} in
  match decode (fun _ => true) (new_v2_decoder 8192 (-1)) h0 (2 :: replicate 8 255) with
  | Ok (d, h, DMore, 9) => get_buffer d = (true, 2 ^ 64 - 1) /\
      feed (fun _ => true) d h (7 :: bytes) [] = Stop OutOfBounds
  | _ => False
  end.
Proof.
  intros h0. destruct (decode _ _ _ _) as [[[[d h] r] n]|] eqn:E; vm_compute in E; [|done].
  injection E as <- <- <- <-. cbv iota. split; [by vm_compute|].
  assert (Hst : mem_write [] 0 (7 :: bytes) = Stop OutOfBounds).
  { unfold mem_write. by rewrite (proj2 (Z.leb_gt (0 + _) _)) by (cbn [length]; lia). }
  unfold feed, store, store_body. cbn -[mem_write].
  match goal with |- context [?m !! 1] => change (m !! 1) with (Some {| c_data := PContent 1;
    c_size := 18446744073709551615; c_ffn := None; c_hint := 0; c_refcnt := 0; payload := [] |}) end.
  cbn [payload]. by rewrite Hst.
Qed.

End Frame.
