(* ===== verification/Encoder.v ===== *)
(** The frame encoder (src/net/encoder.hpp, src/net/v2_encoder.cpp): a state
    machine that writes the header and the body of one loaded message into
    buffers of any size, gives out a large body without copying it, and
    acknowledges the record to the out-callback when the message is done. *)
From stdpp Require Import base numbers list gmap.
From Stdlib Require Import ZArith Lia.
From S2P Require Import Prelude Msg Codec.

Module Enc.
Import Wire Msg Frame.

Inductive estep := EMessageReady | ESizeReady.

(** Where [write_pos] points. *)
Inductive wpos := WNull | WTmp (off : Z) | WMsg (off : Z) | WData (off : Z).

(** [e_data] is the record the out-callback handed over: its address and its
    bytes. *)
Record v2_encoder := mkencoder {
  e_tmpbuf : list Z;              (* 9 bytes *)
  write_pos : wpos;
  to_write : Z;                   (* size_t *)
  e_next : estep;
  new_msg_flag : bool;
  e_bufsize : Z;                  (* size_t *)
  e_msg : option msg_t;           (* in_progress *)
  e_data : option (Z * list Z);
  e_size : Z                      (* uint32_t *)
}.

Definition next_step (e : v2_encoder) (pos : wpos) (n : Z) (s : estep) (flag : bool) : v2_encoder :=
  {| e_tmpbuf := e_tmpbuf e; write_pos := pos; to_write := n; e_next := s; new_msg_flag := flag;
     e_bufsize := e_bufsize e; e_msg := e_msg e; e_data := e_data e; e_size := e_size e |}.

Definition set_tmp (e : v2_encoder) (t : list Z) : v2_encoder :=
  {| e_tmpbuf := t; write_pos := write_pos e; to_write := to_write e; e_next := e_next e; new_msg_flag := new_msg_flag e;
     e_bufsize := e_bufsize e; e_msg := e_msg e; e_data := e_data e; e_size := e_size e |}.

Definition set_loaded (e : v2_encoder) (m : option msg_t) (d : option (Z * list Z)) (n : Z) : v2_encoder :=
  {| e_tmpbuf := e_tmpbuf e; write_pos := write_pos e; to_write := to_write e; e_next := e_next e; new_msg_flag := new_msg_flag e;
     e_bufsize := e_bufsize e; e_msg := m; e_data := d; e_size := n |}.

Definition new_v2_encoder (bufsize_ : Z) : v2_encoder :=
  {| e_tmpbuf := replicate 9 0; write_pos := WNull; to_write := 0; e_next := EMessageReady; new_msg_flag := true;
     e_bufsize := bufsize_; e_msg := None; e_data := None; e_size := 0 |}.

(** [message_ready]: the header into [tmpbuf]. *)
Definition enc_message_ready (e : v2_encoder) (h : heap) : result v2_encoder :=
  match e_msg e with
  | None => Stop NullDeref
  | Some m =>
      n ← size h m;
      let f0 := if has_flag (flags m) more then more_flag else 0 in
      let f1 := if 255 <? n then Z.lor f0 large_flag else f0 in
      let f2 := if has_flag (flags m) command then Z.lor f1 command_flag else f1 in
      t ← mem_write (e_tmpbuf e) 0 [f2];
      if 255 <? n then
        t' ← mem_write t 1 (put_uint64 n);
        Ok (next_step (set_tmp e t') (WTmp 0) 9 ESizeReady false)
      else
        t' ← mem_write t 1 [u8 n];
        Ok (next_step (set_tmp e t') (WTmp 0) 2 ESizeReady false)
  end.

(** [size_ready]: the body, from the message or from the record. *)
Definition enc_size_ready (e : v2_encoder) (h : heap) : result v2_encoder :=
  match e_data e with
  | None =>
      match e_msg e with
      | None => Stop NullDeref
      | Some m => n ← size h m; Ok (next_step e (WMsg 0) n EMessageReady true)
      end
  | Some _ => Ok (next_step e (WData 0) (e_size e) EMessageReady true)
  end.

Definition enc_run_next (e : v2_encoder) (h : heap) : result v2_encoder :=
  match e_next e with
  | EMessageReady => enc_message_ready e h
  | ESizeReady => enc_size_ready e h
  end.

(** The [n] bytes at [write_pos]. *)
Definition source (e : v2_encoder) (h : heap) (n : Z) : result (list Z) :=
  if n =? 0 then Ok []
  else match write_pos e with
  | WNull => Stop NullDeref
  | WTmp off => mem_read (e_tmpbuf e) off n
  | WMsg off =>
      match e_msg e with
      | Some m => match body_buf h m with Some buf => mem_read buf off n | None => Stop NullDeref end
      | None => Stop NullDeref
      end
  | WData off => match e_data e with Some (_, bytes) => mem_read bytes off n | None => Stop NullDeref end
  end.

Definition wpos_add (p : wpos) (n : Z) : wpos :=
  match p with WNull => WNull | WTmp o => WTmp (o + n) | WMsg o => WMsg (o + n) | WData o => WData (o + n) end.

(** [in_progress->close (); in_progress->init ()], the acknowledgement and the
    reset. *)
Definition release (e : v2_encoder) (h : heap) (m : msg_t) : result (v2_encoder * heap * list Z) :=
  '(h', m', r) ← close h m;
  _ ← afs_assert (bool_decide (r = RC0));
  match e_data e with
  | Some (p, _) => Ok (set_loaded e None None 0, h', [p])
  | None => Ok (set_loaded e None None (e_size e), h', [])
  end.

(** The loop of [encode]: [own] when the caller gave no buffer, [out] what is in
    the buffer so far. *)
Fixpoint encode_loop (fuel : nat) (own : bool) (buffersize : Z) (e : v2_encoder) (h : heap) (out : list Z)
    : result (v2_encoder * heap * list Z * list Z) :=
  let pos := Z.of_nat (length out) in
  if negb (pos <? buffersize) then Ok (e, h, out, [])
  else match fuel with
  | O => Stop WouldBlock
  | S fuel' =>
      if (to_write e =? 0) && new_msg_flag e then
        match e_msg e with
        | None => Stop NullDeref
        | Some m => '(e', h', acks) ← release e h m; Ok (e', h', out, acks)
        end
      else
        e1 ← (if to_write e =? 0 then enc_run_next e h else Ok e);
        if (pos =? 0) && own && (buffersize <=? to_write e1) then
          bytes ← source e1 h (to_write e1);
          Ok (next_step e1 WNull 0 (e_next e1) (new_msg_flag e1), h, bytes, [])
        else
          let to_copy := Z.min (to_write e1) (buffersize - pos) in
          bytes ← source e1 h to_copy;
          encode_loop fuel' own buffersize
            (next_step e1 (wpos_add (write_pos e1) to_copy) (to_write e1 - to_copy) (e_next e1) (new_msg_flag e1))
            h (out ++ bytes)
  end.

(** [encode (data_, size_)]: [None] asks for the encoder's own buffer.  Returns
    the bytes and the records acknowledged. *)
Definition encode (e : v2_encoder) (h : heap) (buffer : option Z) : result (v2_encoder * heap * list Z * list Z) :=
  match e_msg e with
  | None => Ok (e, h, [], [])
  | Some _ =>
      match buffer with
      | None => encode_loop 5 true (e_bufsize e) e h []
      | Some n => encode_loop 5 false n e h []
      end
  end.

(** [load_msg (msg_, data_, size_)]. *)
Definition load_msg (e : v2_encoder) (h : heap) (m : msg_t) (d : option (Z * list Z)) (n : Z) : result v2_encoder :=
  _ ← afs_assert (if e_msg e is None then true else false);
  enc_run_next (set_loaded e (Some m) d n) h.

(** Successive [encode] calls with the given buffers: the bytes and the
    acknowledgements, in order. *)
Fixpoint encode_calls (bufs : list (option Z)) (e : v2_encoder) (h : heap) : result (v2_encoder * heap * list Z * list Z) :=
  match bufs with
  | [] => Ok (e, h, [], [])
  | bf :: bufs' =>
      '(e1, h1, out1, ack1) ← encode e h bf;
      '(e2, h2, out2, ack2) ← encode_calls bufs' e1 h1;
      Ok (e2, h2, out1 ++ out2, ack1 ++ ack2)
  end.

(** A record of 300 bytes in small buffers, then a short message. *)
Example encode_record :
  let h0 := {| blocks := ∅; next_addr := 1; ffn_calls := [] |} in
  let '(h1, m, _) := init_size (fun _ => true) h0 300 in
  match e ← load_msg (new_v2_encoder 8192) h1 m (Some (77, replicate 300 5)) 300;
        encode_calls [Some 4; None; Some 10] e h1 with
  | Ok (e, h, out, acks) => bool_decide (out = frame 0 (replicate 300 5)) && bool_decide (acks = [77])
      && bool_decide (blocks h = ∅)
  | Stop _ => false
  end = true.
Proof. by vm_compute. Qed.


(** ** The bytes on the wire *)

Definition pos_buf (e : v2_encoder) (h : heap) : option (list Z * Z) :=
  match write_pos e with
  | WNull => None
  | WTmp off => Some (e_tmpbuf e, off)
  | WMsg off => m ← e_msg e; buf ← body_buf h m; Some (buf, off)
  | WData off => d ← e_data e; Some (d.2, off)
  end.

(** The bytes [l] are at [write_pos]. *)
Definition readable (e : v2_encoder) (h : heap) (l : list Z) : Prop :=
  l = [] \/ exists buf off, pos_buf e h = Some (buf, off) /\ 0 <= off /\
    off + Z.of_nat (length l) <= Z.of_nat (length buf) /\ take (length l) (drop (Z.to_nat off) buf) = l.

Lemma source_ok e h l (n : nat) :
  readable e h l -> (n <= length l)%nat ->
  source e h (Z.of_nat n) = Ok (take n l) /\
  forall w s fl, readable (next_step e (wpos_add (write_pos e) (Z.of_nat n)) w s fl) h (drop n l).
Proof.
  intros Hr Hn. unfold source. destruct (Z.eqb_spec (Z.of_nat n) 0) as [E|E].
  { assert (n = 0%nat) as -> by lia. split; [done|]. intros w s fl. destruct Hr as [->|(buf & off & Hp & H0 & Hl & Ht)]; [by left|].
    right. exists buf, off. unfold pos_buf in *. cbn [write_pos next_step e_tmpbuf e_msg e_data] in *. rewrite drop_0.
    split; [|done]. destruct (write_pos e); cbn [wpos_add]; change (Z.of_nat 0) with 0; by rewrite ?Z.add_0_r. }
  destruct Hr as [->|(buf & off & Hp & H0 & Hl & Ht)]; [simpl in Hn; lia|].
  assert (Hread : mem_read buf off (Z.of_nat n) = Ok (take n l)).
  { rewrite mem_read_ok by lia. rewrite Nat2Z.id, <- Ht. by rewrite take_take, Nat.min_l by lia. }
  split.
  - unfold pos_buf in Hp. destruct (write_pos e); [done| | |].
    + by injection Hp as -> ->.
    + destruct (e_msg e) as [m|]; [|done]. cbn in Hp. destruct (body_buf h m); [|done]. cbn in Hp. by injection Hp as -> ->.
    + destruct (e_data e) as [[q bytes]|]; [|done]. cbn in Hp. by injection Hp as -> ->.
  - intros w s fl. right. exists buf, (off + Z.of_nat n). split.
    + unfold pos_buf in *. cbn [write_pos next_step e_tmpbuf e_msg e_data]. destruct (write_pos e); [done| | |]; cbn [wpos_add].
      * injection Hp as -> ->. done.
      * destruct (e_msg e) as [m|]; [|done]. cbn in *. destruct (body_buf h m); [|done]. cbn in *. by injection Hp as -> ->.
      * destruct (e_data e) as [[q bytes]|]; [|done]. cbn in *. by injection Hp as -> ->.
    + rewrite length_drop. split; [lia|]. split; [lia|]. rewrite Z2Nat.inj_add, Nat2Z.id, <- drop_drop by lia.
      rewrite <- Ht at 2. by rewrite skipn_firstn_comm.
Qed.

Section OneMessage.
Context (h : heap) (m : msg_t) (b : list Z) (d : option (Z * list Z)) (n bs : Z).
Hypothesis Hsize : size h m = Ok (Z.of_nat (length b)).
Hypothesis Hbody : match d with
  | Some (_, bytes) => n = Z.of_nat (length b) /\ (length b <= length bytes)%nat /\ take (length b) bytes = b
  | None => exists buf, body_buf h m = Some buf /\ (length b <= length buf)%nat /\ take (length b) buf = b
  end.
Hypothesis Hlen : in_unsigned 64 (Z.of_nat (length b)).
Context (hc : heap).
Hypothesis Hclose : close h m = Ok (hc, {| u := closed; flags := flags m |}, RC0).

Definition acks : list Z := match d with Some (p, _) => [p] | None => [] end.

(** The encoder when [rest] of the frame is still to be written. *)
Record encoding (e : v2_encoder) (rest : list Z) : Prop := {
  en_msg : e_msg e = Some m;
  en_data : e_data e = d;
  en_size : e_size e = n;
  en_buf : e_bufsize e = bs;
  en_tmp : length (e_tmpbuf e) = 9%nat;
  en_rest : exists l, to_write e = Z.of_nat (length l) /\ readable e h l /\
    if new_msg_flag e then rest = l /\ e_next e = EMessageReady else rest = l ++ b /\ e_next e = ESizeReady
}.

(** The encoder when the message is done. *)
Definition idle (e : v2_encoder) : Prop :=
  e_msg e = None /\ e_data e = None /\ e_next e = EMessageReady /\ length (e_tmpbuf e) = 9%nat /\ e_bufsize e = bs.

Lemma header_written e :
  e_msg e = Some m -> e_data e = d -> e_size e = n -> e_bufsize e = bs -> length (e_tmpbuf e) = 9%nat ->
  exists e', enc_message_ready e h = Ok e' /\ encoding e' (frame (flags m) b) /\ new_msg_flag e' = false.
Proof.
  intros Hm Hd Hn Hb Ht. unfold enc_message_ready. rewrite Hm, Hsize. cbn [mbind result_bind]. cbv zeta.
  assert (Hfl : (if has_flag (flags m) command
      then Z.lor (if 255 <? Z.of_nat (length b) then Z.lor (if has_flag (flags m) more then more_flag else 0) large_flag
                  else if has_flag (flags m) more then more_flag else 0) command_flag
      else if 255 <? Z.of_nat (length b) then Z.lor (if has_flag (flags m) more then more_flag else 0) large_flag
           else if has_flag (flags m) more then more_flag else 0) = flag_byte (flags m) b).
  { unfold flag_byte. by destruct (has_flag (flags m) command), (has_flag (flags m) more), (255 <? Z.of_nat (length b)). }
  rewrite Hfl. destruct (e_tmpbuf e) as [|x0 [|x1 [|x2 [|x3 [|x4 [|x5 [|x6 [|x7 [|x8 [|? ?]]]]]]]]]] eqn:Et; try done.
  rewrite (eq_refl : mem_write [x0; x1; x2; x3; x4; x5; x6; x7; x8] 0 [flag_byte (flags m) b]
    = Ok [flag_byte (flags m) b; x1; x2; x3; x4; x5; x6; x7; x8]). cbn [mbind result_bind].
  pose proof (frame_eq (flags m) b) as Hfr. unfold len_bytes in Hfr. destruct (255 <? Z.of_nat (length b)).
  - rewrite (eq_refl : mem_write [flag_byte (flags m) b; x1; x2; x3; x4; x5; x6; x7; x8] 1 (put_uint64 (Z.of_nat (length b)))
      = Ok (flag_byte (flags m) b :: put_uint64 (Z.of_nat (length b)))). cbn [mbind result_bind].
    eexists. split; [reflexivity|]. split; [|done]. split; try done.
    exists (flag_byte (flags m) b :: put_uint64 (Z.of_nat (length b))). split; [done|]. split; [|done].
    right. eexists _, 0. split; [reflexivity|]. done.
  - rewrite (eq_refl : mem_write [flag_byte (flags m) b; x1; x2; x3; x4; x5; x6; x7; x8] 1 [u8 (Z.of_nat (length b))]
      = Ok [flag_byte (flags m) b; u8 (Z.of_nat (length b)); x2; x3; x4; x5; x6; x7; x8]). cbn [mbind result_bind].
    eexists. split; [reflexivity|]. split; [|done]. split; try done.
    exists [flag_byte (flags m) b; u8 (Z.of_nat (length b))]. split; [done|]. split; [|done].
    right. eexists _, 0. split; [reflexivity|]. done.
Qed.

(** [size_ready] points to the body. *)
Lemma body_located e :
  encoding e b -> new_msg_flag e = false ->
  exists e', enc_run_next e h = Ok e' /\ encoding e' b /\ new_msg_flag e' = true.
Proof.
  intros [Hm Hd Hn Hb Ht (l & Htw & Hr & Hrest)] Hfl. rewrite Hfl in Hrest. destruct Hrest as [_ Hnx].
  unfold enc_run_next, enc_size_ready. rewrite Hnx, Hd. destruct d as [[p bytes]|] eqn:Ed.
  - eexists. split; [reflexivity|]. split; [|done]. destruct Hbody as (En & Hle & Htk). split; cbn; try congruence.
    exists b. cbn [to_write next_step new_msg_flag]. split; [congruence|]. split; [|done].
    right. exists bytes, 0. unfold pos_buf. cbn [write_pos next_step e_data]. rewrite Hd. split; [done|]. split; [lia|]. split; [lia|done].
  - rewrite Hm, Hsize. cbn [mbind result_bind]. eexists. split; [reflexivity|]. split; [|done].
    destruct Hbody as (buf & Hbuf & Hle & Htk). split; cbn; try congruence. exists b. cbn [to_write next_step new_msg_flag]. split; [done|].
    split; [|done]. right. exists buf, 0. unfold pos_buf. cbn [write_pos next_step e_msg]. rewrite Hm. cbn. rewrite Hbuf. cbn.
    split; [done|]. split; [lia|]. split; [lia|done].
Qed.

(** What a call of [encode] with room in the buffer does: it appends the next
    bytes of the frame, at least one, or finishes the message. *)
Definition appended (e' : v2_encoder) (h' : heap) (out out' : list Z) (ack : list Z) (rest : list Z) (progress : Prop) : Prop :=
  exists k : nat, (k <= length rest)%nat /\ out' = out ++ take k rest /\
    ((ack = [] /\ h' = h /\ encoding e' (drop k rest) /\ (progress -> (1 <= k)%nat)) \/
     (ack = acks /\ h' = hc /\ k = length rest /\ idle e')).

Lemma appended_more e' h' out l out' ack rest P Q :
  appended e' h' (out ++ l) out' ack rest P -> (1 <= length l)%nat \/ (Q -> P) -> appended e' h' out out' ack (l ++ rest) Q.
Proof.
  intros (k & Hk & -> & Hcase) HPQ. exists (length l + k)%nat. rewrite length_app. split; [lia|].
  split; [by rewrite take_app_add', <- app_assoc|]. destruct Hcase as [(-> & -> & Henc & Hp)|(-> & -> & -> & Hid)].
  - left. rewrite drop_app_add'; [|done]. split_and!; try done. intros HQ. destruct HPQ as [|HPQ]; [lia|]. specialize (Hp (HPQ HQ)). lia.
  - right. split_and!; try done.
Qed.

Lemma encoding_copied e l rest (k : nat) :
  encoding e rest -> to_write e = Z.of_nat (length l) -> readable e h l ->
  (if new_msg_flag e then rest = l /\ e_next e = EMessageReady else rest = l ++ b /\ e_next e = ESizeReady) ->
  (k <= length l)%nat ->
  encoding (next_step e (wpos_add (write_pos e) (Z.of_nat k)) (to_write e - Z.of_nat k) (e_next e) (new_msg_flag e)) (drop k rest).
Proof.
  intros [Hm Hd Hn Hb Ht _] Htw Hr Hrest Hk. split; try done. exists (drop k l). cbn [to_write next_step new_msg_flag e_next].
  split; [rewrite length_drop; lia|]. split; [by apply (source_ok e h l k)|].
  destruct (new_msg_flag e); destruct Hrest as [-> ?]; [done|]. split; [|done]. by rewrite drop_app_le by lia.
Qed.


Lemma loop_full fuel own bsz e out :
  bsz <= Z.of_nat (length out) -> encode_loop fuel own bsz e h out = Ok (e, h, out, []).
Proof. intros Hle. destruct fuel; cbn [encode_loop]; by rewrite (proj2 (Z.ltb_ge _ _)) by lia. Qed.

(** The part of the loop that gives out bytes. *)
Definition emit (fuel : nat) (own : bool) (bsz : Z) (e1 : v2_encoder) (out : list Z) :=
  if (Z.of_nat (length out) =? 0) && own && (bsz <=? to_write e1) then
    bytes ← source e1 h (to_write e1);
    Ok (next_step e1 WNull 0 (e_next e1) (new_msg_flag e1), h, bytes, [])
  else
    let to_copy := Z.min (to_write e1) (bsz - Z.of_nat (length out)) in
    bytes ← source e1 h to_copy;
    encode_loop fuel own bsz
      (next_step e1 (wpos_add (write_pos e1) to_copy) (to_write e1 - to_copy) (e_next e1) (new_msg_flag e1))
      h (out ++ bytes).

Lemma emit_ok fuel own bsz e1 out rest l :
  Z.of_nat (length out) < bsz -> encoding e1 rest -> to_write e1 = Z.of_nat (length l) -> readable e1 h l ->
  (if new_msg_flag e1 then rest = l /\ e_next e1 = EMessageReady else rest = l ++ b /\ e_next e1 = ESizeReady) ->
  (forall e2 out2, encoding e2 (drop (length l) rest) -> new_msg_flag e2 = new_msg_flag e1 -> to_write e2 = 0 ->
     Z.of_nat (length out2) < bsz ->
     exists e' h' out' ack, encode_loop fuel own bsz e2 h out2 = Ok (e', h', out', ack) /\
       appended e' h' out2 out' ack (drop (length l) rest) True) ->
  exists e' h' out' ack, emit fuel own bsz e1 out = Ok (e', h', out', ack) /\ appended e' h' out out' ack rest True.
Proof.
  intros Hpos Henc Htw Hr Hsh Hcont. assert (Hpre : exists t, rest = l ++ t).
  { destruct (new_msg_flag e1); destruct Hsh as [-> _]; [exists []; by rewrite app_nil_r|by exists b]. }
  destruct Hpre as [t Ht]. rewrite Ht, drop_app_length in Hcont. unfold emit. destruct ((_ =? 0) && own && _) eqn:Ez.
  - apply andb_true_iff in Ez as [[H0%Z.eqb_eq _]%andb_true_iff Hbig%Z.leb_le]. assert (out = []) as -> by (destruct out; [done|simpl in H0; lia]).
    destruct (source_ok e1 h l (length l) Hr (le_n _)) as [Hs _]. rewrite Htw, Hs, firstn_all. cbn [mbind result_bind].
    eexists _, _, _, _. split; [reflexivity|]. exists (length l). rewrite Ht, length_app. split; [lia|].
    split; [by rewrite take_app_length|]. left. split; [done|]. split; [done|]. split; [|intros _; cbn [length] in *; lia].
    rewrite drop_app_length. destruct Henc as [Hm Hd Hn Hb Htm _]. split; try done. exists []. split; [done|]. split; [by left|].
    cbn [new_msg_flag next_step e_next]. destruct (new_msg_flag e1); destruct Hsh as [Hre ?]; (split; [|done]); rewrite Hre in Ht.
    + apply (f_equal length) in Ht. rewrite length_app in Ht. destruct t; [done|simpl in Ht; lia].
    + by apply app_inv_head in Ht.
  - cbv zeta. set (k := Z.to_nat (Z.min (to_write e1) (bsz - Z.of_nat (length out)))).
    replace (Z.min (to_write e1) (bsz - Z.of_nat (length out))) with (Z.of_nat k) by lia.
    destruct (source_ok e1 h l k Hr) as [Hs _]; [lia|]. rewrite Hs. cbn [mbind result_bind].
    pose proof (encoding_copied e1 l rest k Henc Htw Hr Hsh) as Hc. specialize (Hc ltac:(lia)).
    destruct (decide (k = length l /\ Z.of_nat (length out) + Z.of_nat k < bsz)) as [[Ek Hroom]|Hfull].
    + rewrite Ek, firstn_all in *. rewrite Ht, drop_app_length in Hc.
      destruct (Hcont _ (out ++ l) Hc eq_refl) as (e' & h' & out' & ack & -> & Happ); [cbn; lia|rewrite length_app; lia|].
      eexists _, _, _, _. split; [reflexivity|]. rewrite Ht. apply (appended_more _ _ _ _ _ _ _ True); [done|by right].
    + rewrite loop_full by (rewrite length_app, length_take; lia). eexists _, _, _, _. split; [reflexivity|].
      exists k. rewrite Ht, length_app. split; [lia|]. split; [by rewrite take_app_le by lia|]. left. rewrite <- Ht. split_and!; try done. lia.
Qed.

Lemma loop_unfold fuel own bsz e out :
  Z.of_nat (length out) < bsz -> (to_write e =? 0) && new_msg_flag e = false ->
  encode_loop (S fuel) own bsz e h out =
    (e1 ← (if to_write e =? 0 then enc_run_next e h else Ok e); emit fuel own bsz e1 out).
Proof. intros Hlt Hc. cbn [encode_loop]. rewrite (proj2 (Z.ltb_lt _ _)) by lia. cbn [negb]. by rewrite Hc. Qed.

(** Finishing the message. *)
Lemma loop_release fuel own bsz e out :
  Z.of_nat (length out) < bsz -> encoding e [] -> new_msg_flag e = true ->
  exists e' h' out' ack, encode_loop (S fuel) own bsz e h out = Ok (e', h', out', ack) /\ appended e' h' out out' ack [] True.
Proof.
  intros Hlt [Hm Hd Hn Hb Ht (l & Htw & _ & Hrest)] Hfl. rewrite Hfl in Hrest. destruct Hrest as [<- Hnx].
  cbn [encode_loop]. rewrite (proj2 (Z.ltb_lt _ _)) by lia. cbn [negb]. rewrite Htw, Hfl, Hm. cbn [length Z.of_nat Z.eqb andb].
  unfold release. rewrite Hclose. cbn [mbind result_bind]. rewrite bool_decide_true by done. cbn [afs_assert mbind result_bind].
  rewrite Hd. assert (Happ : forall e', idle e' -> appended e' hc out out acks [] True).
  { intros e' Hid. exists 0%nat. split; [simpl; lia|]. split; [by rewrite app_nil_r|]. by right. }
  unfold acks in *. destruct d as [[p bytes]|]; cbn [mbind result_bind]; (eexists _, _, _, _; split; [reflexivity|]; by apply Happ).
Qed.

Lemma loop_body fuel own bsz e out rest :
  Z.of_nat (length out) < bsz -> encoding e rest -> new_msg_flag e = true ->
  exists e' h' out' ack, encode_loop (S (S fuel)) own bsz e h out = Ok (e', h', out', ack) /\ appended e' h' out out' ack rest True.
Proof.
  intros Hlt Henc Hfl. pose proof Henc as [Hm Hd Hn Hb Ht (l & Htw & Hr & Hrest)].
  assert (rest = l) as -> by (rewrite Hfl in Hrest; by destruct Hrest). destruct (nil_or_length_pos l) as [->|Hl].
  { by apply loop_release. }
  rewrite loop_unfold; [|done|rewrite Htw, (proj2 (Z.eqb_neq _ _)); [done|destruct l; simpl in *; [done|lia]]].
  rewrite (proj2 (Z.eqb_neq (to_write e) 0)) by (rewrite Htw; destruct l; simpl in *; [done|lia]). cbn [mbind result_bind].
  apply (emit_ok _ _ _ _ _ _ l); try done. intros e2 out2 He2 Hfl2 _ Hlt2. rewrite drop_all in *. apply loop_release; [done|done|congruence].
Qed.

Lemma loop_header fuel own bsz e out rest :
  Z.of_nat (length out) < bsz -> encoding e rest ->
  exists e' h' out' ack, encode_loop (S (S (S fuel))) own bsz e h out = Ok (e', h', out', ack) /\ appended e' h' out out' ack rest True.
Proof.
  intros Hlt Henc. destruct (new_msg_flag e) eqn:Hfl; [by apply (loop_body (S fuel))|].
  assert (Hlast : forall f1 e2 out2, encoding e2 b -> new_msg_flag e2 = false -> to_write e2 = 0 -> Z.of_nat (length out2) < bsz ->
    exists e' h' out' ack, encode_loop (S (S f1)) own bsz e2 h out2 = Ok (e', h', out', ack) /\ appended e' h' out2 out' ack b True).
  { intros f1 e2 out2 He2 Hfl2 Htw2 Hlt2. rewrite loop_unfold by (try done; by rewrite Hfl2, andb_false_r). rewrite Htw2. cbn [Z.eqb].
    destruct (body_located e2 He2 Hfl2) as (e1 & Hrun & He1 & Hfl1). rewrite Hrun. cbn [mbind result_bind].
    pose proof He1 as [_ _ _ _ _ (l1 & Htw1 & Hr1 & Hs1)]. assert (b = l1) as Eb by (rewrite Hfl1 in Hs1; by destruct Hs1).
    apply (emit_ok _ _ _ _ _ _ l1); try done. intros e3 out3 He3 Hfl3 _ Hlt3.
    rewrite <- Eb, drop_all in *. apply loop_release; [done|done|congruence]. }
  pose proof Henc as [Hm Hd Hn Hb Ht (l & Htw & Hr & Hrest)]. pose proof Hrest as Hrest'. rewrite Hfl in Hrest. destruct Hrest as [-> Hnx].
  destruct (nil_or_length_pos l) as [->|Hl]; [by apply (Hlast (S fuel))|].
  assert (Hne : to_write e <> 0) by (rewrite Htw; destruct l; simpl in *; [done|lia]).
  rewrite loop_unfold by (try done; by rewrite (proj2 (Z.eqb_neq _ _))).
  rewrite (proj2 (Z.eqb_neq (to_write e) 0)) by done. cbn [mbind result_bind].
  apply (emit_ok _ _ _ _ _ _ l); try done. intros e2 out2 He2 Hfl2 Htw2 Hlt2. rewrite drop_app_length in *.
  apply Hlast; [done|congruence|done|done].
Qed.


Definition buffer_ok (bf : option Z) : Prop := match bf with Some k => 1 <= k | None => True end.

Lemma encode_ok e rest bf :
  encoding e rest -> 1 <= bs -> buffer_ok bf ->
  exists e' h' out' ack, encode e h bf = Ok (e', h', out', ack) /\ appended e' h' [] out' ack rest True.
Proof.
  intros Henc Hbs Hbf. pose proof Henc as [Hm _ _ Hb _ _]. unfold encode. rewrite Hm, Hb.
  destruct bf as [k|]; cbn in Hbf; apply loop_header; try done; cbn; lia.
Qed.

Lemma encode_calls_idle bufs e h0 : e_msg e = None -> encode_calls bufs e h0 = Ok (e, h0, [], []).
Proof.
  intros He. induction bufs as [|bf bufs IH]; [done|]. cbn [encode_calls]. unfold encode at 1. rewrite He. cbn [mbind result_bind].
  by rewrite IH.
Qed.

Lemma encode_calls_ok bufs e rest :
  encoding e rest -> 1 <= bs -> Forall buffer_ok bufs ->
  exists e' h' out ack, encode_calls bufs e h = Ok (e', h', out, ack) /\ out `prefix_of` rest /\
    ((ack = [] /\ h' = h /\ encoding e' (drop (length out) rest) /\ (length bufs <= length out)%nat) \/
     (ack = acks /\ h' = hc /\ out = rest /\ idle e')).
Proof.
  intros Henc Hbs. revert e rest Henc. induction bufs as [|bf bufs IH]; intros e rest Henc HF.
  { exists e, h, [], []. split; [done|]. split; [apply prefix_nil|]. left. split_and!; try done. }
  apply Forall_cons in HF as [Hbf HF]. destruct (encode_ok e rest bf Henc Hbs Hbf) as (e1 & h1 & out1 & ack1 & He & k & Hk & Ho & Hcase).
  cbn [app] in Ho. cbn [encode_calls]. rewrite He. cbn [mbind result_bind].
  assert (Hl1 : length out1 = k) by (rewrite Ho, length_take; lia).
  destruct Hcase as [(-> & -> & Henc1 & Hp)|(-> & -> & Hkr & Hid)].
  - destruct (IH e1 (drop k rest) Henc1 HF) as (e' & h' & out2 & ack2 & Hrun & [t Ht] & Hc2). rewrite Hrun. cbn [mbind result_bind app].
    assert (Hsplit : rest = out1 ++ out2 ++ t) by (rewrite <- (take_drop k rest) at 1; by rewrite <- Ho, Ht).
    eexists _, _, _, _. split; [reflexivity|]. split; [exists t; by rewrite <- app_assoc|].
    destruct Hc2 as [(-> & -> & Henc2 & Hlen2)|(-> & -> & -> & Hid)].
    + left. rewrite length_app, Hl1, <- drop_drop. split_and!; try done. specialize (Hp I). simpl. lia.
    + right. split_and!; try done. by rewrite Ho, take_drop.
  - destruct Hid as (Hem & Hid). rewrite (encode_calls_idle bufs e1 hc Hem). cbn [mbind result_bind]. rewrite !app_nil_r.
    eexists _, _, _, _. split; [reflexivity|]. rewrite Ho, Hkr, firstn_all. split; [done|]. by right.
Qed.

(** Loading the message into an idle encoder. *)
Lemma load_msg_ok e :
  idle e -> exists e0, load_msg e h m d n = Ok e0 /\ encoding e0 (frame (flags m) b).
Proof.
  intros (Hm & Hd & Hnx & Ht & Hb). unfold load_msg. rewrite Hm. cbn [afs_assert mbind result_bind].
  unfold enc_run_next. cbn [e_next set_loaded]. rewrite Hnx.
  destruct (header_written (set_loaded e (Some m) d n)) as (e0 & Hrun & Henc & _); try done. by exists e0.
Qed.

End OneMessage.

(** The encoder is right for every buffer: from an idle encoder, a loaded
    message (its body in the message or in a record of the out-callback) comes
    out of successive [encode] calls, with buffers of any sizes, as a prefix of
    its frame; after more calls than the frame has bytes it is the whole frame,
    the message is closed, the encoder is idle again and the record has been
    acknowledged exactly once, and never before its last byte was given out. *)
Theorem encoder_writes_frame h hc m b d n e bufs :
  size h m = Ok (Z.of_nat (length b)) -> close h m = Ok (hc, {| u := closed; flags := flags m |}, RC0) ->
  match d with
  | Some (_, bytes) => n = Z.of_nat (length b) /\ (length b <= length bytes)%nat /\ take (length b) bytes = b
  | None => exists buf, body_buf h m = Some buf /\ (length b <= length buf)%nat /\ take (length b) buf = b
  end ->
  idle (e_bufsize e) e -> 1 <= e_bufsize e -> Forall buffer_ok bufs ->
  exists e0 e' h' out ack, load_msg e h m d n = Ok e0 /\ encode_calls bufs e0 h = Ok (e', h', out, ack) /\
    out `prefix_of` frame (flags m) b /\ (out = frame (flags m) b \/ ack = []) /\
    ((length (frame (flags m) b) < length bufs)%nat ->
     out = frame (flags m) b /\ ack = acks d /\ h' = hc /\ idle (e_bufsize e) e').
Proof.
  intros Hs Hc Hbody Hid Hbs HF. destruct (load_msg_ok h m b d n (e_bufsize e) Hs e Hid) as (e0 & Hload & Henc).
  destruct (encode_calls_ok h m b d n (e_bufsize e) Hs Hbody hc Hc bufs e0 _ Henc Hbs HF) as (e' & h' & out & ack & Hrun & Hpre & Hcase).
  exists e0, e', h', out, ack. split; [done|]. split; [done|]. split; [done|].
  destruct Hcase as [(-> & -> & _ & Hlen)|(-> & -> & -> & Hid')].
  - split; [by right|]. intros Hmany. apply prefix_length in Hpre. lia.
  - split; [by left|]. done.
Qed.

Definition sample_heap : heap := {| blocks := ∅; next_addr := 1; ffn_calls := [] |}.
Definition sample_msg : heap * msg_t * rc := init_size (fun _ => true) sample_heap 40.

Lemma encoder_writes_frame_witness :
  let h := sample_msg.1.1 in let m := sample_msg.1.2 in let b := replicate 40 9 in
  exists e0 e' h' out ack, load_msg (new_v2_encoder 8192) h m (Some (77, b)) 40 = Ok e0 /\
    encode_calls (replicate 50 (Some 7)) e0 h = Ok (e', h', out, ack) /\
    out `prefix_of` frame (flags m) b /\ (out = frame (flags m) b \/ ack = []) /\
    ((length (frame (flags m) b) < length (replicate 50 (Some 7)))%nat ->
     out = frame (flags m) b /\ ack = acks (Some (77, b)) /\
     h' = {| blocks := ∅; next_addr := 2; ffn_calls := [] |} /\ idle 8192 e').
Proof.
  intros h m b. apply (encoder_writes_frame h {| blocks := ∅; next_addr := 2; ffn_calls := [] |} m b (Some (77, b)) 40
    (new_v2_encoder 8192) (replicate 50 (Some 7))).
  - reflexivity.
  - by vm_compute.
  - split; [done|]. split; [done|]. apply firstn_all.
  - done.
  - done.
  - apply Forall_replicate. cbn. lia.
Defined.


(** ** A connection *)

(** What the engine does with the records of the out-callback: a message of the
    record's size, [load_msg], and [encode] calls with some buffers. *)
Fixpoint send_records (mem : Z -> bool) (recs : list (Z * list Z * list (option Z))) (e : v2_encoder) (h : heap)
    : result (v2_encoder * heap * list Z * list Z) :=
  match recs with
  | [] => Ok (e, h, [], [])
  | (p, bytes, bufs) :: recs' =>
      let '(h1, m, _) := init_size mem h (Z.of_nat (length bytes)) in
      e0 ← load_msg e h1 m (Some (p, bytes)) (Z.of_nat (length bytes));
      '(e1, h2, out1, ack1) ← encode_calls bufs e0 h1;
      '(e2, h3, out2, ack2) ← send_records mem recs' e1 h2;
      Ok (e2, h3, out1 ++ out2, ack1 ++ ack2)
  end.

(** A fresh message has its size and can be closed, which frees its block. *)
Lemma fresh_message mem h n :
  heap_wf h -> 0 <= n -> sizeof_content + n < 2 ^ 64 -> mem (sizeof_content + n) = true ->
  exists h1 m hc, init_size mem h n = (h1, m, RC0) /\ flags m = 0 /\ size h1 m = Ok n /\
    close h1 m = Ok (hc, {| u := closed; flags := 0 |}, RC0) /\ blocks hc = blocks h /\ heap_wf hc.
Proof.
  intros Hwf H0 Hn Hmem. unfold init_size. destruct (Z.leb_spec n max_vsm_size); unfold max_vsm_size in *.
  - eexists _, _, h. split; [reflexivity|]. split; [done|]. cbn. rewrite unsigned_of_small by (unfold in_unsigned; lia). done.
  - cbv zeta. rewrite (unsigned_of_small 64) by (unfold in_unsigned, sizeof_content in *; lia). rewrite Hmem. cbn [alloc].
    eexists _, _, _. split; [reflexivity|]. split; [done|]. unfold size, close. cbn [u blocks]. rewrite lookup_insert_eq. cbn [c_size].
    split; [done|]. unfold free_content. cbn [blocks check u negb flags]. change (has_flag 0 shared) with false. cbv iota. cbn [negb].
    rewrite lookup_insert_eq. cbn [mbind result_bind]. split; [reflexivity|]. cbn [blocks next_addr].
    assert (Hfresh : blocks h !! next_addr h = None).
    { destruct (blocks h !! next_addr h) eqn:E; [|done]. apply elem_of_dom_2 in E. specialize (Hwf _ E). lia. }
    rewrite delete_insert_id by done. split; [done|]. intros l Hl. cbn [blocks next_addr] in *.
    rewrite ?delete_insert_id in Hl by done.
    specialize (Hwf l Hl). lia.
Qed.

(** The records as messages. *)
Definition as_messages (recs : list (Z * list Z * list (option Z))) : list (Z * list Z) := (fun r => (0, r.1.2)) <$> recs.

Lemma send_records_ok mem recs e h :
  idle (e_bufsize e) e -> 1 <= e_bufsize e -> heap_wf h ->
  Forall (fun r => valid_msg mem (-1) 0 r.1.2 /\ Forall buffer_ok r.2 /\ (length (frame 0 r.1.2) < length r.2)%nat) recs ->
  exists e' h', send_records mem recs e h = Ok (e', h', frames (as_messages recs), (fun r => r.1.1) <$> recs) /\
    idle (e_bufsize e) e' /\ blocks h' = blocks h.
Proof.
  intros Hid Hbs Hwf HF. revert e h Hid Hbs Hwf. induction HF as [|[[p bytes] bufs] recs [Hv [Hbf Hmany]] _ IH]; intros e h Hid Hbs Hwf.
  { by eexists _, _. }
  cbn [fst snd] in *. destruct Hv as [_ Hsz _ Hmem].
  destruct (fresh_message mem h (Z.of_nat (length bytes)) Hwf ltac:(lia) Hsz Hmem) as (h1 & m & hc & Hini & Hfl & Hs & Hc & Hbl & Hwfc).
  destruct (load_msg_ok h1 m bytes (Some (p, bytes)) (Z.of_nat (length bytes)) (e_bufsize e) Hs e Hid) as (e0 & Hload & Henc).
  rewrite Hfl in Henc. rewrite <- Hfl in Hc.
  destruct (encode_calls_ok h1 m bytes (Some (p, bytes)) (Z.of_nat (length bytes)) (e_bufsize e) Hs
    (conj eq_refl (conj (le_n _) (firstn_all _))) hc Hc bufs e0 _ Henc Hbs Hbf) as (e1 & h2 & out & ack & Hrun & Hpre & Hcase).
  destruct Hcase as [(-> & -> & _ & Hlen)|(-> & -> & -> & Hid')]; [apply prefix_length in Hpre; lia|].
  assert (Hb1 : e_bufsize e1 = e_bufsize e) by (by destruct Hid' as (_ & _ & _ & _ & ?)).
  destruct (IH e1 hc) as (e' & h' & Hrest & Hid2 & Hbl2); [by rewrite Hb1|by rewrite Hb1|done|].
  exists e', h'. cbn [send_records]. rewrite Hini, Hload. cbn [mbind result_bind]. rewrite Hrun. cbn [mbind result_bind].
  rewrite Hrest. cbn [mbind result_bind]. split; [done|]. rewrite Hb1 in Hid2. split; [done|congruence].
Qed.

(** End to end over a connection: whatever the buffers the sender encodes
    into and whatever the sizes of the receiver's reads, the records the
    out-callback hands over arrive as the same messages in the same order, each
    record is acknowledged once and in order, and the sender's messages are all
    freed. *)
Theorem connection_delivers mem recs (sizes : list Z) :
  Forall (fun r => valid_msg mem (-1) 0 r.1.2 /\ Forall buffer_ok r.2 /\ (length (frame 0 r.1.2) < length r.2)%nat) recs ->
  Forall (fun k => 1 <= k) sizes -> (length (frames (as_messages recs)) <= length sizes)%nat ->
  exists e h stream' d h', send_records mem recs (new_v2_encoder 8192) sample_heap = Ok (e, h, frames (as_messages recs), (fun r => r.1.1) <$> recs) /\
    blocks h = ∅ /\
    run_reads mem sizes (frames (as_messages recs)) (new_v2_decoder 8192 (-1)) sample_heap [] = Ok (stream', d, h', as_messages recs, None).
Proof.
  intros HF Hsz Hall. assert (Hwf : heap_wf sample_heap) by (intros l Hl; cbn in Hl; by rewrite dom_empty_L in Hl).
  destruct (send_records_ok mem recs (new_v2_encoder 8192) sample_heap) as (e & h & Hsend & _ & Hbl); try done.
  assert (Hv : Forall (fun q => valid_msg mem (-1) q.1 q.2) (as_messages recs)).
  { unfold as_messages. apply Forall_fmap. eapply Forall_impl; [exact HF|]. by intros r [Hv _]. }
  destruct (run_reads_streaming mem (-1) 8192 ltac:(lia) sizes _ _ sample_heap _ _ []
    (streaming_start (-1) 8192 (as_messages recs) sample_heap Hwf) eq_refl Hv Hsz) as (stream' & d & h' & got & qs' & Hrun & Hms & Hs & Hlen).
  assert (E : stream' = []) by (destruct stream'; [done|simpl in Hlen; lia]).
  pose proof (proj1 (streaming_rem _ _ _ _ _ _ _ Hs) E) as ->. rewrite app_nil_r in Hms. rewrite <- Hms in Hrun.
  exists e, h, stream', d, h'. done.
Qed.

Lemma connection_delivers_witness :
  let recs := [(77, replicate 40 9, replicate 50 (Some 7)); (78, replicate 32 1, replicate 40 None)] in
  exists e h stream' d h', send_records (fun _ => true) recs (new_v2_encoder 8192) sample_heap = Ok (e, h, frames (as_messages recs), (fun r => r.1.1) <$> recs) /\
    blocks h = ∅ /\
    run_reads (fun _ => true) (replicate 90 3) (frames (as_messages recs)) (new_v2_decoder 8192 (-1)) sample_heap [] = Ok (stream', d, h', as_messages recs, None).
Proof.
  intros recs. apply (connection_delivers (fun _ => true) recs (replicate 90 3)).
  - repeat apply Forall_cons_2; [| |apply Forall_nil_2]; (split; [by split; cbn; try lia|split; [apply Forall_replicate; cbn; lia|vm_compute; lia]]).
  - apply Forall_replicate. lia.
  - vm_compute. lia.
Defined.

End Enc.
