(* ===== verification/Mechanism.v ===== *)
(** The NULL security mechanism of the handshake (src/net/mechanism.cpp,
    src/net/null_mechanism.cpp): the READY command with the socket type and the
    identity as properties, and its parser.  The theorems: properties written by
    one side are parsed by the other, and two sockets of compatible types
    complete the handshake, in either order. *)
From stdpp Require Import base numbers list gmap.
From Stdlib Require Import ZArith Lia.
From S2P Require Import Prelude Msg Codec.

Module Mech.
Import Wire Msg Frame.

(** Socket types of zmq.h. *)
Definition ZMQ_PAIR : Z := 0.
Definition ZMQ_PUB : Z := 1.
Definition ZMQ_SUB : Z := 2.
Definition ZMQ_REQ : Z := 3.
Definition ZMQ_REP : Z := 4.
Definition ZMQ_DEALER : Z := 5.
Definition ZMQ_ROUTER : Z := 6.
Definition ZMQ_PULL : Z := 7.
Definition ZMQ_PUSH : Z := 8.
Definition ZMQ_XPUB : Z := 9.
Definition ZMQ_XSUB : Z := 10.

(** Names, as bytes. *)
Definition s_PAIR : list Z := [80; 65; 73; 82].
Definition s_PUB : list Z := [80; 85; 66].
Definition s_SUB : list Z := [83; 85; 66].
Definition s_REQ : list Z := [82; 69; 81].
Definition s_REP : list Z := [82; 69; 80].
Definition s_DEALER : list Z := [68; 69; 65; 76; 69; 82].
Definition s_ROUTER : list Z := [82; 79; 85; 84; 69; 82].
Definition s_PULL : list Z := [80; 85; 76; 76].
Definition s_PUSH : list Z := [80; 85; 83; 72].
Definition s_XPUB : list Z := [88; 80; 85; 66].
Definition s_XSUB : list Z := [88; 83; 85; 66].
Definition s_STREAM : list Z := [83; 84; 82; 69; 65; 77].
Definition s_Identity : list Z := [73; 100; 101; 110; 116; 105; 116; 121].
Definition s_Socket_Type : list Z := [83; 111; 99; 107; 101; 116; 45; 84; 121; 112; 101].
Definition s_READY : list Z := [5; 82; 69; 65; 68; 89].

Definition names : list (list Z) :=
  [s_PAIR; s_PUB; s_SUB; s_REQ; s_REP; s_DEALER; s_ROUTER; s_PULL; s_PUSH; s_XPUB; s_XSUB; s_STREAM].

Definition socket_type_string (socket_type : Z) : result (list Z) :=
  _ ← afs_assert ((0 <=? socket_type) && (socket_type <=? 10));
  at_index names socket_type.

(** The options the mechanism reads. *)
Record mech_options := mkoptions {
  opt_type : Z;               (* int *)
  opt_recv_identity : bool;
  opt_identity : list Z       (* identity [0 .. identity_size) *)
}.

(** What [add_property] writes at [ptr]. *)
Definition property_bytes (name value : list Z) : list Z :=
  [u8 (Z.of_nat (length name))] ++ name ++ put_uint32 (u32 (Z.of_nat (length value))) ++ value.

Definition add_property (buf : list Z) (ptr : Z) (name value : list Z) : result (list Z * Z) :=
  _ ← afs_assert (Z.of_nat (length name) <=? 255);
  b1 ← mem_write buf ptr [u8 (Z.of_nat (length name))];
  b2 ← mem_write b1 (ptr + 1) name;
  _ ← afs_assert (Z.of_nat (length value) <=? 2147483647);
  b3 ← mem_write b2 (ptr + 1 + Z.of_nat (length name)) (put_uint32 (u32 (Z.of_nat (length value))));
  b4 ← mem_write b3 (ptr + 1 + Z.of_nat (length name) + 4) value;
  Ok (b4, 1 + Z.of_nat (length name) + 4 + Z.of_nat (length value)).

Definition check_socket_type (options_type : Z) (type_ : list Z) : bool :=
  let same s := bool_decide (type_ = s) in
  if options_type =? ZMQ_REQ then same s_REP || same s_ROUTER
  else if options_type =? ZMQ_REP then same s_REQ || same s_DEALER
  else if options_type =? ZMQ_DEALER then same s_REP || same s_DEALER || same s_ROUTER
  else if options_type =? ZMQ_ROUTER then same s_REQ || same s_DEALER || same s_ROUTER
  else if options_type =? ZMQ_PUSH then same s_PULL
  else if options_type =? ZMQ_PULL then same s_PUSH
  else if options_type =? ZMQ_PUB then same s_SUB || same s_XSUB
  else if options_type =? ZMQ_SUB then same s_PUB || same s_XPUB
  else if options_type =? ZMQ_XPUB then same s_SUB || same s_XSUB
  else if options_type =? ZMQ_XSUB then same s_PUB || same s_XPUB
  else if options_type =? ZMQ_PAIR then same s_PAIR
  else false.

(** One turn of [parse_metadata] on the bytes left: the rest, and what became of
    the property. *)
Inductive parsed :=
| PBreak (rest : list Z)                       (* break, with these bytes left *)
| PProp (name value rest : list Z).

Definition parse_property (l : list Z) : parsed :=
  match l with
  | [] => PBreak []
  | b :: l1 =>
      let name_length := Z.to_nat b in
      if (length l1 <? name_length)%nat then PBreak l1
      else
        let name := take name_length l1 in
        let l2 := drop name_length l1 in
        if (length l2 <? 4)%nat then PBreak l2
        else
          let value_length := Z.to_nat (get_uint32 l2) in
          let l3 := drop 4 l2 in
          if (length l3 <? value_length)%nat then PBreak l3
          else PProp name (take value_length l3) (drop value_length l3)
  end.

(** [parse_metadata]: the identity it sets, if any, and the return value.  Each
    turn takes at least five bytes, so the length is enough fuel. *)
Fixpoint parse_metadata (fuel : nat) (o : mech_options) (l : list Z) (ident : list Z) : list Z * rc :=
  let finish (rest : list Z) := (ident, match rest with [] => RC0 | _ => RCErr EPROTO end) in
  match l with
  | _ :: _ :: _ =>
      match fuel with
      | O => (ident, RCErr EPROTO)
      | S fuel' =>
          match parse_property l with
          | PBreak rest => finish rest
          | PProp name value rest =>
              if bool_decide (name = s_Identity) && opt_recv_identity o then parse_metadata fuel' o rest value
              else if bool_decide (name = s_Socket_Type) then
                if check_socket_type (opt_type o) value then parse_metadata fuel' o rest ident
                else (ident, RCErr EINVAL)
              else parse_metadata fuel' o rest ident
          end
      end
  | _ => finish l
  end.

Record null_mechanism := mkmech {
  options : mech_options;
  peer_id : list Z;
  ready_command_sent : bool;
  ready_command_received : bool
}.

Definition new_null_mechanism (o : mech_options) : null_mechanism :=
  {| options := o; peer_id := []; ready_command_sent := false; ready_command_received := false |}.

Definition has_identity (t : Z) : bool := (t =? ZMQ_REQ) || (t =? ZMQ_DEALER) || (t =? ZMQ_ROUTER).

(** [next_handshake_command]: the READY command in a 512-byte buffer, then in
    the message. *)
Definition next_handshake_command (mem : Z -> bool) (mc : null_mechanism) (h : heap) (m : msg_t)
    : result (null_mechanism * heap * msg_t * rc) :=
  if ready_command_sent mc then Ok (mc, h, m, RCErr EAGAIN)
  else
    b0 ← mem_write (replicate 512 0) 0 s_READY;
    socket_type ← socket_type_string (opt_type (options mc));
    '(b1, n1) ← add_property b0 6 s_Socket_Type socket_type;
    '(b2, n2) ← (if has_identity (opt_type (options mc))
                 then add_property b1 (6 + n1) s_Identity (opt_identity (options mc)) else Ok (b1, 0));
    let command_size := 6 + n1 + n2 in
    let '(h', m', r) := init_size mem h command_size in
    _ ← afs_assert (bool_decide (r = RC0));
    cmd ← mem_read b2 0 command_size;
    '(h'', m'') ← store_body h' m' 0 cmd;
    Ok ({| options := options mc; peer_id := peer_id mc; ready_command_sent := true;
           ready_command_received := ready_command_received mc |}, h'', m'', RC0).

Definition process_handshake_command (mc : null_mechanism) (h : heap) (m : msg_t)
    : result (null_mechanism * heap * msg_t * rc) :=
  if ready_command_received mc then Ok (mc, h, m, RCErr EPROTO)
  else
    body ← body_of h m;
    if (length body <? 6)%nat || negb (bool_decide (take 6 body = s_READY)) then Ok (mc, h, m, RCErr EPROTO)
    else
      let '(ident, r) := parse_metadata (length body) (options mc) (drop 6 body) (peer_id mc) in
      let mc' := {| options := options mc; peer_id := ident; ready_command_sent := ready_command_sent mc;
                    ready_command_received := true |} in
      match r with
      | RC0 =>
          '(h', m', r') ← close h m;
          _ ← afs_assert (bool_decide (r' = RC0));
          Ok (mc', h', init, RC0)
      | RCErr e => Ok (mc', h, m, RCErr e)
      end.

Definition is_handshake_complete (mc : null_mechanism) : bool := ready_command_received mc && ready_command_sent mc.

(** [peer_identity]: the identity as a message. *)
Definition peer_identity (mem : Z -> bool) (mc : null_mechanism) (h : heap) : result (heap * msg_t) :=
  let '(h', m, r) := init_size mem h (Z.of_nat (length (peer_id mc))) in
  _ ← afs_assert (bool_decide (r = RC0));
  '(h'', m') ← store_body h' m 0 (peer_id mc);
  Ok (h'', set_flags m' identity).


(** ** Properties on the wire *)

Lemma length_property_bytes name value :
  length (property_bytes name value) = (5 + length name + length value)%nat.
Proof. unfold property_bytes, put_uint32. rewrite !length_app. simpl. lia. Qed.

Lemma parse_property_bytes name value rest :
  Z.of_nat (length name) <= 255 -> Z.of_nat (length value) < 2 ^ 31 ->
  parse_property (property_bytes name value ++ rest) = PProp name value rest.
Proof.
  intros Hn Hv. unfold property_bytes. rewrite <- !app_assoc. cbn [app parse_property].
  rewrite (unsigned_of_small 8) by (unfold in_unsigned; lia). rewrite !Nat2Z.id.
  rewrite (proj2 (Nat.ltb_ge _ _)) by (rewrite length_app; lia).
  rewrite drop_app_length, take_app_length. rewrite (proj2 (Nat.ltb_ge _ _)) by (rewrite length_app; unfold put_uint32; simpl; lia).
  rewrite (unsigned_of_small 32) by (unfold in_unsigned; lia). rewrite get_put_uint32 by (unfold in_unsigned; lia). rewrite Nat2Z.id.
  rewrite (drop_app_length' (put_uint32 _)) by done.
  rewrite (proj2 (Nat.ltb_ge _ _)) by (rewrite length_app; lia). by rewrite drop_app_length, take_app_length.
Qed.

(** [add_property] writes these bytes behind what is there. *)
Lemma add_property_ok pre tail name value :
  Z.of_nat (length name) <= 255 -> Z.of_nat (length value) < 2 ^ 31 ->
  (length (property_bytes name value) <= length tail)%nat ->
  add_property (pre ++ tail) (Z.of_nat (length pre)) name value =
    Ok ((pre ++ property_bytes name value) ++ drop (length (property_bytes name value)) tail,
        Z.of_nat (length (property_bytes name value))).
Proof.
  intros Hn Hv Hfit. rewrite length_property_bytes in *. unfold add_property.
  rewrite (proj2 (Z.leb_le _ 255)) by lia. cbn [afs_assert mbind result_bind].
  rewrite mem_write_snoc by (simpl; lia). cbn [mbind result_bind].
  rewrite mem_write_snoc by (rewrite ?length_app, ?length_drop; simpl; lia). cbn [mbind result_bind].
  rewrite (proj2 (Z.leb_le _ 2147483647)) by lia. cbn [afs_assert mbind result_bind].
  rewrite mem_write_snoc by (rewrite ?length_app, ?length_drop; simpl; lia). cbn [mbind result_bind].
  rewrite mem_write_snoc by (rewrite ?length_app, ?length_drop; simpl; lia). cbn [mbind result_bind].
  f_equal. f_equal; [|lia]. unfold property_bytes. rewrite !drop_drop, <- !app_assoc. do 4 f_equal. f_equal. f_equal.
  cbn [length put_uint32]. lia.
Qed.

(** The READY command of a socket. *)
Definition ready_command (o : mech_options) (name : list Z) : list Z :=
  s_READY ++ property_bytes s_Socket_Type name ++
  (if has_identity (opt_type o) then property_bytes s_Identity (opt_identity o) else []).

Definition options_ok (o : mech_options) : Prop :=
  0 <= opt_type o <= 10 /\ Z.of_nat (length (opt_identity o)) <= 255.

Lemma socket_type_ok o :
  options_ok o -> exists name, socket_type_string (opt_type o) = Ok name /\ (length name <= 6)%nat /\
    names !! Z.to_nat (opt_type o) = Some name.
Proof.
  intros [Ht _]. unfold socket_type_string. rewrite (proj2 (Z.leb_le 0 _)), (proj2 (Z.leb_le _ 10)) by lia.
  cbn [andb afs_assert mbind result_bind]. destruct (lookup_lt_is_Some_2 names (Z.to_nat (opt_type o))) as [name Hname]; [simpl; lia|].
  exists name. split; [apply at_index_ok; split; [lia|done]|]. split; [|done].
  assert (HF : Forall (fun s => (length s <= 6)%nat) names) by (repeat constructor; simpl; lia).
  exact (Forall_lookup_1 _ _ _ _ HF Hname).
Qed.

Lemma store_fresh_body mem h b :
  sizeof_content + Z.of_nat (length b) < 2 ^ 64 -> mem (sizeof_content + Z.of_nat (length b)) = true ->
  exists h' m', init_size mem h (Z.of_nat (length b)) = (h', m', RC0) /\
    exists h'' m'', store_body h' m' 0 b = Ok (h'', m'') /\ body_of h'' m'' = Ok b /\ flags m'' = 0.
Proof.
  intros Hsz Hmem. unfold init_size. destruct (Z.leb_spec (Z.of_nat (length b)) max_vsm_size); unfold max_vsm_size in *.
  - eexists _, _. split; [reflexivity|]. unfold store_body. cbn [u flags].
    rewrite (mem_write_snoc [] (replicate 29 0)) by (simpl; lia). cbn [mbind result_bind app].
    eexists _, _. split; [reflexivity|]. unfold body_of. cbn [u]. rewrite unsigned_of_small by (unfold in_unsigned; lia).
    split; [|done]. by apply (mem_read_app_mid [] b).
  - cbv zeta. rewrite (unsigned_of_small 64) by (unfold in_unsigned, sizeof_content in *; lia). rewrite Hmem. cbn [alloc].
    eexists _, _. split; [reflexivity|]. unfold store_body. cbn [u flags blocks]. rewrite lookup_insert_eq. cbn [payload].
    set (n := Z.to_nat (sizeof_content + Z.of_nat (length b) - sizeof_content)).
    rewrite (mem_write_snoc [] (replicate n 0)) by (rewrite ?length_replicate; simpl; unfold n; lia). cbn [mbind result_bind app].
    eexists _, _. split; [reflexivity|]. unfold body_of. cbn [u blocks]. rewrite lookup_insert_eq. cbn [payload set_payload c_size].
    split; [|done]. by apply (mem_read_app_mid [] b).
Qed.

(** The command a socket sends. *)
Lemma next_command_ok mem mc h m :
  options_ok (options mc) -> ready_command_sent mc = false -> (forall n, mem n = true) ->
  exists mc' h' m' name, next_handshake_command mem mc h m = Ok (mc', h', m', RC0) /\
    names !! Z.to_nat (opt_type (options mc)) = Some name /\
    body_of h' m' = Ok (ready_command (options mc) name) /\
    mc' = {| options := options mc; peer_id := peer_id mc; ready_command_sent := true;
             ready_command_received := ready_command_received mc |}.
Proof.
  intros Hok Hns Hmem. destruct (socket_type_ok (options mc) Hok) as (name & Hst & Hl & Hname). destruct Hok as [_ Hid].
  unfold next_handshake_command. rewrite Hns.
  rewrite (mem_write_snoc [] (replicate 512 0)) by (simpl; lia). cbn [mbind result_bind app]. rewrite Hst. cbn [mbind result_bind].
  pose proof (length_property_bytes s_Socket_Type name) as Hlp. change (length s_Socket_Type) with 11%nat in Hlp.
  set (t1 := drop (length s_READY) (replicate 512 0)). assert (Ht1 : length t1 = 506%nat) by (unfold t1; by rewrite length_drop, length_replicate).
  rewrite (add_property_ok s_READY t1) by (rewrite ?Hlp, ?Ht1; simpl; lia). cbn [mbind result_bind].
  set (pre1 := s_READY ++ property_bytes s_Socket_Type name). set (t2 := drop (length (property_bytes s_Socket_Type name)) t1).
  assert (Hpre1 : length pre1 = (22 + length name)%nat) by (unfold pre1; rewrite length_app, Hlp; simpl; lia).
  assert (Ht2 : length t2 = (490 - length name)%nat) by (unfold t2; rewrite length_drop, Hlp, Ht1; lia).
  pose proof (length_property_bytes s_Identity (opt_identity (options mc))) as Hli. change (length s_Identity) with 8%nat in Hli.
  assert (Hfin : exists b2 n2 cmd, (if has_identity (opt_type (options mc))
      then add_property (pre1 ++ t2) (6 + Z.of_nat (length (property_bytes s_Socket_Type name))) s_Identity (opt_identity (options mc))
      else Ok (pre1 ++ t2, 0)) = Ok (b2, n2) /\ cmd = ready_command (options mc) name /\
      6 + Z.of_nat (length (property_bytes s_Socket_Type name)) + n2 = Z.of_nat (length cmd) /\ mem_read b2 0 (Z.of_nat (length cmd)) = Ok cmd /\
      (length cmd <= 512)%nat).
  { unfold ready_command. destruct (has_identity (opt_type (options mc))).
    - replace (6 + Z.of_nat (length (property_bytes s_Socket_Type name))) with (Z.of_nat (length pre1)) by lia.
      rewrite add_property_ok by (rewrite ?Hli, ?Ht2; simpl; lia). eexists _, _, _. split; [reflexivity|]. split; [reflexivity|].
      rewrite app_assoc. fold pre1. rewrite length_app. split; [lia|]. split; [|rewrite Hpre1, Hli; lia].
      rewrite <- length_app. by apply (mem_read_app_mid []).
    - eexists _, _, _. split; [reflexivity|]. split; [reflexivity|]. rewrite app_nil_r. fold pre1. split; [lia|].
      split; [|lia]. by apply (mem_read_app_mid []). }
  destruct Hfin as (b2 & n2 & cmd & -> & Hcmd & Hsize & Hread & Hlc). cbn [mbind result_bind]. cbv zeta. rewrite Hsize.
  destruct (store_fresh_body mem h cmd) as (h' & m' & -> & h'' & m'' & Hstore & Hbody & _); [unfold sizeof_content; lia|apply Hmem|].
  rewrite bool_decide_true by done. cbn [afs_assert mbind result_bind]. rewrite Hread. cbn [mbind result_bind]. rewrite Hstore.
  cbn [mbind result_bind]. eexists _, _, _, name. split; [reflexivity|]. split; [done|]. split; [by rewrite Hbody, Hcmd|done].
Qed.


Lemma parse_metadata_property fuel o l ident name value rest :
  (2 <= length l)%nat -> parse_property l = PProp name value rest ->
  parse_metadata (S fuel) o l ident =
    if bool_decide (name = s_Identity) && opt_recv_identity o then parse_metadata fuel o rest value
    else if bool_decide (name = s_Socket_Type) then
      if check_socket_type (opt_type o) value then parse_metadata fuel o rest ident else (ident, RCErr EINVAL)
    else parse_metadata fuel o rest ident.
Proof.
  intros Hl Hp. destruct l as [|a [|b l]]; [simpl in Hl; lia|simpl in Hl; lia|].
  cbn [parse_metadata]. by rewrite Hp.
Qed.

Lemma parse_metadata_nil fuel o ident : parse_metadata fuel o [] ident = (ident, RC0).
Proof. by destruct fuel. Qed.

(** What the receiver of a READY command makes of it. *)
Definition accepted_identity (o1 o2 : mech_options) (ident : list Z) : list Z :=
  if has_identity (opt_type o1) && opt_recv_identity o2 then opt_identity o1 else ident.

Lemma parse_ready o1 o2 name fuel ident :
  options_ok o1 -> (length name <= 6)%nat -> (3 <= fuel)%nat ->
  parse_metadata fuel o2 (drop 6 (ready_command o1 name)) ident =
    if check_socket_type (opt_type o2) name then (accepted_identity o1 o2 ident, RC0) else (ident, RCErr EINVAL).
Proof.
  intros [_ Hid] Hn Hf. unfold ready_command. change 6%nat with (length s_READY). rewrite drop_app_length.
  destruct fuel as [|[|[|fuel]]]; [lia|lia|lia|].
  rewrite (parse_metadata_property _ o2 _ ident s_Socket_Type name
    (if has_identity (opt_type o1) then property_bytes s_Identity (opt_identity o1) else []));
    [|rewrite length_app, length_property_bytes; lia|by apply parse_property_bytes; [simpl|]; lia].
  change (bool_decide (s_Socket_Type = s_Identity)) with false. cbn [andb]. rewrite bool_decide_true by done.
  destruct (check_socket_type (opt_type o2) name); [|done]. unfold accepted_identity.
  destruct (has_identity (opt_type o1)); cbn [andb]; [|apply parse_metadata_nil].
  rewrite (parse_metadata_property _ o2 _ ident s_Identity (opt_identity o1) []);
    [|rewrite length_property_bytes; lia|rewrite <- (app_nil_r (property_bytes _ _)); apply parse_property_bytes; simpl; lia].
  rewrite bool_decide_true by done. cbn [andb]. change (bool_decide (s_Identity = s_Socket_Type)) with false.
  destruct (opt_recv_identity o2); apply parse_metadata_nil.
Qed.

Lemma process_ready mc h m hc o1 name :
  options_ok o1 -> (length name <= 6)%nat -> ready_command_received mc = false ->
  body_of h m = Ok (ready_command o1 name) -> close h m = Ok (hc, {| u := closed; flags := flags m |}, RC0) ->
  process_handshake_command mc h m =
    let mc' ident := {| options := options mc; peer_id := ident; ready_command_sent := ready_command_sent mc; ready_command_received := true |} in
    if check_socket_type (opt_type (options mc)) name
    then Ok (mc' (accepted_identity o1 (options mc) (peer_id mc)), hc, init, RC0)
    else Ok (mc' (peer_id mc), h, m, RCErr EINVAL).
Proof.
  intros Hok Hn Hnr Hb Hc. unfold process_handshake_command. rewrite Hnr, Hb. cbn [mbind result_bind].
  assert (Hlen : (22 <= length (ready_command o1 name))%nat).
  { unfold ready_command. rewrite !length_app, length_property_bytes. simpl. lia. }
  rewrite (proj2 (Nat.ltb_ge _ _)) by lia.
  assert (Htk : take 6 (ready_command o1 name) = s_READY) by done. rewrite Htk, bool_decide_true by done. cbn [orb negb].
  rewrite (parse_ready o1 (options mc) name) by (done || lia). cbv zeta.
  destruct (check_socket_type (opt_type (options mc)) name); [|done]. rewrite Hc. cbn [mbind result_bind].
  by rewrite bool_decide_true.
Qed.

(** Two socket types that may talk to each other. *)
Definition compatible (t1 t2 : Z) : bool :=
  match names !! Z.to_nat t1 with Some name => check_socket_type t2 name | None => false end.

Lemma compatible_sym t1 t2 : 0 <= t1 <= 10 -> 0 <= t2 <= 10 -> compatible t1 t2 = compatible t2 t1.
Proof.
  intros H1 H2.
  assert (Hall : Forall (fun a => Forall (fun b => compatible a b = compatible b a) (indices 11)) (indices 11))
    by (repeat constructor; by vm_compute).
  assert (Hin : forall t, 0 <= t <= 10 -> t ∈ indices 11).
  { intros t Ht. unfold indices. apply list_elem_of_fmap. exists (Z.to_nat t). split; [lia|]. apply elem_of_seq. lia. }
  rewrite Forall_forall in Hall. specialize (Hall t1 (Hin t1 H1)). rewrite Forall_forall in Hall. exact (Hall t2 (Hin t2 H2)).
Qed.

(** One side sends its READY command, the other side gets its bytes in a message
    of its own and processes it. *)
Definition exchange (mem : Z -> bool) (a b : null_mechanism) (h : heap) : result (null_mechanism * null_mechanism * rc) :=
  '(a', h1, m1, r1) ← next_handshake_command mem a h init;
  match r1 : rc with
  | RCErr e => Ok (a', b, RCErr e)
  | RC0 =>
      body ← body_of h1 m1;
      let '(h2, m2, _) := init_size mem h (Z.of_nat (length body)) in
      '(h3, m3) ← store_body h2 m2 0 body;
      '(b', _, _, r) ← process_handshake_command b h3 m3;
      Ok (a', b', r)
  end.

(** The message just filled can be closed. *)
Lemma fresh_body_closes mem h b :
  sizeof_content + Z.of_nat (length b) < 2 ^ 64 -> mem (sizeof_content + Z.of_nat (length b)) = true ->
  exists h2 m2 h3 m3 hc, init_size mem h (Z.of_nat (length b)) = (h2, m2, RC0) /\ store_body h2 m2 0 b = Ok (h3, m3) /\
    body_of h3 m3 = Ok b /\ close h3 m3 = Ok (hc, {| u := closed; flags := flags m3 |}, RC0).
Proof.
  intros Hsz Hmem. destruct (store_fresh_body mem h b Hsz Hmem) as (h2 & m2 & Hini & h3 & m3 & Hst & Hbody & Hfl).
  assert (exists hc, close h3 m3 = Ok (hc, {| u := closed; flags := flags m3 |}, RC0)) as [hc Hc].
  { unfold close, check, body_of in *. rewrite Hfl. destruct (u m3) as [| |l| |]; try done; cbn [negb]; [by eexists|].
    change (has_flag 0 shared) with false. cbn [negb]. unfold free_content. destruct (blocks h3 !! l); [|done].
    cbn [mbind result_bind]. by eexists. }
  by exists h2, m2, h3, m3, hc.
Qed.

Lemma exchange_ok mem a b h :
  options_ok (options a) -> (forall n, mem n = true) -> ready_command_sent a = false -> ready_command_received b = false ->
  exchange mem a b h = Ok ({| options := options a; peer_id := peer_id a; ready_command_sent := true;
                              ready_command_received := ready_command_received a |},
    {| options := options b;
       peer_id := if compatible (opt_type (options a)) (opt_type (options b))
                  then accepted_identity (options a) (options b) (peer_id b) else peer_id b;
       ready_command_sent := ready_command_sent b; ready_command_received := true |},
    if compatible (opt_type (options a)) (opt_type (options b)) then RC0 else RCErr EINVAL).
Proof.
  intros Hok Hmem Hs Hr. destruct (next_command_ok mem a h init Hok Hs Hmem) as (a' & h1 & m1 & name & Hnx & Hname & Hbody & ->).
  unfold exchange. rewrite Hnx. cbn [mbind result_bind]. rewrite Hbody. cbn [mbind result_bind].
  assert (Hnl : (length name <= 6)%nat).
  { assert (HF : Forall (fun s => (length s <= 6)%nat) names) by (repeat constructor; simpl; lia). exact (Forall_lookup_1 _ _ _ _ HF Hname). }
  assert (Hcl : Z.of_nat (length (ready_command (options a) name)) <= 512).
  { destruct Hok as [_ Hid]. unfold ready_command. rewrite !length_app, length_property_bytes.
    destruct (has_identity _); [rewrite length_property_bytes|]; simpl; lia. }
  destruct (fresh_body_closes mem h (ready_command (options a) name)) as (h2 & m2 & h3 & m3 & hc & -> & Hst & Hb3 & Hc3);
    [unfold sizeof_content; lia|apply Hmem|].
  rewrite Hst. cbn [mbind result_bind]. rewrite (process_ready b h3 m3 hc (options a) name) by done. cbv zeta.
  unfold compatible. rewrite Hname. by destruct (check_socket_type (opt_type (options b)) name).
Qed.

(** C29 The NULL handshake agrees on both sides: for any two sockets, the READY
    commands are accepted by both or rejected by both (with [EINVAL]), exactly
    as their types are compatible; when accepted, both sides consider the
    handshake complete and hold the peer's identity if they asked for it and the
    peer's type sends one. *)
Theorem null_handshake_agrees mem o1 o2 h :
  options_ok o1 -> options_ok o2 -> (forall n, mem n = true) ->
  exists a1 b1 b2 a2 r1 r2,
    exchange mem (new_null_mechanism o1) (new_null_mechanism o2) h = Ok (a1, b1, r1) /\
    exchange mem b1 a1 h = Ok (b2, a2, r2) /\ r1 = r2 /\
    (if compatible (opt_type o1) (opt_type o2)
     then r1 = RC0 /\ is_handshake_complete a2 = true /\ is_handshake_complete b2 = true /\
          peer_id b2 = accepted_identity o1 o2 [] /\ peer_id a2 = accepted_identity o2 o1 []
     else r1 = RCErr EINVAL).
Proof.
  intros H1 H2 Hmem. eexists _, _, _, _, _, _. split; [by apply exchange_ok|].
  split; [by apply exchange_ok|]. cbn [options opt_type new_null_mechanism].
  rewrite (compatible_sym (opt_type o2) (opt_type o1)) by (by destruct H1, H2).
  split; [done|]. destruct (compatible (opt_type o1) (opt_type o2)); done.
Qed.

(** The sockets of the program: a down thread pushes, an up thread pulls. *)
Lemma null_handshake_agrees_witness :
  let o1 := {| opt_type := ZMQ_PUSH; opt_recv_identity := false; opt_identity := [] |} in
  let o2 := {| opt_type := ZMQ_PULL; opt_recv_identity := false; opt_identity := [] |} in
  let h := {| blocks := ∅; next_addr := 1; ffn_calls := [] |} in
  exists a1 b1 b2 a2 r1 r2,
    exchange (fun _ => true) (new_null_mechanism o1) (new_null_mechanism o2) h = Ok (a1, b1, r1) /\
    exchange (fun _ => true) b1 a1 h = Ok (b2, a2, r2) /\ r1 = r2 /\
    (if compatible (opt_type o1) (opt_type o2)
     then r1 = RC0 /\ is_handshake_complete a2 = true /\ is_handshake_complete b2 = true /\
          peer_id b2 = accepted_identity o1 o2 [] /\ peer_id a2 = accepted_identity o2 o1 []
     else r1 = RCErr EINVAL).
Proof.
  intros o1 o2 h. apply (null_handshake_agrees (fun _ => true) o1 o2 h); [split; cbn; unfold ZMQ_PUSH, ZMQ_PULL; lia|split; cbn; unfold ZMQ_PUSH, ZMQ_PULL; lia|done].
Defined.

(** A property cut off after its name is accepted: metadata that consist of a
    name alone, of any length from 1 to 255, make [parse_metadata] return 0, for
    the check after the loop sees no bytes left. *)
Theorem truncated_property_accepted o (name : list Z) ident :
  1 <= Z.of_nat (length name) <= 255 ->
  let l := Z.of_nat (length name) :: name in parse_metadata (length l) o l ident = (ident, RC0).
Proof.
  intros Hn l. assert (Hp : parse_property l = PBreak []).
  { unfold l, parse_property. rewrite Nat2Z.id, (proj2 (Nat.ltb_ge _ _)), drop_all by lia. done. }
  unfold l in *. destruct name as [|x name]; [simpl in Hn; lia|]. cbn [length parse_metadata]. cbn [length] in Hp. by rewrite Hp.
Qed.

Lemma truncated_property_accepted_witness :
  let o := {| opt_type := ZMQ_PULL; opt_recv_identity := false; opt_identity := [] |} in
  parse_metadata 12 o (11 :: s_Socket_Type) [] = ([], RC0).
Proof.
  intros o. apply (truncated_property_accepted o s_Socket_Type []). simpl. lia.
Defined.

End Mech.
