(* ===== verification/StreamEngine.v ===== *)
(** The connection engine (src/net/stream_engine.cpp): the greeting, the
    handshake commands, the input and output events of one connection, on a
    socket whose reads and writes are a script.  The callbacks of the threads are
    parameters; the codec, the messages and the mechanism are the ones of the
    other files. *)
From stdpp Require Import base numbers list gmap.
From Stdlib Require Import ZArith Lia.
From S2P Require Import Prelude Msg Codec Encoder Mechanism.

(** ** The socket *)

Module Sock.

(** What the next [recv] and [send] calls do. *)
Inductive recv_ev := RecvBytes (l : list Z) | RecvClosed | RecvAgain | RecvFail.
Inductive send_ev := SendUpTo (n : Z) | SendAgain | SendFail.

Record sock := mksock { rx : list recv_ev; txs : list send_ev; sent : list Z }.

(** What [read] returns: bytes, 0, or -1 with [errno] (the errors that
    [errno_assert] excludes are not in the script). *)
Inductive read_res := GotBytes (l : list Z) | GotClosed | GotError (e : errno).

(** [read (data_, size_)]: at most [size_] bytes; the rest stays in the
    socket. *)
Definition read (s : sock) (size_ : Z) : sock * read_res :=
  match rx s with
  | [] => (s, GotError EAGAIN)
  | RecvBytes l :: r =>
      let n := Z.to_nat size_ in
      let r' := if (length l <=? n)%nat then r else RecvBytes (drop n l) :: r in
      ({| rx := r'; txs := txs s; sent := sent s |},
       match take n l with [] => GotClosed | b => GotBytes b end)
  | RecvClosed :: r => ({| rx := r; txs := txs s; sent := sent s |}, GotClosed)
  | RecvAgain :: r => ({| rx := r; txs := txs s; sent := sent s |}, GotError EAGAIN)
  | RecvFail :: r => ({| rx := r; txs := txs s; sent := sent s |}, GotError EOTHER)
  end.

(** [write (data_, size_)]: the number of bytes taken, 0 when the socket would
    block, -1 on failure. *)
Definition write (s : sock) (data_ : list Z) : sock * Z :=
  match txs s with
  | [] => (s, 0)
  | SendUpTo n :: r =>
      let k := Z.to_nat (Z.min n (Z.of_nat (length data_))) in
      ({| rx := rx s; txs := r; sent := sent s ++ take k data_ |}, Z.of_nat k)
  | SendAgain :: r => ({| rx := rx s; txs := r; sent := sent s |}, 0)
  | SendFail :: r => ({| rx := rx s; txs := r; sent := sent s |}, -1)
  end.

End Sock.

(** ** The engine *)

Module Engine.
Import Msg Wire Frame Enc Mech Sock.

Definition signature_size : Z := 10.
Definition v2_greeting_size : Z := 12.
Definition v3_greeting_size : Z := 64.
Definition in_batch_size : Z := 8192.
Definition out_batch_size : Z := 8192.
Definition ZMTP_1_0 : Z := 0.
Definition ZMTP_2_0 : Z := 1.
Definition ZMQ_NULL : Z := 0.
Definition ZMQ_PLAIN : Z := 1.
Definition ZMQ_CURVE : Z := 2.

(** The options the engine reads. *)
Record eng_options := mkeng_options {
  eo_mech : mech_options;
  eo_mechanism : Z;      (* int *)
  eo_maxmsgsize : Z;     (* int64_t *)
  eo_raw_sock : bool
}.

(** The member functions [read_msg] and [write_msg] point to. *)
Inductive mode := MNone | MHandshake | MData.

#[global] Instance mode_eq_dec : EqDecision mode.
Proof. solve_decision. Defined.

(** [in_bytes] and [out_bytes] are the bytes at [inpos] and [outpos]; [out_end]
    is [outpos + outsize - greeting_send] while the greeting is written. *)
Record engine := mkengine {
  in_bytes : list Z;
  out_bytes : list Z;
  out_end : Z;
  handshaking : bool;
  greeting_size : Z;
  greeting_recv : list Z;
  decoder : option v2_decoder;
  encoder : option v2_encoder;
  mech : option null_mechanism;
  read_msg : mode;
  write_msg : mode;
  input_stopped : bool;
  output_stopped : bool;
  io_error : bool;
  plugged : bool;
  pollin : bool;
  pollout : bool;
  handshake_ready : bool;
  hp : heap;
  tx_msg : msg_t;
  alive : bool
}.

Definition set_in_bytes (x : engine) v : engine :=
  mkengine v (out_bytes x) (out_end x) (handshaking x) (greeting_size x) (greeting_recv x) (decoder x) (encoder x) (mech x) (read_msg x) (write_msg x) (input_stopped x) (output_stopped x) (io_error x) (plugged x) (pollin x) (pollout x) (handshake_ready x) (hp x) (tx_msg x) (alive x).
Definition set_out_bytes (x : engine) v : engine :=
  mkengine (in_bytes x) v (out_end x) (handshaking x) (greeting_size x) (greeting_recv x) (decoder x) (encoder x) (mech x) (read_msg x) (write_msg x) (input_stopped x) (output_stopped x) (io_error x) (plugged x) (pollin x) (pollout x) (handshake_ready x) (hp x) (tx_msg x) (alive x).
Definition set_out_end (x : engine) v : engine :=
  mkengine (in_bytes x) (out_bytes x) v (handshaking x) (greeting_size x) (greeting_recv x) (decoder x) (encoder x) (mech x) (read_msg x) (write_msg x) (input_stopped x) (output_stopped x) (io_error x) (plugged x) (pollin x) (pollout x) (handshake_ready x) (hp x) (tx_msg x) (alive x).
Definition set_handshaking (x : engine) v : engine :=
  mkengine (in_bytes x) (out_bytes x) (out_end x) v (greeting_size x) (greeting_recv x) (decoder x) (encoder x) (mech x) (read_msg x) (write_msg x) (input_stopped x) (output_stopped x) (io_error x) (plugged x) (pollin x) (pollout x) (handshake_ready x) (hp x) (tx_msg x) (alive x).
Definition set_greeting_size (x : engine) v : engine :=
  mkengine (in_bytes x) (out_bytes x) (out_end x) (handshaking x) v (greeting_recv x) (decoder x) (encoder x) (mech x) (read_msg x) (write_msg x) (input_stopped x) (output_stopped x) (io_error x) (plugged x) (pollin x) (pollout x) (handshake_ready x) (hp x) (tx_msg x) (alive x).
Definition set_greeting_recv (x : engine) v : engine :=
  mkengine (in_bytes x) (out_bytes x) (out_end x) (handshaking x) (greeting_size x) v (decoder x) (encoder x) (mech x) (read_msg x) (write_msg x) (input_stopped x) (output_stopped x) (io_error x) (plugged x) (pollin x) (pollout x) (handshake_ready x) (hp x) (tx_msg x) (alive x).
Definition set_decoder (x : engine) v : engine :=
  mkengine (in_bytes x) (out_bytes x) (out_end x) (handshaking x) (greeting_size x) (greeting_recv x) v (encoder x) (mech x) (read_msg x) (write_msg x) (input_stopped x) (output_stopped x) (io_error x) (plugged x) (pollin x) (pollout x) (handshake_ready x) (hp x) (tx_msg x) (alive x).
Definition set_encoder (x : engine) v : engine :=
  mkengine (in_bytes x) (out_bytes x) (out_end x) (handshaking x) (greeting_size x) (greeting_recv x) (decoder x) v (mech x) (read_msg x) (write_msg x) (input_stopped x) (output_stopped x) (io_error x) (plugged x) (pollin x) (pollout x) (handshake_ready x) (hp x) (tx_msg x) (alive x).
Definition set_mech (x : engine) v : engine :=
  mkengine (in_bytes x) (out_bytes x) (out_end x) (handshaking x) (greeting_size x) (greeting_recv x) (decoder x) (encoder x) v (read_msg x) (write_msg x) (input_stopped x) (output_stopped x) (io_error x) (plugged x) (pollin x) (pollout x) (handshake_ready x) (hp x) (tx_msg x) (alive x).
Definition set_read_msg (x : engine) v : engine :=
  mkengine (in_bytes x) (out_bytes x) (out_end x) (handshaking x) (greeting_size x) (greeting_recv x) (decoder x) (encoder x) (mech x) v (write_msg x) (input_stopped x) (output_stopped x) (io_error x) (plugged x) (pollin x) (pollout x) (handshake_ready x) (hp x) (tx_msg x) (alive x).
Definition set_write_msg (x : engine) v : engine :=
  mkengine (in_bytes x) (out_bytes x) (out_end x) (handshaking x) (greeting_size x) (greeting_recv x) (decoder x) (encoder x) (mech x) (read_msg x) v (input_stopped x) (output_stopped x) (io_error x) (plugged x) (pollin x) (pollout x) (handshake_ready x) (hp x) (tx_msg x) (alive x).
Definition set_input_stopped (x : engine) v : engine :=
  mkengine (in_bytes x) (out_bytes x) (out_end x) (handshaking x) (greeting_size x) (greeting_recv x) (decoder x) (encoder x) (mech x) (read_msg x) (write_msg x) v (output_stopped x) (io_error x) (plugged x) (pollin x) (pollout x) (handshake_ready x) (hp x) (tx_msg x) (alive x).
Definition set_output_stopped (x : engine) v : engine :=
  mkengine (in_bytes x) (out_bytes x) (out_end x) (handshaking x) (greeting_size x) (greeting_recv x) (decoder x) (encoder x) (mech x) (read_msg x) (write_msg x) (input_stopped x) v (io_error x) (plugged x) (pollin x) (pollout x) (handshake_ready x) (hp x) (tx_msg x) (alive x).
Definition set_io_error (x : engine) v : engine :=
  mkengine (in_bytes x) (out_bytes x) (out_end x) (handshaking x) (greeting_size x) (greeting_recv x) (decoder x) (encoder x) (mech x) (read_msg x) (write_msg x) (input_stopped x) (output_stopped x) v (plugged x) (pollin x) (pollout x) (handshake_ready x) (hp x) (tx_msg x) (alive x).
Definition set_plugged (x : engine) v : engine :=
  mkengine (in_bytes x) (out_bytes x) (out_end x) (handshaking x) (greeting_size x) (greeting_recv x) (decoder x) (encoder x) (mech x) (read_msg x) (write_msg x) (input_stopped x) (output_stopped x) (io_error x) v (pollin x) (pollout x) (handshake_ready x) (hp x) (tx_msg x) (alive x).
Definition set_pollin (x : engine) v : engine :=
  mkengine (in_bytes x) (out_bytes x) (out_end x) (handshaking x) (greeting_size x) (greeting_recv x) (decoder x) (encoder x) (mech x) (read_msg x) (write_msg x) (input_stopped x) (output_stopped x) (io_error x) (plugged x) v (pollout x) (handshake_ready x) (hp x) (tx_msg x) (alive x).
Definition set_pollout (x : engine) v : engine :=
  mkengine (in_bytes x) (out_bytes x) (out_end x) (handshaking x) (greeting_size x) (greeting_recv x) (decoder x) (encoder x) (mech x) (read_msg x) (write_msg x) (input_stopped x) (output_stopped x) (io_error x) (plugged x) (pollin x) v (handshake_ready x) (hp x) (tx_msg x) (alive x).
Definition set_handshake_ready (x : engine) v : engine :=
  mkengine (in_bytes x) (out_bytes x) (out_end x) (handshaking x) (greeting_size x) (greeting_recv x) (decoder x) (encoder x) (mech x) (read_msg x) (write_msg x) (input_stopped x) (output_stopped x) (io_error x) (plugged x) (pollin x) (pollout x) v (hp x) (tx_msg x) (alive x).
Definition set_hp (x : engine) v : engine :=
  mkengine (in_bytes x) (out_bytes x) (out_end x) (handshaking x) (greeting_size x) (greeting_recv x) (decoder x) (encoder x) (mech x) (read_msg x) (write_msg x) (input_stopped x) (output_stopped x) (io_error x) (plugged x) (pollin x) (pollout x) (handshake_ready x) v (tx_msg x) (alive x).
Definition set_tx_msg (x : engine) v : engine :=
  mkengine (in_bytes x) (out_bytes x) (out_end x) (handshaking x) (greeting_size x) (greeting_recv x) (decoder x) (encoder x) (mech x) (read_msg x) (write_msg x) (input_stopped x) (output_stopped x) (io_error x) (plugged x) (pollin x) (pollout x) (handshake_ready x) (hp x) v (alive x).
Definition set_alive (x : engine) v : engine :=
  mkengine (in_bytes x) (out_bytes x) (out_end x) (handshaking x) (greeting_size x) (greeting_recv x) (decoder x) (encoder x) (mech x) (read_msg x) (write_msg x) (input_stopped x) (output_stopped x) (io_error x) (plugged x) (pollin x) (pollout x) (handshake_ready x) (hp x) (tx_msg x) v.

(** The constructor. *)
Definition new_stream_engine : engine :=
  {| in_bytes := []; out_bytes := []; out_end := 0; handshaking := true; greeting_size := v2_greeting_size;
     greeting_recv := []; decoder := None; encoder := None; mech := None; read_msg := MNone; write_msg := MNone;
     input_stopped := false; output_stopped := false; io_error := false; plugged := false; pollin := false;
     pollout := false; handshake_ready := false; hp := {| blocks := ∅; next_addr := 1; ffn_calls := [] |};
     tx_msg := init; alive := true |}.

(** What the threads promise the engine: [PushRecord] takes a record and says
    whether to finish; [PullRecord] gives a record (its address and bytes), its
    length and whether it is the last; [Ack] takes a record back. *)
Record in_callback (IS : Type) := mkin_callback { PushRecord : IS -> list Z -> result (IS * Z) }.
Record out_callback (OS : Type) := mkout_callback {
  PullRecord : OS -> result (OS * option (Z * list Z) * Z * Z);
  AckRecord : OS -> Z -> result OS
}.
Arguments PushRecord {IS}.
Arguments PullRecord {OS}.
Arguments AckRecord {OS}.

Section Connection.
Context {IS OS : Type} (icb_ops : in_callback IS) (ocb_ops : out_callback OS) (mem : Z -> bool) (opts : eng_options).

(** An engine, its socket and the state of its callbacks ([None] for a null
    callback). *)
Record conn := mkconn { eng : engine; sk : sock; icb : option IS; ocb : option OS }.

Definition on_eng (c : conn) (f : engine -> engine) : conn :=
  {| eng := f (eng c); sk := sk c; icb := icb c; ocb := ocb c |}.

(** [unplug], [terminate] and [error]: the object is deleted. *)
Definition unplug (c : conn) : result conn :=
  _ ← afs_assert (plugged (eng c));
  Ok (on_eng c (fun e => set_plugged e false)).

Definition terminate (c : conn) : result conn :=
  c' ← unplug c;
  Ok (on_eng c' (fun e => set_alive e false)).

Definition error (c : conn) : result conn := terminate c.

Definition mechanism_ready (c : conn) : conn :=
  on_eng c (fun e =>
    let e := set_write_msg (set_read_msg (set_handshake_ready e true) MData) MData in
    let e := if icb c is None then set_pollin (set_input_stopped e true) false else e in
    if ocb c is None then set_pollout (set_output_stopped e true) false else e).

(** What [read_msg] returns: 0 or -2 with the record to load, or -1. *)
Inductive pull_res := PullMsg (d : option (Z * list Z)) (n : Z) (last : bool) | PullNone.

Definition next_command (c : conn) : result (conn * pull_res) :=
  match mech (eng c) with
  | None => Stop AssertFailed
  | Some mc =>
      '(mc', h', m', r) ← next_handshake_command mem mc (hp (eng c)) (tx_msg (eng c));
      match r : rc with
      | RC0 =>
          let c1 := on_eng c (fun e => set_tx_msg (set_hp (set_mech e (Some mc')) h') (set_flags m' command)) in
          Ok (if is_handshake_complete mc' then mechanism_ready c1 else c1, PullMsg None 0 false)
      | RCErr _ => Ok (on_eng c (fun e => set_mech e (Some mc')), PullNone)
      end
  end.

Definition pull_and_encode (c : conn) : result (conn * pull_res) :=
  _ ← afs_assert (if mech (eng c) is Some _ then true else false);
  match ocb c with
  | None => Ok (c, PullNone)
  | Some os =>
      '(os', d, len, r) ← PullRecord ocb_ops os;
      let c1 := {| eng := eng c; sk := sk c; icb := icb c; ocb := Some os' |} in
      match d : option (Z * list Z) with
      | None => Ok (c1, PullNone)
      | Some _ =>
          let '(h', m', _) := init_size mem (hp (eng c)) (u32 len) in
          Ok (on_eng c1 (fun e => set_tx_msg (set_hp e h') m'), PullMsg d (u32 len) (negb (r =? 0)))
      end
  end.

(** [(this->*read_msg) (&tx_msg)]. *)
Definition run_read_msg (c : conn) : result (conn * pull_res) :=
  match read_msg (eng c) with
  | MNone => Stop NullDeref
  | MHandshake => next_command c
  | MData => pull_and_encode c
  end.

(** [out_callback->Ack] for the records the encoder is done with. *)
Definition ack_all (c : conn) (acks : list Z) : result conn :=
  foldM (fun c p =>
    match ocb c with
    | None => Stop NullDeref
    | Some os => os' ← AckRecord ocb_ops os p; Ok {| eng := eng c; sk := sk c; icb := icb c; ocb := Some os' |}
    end) acks c.

(** [encoder->encode]; the message it closes is [tx_msg]. *)
Definition run_encode (c : conn) (buffer : option Z) : result (conn * list Z) :=
  match encoder (eng c) with
  | None => Stop NullDeref
  | Some en =>
      '(en', h', bytes, acks) ← encode en (hp (eng c)) buffer;
      let closed_msg := (if e_msg en is Some _ then true else false) && (if e_msg en' is None then true else false) in
      let c1 := on_eng c (fun e => set_tx_msg (set_hp (set_encoder e (Some en')) h') (if closed_msg then init else tx_msg e)) in
      c2 ← ack_all c1 acks;
      Ok (c2, bytes)
  end.

(** The loop that fills the output: [null] while [outpos] is null. *)
Fixpoint fill_output (fuel : nat) (c : conn) (null : bool) : result conn :=
  if out_batch_size <=? Z.of_nat (length (out_bytes (eng c))) then Ok c
  else match fuel with
  | O => Stop WouldBlock
  | S fuel' =>
      '(c1, p) ← run_read_msg c;
      match p : pull_res with
      | PullNone => Ok c1
      | PullMsg d n last =>
          match encoder (eng c1) with
          | None => Stop NullDeref
          | Some en =>
              en' ← load_msg en (hp (eng c1)) (tx_msg (eng c1)) d n;
              let c2 := on_eng c1 (fun e => set_encoder e (Some en')) in
              let have := out_bytes (eng c2) in
              '(c3, bytes) ← run_encode c2 (if null : bool then None else Some (out_batch_size - Z.of_nat (length have)));
              _ ← afs_assert (0 <? Z.of_nat (length bytes));
              let c4 := on_eng c3 (fun e => set_out_bytes e (have ++ bytes)) in
              if last then Ok (on_eng c4 (fun e => set_output_stopped e true))
              else fill_output fuel' c4 false
          end
      end
  end.

(** [while (outsize) { nbytes = write (outpos, outsize); ... }]: it spins when
    the socket would block and runs off the buffer on an error. *)
Fixpoint drain_output (fuel : nat) (c : conn) : result conn :=
  match out_bytes (eng c) with
  | [] => Ok c
  | bytes =>
      match fuel with
      | O => Stop WouldBlock
      | S fuel' =>
          let '(sk', n) := write (sk c) bytes in
          if n =? -1 then Stop OutOfBounds
          else drain_output fuel' {| eng := set_out_bytes (eng c) (drop (Z.to_nat n) bytes); sk := sk'; icb := icb c; ocb := ocb c |}
      end
  end.

(** The part of [out_event] after the output buffer has been filled. *)
Definition flush_output (c : conn) : result (conn * bool) :=
  let '(sk', nbytes) := write (sk c) (out_bytes (eng c)) in
  let c := {| eng := eng c; sk := sk'; icb := icb c; ocb := ocb c |} in
  if nbytes =? -1 then Ok (on_eng c (fun e => set_pollout e false), false)
  else
    let c := on_eng c (fun e => set_out_bytes e (drop (Z.to_nat nbytes) (out_bytes e))) in
    '(c, finished) ←
      (if output_stopped (eng c) then
         '(c1, bytes) ← run_encode c None;
         c2 ← drain_output (length (txs (sk c1))) (on_eng c1 (fun e => set_out_bytes e bytes));
         let c3 := on_eng c2 (fun e => set_pollout e false) in
         if input_stopped (eng c3) then c4 ← terminate c3; Ok (c4, true) else Ok (c3, false)
       else Ok (c, false));
    if finished : bool then Ok (c, true)
    else
      Ok (if handshaking (eng c) && (length (out_bytes (eng c)) =? 0)%nat
          then on_eng c (fun e => set_pollout e false) else c, false).

Definition out_event (c : conn) : result (conn * bool) :=
  _ ← afs_assert (negb (io_error (eng c)));
  match out_bytes (eng c) with
  | _ :: _ => flush_output c
  | [] =>
      match encoder (eng c) with
      | None => _ ← afs_assert (handshaking (eng c)); Ok (c, false)
      | Some en =>
          let null := if e_msg en is None then true else false in
          '(c1, bytes) ← run_encode c None;
          c2 ← fill_output (Z.to_nat out_batch_size) (on_eng c1 (fun e => set_out_bytes e bytes)) null;
          match out_bytes (eng c2) with
          | [] => Ok (c2, false)
          | _ => flush_output c2
          end
      end
  end.

Definition restart_output (c : conn) : result conn :=
  if io_error (eng c) then Ok c
  else
    let go c := r ← out_event c; Ok r.1 in
    if output_stopped (eng c) then
      match ocb c with
      | None => Ok c
      | Some _ => go (on_eng c (fun e => set_output_stopped (set_pollout e true) false))
      end
    else go c.

(** What [write_msg] returns: 0, -1 with [errno], or -2. *)
Inductive push_res := PushOk | PushErr (e : errno) | PushLast.

Definition process_command (c : conn) (d : v2_decoder) : result (conn * v2_decoder * push_res) :=
  match mech (eng c) with
  | None => Stop AssertFailed
  | Some mc =>
      '(mc', h', m', r) ← process_handshake_command mc (hp (eng c)) (in_progress d);
      let d' := set_in_progress d m' in
      let c1 := on_eng c (fun e => set_hp (set_mech e (Some mc')) h') in
      match r : rc with
      | RCErr e => Ok (c1, d', PushErr e)
      | RC0 =>
          let c2 := if is_handshake_complete mc' then mechanism_ready c1 else c1 in
          c3 ← (if output_stopped (eng c2) then restart_output c2 else Ok c2);
          Ok (c3, d', PushOk)
      end
  end.

Definition decode_and_push (c : conn) (d : v2_decoder) : result (conn * v2_decoder * push_res) :=
  _ ← afs_assert (if mech (eng c) is Some _ then true else false);
  match icb c with
  | None => Ok (c, d, PushOk)
  | Some is_ =>
      body ← body_of (hp (eng c)) (in_progress d);
      '(is', r) ← PushRecord icb_ops is_ body;
      Ok ({| eng := eng c; sk := sk c; icb := Some is'; ocb := ocb c |}, d, if r =? 0 then PushOk else PushLast)
  end.

(** [(this->*write_msg) (decoder->msg ())]. *)
Definition run_write_msg (c : conn) (d : v2_decoder) : result (conn * v2_decoder * push_res) :=
  match write_msg (eng c) with
  | MNone => Stop NullDeref
  | MHandshake => process_command c d
  | MData => decode_and_push c d
  end.

(** After [decode] returned 1: hand the message over; the engine must still
    exist.  Only [in_event] ([mark]) notes that the last message has come. *)
Definition deliver (mark : bool) (c : conn) (d : v2_decoder) : result (conn * option errno) :=
  '(c1, d1, r) ← run_write_msg c d;
  _ ← (if alive (eng c1) then Ok tt else Stop NullDeref);
  let c2 := on_eng c1 (fun e => set_decoder e (Some d1)) in
  match r : push_res with
  | PushOk => Ok (c2, None)
  | PushErr e => Ok (c2, Some e)
  | PushLast => Ok (if mark then on_eng c2 (fun e => set_input_stopped e true) else c2, None)
  end.

(** The input loop over [in_bytes]; [Some e] when it left with -1. *)
Fixpoint in_loop (mark : bool) (fuel : nat) (c : conn) : result (conn * option errno) :=
  match in_bytes (eng c) with
  | [] => Ok (c, None)
  | bytes =>
      match fuel, decoder (eng c) with
      | O, _ => Stop WouldBlock
      | _, None => Stop NullDeref
      | S fuel', Some d =>
          '(d', h', r, used) ← decode mem d (hp (eng c)) bytes;
          let c1 := on_eng c (fun e => set_in_bytes (set_hp (set_decoder e (Some d')) h') (drop (Z.to_nat used) bytes)) in
          match r : drc with
          | DMore => Ok (c1, None)
          | DErr e => Ok (c1, Some e)
          | DMsg =>
              '(c2, x) ← deliver mark c1 d';
              match x : option errno with
              | Some e => Ok (c2, Some e)
              | None => in_loop mark fuel' c2
              end
          end
      end
  end.

(** The same for bytes that were read straight into the message. *)
Definition in_direct (c : conn) (d : v2_decoder) (bytes : list Z) : result (conn * option errno) :=
  '(d1, h1) ← store d (hp (eng c)) bytes;
  '(d2, h2, r) ← decode_in_place mem d1 h1 (Z.of_nat (length bytes));
  let c1 := on_eng c (fun e => set_hp (set_decoder e (Some d2)) h2) in
  match r : drc with
  | DMore => Ok (c1, None)
  | DErr e => Ok (c1, Some e)
  | DMsg => deliver true c1 d2
  end.


(** *** The greeting *)

Definition s_NULL : list Z := [78; 85; 76; 76].
Definition s_PLAIN : list Z := [80; 76; 65; 73; 78].
Definition s_CURVE : list Z := [67; 85; 82; 86; 69].

(** A mechanism's name in its 20-byte field. *)
Definition pad20 (s : list Z) : list Z := s ++ replicate (20 - length s) 0.

(** Write at [outpos + outsize]; [set_pollout] when the buffer was empty. *)
Definition put_greeting (c : conn) (bytes : list Z) : conn :=
  on_eng c (fun e =>
    let e := match out_bytes e with [] => set_pollout e true | _ => e end in
    set_out_end (set_out_bytes e (out_bytes e ++ bytes)) (out_end e + Z.of_nat (length bytes))).

(** What the engine answers once it has seen the signature, and once it has seen
    the peer's version. *)
Definition answer_signature (c : conn) : conn :=
  if out_end (eng c) =? signature_size then put_greeting c [3] else c.

Definition answer_version (c : conn) : result conn :=
  let e := eng c in
  if (signature_size <? Z.of_nat (length (greeting_recv e))) && (out_end e =? signature_size + 1) then
    let v := nth 10 (greeting_recv e) 0 in
    if (v =? ZMTP_1_0) || (v =? ZMTP_2_0) then Ok (put_greeting c [u8 (opt_type (eo_mech opts))])
    else
      let k := eo_mechanism opts in
      _ ← afs_assert ((k =? ZMQ_NULL) || (k =? ZMQ_PLAIN) || (k =? ZMQ_CURVE));
      let name := if k =? ZMQ_NULL then s_NULL else if k =? ZMQ_PLAIN then s_PLAIN else s_CURVE in
      Ok (on_eng (put_greeting c ([0] ++ pad20 name ++ replicate 32 0)) (fun e => set_greeting_size e v3_greeting_size))
  else Ok c.

(** How the loop that receives the greeting ends. *)
Inductive greet_res := GreetDone | GreetWait | GreetError.

Fixpoint receive_greeting (fuel : nat) (c : conn) : result (conn * greet_res) :=
  let e := eng c in
  if negb (Z.of_nat (length (greeting_recv e)) <? greeting_size e) then Ok (c, GreetDone)
  else match fuel with
  | O => Stop WouldBlock
  | S fuel' =>
      let '(sk', r) := read (sk c) (greeting_size e - Z.of_nat (length (greeting_recv e))) in
      let c := {| eng := e; sk := sk'; icb := icb c; ocb := ocb c |} in
      match r with
      | GotClosed => Ok (c, GreetError)
      | GotError EAGAIN => Ok (c, GreetWait)
      | GotError _ => Ok (c, GreetError)
      | GotBytes l =>
          let c := on_eng c (fun e => set_greeting_recv e (greeting_recv e ++ l)) in
          let g := greeting_recv (eng c) in
          if negb (nth 0 g 0 =? 255) then Ok (c, GreetDone)
          else if Z.of_nat (length g) <? signature_size then receive_greeting fuel' c
          else if negb (has_flag (nth 9 g 0) 1) then Ok (c, GreetDone)
          else
            c1 ← answer_version (answer_signature c);
            receive_greeting fuel' c1
      end
  end.

Definition is_versioned (g : list Z) : bool := (nth 0 g 0 =? 255) && has_flag (nth 9 g 0) 1.

(** The codec and the mechanism once the greeting is there. *)
Definition choose_protocol (c : conn) : result (conn * bool) :=
  let e := eng c in
  let g := greeting_recv e in
  let success (c : conn) :=
    let c1 := match out_bytes (eng c) with [] => on_eng c (fun e => set_pollout e true) | _ => c end in
    Ok (on_eng c1 (fun e => set_handshaking e false), true) in
  if negb (is_versioned g) then success c
  else if (nth 10 g 0 =? ZMTP_1_0) || (nth 10 g 0 =? ZMTP_2_0) then success c
  else
    let c1 := on_eng c (fun e => set_decoder (set_encoder e (Some (new_v2_encoder out_batch_size)))
                                   (Some (new_v2_decoder in_batch_size (eo_maxmsgsize opts)))) in
    let field := take 20 (drop 12 g) in
    let commands c := on_eng c (fun e => set_write_msg (set_read_msg e MHandshake) MHandshake) in
    if (eo_mechanism opts =? ZMQ_NULL) && bool_decide (field = pad20 s_NULL)
    then success (commands (on_eng c1 (fun e => set_mech e (Some (new_null_mechanism (eo_mech opts))))))
    else if (eo_mechanism opts =? ZMQ_PLAIN) && bool_decide (field = pad20 s_PLAIN)
    then success (commands c1)
    else c2 ← error c1; Ok (c2, false).

(** [handshake]. *)
Definition handshake (c : conn) : result (conn * bool) :=
  let e := eng c in
  _ ← afs_assert (handshaking e);
  _ ← afs_assert (Z.of_nat (length (greeting_recv e)) <? greeting_size e);
  '(c1, r) ← receive_greeting (Z.to_nat v3_greeting_size) c;
  match r : greet_res with
  | GreetWait => Ok (c1, false)
  | GreetError => c2 ← error c1; Ok (c2, false)
  | GreetDone => choose_protocol c1
  end.

(** *** The input event *)

(** The end of [in_event]. *)
Definition end_input (c : conn) (x : option errno) : result (conn * bool) :=
  match x with
  | Some e =>
      if bool_decide (e = EAGAIN) then
        let c1 := on_eng c (fun e => set_pollin (set_input_stopped e true) false) in
        if output_stopped (eng c1) then c2 ← terminate c1; Ok (c2, true) else Ok (c1, false)
      else c1 ← error c; Ok (c1, false)
  | None =>
      if input_stopped (eng c) then
        let c1 := on_eng c (fun e => set_pollin e false) in
        if output_stopped (eng c1) then c2 ← terminate c1; Ok (c2, true) else Ok (c1, false)
      else Ok (c, false)
  end.

Definition in_event (c : conn) : result (conn * bool) :=
  _ ← afs_assert (negb (io_error (eng c)));
  '(c, ok) ← (if handshaking (eng c) then handshake c else Ok (c, true));
  if negb ok then Ok (c, false)
  else match decoder (eng c) with
  | None => Stop AssertFailed
  | Some d =>
      if input_stopped (eng c) then Ok (on_eng c (fun e => set_io_error e true), false)
      else match in_bytes (eng c) with
      | _ :: _ as bytes =>
          '(c1, x) ← in_loop true (length bytes) c;
          end_input c1 x
      | [] =>
          let '(sk', r) := read (sk c) (get_buffer d).2 in
          let c := {| eng := eng c; sk := sk'; icb := icb c; ocb := ocb c |} in
          match r with
          | GotClosed => c1 ← error c; Ok (c1, false)
          | GotError EAGAIN => Ok (c, false)
          | GotError _ => c1 ← error c; Ok (c1, false)
          | GotBytes bytes =>
              '(c1, x) ← (if (get_buffer d).1 then in_direct c d bytes
                          else in_loop true (length bytes) (on_eng c (fun e => set_in_bytes e bytes)));
              end_input c1 x
          end
      end
  end.

(** [restart_input]: deliver again, then go on with the bytes left. *)
Definition restart_input (c : conn) : result conn :=
  match decoder (eng c) with
  | None => Stop NullDeref
  | Some d =>
      '(c1, x) ← deliver false c d;
      match x : option errno with
      | Some _ => Ok c1
      | None => r ← in_loop false (length (in_bytes (eng c1))) c1; Ok r.1
      end
  end.

(** [zap_msg_available]. *)
Definition zap_msg_available (c : conn) : result conn :=
  _ ← afs_assert (if mech (eng c) is Some _ then true else false);
  c1 ← (if input_stopped (eng c) then restart_input c else Ok c);
  if output_stopped (eng c1) then restart_output c1 else Ok c1.

(** [plug]: the signature goes out, then the input is tried. *)
Definition plug (c : conn) : result (conn * bool) :=
  _ ← afs_assert (negb (plugged (eng c)));
  let c1 := on_eng c (fun e => set_io_error (set_plugged e true) false) in
  let c2 := if eo_raw_sock opts then c1
            else on_eng c1 (fun e => set_out_end (set_out_bytes e
                   ([255] ++ put_uint64 (Z.of_nat (length (opt_identity (eo_mech opts))) + 1) ++ [127])) signature_size) in
  in_event (on_eng c2 (fun e => set_pollout (set_pollin e true) true)).

End Connection.

Arguments conn : clear implicits.

End Engine.
