(* ===== verification/EngineProofs.v ===== *)
(** What the connection engine guarantees (src/net/stream_engine.cpp): the
    greeting completes however it is cut into reads, the input event hands the
    in-callback exactly the messages of the peer, and two defects: a peer with
    an older protocol aborts the process, and the last bytes of a connection can
    be dropped. *)
From stdpp Require Import base numbers list gmap.
From Stdlib Require Import ZArith Lia.
From S2P Require Import Prelude Msg Codec Encoder Mechanism StreamEngine.

Module EngineProofs.
Import Msg Wire Frame Enc Mech Sock Engine.

#[global] Instance recv_ev_eq_dec : EqDecision recv_ev.
Proof. solve_decision. Defined.

Section Proofs.
Context {IS OS : Type} (icb_ops : in_callback IS) (ocb_ops : out_callback OS) (mem : Z -> bool) (opts : eng_options).

Local Abbreviation connT := (conn IS OS).

(** ** Sockets that only deliver bytes, in pieces and with pauses *)

Definition clean_ev (r : recv_ev) : Prop :=
  match r with RecvAgain => True | RecvBytes l => l <> [] | _ => False end.

Definition ev_bytes (r : recv_ev) : list Z := match r with RecvBytes l => l | _ => [] end.

Definition rx_bytes (rs : list recv_ev) : list Z := rs ≫= ev_bytes.

Definition pauses (rs : list recv_ev) : nat := length (filter (fun r => r = RecvAgain) rs).

(** A read returns the next bytes, at most as many as asked for, or consumes a
    pause, whatever the socket does after them. *)
Lemma read_clean_then s rs tail n :
  rx s = rs ++ tail -> Forall clean_ev rs -> 1 <= n -> rx_bytes rs <> [] ->
  exists rs', Forall clean_ev rs' /\
    ((exists l, read s n = ({| rx := rs' ++ tail; txs := txs s; sent := sent s |}, GotBytes l) /\ l <> [] /\
        Z.of_nat (length l) <= n /\ rx_bytes rs = l ++ rx_bytes rs' /\ pauses rs' = pauses rs) \/
     (read s n = ({| rx := rs' ++ tail; txs := txs s; sent := sent s |}, GotError EAGAIN) /\
        rx_bytes rs = rx_bytes rs' /\ S (pauses rs') = pauses rs)).
Proof.
  intros Hs Hc Hn Hne. unfold read. rewrite Hs. destruct rs as [|[l| | |] r]; [done| |by apply Forall_cons in Hc as [[] _]| |by apply Forall_cons in Hc as [[] _]].
  - apply Forall_cons in Hc as [Hl Hc]. cbn in Hl. cbn [app].
    exists (if (length l <=? Z.to_nat n)%nat then r else RecvBytes (drop (Z.to_nat n) l) :: r).
    split; [|left; exists (take (Z.to_nat n) l); split; [|split]].
    + destruct (Nat.leb_spec (length l) (Z.to_nat n)); [done|]. constructor; [|done]. cbn.
      intros Hx. apply (f_equal length) in Hx. rewrite length_drop in Hx. simpl in Hx. lia.
    + f_equal; [by destruct (length l <=? Z.to_nat n)%nat|]. destruct (take (Z.to_nat n) l) eqn:E; [|reflexivity].
      apply (f_equal length) in E. rewrite length_take in E. destruct l; [done|]. simpl in E. lia.
    + intros Hx. apply (f_equal length) in Hx. rewrite length_take in Hx. destruct l; [done|]. simpl in Hx. lia.
    + rewrite length_take. split; [lia|]. destruct (Nat.leb_spec (length l) (Z.to_nat n)).
      * rewrite take_ge by lia. split; [done|]. unfold pauses. by rewrite filter_cons_False.
      * unfold rx_bytes. cbn [mbind list_bind ev_bytes]. rewrite app_assoc, take_drop. split; [done|].
        unfold pauses. by rewrite !filter_cons_False.
  - apply Forall_cons in Hc as [_ Hc]. exists r. split; [done|]. right. split; [done|]. split; [done|].
    unfold pauses. by rewrite filter_cons_True.
Qed.

Lemma read_clean s n :
  Forall clean_ev (rx s) -> 1 <= n -> rx_bytes (rx s) <> [] ->
  exists rx', Forall clean_ev rx' /\
    ((exists l, read s n = ({| rx := rx'; txs := txs s; sent := sent s |}, GotBytes l) /\ l <> [] /\
        Z.of_nat (length l) <= n /\ rx_bytes (rx s) = l ++ rx_bytes rx' /\ pauses rx' = pauses (rx s)) \/
     (read s n = ({| rx := rx'; txs := txs s; sent := sent s |}, GotError EAGAIN) /\
        rx_bytes (rx s) = rx_bytes rx' /\ S (pauses rx') = pauses (rx s))).
Proof.
  intros Hc Hn Hne. destruct (read_clean_then s (rx s) [] n) as (rs' & Hcl & H); try done; [by rewrite app_nil_r|].
  rewrite app_nil_r in H. by exists rs'.
Qed.

(** ** The greeting *)

(** The peer's ZMTP 3 greeting with the NULL mechanism. *)
Definition v3_greeting (G : list Z) : Prop :=
  length G = 64%nat /\ nth 0 G 0 = 255 /\ has_flag (nth 9 G 0) 1 = true /\
  nth 10 G 0 <> ZMTP_1_0 /\ nth 10 G 0 <> ZMTP_2_0 /\ take 20 (drop 12 G) = pad20 s_NULL.

(** The part of the own greeting that is written during the handshake. *)
Definition answer : list Z := [3] ++ [0] ++ pad20 s_NULL ++ replicate 32 0.

Context (G : list Z).
Hypothesis HG : v3_greeting G.
Hypothesis Hnull : eo_mechanism opts = ZMQ_NULL.

(** How far the answer is when [k] bytes of the greeting are there. *)
Definition answered (k : nat) : list Z := if (k <? 10)%nat then [] else if (k =? 10)%nat then [3] else answer.

Record greeting (e0 : engine) (c : connT) (k : nat) : Prop := {
  gr_recv : greeting_recv (eng c) = take k G;
  gr_k : (k <= 64)%nat;
  gr_out : out_bytes (eng c) = out_bytes e0 ++ answered k;
  gr_end : out_end (eng c) = 10 + Z.of_nat (length (answered k));
  gr_size : greeting_size (eng c) = if (k <=? 10)%nat then 12 else 64;
  gr_hand : handshaking (eng c) = true;
  gr_alive : alive (eng c) = true;
  gr_in : in_bytes (eng c) = in_bytes e0
}.

Lemma nth_take_G k i : (i < k)%nat -> (k <= 64)%nat -> nth i (take k G) 0 = nth i G 0.
Proof.
  intros Hi Hk. destruct HG as [Hl _]. rewrite <- (take_drop k G) at 2. rewrite app_nth1; [done|]. rewrite length_take. lia.
Qed.

(** Writing to the greeting changes only the output. *)
Record wrote (c c' : connT) (bytes : list Z) : Prop := {
  wr_out : out_bytes (eng c') = out_bytes (eng c) ++ bytes;
  wr_end : out_end (eng c') = out_end (eng c) + Z.of_nat (length bytes);
  wr_recv : greeting_recv (eng c') = greeting_recv (eng c);
  wr_hand : handshaking (eng c') = handshaking (eng c);
  wr_alive : alive (eng c') = alive (eng c);
  wr_in : in_bytes (eng c') = in_bytes (eng c);
  wr_sk : sk c' = sk c;
  wr_icb : icb c' = icb c;
  wr_ocb : ocb c' = ocb c
}.

Lemma put_greeting_wrote (c : connT) bytes : wrote c (put_greeting c bytes) bytes /\ greeting_size (eng (put_greeting c bytes)) = greeting_size (eng c).
Proof. split; [split|]; unfold put_greeting; cbn; destruct (out_bytes (eng c)) eqn:E; cbn; by rewrite ?E. Qed.

(** The answers after a read: the version number when the signature is there,
    the rest when the peer's version is. *)
Lemma answers_ok (c : connT) k k0 :
  greeting_recv (eng c) = take k G -> (10 <= k <= 64)%nat -> (k0 < k)%nat ->
  out_end (eng c) = 10 + Z.of_nat (length (answered k0)) -> greeting_size (eng c) = (if (k0 <=? 10)%nat then 12 else 64) ->
  exists c' more, answer_version opts (answer_signature c) = Ok c' /\ wrote c c' more /\ answered k = answered k0 ++ more /\
    greeting_size (eng c') = if (k <=? 10)%nat then 12 else 64.
Proof.
  intros Hg Hk Hk0 He Hs. destruct HG as (Hlen & _ & _ & Hv1 & Hv2 & _).
  assert (Hgl : length (take k G) = k) by (rewrite length_take; lia).
  assert (Hsig : exists c1 more, answer_signature c = c1 /\ wrote c c1 more /\ answered (Nat.max k0 10) = answered k0 ++ more /\
    greeting_size (eng c1) = greeting_size (eng c)).
  { unfold answer_signature, signature_size. unfold answered in *. destruct (Nat.ltb_spec k0 10).
    - rewrite He. change (10 + Z.of_nat (length []) =? 10) with true. cbv iota.
      destruct (put_greeting_wrote c [3]) as [Hw Hgs]. eexists _, [3]. split; [reflexivity|]. split; [done|].
      replace (Nat.max k0 10) with 10%nat by lia. done.
    - rewrite (proj2 (Z.eqb_neq _ _)); [|rewrite He; destruct (k0 =? 10)%nat; simpl; lia].
      exists c, []. split; [done|]. replace (Nat.max k0 10) with k0 by lia. rewrite (proj2 (Nat.ltb_ge k0 10)), app_nil_r by done.
      split; [|done]. split; try done; [by rewrite app_nil_r|simpl; lia]. }
  destruct Hsig as (c1 & more1 & -> & Hw1 & Hm1 & Hgs1). pose proof Hw1 as [].
  unfold answer_version. rewrite wr_recv0, Hg, Hgl, wr_end0, He, <- Z.add_assoc, <- Nat2Z.inj_add, <- length_app, <- Hm1. unfold signature_size.
  destruct (decide (10 < k /\ k0 <= 10)%nat) as [[Hgt Hle]|Hno].
  - replace (Nat.max k0 10) with 10%nat in * by lia. rewrite (proj2 (Z.ltb_lt _ _)) by lia. change (10 + Z.of_nat (length (answered 10)) =? 10 + 1) with true.
    cbn [andb]. rewrite nth_take_G by lia. rewrite (proj2 (Z.eqb_neq _ ZMTP_1_0) Hv1), (proj2 (Z.eqb_neq _ ZMTP_2_0) Hv2). cbn [orb]. cbv zeta.
    rewrite Hnull. cbn [Z.eqb orb ZMQ_NULL afs_assert mbind result_bind].
    destruct (put_greeting_wrote c1 ([0] ++ pad20 s_NULL ++ replicate 32 0)) as [[] _].
    eexists _, (more1 ++ [0] ++ pad20 s_NULL ++ replicate 32 0). split; [reflexivity|]. split; [|split].
    + split; unfold on_eng; cbn [eng sk icb ocb set_greeting_size out_bytes out_end greeting_recv handshaking alive in_bytes]; try congruence.
      * rewrite wr_out1, wr_out0. by rewrite <- app_assoc.
      * rewrite wr_end1, wr_end0, (length_app more1). lia.
    + rewrite app_assoc, <- Hm1. unfold answered. rewrite (proj2 (Nat.ltb_ge k 10)), (proj2 (Nat.eqb_neq k 10)) by lia. done.
    + rewrite (proj2 (Nat.leb_gt k 10)) by lia. done.
  - assert (Hcond : (10 <? Z.of_nat k) && (10 + Z.of_nat (length (answered (Nat.max k0 10))) =? 10 + 1) = false).
    { destruct (Z.ltb_spec 10 (Z.of_nat k)); [|done]. cbn [andb]. apply Z.eqb_neq. unfold answered.
      rewrite (proj2 (Nat.ltb_ge _ 10)), (proj2 (Nat.eqb_neq _ 10)) by lia. vm_compute. congruence. }
    rewrite Hcond. exists c1, more1. split; [done|]. split; [done|]. rewrite <- Hm1, Hgs1, Hs. split.
    + destruct (decide (k = 10)%nat) as [->|]; [f_equal; lia|]. unfold answered.
      rewrite !(proj2 (Nat.ltb_ge _ 10)), !(proj2 (Nat.eqb_neq _ 10)) by lia. done.
    + destruct (Nat.leb_spec k0 10), (Nat.leb_spec k 10); lia || done.
Qed.


(** A connection whose socket still has to deliver the rest of the greeting and
    then [extra]. *)
Definition receiving (e0 : engine) (c : connT) (k : nat) (extra : list Z) : Prop :=
  greeting e0 c k /\ Forall clean_ev (rx (sk c)) /\ rx_bytes (rx (sk c)) = drop k G ++ extra.

Lemma take_app_G k (l extra rest : list Z) :
  (k <= 64)%nat -> drop k G ++ extra = l ++ rest -> (k + length l <= 64)%nat ->
  take k G ++ l = take (k + length l) G /\ rest = drop (k + length l) G ++ extra.
Proof.
  intros Hk Heq Hl. destruct HG as [Hlen _].
  assert (Hl' : l = take (length l) (drop k G)).
  { apply (f_equal (take (length l))) in Heq. rewrite take_app_length, take_app_le in Heq by (rewrite length_drop; lia). done. }
  split; [rewrite Hl' at 1; by rewrite take_take_drop|].
  apply (f_equal (drop (length l))) in Heq. rewrite drop_app_length, drop_app_le, drop_drop in Heq by (rewrite length_drop; lia). done.
Qed.

(** The greeting after a read of [l]. *)
Lemma greeting_read e0 (c : connT) k l sk' :
  greeting e0 c k -> (1 <= length l)%nat -> (k + length l <= 64)%nat -> Z.of_nat (k + length l) <= greeting_size (eng c) ->
  take k G ++ l = take (k + length l) G ->
  let c1 := on_eng {| eng := eng c; sk := sk'; icb := icb c; ocb := ocb c |} (fun e => set_greeting_recv e (greeting_recv e ++ l)) in
  exists c', (if Z.of_nat (k + length l) <? signature_size then Ok c1 else answer_version opts (answer_signature c1)) = Ok c' /\
    greeting e0 c' (k + length l) /\ sk c' = sk' /\ icb c' = icb c /\ ocb c' = ocb c.
Proof.
  intros [] Hl Hk Hsz Htk c1. unfold signature_size.
  assert (Hrecv : greeting_recv (eng c1) = take (k + length l) G) by (cbn; by rewrite gr_recv0).
  destruct (Z.ltb_spec (Z.of_nat (k + length l)) 10) as [Hlt|Hge].
  - exists c1. split; [done|]. split; [|done].
    assert (Ha : answered (k + length l) = answered k) by (unfold answered; by rewrite !(proj2 (Nat.ltb_lt _ 10)) by lia).
    split; cbn; rewrite ?Ha; try done. rewrite gr_size0. by rewrite !(proj2 (Nat.leb_le _ 10)) by lia.
  - destruct (answers_ok c1 (k + length l) k) as (c' & more & -> & [] & Hm & Hgs); try done; [lia|lia|].
    exists c'. split; [done|]. split; [|done]. split; try congruence.
    + rewrite wr_out0, Hm, app_assoc. cbn. by rewrite gr_out0.
    + rewrite wr_end0, Hm, length_app. cbn. rewrite gr_end0. lia.
    + by rewrite wr_hand0.
    + by rewrite wr_alive0.
    + by rewrite wr_in0.
Qed.

Lemma receive_ok fuel e0 (c : connT) k extra :
  receiving e0 c k extra -> (k < 64)%nat -> (64 - k <= fuel)%nat ->
  exists c' r k', receive_greeting opts fuel c = Ok (c', r) /\ receiving e0 c' k' extra /\
    ((r = GreetDone /\ k' = 64%nat) \/ (r = GreetWait /\ (k' < 64)%nat /\ (pauses (rx (sk c')) < pauses (rx (sk c)))%nat)).
Proof.
  revert c k. induction fuel as [|fuel IH]; intros c k (Hgr & Hcl & Hrx) Hk Hf; [lia|].
  pose proof HG as (Hlen & Hb0 & Hb9 & _). pose proof Hgr as [].
  assert (Hkl : length (take k G) = k) by (rewrite length_take; lia).
  cbn [receive_greeting]. rewrite gr_recv0, Hkl.
  assert (Hroom : Z.of_nat k < greeting_size (eng c)) by (rewrite gr_size0; destruct (Nat.leb_spec k 10); lia).
  rewrite (proj2 (Z.ltb_lt _ _)) by lia. cbn [negb].
  destruct (read_clean (sk c) (greeting_size (eng c) - Z.of_nat k) Hcl) as (rx' & Hcl' & [(l & Hrd & Hln & Hle & Hby & Hpa)|(Hrd & Hby & Hpa)]);
    [lia|rewrite Hrx; intros [Hx _]%app_eq_nil; apply (f_equal length) in Hx; rewrite length_drop in Hx; simpl in Hx; lia| |]; rewrite Hrd.
  2: { eexists _, _, k. split; [reflexivity|]. split; [split; [by split|split; [done|cbn [sk rx]; by rewrite <- Hby, Hrx]]|].
       right. split; [done|]. split; [done|]. cbn [sk rx]. lia. }
  assert (Hl1 : (1 <= length l)%nat) by (destruct l; [done|simpl; lia]).
  assert (Hk2 : (k + length l <= 64)%nat) by (rewrite gr_size0 in Hle; destruct (Nat.leb_spec k 10); lia).
  rewrite Hrx in Hby. destruct (take_app_G k l extra (rx_bytes rx') gr_k0 Hby Hk2) as [Htk Hrest].
  destruct (greeting_read e0 c k l {| rx := rx'; txs := txs (sk c); sent := sent (sk c) |} Hgr Hl1 Hk2) as (c2 & Hc2 & Hgr2 & Hsk2 & Hic2 & Hoc2);
    [rewrite gr_size0 in *; lia|done|].
  set (c1 := on_eng _ _) in *. assert (Hrecv1 : greeting_recv (eng c1) = take (k + length l) G) by (cbn; by rewrite gr_recv0).
  cbv zeta. rewrite Hrecv1. rewrite nth_take_G, Hb0 by lia. cbn [Z.eqb negb].
  change (255 =? 255) with true. cbn [negb]. rewrite length_take, Hlen, Nat.min_l by lia.
  assert (Hrecur : (if Z.of_nat (k + length l) <? signature_size then receive_greeting opts fuel c1
    else if negb (has_flag (nth 9 (take (k + length l) G) 0) 1) then Ok (c1, GreetDone)
    else c1' ← answer_version opts (answer_signature c1); receive_greeting opts fuel c1') = receive_greeting opts fuel c2).
  { unfold signature_size in *. destruct (Z.ltb_spec (Z.of_nat (k + length l)) 10); [by injection Hc2 as ->|].
    rewrite nth_take_G, Hb9 by lia. cbn [negb]. by rewrite Hc2. }
  rewrite Hrecur. assert (Hrv2 : receiving e0 c2 (k + length l) extra) by (split; [done|]; rewrite Hsk2; done).
  destruct (decide (k + length l = 64)%nat) as [E|E].
  - rewrite E in *. exists c2, GreetDone, 64%nat. split; [|split; [done|by left]].
    destruct Hgr2 as [Hr2 _ _ _ Hs2 _ _ _]. destruct fuel; cbn [receive_greeting]; rewrite Hr2, Hs2, length_take, Hlen; done.
  - destruct (IH c2 (k + length l)%nat Hrv2) as (c' & r & k' & Hrun & Hrv' & Hcase); [lia|lia|].
    exists c', r, k'. split; [done|]. split; [done|]. destruct Hcase as [?|(? & ? & ?)]; [by left|]. right.
    split_and!; try done. rewrite Hsk2 in *. cbn [rx] in *. lia.
Qed.

(** Successive [handshake] calls, one per readable event. *)
Fixpoint handshakes (n : nat) (c : connT) : result (connT * bool) :=
  match n with
  | O => Ok (c, false)
  | S n' => '(c1, ok) ← handshake opts c; if ok : bool then Ok (c1, true) else handshakes n' c1
  end.

Lemma choose_v3 e0 (c : connT) extra :
  receiving e0 c 64 extra ->
  exists c', choose_protocol opts c = Ok (c', true) /\ handshaking (eng c') = false /\
    out_bytes (eng c') = out_bytes e0 ++ answer /\ rx_bytes (rx (sk c')) = extra /\
    mech (eng c') = Some (new_null_mechanism (eo_mech opts)) /\ read_msg (eng c') = MHandshake /\ write_msg (eng c') = MHandshake /\
    decoder (eng c') = Some (new_v2_decoder in_batch_size (eo_maxmsgsize opts)) /\
    encoder (eng c') = Some (new_v2_encoder out_batch_size).
Proof.
  intros ([] & _ & Hrx). destruct HG as (Hlen & Hb0 & Hb9 & Hv1 & Hv2 & Hfield). unfold choose_protocol.
  rewrite take_ge in gr_recv0 by lia. rewrite gr_recv0. unfold is_versioned. rewrite Hb0, Hb9. change (255 =? 255) with true. cbn [andb negb].
  rewrite (proj2 (Z.eqb_neq _ ZMTP_1_0) Hv1), (proj2 (Z.eqb_neq _ ZMTP_2_0) Hv2). cbn [orb]. cbv zeta.
  rewrite Hnull, Hfield. change (ZMQ_NULL =? ZMQ_NULL) with true. rewrite bool_decide_true by done. cbn [andb].
  eexists. split; [reflexivity|]. rewrite drop_ge in Hrx by lia. cbn [app] in Hrx.
  change (answered 64) with answer in gr_out0.
  cbn. destruct (out_bytes (eng c)) eqn:E; cbn; rewrite ?E; done.
Qed.

Lemma handshake_run (c c1 : connT) r :
  handshaking (eng c) = true -> (Z.of_nat (length (greeting_recv (eng c))) <? greeting_size (eng c)) = true ->
  receive_greeting opts (Z.to_nat v3_greeting_size) c = Ok (c1, r) ->
  handshake opts c = match r with
                     | GreetWait => Ok (c1, false)
                     | GreetError => c2 ← error c1; Ok (c2, false)
                     | GreetDone => choose_protocol opts c1
                     end.
Proof.
  intros Hh Hl Hr. unfold handshake. rewrite Hh, Hl. generalize dependent (Z.to_nat v3_greeting_size).
  intros fuel Hr. cbn [afs_assert mbind result_bind]. by rewrite Hr.
Qed.

Lemma handshakes_S n (c : connT) :
  handshakes (S n) c = ('(c1, ok) ← handshake opts c; if ok : bool then Ok (c1, true) else handshakes n c1).
Proof. done. Qed.

Lemma handshakes_ok n e0 (c : connT) k extra :
  receiving e0 c k extra -> (k < 64)%nat -> (pauses (rx (sk c)) < n)%nat ->
  exists c', handshakes n c = Ok (c', true) /\ handshaking (eng c') = false /\
    out_bytes (eng c') = out_bytes e0 ++ answer /\ rx_bytes (rx (sk c')) = extra /\
    mech (eng c') = Some (new_null_mechanism (eo_mech opts)) /\ read_msg (eng c') = MHandshake /\ write_msg (eng c') = MHandshake /\
    decoder (eng c') = Some (new_v2_decoder in_batch_size (eo_maxmsgsize opts)) /\
    encoder (eng c') = Some (new_v2_encoder out_batch_size).
Proof.
  revert c k. induction n as [|n IH]; intros c k Hrv Hk Hn; [lia|]. rewrite handshakes_S.
  destruct (receive_ok (Z.to_nat v3_greeting_size) e0 c k extra Hrv Hk) as (c1 & r & k1 & Hrun & Hrv1 & Hcase);
    [unfold v3_greeting_size; lia|].
  rewrite (handshake_run c c1 r); [|by destruct Hrv as ([] & _)| |done].
  2: { destruct Hrv as ([] & _ & _), HG as [Hlen _]. rewrite gr_recv0, gr_size0, length_take, Nat.min_l by lia.
       apply Z.ltb_lt. destruct (Nat.leb_spec k 10); lia. }
  destruct Hcase as [[-> ->]|(-> & Hk1 & Hp)].
  - destruct (choose_v3 e0 c1 extra Hrv1) as (c' & -> & H). cbn [mbind result_bind]. by exists c'.
  - cbn [mbind result_bind]. apply (IH c1 k1 Hrv1 Hk1). lia.
Qed.

End Proofs.

(** C28 The greeting is robust: however the 64 bytes of a ZMTP 3 peer with the
    NULL mechanism are cut into reads, with any number of pauses between them,
    the handshake completes once there were more calls than pauses; the engine
    has then answered with exactly the rest of its own greeting, has left the
    bytes after the greeting in the socket, and is set up to exchange the
    mechanism's commands. *)
Theorem greeting_completes {IS OS : Type} opts (G extra : list Z) (c : conn IS OS) n :
  v3_greeting G -> eo_mechanism opts = ZMQ_NULL ->
  greeting_recv (eng c) = [] -> greeting_size (eng c) = v2_greeting_size -> out_end (eng c) = signature_size ->
  handshaking (eng c) = true -> alive (eng c) = true ->
  Forall clean_ev (rx (sk c)) -> rx_bytes (rx (sk c)) = G ++ extra -> (pauses (rx (sk c)) < n)%nat ->
  exists c', handshakes opts n c = Ok (c', true) /\ handshaking (eng c') = false /\
    out_bytes (eng c') = out_bytes (eng c) ++ answer /\ rx_bytes (rx (sk c')) = extra /\
    mech (eng c') = Some (new_null_mechanism (eo_mech opts)) /\ read_msg (eng c') = MHandshake /\ write_msg (eng c') = MHandshake /\
    decoder (eng c') = Some (new_v2_decoder in_batch_size (eo_maxmsgsize opts)) /\
    encoder (eng c') = Some (new_v2_encoder out_batch_size).
Proof.
  intros HG Hnull Hr Hs He Hh Ha Hc Hrx Hp. apply (handshakes_ok opts G HG Hnull n (eng c) c 0 extra); [|lia|done].
  split; [|done]. split; try done; [lia|by rewrite app_nil_r].
Qed.

Definition sample_opts : eng_options :=
  {| eo_mech := {| opt_type := ZMQ_PULL; opt_recv_identity := false; opt_identity := [] |};
     eo_mechanism := ZMQ_NULL; eo_maxmsgsize := -1; eo_raw_sock := false |}.

Definition sample_greeting : list Z := [255] ++ put_uint64 1 ++ [127] ++ answer.

(** A plugged engine whose peer's greeting comes in three pieces. *)
Definition sample_conn : conn unit unit :=
  {| eng := set_out_end (set_out_bytes new_stream_engine (take 10 sample_greeting)) 10;
     sk := {| rx := [RecvBytes (take 3 sample_greeting); RecvAgain; RecvBytes (take 20 (drop 3 sample_greeting)); RecvAgain;
                     RecvBytes (drop 23 sample_greeting ++ [4; 5])]; txs := []; sent := [] |};
     icb := Some tt; ocb := None |}.

Lemma greeting_completes_witness :
  exists c', handshakes sample_opts 3 sample_conn = Ok (c', true) /\ handshaking (eng c') = false /\
    out_bytes (eng c') = out_bytes (eng sample_conn) ++ answer /\ rx_bytes (rx (sk c')) = [4; 5] /\
    mech (eng c') = Some (new_null_mechanism (eo_mech sample_opts)) /\ read_msg (eng c') = MHandshake /\ write_msg (eng c') = MHandshake /\
    decoder (eng c') = Some (new_v2_decoder in_batch_size (eo_maxmsgsize sample_opts)) /\
    encoder (eng c') = Some (new_v2_encoder out_batch_size).
Proof.
  apply (greeting_completes sample_opts sample_greeting [4; 5] sample_conn 3); try done.
  - repeat constructor; done.
  - vm_compute. lia.
Defined.


(** ** The input event *)

Section Input.
Context {IS OS : Type} (icb_ops : in_callback IS) (ocb_ops : out_callback OS) (mem : Z -> bool) (opts : eng_options).
Context (push : IS -> list Z -> IS) (mx : Z).
Hypothesis Hpush : forall s b, PushRecord icb_ops s b = Ok (push s b, 0).

Local Abbreviation connT := (conn IS OS).

(** The engine after the handshake, while input is accepted. *)
Definition data_mode (c : connT) : Prop :=
  handshaking (eng c) = false /\ io_error (eng c) = false /\ input_stopped (eng c) = false /\
  write_msg (eng c) = MData /\ is_Some (mech (eng c)) /\ alive (eng c) = true.

(** What the records [qs] make of the in-callback's state. *)
Definition pushed (s : IS) (qs : list (Z * list Z)) : IS := foldl (fun s q => push s q.2) s qs.

(** The engine with [rem] of the stream still to be decoded. *)
Definition inputting (c : connT) (s : IS) (qs : list (Z * list Z)) (rem : list Z) : Prop :=
  data_mode c /\ icb c = Some s /\ exists d k, decoder (eng c) = Some d /\ streaming mx in_batch_size d (hp (eng c)) k qs rem.

Lemma deliver_ok (c : connT) d s b :
  data_mode c -> icb c = Some s -> body_of (hp (eng c)) (in_progress d) = Ok b ->
  exists c', deliver icb_ops ocb_ops mem true c d = Ok (c', None) /\ data_mode c' /\ icb c' = Some (push s b) /\
    decoder (eng c') = Some d /\ hp (eng c') = hp (eng c) /\ in_bytes (eng c') = in_bytes (eng c) /\ sk c' = sk c.
Proof.
  intros (H1 & H2 & H3 & H4 & [mc H5] & H6) Hs Hb. unfold deliver, run_write_msg. rewrite H4. unfold decode_and_push.
  rewrite H5. cbn [afs_assert mbind result_bind]. rewrite Hs, Hb. cbn [mbind result_bind]. rewrite Hpush. cbn [mbind result_bind eng].
  rewrite H6. cbn [mbind result_bind]. change (0 =? 0) with true. cbv iota.
  eexists. split; [reflexivity|]. unfold data_mode. cbn. rewrite H1, H2, H3, H4, H5, H6. by split_and!.
Qed.

Lemma in_loop_ok fuel (c : connT) s qs rem bytes :
  inputting c s qs rem -> Forall (fun q => valid_msg mem mx q.1 q.2) qs -> in_bytes (eng c) = bytes ->
  bytes `prefix_of` rem -> (length bytes <= fuel)%nat ->
  exists c' got qs', in_loop icb_ops ocb_ops mem true fuel c = Ok (c', None) /\ qs = got ++ qs' /\
    inputting c' (pushed s got) qs' (drop (length bytes) rem) /\ in_bytes (eng c') = [] /\ sk c' = sk c.
Proof.
  revert c s qs rem bytes. induction fuel as [|fuel IH]; intros c s qs rem bytes Hin Hv Hb Hpre Hf.
  { destruct bytes; [|simpl in Hf; lia]. exists c, [], qs. cbn [in_loop]. rewrite Hb. done. }
  destruct (nil_or_length_pos bytes) as [->|Hne].
  { exists c, [], qs. cbn [in_loop]. rewrite Hb. done. }
  assert (Hbn : bytes <> []) by (by destruct bytes).
  destruct Hin as (Hdm & Hs & d & k & Hd & Hst). destruct qs as [|[f b] qs].
  { destruct Hst as (_ & -> & _). by apply prefix_nil_inv in Hpre. }
  apply Forall_cons in Hv as [Hvb Hv]. cbn [fst snd] in Hvb.
  assert (Hunf : in_loop icb_ops ocb_ops mem true (S fuel) c =
    ('(d', h', r, used) ← decode mem d (hp (eng c)) bytes;
      let c1 := on_eng c (fun e => set_in_bytes (set_hp (set_decoder e (Some d')) h') (drop (Z.to_nat used) bytes)) in
      match r : drc with
      | DMore => Ok (c1, None)
      | DErr e => Ok (c1, Some e)
      | DMsg => '(c2, x) ← deliver icb_ops ocb_ops mem true c1 d';
          match x : option errno with Some e => Ok (c2, Some e) | None => in_loop icb_ops ocb_ops mem true fuel c2 end
      end)) by (cbn [in_loop]; rewrite Hb, Hd; by destruct bytes).
  rewrite Hunf. destruct (decode_streaming mem mx in_batch_size ltac:(done) d (hp (eng c)) k f b qs rem bytes Hst Hvb Hbn Hpre)
    as (d' & h' & [[-> Hst']|(used & extra & -> & Hu & Hex & Hpre' & Hdr & Hfl & Hbd & Hst')]); cbn [mbind result_bind]; cbv zeta.
  - eexists _, [], ((f, b) :: qs). split; [reflexivity|]. split; [done|]. rewrite Nat2Z.id, drop_all. split; [|done].
    split; [exact Hdm|]. split; [done|]. by exists d', k.
  - set (c1 := on_eng _ _). destruct (deliver_ok c1 d' s b) as (c2 & -> & Hdm2 & Hs2 & Hd2 & Hh2 & Hb2 & Hsk2); [exact Hdm|done|exact Hbd|].
    cbn [mbind result_bind]. destruct (IH c2 (push s b) qs (frames qs) extra) as (c' & got & qs' & Hrun & -> & Hin' & Hb' & Hsk');
      [|done|by rewrite Hb2; cbn; rewrite Nat2Z.id|done|rewrite Hex, length_drop; lia|].
    { split; [done|]. split; [done|]. exists d', (k + long_count [(f, b)])%nat. rewrite Hd2, Hh2. done. }
    exists c', ((f, b) :: got), qs'. split; [done|]. split; [done|]. rewrite Hdr. split; [done|]. split; [done|by rewrite Hsk', Hsk2].
Qed.

Lemma in_direct_ok (c : connT) d k s f b qs rem bytes :
  data_mode c -> icb c = Some s -> decoder (eng c) = Some d -> streaming mx in_batch_size d (hp (eng c)) k ((f, b) :: qs) rem ->
  valid_msg mem mx f b -> in_bytes (eng c) = [] -> bytes `prefix_of` rem -> bytes <> [] -> Z.of_nat (length bytes) <= to_read d ->
  exists c' got qs', in_direct icb_ops ocb_ops mem c d bytes = Ok (c', None) /\ (f, b) :: qs = got ++ qs' /\
    inputting c' (pushed s got) qs' (drop (length bytes) rem) /\ in_bytes (eng c') = [] /\ sk c' = sk c.
Proof.
  intros Hdm Hs Hd (doms & rest & Hph & Hne & -> & Hk) Hvb Hb Hpre Hbn Hcap. unfold in_direct.
  pose proof (phase_to_read _ _ _ _ _ _ _ _ Hph) as Htr. cbn [fst snd] in *.
  assert (Hbl : (1 <= length bytes <= length rest)%nat) by (destruct bytes; [done|simpl in *; lia]).
  pose proof (prefix_compat _ _ _ Hpre) as Hc. rewrite take_ge in Hc by lia.
  destruct (step_phase mem mx in_batch_size f b doms Hvb d (hp (eng c)) rest (length bytes) Hph) as (d1 & h1 & Hst & Htr1 & d2 & h2 & Hout); [lia|lia|].
  rewrite <- Hc in Hst. rewrite Hst. cbn [mbind result_bind]. unfold decode_in_place.
  rewrite Htr1, (proj2 (Z.leb_le _ _)) by lia. cbn [afs_assert mbind result_bind].
  destruct Hout as [(Hnil & Hdr & Hdec)|(Hnn & Hdr & Hph2)]; rewrite Hdr; cbn [mbind result_bind]; cbv zeta; set (c1 := on_eng _ _).
  - pose proof Hdec as (_ & Hfl & Hbd & _).
    destruct (deliver_ok c1 d2 s b) as (c2 & -> & Hdm2 & Hs2 & Hd2 & Hh2 & Hb2 & Hsk2); [exact Hdm|done|exact Hbd|].
    exists c2, [(f, b)], qs. split; [done|]. split; [done|]. rewrite drop_app_le, Hnil by lia. cbn [app].
    split; [|split; [by rewrite Hb2|done]]. split; [done|]. split; [done|]. eexists d2, _. rewrite Hd2, Hh2. split; [done|].
    by eapply streaming_next.
  - exists c1, [], ((f, b) :: qs). split; [done|]. split; [done|]. split; [|done]. split; [exact Hdm|]. split; [done|].
    exists d2, k. split; [done|]. exists doms, (drop (length bytes) rest). split; [done|]. split; [done|]. split; [|done]. by rewrite drop_app_le by lia.
Qed.

(** One readable event, whatever the socket does after the bytes it still has. *)
Lemma in_event_then (c : connT) s qs rs tail :
  rx (sk c) = rs ++ tail -> inputting c s qs (rx_bytes rs) -> Forall (fun q => valid_msg mem mx q.1 q.2) qs -> in_bytes (eng c) = [] ->
  Forall clean_ev rs -> rx_bytes rs <> [] ->
  exists c' got qs' rs', in_event icb_ops ocb_ops mem opts c = Ok (c', false) /\ qs = got ++ qs' /\ rx (sk c') = rs' ++ tail /\
    inputting c' (pushed s got) qs' (rx_bytes rs') /\ in_bytes (eng c') = [] /\ Forall clean_ev rs' /\
    (length (rx_bytes rs') + pauses rs' < length (rx_bytes rs) + pauses rs)%nat.
Proof.
  intros Hrx (Hdm & Hs & d & k & Hd & Hst) Hv Hb Hcl Hne. pose proof Hdm as (H1 & H2 & H3 & H4 & H5 & H6).
  unfold in_event. rewrite H2, H1. cbn [negb afs_assert mbind result_bind]. rewrite Hd, H3, Hb.
  assert (Hq : exists f b qs0, qs = (f, b) :: qs0).
  { destruct qs as [|[f b] qs0]; [by destruct Hst as (_ & Hx & _)|by eexists _, _, _]. }
  destruct Hq as (f & b & qs0 & ->). apply Forall_cons in Hv as [Hvb Hv']. cbn [fst snd] in Hvb.
  assert (Htr : 1 <= to_read d) by (destruct Hst as (? & ? & Hph & _); by apply phase_to_read in Hph as [? _]).
  assert (Hcap : 1 <= (get_buffer d).2).
  { unfold get_buffer. destruct (Z.leb_spec (bufsize d) (to_read d)); cbn [snd]; [done|lia]. }
  destruct (read_clean_then (sk c) rs tail (get_buffer d).2 Hrx Hcl Hcap Hne) as (rs' & Hcl' & [(l & Hrd & Hln & Hle & Hby & Hpa)|(Hrd & Hby & Hpa)]); rewrite Hrd.
  2: { eexists _, [], ((f, b) :: qs0), rs'. split; [reflexivity|]. split; [done|]. split; [done|]. cbn [sk rx eng]. rewrite <- Hby.
       split; [|split; [done|split; [done|lia]]]. split; [exact Hdm|]. split; [done|]. by exists d, k. }
  assert (Hl1 : (1 <= length l)%nat) by (destruct l; [done|simpl; lia]).
  assert (Hpre : l `prefix_of` rx_bytes rs) by (rewrite Hby; by exists (rx_bytes rs')).
  assert (Hdrop : drop (length l) (rx_bytes rs) = rx_bytes rs') by (rewrite Hby; apply drop_app_length).
  set (c0 := {| eng := eng c; sk := {| rx := rs' ++ tail; txs := txs (sk c); sent := sent (sk c) |}; icb := icb c; ocb := ocb c |}).
  assert (Hres : exists c' got qs', (if (get_buffer d).1 then in_direct icb_ops ocb_ops mem c0 d l
      else in_loop icb_ops ocb_ops mem true (length l) (on_eng c0 (fun e => set_in_bytes e l))) = Ok (c', None) /\ (f, b) :: qs0 = got ++ qs' /\
      inputting c' (pushed s got) qs' (rx_bytes rs') /\ in_bytes (eng c') = [] /\ sk c' = sk c0).
  { rewrite <- Hdrop. unfold get_buffer in *. destruct (Z.leb_spec (bufsize d) (to_read d)); cbn [fst snd] in *.
    - by apply (in_direct_ok c0 d k s f b qs0 (rx_bytes rs)).
    - destruct (in_loop_ok (length l) (on_eng c0 (fun e => set_in_bytes e l)) s ((f, b) :: qs0) (rx_bytes rs) l)
        as (c' & got & qs' & ? & ? & ? & ? & ?); try done; [|by constructor|by exists c', got, qs'].
      split; [exact Hdm|]. split; [done|]. by exists d, k. }
  destruct Hres as (c' & got & qs' & -> & Hqs & Hin' & Hb' & Hsk'). cbn [mbind result_bind].
  exists c', got, qs', rs'. unfold end_input. pose proof Hin' as ((_ & _ & Hst3 & _) & _). rewrite Hst3. split; [done|]. split; [done|].
  rewrite Hsk'. cbn [sk c0 rx]. split; [done|]. split; [done|]. split; [done|]. split; [done|]. rewrite Hby, length_app. lia.
Qed.

Lemma in_event_ok (c : connT) s qs :
  inputting c s qs (rx_bytes (rx (sk c))) -> Forall (fun q => valid_msg mem mx q.1 q.2) qs -> in_bytes (eng c) = [] ->
  Forall clean_ev (rx (sk c)) -> rx_bytes (rx (sk c)) <> [] ->
  exists c' got qs', in_event icb_ops ocb_ops mem opts c = Ok (c', false) /\ qs = got ++ qs' /\
    inputting c' (pushed s got) qs' (rx_bytes (rx (sk c'))) /\ in_bytes (eng c') = [] /\ Forall clean_ev (rx (sk c')) /\
    (length (rx_bytes (rx (sk c'))) + pauses (rx (sk c')) < length (rx_bytes (rx (sk c))) + pauses (rx (sk c)))%nat.
Proof.
  intros Hin Hv Hb Hcl Hne. destruct (in_event_then c s qs (rx (sk c)) []) as (c' & got & qs' & rs' & H & Hqs & Hrx & Hrest); try done; [by rewrite app_nil_r|].
  rewrite app_nil_r in Hrx. exists c', got, qs'. by rewrite Hrx.
Qed.

(** Successive input events. *)
Fixpoint in_events (n : nat) (c : connT) : result connT :=
  match n with
  | O => Ok c
  | S n' => r ← in_event icb_ops ocb_ops mem opts c; in_events n' r.1
  end.

(** Enough events to read everything the peer has sent. *)
Lemma in_events_ok n (c : connT) s qs :
  inputting c s qs (rx_bytes (rx (sk c))) -> Forall (fun q => valid_msg mem mx q.1 q.2) qs -> in_bytes (eng c) = [] ->
  Forall clean_ev (rx (sk c)) -> (n <= length (rx_bytes (rx (sk c))) + pauses (rx (sk c)))%nat ->
  exists n' c' got qs', (n' <= n)%nat /\ in_events n' c = Ok c' /\ qs = got ++ qs' /\
    inputting c' (pushed s got) qs' (rx_bytes (rx (sk c'))) /\
    (n = (length (rx_bytes (rx (sk c))) + pauses (rx (sk c)))%nat -> qs' = []).
Proof.
  revert c s qs. induction n as [n IH] using lt_wf_ind. intros c s qs Hin Hv Hb Hcl Hn.
  destruct (nil_or_length_pos (rx_bytes (rx (sk c)))) as [E|E].
  { exists 0%nat, c, [], qs. split; [lia|]. split; [done|]. split; [done|]. split; [done|]. intros _.
    destruct Hin as (_ & _ & d & k & _ & Hst). apply (streaming_rem _ _ _ _ _ _ _ Hst). done. }
  destruct n as [|n].
  { exists 0%nat, c, [], qs. split; [lia|]. split; [done|]. split; [done|]. split; [done|]. intros Hx. destruct (rx_bytes (rx (sk c))); simpl in *; [done|lia]. }
  destruct (in_event_ok c s qs Hin Hv Hb Hcl) as (c1 & got1 & qs1 & He & -> & Hin1 & Hb1 & Hcl1 & Hless); [by destruct (rx_bytes (rx (sk c)))|].
  apply Forall_app in Hv as [_ Hv].
  set (m := Nat.min n (length (rx_bytes (rx (sk c1))) + pauses (rx (sk c1)))).
  destruct (IH m ltac:(lia) c1 (pushed s got1) qs1 Hin1 Hv Hb1 Hcl1 ltac:(lia)) as (n' & c' & got2 & qs' & Hn' & Hrun & -> & Hin' & Hall).
  exists (S n'), c', (got1 ++ got2), qs'. split; [lia|]. split; [cbn [in_events]; by rewrite He|]. split; [by rewrite app_assoc|].
  split; [by unfold pushed; rewrite foldl_app|]. intros Hx. apply Hall. lia.
Qed.

End Input.


(** An in-callback that keeps the bodies. *)
Definition collect : in_callback (list (list Z)) := {| PushRecord := fun s b => Ok (s ++ [b], 0) |}.
Definition no_output : out_callback unit := {| PullRecord := fun s => Ok (s, None, 0, 0); AckRecord := fun s _ => Ok s |}.

Definition data_conn (rs : list recv_ev) : conn (list (list Z)) unit :=
  {| eng := set_write_msg (set_read_msg (set_mech (set_decoder (set_handshaking new_stream_engine false)
              (Some (new_v2_decoder in_batch_size (-1)))) (Some (new_null_mechanism (eo_mech sample_opts)))) MData) MData;
     sk := {| rx := rs; txs := []; sent := [] |}; icb := Some []; ocb := None |}.


(** ** Two defects *)

(** A peer whose first byte is not 0xff (a ZMTP 1.0 peer without version
    number, or anything else that connects) aborts the process: the handshake
    succeeds without creating a decoder, and the input event then asserts that
    there is one. *)
Theorem unversioned_peer_aborts {IS OS : Type} icb_ops ocb_ops mem opts (c : conn IS OS) b l r :
  rx (sk c) = RecvBytes (b :: l) :: r -> b <> 255 -> handshaking (eng c) = true -> io_error (eng c) = false ->
  greeting_recv (eng c) = [] -> greeting_size (eng c) = v2_greeting_size -> decoder (eng c) = None ->
  in_event icb_ops ocb_ops mem opts c = Stop AssertFailed.
Proof.
  intros Hrx Hb Hh Hio Hg Hs Hd. unfold in_event. rewrite Hio, Hh. cbn [negb afs_assert mbind result_bind].
  assert (Hrecv : exists c1, receive_greeting opts (Z.to_nat v3_greeting_size) c = Ok (c1, GreetDone) /\
    decoder (eng c1) = None /\ nth 0 (greeting_recv (eng c1)) 0 = b).
  { change (Z.to_nat v3_greeting_size) with (S (Z.to_nat 63)). generalize (Z.to_nat 63). intros fuel. cbn [receive_greeting].
    rewrite Hg, Hs. change (negb (Z.of_nat (length []) <? v2_greeting_size)) with false. cbv iota. unfold read. rewrite Hrx.
    change (Z.to_nat (v2_greeting_size - Z.of_nat (length []))) with 12%nat. cbn [take]. cbn [on_eng eng set_greeting_recv greeting_recv]. rewrite Hg. cbn [app nth].
    rewrite (proj2 (Z.eqb_neq b 255)) by done. cbn [negb]. eexists. split; [reflexivity|]. cbn. rewrite Hg. done. }
  destruct Hrecv as (c1 & Hrecv & Hd1 & Hb1).
  rewrite (handshake_run opts c c1 GreetDone) by (try done; by rewrite Hg, Hs). unfold choose_protocol, is_versioned.
  rewrite Hb1, (proj2 (Z.eqb_neq b 255)) by done. cbn [andb negb mbind result_bind].
  destruct (out_bytes (eng c1)); cbn; by rewrite Hd1.
Qed.

Lemma unversioned_peer_aborts_witness :
  in_event collect no_output (fun _ => true) sample_opts
    {| eng := new_stream_engine; sk := {| rx := [RecvBytes [71; 69; 84; 32]]; txs := []; sent := [] |}; icb := Some []; ocb := None |}
  = Stop AssertFailed.
Proof.
  apply (unversioned_peer_aborts collect no_output (fun _ => true) sample_opts
    {| eng := new_stream_engine; sk := {| rx := [RecvBytes [71; 69; 84; 32]]; txs := []; sent := [] |}; icb := Some []; ocb := None |}
    71 [69; 84; 32] []); done.
Defined.

(** The end of a stream can be lost: when the last record has been encoded
    ([output_stopped]) and the socket takes only a part of the output buffer,
    [out_event] throws the rest of the buffer away, and neither sends it nor
    keeps it. *)
Theorem finish_drops_unsent_bytes {IS OS : Type} ocb_ops (c : conn IS OS) en n r :
  output_stopped (eng c) = true -> input_stopped (eng c) = false -> handshaking (eng c) = false ->
  encoder (eng c) = Some en -> e_msg en = None -> txs (sk c) = SendUpTo n :: r -> 0 <= n ->
  exists c', flush_output ocb_ops c = Ok (c', false) /\ out_bytes (eng c') = [] /\ pollout (eng c') = false /\
    sent (sk c') = sent (sk c) ++ take (Z.to_nat n) (out_bytes (eng c)).
Proof.
  intros Hos His Hh Hen Hm Htx Hn. unfold flush_output, write. rewrite Htx.
  rewrite (proj2 (Z.eqb_neq _ (-1))) by lia. cbn [on_eng eng set_out_bytes output_stopped]. rewrite Hos.
  unfold run_encode. cbn [on_eng eng set_out_bytes encoder hp]. rewrite Hen. unfold encode. rewrite Hm. cbn [mbind result_bind].
  cbn [ack_all foldM mbind result_bind]. cbv zeta. cbn [on_eng eng sk].
  assert (Hmin : forall l : list Z, take (Z.to_nat (Z.min n (Z.of_nat (length l)))) l = take (Z.to_nat n) l).
  { intros l. destruct (Z.le_gt_cases n (Z.of_nat (length l))); [by rewrite Z.min_l by lia|].
    rewrite Z.min_r, Nat2Z.id, firstn_all, take_ge by lia. done. }
  destruct (length _) as [|fuel]; cbn; rewrite His; cbn; rewrite Hh; cbn; (eexists; split; [reflexivity|]); cbn; by rewrite Hmin.
Qed.

(** A record of 40 bytes is in the buffer and the socket takes 10. *)
Definition finishing_conn : conn unit unit :=
  {| eng := set_output_stopped (set_out_bytes (set_encoder (set_handshaking new_stream_engine false) (Some (new_v2_encoder out_batch_size)))
              (frame 0 (replicate 40 9))) true;
     sk := {| rx := []; txs := [SendUpTo 10; SendUpTo 100]; sent := [] |}; icb := Some tt; ocb := Some tt |}.

Lemma finish_drops_unsent_bytes_witness :
  exists c', flush_output no_output finishing_conn = Ok (c', false) /\ out_bytes (eng c') = [] /\ pollout (eng c') = false /\
    sent (sk c') = sent (sk finishing_conn) ++ take (Z.to_nat 10) (out_bytes (eng finishing_conn)).
Proof.
  apply (finish_drops_unsent_bytes no_output finishing_conn (new_v2_encoder out_batch_size) 10 [SendUpTo 100]); done.
Defined.

(** The whole event, from the out-callback's last record: 42 bytes are encoded,
    10 are sent. *)
Definition last_record : out_callback bool :=
  {| PullRecord := fun (s : bool) => Ok (true, if s then None else Some (77, replicate 40 9), 40, if s then 0 else 1);
     AckRecord := fun s _ => Ok s |}.

Example last_record_is_cut :
  match out_event last_record (fun _ => true)
    {| eng := set_read_msg (set_mech (set_encoder (set_handshaking new_stream_engine false) (Some (new_v2_encoder out_batch_size)))
                (Some (new_null_mechanism (eo_mech sample_opts)))) MData;
       sk := {| rx := []; txs := [SendUpTo 10; SendUpTo 100]; sent := [] |}; icb := Some tt; ocb := Some false |} with
  | Ok (c', false) => bool_decide (out_bytes (eng c') = []) && bool_decide (sent (sk c') = take 10 (frame 0 (replicate 40 9)))
  | _ => false
  end = true.
Proof. by vm_compute. Qed.

End EngineProofs.
