(* ===== verification/EngineOutput.v ===== *)
(** The output of the connection engine (src/net/stream_engine.cpp): output
    events send the frames of the records that the out-callback hands over,
    whatever the socket takes at a time, and what one engine sends is what
    another one delivers.  An out-callback is any object that keeps the contract
    of the class [OutCallbackSpec].  The end of the stream, after the callback's
    last record, is in EngineProofs ([finish_drops_unsent_bytes]). *)
From stdpp Require Import base numbers list gmap.
From Stdlib Require Import ZArith Lia.
From S2P Require Import Prelude Msg Codec Encoder Mechanism StreamEngine EngineProofs.

Module EngineOutput.
Import Msg Wire Frame Enc Sock Engine EngineProofs.

(** ** The encoder fills its buffer *)

Lemma mem_read_length l off n x : mem_read l off n = Ok x -> Z.of_nat (length x) = n.
Proof.
  unfold mem_read. destruct (Z.leb_spec 0 off), (Z.leb_spec 0 n), (Z.leb_spec (off + n) (Z.of_nat (length l))); try done.
  intros [= <-]. rewrite length_take, length_drop. lia.
Qed.

Lemma source_length e h n x : source e h n = Ok x -> Z.of_nat (length x) = n.
Proof.
  unfold source. destruct (Z.eqb_spec n 0) as [->|]; [by intros [= <-]|].
  destruct (write_pos e); [done|apply mem_read_length| |].
  - destruct (e_msg e) as [m|]; [|done]. destruct (body_buf h m); [apply mem_read_length|done].
  - destruct (e_data e) as [[p bytes]|]; [apply mem_read_length|done].
Qed.

(** [encode] stops when the message is done or the buffer is full. *)
Lemma encode_loop_fills fuel own bsz e h out e' h' out' ack :
  encode_loop fuel own bsz e h out = Ok (e', h', out', ack) -> e_msg e' = None \/ bsz <= Z.of_nat (length out').
Proof.
  revert e h out. induction fuel as [|fuel IH]; intros e h out; cbn [encode_loop]; cbv zeta;
    (destruct (Z.ltb_spec (Z.of_nat (length out)) bsz) as [Hlt|Hge]; cbn [negb]; [|intros [= <- <- <- <-]; by right]); [done|].
  destruct (_ && new_msg_flag e).
  { destruct (e_msg e); [|done]. unfold release. destruct (close h m) as [[[h1 m1] r]|]; [|done]. cbn [mbind result_bind].
    destruct (bool_decide _); [|done]. cbn [afs_assert mbind result_bind].
    destruct (e_data e) as [[p l]|]; cbn [mbind result_bind]; intros [= <- _ _ _]; by left. }
  destruct (if to_write e =? 0 then _ else _) as [e1|]; [|done]. cbn [mbind result_bind].
  destruct (_ && own && _) eqn:Ez.
  - apply andb_true_iff in Ez as [_ Hbig%Z.leb_le]. destruct (source e1 h (to_write e1)) as [bytes|] eqn:E; [|done].
    intros [= _ _ <- _]. right. by rewrite (source_length _ _ _ _ E).
  - destruct (source _ _ _) as [bytes|]; [|done]. cbn [mbind result_bind]. apply IH.
Qed.

Definition capacity (e : v2_encoder) (bf : option Z) : Z := match bf with Some n => n | None => e_bufsize e end.

Lemma encode_fills e h bf e' h' out ack :
  encode e h bf = Ok (e', h', out, ack) -> e_msg e' = None \/ capacity e bf <= Z.of_nat (length out).
Proof.
  unfold encode. destruct (e_msg e) eqn:E; [|intros [= <- _ _ _]; by left]. destruct bf; apply encode_loop_fills.
Qed.

(** ** The out-callback *)

(** What a callback that has records to send promises: it hands them over one
    after the other and takes their acknowledgements.  [pulled] and [acked] are
    what it handed over and got back, [waiting] what it still has. *)
Class OutCallbackSpec {OS : Type} (ops : out_callback OS) := {
  pulled : OS -> list (Z * list Z);
  acked : OS -> list Z;
  waiting : OS -> list (Z * list Z);
  spec_pull o : exists o', acked o' = acked o /\
    match waiting o with
    | [] => (exists n r, PullRecord ops o = Ok (o', None, n, r)) /\ pulled o' = pulled o /\ waiting o' = []
    | (p, b) :: q => PullRecord ops o = Ok (o', Some (p, b), Z.of_nat (length b), 0) /\ pulled o' = pulled o ++ [(p, b)] /\ waiting o' = q
    end;
  spec_ack o p : exists o', AckRecord ops o p = Ok o' /\ acked o' = acked o ++ [p] /\ pulled o' = pulled o /\ waiting o' = waiting o
}.

(** Records that a message can hold. *)
Definition record_ok (mem : Z -> bool) (r : Z * list Z) : Prop := valid_msg mem (-1) 0 r.2 /\ Z.of_nat (length r.2) < 2 ^ 32.

Definition messages (rs : list (Z * list Z)) : list (Z * list Z) := (fun r => (0, r.2)) <$> rs.

Lemma frames_snoc_message rs p b : frames (messages (rs ++ [(p, b)])) = frames (messages rs) ++ frame 0 b.
Proof. unfold messages, frames. rewrite fmap_app, bind_app. cbn. by rewrite app_nil_r. Qed.

Section Output.
Context {IS OS : Type} (ocb_ops : out_callback OS) (mem : Z -> bool).
Context `{!OutCallbackSpec ocb_ops}.
Local Abbreviation connT := (conn IS OS).

(** The encoder with [rest] of the last record to write. *)
Inductive enc_state (en : v2_encoder) (h : heap) (o : OS) : list Z -> Prop :=
| es_idle : idle out_batch_size en -> heap_wf h -> acked o = (pulled o).*1 -> enc_state en h o []
| es_busy rest rs p b m hc :
    encoding h m b (Some (p, b)) (Z.of_nat (length b)) out_batch_size en rest ->
    size h m = Ok (Z.of_nat (length b)) -> in_unsigned 64 (Z.of_nat (length b)) ->
    close h m = Ok (hc, {| u := closed; flags := flags m |}, RC0) -> heap_wf hc ->
    pulled o = rs ++ [(p, b)] -> acked o = rs.*1 -> enc_state en h o rest.

Lemma enc_state_bufsize en h o rest : enc_state en h o rest -> e_bufsize en = out_batch_size.
Proof. intros [(_ & _ & _ & _ & ?) _ _|? ? ? ? ? ? [] _ _ _ _ _]; done. Qed.

(** A call of [encode]: some of the bytes, all of them or a full buffer; the
    record is acknowledged with the last one. *)
Lemma encode_step en h o rest bf :
  enc_state en h o rest -> buffer_ok bf ->
  exists en' h' bytes acks rest', encode en h bf = Ok (en', h', bytes, acks) /\ rest = bytes ++ rest' /\
    (e_msg en' = None \/ capacity en bf <= Z.of_nat (length bytes)) /\ (rest <> [] -> bytes <> []) /\
    (e_msg en = None -> bytes = [] /\ e_msg en' = None) /\
    forall o', pulled o' = pulled o -> acked o' = acked o ++ acks -> enc_state en' h' o' rest'.
Proof.
  intros [Hid Hwf Hack|rest' rs p b m hc Henc Hs Hlen Hc Hwf Hp Hack] Hbf.
  - exists en, h, [], [], []. pose proof Hid as (Hm & _). split; [unfold encode; by rewrite Hm|]. split_and!; try done; [by left|].
    intros o' Hp' Ha'. apply es_idle; [done|done|]. by rewrite Ha', app_nil_r, Hack, Hp'.
  - pose proof Henc as [Hm _ _ _ _ _].
    destruct (encode_ok h m b (Some (p, b)) (Z.of_nat (length b)) out_batch_size Hs (conj eq_refl (conj (le_n _) (firstn_all _))) hc Hc en rest' bf Henc)
      as (en' & h' & bytes & ack & Hrun & k & Hk & Hb & Hcase); [done..|]. cbn [app] in Hb.
    exists en', h', bytes, ack, (drop k rest'). split; [done|]. split; [by rewrite Hb, take_drop|]. split; [by eapply encode_fills|].
    split; [|split; [by rewrite Hm|]].
    + intros Hne Hbn. rewrite Hb in Hbn. apply (f_equal length) in Hbn. rewrite length_take in Hbn. cbn in Hbn.
      destruct Hcase as [(_ & _ & _ & Hp1)|(_ & _ & -> & _)]; [specialize (Hp1 I); lia|]. destruct rest'; [done|]. simpl in *. lia.
    + intros o' Hp' Ha'. destruct Hcase as [(-> & -> & Henc' & _)|(-> & -> & -> & Hid)].
      * eapply (es_busy _ _ _ _ rs p b m hc); try done; [congruence|by rewrite Ha', app_nil_r].
      * rewrite drop_all. apply es_idle; [done|done|]. rewrite Ha', Hack, Hp', Hp. cbn. by rewrite fmap_app.
Qed.

(** Loading a record into an idle encoder. *)
Lemma load_step en h o o' p b :
  enc_state en h o [] -> e_msg en = None -> valid_msg mem (-1) 0 b -> pulled o' = pulled o ++ [(p, b)] -> acked o' = acked o ->
  exists h1 m en0, init_size mem h (Z.of_nat (length b)) = (h1, m, RC0) /\
    load_msg en h1 m (Some (p, b)) (Z.of_nat (length b)) = Ok en0 /\ enc_state en0 h1 o' (frame 0 b) /\ e_msg en0 <> None.
Proof.
  intros Hst Hm Hv Hp Ha. assert (Hidle : idle out_batch_size en /\ heap_wf h /\ acked o = (pulled o).*1).
  { inversion Hst as [Hid Hwf Hack|r rs q b' m hc Henc]; [done|]. destruct Henc. congruence. }
  destruct Hidle as (Hid & Hwf & Hack). destruct Hv as [_ Hsz _ Hmem].
  destruct (fresh_message mem h (Z.of_nat (length b)) Hwf ltac:(lia) Hsz Hmem) as (h1 & m & hc & Hini & Hfl & Hs & Hc & Hbl & Hwfc).
  destruct (load_msg_ok h1 m b (Some (p, b)) (Z.of_nat (length b)) out_batch_size Hs en Hid) as (en0 & Hload & Henc).
  exists h1, m, en0. split; [done|]. split; [done|]. rewrite Hfl in Henc. split.
  - eapply (es_busy _ _ _ _ (pulled o) p b m hc); try done; [|by rewrite Hfl|by rewrite Ha].
    unfold in_unsigned, sizeof_content in *. lia.
  - destruct Henc as [-> _ _ _ _ _]. done.
Qed.

(** An engine after the handshake that sends the records of the out-callback
    [o]; [rest] is what the encoder still has of the last one. *)
Record carrying (c : connT) (o : OS) (rest : list Z) : Prop := {
  ca_io : io_error (eng c) = false;
  ca_hand : handshaking (eng c) = false;
  ca_read : read_msg (eng c) = MData;
  ca_mech : is_Some (mech (eng c));
  ca_stop : output_stopped (eng c) = false;
  ca_ocb : ocb c = Some o;
  ca_waiting : Forall (record_ok mem) (waiting o);
  ca_enc : exists en, encoder (eng c) = Some en /\ enc_state en (hp (eng c)) o rest
}.

(** The encoder has no message. *)
Definition free (c : connT) : Prop := exists en, encoder (eng c) = Some en /\ e_msg en = None.

Lemma ack_all_ok (c : connT) o acks :
  ocb c = Some o -> exists o', ack_all ocb_ops c acks = Ok {| eng := eng c; sk := sk c; icb := icb c; ocb := Some o' |} /\
    acked o' = acked o ++ acks /\ pulled o' = pulled o /\ waiting o' = waiting o.
Proof.
  unfold ack_all. revert c o. induction acks as [|p acks IH]; intros [x k i oc] o Ho; cbn in Ho; subst oc; cbn [foldM].
  { exists o. by rewrite app_nil_r. }
  cbn [ocb]. destruct (spec_ack o p) as (o1 & -> & Ha & Hp & Hw). cbn [mbind result_bind eng sk icb].
  destruct (IH {| eng := x; sk := k; icb := i; ocb := Some o1 |} o1 eq_refl) as (o2 & -> & Ha2 & Hp2 & Hw2). exists o2.
  rewrite Ha2, Ha, Hp2, Hp, Hw2, Hw, <- app_assoc. done.
Qed.

(** [encoder->encode] in the engine. *)
Lemma run_encode_ok (c : connT) o rest bf :
  carrying c o rest -> buffer_ok bf ->
  exists c' bytes o' rest', run_encode ocb_ops c bf = Ok (c', bytes) /\ rest = bytes ++ rest' /\ carrying c' o' rest' /\
    pulled o' = pulled o /\ waiting o' = waiting o /\ sk c' = sk c /\ out_bytes (eng c') = out_bytes (eng c) /\
    (free c' \/ default out_batch_size bf <= Z.of_nat (length bytes)) /\ (rest <> [] -> bytes <> []) /\ (free c -> bytes = [] /\ free c').
Proof.
  intros [Hio Hh Hrd Hm Hst Ho Hwt (en & Hen & Hs)] Hbf. destruct (encode_step en (hp (eng c)) o rest bf Hs Hbf)
    as (en' & h' & bytes & acks & rest' & Hrun & Hrest & Hfill & Hne & Hfree & Hnext).
  unfold run_encode. rewrite Hen, Hrun. cbn [mbind result_bind]. cbv zeta. set (c1 := on_eng c _).
  destruct (ack_all_ok c1 o acks Ho) as (o' & -> & Ha & Hp & Hw). cbn [mbind result_bind].
  eexists _, bytes, o', rest'. split; [reflexivity|]. split; [done|]. split.
  { split; try done; [by rewrite Hw|]. exists en'. split; [done|]. by apply Hnext. }
  split; [done|]. split; [done|]. split; [done|]. split; [done|].
  assert (Hcap : capacity en bf = default out_batch_size bf) by (destruct bf; [done|]; by apply (enc_state_bufsize en (hp (eng c)) o rest)).
  rewrite Hcap in Hfill. split_and!; [|done|].
  - destruct Hfill as [Hf|Hf]; [left; by exists en'|by right].
  - intros (en0 & Hen0 & Hm0). assert (en0 = en) as -> by congruence. destruct (Hfree Hm0) as [Hb Hm']. split; [done|]. by exists en'.
Qed.

(** A record is pulled and loaded, or there is none. *)
Lemma pull_ok (c : connT) o :
  carrying c o [] -> free c ->
  match waiting o with
  | [] => exists c' o', run_read_msg ocb_ops mem c = Ok (c', PullNone) /\ carrying c' o' [] /\ free c' /\
      pulled o' = pulled o /\ waiting o' = [] /\ sk c' = sk c /\ out_bytes (eng c') = out_bytes (eng c)
  | (p, b) :: q => exists c1 en en', run_read_msg ocb_ops mem c = Ok (c1, PullMsg (Some (p, b)) (Z.of_nat (length b)) false) /\
      encoder (eng c1) = Some en /\ load_msg en (hp (eng c1)) (tx_msg (eng c1)) (Some (p, b)) (Z.of_nat (length b)) = Ok en' /\
      exists o', carrying (on_eng c1 (fun e => set_encoder e (Some en'))) o' (frame 0 b) /\
        pulled o' = pulled o ++ [(p, b)] /\ waiting o' = q /\ sk c1 = sk c /\ out_bytes (eng c1) = out_bytes (eng c)
  end.
Proof.
  intros [Hio Hh Hrd [mc Hm] Hst Ho Hwt (en & Hen & Hs)] (en0 & Hen0 & Hm0). assert (en0 = en) as -> by congruence.
  unfold run_read_msg, pull_and_encode. rewrite Hrd, Hm. cbn [afs_assert mbind result_bind]. rewrite Ho.
  destruct (spec_pull o) as (o' & Ha & Hcase). destruct (waiting o) as [|[p b] q] eqn:Hw.
  - destruct Hcase as ((n & r & ->) & Hp & Hw'). cbn [mbind result_bind]. eexists _, o'. split; [reflexivity|]. split; [|split; [by exists en|done]].
    split; try done; [by rewrite Hw'|]. exists en. split; [done|]. inversion Hs as [Hid Hwf Hack|r0 rs p0 b0 m0 hc0 Henc]; [apply es_idle; [done..|congruence]|]. destruct Henc. congruence.
  - destruct Hcase as (-> & Hp & Hw'). apply Forall_cons in Hwt as [[Hv Hlen] Hwt]. cbn [snd] in Hv, Hlen. cbn [mbind result_bind]. rewrite unsigned_of_small by (unfold in_unsigned; lia).
    destruct (load_step en (hp (eng c)) o o' p b Hs Hm0 Hv Hp Ha) as (h1 & m & en' & Hini & Hload & Hs' & _). rewrite Hini. cbn [mbind result_bind].
    eexists _, en, en'. split; [reflexivity|]. split; [done|]. split; [done|]. exists o'. split; [|done]. split; try done; [by rewrite Hw'|]. by exists en'.
Qed.

Lemma carrying_free (c : connT) o rest : carrying c o rest -> free c -> rest = [].
Proof.
  intros [_ _ _ _ _ _ _ (en & Hen & Hs)] (en0 & Hen0 & Hm0). assert (en0 = en) as -> by congruence.
  inversion Hs as [|r0 rs p0 b0 m0 hc0 Henc]; [done|]. destruct Henc. congruence.
Qed.

(** Changes of the socket and of the output buffer. *)
Lemma carrying_out (c : connT) o rest sk' bytes :
  carrying c o rest -> carrying {| eng := set_out_bytes (eng c) bytes; sk := sk'; icb := icb c; ocb := ocb c |} o rest.
Proof. intros []. by split. Qed.

(** The loop of [out_event] pulls records until the buffer is full. *)
Lemma fill_output_ok fuel (c : connT) o rest null :
  carrying c o rest -> (rest = [] /\ free c) \/ out_batch_size <= Z.of_nat (length (out_bytes (eng c))) ->
  (null = true -> out_bytes (eng c) = []) -> out_batch_size <= Z.of_nat (length (out_bytes (eng c)) + fuel) ->
  exists c' o' rest' new, fill_output ocb_ops mem fuel c null = Ok c' /\ carrying c' o' rest' /\ sk c' = sk c /\
    out_bytes (eng c') ++ rest' = out_bytes (eng c) ++ rest ++ frames (messages new) /\
    pulled o' = pulled o ++ new /\ waiting o = new ++ waiting o' /\
    (out_bytes (eng c') = [] -> waiting o' = [] /\ rest' = [] /\ free c').
Proof.
  revert c o rest null. induction fuel as [|fuel IH]; intros c o rest null Hc Hfree Hnull Hfuel; cbn [fill_output];
    (destruct (Z.leb_spec out_batch_size (Z.of_nat (length (out_bytes (eng c))))) as [Hfull|Hroom];
     [exists c, o, rest, []; rewrite !app_nil_r; split_and!; try done; intros E; rewrite E in Hfull; unfold out_batch_size in Hfull; simpl in Hfull; lia|]);
    [lia|]. destruct Hfree as [[-> Hf]|?]; [|lia]. pose proof (pull_ok c o Hc Hf) as Hpull.
  destruct (waiting o) as [|[p b] q] eqn:Hw.
  { destruct Hpull as (c' & o' & -> & Hc' & Hf' & Hp & Hw' & Hsk & Hob). cbn [mbind result_bind].
    exists c', o', [], []. rewrite Hp, Hw', !app_nil_r. by split_and!. }
  destruct Hpull as (c1 & en & en' & -> & Hen & Hload & o1 & Hc1 & Hp1 & Hw1 & Hsk1 & Hob1). cbn [mbind result_bind]. rewrite Hen, Hload. cbn [mbind result_bind].
  set (c2 := on_eng c1 _) in *. change (out_bytes (eng c2)) with (out_bytes (eng c1)). rewrite Hob1.
  set (bf := if null then None else Some (out_batch_size - Z.of_nat (length (out_bytes (eng c))))).
  destruct (run_encode_ok c2 o1 (frame 0 b) bf Hc1) as (c3 & bytes & o3 & rest3 & -> & Hrest & Hc3 & Hp3 & Hw3 & Hsk3 & Hob3 & Hfill & Hne & _);
    [unfold bf; destruct null; cbn; [done|lia]|]. cbn [mbind result_bind].
  assert (Hb : (1 <= length bytes)%nat) by (destruct bytes; [by destruct (Hne (frame_not_nil 0 b))|simpl; lia]).
  rewrite (proj2 (Z.ltb_lt 0 _)) by lia. cbn [afs_assert mbind result_bind]. set (c4 := on_eng c3 _).
  assert (Hlen : length (out_bytes (eng c4)) = (length (out_bytes (eng c)) + length bytes)%nat) by (cbn; apply length_app).
  destruct (IH c4 o3 rest3 false) as (c' & o' & rest' & new & Hrun & Hc' & Hsk' & Hout & Hp' & Hw' & Hend).
  - destruct Hc3. by split.
  - destruct Hfill as [(en3 & Hen3 & Hm3)|Hfull].
    + left. split; [by apply (carrying_free c3 o3 rest3 Hc3); exists en3|by exists en3].
    + right. rewrite Hlen. unfold bf in Hfull. destruct null; cbn in Hfull; lia.
  - done.
  - rewrite Hlen. lia.
  - exists c', o', rest', ((p, b) :: new). rewrite Hrun. split; [done|]. split; [done|]. split; [rewrite Hsk'; cbn; by rewrite Hsk3, <- Hsk1|].
    split; [|split; [|split; [|done]]].
    + rewrite Hout. cbn [c4 on_eng eng set_out_bytes out_bytes]. change ((p, b) :: new) with ([(p, b)] ++ new).
      unfold messages, frames. rewrite fmap_app, bind_app. cbn [app fmap list_fmap mbind list_bind fst snd]. rewrite app_nil_r, Hrest, <- !app_assoc. done.
    + by rewrite Hp', Hp3, Hp1, <- app_assoc.
    + by rewrite <- Hw1, <- Hw3, Hw'.
Qed.

(** What is still to be sent, and whether the record of the last byte is still
    to be acknowledged. *)
Definition backlog (c : connT) (o : OS) (rest : list Z) : nat :=
  length (out_bytes (eng c)) + length rest + length (frames (messages (waiting o))).

Definition unfree (c : connT) : nat := match encoder (eng c) with Some en => if e_msg en is None then 0 else 1 | None => 0 end.

Definition left (c : connT) (o : OS) (rest : list Z) : nat :=
  backlog c o rest + (if (backlog c o rest =? 0)%nat then unfree c else 1).

Lemma left_decreases c o rest c' o' rest' :
  (1 <= backlog c o rest)%nat -> (backlog c' o' rest' <= backlog c o rest)%nat -> (left c' o' rest' <= left c o rest)%nat /\
    ((backlog c' o' rest' < backlog c o rest)%nat -> (left c' o' rest' < left c o rest)%nat).
Proof.
  intros H1 H2. assert (unfree c' <= 1)%nat by (unfold unfree; destruct (encoder (eng c')) as [en|]; [destruct (e_msg en)|]; lia).
  unfold left. destruct (Nat.eqb_spec (backlog c o rest) 0), (Nat.eqb_spec (backlog c' o' rest') 0); lia.
Qed.

(** Writing the buffer to the socket. *)
Lemma flush_plain (c : connT) sk' n :
  output_stopped (eng c) = false -> handshaking (eng c) = false -> write (sk c) (out_bytes (eng c)) = (sk', n) ->
  flush_output ocb_ops c = Ok (if n =? -1 then {| eng := set_pollout (eng c) false; sk := sk'; icb := icb c; ocb := ocb c |}
    else {| eng := set_out_bytes (eng c) (drop (Z.to_nat n) (out_bytes (eng c))); sk := sk'; icb := icb c; ocb := ocb c |}, false).
Proof.
  intros Hst Hh Hw. unfold flush_output. rewrite Hw. cbv zeta. destruct (n =? -1); [done|].
  cbn [on_eng eng set_out_bytes output_stopped]. rewrite Hst. cbn [mbind result_bind on_eng eng set_out_bytes handshaking]. by rewrite Hh.
Qed.

Lemma flush_ok (c : connT) o rest :
  carrying c o rest -> out_bytes (eng c) <> [] ->
  exists c', flush_output ocb_ops c = Ok (c', false) /\ carrying c' o rest /\ rx (sk c') = rx (sk c) /\ txs (sk c') = tail (txs (sk c)) /\
    sent (sk c') ++ out_bytes (eng c') = sent (sk c) ++ out_bytes (eng c) /\
    (length (out_bytes (eng c')) <= length (out_bytes (eng c)))%nat /\
    forall k r, txs (sk c) = SendUpTo k :: r -> 1 <= k -> (length (out_bytes (eng c')) < length (out_bytes (eng c)))%nat.
Proof.
  intros Hc Hne. pose proof Hc as [Hio Hh Hrd Hm Hst Ho Hwt (en & Hen & Hs)].
  destruct (write (sk c) (out_bytes (eng c))) as [sk' n] eqn:Hw. rewrite (flush_plain c sk' n Hst Hh Hw). eexists. split; [reflexivity|].
  unfold write in Hw. destruct (txs (sk c)) as [|[m| |] r] eqn:Ht; injection Hw as <- <-.
  - split; [by apply carrying_out|]. cbn. rewrite Ht, drop_0. by split_and!.
  - set (k := Z.to_nat (Z.min m (Z.of_nat (length (out_bytes (eng c)))))). destruct (Z.eqb_spec (Z.of_nat k) (-1)); [lia|].
    split; [by apply carrying_out|]. cbn. rewrite Nat2Z.id, <- app_assoc, take_drop, length_drop. split_and!; try done; [lia|].
    intros k' r' [= <- <-] Hk. destruct (out_bytes (eng c)); [done|]. simpl in *. lia.
  - split; [by apply carrying_out|]. cbn. rewrite drop_0. by split_and!.
  - split; [destruct Hc; by split|]. cbn. by split_and!.
Qed.

(** The buffer of an event that pulled [new] goes out. *)
Lemma flush_step (c c2 : connT) o rest o2 rest2 new :
  carrying c2 o2 rest2 -> out_bytes (eng c2) <> [] -> sk c2 = sk c ->
  out_bytes (eng c2) ++ rest2 = out_bytes (eng c) ++ rest ++ frames (messages new) -> waiting o = new ++ waiting o2 ->
  exists c', flush_output ocb_ops c2 = Ok (c', false) /\ carrying c' o2 rest2 /\ rx (sk c') = rx (sk c) /\
    sent (sk c') ++ out_bytes (eng c') ++ rest2 = sent (sk c) ++ out_bytes (eng c) ++ rest ++ frames (messages new) /\
    (left c' o2 rest2 <= left c o rest)%nat /\ txs (sk c') = tail (txs (sk c)) /\
    forall k r, txs (sk c) = SendUpTo k :: r -> 1 <= k -> (left c' o2 rest2 < left c o rest)%nat.
Proof.
  intros Hc2 Hne Hsk Hout Hw. destruct (flush_ok c2 o2 rest2 Hc2 Hne) as (c' & Hrun & Hc' & Hrx & Htx & Hby & Hle & Hlt).
  rewrite Hsk in *. exists c'. assert (Hbl : backlog c2 o2 rest2 = backlog c o rest).
  { apply (f_equal length) in Hout. rewrite !length_app in Hout. unfold backlog. rewrite Hw. unfold messages, frames in *.
    rewrite fmap_app, bind_app, length_app. lia. }
  assert (Hb' : (backlog c' o2 rest2 <= backlog c o rest)%nat) by (rewrite <- Hbl; unfold backlog; lia).
  assert (H1 : (1 <= backlog c o rest)%nat) by (rewrite <- Hbl; unfold backlog; destruct (out_bytes (eng c2)); [done|simpl; lia]).
  destruct (left_decreases c o rest c' o2 rest2 H1 Hb') as [Hleft Hless]. split_and!; try done.
  - by rewrite app_assoc, Hby, <- app_assoc, Hout.
  - intros k r Ht Hk. apply Hless. rewrite <- Hbl. unfold backlog. specialize (Hlt k r Ht Hk). lia.
Qed.

(** What an event that begins with an empty buffer fills it with. *)
Lemma refill_ok fuel (c : connT) o rest en :
  carrying c o rest -> encoder (eng c) = Some en -> out_batch_size <= Z.of_nat fuel ->
  exists c2 o2 rest2 new, ('(c1, bytes) ← run_encode ocb_ops c None;
      fill_output ocb_ops mem fuel (on_eng c1 (fun e => set_out_bytes e bytes)) (if e_msg en is None then true else false)) = Ok c2 /\
    carrying c2 o2 rest2 /\ sk c2 = sk c /\ out_bytes (eng c2) ++ rest2 = rest ++ frames (messages new) /\
    pulled o2 = pulled o ++ new /\ waiting o = new ++ waiting o2 /\
    (out_bytes (eng c2) = [] -> waiting o2 = [] /\ rest2 = [] /\ free c2).
Proof.
  intros Hc Hen Hfuel.
  destruct (run_encode_ok c o rest None Hc I) as (c1 & bytes & o1 & rest1 & -> & -> & Hc1 & Hp1 & Hw1 & Hsk1 & _ & Hfill & _ & Hfree). cbn [mbind result_bind].
  destruct (fill_output_ok fuel (on_eng c1 (fun e => set_out_bytes e bytes)) o1 rest1 (if e_msg en is None then true else false))
    as (c2 & o2 & rest2 & new & Hrun & Hc2 & Hsk2 & Hout & Hp2 & Hw2 & Hend).
  - by apply carrying_out.
  - destruct Hfill as [Hf|]; [left; split; [by eapply carrying_free|done]|by right].
  - destruct (e_msg en) eqn:Hm; [done|]. intros _. apply Hfree. by exists en.
  - cbn. lia.
  - exists c2, o2, rest2, new. rewrite <- Hp1, <- Hw1, <- Hsk1, <- app_assoc. by split_and!.
Qed.

(** An output event: what it pulls is added to what is to be sent, the socket
    takes a part of it. *)
Lemma engine_out_event_ok (c : connT) o rest :
  carrying c o rest ->
  exists c' o' rest' new, Engine.out_event ocb_ops mem c = Ok (c', false) /\ carrying c' o' rest' /\ rx (sk c') = rx (sk c) /\
    sent (sk c') ++ out_bytes (eng c') ++ rest' = sent (sk c) ++ out_bytes (eng c) ++ rest ++ frames (messages new) /\
    pulled o' = pulled o ++ new /\ waiting o = new ++ waiting o' /\ (left c' o' rest' <= left c o rest)%nat /\
    ((txs (sk c') = txs (sk c) /\ left c' o' rest' = 0%nat) \/
     (txs (sk c') = tail (txs (sk c)) /\ forall k r, txs (sk c) = SendUpTo k :: r -> 1 <= k -> (left c' o' rest' < left c o rest)%nat)).
Proof.
  intros Hc. pose proof Hc as [Hio Hh Hrd Hm Hst Ho Hwt (en & Hen & Hs)].
  unfold Engine.out_event. generalize (Z2Nat.id out_batch_size ltac:(done)). generalize (Z.to_nat out_batch_size). intros fuel Hfuel.
  rewrite Hio. cbn [negb afs_assert mbind result_bind]. destruct (out_bytes (eng c)) as [|x l] eqn:Hob.
  2: { destruct (flush_step c c o rest o rest []) as (c' & Hrun & Hc' & Hrx & Hby & Hle & Htx & Hlt); try done; [by rewrite Hob|by rewrite app_nil_r|].
       exists c', o, rest, []. rewrite <- Hob, app_nil_r. rewrite app_nil_r in Hby. split_and!; try done; [by rewrite app_nil_r|]. by right. }
  rewrite Hen. destruct (refill_ok fuel c o rest en Hc Hen ltac:(lia)) as (c2 & o2 & rest2 & new & Hfill & Hc2 & Hsk2 & Hout & Hp2 & Hw2 & Hend).
  destruct (run_encode ocb_ops c None) as [[c1 bytes]|]; [|done]. cbn [mbind result_bind] in Hfill |- *. rewrite Hfill. cbn [mbind result_bind].
  destruct (out_bytes (eng c2)) as [|y l2] eqn:Hob2.
  - destruct (Hend eq_refl) as (Hw0 & -> & Hf). exists c2, o2, [], new. rewrite Hob2, Hsk2. cbn [app] in Hout |- *.
    assert (Hz : left c2 o2 [] = 0%nat).
    { destruct Hf as (en2 & Hen2 & Hm2). unfold left, backlog, unfree. rewrite Hob2, Hw0, Hen2, Hm2. done. }
    rewrite Hz, <- Hout. split_and!; try done; [lia|]. by left.
  - destruct (flush_step c c2 o rest o2 rest2 new) as (c' & Hrun & Hc' & Hrx & Hby & Hle & Htx & Hlt); try done; [by rewrite Hob2|by rewrite Hob2, Hob|].
    exists c', o2, rest2, new. rewrite Hob in Hby. split_and!; try done. by right.
Qed.

(** ** Successive output events *)

Fixpoint out_events (n : nat) (c : connT) : result connT :=
  match n with
  | O => Ok c
  | S n' => r ← Engine.out_event ocb_ops mem c; out_events n' r.1
  end.

Lemma out_events_ok n (c : connT) o rest :
  carrying c o rest ->
  exists c' o' rest' new, out_events n c = Ok c' /\ carrying c' o' rest' /\
    sent (sk c') ++ out_bytes (eng c') ++ rest' = sent (sk c) ++ out_bytes (eng c) ++ rest ++ frames (messages new) /\
    pulled o' = pulled o ++ new /\ waiting o = new ++ waiting o' /\ (left c' o' rest' <= left c o rest)%nat.
Proof.
  revert c o rest. induction n as [|n IH]; intros c o rest Hc.
  { exists c, o, rest, []. rewrite !app_nil_r. by split_and!. }
  destruct (engine_out_event_ok c o rest Hc) as (c1 & o1 & rest1 & new1 & Hrun & Hc1 & _ & Hb1 & Hp1 & Hw1 & Hl1 & _).
  destruct (IH c1 o1 rest1 Hc1) as (c' & o' & rest' & new & Hrun' & Hc' & Hb' & Hp' & Hw' & Hl').
  exists c', o', rest', (new1 ++ new). cbn [out_events]. rewrite Hrun. cbn [mbind result_bind fst]. split; [done|]. split; [done|].
  split; [|split; [by rewrite Hp', Hp1, app_assoc|split; [by rewrite Hw1, Hw', app_assoc|lia]]].
  rewrite Hb', app_assoc, app_assoc, <- (app_assoc (sent (sk c1))), Hb1. unfold messages, frames. by rewrite fmap_app, bind_app, <- !app_assoc.
Qed.

(** Sockets that take something now and then. *)
Definition clean_send (t : send_ev) : Prop := match t with SendUpTo k => 1 <= k | SendAgain => True | SendFail => False end.
Definition takes (ts : list send_ev) : nat := length (filter (fun t => match t with SendUpTo _ => true | _ => false end = true) ts).

(** With as many such calls as there is left to do, everything is done. *)
Lemma out_events_done n (c : connT) o rest :
  carrying c o rest -> Forall clean_send (txs (sk c)) -> (left c o rest <= takes (txs (sk c)))%nat -> (length (txs (sk c)) <= n)%nat ->
  exists c' o' rest' new, out_events n c = Ok c' /\ carrying c' o' rest' /\
    sent (sk c') ++ out_bytes (eng c') ++ rest' = sent (sk c) ++ out_bytes (eng c) ++ rest ++ frames (messages new) /\
    pulled o' = pulled o ++ new /\ waiting o = new ++ waiting o' /\ left c' o' rest' = 0%nat.
Proof.
  revert c o rest. induction n as [|n IH]; intros c o rest Hc Hcl Hle Hlen.
  { destruct (txs (sk c)); [|simpl in Hlen; lia]. exists c, o, rest, []. rewrite !app_nil_r. cbn in Hle. split_and!; try done. lia. }
  destruct (engine_out_event_ok c o rest Hc) as (c1 & o1 & rest1 & new1 & Hrun & Hc1 & _ & Hb1 & Hp1 & Hw1 & Hl1 & Hcase).
  assert (Hrest : exists c' o' rest' new, out_events n c1 = Ok c' /\ carrying c' o' rest' /\
    sent (sk c') ++ out_bytes (eng c') ++ rest' = sent (sk c1) ++ out_bytes (eng c1) ++ rest1 ++ frames (messages new) /\
    pulled o' = pulled o1 ++ new /\ waiting o1 = new ++ waiting o' /\ left c' o' rest' = 0%nat).
  { destruct Hcase as [[_ Hz]|[Htx Hlt]].
    - destruct (out_events_ok n c1 o1 rest1 Hc1) as (c' & o' & rest' & new & ? & ? & ? & ? & ? & ?). exists c', o', rest', new. split_and!; try done. lia.
    - apply IH; [done|rewrite Htx; by apply Forall_tail| |rewrite Htx; destruct (txs (sk c)); simpl in *; lia].
      rewrite Htx. unfold takes in *. destruct (txs (sk c)) as [|[k| |] r]; [simpl in *; lia|..]; cbn [tail]; apply Forall_cons in Hcl as [Hk _].
      + specialize (Hlt k r eq_refl Hk). rewrite filter_cons_True in Hle by done. simpl in Hle. lia.
      + rewrite filter_cons_False in Hle by done. lia.
      + done. }
  destruct Hrest as (c' & o' & rest' & new & Hrun' & Hc' & Hb' & Hp' & Hw' & Hl'). exists c', o', rest', (new1 ++ new). cbn [out_events].
  rewrite Hrun. cbn [mbind result_bind fst]. split; [done|]. split; [done|].
  split; [|split; [by rewrite Hp', Hp1, app_assoc|split; [by rewrite Hw1, Hw', app_assoc|done]]].
  rewrite Hb', app_assoc, app_assoc, <- (app_assoc (sent (sk c1))), Hb1. unfold messages, frames. by rewrite fmap_app, bind_app, <- !app_assoc.
Qed.

Lemma nothing_left (c : connT) o rest :
  carrying c o rest -> left c o rest = 0%nat -> out_bytes (eng c) = [] /\ rest = [] /\ waiting o = [] /\ acked o = (pulled o).*1.
Proof.
  intros [_ _ _ _ _ _ _ (en & Hen & Hs)] Hz. unfold left in Hz. assert (Hbl : backlog c o rest = 0%nat) by lia. rewrite Hbl in Hz.
  unfold unfree in Hz. rewrite Hen in Hz. unfold backlog in Hbl. split; [by apply nil_length_inv; lia|]. split; [by apply nil_length_inv; lia|]. split.
  - destruct (waiting o) as [|[p b] q]; [done|]. unfold messages, frames in Hbl. cbn in Hbl. rewrite length_app in Hbl.
    pose proof (frame_not_nil 0 b). destruct (frame 0 b); [done|]. simpl in Hbl. lia.
  - inversion Hs as [|r0 rs p0 b0 m0 hc0 Henc]; [done|]. destruct Henc as [Hm _ _ _ _ _]. by rewrite Hm in Hz.
Qed.

(** What was acknowledged was pulled before. *)
Lemma acked_pulled (c : connT) o rest : carrying c o rest -> acked o `prefix_of` (pulled o).*1.
Proof.
  intros [_ _ _ _ _ _ _ (en & _ & Hs)]. destruct Hs as [_ _ ->|r0 rs p b m hc _ _ _ _ _ -> ->]; [done|]. rewrite fmap_app. by exists [p].
Qed.

End Output.

(** Everything is sent and acknowledged once the socket has taken enough. *)
Lemma all_sent {IS OS : Type} (ocb_ops : out_callback OS) mem `{!OutCallbackSpec ocb_ops} (c : conn IS OS) o n :
  carrying ocb_ops mem c o [] -> out_bytes (eng c) = [] -> pulled o = [] -> Forall clean_send (txs (sk c)) ->
  (length (frames (messages (waiting o))) < takes (txs (sk c)))%nat -> (length (txs (sk c)) <= n)%nat ->
  exists c' o', out_events ocb_ops mem n c = Ok c' /\ ocb c' = Some o' /\
    sent (sk c') = sent (sk c) ++ frames (messages (waiting o)) /\ acked o' = (waiting o).*1.
Proof.
  intros Hc Hob Hp0 Hcl Htk Hn. destruct (out_events_done ocb_ops mem n c o [] Hc Hcl) as (c2 & o2 & rest2 & new2 & Hrun2 & Hc2 & Hb2 & Hp2 & Hw2 & Hz); [|done|].
  { unfold left, backlog, unfree. rewrite Hob. destruct (encoder (eng c)) as [en|]; [destruct (e_msg en)|]; case_match; simpl in *; lia. }
  destruct (nothing_left ocb_ops mem c2 o2 rest2 Hc2 Hz) as (Ho2 & -> & Hw0 & Hack). rewrite Hob, Ho2, !app_nil_r in Hb2. cbn [app] in Hb2.
  exists c2, o2. rewrite Hack, Hp2, Hp0, Hw2, Hw0, app_nil_r. split_and!; try done. apply Hc2.
Qed.

(** Output is sent: after the handshake no output event fails, whatever the
    socket does; at any time it has been given a prefix of the frames of the
    callback's records, and the acknowledged records are the first ones, in
    order.  When the socket takes something often enough, all records are sent
    and acknowledged. *)
Theorem output_events_send {IS OS : Type} (ocb_ops : out_callback OS) mem `{!OutCallbackSpec ocb_ops} (c : conn IS OS) o n :
  carrying ocb_ops mem c o [] -> out_bytes (eng c) = [] -> pulled o = [] ->
  exists c' o', out_events ocb_ops mem n c = Ok c' /\ ocb c' = Some o' /\
    sent (sk c') `prefix_of` sent (sk c) ++ frames (messages (waiting o)) /\ acked o' `prefix_of` (waiting o).*1 /\
    (Forall clean_send (txs (sk c)) -> (length (frames (messages (waiting o))) < takes (txs (sk c)))%nat -> (length (txs (sk c)) <= n)%nat ->
       sent (sk c') = sent (sk c) ++ frames (messages (waiting o)) /\ acked o' = (waiting o).*1).
Proof.
  intros Hc Hob Hp0. destruct (out_events_ok ocb_ops mem n c o [] Hc) as (c' & o' & rest' & new & Hrun & Hc' & Hb & Hp & Hw & _).
  rewrite Hob in Hb. cbn [app] in Hb. rewrite Hp0 in Hp. cbn [app] in Hp. exists c', o'. split; [done|]. split; [apply Hc'|]. split; [|split].
  - exists (out_bytes (eng c') ++ rest' ++ frames (messages (waiting o'))). rewrite Hw. unfold messages, frames in *. rewrite fmap_app, bind_app, !app_assoc in *.
    by rewrite <- Hb.
  - etrans; [by eapply acked_pulled|]. rewrite Hp, Hw, fmap_app. by eexists.
  - intros Hcl Htk Hn. destruct (all_sent ocb_ops mem c o n Hc Hob Hp0 Hcl Htk Hn) as (c2 & o2 & Hrun2 & Ho2 & Hs2 & Ha2).
    assert (c2 = c') as -> by congruence. assert (o2 = o') as -> by (destruct Hc'; congruence). done.
Qed.

(** ** Across a connection *)


(** ** Samples *)

(** A callback that keeps what it has, what it handed over and what came back. *)
Definition queue : out_callback (list (Z * list Z) * list (Z * list Z) * list Z) :=
  {| PullRecord := fun '(w, p, a) => match w with [] => Ok (([], p, a), None, 0, 0) | r :: w' => Ok ((w', p ++ [r], a), Some r, Z.of_nat (length r.2), 0) end;
     AckRecord := fun '(w, p, a) q => Ok (w, p, a ++ [q]) |}.

#[export] Program Instance queue_spec : OutCallbackSpec queue := {
  pulled o := o.1.2;
  acked o := o.2;
  waiting o := o.1.1
}.
Next Obligation.
  intros [[[|[p b] w] pl] a]; cbn.
  - exists ([], pl, a). split; [done|]. split; [by exists 0, 0|done].
  - exists (w, pl ++ [(p, b)], a). by split_and!.
Qed.
Next Obligation. intros [[w pl] a] p. by eexists. Qed.

(** Two records; the socket takes one byte, pauses, and then three at a time. *)
Definition sample_records : list (Z * list Z) := [(77, [1; 2; 3]); (78, replicate 40 9)].
Definition sample_sender : conn unit (list (Z * list Z) * list (Z * list Z) * list Z) :=
  {| eng := set_read_msg (set_mech (set_encoder (set_handshaking new_stream_engine false) (Some (new_v2_encoder out_batch_size)))
              (Some (Mech.new_null_mechanism (eo_mech sample_opts)))) MData;
     sk := {| rx := []; txs := SendUpTo 1 :: SendAgain :: replicate 60 (SendUpTo 3); sent := [5] |}; icb := None; ocb := Some (sample_records, [], []) |}.

Lemma sample_carrying : carrying queue (fun _ => true) sample_sender (sample_records, [], []) [].
Proof.
  split; try done.
  - repeat constructor; cbn; try lia; done.
  - eexists. split; [done|]. apply es_idle; [done| |done]. intros l Hl. cbn in Hl. by rewrite dom_empty_L in Hl.
Qed.

Lemma sample_sends : Forall clean_send (txs (sk sample_sender)).
Proof. constructor; [cbn; lia|]. constructor; [done|]. apply Forall_replicate. cbn. lia. Qed.

Lemma output_events_send_witness :
  exists c', out_events queue (fun _ => true) 70 sample_sender = Ok c' /\ sent (sk c') = 5 :: frames (messages sample_records).
Proof.
  destruct (output_events_send queue (fun _ => true) sample_sender (sample_records, [], []) 70 sample_carrying eq_refl eq_refl)
    as (c' & o' & Hrun & _ & _ & _ & Hall).
  exists c'. split; [exact Hrun|]. apply Hall; [exact sample_sends|vm_compute; lia|vm_compute; lia].
Defined.

(** The receiver reads ten bytes, pauses, and reads the rest. *)
Definition sample_receiver : conn (list (list Z)) unit :=
  data_conn [RecvBytes (take 10 (frames (messages sample_records))); RecvAgain; RecvBytes (drop 10 (frames (messages sample_records)))].

Lemma sample_receiving :
  data_mode sample_receiver /\ heap_wf (hp (eng sample_receiver)) /\ Forall clean_ev (rx (sk sample_receiver)) /\
  Forall (fun r => valid_msg (fun _ => true) (-1) 0 r.2) sample_records.
Proof.
  split; [by split_and!; try eexists|]. split; [intros l Hl; cbn in Hl; by rewrite dom_empty_L in Hl|].
  split; [repeat constructor; done|]. repeat constructor; cbn; try lia; done.
Qed.


End EngineOutput.
