(* ===== verification/TcpAddress.v ===== *)
(** TCP addresses ([src/net/tcp_address.cpp], [src/net/tcp_address.hpp],
    [src/net/address.cpp]) and the endpoint strings of the network threads
    ([parse_uri] and [check_protocol] of [src/thread/up_thread_net.hpp] and
    [down_thread_net.hpp]): the socket address as the bytes of its union, the
    textual form and its parsing, and the address filters of the listener. *)
From Stdlib Require Import Ascii String ZArith Lia.
From stdpp Require Import base list list_numbers.
From S2P Require Import Prelude.

Module Addr.

(** ** C strings *)

Abbreviation cstr := (list ascii).

Definition lit (s : string) : cstr := list_ascii_of_string s.

(** [strrchr]: the text before the last [c] and the text after it. *)
Fixpoint strrchr (s : cstr) (c : ascii) : option (cstr * cstr) :=
  match s with
  | [] => None
  | x :: s' =>
      match strrchr s' c with
      | Some (a, b) => Some (x :: a, b)
      | None => if bool_decide (x = c) then Some ([], s') else None
      end
  end.

(** [uri.find (pat)]: the text before the first occurrence and after it. *)
Fixpoint find_sub (pat s : cstr) : option (cstr * cstr) :=
  if bool_decide (take (length pat) s = pat) then Some ([], drop (length pat) s)
  else match s with
  | [] => None
  | x :: s' => '(a, b) ← find_sub pat s'; Some (x :: a, b)
  end.

Definition digit (n : Z) : ascii := ascii_of_N (Z.to_N (48 + n)).

Definition digit_value (c : ascii) : option Z :=
  let n := Z.of_N (N_of_ascii c) in
  if (48 <=? n) && (n <=? 57) then Some (n - 48) else None.

Definition is_space (c : ascii) : bool :=
  let n := Z.of_N (N_of_ascii c) in (n =? 32) || ((9 <=? n) && (n <=? 13)).

(** The value of the leading digits. *)
Fixpoint strtol_digits (acc : Z) (s : cstr) : Z :=
  match s with
  | [] => acc
  | c :: s' => match digit_value c with Some d => strtol_digits (acc * 10 + d) s' | None => acc end
  end.

Fixpoint skip_spaces (s : cstr) : cstr :=
  match s with
  | c :: s' => if is_space c then skip_spaces s' else s
  | [] => []
  end.

(** [atoi]: [(int) strtol (s, NULL, 10)], which saturates at the bounds of
    [long]. *)
Definition atoi (s : cstr) : Z :=
  let clamp v := Z.max (- 2 ^ 63) (Z.min v (2 ^ 63 - 1)) in
  match skip_spaces s with
  | [] => 0
  | c :: s' =>
      if bool_decide (c = "-"%char) then s32 (clamp (- strtol_digits 0 s'))
      else if bool_decide (c = "+"%char) then s32 (clamp (strtol_digits 0 s'))
      else s32 (clamp (strtol_digits 0 (c :: s')))
  end.

(** [stream << n] for [0 <= n], at most [fuel] digits. *)
Fixpoint decimal (fuel : nat) (n : Z) : cstr :=
  match fuel with
  | O => []
  | S f => if n <? 10 then [digit n] else decimal f (n / 10) ++ [digit (n mod 10)]
  end.

(** ** The address union *)

Definition AF_INET : Z := 2.
Definition AF_INET6 : Z := 10.

(** [sizeof (sockaddr)], [sizeof (sockaddr_in)] and [sizeof (sockaddr_in6)],
    which is the size of the union. *)
Definition sizeof_sockaddr : Z := 16.
Definition sizeof_in : Z := 16.
Definition sizeof_in6 : Z := 28.

(** The bytes of the union: the family, the port in network order, and the
    IPv4 address at 4 or the flow label, the IPv6 address at 8 and the scope. *)
Abbreviation sockaddr := (list Z).

Definition sa_family (a : sockaddr) : Z := le_val (take 2 a).
Definition sin_port (a : sockaddr) : Z := nth 2 a 0 * 256 + nth 3 a 0.
Definition sin_addr (a : sockaddr) : list Z := take 4 (drop 4 a).
Definition sin6_addr (a : sockaddr) : list Z := take 16 (drop 8 a).

Inductive errno := EINVAL | ENODEV | ENOMEM.
Inductive rc := RC0 | RCErr (e : errno) | RCOther (n : Z).

(** What [getaddrinfo] gives: an error code, or the addresses. *)
Inductive addrinfo := EAI (code : Z) | Found (res : list sockaddr).
Definition EAI_MEMORY : Z := -10.
Definition AI_PASSIVE : Z := 1.
Definition AI_NUMERICHOST : Z := 4.

Section Resolver.
(** The resolver of the C library: the network interfaces, the lookup of a name
    for a family with flags, and the numeric form of an address. *)
Context (getifaddrs : list (cstr * option sockaddr)).
Context (getaddrinfo : cstr -> Z -> Z -> addrinfo).
Context (getnameinfo : sockaddr -> Z + cstr).

Definition new_tcp_address : sockaddr := replicate 28 0.

(** The constructor from a socket address of [sa_len] bytes. *)
Definition tcp_address_of (sa : option sockaddr) (sa_len : Z) : result sockaddr :=
  match sa with
  | None => Stop AssertFailed
  | Some sa =>
      _ ← afs_assert (0 <? sa_len);
      if (sa_family sa =? AF_INET) && (sizeof_in <=? sa_len) then
        b ← mem_read sa 0 sizeof_in; mem_write new_tcp_address 0 b
      else if (sa_family sa =? AF_INET6) && (sizeof_in6 <=? sa_len) then
        b ← mem_read sa 0 sizeof_in6; mem_write new_tcp_address 0 b
      else Ok new_tcp_address
  end.

(** The loop over the interfaces. *)
Fixpoint find_nic (nic_ : cstr) (ipv6_ : bool) (ifs : list (cstr * option sockaddr)) : option sockaddr :=
  match ifs with
  | [] => None
  | (_, None) :: ifs' => find_nic nic_ ipv6_ ifs'
  | (name, Some sa) :: ifs' =>
      if ((sa_family sa =? AF_INET) || (ipv6_ && (sa_family sa =? AF_INET6))) && bool_decide (nic_ = name)
      then Some sa else find_nic nic_ ipv6_ ifs'
  end.

Definition resolve_nic_name (a : sockaddr) (nic_ : cstr) (ipv6_ : bool) : result (sockaddr * rc) :=
  _ ← afs_assert (negb (bool_decide (getifaddrs = [])));
  match find_nic nic_ ipv6_ getifaddrs with
  | None => Ok (a, RCErr ENODEV)
  | Some sa =>
      b ← mem_read sa 0 (if sa_family sa =? AF_INET then sizeof_in else sizeof_in6);
      a' ← mem_write a 0 b;
      Ok (a', RC0)
  end.

(** [INADDR_ANY] and [in6addr_any]. *)
Definition any_address (ipv6_ : bool) : sockaddr :=
  if ipv6_ then le_bytes 2 AF_INET6 ++ replicate 26 0 else le_bytes 2 AF_INET ++ replicate 14 0.

Definition resolve_interface (a : sockaddr) (interface_ : cstr) (ipv6_ : bool) : result (sockaddr * rc) :=
  if bool_decide (interface_ = lit "*") then
    a' ← mem_write a 0 (any_address ipv6_); Ok (a', RC0)
  else
    '(a1, r) ← resolve_nic_name a interface_ ipv6_;
    match r : rc with
    | RC0 => Ok (a1, RC0)
    | RCErr ENODEV =>
        match getaddrinfo interface_ (if ipv6_ then AF_INET6 else AF_INET) (Z.lor AI_PASSIVE AI_NUMERICHOST) with
        | EAI _ => Ok (a1, RCErr ENODEV)
        | Found [] => Stop AssertFailed
        | Found (sa :: _) =>
            _ ← afs_assert (Z.of_nat (length sa) <=? sizeof_in6);
            a' ← mem_write a1 0 sa; Ok (a', RC0)
        end
    | _ => Ok (a1, r)
    end.

Definition resolve_hostname (a : sockaddr) (hostname_ : cstr) (ipv6_ : bool) : result (sockaddr * rc) :=
  match getaddrinfo hostname_ (if ipv6_ then AF_INET6 else AF_INET) 0 with
  | EAI code => Ok (a, RCErr (if code =? EAI_MEMORY then ENOMEM else EINVAL))
  | Found [] => Stop NullDeref
  | Found (sa :: _) =>
      _ ← afs_assert (Z.of_nat (length sa) <=? sizeof_in6);
      a' ← mem_write a 0 sa; Ok (a', RC0)
  end.

(** Square brackets around the address are removed. *)
Definition strip_brackets (s : cstr) : cstr :=
  if (2 <=? length s)%nat && bool_decide (head s = Some "["%char) && bool_decide (last s = Some "]"%char)
  then take (length s - 2) (drop 1 s) else s.

(** The port of [resolve]: [None] is rejected. *)
Definition parse_port (port_str : cstr) : option Z :=
  if bool_decide (port_str = lit "*") || bool_decide (port_str = lit "0") then Some 0
  else let port := u16 (atoi port_str) in if port =? 0 then None else Some port.

(** [sin_port] and [sin6_port] are the same bytes of the union. *)
Definition set_port (a : sockaddr) (port : Z) : result sockaddr := mem_write a 2 [port / 256; port mod 256].

Definition resolve (a : sockaddr) (name_ : cstr) (local_ ipv6_ : bool) : result (sockaddr * rc) :=
  match strrchr name_ ":"%char with
  | None => Ok (a, RCErr EINVAL)
  | Some (addr_str, port_str) =>
      match parse_port port_str with
      | None => Ok (a, RCErr EINVAL)
      | Some port =>
          '(a1, r) ← (if local_ then resolve_interface else resolve_hostname) a (strip_brackets addr_str) ipv6_;
          match r : rc with
          | RC0 => a2 ← set_port a1 port; Ok (a2, RC0)
          | _ => Ok (a1, r)
          end
      end
  end.

Definition addrlen (a : sockaddr) : Z := if sa_family a =? AF_INET6 then sizeof_in6 else sizeof_in.

Definition known_family (a : sockaddr) : bool := (sa_family a =? AF_INET) || (sa_family a =? AF_INET6).

(** [to_string]: the code and the string. *)
Definition to_string (a : sockaddr) : rc * cstr :=
  if negb (known_family a) then (RCOther (-1), [])
  else match getnameinfo (take (Z.to_nat (addrlen a)) a) with
  | inl code => (RCOther code, [])
  | inr hbuf =>
      (RC0, if sa_family a =? AF_INET6
            then lit "tcp://[" ++ hbuf ++ lit "]:" ++ decimal 5 (sin_port a)
            else lit "tcp://" ++ hbuf ++ lit ":" ++ decimal 5 (sin_port a))
  end.

(** ** Address masks *)

Record tcp_address_mask_t := mkmask { mask_addr : sockaddr; address_mask : Z }.

Definition new_tcp_address_mask : tcp_address_mask_t := mkmask new_tcp_address (-1).

(** The mask number after the address is resolved. *)
Definition parse_mask (a : sockaddr) (mask_str : cstr) : option Z :=
  if bool_decide (mask_str = []) then Some (if sa_family a =? AF_INET6 then 128 else 32)
  else if bool_decide (mask_str = lit "0") then Some 0
  else
    let mask := atoi mask_str in
    if (mask <? 1) || ((sa_family a =? AF_INET6) && (128 <? mask)) || (negb (sa_family a =? AF_INET6) && (32 <? mask))
    then None else Some mask.

Definition resolve_mask (m : tcp_address_mask_t) (name_ : cstr) (ipv6_ : bool) : result (tcp_address_mask_t * rc) :=
  let go addr_str mask_str :=
    '(a, r) ← resolve_hostname (mask_addr m) addr_str ipv6_;
    match r : rc with
    | RC0 => match parse_mask a mask_str with
             | None => Ok (mkmask a (address_mask m), RCErr EINVAL)
             | Some n => Ok (mkmask a n, RC0)
             end
    | _ => Ok (mkmask a (address_mask m), r)
    end in
  match strrchr name_ "/"%char with
  | Some (addr_str, mask_str) =>
      if bool_decide (mask_str = []) then Ok (m, RCErr EINVAL) else go addr_str mask_str
  | None => go name_ []
  end.

Definition to_string_mask (m : tcp_address_mask_t) : rc * cstr :=
  let a := mask_addr m in
  if negb (known_family a) then (RCOther (-1), [])
  else if address_mask m =? -1 then (RCOther (-1), [])
  else match getnameinfo (take (Z.to_nat (addrlen a)) a) with
  | inl code => (RCOther code, [])
  | inr hbuf =>
      (RC0, if sa_family a =? AF_INET6
            then lit "[" ++ hbuf ++ lit "]/" ++ decimal 3 (address_mask m)
            else hbuf ++ lit "/" ++ decimal 3 (address_mask m))
  end.

End Resolver.

(** The comparison of the first [mask] bits: whole bytes, then the high bits of
    one more byte. *)
Definition compare_bits (ours theirs : list Z) (mask : Z) : result bool :=
  let full_bytes := mask / 8 in
  o ← mem_read ours 0 full_bytes;
  t ← mem_read theirs 0 full_bytes;
  if negb (bool_decide (o = t)) then Ok false
  else
    let last_byte_bits := Z.land (Z.shiftl 255 (8 - mask mod 8)) 255 in
    if last_byte_bits =? 0 then Ok true
    else
      tb ← at_index theirs full_bytes;
      ob ← at_index ours full_bytes;
      Ok (Z.land tb last_byte_bits =? Z.land ob last_byte_bits).

(** [match_address (ss, ss_len)]: [ss] is the peer's address. *)
Definition match_address (m : tcp_address_mask_t) (ss : option sockaddr) (ss_len : Z) : result bool :=
  match ss with
  | None => Stop AssertFailed
  | Some ss =>
      _ ← afs_assert (negb (address_mask m =? -1) && (sizeof_sockaddr <=? ss_len));
      if negb (sa_family ss =? sa_family (mask_addr m)) then Ok false
      else if 0 <? address_mask m then
        if sa_family ss =? AF_INET6 then
          _ ← afs_assert (ss_len =? sizeof_in6);
          compare_bits (sin6_addr (mask_addr m)) (sin6_addr ss) (Z.min (address_mask m) 128)
        else
          _ ← afs_assert (ss_len =? sizeof_in);
          compare_bits (sin_addr (mask_addr m)) (sin_addr ss) (Z.min (address_mask m) 32)
      else Ok true
  end.

(** [address_t]: the protocol, the textual address and, once it is resolved,
    the socket address. *)
Record address_t := mkaddress { protocol : cstr; address : cstr; tcp_addr : option sockaddr }.

Definition to_string_address (getnameinfo : sockaddr -> Z + cstr) (a : address_t) : rc * cstr :=
  match (if bool_decide (protocol a = lit "tcp") then tcp_addr a else None) with
  | Some sa => to_string getnameinfo sa
  | None =>
      if negb (bool_decide (protocol a = [])) && negb (bool_decide (address a = []))
      then (RC0, protocol a ++ lit "://" ++ address a) else (RCOther (-1), [])
  end.

(** ** Endpoints of the network threads *)

(** [parse_uri (uri_, protocol_, address_)]: [None] for [EINVAL]. *)
Definition parse_uri (uri : cstr) : option (cstr * cstr) :=
  '(protocol_, address_) ← find_sub (lit "://") uri;
  if bool_decide (protocol_ = []) || bool_decide (address_ = []) then None else Some (protocol_, address_).

(** [check_protocol (protocol_)]. *)
Definition check_protocol (protocol_ : cstr) : bool := bool_decide (protocol_ = lit "tcp").

(** ** Address filters compare prefixes *)

(** Bit [i] of an address in network order: the high bit of the first byte comes
    first. *)
Definition addr_bit (l : list Z) (i : Z) : bool := Z.testbit (nth (Z.to_nat (i / 8)) l 0) (7 - i mod 8).

(** The bytes a filter compares, and how many bits there are. *)
Definition host_bytes (a : sockaddr) : list Z := if sa_family a =? AF_INET6 then sin6_addr a else sin_addr a.
Definition host_bits (a : sockaddr) : Z := if sa_family a =? AF_INET6 then 128 else 32.

(** The peer is in the network of the filter. *)
Definition in_network (m : tcp_address_mask_t) (ss : sockaddr) : Prop :=
  sa_family ss = sa_family (mask_addr m) /\
  forall i, 0 <= i < Z.min (address_mask m) (host_bits ss) ->
    addr_bit (host_bytes (mask_addr m)) i = addr_bit (host_bytes ss) i.

Lemma byte_high b j : is_byte b -> 8 <= j -> Z.testbit b j = false.
Proof.
  intros Hb Hj. destruct (decide (b = 0)) as [->|]; [apply Z.testbit_0_l|].
  apply Z.bits_above_log2; [apply Hb|]. apply (Z.lt_le_trans _ 8); [|done].
  apply Z.log2_lt_pow2; [unfold is_byte in Hb; lia | apply Hb].
Qed.

Lemma byte_ext a b : is_byte a -> is_byte b -> (forall j, 0 <= j < 8 -> Z.testbit a j = Z.testbit b j) -> a = b.
Proof.
  intros Ha Hb H. apply Z.bits_inj'. intros j Hj. destruct (decide (j < 8)).
  - apply H. lia.
  - by rewrite !byte_high by (done || lia).
Qed.

Lemma last_bits_spec r j : 0 <= r < 8 -> 0 <= j ->
  Z.testbit (Z.land (Z.shiftl 255 (8 - r)) 255) j = (8 - r <=? j) && (j <? 8).
Proof.
  intros Hr Hj. change 255 with (Z.ones 8). rewrite Z.land_spec, Z.shiftl_spec by lia.
  destruct (Z.leb_spec (8 - r) j), (Z.ltb_spec j 8); simpl.
  - rewrite !Z.ones_spec_low by lia. done.
  - rewrite (Z.ones_spec_high _ j) by lia. apply andb_false_r.
  - by rewrite Z.testbit_neg_r by lia.
  - by rewrite Z.testbit_neg_r by lia.
Qed.

Lemma land_last_bits a b r : 0 <= r < 8 ->
  Z.land a (Z.land (Z.shiftl 255 (8 - r)) 255) = Z.land b (Z.land (Z.shiftl 255 (8 - r)) 255) <->
  (forall j, 0 <= j < r -> Z.testbit a (7 - j) = Z.testbit b (7 - j)).
Proof.
  intros Hr. split.
  - intros H j Hj. apply (f_equal (fun x => Z.testbit x (7 - j))) in H.
    rewrite !(Z.land_spec _ (Z.land _ _)), !last_bits_spec in H by lia.
    rewrite (proj2 (Z.leb_le _ _)), (proj2 (Z.ltb_lt _ _)) in H by lia. by rewrite !andb_true_r in H.
  - intros H. apply Z.bits_inj'. intros j Hj. rewrite !(Z.land_spec _ (Z.land _ _)), !last_bits_spec by lia.
    destruct (Z.leb_spec (8 - r) j), (Z.ltb_spec j 8); simpl; rewrite ?andb_false_r; try done.
    rewrite !andb_true_r. specialize (H (7 - j)). replace (7 - (7 - j)) with j in H by lia. apply H. lia.
Qed.

Lemma last_bits_zero r : 0 <= r < 8 -> Z.land (Z.shiftl 255 (8 - r)) 255 = 0 <-> r = 0.
Proof.
  intros Hr. split; [|by intros ->]. intros H. destruct (decide (r = 0)) as [|Hne]; [done|].
  apply (f_equal (fun x => Z.testbit x 7)) in H.
  rewrite last_bits_spec, Z.testbit_0_l, (proj2 (Z.leb_le _ _)) in H by lia. done.
Qed.

(** Bit [8 k + j] is bit [7 - j] of byte [k]. *)
Lemma addr_bit_at l k j : 0 <= j < 8 -> addr_bit l (8 * Z.of_nat k + j) = Z.testbit (nth k l 0) (7 - j).
Proof.
  intros Hj. unfold addr_bit.
  replace ((8 * Z.of_nat k + j) / 8) with (Z.of_nat k) by (apply Z.div_unique with j; lia).
  replace ((8 * Z.of_nat k + j) mod 8) with j by (apply Z.mod_unique with (Z.of_nat k); lia).
  by rewrite Nat2Z.id.
Qed.

Lemma nth_byte l k : Forall is_byte l -> is_byte (nth k l 0).
Proof.
  intros H. destruct (decide (k < length l)%nat) as [Hk|Hk].
  - destruct (lookup_lt_is_Some_2 l k Hk) as [b Hb]. rewrite (nth_lookup_Some l k 0 b Hb).
    by apply (Forall_lookup_1 _ _ _ _ H Hb).
  - rewrite nth_overflow by lia. unfold is_byte. lia.
Qed.

(** Whole bytes agree when their bits do. *)
Lemma take_bits ours theirs k :
  Forall is_byte ours -> Forall is_byte theirs -> (k <= length ours)%nat -> (k <= length theirs)%nat ->
  take k ours = take k theirs <->
  (forall i, 0 <= i < 8 * Z.of_nat k -> addr_bit ours i = addr_bit theirs i).
Proof.
  intros Ho Ht Hlo Hlt. split.
  - intros E i Hi. unfold addr_bit.
    assert (Z.to_nat (i / 8) < k)%nat by (pose proof (Z.div_lt_upper_bound i 8 (Z.of_nat k)); pose proof (Z.div_pos i 8); lia).
    apply (f_equal (.!! Z.to_nat (i / 8))) in E. rewrite !lookup_take_lt in E by done.
    destruct (lookup_lt_is_Some_2 ours (Z.to_nat (i / 8))) as [b Hb]; [lia|].
    rewrite Hb in E. by rewrite (nth_lookup_Some _ _ _ _ Hb), (nth_lookup_Some _ _ _ _ (eq_sym E)).
  - intros H. apply list_eq_same_length with k; rewrite ?length_take; [lia..|].
    intros i a b Hi. rewrite !lookup_take_lt by done. intros Ha Hb.
    apply byte_ext; [by apply (Forall_lookup_1 _ _ _ _ Ho Ha) | by apply (Forall_lookup_1 _ _ _ _ Ht Hb)|].
    intros j Hj. specialize (H (8 * Z.of_nat i + (7 - j))). rewrite !addr_bit_at in H by lia.
    rewrite (nth_lookup_Some _ _ _ _ Ha), (nth_lookup_Some _ _ _ _ Hb) in H.
    replace (7 - (7 - j)) with j in H by lia. apply H. lia.
Qed.

(** [compare_bits] decides the equality of the first [mask] bits. *)
Lemma compare_bits_spec ours theirs mask :
  Forall is_byte ours -> Forall is_byte theirs -> length theirs = length ours ->
  0 <= mask <= 8 * Z.of_nat (length ours) ->
  exists b, compare_bits ours theirs mask = Ok b /\
    (b = true <-> forall i, 0 <= i < mask -> addr_bit ours i = addr_bit theirs i).
Proof.
  intros Ho Ht Hl Hm. pose proof (Z.div_mod mask 8). pose proof (Z.mod_pos_bound mask 8).
  set (k := mask / 8) in *. set (r := mask mod 8) in *. assert (0 <= k) by (apply Z.div_pos; lia).
  unfold compare_bits. fold k r. rewrite !mem_read_ok by lia. cbn [mbind result_bind]. rewrite !drop_0.
  pose proof (take_bits ours theirs (Z.to_nat k) Ho Ht ltac:(lia) ltac:(lia)) as Htake.
  assert (forall P : Z -> Prop, (forall i, 0 <= i < mask -> P i) <->
    (forall i, 0 <= i < 8 * Z.of_nat (Z.to_nat k) -> P i) /\ (forall j, 0 <= j < r -> P (8 * Z.of_nat (Z.to_nat k) + j))) as Hsplit.
  { intros P. split; [intros HP; split; intros; apply HP; lia|]. intros [HP1 HP2] i Hi.
    destruct (decide (i < 8 * Z.of_nat (Z.to_nat k))); [apply HP1; lia|].
    replace i with (8 * Z.of_nat (Z.to_nat k) + (i - 8 * k)) by lia. apply HP2. lia. }
  assert ((forall i, 0 <= i < mask -> addr_bit ours i = addr_bit theirs i) <->
    take (Z.to_nat k) ours = take (Z.to_nat k) theirs /\
    (forall j, 0 <= j < r -> addr_bit ours (8 * Z.of_nat (Z.to_nat k) + j) = addr_bit theirs (8 * Z.of_nat (Z.to_nat k) + j))) as Hall
    by (rewrite Htake; apply (Hsplit (fun i => addr_bit ours i = addr_bit theirs i))).
  setoid_rewrite Hall.
  case_bool_decide as Heq; simpl.
  2: { exists false. split; [done|]. split; [done|]. by intros [? _]. }
  destruct (Z.eqb_spec (Z.land (Z.shiftl 255 (8 - r)) 255) 0) as [Hz|Hz].
  - apply (proj1 (last_bits_zero r ltac:(lia))) in Hz. exists true. split; [done|]. split; [|done]. split; [done|]. intros; exfalso; lia.
  - assert (r <> 0) by (intros E; by apply Hz, (last_bits_zero r ltac:(lia))).
    destruct (at_index_total theirs k) as [tb Htb]; [lia|]. destruct (at_index_total ours k) as [ob Hob]; [lia|].
    rewrite Htb, Hob. cbn [mbind result_bind]. eexists. split; [done|]. rewrite Z.eqb_eq, land_last_bits by lia.
    apply at_index_ok in Htb as [_ Htb], Hob as [_ Hob]. split.
    + intros Hb. split; [done|]. intros j Hj. rewrite !addr_bit_at by lia.
      rewrite (nth_lookup_Some _ _ _ _ Htb), (nth_lookup_Some _ _ _ _ Hob). symmetry. by apply Hb.
    + intros [_ Hb] j Hj. specialize (Hb j Hj). rewrite !addr_bit_at in Hb by lia.
      rewrite (nth_lookup_Some _ _ _ _ Htb), (nth_lookup_Some _ _ _ _ Hob) in Hb. by symmetry.
Qed.

(** [match_address] decides membership in the network. *)
Lemma match_address_spec m ss ss_len :
  length (mask_addr m) = 28%nat -> Forall is_byte (mask_addr m) -> 0 <= address_mask m ->
  Forall is_byte ss -> ss_len = addrlen ss -> ss_len <= Z.of_nat (length ss) ->
  exists b, match_address m (Some ss) ss_len = Ok b /\ (b = true <-> in_network m ss).
Proof.
  intros Hlen Hm Hmask Hss -> Hl. unfold match_address, in_network, addrlen, host_bytes, host_bits in *.
  rewrite (proj2 (Z.eqb_neq (address_mask m) (-1))) by lia.
  replace (sizeof_sockaddr <=? _) with true by (by destruct (sa_family ss =? AF_INET6)). cbn [mbind result_bind afs_assert andb negb].
  destruct (Z.eqb_spec (sa_family ss) (sa_family (mask_addr m))) as [Hf|Hf]; simpl.
  2: { exists false. split; [done|]. split; [done|]. by intros [? _]. }
  destruct (Z.ltb_spec 0 (address_mask m)) as [Hpos|Hpos].
  2: { exists true. split; [done|]. split; [|done]. split; [done|]. intros; exfalso; lia. }
  rewrite <- Hf. destruct (sa_family ss =? AF_INET6); simpl in *.
  - destruct (compare_bits_spec (sin6_addr (mask_addr m)) (sin6_addr ss) (Z.min (address_mask m) 128)) as (b & Hb & Hiff).
    1,2: by apply Forall_take, Forall_drop.
    1,2: unfold sin6_addr, sizeof_in6 in *; rewrite ?length_take, ?length_drop; lia.
    exists b. split; [done|]. rewrite Hiff. intuition.
  - destruct (compare_bits_spec (sin_addr (mask_addr m)) (sin_addr ss) (Z.min (address_mask m) 32)) as (b & Hb & Hiff).
    1,2: by apply Forall_take, Forall_drop.
    1,2: unfold sin_addr, sizeof_in in *; rewrite ?length_take, ?length_drop; lia.
    exists b. split; [done|]. rewrite Hiff. intuition.
Qed.

(** C33 A filter accepts exactly the addresses of its network: [match_address],
    with its byte comparison and its bit mask, decides that the family is the
    filter's and that the first [address_mask] bits of the address are the
    filter's; it never reads past the address. *)
Theorem match_address_prefix m ss ss_len :
  length (mask_addr m) = 28%nat -> Forall is_byte (mask_addr m) -> 0 <= address_mask m ->
  Forall is_byte ss -> ss_len = addrlen ss -> ss_len <= Z.of_nat (length ss) ->
  exists b, match_address m (Some ss) ss_len = Ok b /\ (b = true <-> in_network m ss).
Proof. apply match_address_spec. Qed.

(** ** Text and addresses *)

Lemma strrchr_None s c : c ∉ s -> strrchr s c = None.
Proof.
  induction s as [|x s IH]; intros H; [done|]. apply not_elem_of_cons in H as [Hx Hs].
  simpl. rewrite IH by done. rewrite bool_decide_false; [done | congruence].
Qed.

(** The last delimiter is the one before a text without it. *)
Lemma strrchr_app s c t : c ∉ t -> strrchr (s ++ c :: t) c = Some (s, t).
Proof.
  intros H. induction s as [|x s IH]; simpl; [|by rewrite IH].
  by rewrite strrchr_None, bool_decide_true.
Qed.

Lemma digit_value_digit d : 0 <= d < 10 -> digit_value (digit d) = Some d.
Proof.
  intros H.
  assert (d = 0 \/ d = 1 \/ d = 2 \/ d = 3 \/ d = 4 \/ d = 5 \/ d = 6 \/ d = 7 \/ d = 8 \/ d = 9) as Hd by lia.
  by repeat destruct Hd as [->|Hd]; try subst d.
Qed.

(** A decimal digit. *)
Definition is_digit (c : ascii) : Prop := is_Some (digit_value c).

Lemma decimal_digits f n : 0 <= n -> Forall is_digit (decimal f n).
Proof.
  revert n. induction f as [|f IH]; intros n Hn; simpl; [constructor|].
  destruct (Z.ltb_spec n 10).
  - repeat constructor. unfold is_digit. rewrite digit_value_digit by lia. done.
  - apply Forall_app. split; [apply IH, Z.div_pos; lia|]. repeat constructor. unfold is_digit.
    rewrite digit_value_digit; [done|]. apply Z.mod_pos_bound. lia.
Qed.

Lemma strtol_digits_snoc acc l d :
  Forall is_digit l -> 0 <= d < 10 -> strtol_digits acc (l ++ [digit d]) = strtol_digits acc l * 10 + d.
Proof.
  intros Hl Hd. revert acc. induction Hl as [|c l [v Hv] _ IH]; intros acc; simpl.
  - by rewrite digit_value_digit.
  - by rewrite Hv.
Qed.

Lemma strtol_decimal f n : 0 <= n < 10 ^ Z.of_nat f -> strtol_digits 0 (decimal f n) = n.
Proof.
  revert n. induction f as [|f IH]; intros n Hn; [simpl in *; lia|]. cbn [decimal].
  destruct (Z.ltb_spec n 10); [simpl; rewrite digit_value_digit by lia; lia|].
  pose proof (Z.mod_pos_bound n 10). rewrite strtol_digits_snoc by (lia || apply decimal_digits, Z.div_pos; lia).
  rewrite Nat2Z.inj_succ, Z.pow_succ_r in Hn by lia.
  rewrite IH; [pose proof (Z.div_mod n 10); lia|]. split; [apply Z.div_pos; lia | apply Z.div_lt_upper_bound; lia].
Qed.

Lemma digit_not_blank c : is_digit c -> is_space c = false /\ c <> "-"%char /\ c <> "+"%char /\ c <> "*"%char.
Proof.
  unfold is_digit, digit_value, is_space. intros [v Hv]. test_cases; try done; try lia.
  repeat split; by intros ->.
Qed.

Lemma decimal_cons f n : exists c l, decimal (S f) n = c :: l.
Proof.
  destruct (n <? 10) eqn:E; cbn [decimal]; rewrite E; [by eauto|].
  destruct (decimal f (n / 10)); simpl; by eauto.
Qed.

Lemma atoi_decimal f n : 0 <= n < 10 ^ Z.of_nat (S f) -> n < 2 ^ 31 -> atoi (decimal (S f) n) = n.
Proof.
  intros Hn H31. destruct (decimal_cons f n) as (c & l & E).
  pose proof (decimal_digits (S f) n ltac:(lia)) as Hd. pose proof (strtol_decimal (S f) n Hn) as Hv.
  rewrite E in *. apply Forall_cons in Hd as [Hc _]. destruct (digit_not_blank c Hc) as (Hs & Hm & Hp & _).
  unfold atoi. cbn [skip_spaces]. rewrite Hs, !bool_decide_false by done. rewrite Hv.
  rewrite (signed_of_small 32); [lia|lia|]. unfold in_signed. lia.
Qed.

(** The port [to_string] writes is the port [resolve] reads. *)
Lemma parse_port_decimal n : 0 <= n < 65536 -> parse_port (decimal 5 n) = Some n.
Proof.
  intros Hn. destruct (decide (n = 0)) as [->|Hne]; [done|]. unfold parse_port.
  destruct (decimal_cons 4 n) as (c & l & E). pose proof (decimal_digits 5 n ltac:(lia)) as Hd.
  assert (decimal 5 n <> lit "*") as Hstar.
  { rewrite E in *. intros [= -> ->]. apply Forall_cons in Hd as [Hc _]. by apply digit_not_blank in Hc as (_ & _ & _ & ?). }
  assert (decimal 5 n <> lit "0") as Hzero.
  { intros E0. pose proof (strtol_decimal 5 n ltac:(lia)) as Hv. rewrite E0 in Hv. by vm_compute in Hv. }
  rewrite !bool_decide_false by done. simpl orb. rewrite atoi_decimal by lia.
  rewrite unsigned_of_small by (unfold in_unsigned; lia). by rewrite (proj2 (Z.eqb_neq n 0)).
Qed.

(** The address with its port cleared. *)
Definition no_port (a : sockaddr) : sockaddr := take 2 a ++ [0; 0] ++ drop 4 a.

Lemma sin_port_take n a : (4 <= n)%nat -> sin_port (take n a) = sin_port a.
Proof. intros H. do 4 (destruct n as [|n]; [lia|]). by do 4 (destruct a as [|? a]; [done|]). Qed.

Lemma no_port_parts sa : (4 <= length sa)%nat ->
  take 2 (no_port sa) = take 2 sa /\ drop 4 (no_port sa) = drop 4 sa /\ length (no_port sa) = length sa.
Proof. intros H. by do 4 (destruct sa as [|? sa]; simpl in H; [lia|]). Qed.

(** What the C library documents of numeric hosts: [getaddrinfo] of the text
    [getnameinfo] gives with [NI_NUMERICHOST] finds the address again, without a
    port; the text of an IPv4 address does not start with a bracket. *)
Definition numeric_hosts (getaddrinfo : cstr -> Z -> Z -> addrinfo) (getnameinfo : sockaddr -> Z + cstr) : Prop :=
  forall sa host, getnameinfo sa = inr host ->
    (exists rest, getaddrinfo host (sa_family sa) 0 = Found (no_port sa :: rest)) /\
    (sa_family sa = AF_INET -> head host <> Some "["%char).

Lemma parse_uri_tcp x : x <> [] -> parse_uri (lit "tcp://" ++ x) = Some (lit "tcp", x).
Proof.
  intros Hx. change (parse_uri (lit "tcp://" ++ x)) with
    (if bool_decide (lit "tcp" = []) || bool_decide (x = []) then None else Some (lit "tcp", x)).
  by rewrite !bool_decide_false.
Qed.

Lemma strip_brackets_in h : strip_brackets (lit "[" ++ h ++ lit "]") = h.
Proof.
  unfold strip_brackets.
  rewrite (bool_decide_true (head _ = _)) by done.
  rewrite (bool_decide_true (last _ = _)) by (rewrite app_assoc; apply last_snoc).
  rewrite (proj2 (Nat.leb_le _ _)) by (rewrite !length_app; simpl; lia). simpl.
  rewrite length_app. simpl. replace (length h + 1 - 1)%nat with (length h) by lia. apply take_app_length.
Qed.

Lemma strip_brackets_out h : head h <> Some "["%char -> strip_brackets h = h.
Proof. intros Hh. unfold strip_brackets. rewrite (bool_decide_false (head h = _)) by done. by rewrite andb_false_r. Qed.

Lemma colon_not_decimal f n : 0 <= n -> ":"%char ∉ decimal f n.
Proof.
  intros Hn Hin. pose proof (decimal_digits f n Hn) as Hd. rewrite Forall_forall in Hd.
  destruct (Hd _ Hin) as [v Hv]. by vm_compute in Hv.
Qed.

(** [resolve] of a host and a printed port. *)
Lemma resolve_host getifaddrs getaddrinfo a0 text host port (ipv6_ : bool) sa rest :
  length a0 = 28%nat -> (4 <= length sa <= 28)%nat -> strip_brackets text = host -> 0 <= port < 65536 ->
  getaddrinfo host (if ipv6_ then AF_INET6 else AF_INET) 0 = Found (sa :: rest) ->
  resolve getifaddrs getaddrinfo a0 (text ++ lit ":" ++ decimal 5 port) false ipv6_ =
    Ok (take 2 sa ++ [port / 256; port mod 256] ++ drop 4 sa ++ drop (length sa) a0, RC0).
Proof.
  intros Ha0 Hsa Htext Hp Hgai. unfold resolve.
  change (lit ":" ++ decimal 5 port) with (":"%char :: decimal 5 port). rewrite strrchr_app by (apply colon_not_decimal; lia).
  rewrite parse_port_decimal by done. unfold resolve_hostname. rewrite Htext, Hgai.
  rewrite (proj2 (Z.leb_le _ _)) by (unfold sizeof_in6; lia). cbn [mbind result_bind afs_assert].
  rewrite mem_write_ok by lia. cbn [mbind result_bind]. simpl Z.to_nat. rewrite take_0. simpl app.
  unfold set_port. rewrite mem_write_ok; [|lia|rewrite length_app, length_drop; simpl; lia]. cbn [mbind result_bind].
  change (Z.to_nat 2) with 2%nat. simpl length. rewrite take_app_le, drop_app_le by lia. done.
Qed.

Lemma port_bytes a : Forall is_byte a -> (4 <= length a)%nat ->
  0 <= sin_port a < 65536 /\ take 2 a ++ [sin_port a / 256; sin_port a mod 256] ++ drop 4 a = a.
Proof.
  intros Ha Hl. do 4 (destruct a as [|? a]; simpl in Hl; [lia|]).
  apply Forall_cons in Ha as [_ Ha]. apply Forall_cons in Ha as [_ Ha].
  apply Forall_cons in Ha as [H2 Ha]. apply Forall_cons in Ha as [H3 _]. unfold is_byte in *.
  unfold sin_port. simpl. split; [lia|]. rewrite Z.div_add_l, Z.div_small, Z.add_0_r by lia.
  rewrite Z.add_comm, Z.mod_add, Z.mod_small by lia. by rewrite drop_0.
Qed.


(** A resolver that knows one IPv4 and one IPv6 host. *)
Definition v4_host : sockaddr := [2; 0; 0; 0; 10; 1; 2; 3; 0; 0; 0; 0; 0; 0; 0; 0].
Definition v6_host : sockaddr :=
  [10; 0; 0; 0; 0; 0; 0; 0; 0; 0; 0; 0; 0; 0; 0; 0; 0; 0; 0; 0; 0; 0; 0; 1; 0; 0; 0; 0].

Definition sample_getnameinfo (sa : sockaddr) : Z + cstr :=
  if bool_decide (no_port sa = v4_host) then inr (lit "10.1.2.3")
  else if bool_decide (no_port sa = v6_host) then inr (lit "::1") else inl (-2).

Definition sample_getaddrinfo (host : cstr) (family flags : Z) : addrinfo :=
  if bool_decide (host = lit "10.1.2.3") && (family =? AF_INET) then Found [v4_host]
  else if bool_decide (host = lit "::1") && (family =? AF_INET6) then Found [v6_host] else EAI (-2).

Lemma family_no_port sa : (4 <= length (no_port sa))%nat -> sa_family (no_port sa) = sa_family sa.
Proof. unfold no_port, sa_family. intros H. destruct sa as [|? [|? sa]]; [done|simpl in *; lia|done]. Qed.

Lemma sample_numeric_hosts : numeric_hosts sample_getaddrinfo sample_getnameinfo.
Proof.
  intros sa host. unfold sample_getnameinfo. intros H.
  repeat case_bool_decide; try done; injection H as <-.
  - rewrite <- (family_no_port sa) by (match goal with E : no_port sa = _ |- _ => rewrite E end; simpl; lia).
    match goal with E : no_port sa = _ |- _ => rewrite E end. split; [by exists []|done].
  - rewrite <- (family_no_port sa) by (match goal with E : no_port sa = _ |- _ => rewrite E end; simpl; lia).
    match goal with E : no_port sa = _ |- _ => rewrite E end. split; [by exists []|done].
Qed.

Definition sample_v6 : sockaddr :=
  [10; 0; 31; 144; 0; 0; 0; 0; 0; 0; 0; 0; 0; 0; 0; 0; 0; 0; 0; 0; 0; 0; 0; 1; 0; 0; 0; 0].


(** The filter [10.2.0.0/15]. *)
Definition sample_mask : tcp_address_mask_t := mkmask ([2; 0; 0; 0; 10; 2; 0; 0] ++ replicate 20 0) 15.
Definition sample_peer : sockaddr := [2; 0; 31; 144; 10; 3; 200; 7; 0; 0; 0; 0; 0; 0; 0; 0].

Lemma match_address_prefix_witness :
  match_address sample_mask (Some sample_peer) 16 = Ok true /\
  exists b, match_address sample_mask (Some sample_peer) 16 = Ok b /\ (b = true <-> in_network sample_mask sample_peer).
Proof.
  split; [vm_compute; reflexivity|].
  apply match_address_prefix; [reflexivity| |vm_compute; discriminate| |reflexivity|vm_compute; discriminate];
    repeat constructor; unfold is_byte; lia.
Defined.

(** A port above 65535 is taken modulo 65536, and text after the number is
    ignored. *)
Lemma port_number_wraps : parse_port (lit "65616") = Some 80 /\ parse_port (lit "80x") = Some 80 /\ parse_port (lit "65536") = None.
Proof. repeat split; vm_compute; reflexivity. Qed.

End Addr.
