(* ===== verification/Config.v ===== *)
(** The configuration of a worker ([src/config.cpp], [src/config.hpp]): the
    section of the ini file that is named after the worker, behind one global
    object.  The object's memory is uninitialised when the constructor starts,
    so it is an argument; character arrays are lists of characters of their
    size and C strings end at the first zero in them.  The ini parser is a
    library and a parameter. *)
From Stdlib Require Import Ascii String ZArith Lia.
From stdpp Require Import base list.
From S2P Require Import Prelude TcpAddress.

Module Config.
Import Addr.

Definition MAX_LINE_SIZE : Z := 1024.

(** ** Strings in character arrays *)

Definition NUL : ascii := "000".

(** The string an array starts with; without a zero it is read past its end. *)
Fixpoint c_str (m : list ascii) : result cstr :=
  match m with
  | [] => Stop OutOfBounds
  | c :: m' => if bool_decide (c = NUL) then Ok [] else s ← c_str m'; Ok (c :: s)
  end.

Definition strlen (m : list ascii) : result Z := s ← c_str m; Ok (Z.of_nat (length s)).

Definition strcpy (dst : list ascii) (src : cstr) : result (list ascii) := mem_write dst 0 (src ++ [NUL]).

Definition strcat (dst : list ascii) (src : cstr) : result (list ascii) :=
  n ← strlen dst; mem_write dst n (src ++ [NUL]).

(** [strconcat]; [l] is its static buffer of [MAX_LINE_SIZE + 1] characters. *)
Definition strconcat (l : list ascii) (a b : option cstr) : result (option cstr * list ascii) :=
  match a, b with
  | None, _ => Ok (b, l)
  | Some _, None => Ok (None, l)
  | Some a, Some b =>
      l1 ← strcpy l a;
      l2 ← strcat l1 b;
      s ← c_str l2;
      Ok (Some s, l2)
  end.

(** [strtoull (s, NULL, 10)]. *)
Definition strtoull (s : cstr) : Z :=
  let sat v := Z.min v (2 ^ 64 - 1) in
  match skip_spaces s with
  | [] => 0
  | c :: s' =>
      if bool_decide (c = "-"%char) then
        let v := strtol_digits 0 s' in if 2 ^ 64 - 1 <? v then 2 ^ 64 - 1 else u64 (- v)
      else if bool_decide (c = "+"%char) then sat (strtol_digits 0 s')
      else sat (strtol_digits 0 (c :: s'))
  end.

(** ** The object *)

Section Object.
Context {dictionary double : Type}.
Context (iniparser_load : cstr -> option dictionary).
Context (iniparser_getstring : option dictionary -> option cstr -> option cstr -> option cstr).
Context (iniparser_getint : option dictionary -> option cstr -> Z -> Z).
Context (iniparser_getdouble : option dictionary -> option cstr -> double -> double).
Context (iniparser_getboolean : option dictionary -> option cstr -> Z -> Z).

(** [dict_] is [None] while nothing was stored in it and [Some None] when it is
    the null pointer. *)
Record Config := mkConfig { dict_ : option (option dictionary); section_name_ : list ascii }.

(** The constructor, on the memory [mem] of [section_name_]. *)
Definition new_Config (mem : list ascii) (ininame : option cstr) (section_name : cstr) : result Config :=
  match ininame with
  | None => Ok (mkConfig None mem)
  | Some f =>
      match iniparser_load f with
      | None => Ok (mkConfig (Some None) mem)
      | Some d =>
          if MAX_LINE_SIZE <? Z.of_nat (length section_name) + 2 then Ok (mkConfig (Some (Some d)) mem)
          else
            m1 ← strcpy mem section_name;
            n1 ← strlen m1;
            m2 ← set_index m1 n1 ":"%char;
            n2 ← strlen m2;
            m3 ← set_index m2 (n2 + 1) NUL;
            Ok (mkConfig (Some (Some d)) m3)
      end
  end.

(** [getInstance]: the arguments of the first call count. *)
Definition getInstance (instance_ : option Config) (mem : list ascii) (ininame : option cstr) (section_name : cstr)
    : result Config :=
  match instance_ with
  | Some c => Ok c
  | None => new_Config mem ininame section_name
  end.

(** The dictionary and the key [strconcat (section_name_, key)] of a query; the
    callers' keys are never null.  [l] is the buffer of [strconcat]. *)
Definition query (l : list ascii) (c : Config) (key : cstr)
    : result (option dictionary * option cstr * list ascii) :=
  section ← c_str (section_name_ c);
  '(k, l') ← strconcat l (Some section) (Some key);
  match dict_ c with
  | None => Stop Uninitialised
  | Some d => Ok (d, k, l')
  end.

Definition getstring (l : list ascii) (c : Config) (key : cstr) (def : option cstr) : result (option cstr * list ascii) :=
  '(d, k, l') ← query l c key; Ok (iniparser_getstring d k def, l').

Definition getint (l : list ascii) (c : Config) (key : cstr) (notfound : Z) : result (Z * list ascii) :=
  '(d, k, l') ← query l c key; Ok (iniparser_getint d k notfound, l').

Definition get_ull (l : list ascii) (c : Config) (key : cstr) (notfound : Z) : result (Z * list ascii) :=
  '(d, k, l') ← query l c key;
  Ok (match iniparser_getstring d k None with None => notfound | Some str => strtoull str end, l').

Definition getdouble (l : list ascii) (c : Config) (key : cstr) (notfound : double) : result (double * list ascii) :=
  '(d, k, l') ← query l c key; Ok (iniparser_getdouble d k notfound, l').

Definition getboolean (l : list ascii) (c : Config) (key : cstr) (notfound : Z) : result (Z * list ascii) :=
  '(d, k, l') ← query l c key; Ok (iniparser_getboolean d k notfound, l').

Definition get_section_name (c : Config) : list ascii := section_name_ c.

(** ** Strings *)

Lemma c_str_spec m s : c_str m = Ok s <-> (NUL ∉ s) /\ exists r, m = s ++ NUL :: r.
Proof.
  revert s. induction m as [|c m IH]; intros s; simpl.
  { split; [done|]. intros [_ [r Hr]]. by destruct s. }
  case_bool_decide as Hc.
  - split.
    + intros [= <-]. split; [apply not_elem_of_nil|]. exists m. by rewrite Hc.
    + intros [Hs [r Hr]]. destruct s as [|x s]; [done|]. simpl in Hr. injection Hr as -> _.
      destruct Hs. rewrite Hc. apply list_elem_of_here.
  - split.
    + intros H. destruct (c_str m) as [s'|] eqn:E; [|done]. simpl in H. injection H as <-.
      destruct (proj1 (IH s') eq_refl) as [Hn [r ->]]. split; [by rewrite not_elem_of_cons|by exists r].
    + intros [Hs [r Hr]]. destruct s as [|x s]; [simpl in Hr; congruence|]. simpl in Hr. injection Hr as -> ->.
      apply not_elem_of_cons in Hs as [_ Hs]. rewrite (proj2 (IH s)) by (split; [done|by exists r]). done.
Qed.

Lemma c_str_app s r : NUL ∉ s -> c_str (s ++ NUL :: r) = Ok s.
Proof. intros. apply c_str_spec. split; [done|by exists r]. Qed.

Lemma c_str_nul r : c_str (NUL :: r) = Ok [].
Proof. apply (c_str_app []). apply not_elem_of_nil. Qed.

Lemma strlen_app s r : NUL ∉ s -> strlen (s ++ NUL :: r) = Ok (Z.of_nat (length s)).
Proof. intros. unfold strlen. by rewrite c_str_app. Qed.

(** A string fits in an array together with its zero. *)
Lemma mem_write_fits {A} (dst : list A) src :
  (length src <= length dst)%nat -> mem_write dst 0 src = Ok (src ++ drop (length src) dst).
Proof. intros. rewrite mem_write_ok by lia. done. Qed.

Lemma strcpy_fits dst s :
  (length s < length dst)%nat -> strcpy dst s = Ok (s ++ NUL :: drop (S (length s)) dst).
Proof.
  intros. unfold strcpy. rewrite mem_write_fits by (rewrite length_app; simpl; lia).
  rewrite <- app_assoc. simpl. do 4 f_equal. rewrite length_app. simpl. lia.
Qed.

Lemma strcat_spec a r b :
  NUL ∉ a ->
  strcat (a ++ NUL :: r) b =
    if bool_decide (length b <= length r)%nat then Ok ((a ++ b) ++ NUL :: drop (length b) r) else Stop OutOfBounds.
Proof.
  intros Ha. unfold strcat. rewrite strlen_app by done. cbn [mbind result_bind]. case_bool_decide as Hb.
  - rewrite (mem_write_snoc a) by (rewrite ?length_app; simpl; lia). rewrite <- !app_assoc. simpl.
    do 4 f_equal. rewrite length_app. simpl. by rewrite Nat.add_1_r.
  - unfold mem_write. rewrite (proj2 (Z.leb_le 0 _)) by lia. rewrite (proj2 (Z.leb_gt _ _)); [done|].
    rewrite !length_app. simpl. lia.
Qed.

(** [strconcat] joins two strings that fit in its buffer and overruns it
    otherwise. *)
Lemma strconcat_spec l a b :
  length l = 1025%nat -> NUL ∉ a -> NUL ∉ b ->
  strconcat l (Some a) (Some b) =
    if bool_decide (length (a ++ b) <= 1024)%nat
    then Ok (Some (a ++ b), (a ++ b) ++ NUL :: drop (S (length (a ++ b))) l) else Stop OutOfBounds.
Proof.
  intros Hl Ha Hb. unfold strconcat. rewrite length_app. destruct (decide (length a <= 1024)%nat) as [La|La].
  - rewrite strcpy_fits by lia. cbn [mbind result_bind]. rewrite strcat_spec by done. rewrite length_drop.
    rewrite (bool_decide_ext (length b <= length l - S (length a)) (length a + length b <= 1024))%nat by lia.
    case_bool_decide as Hab; [|done]. cbn [mbind result_bind].
    rewrite c_str_app by (by rewrite not_elem_of_app). cbn [mbind result_bind]. rewrite drop_drop. done.
  - rewrite (bool_decide_false (_ + _ <= _)%nat) by lia.
    unfold strcpy, mem_write. rewrite (proj2 (Z.leb_gt _ (Z.of_nat (length l)))); [done|]. rewrite length_app. simpl. lia.
Qed.

(** ** The section name *)

(** What the constructor leaves in the array, when it does not overrun it. *)
Lemma section_name_run mem f d sec :
  length mem = 1024%nat -> iniparser_load f = Some d -> NUL ∉ sec -> (length sec <= 1022)%nat ->
  new_Config mem (Some f) sec =
    (n2 ← strlen (sec ++ ":"%char :: drop (S (length sec)) mem);
     m3 ← set_index (sec ++ ":"%char :: drop (S (length sec)) mem) (n2 + 1) NUL;
     Ok (mkConfig (Some (Some d)) m3)).
Proof.
  intros Hm Hd Hs Hl. unfold new_Config. rewrite Hd, (proj2 (Z.ltb_ge _ _)) by (unfold MAX_LINE_SIZE; lia).
  rewrite strcpy_fits by lia. cbn [mbind result_bind]. rewrite strlen_app by done.
  cbn [mbind result_bind]. rewrite set_index_ok by (rewrite length_app; simpl; lia).
  cbn [mbind result_bind]. rewrite Nat2Z.id, insert_app_r_alt by lia. by rewrite Nat.sub_diag.
Qed.

(** Storing a character behind the end of a string does not change it. *)
Lemma c_str_insert_after m s n c :
  c_str m = Ok s -> (length s < n)%nat -> c_str (<[n := c]> m) = Ok s.
Proof.
  intros H Hn. apply c_str_spec in H as [Hs [r ->]]. rewrite insert_app_r_alt by lia.
  destruct (n - length s)%nat as [|k] eqn:E; [lia|]. simpl. by apply c_str_app.
Qed.

(** The string that starts with the section name and a colon goes on up to the
    next zero of the old memory. *)
Lemma c_str_colon sec r :
  NUL ∉ sec -> c_str (sec ++ ":"%char :: r) = (s ← c_str r; Ok (sec ++ ":"%char :: s)).
Proof.
  intros Hs. destruct (c_str r) as [s|e] eqn:E; cbn [mbind result_bind].
  - apply c_str_spec in E as [Hn [t ->]]. apply c_str_spec. split.
    + rewrite not_elem_of_app, not_elem_of_cons. done.
    + exists t. by rewrite <- app_assoc.
  - assert (He : forall m, c_str r = Stop e -> NUL ∉ m -> c_str (m ++ r) = Stop e).
    { intros m Hr Hm. induction m as [|x m IH]; [done|]. apply not_elem_of_cons in Hm as [Hx Hm]. simpl.
      rewrite bool_decide_false by done. by rewrite IH. }
    apply (He (sec ++ [":"%char])) in E; [by rewrite <- app_assoc in E|].
    rewrite not_elem_of_app, list_elem_of_singleton. done.
Qed.

(** The constructor stores the name of its section exactly when the byte after
    the colon was zero before and there is room for two more bytes. *)
Lemma section_name_iff mem f d sec :
  length mem = 1024%nat -> iniparser_load f = Some d -> NUL ∉ sec ->
  (exists c, new_Config mem (Some f) sec = Ok c /\ dict_ c = Some (Some d) /\
     c_str (section_name_ c) = Ok (sec ++ [":"%char])) <->
  (length sec + 2 < 1024)%nat /\ mem !! S (length sec) = Some NUL.
Proof.
  intros Hm Hd Hs. destruct (decide (length sec <= 1022)%nat) as [Hl|Hl].
  - rewrite (section_name_run mem f d sec) by done. unfold strlen. rewrite c_str_colon by done.
    assert (Hnext : drop (S (length sec)) mem <> []) by (intros E; apply (f_equal length) in E; rewrite length_drop in E; simpl in E; lia).
    destruct (drop (S (length sec)) mem) as [|x r] eqn:Hdrop; [done|].
    assert (Hx : mem !! S (length sec) = Some x) by (rewrite <- (Nat.add_0_r (S _)), <- lookup_drop, Hdrop; done).
    assert (Hr : (length sec + 2 + length r = 1024)%nat)
      by (apply (f_equal length) in Hdrop; rewrite length_drop in Hdrop; simpl in Hdrop; lia).
    rewrite Hx. destruct (c_str (x :: r)) as [s|e] eqn:Hc; cbn [mbind result_bind].
    2:{ split; [by intros (c & ? & _)|]. intros [_ [= ->]]. by rewrite c_str_nul in Hc. }
    rewrite length_app. simpl length. set (m2 := sec ++ ":"%char :: x :: r).
    assert (Hm2 : c_str m2 = Ok (sec ++ ":"%char :: s)) by (unfold m2; rewrite c_str_colon, Hc by done; done).
    assert (Hlen : length m2 = 1024%nat) by (unfold m2; rewrite length_app; simpl; lia).
    split.
    + intros (c & Hrun & _ & Hsec). unfold set_index in Hrun. case_match eqn:Hb; [|done]. cbn [mbind result_bind] in Hrun. injection Hrun as <-.
      cbn [section_name_] in Hsec. rewrite (c_str_insert_after m2 _ _ _ Hm2) in Hsec by (rewrite length_app; simpl; lia).
      injection Hsec as Hsec. apply app_inv_head in Hsec. injection Hsec as ->.
      apply c_str_spec in Hc as [_ [t Ht]]. injection Ht as -> ->. simpl in *. split; [|done].
      apply andb_true_iff in Hb as [_ Hb]. apply Z.ltb_lt in Hb. rewrite Hlen in Hb. lia.
    + intros [Hroom [= ->]]. rewrite c_str_nul in Hc. injection Hc as <-.
      rewrite set_index_ok by (simpl; lia). cbn [mbind result_bind]. eexists. split_and!; [done|done|]. simpl.
      apply c_str_insert_after; [done|]. rewrite length_app. simpl. lia.
  - split; [|lia]. intros (c & Hrun & _ & Hsec). exfalso. unfold new_Config in Hrun.
    rewrite Hd, (proj2 (Z.ltb_lt _ _)) in Hrun by (unfold MAX_LINE_SIZE; lia). injection Hrun as <-. simpl in Hsec.
    apply c_str_spec in Hsec as [_ [r Hr]]. apply (f_equal length) in Hr. rewrite !length_app in Hr. simpl in Hr. lia.
Qed.

(** A query is for [section:key], as long as that fits in the buffer of
    [strconcat]. *)
Lemma query_spec l c d sec key :
  length l = 1025%nat -> dict_ c = Some (Some d) -> c_str (section_name_ c) = Ok (sec ++ [":"%char]) ->
  NUL ∉ sec -> NUL ∉ key ->
  if bool_decide (length sec + 1 + length key <= 1024)%nat
  then exists l', length l' = 1025%nat /\ query l c key = Ok (Some d, Some (sec ++ ":"%char :: key), l')
  else query l c key = Stop OutOfBounds.
Proof.
  intros Hl Hd Hs Hn Hk. unfold query. rewrite Hs, Hd. cbn [mbind result_bind].
  rewrite strconcat_spec by (try done; rewrite not_elem_of_app, list_elem_of_singleton; done).
  assert (E : (sec ++ [":"%char]) ++ key = sec ++ ":"%char :: key) by (by rewrite <- app_assoc).
  rewrite E. assert (El : length (sec ++ ":"%char :: key) = (length sec + 1 + length key)%nat) by (rewrite length_app; simpl; lia).
  rewrite El. case_bool_decide as Hf; [|done]. eexists. split; [|done].
  rewrite length_app, El. simpl. rewrite length_drop. lia.
Qed.

Lemma strtoull_decimal n : 0 <= n < 2 ^ 64 -> strtoull (decimal 20 n) = n.
Proof.
  intros Hn. unfold strtoull. pose proof (decimal_digits 20 n ltac:(lia)) as Hd.
  pose proof (strtol_decimal 20 n ltac:(simpl Z.of_nat; lia)) as Hv.
  destruct (decimal_cons 19 n) as (c & s & E). rewrite E in *. apply Forall_cons in Hd as [Hc _].
  destruct (digit_not_blank c Hc) as (Hb & H1 & H2 & _).
  cbn [skip_spaces]. rewrite Hb, bool_decide_false, bool_decide_false by done. rewrite Hv. lia.
Qed.

End Object.

(** ** Theorems *)

(** C34 The constructor overwrites the terminator of the section name with the
    colon and then looks for the end of the string: for a file that loads, the
    object holds [section:] exactly when the name is shorter than 1022
    characters and the byte after the colon was zero in the uninitialised
    memory.  Otherwise the process leaves the array or all later queries are for
    another section. *)
Theorem section_name_exact {dictionary} (iniparser_load : cstr -> option dictionary) mem f d sec :
  length mem = 1024%nat -> iniparser_load f = Some d -> NUL ∉ sec ->
  (exists c, new_Config iniparser_load mem (Some f) sec = Ok c /\ dict_ c = Some (Some d) /\
     c_str (section_name_ c) = Ok (sec ++ [":"%char])) <->
  (length sec + 2 < 1024)%nat /\ mem !! S (length sec) = Some NUL.
Proof. apply section_name_iff. Qed.

(** On memory that is zero after the name, the object answers every query
    with what the ini file has under [section:key], as long as that name has at
    most 1024 characters; a longer one overruns the buffer.  Unsigned numbers
    are read back as they are printed. *)
Theorem config_reads_section {dictionary} (iniparser_load : cstr -> option dictionary)
    iniparser_getstring iniparser_getint mem f d sec :
  length mem = 1024%nat -> iniparser_load f = Some d -> NUL ∉ sec ->
  (length sec + 2 < 1024)%nat -> mem !! S (length sec) = Some NUL ->
  exists c, getInstance iniparser_load None mem (Some f) sec = Ok c /\
    forall l key, length l = 1025%nat -> NUL ∉ key ->
      let name := Some (sec ++ ":"%char :: key) in
      if bool_decide (length sec + 1 + length key <= 1024)%nat
      then exists l', length l' = 1025%nat /\
        (forall def, getstring iniparser_getstring l c key def = Ok (iniparser_getstring (Some d) name def, l')) /\
        (forall notfound, getint iniparser_getint l c key notfound = Ok (iniparser_getint (Some d) name notfound, l')) /\
        (forall n notfound, 0 <= n < 2 ^ 64 -> iniparser_getstring (Some d) name None = Some (decimal 20 n) ->
           get_ull iniparser_getstring l c key notfound = Ok (n, l'))
      else (forall def, getstring iniparser_getstring l c key def = Stop OutOfBounds) /\
           (forall notfound, getint iniparser_getint l c key notfound = Stop OutOfBounds).
Proof.
  intros Hm Hd Hs Hl Hz. destruct (proj2 (section_name_iff iniparser_load mem f d sec Hm Hd Hs)) as (c & Hrun & Hdict & Hsec); [done|].
  exists c. split; [done|]. intros l key Hll Hk name.
  pose proof (query_spec l c d sec key Hll Hdict Hsec Hs Hk) as Hq.
  case_bool_decide as Hf; unfold getstring, getint, get_ull.
  - destruct Hq as (l' & Hl' & ->). exists l'. split_and!; try done.
    intros n notfound Hn Hv. cbn [mbind result_bind]. fold name. rewrite Hv. by rewrite strtoull_decimal.
  - by rewrite Hq.
Qed.

(** ** Samples *)

Section Sample.
(** An ini file with one value, the way the parser stores it. *)
Definition sample_load (f : cstr) : option (list (cstr * cstr)) :=
  if bool_decide (f = lit "cm.ini") then Some [(lit "w1:thresh", lit "500")] else None.

Fixpoint sample_find (d : list (cstr * cstr)) (k : cstr) : option cstr :=
  match d with
  | [] => None
  | (k', v) :: d' => if bool_decide (k' = k) then Some v else sample_find d' k
  end.

Definition sample_getstring (d : option (list (cstr * cstr))) (k def : option cstr) : option cstr :=
  match d, k with
  | Some d, Some k => match sample_find d k with Some v => Some v | None => def end
  | _, _ => def
  end.

Definition sample_getint (d : option (list (cstr * cstr))) (k : option cstr) (notfound : Z) : Z :=
  match sample_getstring d k None with Some v => atoi v | None => notfound end.

Definition zeros (n : nat) : list ascii := replicate n NUL.

Lemma section_name_exact_witness :
  exists c, new_Config sample_load (zeros 1024) (Some (lit "cm.ini")) (lit "w1") = Ok c /\
    dict_ c = Some (Some [(lit "w1:thresh", lit "500")]) /\ c_str (section_name_ c) = Ok (lit "w1" ++ [":"%char]).
Proof.
  apply (section_name_exact sample_load (zeros 1024) (lit "cm.ini") [(lit "w1:thresh", lit "500")] (lit "w1")).
  - reflexivity.
  - reflexivity.
  - apply (bool_decide_unpack _). reflexivity.
  - split; [simpl; lia|reflexivity].
Defined.

Lemma config_reads_section_witness :
  exists c l1 l2, getInstance sample_load None (zeros 1024) (Some (lit "cm.ini")) (lit "w1") = Ok c /\
    get_ull sample_getstring (zeros 1025) c (lit "thresh") 7 = Ok (500, l1) /\
    getint sample_getint (zeros 1025) c (lit "row") 3 = Ok (3, l2).
Proof.
  destruct (config_reads_section sample_load sample_getstring sample_getint (zeros 1024) (lit "cm.ini")
    [(lit "w1:thresh", lit "500")] (lit "w1")) as (c & Hc & Hall).
  - reflexivity.
  - reflexivity.
  - apply (bool_decide_unpack _). reflexivity.
  - simpl; lia.
  - reflexivity.
  - assert (H1 : NUL ∉ lit "thresh") by (apply (bool_decide_unpack _); reflexivity).
    assert (H2 : NUL ∉ lit "row") by (apply (bool_decide_unpack _); reflexivity).
    exists c. destruct (Hall (zeros 1025) (lit "thresh") eq_refl H1) as (l' & _ & _ & _ & Hu).
    destruct (Hall (zeros 1025) (lit "row") eq_refl H2) as (l2 & _ & _ & Hi & _).
    exists l', l2. split_and!; [exact Hc|apply (Hu 500); [lia|reflexivity]|exact (Hi 3)].
Defined.

(** Memory that held something else: the section is not the worker's. *)
Lemma section_name_garbage :
  exists c, new_Config sample_load (repeat "x"%char 10 ++ zeros 1014) (Some (lit "cm.ini")) (lit "w1") = Ok c /\
    c_str (section_name_ c) = Ok (lit "w1:xxxxxxx").
Proof. eexists. split; vm_compute; reflexivity. Qed.

(** A name of 1022 characters passes the length check and the last store is
    outside the array. *)
Lemma section_name_overrun :
  new_Config sample_load (zeros 1024) (Some (lit "cm.ini")) (repeat "x"%char 1022) = Stop OutOfBounds.
Proof. vm_compute. reflexivity. Qed.

(** A missing file leaves [dict_] unset and every query reads it. *)
Lemma missing_file_uninitialised :
  exists c, getInstance sample_load None (zeros 1024) None (lit "w1") = Ok c /\
    getstring sample_getstring (zeros 1025) c (lit "thresh") None = Stop Uninitialised.
Proof. eexists. split; vm_compute; reflexivity. Qed.

End Sample.

End Config.
