(* ===== verification/BackupServer.v ===== *)
(** The program of the backup server ([main] in
    [src/fault_tolerance/backup_server.cpp]): the loop over the requests of all
    workers, from an empty store to the message with which the last worker says
    good-bye ([Worker::Start] in [src/thread/worker.hpp]).  One request is
    [handle] of the file Backup; the sockets of ZeroMQ are present with the
    outcome of their calls. *)
From Stdlib Require Import String ZArith Lia.
From stdpp Require Import base numbers list gmap sets.
From S2P Require Import Prelude BackupItem Operators Backup BackupSpec TcpAddress.

Module BackupServer.
Import Server BackupSpec.

Section Main.
Context (malloc : nat -> list Z) (garbage : Item.BackupItem).

(** What the loop has done: the state, the replies, whether it ended, and the
    messages it has not read. *)
Record served := mkserved { final : server; replies : list (list Z); ended : bool; unread : list (list Z) }.

(** [while (1)]; without messages the server waits in [ZRead]. *)
Fixpoint serve (num_sender : Z) (s : server) (msgs : list (list Z)) : result served :=
  match msgs with
  | [] => Ok (mkserved s [] false [])
  | msg :: msgs' =>
      o ← handle malloc garbage num_sender s msg;
      let out := match reply o with Some b => [b] | None => [] end in
      if stop o then Ok (mkserved (srv o) out true msgs')
      else
        r ← serve num_sender (srv o) msgs';
        Ok (mkserved (final r) (out ++ replies r) (ended r) (unread r))
  end.

(** Whether the calls of the library succeed. *)
Record zmq_answers := mkzmq { z_ctx_new : bool; z_ctx_set : bool; z_bind : bool; z_close : bool; z_ctx_destroy : bool }.

Definition or_exit (ok : bool) : result unit := if ok then Ok tt else Stop ExitFailure.

(** [main]: the exit code with the work done, or [None] while the loop waits. *)
Definition main (argv : list Addr.cstr) (z : zmq_answers) (msgs : list (list Z)) : result (option Z * option served) :=
  match argv with
  | [_; _; num_of_sender] =>
      _ ← or_exit (z_ctx_new z);
      _ ← or_exit (z_ctx_set z);
      _ ← or_exit (z_bind z);
      let num_sender := Addr.atoi num_of_sender in
      r ← serve num_sender (new_server zero_item) msgs;
      if ended r then
        _ ← or_exit (z_close z);
        _ ← or_exit (z_ctx_destroy z);
        Ok (Some 0, Some r)
      else Ok (None, Some r)
  | _ => Ok (Some 1, None)
  end.

(** ** Requests *)

(** The last message of a worker: the item of the last command with its header
    zeroed. *)
Definition good_bye (it : Item.BackupItem) : Item.BackupItem :=
  {| Item.info := Item.info zero_item;
     Item.bdata := {| Item.meta := Item.meta (Item.bdata zero_item); Item.data := Item.data (Item.bdata it) |} |}.

Definition is_save (it : Item.BackupItem) : bool :=
  (Item.backup_op (Item.info it) =? 0) && negb (Item.len (Item.meta (Item.bdata it)) =? 0).
Definition is_bye (it : Item.BackupItem) : bool :=
  (Item.backup_op (Item.info it) =? 0) && (Item.len (Item.meta (Item.bdata it)) =? 0).

(** The requests the clients send: backups, good-byes, and the two messages of a
    retrieval. *)
Definition req_ok (it : Item.BackupItem) : Prop :=
  Item.item_wf it /\ label_range (label_of it) /\
  (Item.backup_op (Item.info it) = 0 \/
   (Item.backup_op (Item.info it) = 1 \/ Item.backup_op (Item.info it) = 2) /\ Item.len (Item.meta (Item.bdata it)) = 0).

(** What a sequence of requests leaves under a name. *)
Fixpoint last_saved (reqs : list Item.BackupItem) (l : label) (k : Z) (old : option entry) : option entry :=
  match reqs with
  | [] => old
  | it :: reqs' =>
      last_saved reqs' l k (if is_save it && bool_decide (l = label_of it /\ k = key_of it) then Some (strip it) else old)
  end.

Definition byes (reqs : list Item.BackupItem) : Z := Z.of_nat (length (filter (fun it => is_bye it = true) reqs)).

(** ** The number of items *)

Definition total (s : server) : nat := sum_list_with (fun c => Z.to_nat (used_slots c)) (contents s).

Lemma sum_insert {A} (f : A -> nat) l p x y :
  l !! p = Some x -> (sum_list_with f (<[p := y]> l) + f x = sum_list_with f l + f y)%nat.
Proof.
  revert p. induction l as [|a l IH]; intros [|p] Hp; simpl in *; [done|done|injection Hp as ->; lia|].
  specialize (IH p Hp). lia.
Qed.

Lemma sum_lookup {A} (f : A -> nat) l p x : l !! p = Some x -> (f x <= sum_list_with f l)%nat.
Proof. revert p. induction l as [|a l IH]; intros [|p] Hp; simpl in *; [done|done|injection Hp as ->; lia|]. specialize (IH p Hp). lia. Qed.

(** A backup adds at most one item, and does not touch the count of good-byes. *)
Lemma save_frame s it s' :
  server_ok s -> label_range (label_of it) -> Item.item_wf it -> buffer_wf (Item.bdata garbage) -> Z.of_nat (total s) < 2 ^ 23 ->
  save garbage s it = Ok s' -> (total s' <= S (total s))%nat /\ cur_stop s' = cur_stop s.
Proof.
  intros (labels & ms & Hs) Hl Hwf Hg Htot Hsave. unfold save in Hsave. destruct (find_content s it) as [p s1] eqn:Hfind.
  destruct (find_content_inv s labels ms it p s1 Hs Hl Hfind) as (labels1 & ms1 & Hs1 & Hp & _).
  assert (Hsum : total s1 = total s /\ cur_stop s1 = cur_stop s).
  { unfold find_content in Hfind. case_match; injection Hfind as <- <-; [done|]. unfold total. simpl. by rewrite sum_list_with_app, Nat.add_0_r. }
  destruct Hsum as [Hsum Hcs]. unfold deref in Hsave. destruct (contents s1 !! p) as [c|] eqn:Hc; [|done]. cbn [mbind result_bind] in Hsave.
  pose proof Hs1 as []. destruct (lookup_lt_is_Some_2 ms1 p) as [m Hm]; [apply lookup_lt_Some in Hp; lia|].
  destruct (si_content0 p c m _ Hc Hm Hp) as [Hci _].
  pose proof (sum_lookup (fun c => Z.to_nat (used_slots c)) _ _ _ Hc) as Hle. fold (total s1) in Hle. cbn beta in Hle. pose proof (ci_used _ _ Hci).
  destruct (SaveBackup_inv garbage c m it Hci Hg Hwf) as (c' & E & _ & Hused); [lia|].
  rewrite E in Hsave. cbn [mbind result_bind] in Hsave. injection Hsave as <-. split; [|done].
  pose proof (sum_insert (fun c => Z.to_nat (used_slots c)) _ _ _ c' Hc) as Hins. cbn beta in Hins. unfold total in *. cbn [contents]. lia.
Qed.

Lemma items_of_filter s (P : nat -> Prop) `{!forall p, Decision (P p)} ps :
  (length (items_of s (filter P ps)) <= length (items_of s ps))%nat.
Proof.
  induction ps as [|p ps IH]; [done|]. rewrite filter_cons. unfold items_of in *. case_decide; cbn [fmap list_fmap concat] in *; rewrite ?length_app; lia.
Qed.

Lemma items_of_all s : (length (items_of s (seq 0 (length (contents s)))) <= total s)%nat.
Proof.
  unfold items_of, total, content_items. generalize (contents s). intros cs.
  induction cs as [|c cs IH] using rev_ind; [done|]. rewrite length_app, Nat.add_1_r, seq_S, fmap_app, concat_app, length_app, sum_list_with_app.
  cbn [fmap list_fmap concat Nat.add sum_list_with]. rewrite app_nil_r.
  assert (E : forall n, (n <= length cs)%nat ->
    (fun p => match (cs ++ [c]) !! p with Some c0 => take (Z.to_nat (used_slots c0)) (slots c0) | None => [] end) <$> seq 0 n =
    (fun p => match cs !! p with Some c0 => take (Z.to_nat (used_slots c0)) (slots c0) | None => [] end) <$> seq 0 n).
  { intros n Hn. apply list_fmap_ext. intros i p Hp. apply lookup_seq in Hp as [-> Hi]. by rewrite lookup_app_l by lia. }
  rewrite E by done. rewrite lookup_app_r, Nat.sub_diag by done. cbn [lookup list_lookup]. rewrite length_take. lia.
Qed.

(** A worker has no more items than there are. *)
Lemma worker_items_total s labels ms w :
  server_inv s labels ms -> in_unsigned 16 w -> (length (worker_items s w) <= total s)%nat.
Proof.
  intros [] Hw. unfold worker_items. rewrite si_worker0 by done. rewrite items_of_filter, si_labels0. apply items_of_all.
Qed.

(** What one request does to the counters. *)
Lemma handle_frame num_sender s it msg o :
  server_ok s -> buffer_wf (Item.bdata garbage) -> req_ok it -> Z.of_nat (total s) < 2 ^ 23 -> Item.item_message it = Ok msg ->
  handle malloc garbage num_sender s msg = Ok o ->
  (total (srv o) <= S (total s))%nat /\ cur_stop (srv o) = (if is_bye it then s32 (cur_stop s + 1) else cur_stop s) /\
  stop o = is_bye it && (cur_stop (srv o) =? num_sender).
Proof.
  intros Hs Hg (Hwf & Hl & Hop) Htot Hmsg Hrun.
  assert (Hbuf : buffer_wf (Item.bdata (backup_item s))) by (by destruct Hs as (? & ? & [])).
  destruct (Item.item_receive_same (backup_item s) it msg Hbuf Hwf Hmsg) as [Hsame Hwf'].
  unfold handle in Hrun. set (it' := Item.item_receive (backup_item s) msg) in *. clearbody it'.
  pose proof Hsame as (Hi & Hm & _). rewrite Hi, Hm in Hrun. unfold is_bye.
  destruct (server_ok_receive s it' Hs) as [Hs1 _]; [by destruct Hwf'|].
  destruct (Z.eqb_spec (Item.backup_op (Item.info it)) 0) as [E0|E0]; cbn [andb].
  - destruct (Z.eqb_spec (Item.len (Item.meta (Item.bdata it))) 0) as [El|El]; [injection Hrun as <-; by split_and!; [apply Nat.le_succ_diag_r|..]|].
    destruct (save _ _ _) as [s2|] eqn:Hsave in Hrun; [|done]. cbn [mbind result_bind] in Hrun. injection Hrun as <-. cbn [srv stop].
    apply save_frame in Hsave as [H1 H2]; [by split_and!|exact Hs1|by rewrite (same_item_label _ _ Hsame)|done|done|done].
  - destruct (Item.backup_op (Item.info it) =? 1).
    { destruct (total_count _ _) in Hrun; [|done]. cbn [mbind result_bind] in Hrun. injection Hrun as <-.
      by split_and!; [apply Nat.le_succ_diag_r|..]. }
    destruct (Item.backup_op (Item.info it) =? 2); [|injection Hrun as <-; by split_and!; [apply Nat.le_succ_diag_r|..]].
    destruct (total_count _ _) in Hrun; [|done]. cbn [mbind result_bind] in Hrun.
    destruct (Item.new_RecoveryItem _ _) in Hrun; [|done]. cbn [mbind result_bind] in Hrun.
    destruct (append_all _ _ _) in Hrun; [|done]. cbn [mbind result_bind] in Hrun.
    destruct (mem_read _ _ _) in Hrun; [|done]. cbn [mbind result_bind] in Hrun. injection Hrun as <-.
    by split_and!; [apply Nat.le_succ_diag_r|..].
Qed.

(** An exchange is one request with a reply. *)
Lemma exchange_handle num_sender s it msg b s' :
  Item.item_message it = Ok msg -> Client.exchange malloc garbage num_sender s it = Ok (b, s') ->
  exists o, handle malloc garbage num_sender s msg = Ok o /\ reply o = Some b /\ srv o = s'.
Proof.
  intros Hmsg Hex. unfold Client.exchange in Hex. rewrite Hmsg in Hex. cbn [mbind result_bind] in Hex.
  destruct (handle malloc garbage num_sender s msg) as [o|]; [|done]. cbn [mbind result_bind] in Hex.
  destruct (reply o) as [b'|] eqn:Hr; [|done]. injection Hex as <- <-. by exists o.
Qed.

Lemma request_same it : Item.len (Item.meta (Item.bdata it)) = 0 ->
  Client.request_item it (Item.worker_id (Item.info it)) (Item.backup_op (Item.info it)) = it.
Proof. destruct it as [[] [[] ?]]. cbn. by intros ->. Qed.

(** Every request is answered and does what it should to the store. *)
Lemma handle_ok num_sender s it :
  (forall n, length (malloc n) = n) -> server_ok s -> buffer_wf (Item.bdata garbage) -> req_ok it -> Z.of_nat (total s) < 2 ^ 23 ->
  exists msg o, Item.item_message it = Ok msg /\ handle malloc garbage num_sender s msg = Ok o /\ server_ok (srv o) /\
    is_Some (reply o) /\
    forall l k, label_range l -> stored (srv o) l k = last_saved [it] l k (stored s l k).
Proof.
  intros Hmalloc Hs Hg (Hwf & Hl & Hop) Htot.
  destruct (Item.item_message it) as [msg|] eqn:Hmsg; [|by rewrite Item.item_message_wf in Hmsg]. cbn [last_saved]. exists msg.
  assert (Hw : in_unsigned 16 (Item.worker_id (Item.info it))) by apply Hl. pose proof Hs as (labels & ms & Hinv).
  pose proof (worker_items_total s labels ms _ Hinv Hw) as Hitems.
  assert (Hstack : forall op, in_unsigned 32 op -> Item.item_wf (Client.request_item it (Item.worker_id (Item.info it)) op)).
  { intros op Hop'. destruct Hwf. split; try done. }
  unfold is_save. destruct Hop as [E0|[[E1|E2] El]].
  - rewrite E0. destruct (Z.eqb_spec (Item.len (Item.meta (Item.bdata it))) 0) as [El|El].
    + assert (Hbuf : buffer_wf (Item.bdata (backup_item s))) by (by destruct Hinv).
      destruct (Item.item_receive_same (backup_item s) it msg Hbuf Hwf Hmsg) as [(Hi & Hm & _) Hwf'].
      unfold handle. rewrite Hi, Hm, E0, El. cbn [Z.eqb andb negb]. eexists. split; [done|]. split; [done|].
      split; [|by split; [eexists|]]. exists labels, ms. destruct Hinv, Hwf'. by split.
    + assert (Hroom : has_room s (label_of it)).
      { intros p c _ Hc. pose proof (sum_lookup (fun c => Z.to_nat (used_slots c)) _ _ _ Hc) as Hle. fold (total s) in Hle. cbn beta in Hle. lia. }
      destruct (MakeBackup_stored malloc garbage num_sender s it Hs Hroom Hg Hwf Hl E0 El) as (s' & Hmk & Hok & Hst).
      unfold Client.MakeBackup in Hmk. destruct (Client.exchange _ _ _ _ _) as [[b s1]|] eqn:Hex; [|done].
      cbn [mbind result_bind snd] in Hmk. injection Hmk as ->.
      destruct (exchange_handle _ _ _ _ _ _ Hmsg Hex) as (o & Ho & Hr & <-). exists o. split; [done|]. split; [done|]. split; [done|].
      split; [by rewrite Hr|]. intros l k Hlr. rewrite Hst by done. cbn [Z.eqb andb negb].
      by destruct (decide _) as [Hd|Hd]; [rewrite bool_decide_true|rewrite bool_decide_false].
  - destruct (exchange_count malloc garbage it num_sender _ Hw Hstack s labels ms Hinv) as (s' & Hex & Hinv' & Hst & _); [lia|].
    rewrite <- E1, request_same in Hex by done. destruct (exchange_handle _ _ _ _ _ _ Hmsg Hex) as (o & Ho & Hr & <-).
    exists o. rewrite E1. split; [done|]. split; [done|]. split; [by exists labels, ms|]. split; [by rewrite Hr|]. intros. apply Hst.
  - destruct (exchange_data malloc garbage it num_sender _ Hmalloc Hw Hstack s labels ms Hinv) as (s' & r & Hex & Hinv' & Hst & _);
      [change Item.sizeof_BackupItem with 288; lia|].
    rewrite <- E2, request_same in Hex by done. destruct (exchange_handle _ _ _ _ _ _ Hmsg Hex) as (o & Ho & Hr & <-).
    exists o. rewrite E2. split; [done|]. split; [done|]. split; [by exists labels, ms|]. split; [by rewrite Hr|]. intros. apply Hst.
Qed.

(** ** The loop *)

Definition messages (reqs : list Item.BackupItem) (msgs : list (list Z)) : Prop :=
  Forall2 (fun it msg => Item.item_message it = Ok msg) reqs msgs.

Lemma last_saved_cons it reqs l k old : last_saved (it :: reqs) l k old = last_saved reqs l k (last_saved [it] l k old).
Proof. done. Qed.

Lemma byes_cons it reqs : byes (it :: reqs) = (if is_bye it then 1 else 0) + byes reqs.
Proof. unfold byes. rewrite filter_cons. destruct (is_bye it); [rewrite decide_True by done; simpl; lia|by rewrite decide_False]. Qed.

(** As long as somebody is left, the requests are served one after the other. *)
Lemma serve_run num_sender reqs msgs s :
  (forall n, length (malloc n) = n) -> buffer_wf (Item.bdata garbage) -> Forall req_ok reqs -> messages reqs msgs ->
  server_ok s -> Z.of_nat (total s + length reqs) < 2 ^ 23 -> 0 <= cur_stop s -> cur_stop s + byes reqs < num_sender -> num_sender < 2 ^ 31 ->
  exists s' out, server_ok s' /\ Z.of_nat (total s') <= Z.of_nat (total s + length reqs) /\ cur_stop s' = cur_stop s + byes reqs /\
    length out = length reqs /\ (forall l k, label_range l -> stored s' l k = last_saved reqs l k (stored s l k)) /\
    forall rest, serve num_sender s (msgs ++ rest) =
      r ← serve num_sender s' rest; Ok (mkserved (final r) (out ++ replies r) (ended r) (unread r)).
Proof.
  intros Hmalloc Hg Hall Hmsgs. revert s. induction Hmsgs as [|it msg reqs msgs Hmsg Hmsgs IH]; intros s Hs Htot H0 Hleft Hmax.
  { exists s, []. split_and!; [done|simpl; lia|unfold byes; simpl; lia|done|done|]. intros rest. simpl. by destruct (serve _ s rest) as [[]|]. }
  apply Forall_cons in Hall as [Hit Hall]. rewrite byes_cons in Hleft. simpl in Htot.
  assert (Hpos : 0 <= byes reqs) by (unfold byes; lia).
  destruct (handle_ok num_sender s it Hmalloc Hs Hg Hit ltac:(lia)) as (msg' & o & Hmsg' & Ho & Hok & [b Hb] & Hst).
  rewrite Hmsg in Hmsg'. injection Hmsg' as <-.
  destruct (handle_frame num_sender s it msg o Hs Hg Hit ltac:(lia) Hmsg Ho) as (Ht & Hcs & Hstop).
  assert (Hcs' : cur_stop (srv o) = cur_stop s + (if is_bye it then 1 else 0)).
  { rewrite Hcs. destruct (is_bye it); [|lia]. apply (signed_of_small 32); unfold in_signed; lia. }
  assert (stop o = false) as Hns by (rewrite Hstop; destruct (is_bye it); [apply Z.eqb_neq; lia|done]).
  destruct (IH Hall (srv o) Hok ltac:(lia) ltac:(destruct (is_bye it); lia) ltac:(lia) Hmax) as (s' & out & Hok' & Ht' & Hcs2 & Hlen & Hst' & Hrun).
  exists s', (b :: out). split_and!; [done|simpl; lia|rewrite byes_cons; lia|simpl; by rewrite Hlen| |].
  - intros l k Hl. rewrite last_saved_cons, <- Hst by done. by apply Hst'.
  - intros rest. cbn [app serve]. rewrite Ho. cbn [mbind result_bind]. rewrite Hns, Hb, Hrun. by destruct (serve _ s' rest).
Qed.

(** C6 The backup server ends when it should: for any backups, retrievals and
    good-byes of the workers, in any order, it answers every request; as long as
    fewer good-byes than senders have come it goes on, and with the last one it
    ends and leaves the messages behind it unread.  What it keeps is for every
    operator and key the last backup. *)
Theorem server_ends prog addr num_of_sender z reqs msgs it msg rest :
  (forall n, length (malloc n) = n) -> buffer_wf (Item.bdata garbage) ->
  Forall req_ok reqs -> messages reqs msgs -> Z.of_nat (length reqs) < 2 ^ 23 - 1 ->
  req_ok it -> is_bye it = true -> Item.item_message it = Ok msg ->
  byes reqs + 1 = Addr.atoi num_of_sender -> Addr.atoi num_of_sender < 2 ^ 31 -> z = mkzmq true true true true true ->
  (exists r, main [prog; addr; num_of_sender] z msgs = Ok (None, Some r) /\ length (replies r) = length reqs) /\
  exists r, main [prog; addr; num_of_sender] z (msgs ++ msg :: rest) = Ok (Some 0, Some r) /\
    length (replies r) = S (length reqs) /\ unread r = rest /\
    forall l k, label_range l -> stored (final r) l k = last_saved reqs l k None.
Proof.
  intros Hmalloc Hg Hall Hmsgs Hlen Hit Hbye Hmsg Hnum Hmax ->.
  assert (Hnew : server_ok (new_server zero_item)) by (apply new_server_ok; done).
  destruct (serve_run (Addr.atoi num_of_sender) reqs msgs (new_server zero_item) Hmalloc Hg Hall Hmsgs Hnew ltac:(simpl; lia) ltac:(simpl; lia)
    ltac:(simpl; lia) Hmax) as (s' & out & Hok & Ht & Hcs & Hout & Hst & Hrun).
  unfold main. cbn [z_ctx_new z_ctx_set z_bind z_close z_ctx_destroy or_exit mbind result_bind]. split.
  - pose proof (Hrun []) as Hrun0. rewrite app_nil_r in Hrun0. rewrite Hrun0. cbn [serve mbind result_bind ended replies]. eexists.
    split; [done|]. cbn [replies]. by rewrite app_nil_r.
  - rewrite Hrun. cbn [serve].
    destruct (handle_ok (Addr.atoi num_of_sender) s' it Hmalloc Hok Hg Hit ltac:(simpl in Ht; lia)) as (msg' & o & Hmsg' & Ho & _ & [b Hb] & Hst').
    rewrite Hmsg in Hmsg'. injection Hmsg' as <-.
    destruct (handle_frame (Addr.atoi num_of_sender) s' it msg o Hok Hg Hit ltac:(simpl in Ht; lia) Hmsg Ho) as (_ & Hcs' & Hstop).
    rewrite Hbye, Hcs in Hcs'. cbn [cur_stop new_server] in Hcs'.
    rewrite (signed_of_small 32), Z.add_0_l in Hcs' by (unfold in_signed, byes in *; lia).
    rewrite Hcs', Hbye, Hnum, Z.eqb_refl in Hstop. cbn [andb] in Hstop.
    rewrite Ho. cbn [mbind result_bind]. rewrite Hstop, Hb. cbn [mbind result_bind ended]. eexists. split; [done|]. cbn [replies unread final].
    split_and!; [rewrite length_app, Hout; simpl; lia|done|]. intros l k Hl. rewrite Hst' by done.
    assert (is_save it = false) as Hns by (unfold is_bye, is_save in *; apply andb_true_iff in Hbye as [-> ->]; done).
    cbn [last_saved]. rewrite Hns. cbn [andb]. by apply Hst.
Qed.

End Main.

(** What a worker sends at the end is a good-bye. *)
Lemma good_bye_ok it : Item.item_wf it -> req_ok (good_bye it) /\ is_bye (good_bye it) = true.
Proof.
  intros []. split; [|done]. split; [split; try done|]. split; [|by left]. by repeat split.
Qed.

(** ** A run of the server for two workers *)

Lemma sample_ok : req_ok sample_item.
Proof. split; [exact sample_item_wf|]. split; [exact sample_label_range|by left]. Qed.

Definition message_of (it : Item.BackupItem) : list Z := match Item.item_message it with Ok m => m | Stop _ => [] end.

Lemma server_ends_witness :
  exists r, main zeros zero_item [[]; []; Addr.lit "2"] (mkzmq true true true true true)
      (message_of <$> [good_bye sample_item; sample_item; good_bye sample_item; sample_item]) = Ok (Some 0, Some r) /\
    unread r = [message_of sample_item] /\ stored (final r) (0, 0, 0) 0 = Some (strip sample_item).
Proof.
  destruct (good_bye_ok sample_item sample_item_wf) as [Hbye Hb].
  destruct (server_ends zeros zero_item [] [] (Addr.lit "2") (mkzmq true true true true true)
    [good_bye sample_item; sample_item] (message_of <$> [good_bye sample_item; sample_item])
    (good_bye sample_item) (message_of (good_bye sample_item)) [message_of sample_item]) as (_ & r & Hrun & _ & Hun & Hst).
  - intros n. apply length_replicate.
  - done.
  - constructor; [exact Hbye|]. constructor; [exact sample_ok|constructor].
  - repeat constructor; vm_compute; reflexivity.
  - vm_compute. reflexivity.
  - exact Hbye.
  - exact Hb.
  - vm_compute. reflexivity.
  - vm_compute. reflexivity.
  - vm_compute. reflexivity.
  - reflexivity.
  - exists r. split; [exact Hrun|]. split; [exact Hun|]. rewrite Hst by (by repeat split). vm_compute. reflexivity.
Defined.

End BackupServer.
