(* ===== verification/Options.v ===== *)
(** Socket options ([src/net/options.cpp] and [options.hpp]): the defaults, and
    [setsockopt] and [getsockopt] on values in memory.  The CURVE options, which
    are compiled only with libsodium, are rejected like unknown ones. *)
From Stdlib Require Import Ascii String ZArith Lia.
From stdpp Require Import base list.
From S2P Require Import Prelude TcpAddress.
Import Addr.

Module Options.

Definition ZMQ_NULL : Z := 0.
Definition ZMQ_PLAIN : Z := 1.

(** [option_]; [ZMQ_OTHER] is any number that is no option here. *)
Inductive sockopt :=
| ZMQ_SNDHWM | ZMQ_RCVHWM | ZMQ_AFFINITY | ZMQ_IDENTITY | ZMQ_RATE | ZMQ_RECOVERY_IVL | ZMQ_SNDBUF | ZMQ_RCVBUF
| ZMQ_TYPE | ZMQ_LINGER | ZMQ_RECONNECT_IVL | ZMQ_RECONNECT_IVL_MAX | ZMQ_BACKLOG | ZMQ_MAXMSGSIZE
| ZMQ_MULTICAST_HOPS | ZMQ_RCVTIMEO | ZMQ_SNDTIMEO | ZMQ_IPV4ONLY | ZMQ_IPV6 | ZMQ_TCP_KEEPALIVE
| ZMQ_TCP_KEEPALIVE_CNT | ZMQ_TCP_KEEPALIVE_IDLE | ZMQ_TCP_KEEPALIVE_INTVL | ZMQ_IMMEDIATE
| ZMQ_TCP_ACCEPT_FILTER | ZMQ_PLAIN_SERVER | ZMQ_PLAIN_USERNAME | ZMQ_PLAIN_PASSWORD | ZMQ_ZAP_DOMAIN
| ZMQ_MECHANISM | ZMQ_CONFLATE | ZMQ_OTHER.

(** The members that are used; [type] is set by the threads directly. *)
Record options_t := mkoptions {
  sndhwm : Z;
  rcvhwm : Z;
  affinity : Z;
  identity_size : Z;
  identity : list Z;
  rate : Z;
  recovery_ivl : Z;
  multicast_hops : Z;
  sndbuf : Z;
  rcvbuf : Z;
  type : Z;
  linger : Z;
  reconnect_ivl : Z;
  reconnect_ivl_max : Z;
  backlog : Z;
  maxmsgsize : Z;
  rcvtimeo : Z;
  sndtimeo : Z;
  ipv6 : bool;
  immediate : Z;
  tcp_keepalive : Z;
  tcp_keepalive_cnt : Z;
  tcp_keepalive_idle : Z;
  tcp_keepalive_intvl : Z;
  tcp_accept_filters : list tcp_address_mask_t;
  mechanism : Z;
  as_server : Z;
  zap_domain : list Z;
  plain_username : list Z;
  plain_password : list Z;
  conflate : bool
}.

(** The constructor. *)
Definition new_options : options_t :=
  {| sndhwm := 1000;
     rcvhwm := 1000;
     affinity := 0;
     identity_size := 0;
     identity := replicate 256 0;
     rate := 100;
     recovery_ivl := 10000;
     multicast_hops := 1;
     sndbuf := 4194304;
     rcvbuf := 4194304;
     type := -1;
     linger := -1;
     reconnect_ivl := 100;
     reconnect_ivl_max := 0;
     backlog := 100;
     maxmsgsize := -1;
     rcvtimeo := -1;
     sndtimeo := -1;
     ipv6 := false;
     immediate := 0;
     tcp_keepalive := -1;
     tcp_keepalive_cnt := -1;
     tcp_keepalive_idle := -1;
     tcp_keepalive_intvl := -1;
     tcp_accept_filters := [];
     mechanism := ZMQ_NULL;
     as_server := 0;
     zap_domain := [];
     plain_username := [];
     plain_password := [];
     conflate := false |}.

(** Updates of single members. *)
Definition set_sndhwm (v : Z) (o : options_t) : options_t :=
  mkoptions v (rcvhwm o) (affinity o) (identity_size o) (identity o) (rate o) (recovery_ivl o) (multicast_hops o) (sndbuf o) (rcvbuf o) (type o) (linger o) (reconnect_ivl o) (reconnect_ivl_max o) (backlog o) (maxmsgsize o) (rcvtimeo o) (sndtimeo o) (ipv6 o) (immediate o) (tcp_keepalive o) (tcp_keepalive_cnt o) (tcp_keepalive_idle o) (tcp_keepalive_intvl o) (tcp_accept_filters o) (mechanism o) (as_server o) (zap_domain o) (plain_username o) (plain_password o) (conflate o).
Definition set_rcvhwm (v : Z) (o : options_t) : options_t :=
  mkoptions (sndhwm o) v (affinity o) (identity_size o) (identity o) (rate o) (recovery_ivl o) (multicast_hops o) (sndbuf o) (rcvbuf o) (type o) (linger o) (reconnect_ivl o) (reconnect_ivl_max o) (backlog o) (maxmsgsize o) (rcvtimeo o) (sndtimeo o) (ipv6 o) (immediate o) (tcp_keepalive o) (tcp_keepalive_cnt o) (tcp_keepalive_idle o) (tcp_keepalive_intvl o) (tcp_accept_filters o) (mechanism o) (as_server o) (zap_domain o) (plain_username o) (plain_password o) (conflate o).
Definition set_affinity (v : Z) (o : options_t) : options_t :=
  mkoptions (sndhwm o) (rcvhwm o) v (identity_size o) (identity o) (rate o) (recovery_ivl o) (multicast_hops o) (sndbuf o) (rcvbuf o) (type o) (linger o) (reconnect_ivl o) (reconnect_ivl_max o) (backlog o) (maxmsgsize o) (rcvtimeo o) (sndtimeo o) (ipv6 o) (immediate o) (tcp_keepalive o) (tcp_keepalive_cnt o) (tcp_keepalive_idle o) (tcp_keepalive_intvl o) (tcp_accept_filters o) (mechanism o) (as_server o) (zap_domain o) (plain_username o) (plain_password o) (conflate o).
Definition set_rate (v : Z) (o : options_t) : options_t :=
  mkoptions (sndhwm o) (rcvhwm o) (affinity o) (identity_size o) (identity o) v (recovery_ivl o) (multicast_hops o) (sndbuf o) (rcvbuf o) (type o) (linger o) (reconnect_ivl o) (reconnect_ivl_max o) (backlog o) (maxmsgsize o) (rcvtimeo o) (sndtimeo o) (ipv6 o) (immediate o) (tcp_keepalive o) (tcp_keepalive_cnt o) (tcp_keepalive_idle o) (tcp_keepalive_intvl o) (tcp_accept_filters o) (mechanism o) (as_server o) (zap_domain o) (plain_username o) (plain_password o) (conflate o).
Definition set_recovery_ivl (v : Z) (o : options_t) : options_t :=
  mkoptions (sndhwm o) (rcvhwm o) (affinity o) (identity_size o) (identity o) (rate o) v (multicast_hops o) (sndbuf o) (rcvbuf o) (type o) (linger o) (reconnect_ivl o) (reconnect_ivl_max o) (backlog o) (maxmsgsize o) (rcvtimeo o) (sndtimeo o) (ipv6 o) (immediate o) (tcp_keepalive o) (tcp_keepalive_cnt o) (tcp_keepalive_idle o) (tcp_keepalive_intvl o) (tcp_accept_filters o) (mechanism o) (as_server o) (zap_domain o) (plain_username o) (plain_password o) (conflate o).
Definition set_multicast_hops (v : Z) (o : options_t) : options_t :=
  mkoptions (sndhwm o) (rcvhwm o) (affinity o) (identity_size o) (identity o) (rate o) (recovery_ivl o) v (sndbuf o) (rcvbuf o) (type o) (linger o) (reconnect_ivl o) (reconnect_ivl_max o) (backlog o) (maxmsgsize o) (rcvtimeo o) (sndtimeo o) (ipv6 o) (immediate o) (tcp_keepalive o) (tcp_keepalive_cnt o) (tcp_keepalive_idle o) (tcp_keepalive_intvl o) (tcp_accept_filters o) (mechanism o) (as_server o) (zap_domain o) (plain_username o) (plain_password o) (conflate o).
Definition set_sndbuf (v : Z) (o : options_t) : options_t :=
  mkoptions (sndhwm o) (rcvhwm o) (affinity o) (identity_size o) (identity o) (rate o) (recovery_ivl o) (multicast_hops o) v (rcvbuf o) (type o) (linger o) (reconnect_ivl o) (reconnect_ivl_max o) (backlog o) (maxmsgsize o) (rcvtimeo o) (sndtimeo o) (ipv6 o) (immediate o) (tcp_keepalive o) (tcp_keepalive_cnt o) (tcp_keepalive_idle o) (tcp_keepalive_intvl o) (tcp_accept_filters o) (mechanism o) (as_server o) (zap_domain o) (plain_username o) (plain_password o) (conflate o).
Definition set_rcvbuf (v : Z) (o : options_t) : options_t :=
  mkoptions (sndhwm o) (rcvhwm o) (affinity o) (identity_size o) (identity o) (rate o) (recovery_ivl o) (multicast_hops o) (sndbuf o) v (type o) (linger o) (reconnect_ivl o) (reconnect_ivl_max o) (backlog o) (maxmsgsize o) (rcvtimeo o) (sndtimeo o) (ipv6 o) (immediate o) (tcp_keepalive o) (tcp_keepalive_cnt o) (tcp_keepalive_idle o) (tcp_keepalive_intvl o) (tcp_accept_filters o) (mechanism o) (as_server o) (zap_domain o) (plain_username o) (plain_password o) (conflate o).
Definition set_linger (v : Z) (o : options_t) : options_t :=
  mkoptions (sndhwm o) (rcvhwm o) (affinity o) (identity_size o) (identity o) (rate o) (recovery_ivl o) (multicast_hops o) (sndbuf o) (rcvbuf o) (type o) v (reconnect_ivl o) (reconnect_ivl_max o) (backlog o) (maxmsgsize o) (rcvtimeo o) (sndtimeo o) (ipv6 o) (immediate o) (tcp_keepalive o) (tcp_keepalive_cnt o) (tcp_keepalive_idle o) (tcp_keepalive_intvl o) (tcp_accept_filters o) (mechanism o) (as_server o) (zap_domain o) (plain_username o) (plain_password o) (conflate o).
Definition set_reconnect_ivl (v : Z) (o : options_t) : options_t :=
  mkoptions (sndhwm o) (rcvhwm o) (affinity o) (identity_size o) (identity o) (rate o) (recovery_ivl o) (multicast_hops o) (sndbuf o) (rcvbuf o) (type o) (linger o) v (reconnect_ivl_max o) (backlog o) (maxmsgsize o) (rcvtimeo o) (sndtimeo o) (ipv6 o) (immediate o) (tcp_keepalive o) (tcp_keepalive_cnt o) (tcp_keepalive_idle o) (tcp_keepalive_intvl o) (tcp_accept_filters o) (mechanism o) (as_server o) (zap_domain o) (plain_username o) (plain_password o) (conflate o).
Definition set_reconnect_ivl_max (v : Z) (o : options_t) : options_t :=
  mkoptions (sndhwm o) (rcvhwm o) (affinity o) (identity_size o) (identity o) (rate o) (recovery_ivl o) (multicast_hops o) (sndbuf o) (rcvbuf o) (type o) (linger o) (reconnect_ivl o) v (backlog o) (maxmsgsize o) (rcvtimeo o) (sndtimeo o) (ipv6 o) (immediate o) (tcp_keepalive o) (tcp_keepalive_cnt o) (tcp_keepalive_idle o) (tcp_keepalive_intvl o) (tcp_accept_filters o) (mechanism o) (as_server o) (zap_domain o) (plain_username o) (plain_password o) (conflate o).
Definition set_backlog (v : Z) (o : options_t) : options_t :=
  mkoptions (sndhwm o) (rcvhwm o) (affinity o) (identity_size o) (identity o) (rate o) (recovery_ivl o) (multicast_hops o) (sndbuf o) (rcvbuf o) (type o) (linger o) (reconnect_ivl o) (reconnect_ivl_max o) v (maxmsgsize o) (rcvtimeo o) (sndtimeo o) (ipv6 o) (immediate o) (tcp_keepalive o) (tcp_keepalive_cnt o) (tcp_keepalive_idle o) (tcp_keepalive_intvl o) (tcp_accept_filters o) (mechanism o) (as_server o) (zap_domain o) (plain_username o) (plain_password o) (conflate o).
Definition set_maxmsgsize (v : Z) (o : options_t) : options_t :=
  mkoptions (sndhwm o) (rcvhwm o) (affinity o) (identity_size o) (identity o) (rate o) (recovery_ivl o) (multicast_hops o) (sndbuf o) (rcvbuf o) (type o) (linger o) (reconnect_ivl o) (reconnect_ivl_max o) (backlog o) v (rcvtimeo o) (sndtimeo o) (ipv6 o) (immediate o) (tcp_keepalive o) (tcp_keepalive_cnt o) (tcp_keepalive_idle o) (tcp_keepalive_intvl o) (tcp_accept_filters o) (mechanism o) (as_server o) (zap_domain o) (plain_username o) (plain_password o) (conflate o).
Definition set_rcvtimeo (v : Z) (o : options_t) : options_t :=
  mkoptions (sndhwm o) (rcvhwm o) (affinity o) (identity_size o) (identity o) (rate o) (recovery_ivl o) (multicast_hops o) (sndbuf o) (rcvbuf o) (type o) (linger o) (reconnect_ivl o) (reconnect_ivl_max o) (backlog o) (maxmsgsize o) v (sndtimeo o) (ipv6 o) (immediate o) (tcp_keepalive o) (tcp_keepalive_cnt o) (tcp_keepalive_idle o) (tcp_keepalive_intvl o) (tcp_accept_filters o) (mechanism o) (as_server o) (zap_domain o) (plain_username o) (plain_password o) (conflate o).
Definition set_sndtimeo (v : Z) (o : options_t) : options_t :=
  mkoptions (sndhwm o) (rcvhwm o) (affinity o) (identity_size o) (identity o) (rate o) (recovery_ivl o) (multicast_hops o) (sndbuf o) (rcvbuf o) (type o) (linger o) (reconnect_ivl o) (reconnect_ivl_max o) (backlog o) (maxmsgsize o) (rcvtimeo o) v (ipv6 o) (immediate o) (tcp_keepalive o) (tcp_keepalive_cnt o) (tcp_keepalive_idle o) (tcp_keepalive_intvl o) (tcp_accept_filters o) (mechanism o) (as_server o) (zap_domain o) (plain_username o) (plain_password o) (conflate o).
Definition set_ipv6 (v : bool) (o : options_t) : options_t :=
  mkoptions (sndhwm o) (rcvhwm o) (affinity o) (identity_size o) (identity o) (rate o) (recovery_ivl o) (multicast_hops o) (sndbuf o) (rcvbuf o) (type o) (linger o) (reconnect_ivl o) (reconnect_ivl_max o) (backlog o) (maxmsgsize o) (rcvtimeo o) (sndtimeo o) v (immediate o) (tcp_keepalive o) (tcp_keepalive_cnt o) (tcp_keepalive_idle o) (tcp_keepalive_intvl o) (tcp_accept_filters o) (mechanism o) (as_server o) (zap_domain o) (plain_username o) (plain_password o) (conflate o).
Definition set_immediate (v : Z) (o : options_t) : options_t :=
  mkoptions (sndhwm o) (rcvhwm o) (affinity o) (identity_size o) (identity o) (rate o) (recovery_ivl o) (multicast_hops o) (sndbuf o) (rcvbuf o) (type o) (linger o) (reconnect_ivl o) (reconnect_ivl_max o) (backlog o) (maxmsgsize o) (rcvtimeo o) (sndtimeo o) (ipv6 o) v (tcp_keepalive o) (tcp_keepalive_cnt o) (tcp_keepalive_idle o) (tcp_keepalive_intvl o) (tcp_accept_filters o) (mechanism o) (as_server o) (zap_domain o) (plain_username o) (plain_password o) (conflate o).
Definition set_tcp_keepalive (v : Z) (o : options_t) : options_t :=
  mkoptions (sndhwm o) (rcvhwm o) (affinity o) (identity_size o) (identity o) (rate o) (recovery_ivl o) (multicast_hops o) (sndbuf o) (rcvbuf o) (type o) (linger o) (reconnect_ivl o) (reconnect_ivl_max o) (backlog o) (maxmsgsize o) (rcvtimeo o) (sndtimeo o) (ipv6 o) (immediate o) v (tcp_keepalive_cnt o) (tcp_keepalive_idle o) (tcp_keepalive_intvl o) (tcp_accept_filters o) (mechanism o) (as_server o) (zap_domain o) (plain_username o) (plain_password o) (conflate o).
Definition set_tcp_keepalive_cnt (v : Z) (o : options_t) : options_t :=
  mkoptions (sndhwm o) (rcvhwm o) (affinity o) (identity_size o) (identity o) (rate o) (recovery_ivl o) (multicast_hops o) (sndbuf o) (rcvbuf o) (type o) (linger o) (reconnect_ivl o) (reconnect_ivl_max o) (backlog o) (maxmsgsize o) (rcvtimeo o) (sndtimeo o) (ipv6 o) (immediate o) (tcp_keepalive o) v (tcp_keepalive_idle o) (tcp_keepalive_intvl o) (tcp_accept_filters o) (mechanism o) (as_server o) (zap_domain o) (plain_username o) (plain_password o) (conflate o).
Definition set_tcp_keepalive_idle (v : Z) (o : options_t) : options_t :=
  mkoptions (sndhwm o) (rcvhwm o) (affinity o) (identity_size o) (identity o) (rate o) (recovery_ivl o) (multicast_hops o) (sndbuf o) (rcvbuf o) (type o) (linger o) (reconnect_ivl o) (reconnect_ivl_max o) (backlog o) (maxmsgsize o) (rcvtimeo o) (sndtimeo o) (ipv6 o) (immediate o) (tcp_keepalive o) (tcp_keepalive_cnt o) v (tcp_keepalive_intvl o) (tcp_accept_filters o) (mechanism o) (as_server o) (zap_domain o) (plain_username o) (plain_password o) (conflate o).
Definition set_tcp_keepalive_intvl (v : Z) (o : options_t) : options_t :=
  mkoptions (sndhwm o) (rcvhwm o) (affinity o) (identity_size o) (identity o) (rate o) (recovery_ivl o) (multicast_hops o) (sndbuf o) (rcvbuf o) (type o) (linger o) (reconnect_ivl o) (reconnect_ivl_max o) (backlog o) (maxmsgsize o) (rcvtimeo o) (sndtimeo o) (ipv6 o) (immediate o) (tcp_keepalive o) (tcp_keepalive_cnt o) (tcp_keepalive_idle o) v (tcp_accept_filters o) (mechanism o) (as_server o) (zap_domain o) (plain_username o) (plain_password o) (conflate o).
Definition set_tcp_accept_filters (v : list tcp_address_mask_t) (o : options_t) : options_t :=
  mkoptions (sndhwm o) (rcvhwm o) (affinity o) (identity_size o) (identity o) (rate o) (recovery_ivl o) (multicast_hops o) (sndbuf o) (rcvbuf o) (type o) (linger o) (reconnect_ivl o) (reconnect_ivl_max o) (backlog o) (maxmsgsize o) (rcvtimeo o) (sndtimeo o) (ipv6 o) (immediate o) (tcp_keepalive o) (tcp_keepalive_cnt o) (tcp_keepalive_idle o) (tcp_keepalive_intvl o) v (mechanism o) (as_server o) (zap_domain o) (plain_username o) (plain_password o) (conflate o).
Definition set_mechanism (v : Z) (o : options_t) : options_t :=
  mkoptions (sndhwm o) (rcvhwm o) (affinity o) (identity_size o) (identity o) (rate o) (recovery_ivl o) (multicast_hops o) (sndbuf o) (rcvbuf o) (type o) (linger o) (reconnect_ivl o) (reconnect_ivl_max o) (backlog o) (maxmsgsize o) (rcvtimeo o) (sndtimeo o) (ipv6 o) (immediate o) (tcp_keepalive o) (tcp_keepalive_cnt o) (tcp_keepalive_idle o) (tcp_keepalive_intvl o) (tcp_accept_filters o) v (as_server o) (zap_domain o) (plain_username o) (plain_password o) (conflate o).
Definition set_as_server (v : Z) (o : options_t) : options_t :=
  mkoptions (sndhwm o) (rcvhwm o) (affinity o) (identity_size o) (identity o) (rate o) (recovery_ivl o) (multicast_hops o) (sndbuf o) (rcvbuf o) (type o) (linger o) (reconnect_ivl o) (reconnect_ivl_max o) (backlog o) (maxmsgsize o) (rcvtimeo o) (sndtimeo o) (ipv6 o) (immediate o) (tcp_keepalive o) (tcp_keepalive_cnt o) (tcp_keepalive_idle o) (tcp_keepalive_intvl o) (tcp_accept_filters o) (mechanism o) v (zap_domain o) (plain_username o) (plain_password o) (conflate o).
Definition set_zap_domain (v : list Z) (o : options_t) : options_t :=
  mkoptions (sndhwm o) (rcvhwm o) (affinity o) (identity_size o) (identity o) (rate o) (recovery_ivl o) (multicast_hops o) (sndbuf o) (rcvbuf o) (type o) (linger o) (reconnect_ivl o) (reconnect_ivl_max o) (backlog o) (maxmsgsize o) (rcvtimeo o) (sndtimeo o) (ipv6 o) (immediate o) (tcp_keepalive o) (tcp_keepalive_cnt o) (tcp_keepalive_idle o) (tcp_keepalive_intvl o) (tcp_accept_filters o) (mechanism o) (as_server o) v (plain_username o) (plain_password o) (conflate o).
Definition set_plain_username (v : list Z) (o : options_t) : options_t :=
  mkoptions (sndhwm o) (rcvhwm o) (affinity o) (identity_size o) (identity o) (rate o) (recovery_ivl o) (multicast_hops o) (sndbuf o) (rcvbuf o) (type o) (linger o) (reconnect_ivl o) (reconnect_ivl_max o) (backlog o) (maxmsgsize o) (rcvtimeo o) (sndtimeo o) (ipv6 o) (immediate o) (tcp_keepalive o) (tcp_keepalive_cnt o) (tcp_keepalive_idle o) (tcp_keepalive_intvl o) (tcp_accept_filters o) (mechanism o) (as_server o) (zap_domain o) v (plain_password o) (conflate o).
Definition set_plain_password (v : list Z) (o : options_t) : options_t :=
  mkoptions (sndhwm o) (rcvhwm o) (affinity o) (identity_size o) (identity o) (rate o) (recovery_ivl o) (multicast_hops o) (sndbuf o) (rcvbuf o) (type o) (linger o) (reconnect_ivl o) (reconnect_ivl_max o) (backlog o) (maxmsgsize o) (rcvtimeo o) (sndtimeo o) (ipv6 o) (immediate o) (tcp_keepalive o) (tcp_keepalive_cnt o) (tcp_keepalive_idle o) (tcp_keepalive_intvl o) (tcp_accept_filters o) (mechanism o) (as_server o) (zap_domain o) (plain_username o) v (conflate o).
Definition set_conflate (v : bool) (o : options_t) : options_t :=
  mkoptions (sndhwm o) (rcvhwm o) (affinity o) (identity_size o) (identity o) (rate o) (recovery_ivl o) (multicast_hops o) (sndbuf o) (rcvbuf o) (type o) (linger o) (reconnect_ivl o) (reconnect_ivl_max o) (backlog o) (maxmsgsize o) (rcvtimeo o) (sndtimeo o) (ipv6 o) (immediate o) (tcp_keepalive o) (tcp_keepalive_cnt o) (tcp_keepalive_idle o) (tcp_keepalive_intvl o) (tcp_accept_filters o) (mechanism o) (as_server o) (zap_domain o) (plain_username o) (plain_password o) v.
Definition set_identity (n : Z) (b : list Z) (o : options_t) : options_t :=
  mkoptions (sndhwm o) (rcvhwm o) (affinity o) n b (rate o) (recovery_ivl o) (multicast_hops o) (sndbuf o) (rcvbuf o) (type o) (linger o) (reconnect_ivl o) (reconnect_ivl_max o) (backlog o) (maxmsgsize o) (rcvtimeo o) (sndtimeo o) (ipv6 o) (immediate o) (tcp_keepalive o) (tcp_keepalive_cnt o) (tcp_keepalive_idle o) (tcp_keepalive_intvl o) (tcp_accept_filters o) (mechanism o) (as_server o) (zap_domain o) (plain_username o) (plain_password o) (conflate o).

(** ** [setsockopt] *)

Section Resolver.
Context (getaddrinfo : cstr -> Z -> Z -> addrinfo).

(** The text up to the first NUL. *)
Fixpoint c_str (b : list Z) : cstr :=
  match b with
  | [] => []
  | x :: b' => if x =? 0 then [] else ascii_of_N (Z.to_N x) :: c_str b'
  end.

(** The [n] bytes behind the pointer. *)
Definition load (optval_ : option (list Z)) (n : Z) : result (list Z) :=
  match optval_ with Some b => mem_read b 0 n | None => Stop NullDeref end.

(** The options after [setsockopt] and whether it returned 0. *)
Definition setsockopt (o : options_t) (option_ : sockopt) (optval_ : option (list Z)) (optvallen_ : Z)
    : result (options_t * bool) :=
  let is_int := optvallen_ =? 4 in
  let is_null := if optval_ is None then true else false in
  let accept (b : bool) (o' : options_t) := Ok (if b then (o', true) else (o, false)) in
  v ← (if is_int then load optval_ 4 else Ok (le_bytes 4 0));
  let value := s32 (le_val v) in
  let is_bit := (value =? 0) || (value =? 1) in
  match option_ with
  | ZMQ_SNDHWM => accept (is_int && (0 <=? value)) (set_sndhwm value o)
  | ZMQ_RCVHWM => accept (is_int && (0 <=? value)) (set_rcvhwm value o)
  | ZMQ_RATE => accept (is_int && (0 <? value)) (set_rate value o)
  | ZMQ_RECOVERY_IVL => accept (is_int && (0 <=? value)) (set_recovery_ivl value o)
  | ZMQ_SNDBUF => accept (is_int && (0 <=? value)) (set_sndbuf value o)
  | ZMQ_RCVBUF => accept (is_int && (0 <=? value)) (set_rcvbuf value o)
  | ZMQ_LINGER => accept (is_int && (-1 <=? value)) (set_linger value o)
  | ZMQ_RECONNECT_IVL => accept (is_int && (-1 <=? value)) (set_reconnect_ivl value o)
  | ZMQ_RECONNECT_IVL_MAX => accept (is_int && (0 <=? value)) (set_reconnect_ivl_max value o)
  | ZMQ_BACKLOG => accept (is_int && (0 <=? value)) (set_backlog value o)
  | ZMQ_MULTICAST_HOPS => accept (is_int && (0 <? value)) (set_multicast_hops value o)
  | ZMQ_RCVTIMEO => accept (is_int && (-1 <=? value)) (set_rcvtimeo value o)
  | ZMQ_SNDTIMEO => accept (is_int && (-1 <=? value)) (set_sndtimeo value o)
  | ZMQ_TCP_KEEPALIVE => accept (is_int && ((-1 <=? value) || (value <=? 1))) (set_tcp_keepalive value o)
  | ZMQ_TCP_KEEPALIVE_CNT => accept (is_int && ((value =? -1) || (0 <=? value))) (set_tcp_keepalive_cnt value o)
  | ZMQ_TCP_KEEPALIVE_IDLE => accept (is_int && ((value =? -1) || (0 <=? value))) (set_tcp_keepalive_idle value o)
  | ZMQ_TCP_KEEPALIVE_INTVL => accept (is_int && ((value =? -1) || (0 <=? value))) (set_tcp_keepalive_intvl value o)
  | ZMQ_IMMEDIATE => accept (is_int && ((value =? 0) || (value =? 1))) (set_immediate value o)
  | ZMQ_IPV4ONLY => accept (is_int && is_bit) (set_ipv6 (value =? 0) o)
  | ZMQ_IPV6 => accept (is_int && is_bit) (set_ipv6 (negb (value =? 0)) o)
  | ZMQ_CONFLATE => accept (is_int && is_bit) (set_conflate (negb (value =? 0)) o)
  | ZMQ_PLAIN_SERVER =>
      accept (is_int && is_bit) (set_mechanism (if value =? 0 then ZMQ_NULL else ZMQ_PLAIN) (set_as_server value o))
  | ZMQ_AFFINITY =>
      if optvallen_ =? 8 then b ← load optval_ 8; accept true (set_affinity (le_val b) o) else accept false o
  | ZMQ_MAXMSGSIZE =>
      if optvallen_ =? 8 then b ← load optval_ 8; accept true (set_maxmsgsize (s64 (le_val b)) o) else accept false o
  | ZMQ_IDENTITY =>
      if (0 <? optvallen_) && (optvallen_ <? 256) then
        first ← load optval_ 1;
        if bool_decide (first = [0]) then accept false o
        else b ← load optval_ optvallen_; idy ← mem_write (identity o) 0 b; accept true (set_identity optvallen_ idy o)
      else accept false o
  | ZMQ_TCP_ACCEPT_FILTER =>
      if (optvallen_ =? 0) && is_null then accept true (set_tcp_accept_filters [] o)
      else if (0 <? optvallen_) && (optvallen_ <? 256) && negb is_null then
        first ← load optval_ 1;
        if bool_decide (first = [0]) then accept false o
        else
          b ← load optval_ optvallen_;
          '(mask, r) ← resolve_mask getaddrinfo new_tcp_address_mask (c_str b) (ipv6 o);
          match r : rc with
          | RC0 => accept true (set_tcp_accept_filters (tcp_accept_filters o ++ [mask]) o)
          | _ => accept false o
          end
      else accept false o
  | ZMQ_PLAIN_USERNAME =>
      if (optvallen_ =? 0) && is_null then accept true (set_mechanism ZMQ_NULL o)
      else if (0 <? optvallen_) && (optvallen_ <? 256) && negb is_null then
        b ← load optval_ optvallen_;
        accept true (set_mechanism ZMQ_PLAIN (set_as_server 0 (set_plain_username b o)))
      else accept false o
  | ZMQ_PLAIN_PASSWORD =>
      if (optvallen_ =? 0) && is_null then accept true (set_mechanism ZMQ_NULL o)
      else if (0 <? optvallen_) && (optvallen_ <? 256) && negb is_null then
        b ← load optval_ optvallen_;
        accept true (set_mechanism ZMQ_PLAIN (set_as_server 0 (set_plain_password b o)))
      else accept false o
  | ZMQ_ZAP_DOMAIN =>
      if optvallen_ <? 256 then
        b ← (if optvallen_ =? 0 then Ok [] else load optval_ optvallen_);
        accept true (set_zap_domain b o)
      else accept false o
  | ZMQ_TYPE | ZMQ_MECHANISM | ZMQ_OTHER => accept false o
  end.

End Resolver.

(** ** [getsockopt] *)

(** The buffer, the length and whether the call returned 0. *)
Definition getsockopt (o : options_t) (option_ : sockopt) (optval_ : list Z) (optvallen_ : Z) : result (list Z * Z * bool) :=
  let is_int := optvallen_ =? 4 in
  let fail := Ok (optval_, optvallen_, false) in
  let put_int x :=
    if is_int then b ← mem_write optval_ 0 (le_bytes 4 x); Ok (b, optvallen_, true) else fail in
  let put_long x :=
    if optvallen_ =? 8 then b ← mem_write optval_ 0 (le_bytes 8 x); Ok (b, optvallen_, true) else fail in
  let put_text s :=
    let n := Z.of_nat (length s) + 1 in
    if n <=? optvallen_ then b ← mem_write optval_ 0 (s ++ [0]); Ok (b, n, true) else fail in
  match option_ with
  | ZMQ_SNDHWM => put_int (sndhwm o)
  | ZMQ_RCVHWM => put_int (rcvhwm o)
  | ZMQ_RATE => put_int (rate o)
  | ZMQ_RECOVERY_IVL => put_int (recovery_ivl o)
  | ZMQ_SNDBUF => put_int (sndbuf o)
  | ZMQ_RCVBUF => put_int (rcvbuf o)
  | ZMQ_LINGER => put_int (linger o)
  | ZMQ_RECONNECT_IVL => put_int (reconnect_ivl o)
  | ZMQ_RECONNECT_IVL_MAX => put_int (reconnect_ivl_max o)
  | ZMQ_BACKLOG => put_int (backlog o)
  | ZMQ_MULTICAST_HOPS => put_int (multicast_hops o)
  | ZMQ_RCVTIMEO => put_int (rcvtimeo o)
  | ZMQ_SNDTIMEO => put_int (sndtimeo o)
  | ZMQ_TCP_KEEPALIVE => put_int (tcp_keepalive o)
  | ZMQ_TCP_KEEPALIVE_CNT => put_int (tcp_keepalive_cnt o)
  | ZMQ_TCP_KEEPALIVE_IDLE => put_int (tcp_keepalive_idle o)
  | ZMQ_TCP_KEEPALIVE_INTVL => put_int (tcp_keepalive_intvl o)
  | ZMQ_IMMEDIATE => put_int (immediate o)
  | ZMQ_TYPE => put_int (type o)
  | ZMQ_IPV4ONLY => put_int (1 - Z.b2z (ipv6 o))
  | ZMQ_IPV6 => put_int (Z.b2z (ipv6 o))
  | ZMQ_CONFLATE => put_int (Z.b2z (conflate o))
  | ZMQ_MECHANISM => put_int (mechanism o)
  | ZMQ_PLAIN_SERVER => put_int (Z.b2z (negb (as_server o =? 0) && (mechanism o =? ZMQ_PLAIN)))
  | ZMQ_AFFINITY => put_long (affinity o)
  | ZMQ_MAXMSGSIZE => put_long (maxmsgsize o)
  | ZMQ_IDENTITY =>
      if identity_size o <=? optvallen_ then
        i ← mem_read (identity o) 0 (identity_size o);
        b ← mem_write optval_ 0 i;
        Ok (b, identity_size o, true)
      else fail
  | ZMQ_PLAIN_USERNAME => put_text (plain_username o)
  | ZMQ_PLAIN_PASSWORD => put_text (plain_password o)
  | ZMQ_ZAP_DOMAIN => put_text (zap_domain o)
  | ZMQ_TCP_ACCEPT_FILTER | ZMQ_OTHER => fail
  end.

(** ** The options stay in range *)

(** A filter that [match_address] can use. *)
Definition mask_ok (m : tcp_address_mask_t) : Prop :=
  length (mask_addr m) = 28%nat /\ Forall is_byte (mask_addr m) /\
  0 <= address_mask m <= (if sa_family (mask_addr m) =? AF_INET6 then 128 else 32).

Record options_ok (o : options_t) : Prop := {
  ok_sndhwm : 0 <= sndhwm o < 2 ^ 31;
  ok_rcvhwm : 0 <= rcvhwm o < 2 ^ 31;
  ok_affinity : in_unsigned 64 (affinity o);
  ok_identity : 0 <= identity_size o < 256 /\ length (identity o) = 256%nat /\ Forall is_byte (identity o);
  ok_rate : 0 < rate o < 2 ^ 31;
  ok_recovery : 0 <= recovery_ivl o < 2 ^ 31;
  ok_hops : 0 < multicast_hops o < 2 ^ 31;
  ok_sndbuf : 0 <= sndbuf o < 2 ^ 31;
  ok_rcvbuf : 0 <= rcvbuf o < 2 ^ 31;
  ok_linger : -1 <= linger o < 2 ^ 31;
  ok_reconnect : -1 <= reconnect_ivl o < 2 ^ 31;
  ok_reconnect_max : 0 <= reconnect_ivl_max o < 2 ^ 31;
  ok_backlog : 0 <= backlog o < 2 ^ 31;
  ok_maxmsgsize : in_signed 64 (maxmsgsize o);
  ok_rcvtimeo : -1 <= rcvtimeo o < 2 ^ 31;
  ok_sndtimeo : -1 <= sndtimeo o < 2 ^ 31;
  ok_immediate : 0 <= immediate o <= 1;
  ok_keepalive : in_signed 32 (tcp_keepalive o);
  ok_keepalive_cnt : -1 <= tcp_keepalive_cnt o < 2 ^ 31;
  ok_keepalive_idle : -1 <= tcp_keepalive_idle o < 2 ^ 31;
  ok_keepalive_intvl : -1 <= tcp_keepalive_intvl o < 2 ^ 31;
  ok_filters : Forall mask_ok (tcp_accept_filters o);
  ok_mechanism : mechanism o = ZMQ_NULL \/ mechanism o = ZMQ_PLAIN;
  ok_server : 0 <= as_server o <= 1;
  ok_texts : Forall (fun t => Z.of_nat (length t) < 256 /\ Forall is_byte t) [zap_domain o; plain_username o; plain_password o]
}.

(** What [getaddrinfo] documents: on success there is a first address, of a size
    that fits a socket address. *)
Definition resolver_ok (getaddrinfo : cstr -> Z -> Z -> addrinfo) : Prop :=
  forall host family flags res, getaddrinfo host family flags = Found res ->
    exists sa rest, res = sa :: rest /\ (2 <= length sa <= 28)%nat /\ Forall is_byte sa.

(** The value is what the pointer and the length say. *)
Definition value_ok (optval_ : option (list Z)) (optvallen_ : Z) : Prop :=
  match optval_ with Some b => Forall is_byte b /\ Z.of_nat (length b) = optvallen_ | None => optvallen_ = 0 end.

Lemma new_options_ok : options_ok new_options.
Proof. split; simpl; unfold in_unsigned, in_signed; repeat split; try lia; repeat constructor; simpl; try lia. Qed.

Lemma sa_family_app a b : (2 <= length a)%nat -> sa_family (a ++ b) = sa_family a.
Proof. intros H. unfold sa_family. by rewrite take_app_le. Qed.

(** The mask of a filter fits its family. *)
Lemma parse_mask_range a text n : parse_mask a text = Some n -> 0 <= n <= (if sa_family a =? AF_INET6 then 128 else 32).
Proof.
  unfold parse_mask. destruct (sa_family a =? AF_INET6); cbn [negb andb orb]; rewrite ?orb_false_r;
    (destruct (bool_decide (text = [])); [intros [= <-]; lia|]); (destruct (bool_decide _); [intros [= <-]; lia|]);
    destruct (Z.ltb_spec (atoi text) 1); simpl; try done; [destruct (Z.ltb_spec 128 (atoi text)) | destruct (Z.ltb_spec 32 (atoi text))];
    simpl; try done; intros [= <-]; lia.
Qed.

Lemma resolve_hostname_total getaddrinfo host (ip6 : bool) :
  resolver_ok getaddrinfo ->
  exists a r, resolve_hostname getaddrinfo new_tcp_address host ip6 = Ok (a, r) /\ length a = 28%nat /\ Forall is_byte a.
Proof.
  intros HR. unfold resolve_hostname. destruct (getaddrinfo _ _ _) as [code|res] eqn:E.
  - eexists _, _. split; [done|]. split; [done|]. apply Forall_replicate. unfold is_byte. lia.
  - destruct (HR _ _ _ _ E) as (sa & rest & -> & Hl & Hb). rewrite (proj2 (Z.leb_le _ _)) by (unfold sizeof_in6; lia).
    cbn [mbind result_bind afs_assert]. rewrite mem_write_ok by (unfold new_tcp_address; rewrite ?length_replicate; lia). cbn [mbind result_bind].
    eexists _, _. split; [done|]. simpl Z.to_nat. rewrite take_0. simpl app. split.
    + rewrite length_app, length_drop. unfold new_tcp_address. rewrite length_replicate. lia.
    + apply Forall_app. split; [done|]. apply Forall_drop, Forall_replicate. unfold is_byte. lia.
Qed.

Lemma resolve_mask_total getaddrinfo text (ip6 : bool) :
  resolver_ok getaddrinfo ->
  exists m r, resolve_mask getaddrinfo new_tcp_address_mask text ip6 = Ok (m, r) /\ (r = RC0 -> mask_ok m).
Proof.
  intros HR. unfold resolve_mask.
  assert (forall host mask_str, exists m r,
    ('(a, r) ← resolve_hostname getaddrinfo (mask_addr new_tcp_address_mask) host ip6;
     match r : rc with
     | RC0 => match parse_mask a mask_str with
              | None => Ok (mkmask a (address_mask new_tcp_address_mask), RCErr EINVAL)
              | Some n => Ok (mkmask a n, RC0)
              end
     | _ => Ok (mkmask a (address_mask new_tcp_address_mask), r)
     end) = Ok (m, r) /\ (r = RC0 -> mask_ok m)) as Hgo.
  { intros host mask_str. destruct (resolve_hostname_total getaddrinfo host ip6 HR) as (a & r & Hr & Hl & Hb).
    simpl mask_addr. rewrite Hr. cbn [mbind result_bind]. destruct r; try by (eexists _, _).
    destruct (parse_mask a mask_str) eqn:E; eexists _, _; (split; [done|]); [|done]. intros _.
    split; [done|]. split; [done|]. by apply (parse_mask_range a mask_str). }
  destruct (strrchr text "/"%char) as [[x y]|]; [|apply Hgo]. destruct (bool_decide (y = [])); [by eexists _, _|apply Hgo].
Qed.

Lemma load_ok b n : 0 <= n <= Z.of_nat (length b) -> load (Some b) n = Ok (take (Z.to_nat n) b).
Proof. intros H. simpl. rewrite mem_read_ok by lia. by rewrite drop_0. Qed.

(** Prove that the options are in range after one member changed. *)
Ltac options_ok_tac :=
  match goal with H : options_ok ?o |- options_ok _ => destruct H; split; simpl in *; auto; try lia end.

Lemma accept_ok (c : bool) o o' :
  options_ok o -> (c = true -> options_ok o') ->
  exists o'' b, Ok (if c then (o', true) else (o, false)) = Ok (o'', b) /\ options_ok o'' /\ (b = false -> o'' = o).
Proof. intros Ho Ho'. destruct c; eexists _, _; (split; [done|]); (split; [auto|]); done. Qed.

(** The user name and the password. *)
Lemma text_set_ok o optval_ optvallen_ (f : list Z -> options_t) :
  options_ok o -> value_ok optval_ optvallen_ ->
  (forall b, Z.of_nat (length b) < 256 -> Forall is_byte b -> options_ok (f b)) ->
  exists o' b,
    (if (optvallen_ =? 0) && (if optval_ is None then true else false) then Ok (set_mechanism ZMQ_NULL o, true)
     else if (0 <? optvallen_) && (optvallen_ <? 256) && negb (if optval_ is None then true else false) then
       b ← load optval_ optvallen_; Ok (f b, true)
     else Ok (o, false)) = Ok (o', b) /\ options_ok o' /\ (b = false -> o' = o).
Proof.
  intros Ho Hval Hf. destruct ((optvallen_ =? 0) && _); [apply (accept_ok true o); [done|]; intros _; by options_ok_tac|].
  destruct (Z.ltb_spec 0 optvallen_), (Z.ltb_spec optvallen_ 256); cbn [andb]; try by apply (accept_ok false o o).
  destruct optval_ as [b|]; cbn [negb]; [|by apply (accept_ok false o o)]. destruct Hval as [Hb Hl].
  rewrite load_ok by lia. cbn [mbind result_bind]. apply (accept_ok true o); [done|]. intros _.
  apply Hf; [rewrite length_take; lia | by apply Forall_take].
Qed.

Lemma le_val_range8 b : Z.of_nat (length b) = 8 -> Forall is_byte b -> in_unsigned 64 (le_val b).
Proof. intros Hl Hb. pose proof (le_val_range b Hb) as H. rewrite Hl in H. exact H. Qed.

(** C39 [setsockopt] is total and keeps every option in its range: for every
    option and every value in memory it returns; a rejected value leaves the
    options unchanged; an accepted one leaves them well-formed, and every
    accept filter has a mask that fits its address family, which is what
    [match_address] needs. *)
Theorem setsockopt_keeps_options getaddrinfo o option_ optval_ optvallen_ :
  resolver_ok getaddrinfo -> options_ok o -> value_ok optval_ optvallen_ ->
  exists o' b, setsockopt getaddrinfo o option_ optval_ optvallen_ = Ok (o', b) /\ options_ok o' /\ (b = false -> o' = o).
Proof.
  intros HR Ho Hval. unfold setsockopt.
  assert (forall n, 0 < n <= optvallen_ -> exists b, load optval_ n = Ok b /\ Z.of_nat (length b) = n /\ Forall is_byte b) as Hload.
  { intros n Hn. destruct optval_ as [b|]; simpl in Hval; [|lia]. destruct Hval as [Hb Hl]. rewrite load_ok by lia.
    eexists. split; [done|]. rewrite length_take. split; [lia|]. by apply Forall_take. }
  assert (exists v, (if optvallen_ =? 4 then load optval_ 4 else Ok (le_bytes 4 0)) = Ok v) as [v ->].
  { destruct (Z.eqb_spec optvallen_ 4); [|by eauto]. destruct (Hload 4 ltac:(lia)) as (b & -> & _). by eauto. }
  cbn [mbind result_bind]. pose proof (signed_of_range 32 (le_val v) ltac:(lia)) as Hs. unfold in_signed in Hs.
  set (value := s32 (le_val v)) in *. clearbody value.
  assert (Z.of_nat (length (match optval_ with Some b => b | None => [] end)) = optvallen_) as Hlen
    by (destruct optval_; simpl in *; [apply Hval | done]).
  destruct option_; try (apply accept_ok; [done|]; intros Hc; test_cases; simpl in Hc; try done; by options_ok_tac).
  all: try (by apply (accept_ok false o o)).
  - destruct (Z.eqb_spec optvallen_ 8); [|by apply (accept_ok false o o)].
    destruct (Hload 8 ltac:(lia)) as (b & -> & Hb & Hbb). apply (accept_ok true o); [done|]. intros _. options_ok_tac.
    apply (le_val_range8 b Hb Hbb).
  - destruct (Z.ltb_spec 0 optvallen_), (Z.ltb_spec optvallen_ 256); cbn [andb]; try by apply (accept_ok false o o).
    destruct (Hload 1 ltac:(lia)) as (first & -> & _). cbn [mbind result_bind].
    destruct (bool_decide _); [by apply (accept_ok false o o)|]. destruct (Hload optvallen_ ltac:(lia)) as (b & -> & Hb & Hbb).
    cbn [mbind result_bind]. pose proof (ok_identity o Ho) as (Hi1 & Hi2 & Hi3). rewrite mem_write_ok by lia.
    cbn [mbind result_bind]. apply (accept_ok true o); [done|]. intros _. options_ok_tac. split; [lia|].
    split; [rewrite !length_app, length_drop; lia|]. apply Forall_app. split; [done|]. by apply Forall_drop.
  - destruct (Z.eqb_spec optvallen_ 8); [|by apply (accept_ok false o o)].
    destruct (Hload 8 ltac:(lia)) as (b & -> & _). apply (accept_ok true o); [done|]. intros _. options_ok_tac.
    apply signed_of_range. lia.
  - destruct ((optvallen_ =? 0) && _); [apply (accept_ok true o); [done|]; intros _; by options_ok_tac|].
    destruct (Z.ltb_spec 0 optvallen_), (Z.ltb_spec optvallen_ 256); cbn [andb]; try by apply (accept_ok false o o).
    destruct (negb _); [|by apply (accept_ok false o o)]. destruct (Hload 1 ltac:(lia)) as (first & -> & _). cbn [mbind result_bind].
    destruct (bool_decide _); [by apply (accept_ok false o o)|]. destruct (Hload optvallen_ ltac:(lia)) as (b & -> & _).
    cbn [mbind result_bind]. destruct (resolve_mask_total getaddrinfo (c_str b) (ipv6 o) HR) as (m & r & -> & Hm). cbn [mbind result_bind].
    destruct r; try by apply (accept_ok false o o). apply (accept_ok true o); [done|]. intros _. options_ok_tac.
    apply Forall_app. split; [done|]. by repeat constructor; apply Hm.
  - apply (text_set_ok o _ _ (fun b => set_mechanism ZMQ_PLAIN (set_as_server 0 (set_plain_username b o))) Ho Hval).
    intros b Hb Hbb. options_ok_tac. rewrite !Forall_cons in *. tauto.
  - apply (text_set_ok o _ _ (fun b => set_mechanism ZMQ_PLAIN (set_as_server 0 (set_plain_password b o))) Ho Hval).
    intros b Hb Hbb. options_ok_tac. rewrite !Forall_cons in *. tauto.
  - destruct (Z.ltb_spec optvallen_ 256); [|by apply (accept_ok false o o)].
    assert (exists b, (if optvallen_ =? 0 then Ok [] else load optval_ optvallen_) = Ok b /\ Z.of_nat (length b) = optvallen_ /\ Forall is_byte b)
      as (b & -> & Hb & Hbb).
    { destruct (Z.eqb_spec optvallen_ 0); [by exists []|]. apply Hload. lia. }
    cbn [mbind result_bind]. apply (accept_ok true o); [done|]. intros _. options_ok_tac. rewrite !Forall_cons in *.
    rewrite Hb. tauto.
Qed.

(** ** What is set is what is read *)

Lemma le_bytes_le_val b : Forall is_byte b -> le_bytes (length b) (le_val b) = b.
Proof.
  induction 1 as [|x b Hx _ IH]; [done|]. simpl. unfold is_byte in Hx.
  rewrite (Z.mul_comm 256), Z.mod_add, Z.mod_small, Z.div_add, Z.div_small by lia. by rewrite Z.add_0_l, IH.
Qed.

Lemma le_bytes_mod n x y : x mod 256 ^ Z.of_nat n = y mod 256 ^ Z.of_nat n -> le_bytes n x = le_bytes n y.
Proof.
  revert x y. induction n as [|n IH]; intros x y H; [done|]. rewrite Nat2Z.inj_succ, Z.pow_succ_r in H by lia.
  rewrite !Z.rem_mul_r in H by lia. pose proof (Z.mod_pos_bound x 256). pose proof (Z.mod_pos_bound y 256).
  cbn [le_bytes]. f_equal; [lia|]. apply IH. lia.
Qed.

(** An integer in memory after its conversion to a signed type. *)
Lemma le_bytes_signed n b :
  0 < Z.of_nat n -> length b = n -> Forall is_byte b -> le_bytes n (signed_of (8 * Z.of_nat n) (le_val b)) = b.
Proof.
  intros Hn Hl Hb. rewrite <- (le_bytes_le_val b Hb) at 2. rewrite Hl. apply le_bytes_mod.
  replace (256 ^ Z.of_nat n) with (2 ^ (8 * Z.of_nat n)) by (rewrite Z.pow_mul_r by lia; done).
  pose proof (signed_of_congr (8 * Z.of_nat n) (le_val b) ltac:(lia)) as H.
  apply Z.mod_divide in H; [|lia]. destruct H as [k Hk].
  replace (signed_of (8 * Z.of_nat n) (le_val b)) with (le_val b + k * 2 ^ (8 * Z.of_nat n)) by lia.
  apply Z.mod_add. lia.
Qed.

(** What [getsockopt] gives for a value that was set: texts are terminated. *)
Definition readback (option_ : sockopt) (b : list Z) : list Z :=
  match option_ with ZMQ_PLAIN_USERNAME | ZMQ_PLAIN_PASSWORD | ZMQ_ZAP_DOMAIN => b ++ [0] | _ => b end.

Lemma mem_write_all {A} (buf l : list A) : length l = length buf -> mem_write buf 0 l = Ok l.
Proof.
  intros H. rewrite mem_write_ok by lia. simpl Z.to_nat. rewrite take_0, drop_ge by lia. simpl. by rewrite app_nil_r.
Qed.

Lemma load_all b : load (Some b) (Z.of_nat (length b)) = Ok b.
Proof. rewrite load_ok by lia. by rewrite Nat2Z.id, take_ge. Qed.

(** An accepted value was acceptable. *)
Lemma accepted (c : bool) (o o' o'' : options_t) : Ok (if c then (o', true) else (o, false)) = Ok (o'', true) -> c = true /\ o'' = o'.
Proof. by destruct c; intros [= <-]. Qed.

(** An integer option: the member is the value. *)
Lemma int_back (c : bool) b v buf x :
  (Z.of_nat (length b) =? 4) && c = true ->
  (length b = 4%nat -> v = b) -> Forall is_byte b -> length buf = length b -> (c = true -> x = s32 (le_val v)) ->
  (if Z.of_nat (length buf) =? 4 then b0 ← mem_write buf 0 (le_bytes 4 x); Ok (b0, Z.of_nat (length buf), true)
   else Ok (buf, Z.of_nat (length buf), false)) = Ok (b, Z.of_nat (length b), true).
Proof.
  intros Hc Hvb Hb Hbuf Hx. apply andb_true_iff in Hc as [H4%Z.eqb_eq Hc].
  rewrite Hbuf, H4. cbn [Z.eqb Pos.eqb]. rewrite (Hx Hc), (Hvb ltac:(lia)).
  change (s32 (le_val b)) with (signed_of (8 * Z.of_nat 4) (le_val b)).
  rewrite (le_bytes_signed 4 b) by (done || lia). rewrite mem_write_all by lia. done.
Qed.

Lemma text_back buf s :
  length buf = length (s ++ [0]) ->
  (let n := Z.of_nat (length s) + 1 in
   if n <=? Z.of_nat (length buf) then b ← mem_write buf 0 (s ++ [0]); Ok (b, n, true)
   else Ok (buf, Z.of_nat (length buf), false)) = Ok (s ++ [0], Z.of_nat (length (s ++ [0])), true).
Proof.
  intros Hl. cbv zeta. rewrite length_app in *. simpl in *. rewrite (proj2 (Z.leb_le _ _)) by lia.
  rewrite mem_write_all by (rewrite length_app; simpl; lia). cbn [mbind result_bind]. do 2 f_equal. f_equal. lia.
Qed.

(** Round trip of the socket options: whatever option is set to a value that
    is accepted (the accept filters aside, which cannot be read), [getsockopt]
    with a buffer of the right size gives the same bytes back: integers of four
    and eight bytes, flags, the identity, and texts with their terminator. *)
Theorem option_roundtrip getaddrinfo o option_ b o' buf :
  options_ok o -> Forall is_byte b -> option_ <> ZMQ_TCP_ACCEPT_FILTER ->
  setsockopt getaddrinfo o option_ (Some b) (Z.of_nat (length b)) = Ok (o', true) ->
  length buf = length (readback option_ b) ->
  getsockopt o' option_ buf (Z.of_nat (length buf)) = Ok (readback option_ b, Z.of_nat (length (readback option_ b)), true).
Proof.
  intros Ho Hb Hnf Hset Hbuf. unfold setsockopt in Hset.
  assert (exists v, (if Z.of_nat (length b) =? 4 then load (Some b) 4 else Ok (le_bytes 4 0)) = Ok v /\ (length b = 4%nat -> v = b))
    as (v & Hv & Hvb).
  { destruct (Z.eqb_spec (Z.of_nat (length b)) 4) as [H4|H4]; [|by eexists; split; [done|lia]].
    exists b. rewrite <- H4, load_all. done. }
  rewrite Hv in Hset. cbn [mbind result_bind] in Hset.
  destruct option_; try done; cbn [readback] in *;
    try (apply accepted in Hset as [Hc ->]; apply (int_back _ b v buf _ Hc Hvb Hb Hbuf);
         intros Hbit; cbn; try done; by destruct (Z.eqb_spec (s32 (le_val v)) 0), (Z.eqb_spec (s32 (le_val v)) 1); simpl in *; lia).
  - destruct (Z.eqb_spec (Z.of_nat (length b)) 8) as [H8|]; [|done]. rewrite <- H8, load_all in Hset. injection Hset as <-.
    unfold getsockopt. cbn [affinity set_affinity]. rewrite Hbuf, H8. cbn [Z.eqb Pos.eqb].
    pose proof (le_bytes_le_val b Hb) as E. replace (length b) with 8%nat in E by lia. rewrite E. by rewrite mem_write_all.
  - destruct (Z.ltb_spec 0 (Z.of_nat (length b))), (Z.ltb_spec (Z.of_nat (length b)) 256); cbn [andb] in Hset; try done.
    destruct (load (Some b) 1) as [first|] eqn:E1; [|done]. cbn [mbind result_bind] in Hset.
    destruct (bool_decide _); [done|]. rewrite load_all in Hset. cbn [mbind result_bind] in Hset.
    pose proof (ok_identity o Ho) as (Hi1 & Hi2 & Hi3). rewrite mem_write_ok in Hset by lia. injection Hset as <-.
    unfold getsockopt. cbn [identity_size identity set_identity]. rewrite Hbuf, (proj2 (Z.leb_le _ _)) by lia.
    cbn [Z.to_nat Nat.add take app]. change (mem_read (b ++ drop (length b) (identity o))) with (mem_read ([] ++ b ++ drop (length b) (identity o))). rewrite (mem_read_app_mid [] b _ 0 (Z.of_nat (length b))) by done.
    cbn [mbind result_bind]. by rewrite mem_write_all.
  - destruct (Z.eqb_spec (Z.of_nat (length b)) 8) as [H8|]; [|done]. rewrite <- H8, load_all in Hset. injection Hset as <-.
    unfold getsockopt. cbn [maxmsgsize set_maxmsgsize]. rewrite Hbuf, H8. cbn [Z.eqb Pos.eqb].
    change (s64 (le_val b)) with (signed_of (8 * Z.of_nat 8) (le_val b)). rewrite (le_bytes_signed 8 b) by (done || lia).
    by rewrite mem_write_all.
  - rewrite andb_false_r in Hset. destruct (Z.ltb_spec 0 (Z.of_nat (length b))), (Z.ltb_spec (Z.of_nat (length b)) 256); try done.
    rewrite load_all in Hset. injection Hset as <-. by apply text_back.
  - rewrite andb_false_r in Hset. destruct (Z.ltb_spec 0 (Z.of_nat (length b))), (Z.ltb_spec (Z.of_nat (length b)) 256); try done.
    rewrite load_all in Hset. injection Hset as <-. by apply text_back.
  - destruct (Z.ltb_spec (Z.of_nat (length b)) 256); [|done].
    assert ((if Z.of_nat (length b) =? 0 then Ok [] else load (Some b) (Z.of_nat (length b))) = Ok b) as Hl.
    { destruct (Z.eqb_spec (Z.of_nat (length b)) 0); [|apply load_all]. by destruct b. }
    rewrite Hl in Hset. injection Hset as <-. by apply text_back.
Qed.

(** The identity [abc], and a maximal message size of 1000. *)
Lemma option_roundtrip_witness :
  exists o', setsockopt (fun _ _ _ => EAI 0) new_options ZMQ_IDENTITY (Some [97; 98; 99]) 3 = Ok (o', true) /\
    getsockopt o' ZMQ_IDENTITY [0; 0; 0] 3 = Ok ([97; 98; 99], 3, true).
Proof.
  eexists. split; [vm_compute; reflexivity|].
  apply (option_roundtrip (fun _ _ _ => EAI 0) new_options ZMQ_IDENTITY [97; 98; 99] _ [0; 0; 0]).
  - exact new_options_ok.
  - repeat constructor; unfold is_byte; lia.
  - discriminate.
  - vm_compute. reflexivity.
  - reflexivity.
Defined.

Lemma setsockopt_keeps_options_witness :
  setsockopt sample_getaddrinfo new_options ZMQ_RATE (Some [0; 0; 0; 0]) 4 = Ok (new_options, false) /\
  exists o' b, setsockopt sample_getaddrinfo new_options ZMQ_TCP_ACCEPT_FILTER (Some [49; 48; 46; 49; 46; 50; 46; 51; 47; 56]) 10 = Ok (o', b) /\
    options_ok o' /\ (b = false -> o' = new_options).
Proof.
  split; [vm_compute; reflexivity|]. apply setsockopt_keeps_options.
  - intros host family flags res. unfold sample_getaddrinfo.
    destruct (_ && _); [|destruct (_ && _)]; [intros [= <-]..|done]; eexists _, _; (split; [reflexivity|]);
      (split; [simpl; lia|]); repeat constructor; unfold is_byte; lia.
  - exact new_options_ok.
  - split; [repeat constructor; unfold is_byte; lia | reflexivity].
Defined.

(** The test of [ZMQ_TCP_KEEPALIVE] is always true: any integer is accepted. *)
Lemma keepalive_unchecked getaddrinfo o v :
  in_signed 32 v -> exists o', setsockopt getaddrinfo o ZMQ_TCP_KEEPALIVE (Some (le_bytes 4 v)) 4 = Ok (o', true) /\ tcp_keepalive o' = v.
Proof.
  intros Hv. unfold setsockopt. cbn [Z.eqb Pos.eqb]. change 4 with (Z.of_nat (length (le_bytes 4 v))). rewrite load_all.
  cbn [mbind result_bind]. set (x := s32 (le_val (le_bytes 4 v))).
  assert ((-1 <=? x) || (x <=? 1) = true) as ->.
  { destruct (Z.leb_spec (-1) x), (Z.leb_spec x 1); simpl; try done; lia. }
  eexists. split; [done|]. cbn [tcp_keepalive set_tcp_keepalive]. unfold x. rewrite le_val_bytes.
  change (256 ^ Z.of_nat 4) with (2 ^ 32). change (v mod 2 ^ 32) with (unsigned_of 32 v).
  rewrite signed_of_unsigned by lia. by apply signed_of_small.
Qed.

End Options.
