(* ===== verification/Poller.v ===== *)
(** The event loop of the network threads ([src/net/poller_base.cpp],
    [src/net/epoll.cpp], with the headers, [src/net/clock.cpp] and the interface
    [src/net/i_poll_events.hpp]): poll entries and their retirement, timers, and
    the loop that calls the event handlers.

    The kernel's side of [epoll] is part of the state: the open file
    descriptors and the interest list, with the failures of [epoll_ctl] and
    [close] on descriptors that are not there.  The objects that receive events
    are a type class; what the loop relies on is a second one. *)
From stdpp Require Import base gmap list sorting relations.
From Stdlib Require Import ZArith Lia.
From S2P Require Import Prelude.

Module Poller.

Definition retired_fd : Z := -1.
Definition EPOLLIN : Z := 1.
Definition EPOLLOUT : Z := 4.
Definition EPOLLERR : Z := 8.
Definition EPOLLHUP : Z := 16.
Definition max_io_events : Z := 256.

Section Data.
Context {K : Type} `{!EqDecision K}.

Record poll_entry_t := mkentry { fd : Z; ev_events : Z; sink : K }.

(** A node of the multimap of timers. *)
Record timer_t := mktimer { node : Z; expiration : Z; t_sink : K; t_id : Z }.

(** The poller: the entries that are allocated, by address; the descriptors the
    process has open and the interest list of the [epoll] instance (events and
    [data.ptr]); the members [retired], [stopping] and [timers], the multimap in
    order.  [next_entry] and [next_node] are fresh addresses. *)
Record epoll_t := mkepoll {
  entries : gmap Z poll_entry_t;
  next_entry : Z;
  open_fds : gset Z;
  interest : gmap Z (Z * Z);
  retired : list Z;
  stopping : bool;
  timers : list timer_t;
  next_node : Z
}.

Definition new_epoll (fds : gset Z) : epoll_t := mkepoll ∅ 0 fds ∅ [] false [] 0.

Definition set_entries (m : gmap Z poll_entry_t) (e : epoll_t) : epoll_t :=
  mkepoll m (next_entry e) (open_fds e) (interest e) (retired e) (stopping e) (timers e) (next_node e).
Definition set_kernel (fds : gset Z) (m : gmap Z (Z * Z)) (e : epoll_t) : epoll_t :=
  mkepoll (entries e) (next_entry e) fds m (retired e) (stopping e) (timers e) (next_node e).
Definition set_retired (l : list Z) (e : epoll_t) : epoll_t :=
  mkepoll (entries e) (next_entry e) (open_fds e) (interest e) l (stopping e) (timers e) (next_node e).
Definition set_stopping (b : bool) (e : epoll_t) : epoll_t :=
  mkepoll (entries e) (next_entry e) (open_fds e) (interest e) (retired e) b (timers e) (next_node e).
Definition set_timers (l : list timer_t) (e : epoll_t) : epoll_t :=
  mkepoll (entries e) (next_entry e) (open_fds e) (interest e) (retired e) (stopping e) l (next_node e).

(** ** System calls *)

(** [epoll_ctl]; every failure is caught by [errno_assert]. *)
Inductive ctl := CTL_ADD | CTL_MOD | CTL_DEL.

Definition epoll_ctl (e : epoll_t) (op : ctl) (f : Z) (ev : Z * Z) : result epoll_t :=
  if negb (bool_decide (f ∈ open_fds e)) then Stop AssertFailed       (* EBADF *)
  else match op, interest e !! f with
  | CTL_ADD, None => Ok (set_kernel (open_fds e) (<[f := ev]> (interest e)) e)
  | CTL_MOD, Some _ => Ok (set_kernel (open_fds e) (<[f := ev]> (interest e)) e)
  | CTL_DEL, Some _ => Ok (set_kernel (open_fds e) (delete f (interest e)) e)
  | _, _ => Stop AssertFailed                                         (* EEXIST, ENOENT *)
  end.

(** A new descriptor, and [close], which also leaves the interest list. *)
Definition open_fd (f : Z) (e : epoll_t) : epoll_t := set_kernel ({[f]} ∪ open_fds e) (interest e) e.

Definition close_fd (f : Z) (e : epoll_t) : result epoll_t :=
  if bool_decide (f ∈ open_fds e)
  then Ok (set_kernel (open_fds e ∖ {[f]}) (delete f (interest e)) e) else Stop AssertFailed.

(** ** Entries *)

(** [pe->...] through a handle: the entry must not have been deleted. *)
Definition deref (e : epoll_t) (h : Z) : result poll_entry_t :=
  match entries e !! h with Some pe => Ok pe | None => Stop NullDeref end.

Definition add_fd (e : epoll_t) (fd_ : Z) (events_ : K) : result (epoll_t * Z) :=
  let h := next_entry e in
  let e1 := mkepoll (<[h := mkentry fd_ 0 events_]> (entries e)) (h + 1) (open_fds e) (interest e) (retired e)
              (stopping e) (timers e) (next_node e) in
  e2 ← epoll_ctl e1 CTL_ADD fd_ (0, h);
  Ok (e2, h).

Definition rm_fd (e : epoll_t) (h : Z) : result epoll_t :=
  pe ← deref e h;
  e1 ← epoll_ctl e CTL_DEL (fd pe) (ev_events pe, h);
  Ok (set_retired (retired e ++ [h]) (set_entries (<[h := mkentry retired_fd (ev_events pe) (sink pe)]> (entries e1)) e1)).

(** [pe->ev.events = f (pe->ev.events)] and [EPOLL_CTL_MOD]. *)
Definition modify (f : Z -> Z) (e : epoll_t) (h : Z) : result epoll_t :=
  pe ← deref e h;
  let pe' := mkentry (fd pe) (f (ev_events pe)) (sink pe) in
  epoll_ctl (set_entries (<[h := pe']> (entries e)) e) CTL_MOD (fd pe) (ev_events pe', h).

Definition set_pollin := modify (fun m => Z.lor m EPOLLIN).
Definition reset_pollin := modify (fun m => Z.ldiff m EPOLLIN).
Definition set_pollout := modify (fun m => Z.lor m EPOLLOUT).
Definition reset_pollout := modify (fun m => Z.ldiff m EPOLLOUT).

(** ** Timers *)

(** [timers.insert]: after the timers that expire at the same time. *)
Fixpoint insert_timer (t : timer_t) (l : list timer_t) : list timer_t :=
  match l with
  | [] => [t]
  | t' :: l' => if expiration t <? expiration t' then t :: l else t' :: insert_timer t l'
  end.

Definition add_timer (e : epoll_t) (now timeout_ : Z) (sink_ : K) (id_ : Z) : epoll_t :=
  let t := mktimer (next_node e) (u64 (now + timeout_)) sink_ id_ in
  mkepoll (entries e) (next_entry e) (open_fds e) (interest e) (retired e) (stopping e)
    (insert_timer t (timers e)) (next_node e + 1).

(** The loop of [cancel_timer]: the first timer of the sink with the id. *)
Fixpoint remove_timer (sink_ : K) (id_ : Z) (l : list timer_t) : option (list timer_t) :=
  match l with
  | [] => None
  | t :: l' =>
      if bool_decide (t_sink t = sink_) && (t_id t =? id_) then Some l'
      else cons t <$> remove_timer sink_ id_ l'
  end.

Definition cancel_timer (e : epoll_t) (sink_ : K) (id_ : Z) : result epoll_t :=
  match remove_timer sink_ id_ (timers e) with
  | Some l => Ok (set_timers l e)
  | None => Stop AssertFailed
  end.

(** An iterator is the address of a node; it must still be in the map. *)
Definition at_node (n : Z) (l : list timer_t) : result timer_t :=
  match filter (fun t => node t = n) l with t :: _ => Ok t | [] => Stop NullDeref end.

(** [++it]: [None] is [timers.end ()]. *)
Fixpoint next_of (n : Z) (l : list timer_t) : result (option Z) :=
  match l with
  | [] => Stop NullDeref
  | t :: l' => if node t =? n then Ok (node <$> head l') else next_of n l'
  end.

Definition erase (n : Z) (e : epoll_t) : epoll_t := set_timers (filter (fun t => node t <> n) (timers e)) e.

End Data.

Arguments poll_entry_t : clear implicits.
Arguments timer_t : clear implicits.
Arguments epoll_t : clear implicits.

(** ** The event loop *)

(** The objects that receive events ([i_poll_events]) with the state [W] behind
    them; [now_ms] reads the clock. *)
Class PollEvents (K W : Type) := {
  now_ms : W -> Z * W;
  in_event : K -> epoll_t K * W -> result (epoll_t K * W * bool);
  out_event : K -> epoll_t K * W -> result (epoll_t K * W * bool);
  timer_event : K -> Z -> epoll_t K * W -> result (epoll_t K * W)
}.

Section Loop.
Context {K W : Type} `{!EqDecision K} `{!PollEvents K W}.
Implicit Types (e : epoll_t K) (w : W).

(** The loop of [execute_timers] from the iterator [it]; [fuel] bounds the
    timers that are run. *)
Fixpoint timers_loop (fuel : nat) (current : Z) (it : option Z) (st : epoll_t K * W) : result (epoll_t K * W * Z) :=
  match it, fuel with
  | None, _ => Ok (st, 0)
  | Some _, O => Stop WouldBlock
  | Some o, S fuel' =>
      t ← at_node o (timers st.1);
      if current <? expiration t then Ok (st, u64 (expiration t - current))
      else
        '(e, w) ← timer_event (t_sink t) (t_id t) st;
        it' ← next_of o (timers e);
        timers_loop fuel' current it' (erase o e, w)
  end.

(** [execute_timers]: the state and the time to wait. *)
Definition execute_timers (fuel : nat) (st : epoll_t K * W) : result (epoll_t K * W * Z) :=
  match timers st.1 with
  | [] => Ok (st, 0)
  | t :: _ => let '(current, w) := now_ms st.2 in timers_loop fuel current (Some (node t)) (st.1, w)
  end.

(** [stopping |= handler ()] when the event has one of the bits, and the test of
    [retired_fd] after it; [None] is [continue]. *)
Definition fire (bits ev h : Z) (handler : K -> epoll_t K * W -> result (epoll_t K * W * bool))
    (st : epoll_t K * W) : result (epoll_t K * W) :=
  pe ← deref st.1 h;
  if fd pe =? retired_fd then Ok st
  else if Z.land ev bits =? 0 then Ok st
  else '(e, w, b) ← handler (sink pe) st; Ok (set_stopping (stopping e || b) e, w).

(** The body of the loop over the events. *)
Definition dispatch (st : epoll_t K * W) (ev : Z * Z) : result (epoll_t K * W) :=
  st1 ← fire (Z.lor EPOLLERR EPOLLHUP) ev.1 ev.2 in_event st;
  st2 ← fire EPOLLOUT ev.1 ev.2 out_event st1;
  fire EPOLLIN ev.1 ev.2 in_event st2.

(** The retired entries are deleted. *)
Definition delete_entry (e : epoll_t K) (h : Z) : result (epoll_t K) :=
  _ ← deref e h; Ok (set_entries (delete h (entries e)) e).

Definition free_retired (e : epoll_t K) : result (epoll_t K) :=
  e' ← foldM delete_entry (retired e) e; Ok (set_retired [] e').

(** The destructor: what is still retired is deleted. *)
Definition delete_epoll (e : epoll_t K) : result (epoll_t K) := foldM delete_entry (retired e) e.

(** What [epoll_wait] delivers ([None]: interrupted), and one turn of [loop]. *)
Definition after_wait (evs : option (list (Z * Z))) (st : epoll_t K * W) : result (epoll_t K * W) :=
  match evs with
  | None => Ok st
  | Some evs =>
      '(e, w) ← foldM dispatch evs st;
      e' ← free_retired e;
      Ok (e', w)
  end.

(** The events are those of registered descriptors: what was asked for, errors
    and hang-ups. *)
Definition legal_events (evs : list (Z * Z)) (e : epoll_t K) : Prop :=
  Z.of_nat (length evs) <= max_io_events /\
  Forall (fun ev => exists f m, interest e !! f = Some (m, ev.2) /\
    Z.land ev.1 (Z.lnot (Z.lor m (Z.lor EPOLLERR EPOLLHUP))) = 0) evs.

(** One turn of [loop]. *)
Inductive loop_step : epoll_t K * W -> result (epoll_t K * W) -> Prop :=
| ls_timers_fail st err :
    stopping st.1 = false -> execute_timers (S (length (timers st.1))) st = Stop err -> loop_step st (Stop err)
| ls_turn st st' wait evs :
    stopping st.1 = false -> execute_timers (S (length (timers st.1))) st = Ok (st', wait) ->
    (forall l, evs = Some l -> legal_events l st'.1) ->
    loop_step st (after_wait evs st').

Definition loop_reaches (st st' : epoll_t K * W) : Prop := rtc (fun st st' => loop_step st (Ok st')) st st'.

End Loop.

(** ** The poller's invariant *)

Lemma and_iff_compat_l_weak (A B C : Prop) : (A -> B <-> C) -> A /\ B <-> A /\ C.
Proof. tauto. Qed.

Section Invariant.
Context {K : Type} `{!EqDecision K}.
Implicit Types (e : epoll_t K) (t : timer_t K).

Definition timer_le t t' : Prop := expiration t <= expiration t'.

(** The interest list is that of the entries that are not retired; the retired
    entries are the ones to delete; addresses are fresh; the timers are in
    order. *)
Record poller_inv e : Prop := {
  pi_interest : forall f m h, interest e !! f = Some (m, h) <->
    f <> retired_fd /\ exists pe, entries e !! h = Some pe /\ fd pe = f /\ ev_events pe = m;
  pi_open : forall f, is_Some (interest e !! f) -> f ∈ open_fds e;
  pi_no_retired : retired_fd ∉ open_fds e;
  pi_retired : forall h, h ∈ retired e <-> exists pe, entries e !! h = Some pe /\ fd pe = retired_fd;
  pi_nodup : NoDup (retired e);
  pi_fresh : forall h, is_Some (entries e !! h) -> h < next_entry e;
  pi_sorted : StronglySorted timer_le (timers e);
  pi_nodes : NoDup (node <$> timers e);
  pi_node_fresh : forall t, t ∈ timers e -> node t < next_node e
}.

(** Entries stay allocated, keep their sink, and only become retired. *)
Definition keeps e e' : Prop :=
  forall h pe, entries e !! h = Some pe ->
    exists pe', entries e' !! h = Some pe' /\ sink pe' = sink pe /\ (fd pe' = fd pe \/ fd pe' = retired_fd).

#[export] Instance keeps_refl : Reflexive keeps.
Proof. intros e h pe H. eauto. Qed.

#[export] Instance keeps_trans : Transitive keeps.
Proof.
  intros e1 e2 e3 H12 H23 h pe H. destruct (H12 h pe H) as (pe2 & H2 & Hs2 & Hf2).
  destruct (H23 h pe2 H2) as (pe3 & H3 & Hs3 & Hf3). exists pe3. rewrite Hs3. intuition congruence.
Qed.

(** A live entry is in the interest list. *)
Lemma live_interest e h pe :
  poller_inv e -> entries e !! h = Some pe -> fd pe <> retired_fd -> interest e !! fd pe = Some (ev_events pe, h).
Proof. intros He Hh Hf. apply (pi_interest e He). eauto. Qed.

Lemma new_epoll_inv fds : retired_fd ∉ fds -> poller_inv (new_epoll fds).
Proof.
  intros H. split; simpl; try done; try by constructor.
  - intros f m h. rewrite lookup_empty. split; [done|]. intros (_ & pe & Hpe & _). by rewrite lookup_empty in Hpe.
  - intros f [x Hx]. by rewrite lookup_empty in Hx.
  - intros h. split; [by intros ?%elem_of_nil|]. intros (pe & Hpe & _). by rewrite lookup_empty in Hpe.
  - intros h [x Hx]. by rewrite lookup_empty in Hx.
  - intros t ?%elem_of_nil. done.
Qed.

(** [add_fd] of a descriptor that is open and not registered. *)
Lemma add_fd_ok e f k :
  poller_inv e -> f ∈ open_fds e -> interest e !! f = None ->
  exists e', add_fd e f k = Ok (e', next_entry e) /\ poller_inv e' /\ keeps e e' /\
    entries e' = <[next_entry e := mkentry f 0 k]> (entries e) /\ open_fds e' = open_fds e /\
    interest e' = <[f := (0, next_entry e)]> (interest e) /\ retired e' = retired e /\
    stopping e' = stopping e /\ timers e' = timers e /\ next_node e' = next_node e.
Proof.
  intros He Hopen Hnone. pose proof He as [Hint Hop Hnr Hret Hnd Hfr Hso Hno Hnf].
  assert (entries e !! next_entry e = None) as Hfresh.
  { destruct (entries e !! next_entry e) eqn:E; [|done]. assert (next_entry e < next_entry e); [apply Hfr; eauto|lia]. }
  assert (f <> retired_fd) as Hf by (intros ->; done).
  unfold add_fd, epoll_ctl. simpl. rewrite bool_decide_true by done. rewrite Hnone. cbn [mbind result_bind negb].
  eexists. split; [done|]. split; [|split; [|repeat split; done]].
  - split; simpl; try done.
    + intros f' m h. destruct (decide (f' = f)) as [->|Hff].
      * rewrite lookup_insert_eq. split.
        -- intros [= <- <-]. split; [done|]. exists (mkentry f 0 k). by rewrite lookup_insert_eq.
        -- intros (_ & pe & Hpe & Hfd & Hev). destruct (decide (h = next_entry e)) as [->|Hh].
           ++ rewrite lookup_insert_eq in Hpe. injection Hpe as <-. by subst.
           ++ rewrite lookup_insert_ne in Hpe by done.
              assert (interest e !! f = Some (m, h)) by (apply Hint; eauto). congruence.
      * rewrite lookup_insert_ne, Hint by done. apply and_iff_compat_l. split; intros (pe & Hpe & Hfd & Hev); exists pe.
        -- rewrite lookup_insert_ne; [done|congruence].
        -- destruct (decide (h = next_entry e)) as [->|Hh]; [|by rewrite lookup_insert_ne in Hpe].
           rewrite lookup_insert_eq in Hpe. injection Hpe as <-. by subst.
    + intros f' Hf'. destruct (decide (f' = f)) as [->|]; [done|]. rewrite lookup_insert_ne in Hf' by done. by apply Hop.
    + intros h. rewrite Hret. split; intros (pe & Hpe & Hfd); exists pe.
      * rewrite lookup_insert_ne; [done|congruence].
      * destruct (decide (h = next_entry e)) as [->|Hh]; [|by rewrite lookup_insert_ne in Hpe].
        rewrite lookup_insert_eq in Hpe. injection Hpe as <-. by subst.
    + intros h [pe Hpe]. destruct (decide (h = next_entry e)) as [->|Hh]; [lia|].
      rewrite lookup_insert_ne in Hpe by done. assert (h < next_entry e) by (apply Hfr; eauto). lia.
  - intros h pe Hpe. exists pe. simpl. rewrite lookup_insert_ne; [by auto|congruence].
Qed.

(** [modify] of a live entry. *)
Lemma modify_ok g e h pe :
  poller_inv e -> entries e !! h = Some pe -> fd pe <> retired_fd ->
  exists e', modify g e h = Ok e' /\ poller_inv e' /\ keeps e e' /\
    entries e' = <[h := mkentry (fd pe) (g (ev_events pe)) (sink pe)]> (entries e) /\ open_fds e' = open_fds e /\
    interest e' = <[fd pe := (g (ev_events pe), h)]> (interest e) /\ retired e' = retired e /\
    stopping e' = stopping e /\ timers e' = timers e /\ next_node e' = next_node e.
Proof.
  intros He Hh Hf. pose proof (live_interest e h pe He Hh Hf) as Hi. pose proof He as [Hint Hop Hnr Hret Hnd Hfr Hso Hno Hnf].
  unfold modify, deref, epoll_ctl. rewrite Hh. cbn [mbind result_bind]. simpl.
  rewrite bool_decide_true by (apply Hop; eauto). rewrite Hi. simpl. eexists. split; [done|]. split; [|split; [|repeat split; done]].
  - split; simpl; try done.
    + intros f' m h'. destruct (decide (f' = fd pe)) as [->|Hff].
      * rewrite lookup_insert_eq. split.
        -- intros [= <- <-]. split; [done|]. eexists. by rewrite lookup_insert_eq.
        -- intros (_ & pe' & Hpe' & Hfd & Hev). destruct (decide (h' = h)) as [->|Hhh].
           ++ rewrite lookup_insert_eq in Hpe'. injection Hpe' as <-. by subst.
           ++ rewrite lookup_insert_ne in Hpe' by done.
              assert (interest e !! fd pe = Some (m, h')) by (apply Hint; eauto). congruence.
      * rewrite lookup_insert_ne, Hint by done. apply and_iff_compat_l. split; intros (pe' & Hpe' & Hfd & Hev); exists pe'.
        -- rewrite lookup_insert_ne; [done|congruence].
        -- destruct (decide (h' = h)) as [->|Hhh]; [|by rewrite lookup_insert_ne in Hpe'].
           rewrite lookup_insert_eq in Hpe'. injection Hpe' as <-. by subst.
    + intros f' Hf'. destruct (decide (f' = fd pe)) as [->|]; [by apply Hop; eauto|]. rewrite lookup_insert_ne in Hf' by done. by apply Hop.
    + intros h'. rewrite Hret. split; intros (pe' & Hpe' & Hfd).
      * exists pe'. rewrite lookup_insert_ne; [done|congruence].
      * destruct (decide (h' = h)) as [->|Hhh]; [|rewrite lookup_insert_ne in Hpe' by done; by exists pe'].
        rewrite lookup_insert_eq in Hpe'. injection Hpe' as <-. by subst.
    + intros h' Hpe. apply Hfr. destruct (decide (h' = h)) as [->|Hhh]; [by eauto|]. by rewrite lookup_insert_ne in Hpe.
  - intros h' pe' Hpe'. simpl. destruct (decide (h' = h)) as [->|Hhh].
    + rewrite lookup_insert_eq. eexists. split; [done|]. assert (pe' = pe) as -> by congruence. by auto.
    + rewrite lookup_insert_ne by done. eauto.
Qed.

(** [rm_fd] of a live entry. *)
Lemma rm_fd_ok e h pe :
  poller_inv e -> entries e !! h = Some pe -> fd pe <> retired_fd ->
  exists e', rm_fd e h = Ok e' /\ poller_inv e' /\ keeps e e' /\
    entries e' = <[h := mkentry retired_fd (ev_events pe) (sink pe)]> (entries e) /\ open_fds e' = open_fds e /\
    interest e' = delete (fd pe) (interest e) /\ stopping e' = stopping e /\ timers e' = timers e /\ next_node e' = next_node e.
Proof.
  intros He Hh Hf. pose proof (live_interest e h pe He Hh Hf) as Hi. pose proof He as [Hint Hop Hnr Hret Hnd Hfr Hso Hno Hnf].
  unfold rm_fd, deref, epoll_ctl. rewrite Hh. cbn [mbind result_bind].
  rewrite bool_decide_true by (apply Hop; eauto). rewrite Hi. simpl. eexists. split; [done|]. split; [|split; [|repeat split; done]].
  - split; simpl; try done.
    + intros f' m h'. destruct (decide (f' = fd pe)) as [->|Hff].
      * rewrite lookup_delete_eq. split; [done|]. intros (_ & pe' & Hpe' & Hfd & Hev). destruct (decide (h' = h)) as [->|Hhh].
        -- rewrite lookup_insert_eq in Hpe'. injection Hpe' as <-. by simpl in Hfd.
        -- rewrite lookup_insert_ne in Hpe' by done.
           assert (interest e !! fd pe = Some (m, h')) by (apply Hint; eauto). congruence.
      * rewrite lookup_delete_ne, Hint by done. split; intros (Hr & pe' & Hpe' & Hfd & Hev); (split; [done|]); exists pe'.
        -- rewrite lookup_insert_ne; [done|congruence].
        -- destruct (decide (h' = h)) as [->|Hhh]; [|by rewrite lookup_insert_ne in Hpe'].
           rewrite lookup_insert_eq in Hpe'. injection Hpe' as <-. by subst.
    + intros f' Hf'. apply Hop. rewrite lookup_delete_is_Some in Hf'. apply Hf'.
    + intros h'. rewrite elem_of_app, list_elem_of_singleton, Hret. destruct (decide (h' = h)) as [->|Hhh].
      * rewrite lookup_insert_eq. split; [|by right]. intros _. by eexists.
      * rewrite lookup_insert_ne by done. split; [|by left]. intros [?|?]; done.
    + apply NoDup_app. split; [done|]. split; [|apply NoDup_singleton].
      intros h' Hin ->%list_elem_of_singleton. apply Hret in Hin as (pe' & Hpe' & Hfd). congruence.
    + intros h' Hpe. apply Hfr. destruct (decide (h' = h)) as [->|Hhh]; [by eauto|]. by rewrite lookup_insert_ne in Hpe.
  - intros h' pe' Hpe'. simpl. destruct (decide (h' = h)) as [->|Hhh].
    + rewrite lookup_insert_eq. eexists. split; [done|]. assert (pe' = pe) as -> by congruence. by auto.
    + rewrite lookup_insert_ne by done. eauto.
Qed.

(** Descriptors come and go. *)
Lemma open_fd_inv e f : poller_inv e -> f <> retired_fd -> poller_inv (open_fd f e).
Proof.
  intros [Hint Hop Hnr] Hf. split; simpl; try done.
  - intros f' Hf'. apply elem_of_union. right. by apply Hop.
  - rewrite not_elem_of_union, not_elem_of_singleton. split; congruence.
Qed.

Lemma close_fd_ok e f :
  poller_inv e -> f ∈ open_fds e -> interest e !! f = None ->
  exists e', close_fd f e = Ok e' /\ poller_inv e' /\ entries e' = entries e /\ open_fds e' = open_fds e ∖ {[f]} /\
    interest e' = interest e /\ retired e' = retired e /\ stopping e' = stopping e /\ timers e' = timers e /\
    next_node e' = next_node e.
Proof.
  intros He Hf Hn. unfold close_fd. rewrite bool_decide_true by done. eexists. split; [done|].
  rewrite delete_id by done. split; [|repeat split; done]. destruct He as [Hint Hop Hnr]. split; simpl; try done; [|intros [? _]%elem_of_difference; done].
  intros f' Hf'. apply elem_of_difference. split; [by apply Hop|]. intros ->%elem_of_singleton. rewrite Hn in Hf'. by destruct Hf'.
Qed.

Lemma stopping_inv e b : poller_inv e -> poller_inv (set_stopping b e).
Proof. intros []. by split. Qed.

(** Timers are inserted in order. *)
Lemma insert_timer_perm t l : insert_timer t l ≡ₚ t :: l.
Proof.
  induction l as [|t' l IH]; simpl; [done|]. destruct (_ <? _); [done|]. rewrite IH. apply Permutation_swap.
Qed.

Lemma insert_timer_sorted t l : StronglySorted timer_le l -> StronglySorted timer_le (insert_timer t l).
Proof.
  induction 1 as [|t' l Hs IH Hall]; simpl; [by repeat constructor|].
  destruct (Z.ltb_spec (expiration t) (expiration t')).
  - constructor; [by constructor|]. constructor; [unfold timer_le; lia|].
    eapply Forall_impl; [done|]. unfold timer_le. intros x Hx. simpl in Hx. lia.
  - constructor; [done|]. rewrite insert_timer_perm. constructor; [unfold timer_le; lia | done].
Qed.

(** A timer that expires later does not come before the first one. *)
Lemma insert_timer_head t t0 l :
  expiration t0 <= expiration t -> insert_timer t (t0 :: l) = t0 :: insert_timer t l.
Proof. intros H. simpl. by rewrite (proj2 (Z.ltb_ge _ _)). Qed.

Lemma timers_inv e l n :
  poller_inv e -> StronglySorted timer_le l -> NoDup (node <$> l) -> (forall t, t ∈ l -> node t < n) ->
  poller_inv (mkepoll (entries e) (next_entry e) (open_fds e) (interest e) (retired e) (stopping e) l n).
Proof. intros []. by split. Qed.

Lemma add_timer_inv e now timeout_ k id_ : poller_inv e -> poller_inv (add_timer e now timeout_ k id_).
Proof.
  intros He. apply timers_inv; [done|..]; destruct He as [_ _ _ _ _ _ Hso Hno Hnf].
  - by apply insert_timer_sorted.
  - rewrite insert_timer_perm. simpl. constructor; [|done]. intros (t & Ht & Hin)%list_elem_of_fmap.
    pose proof (Hnf t Hin). lia.
  - intros t. rewrite insert_timer_perm. intros [->|Hin]%elem_of_cons; simpl; [lia|]. pose proof (Hnf t Hin). lia.
Qed.

(** Some of the timers are removed. *)
Lemma sublist_timers l l' :
  l `sublist_of` l' -> StronglySorted timer_le l' -> NoDup (node <$> l') ->
  StronglySorted timer_le l /\ NoDup (node <$> l).
Proof.
  induction 1 as [|x l1 l2 Hsub IH|x l1 l2 Hsub IH]; intros Hso Hno; [done|..];
    apply StronglySorted_inv in Hso as [Hso Hall]; simpl in Hno; apply NoDup_cons in Hno as [Hx Hno];
    destruct (IH Hso Hno) as [IH1 IH2]; [|done].
  split.
  - constructor; [done|]. rewrite Forall_forall in *. intros y Hy. apply Hall. by eapply elem_of_sublist.
  - simpl. constructor; [|done]. intros (y & Hy & Hin)%list_elem_of_fmap. apply Hx, list_elem_of_fmap.
    exists y. split; [done|]. by eapply elem_of_sublist.
Qed.

Lemma set_timers_inv e l : poller_inv e -> l `sublist_of` timers e -> poller_inv (set_timers l e).
Proof.
  intros He Hsub. apply timers_inv; [done|..]; destruct He as [_ _ _ _ _ _ Hso Hno Hnf];
    try by destruct (sublist_timers _ _ Hsub Hso Hno).
  intros t Ht. apply Hnf. by eapply elem_of_sublist.
Qed.

Lemma erase_inv e n : poller_inv e -> poller_inv (erase n e).
Proof. intros He. apply set_timers_inv; [done|]. apply sublist_filter. Qed.

(** The first timer under its own address. *)
Lemma at_node_head t l : at_node (node t) (t :: l) = Ok t.
Proof. unfold at_node. by rewrite filter_cons_True. Qed.

Lemma next_of_head t l : next_of (node t) (t :: l) = Ok (node <$> head l).
Proof. simpl. by rewrite Z.eqb_refl. Qed.

Lemma erase_head e t l : poller_inv e -> timers e = t :: l -> timers (erase (node t) e) = l.
Proof.
  intros He Ht. unfold erase. simpl. rewrite Ht, filter_cons_False by (intros H; by apply H).
  destruct He as [_ _ _ _ _ _ _ Hno _]. rewrite Ht in Hno. simpl in Hno. apply NoDup_cons in Hno as [Hn _].
  clear Ht. induction l as [|x l IH]; [done|]. simpl in Hn. apply not_elem_of_cons in Hn as [H1 H2].
  rewrite filter_cons_True by congruence. f_equal. by apply IH.
Qed.

(** [cancel_timer] of a timer that is set. *)
Lemma remove_timer_Some k id_ l t :
  t ∈ l -> t_sink t = k -> t_id t = id_ ->
  exists l', remove_timer k id_ l = Some l' /\ l' `sublist_of` l /\
    exists t', t_sink t' = k /\ t_id t' = id_ /\ l ≡ₚ t' :: l'.
Proof.
  intros Hin Hs Hi. induction l as [|x l IH]; [by apply elem_of_nil in Hin|]. simpl.
  destruct (bool_decide (t_sink x = k) && (t_id x =? id_)) eqn:E.
  - exists l. split; [done|]. split; [by constructor|]. exists x.
    apply andb_true_iff in E as [?%bool_decide_eq_true ?%Z.eqb_eq]. done.
  - apply elem_of_cons in Hin as [->|Hin].
    + by rewrite bool_decide_true, (proj2 (Z.eqb_eq _ _)) in E.
    + destruct (IH Hin) as (l' & Hl' & Hsub & t' & ? & ? & Hperm). rewrite Hl'. simpl. exists (x :: l').
      split; [done|]. split; [by constructor|]. exists t'. split; [done|]. split; [done|].
      rewrite Hperm. apply Permutation_swap.
Qed.

Lemma cancel_timer_ok e k id_ t :
  poller_inv e -> t ∈ timers e -> t_sink t = k -> t_id t = id_ ->
  exists e' t', cancel_timer e k id_ = Ok e' /\ poller_inv e' /\ t_sink t' = k /\ t_id t' = id_ /\
    timers e ≡ₚ t' :: timers e' /\ entries e' = entries e /\ interest e' = interest e /\ open_fds e' = open_fds e.
Proof.
  intros He Hin Hs Hi. destruct (remove_timer_Some k id_ (timers e) t Hin Hs Hi) as (l & Hl & Hsub & t' & Ht1 & Ht2 & Hp).
  unfold cancel_timer. rewrite Hl. exists (set_timers l e), t'. split; [done|]. split; [|by repeat split].
  by apply set_timers_inv.
Qed.

(** The retired entries are deleted, each once. *)
Lemma delete_entries_ok rs e :
  NoDup rs -> (forall h, h ∈ rs -> is_Some (entries e !! h)) ->
  foldM delete_entry rs e = Ok (set_entries (filter (fun x => x.1 ∉ rs) (entries e)) e).
Proof.
  intros Hnd. revert e. induction Hnd as [|h rs Hh Hnd IH]; intros e Hall; simpl.
  - f_equal. destruct e as [en]. unfold set_entries. simpl. f_equal. symmetry. apply map_filter_id. intros; apply not_elem_of_nil.
  - destruct (Hall h (list_elem_of_here _ _)) as [pe Hpe].
    assert (delete_entry e h = Ok (set_entries (delete h (entries e)) e)) as -> by (unfold delete_entry, deref; by rewrite Hpe).
    cbn [mbind result_bind]. rewrite IH.
    + f_equal. unfold set_entries. simpl. f_equal. apply map_eq. intros i. apply option_eq. intros x.
      rewrite !map_lookup_filter_Some. simpl. rewrite lookup_delete_Some, not_elem_of_cons. intuition congruence.
    + intros h' Hin. simpl. rewrite lookup_delete_ne by (intros ->; done). apply Hall. by apply list_elem_of_further.
Qed.

Lemma free_retired_ok e :
  poller_inv e -> exists e', free_retired e = Ok e' /\ poller_inv e' /\
    entries e' = filter (fun x => fd x.2 <> retired_fd) (entries e) /\ open_fds e' = open_fds e /\
    interest e' = interest e /\ retired e' = [] /\ stopping e' = stopping e /\ timers e' = timers e /\
    next_node e' = next_node e.
Proof.
  intros He. pose proof He as [Hint Hop Hnr Hret Hnd Hfr Hso Hno Hnf]. unfold free_retired.
  rewrite delete_entries_ok; [|done|intros h (pe & Hpe & _)%Hret; eauto]. cbn [mbind result_bind].
  assert (filter (fun x => x.1 ∉ retired e) (entries e) = filter (fun x => fd x.2 <> retired_fd) (entries e)) as E.
  { apply map_filter_ext. intros h pe Hpe. simpl. rewrite Hret. split; [intros Hn Hf; apply Hn; eauto|].
    intros Hf (pe' & Hpe' & Hf'). congruence. }
  eexists. split; [done|]. split; [|repeat split; done]. rewrite E. split; simpl; try done; try (by constructor).
  - intros f m h. rewrite Hint. apply and_iff_compat_l_weak. intros Hf.
    split; intros (pe & Hpe & Hfd & Hev); exists pe.
    + rewrite map_lookup_filter_Some. simpl. intuition congruence.
    + by apply map_lookup_filter_Some in Hpe as [Hpe _].
  - intros h. split; [by intros ?%elem_of_nil|]. intros (pe & Hpe & Hf). by apply map_lookup_filter_Some in Hpe as [_ ?].
  - intros h [pe Hpe]. apply Hfr. apply map_lookup_filter_Some in Hpe as [? _]. eauto.
Qed.

End Invariant.

(** ** What the loop relies on, and what it guarantees *)

(** The contract of the event handlers: an invariant [Inv] of the poller and the
    state behind the handlers, kept by every call on a live entry, by the
    deletion of retired entries and by time passing.  A handler deletes no
    entry.  A timer handler runs while its timer is still the first of the map;
    it sets timers that are not due yet and cancels only others.  [clock] is the
    last time read. *)
Class PollEventsSpec (K W : Type) `{!EqDecision K} `{!PollEvents K W} := {
  Inv : epoll_t K -> W -> Prop;
  clock : W -> Z;
  wants_out : K -> bool;
  spec_poller e w : Inv e w -> poller_inv e;
  spec_now e w : Inv e w -> clock w <= (now_ms w).1 /\ clock (now_ms w).2 = (now_ms w).1 /\ Inv e (now_ms w).2;
  spec_out_mask e w h pe : Inv e w -> entries e !! h = Some pe -> Z.land (ev_events pe) EPOLLOUT <> 0 -> wants_out (sink pe) = true;
  spec_stop e w b : Inv e w -> Inv (set_stopping b e) w;
  spec_free e e' w : Inv e w -> free_retired e = Ok e' -> Inv e' w;
  spec_in e w h pe : Inv e w -> entries e !! h = Some pe -> fd pe <> retired_fd ->
    exists e' w' b, in_event (sink pe) (e, w) = Ok (e', w', b) /\ Inv e' w' /\ keeps e e' /\ clock w <= clock w';
  spec_out e w h pe : Inv e w -> entries e !! h = Some pe -> fd pe <> retired_fd -> wants_out (sink pe) = true ->
    exists e' w' b, out_event (sink pe) (e, w) = Ok (e', w', b) /\ Inv e' w' /\ keeps e e' /\ clock w <= clock w';
  spec_timer e w t l : Inv e w -> timers e = t :: l -> expiration t <= clock w ->
    exists e' w' l', timer_event (t_sink t) (t_id t) (e, w) = Ok (e', w') /\ Inv (erase (node t) e') w' /\ keeps e e' /\
      poller_inv e' /\ clock w <= clock w' /\ timers e' = t :: l' /\
      (forall x, x ∈ l' -> x ∈ l \/ clock w < expiration x)
}.

Section Guarantees.
Context {K W : Type} `{!EqDecision K} `{!PollEvents K W} `{!PollEventsSpec K W}.
Implicit Types (e : epoll_t K) (w : W).

(** The timers that are due at [current]. *)
Definition due (current : Z) (l : list (timer_t K)) : list (timer_t K) := filter (fun t => expiration t <= current) l.

Lemma due_not_later current l l' :
  (forall x, x ∈ l' -> x ∈ l \/ current < expiration x) -> NoDup l' -> (length (due current l') <= length (due current l))%nat.
Proof.
  intros H Hnd. apply submseteq_length, NoDup_submseteq; [by apply NoDup_filter|].
  intros x [Hx Hin]%list_elem_of_filter. apply list_elem_of_filter. split; [done|]. destruct (H x Hin); [done|lia].
Qed.

Lemma timers_nodup e : poller_inv e -> NoDup (timers e).
Proof. intros He. apply (NoDup_fmap_1 node), He. Qed.

Lemma first_is_due_first e t l current :
  poller_inv e -> timers e = t :: l -> current < expiration t -> forall x, x ∈ timers e -> current < expiration x.
Proof.
  intros He Ht Hlt x. rewrite Ht. intros [->|Hx]%elem_of_cons; [done|]. pose proof (pi_sorted e He) as Hso.
  rewrite Ht in Hso. apply StronglySorted_inv in Hso as [_ Hall]. rewrite Forall_forall in Hall.
  pose proof (Hall x Hx). unfold timer_le in *. lia.
Qed.

(** The time to the first timer. *)
Definition time_to_first (current : Z) (l : list (timer_t K)) : Z :=
  match l with [] => 0 | t :: _ => u64 (expiration t - current) end.

(** The loop of [execute_timers] returns, with as many turns as timers are due. *)
Lemma timers_loop_ok fuel current e w :
  Inv e w -> current <= clock w -> (length (due current (timers e)) < fuel)%nat ->
  exists e' w', timers_loop fuel current (node <$> head (timers e)) (e, w) = Ok (e', w', time_to_first current (timers e')) /\
    Inv e' w' /\ keeps e e' /\ clock w <= clock w' /\ forall t, t ∈ timers e' -> current < expiration t.
Proof.
  revert e w. induction fuel as [|fuel IH]; intros e w HI Hc Hf; [lia|]. pose proof (spec_poller e w HI) as He.
  destruct (timers e) as [|t l] eqn:Ht.
  - exists e, w. rewrite Ht. split; [done|]. split; [done|]. split; [done|]. split; [done|]. by intros t ?%elem_of_nil.
  - cbn [fmap option_fmap option_map head timers_loop]. cbn [fst]. rewrite Ht, at_node_head. cbn [mbind result_bind].
    destruct (Z.ltb_spec current (expiration t)) as [Hlt|Hle].
    + exists e, w. rewrite Ht. split; [done|]. split; [done|]. split; [done|]. split; [done|].
      rewrite <- Ht. by eapply first_is_due_first.
    + destruct (spec_timer e w t l HI Ht ltac:(lia)) as (e1 & w1 & l' & -> & HI1 & Hk1 & Hp1 & Hc1 & Ht1 & Hl').
      cbn [mbind result_bind]. rewrite Ht1, next_of_head. cbn [mbind result_bind].
      pose proof (erase_head e1 t l' Hp1 Ht1) as Her.
      destruct (IH (erase (node t) e1) w1 HI1 ltac:(lia)) as (e' & w' & Hrun & HI' & Hk' & Hc' & Hall).
      { rewrite Her. pose proof (timers_nodup e1 Hp1) as Hnd. rewrite Ht1 in Hnd. apply NoDup_cons in Hnd as [_ Hnd].
        assert (length (due current l') <= length (due current l))%nat.
        { apply due_not_later; [|done]. intros x Hx. destruct (Hl' x Hx); [by left|right; lia]. }
        unfold due in Hf. rewrite filter_cons_True in Hf by done. simpl in Hf. unfold due in *. lia. }
      rewrite Her in Hrun. exists e', w'. split; [done|]. split; [done|]. split; [|split; [lia|done]].
      transitivity e1; [done|]. intros h pe Hpe. by apply Hk'.
Qed.

Lemma execute_timers_ok e w :
  Inv e w -> exists e' w' current,
    execute_timers (S (length (timers e))) (e, w) = Ok (e', w', time_to_first current (timers e')) /\
    Inv e' w' /\ keeps e e' /\ clock w <= current <= clock w' /\ forall t, t ∈ timers e' -> current < expiration t.
Proof.
  intros HI. unfold execute_timers. cbn [fst snd]. destruct (timers e) as [|t l] eqn:Ht.
  - exists e, w, (clock w). rewrite Ht. split; [done|]. split; [done|]. split; [done|]. split; [lia|]. by intros t ?%elem_of_nil.
  - destruct (spec_now e w HI) as (Hle & Hc & HI'). destruct (now_ms w) as [current w0]. cbn [fst snd] in *.
    destruct (timers_loop_ok (S (length (timers e))) current e w0 HI' ltac:(lia)) as (e' & w' & Hrun & HI2 & Hk & Hc2 & Hall).
    { unfold due. pose proof (length_filter (fun x => expiration x <= current) (timers e)). lia. }
    rewrite Ht in Hrun. exists e', w', current. split; [done|]. split; [done|]. split; [done|]. split; [lia|done].
Qed.

(** A handler that keeps the invariant on live entries whose sink satisfies
    [Q]. *)
Definition handler_ok (Q : K -> Prop) (handler : K -> epoll_t K * W -> result (epoll_t K * W * bool)) : Prop :=
  forall e w h pe, Inv e w -> entries e !! h = Some pe -> fd pe <> retired_fd -> Q (sink pe) ->
    exists e' w' b, handler (sink pe) (e, w) = Ok (e', w', b) /\ Inv e' w' /\ keeps e e' /\ clock w <= clock w'.

Lemma fire_ok Q handler bits ev h e w pe :
  handler_ok Q handler -> Inv e w -> entries e !! h = Some pe -> (Z.land ev bits <> 0 -> Q (sink pe)) ->
  exists e' w', fire bits ev h handler (e, w) = Ok (e', w') /\ Inv e' w' /\ keeps e e' /\ clock w <= clock w'.
Proof.
  intros Hh HI Hpe HQ. unfold fire, deref. cbn [fst]. rewrite Hpe. cbn [mbind result_bind].
  destruct (Z.eqb_spec (fd pe) retired_fd) as [Hr|Hr]; [by exists e, w|].
  destruct (Z.eqb_spec (Z.land ev bits) 0) as [Hz|Hz]; [by exists e, w|].
  destruct (Hh e w h pe HI Hpe Hr (HQ Hz)) as (e' & w' & b & -> & HI' & Hk & Hc). cbn [mbind result_bind].
  exists (set_stopping (stopping e' || b) e'), w'. split; [done|]. split; [by apply spec_stop|]. split; [|done]. exact Hk.
Qed.

(** An event that waits to be dispatched. *)
Definition pending (ev : Z * Z) e : Prop :=
  exists pe, entries e !! ev.2 = Some pe /\ (Z.land ev.1 EPOLLOUT <> 0 -> wants_out (sink pe) = true).

Lemma pending_keeps ev e e' : pending ev e -> keeps e e' -> pending ev e'.
Proof. intros (pe & Hpe & Hw) Hk. destruct (Hk _ _ Hpe) as (pe' & Hpe' & Hs & _). exists pe'. by rewrite Hs. Qed.

Lemma dispatch_ok e w ev :
  Inv e w -> pending ev e ->
  exists e' w', dispatch (e, w) ev = Ok (e', w') /\ Inv e' w' /\ keeps e e' /\ clock w <= clock w'.
Proof.
  intros HI Hp. unfold dispatch.
  assert (handler_ok (fun _ => True) in_event) as Hin by (intros ???? HI0 Hpe Hf _; by eapply spec_in).
  assert (handler_ok (fun k => wants_out k = true) out_event) as Hout by (intros ???? HI0 Hpe Hf HQ; by eapply spec_out).
  destruct Hp as (pe & Hpe & Hw).
  destruct (fire_ok _ _ (Z.lor EPOLLERR EPOLLHUP) ev.1 ev.2 e w pe Hin HI Hpe (fun _ => I)) as (e1 & w1 & -> & HI1 & Hk1 & Hc1).
  cbn [mbind result_bind]. destruct (Hk1 _ _ Hpe) as (pe1 & Hpe1 & Hs1 & _).
  destruct (fire_ok _ _ EPOLLOUT ev.1 ev.2 e1 w1 pe1 Hout HI1 Hpe1 ltac:(by rewrite Hs1)) as (e2 & w2 & -> & HI2 & Hk2 & Hc2).
  cbn [mbind result_bind]. destruct (Hk2 _ _ Hpe1) as (pe2 & Hpe2 & Hs2 & _).
  destruct (fire_ok _ _ EPOLLIN ev.1 ev.2 e2 w2 pe2 Hin HI2 Hpe2 (fun _ => I)) as (e3 & w3 & -> & HI3 & Hk3 & Hc3).
  exists e3, w3. split; [done|]. split; [done|]. split; [by etrans; [etrans|]|lia].
Qed.

Lemma dispatch_all_ok evs e w :
  Inv e w -> Forall (fun ev => pending ev e) evs ->
  exists e' w', foldM dispatch evs (e, w) = Ok (e', w') /\ Inv e' w' /\ keeps e e' /\ clock w <= clock w'.
Proof.
  revert e w. induction evs as [|ev evs IH]; intros e w HI Hall; [by exists e, w|].
  apply Forall_cons in Hall as [Hev Hall]. destruct (dispatch_ok e w ev HI Hev) as (e1 & w1 & Hd & HI1 & Hk1 & Hc1).
  cbn [foldM]. rewrite Hd. cbn [mbind result_bind].
  destruct (IH e1 w1 HI1) as (e2 & w2 & -> & HI2 & Hk2 & Hc2).
  { eapply Forall_impl; [done|]. intros x Hx. by apply (pending_keeps x e). }
  exists e2, w2. split; [done|]. split; [done|]. split; [by etrans|lia].
Qed.

(** A bit of [EPOLLOUT] in a legal event was asked for. *)
Lemma land_bit2 x : Z.land x EPOLLOUT <> 0 <-> Z.testbit x 2 = true.
Proof.
  change EPOLLOUT with (2 ^ 2). split.
  - intros H. destruct (Z.testbit x 2) eqn:E; [done|]. exfalso. apply H. apply Z.bits_inj'. intros n Hn.
    rewrite Z.land_spec, Z.testbit_0_l, Z.pow2_bits_eqb by lia. destruct (Z.eqb_spec 2 n) as [<-|]; [by rewrite E|apply andb_false_r].
  - intros H E. apply (f_equal (fun y => Z.testbit y 2)) in E. rewrite Z.land_spec, H, Z.testbit_0_l in E. done.
Qed.

Lemma legal_pending evs e w : Inv e w -> legal_events evs e -> Forall (fun ev => pending ev e) evs.
Proof.
  intros HI [_ Hall]. eapply Forall_impl; [done|]. intros ev (f & m & Hi & Hm). pose proof (spec_poller e w HI) as He.
  apply (pi_interest e He) in Hi as (_ & pe & Hpe & _ & Hev). exists pe. split; [done|]. intros Hout.
  eapply spec_out_mask; [done..|]. rewrite Hev. apply land_bit2 in Hout. apply land_bit2.
  apply (f_equal (fun y => Z.testbit y 2)) in Hm. rewrite Z.land_spec, Z.lnot_spec, Z.lor_spec, Hout, Z.testbit_0_l in Hm by lia.
  destruct (Z.testbit m 2); [done|]. by vm_compute in Hm.
Qed.

Lemma after_wait_ok evs e w :
  Inv e w -> (forall l, evs = Some l -> legal_events l e) ->
  exists e' w', after_wait evs (e, w) = Ok (e', w') /\ Inv e' w'.
Proof.
  intros HI Hl. destruct evs as [evs|]; simpl; [|by exists e, w].
  destruct (dispatch_all_ok evs e w HI) as (e1 & w1 & -> & HI1 & _); [eapply legal_pending; eauto|]. cbn [mbind result_bind].
  destruct (free_retired_ok e1 (spec_poller _ _ HI1)) as (e2 & Hf & _). rewrite Hf. cbn [mbind result_bind].
  exists e2, w1. split; [done|]. by eapply spec_free.
Qed.

Lemma loop_step_ok st o : Inv st.1 st.2 -> loop_step st o -> exists st', o = Ok st' /\ Inv st'.1 st'.2.
Proof.
  intros HI Hs. inversion Hs as [st0 err Hst Hf|st0 [e1 w1] wait evs Hst Hf Hl]; subst; destruct st as [e w]; cbn [fst snd] in *;
    destruct (execute_timers_ok e w HI) as (e2 & w2 & cur & Hx & HI1 & _); rewrite Hx in Hf; [done|].
  injection Hf as -> -> _. destruct (after_wait_ok evs e1 w1 HI1 Hl) as (e' & w' & -> & HI'). by exists (e', w').
Qed.

Lemma loop_reaches_inv st st' : loop_reaches st st' -> Inv st.1 st.2 -> Inv st'.1 st'.2.
Proof.
  induction 1 as [|st st1 st2 Hs _ IH]; intros HI; [done|]. apply IH.
  destruct (loop_step_ok st (Ok st1) HI Hs) as (st' & [= <-] & HI'). done.
Qed.

End Guarantees.

End Poller.
