(* ===== verification/Listener.v ===== *)
(** The listening socket of a worker ([src/net/tcp_listener.cpp] and [.hpp]):
    binding it, accepting connections through the address filters of the
    options, and handing each one to an engine with the callback of the worker
    that connected. *)
From Stdlib Require Import String ZArith Lia.
From stdpp Require Import base gmap list.
From S2P Require Import Prelude TcpAddress Poller Options.
Import Addr Poller Options.

Module Listener.

(** The errors [accept] tolerates: [EAGAIN], [EINTR], [ECONNABORTED], [EPROTO],
    [ENOBUFS], [ENOMEM], [EMFILE] and [ENFILE]. *)
Definition accept_tolerated : list Z := [11; 4; 103; 71; 105; 12; 24; 23].

Section Listener.
Context {K : Type} `{!EqDecision K}.
Abbreviation epoll := (epoll_t K).

(** What the kernel answers to [accept]: an error, or a descriptor with the
    address of the peer. *)
Inductive accept_answer := AcceptError (errno : Z) | Accepted (fd : Z) (ss : sockaddr) (ss_len : Z).

(** The loop over the filters. *)
Fixpoint match_any (filters : list tcp_address_mask_t) (ss : sockaddr) (ss_len : Z) : result bool :=
  match filters with
  | [] => Ok false
  | m :: filters' =>
      b ← match_address m (Some ss) ss_len;
      if b : bool then Ok true else match_any filters' ss ss_len
  end.

Definition accept (options : options_t) (s : Z) (e : epoll) (a : accept_answer) : result (epoll * Z) :=
  _ ← afs_assert (negb (s =? retired_fd));
  match a with
  | AcceptError errno => _ ← afs_assert (bool_decide (errno ∈ accept_tolerated)); Ok (e, retired_fd)
  | Accepted sock ss ss_len =>
      let e1 := open_fd sock e in
      match tcp_accept_filters options with
      | [] => Ok (e1, sock)
      | filters =>
          matched ← match_any filters ss ss_len;
          if matched : bool then Ok (e1, sock)
          else e2 ← close_fd sock e1; Ok (e2, retired_fd)
      end
  end.

(** [in_event]: the connection and the callback its engine gets, or nothing.
    [peer_worker] is the worker id read from the connection; [None] when it never
    arrives and the loop spins.  [callbacks] is [out_callbacks_], if there is
    one. *)
Definition in_event {C} (options : options_t) (s : Z) (callbacks : option (list C)) (e : epoll) (a : accept_answer)
    (peer_worker : option Z) : result (epoll * option (Z * option C)) :=
  '(e1, f) ← accept options s e a;
  if f =? retired_fd then Ok (e1, None)
  else match peer_worker with
  | None => Stop WouldBlock
  | Some w =>
      match callbacks with
      | None => Ok (e1, Some (f, None))
      | Some cbs => cb ← at_index cbs w; Ok (e1, Some (f, Some cb))
      end
  end.

(** ** Binding the socket *)

(** The outcome of the system calls of [set_address]: the descriptor of
    [open_socket] or -1, whether [errno] is [EAFNOSUPPORT] after it (it is not
    reset before), the descriptor of the second [socket], and whether [bind] and
    [listen] succeed. *)
Record bind_answers := mkbind { b_socket : Z; b_afnosupport : bool; b_socket2 : Z; b_bind : bool; b_listen : bool }.

(** [close]: the listener's descriptor. *)
Definition close (e : epoll) (s : Z) : result epoll :=
  _ ← afs_assert (negb (s =? retired_fd)); close_fd s e.

(** The kernel's [socket]: the descriptor is open unless it is -1. *)
Definition socket (e : epoll) (f : Z) : epoll := if f =? -1 then e else open_fd f e.

(** [bind] and [listen] on the descriptor, or [close] on an error. *)
Definition bind_and_listen (e : epoll) (f : Z) (b : bind_answers) : result (epoll * Z * bool) :=
  if f =? -1 then Ok (e, f, false)
  else if b_bind b && b_listen b then Ok (e, f, true)
  else e1 ← close e f; Ok (e1, retired_fd, false).

(** [set_address (addr_)]: the address, the listener's descriptor and whether the
    call returned 0. *)
Definition set_address (getifaddrs : list (cstr * option sockaddr)) (getaddrinfo : cstr -> Z -> Z -> addrinfo)
    (options : options_t) (e : epoll) (s : Z) (a : sockaddr) (addr_ : cstr) (b : bind_answers)
    : result (epoll * sockaddr * Z * bool) :=
  '(a1, r) ← resolve getifaddrs getaddrinfo a addr_ true (ipv6 options);
  match r : rc with
  | RC0 =>
      let e1 := socket e (b_socket b) in
      if (sa_family a1 =? AF_INET6) && b_afnosupport b && ipv6 options then
        '(a2, r2) ← resolve getifaddrs getaddrinfo a1 addr_ true true;
        match r2 : rc with
        | RC0 => '(e', s', ok) ← bind_and_listen (socket e1 (b_socket2 b)) (b_socket2 b) b; Ok (e', a2, s', ok)
        | _ => Ok (e1, a2, b_socket b, false)
        end
      else '(e', s', ok) ← bind_and_listen e1 (b_socket b) b; Ok (e', a1, s', ok)
  | _ => Ok (e, a1, s, false)
  end.

(** [process_term]: the listener leaves the poller and is closed. *)
Definition process_term (e : epoll) (handle s : Z) : result epoll :=
  e1 ← rm_fd e handle; close e1 s.

(** [get_address]: the text of the local address [getsockname] gives, or its
    error code. *)
Definition get_address (getnameinfo : sockaddr -> Z + cstr) (getsockname : Z + sockaddr * Z) : result (rc * cstr) :=
  match getsockname with
  | inl code => Ok (RCOther code, [])
  | inr (ss, sl) => a ← tcp_address_of (Some ss) sl; Ok (to_string getnameinfo a)
  end.

(** ** Filters decide who is accepted *)

(** The peer's address as the kernel gives it. *)
Definition peer_ok (ss : sockaddr) (ss_len : Z) : Prop :=
  Forall is_byte ss /\ ss_len = addrlen ss /\ ss_len <= Z.of_nat (length ss).

(** The filters admit an address: there are none, or it is in the network of
    one. *)
Definition admitted (options : options_t) (ss : sockaddr) : Prop :=
  tcp_accept_filters options = [] \/ exists m, m ∈ tcp_accept_filters options /\ in_network m ss.

Lemma match_any_ok filters ss ss_len :
  Forall mask_ok filters -> peer_ok ss ss_len ->
  exists b, match_any filters ss ss_len = Ok b /\ (b = true <-> exists m, m ∈ filters /\ in_network m ss).
Proof.
  intros Hf (Hb & Hlen & Hss). induction Hf as [|m filters (Hm1 & Hm2 & Hm3) Hf IH].
  - exists false. split; [done|]. split; [done|]. by intros (m & ?%elem_of_nil & _).
  - destruct IH as (b & IH & Hiff). cbn [match_any].
    destruct (match_address_spec m ss ss_len Hm1 Hm2 ltac:(lia) Hb Hlen Hss) as (b' & -> & Hb'). cbn [mbind result_bind].
    setoid_rewrite elem_of_cons. destruct b'.
    + exists true. split; [done|]. split; [|done]. intros _. exists m. split; [by left|]. by apply Hb'.
    + exists b. split; [done|]. rewrite Hiff. split; intros (m' & Hin & Hnet); exists m'; (split; [|done]); [by right|].
      destruct Hin as [->|?]; [|done]. by apply Hb' in Hnet.
Qed.

Lemma accept_filtered options s e sock ss ss_len :
  options_ok options -> s <> retired_fd -> sock <> retired_fd -> sock ∉ open_fds e -> interest e !! sock = None -> peer_ok ss ss_len ->
  exists e' f, accept options s e (Accepted sock ss ss_len) = Ok (e', f) /\
    (admitted options ss /\ f = sock /\ e' = open_fd sock e \/ ~ admitted options ss /\ f = retired_fd /\ e' = e).
Proof.
  intros Ho Hs Hsock Hnew Hint Hpeer. unfold accept. rewrite (proj2 (Z.eqb_neq s retired_fd)) by done. cbn [mbind result_bind afs_assert negb].
  pose proof (ok_filters options Ho) as Hf. unfold admitted. destruct (tcp_accept_filters options) as [|m fs].
  - exists (open_fd sock e), sock. split; [done|]. left. split; [by left|done].
  - destruct (match_any_ok (m :: fs) ss ss_len Hf Hpeer) as (b & Hb & Hiff). rewrite Hb. cbn [mbind result_bind]. destruct b.
    + exists (open_fd sock e), sock. split; [done|]. left. split; [right; by apply Hiff|done].
    + unfold close_fd. simpl. rewrite bool_decide_true by (apply elem_of_union; left; by apply elem_of_singleton). cbn [mbind result_bind].
      eexists _, retired_fd. split; [done|]. right. split; [by intros [?|Hex]; [|apply Hiff in Hex]|].
      split; [done|]. destruct e as [en ne op itr rt sp tm nn]. unfold set_kernel. simpl in *. f_equal.
      * apply leibniz_equiv. intros x. rewrite elem_of_difference, elem_of_union, elem_of_singleton.
        split; [intros [[|] ?]; done|]. intros Hx. split; [by right|]. intros ->. done.
      * by apply delete_id.
Qed.

(** A connection is accepted exactly when the filters admit the peer: with
    well-formed options, a new descriptor and the peer's address as the kernel
    gives it, [accept] returns; it returns the descriptor, open, when no filter is
    set or the address is in the network of one, and otherwise closes it and
    leaves the poller as it was. *)
Theorem accept_obeys_filters options s e sock ss ss_len :
  options_ok options -> s <> retired_fd -> sock <> retired_fd -> sock ∉ open_fds e -> interest e !! sock = None -> peer_ok ss ss_len ->
  exists e' f, accept options s e (Accepted sock ss ss_len) = Ok (e', f) /\
    (admitted options ss -> f = sock /\ e' = open_fd sock e) /\
    (~ admitted options ss -> f = retired_fd /\ e' = e).
Proof.
  intros Ho Hs Hsock Hnew Hint Hpeer.
  destruct (accept_filtered options s e sock ss ss_len Ho Hs Hsock Hnew Hint Hpeer) as (e' & f & Hrun & [(H1 & H2)|(H1 & H2)]);
    exists e', f; (split; [exact Hrun|]); by split.
Qed.

End Listener.

(** Options with the filter [10.2.0.0/15]. *)
Definition filtered_options : options_t := set_tcp_accept_filters [sample_mask] new_options.

Lemma filtered_options_ok : options_ok filtered_options.
Proof.
  destruct new_options_ok. split; simpl; auto. repeat constructor; simpl; unfold is_byte; try lia; vm_compute; congruence.
Qed.

Lemma accept_obeys_filters_witness :
  exists e' f, accept filtered_options 3 (new_epoll (K := Z) {[3]}) (Accepted 4 sample_peer 16) = Ok (e', f) /\
    (admitted filtered_options sample_peer -> f = 4 /\ e' = open_fd 4 (new_epoll {[3]})) /\
    (~ admitted filtered_options sample_peer -> f = retired_fd /\ e' = new_epoll {[3]}).
Proof.
  apply (accept_obeys_filters filtered_options 3 (new_epoll {[3]}) 4 sample_peer 16).
  - exact filtered_options_ok.
  - discriminate.
  - discriminate.
  - simpl. rewrite elem_of_singleton. lia.
  - reflexivity.
  - split; [repeat constructor; unfold is_byte; lia|]. split; [reflexivity|]. vm_compute. discriminate.
Defined.

(** The worker id a peer sends is an index that is not checked. *)
Lemma unknown_peer_out_of_bounds :
  in_event new_options 3 (Some [0; 1]) (new_epoll (K := Z) {[3]}) (Accepted 4 sample_peer 16) (Some 2) = Stop OutOfBounds.
Proof. vm_compute. reflexivity. Qed.

(** When IPv6 is not supported, the second attempt resolves an IPv6 address
    again. *)
Lemma no_downgrade_to_ipv4 :
  exists e a s, set_address [] (fun _ _ _ => EAI 0) (set_ipv6 true new_options) (new_epoll (K := Z) ∅) retired_fd
    new_tcp_address (lit "*:5555"%string) (mkbind (-1) true 5 true true) = Ok (e, a, s, true) /\ sa_family a = AF_INET6.
Proof. eexists _, _, _. split; vm_compute; reflexivity. Qed.

End Listener.
