(* ===== verification/Connecter.v ===== *)
(** The outgoing connections of a worker ([src/net/tcp_connecter.cpp] and
    [.hpp], [src/net/random.cpp], and the calls of [DownThreadNet::Connect] in
    [src/thread/down_thread_net.hpp] that start them): one connecter per
    destination, all on the poller of the down thread, with their reconnection
    timers.

    The kernel's answers come from an oracle: at each system call, the time, the
    descriptor or error of [socket], the outcome of [connect] and of
    [SO_ERROR], the random numbers.  A stream engine is present here with what
    it does to the poller: its descriptor is registered by [plug], and each
    event leaves it polling for input or output or makes it leave.  The two
    type classes of [Poller] are instantiated, so the guarantees of the event
    loop hold for the connecters. *)
From stdpp Require Import base gmap list relations.
From Stdlib Require Import ZArith Lia.
From S2P Require Import Prelude Poller.
Import Poller.

Module Connecter.

(** Who receives an event. *)
Inductive sink_t := SConn (i : nat) | SEng (j : nat).

#[export] Instance sink_eq_dec : EqDecision sink_t.
Proof. solve_decision. Defined.

Abbreviation epoll := (epoll_t sink_t).

(** What an engine does with its handle during an event: whether it polls for
    input and output afterwards, or removes it, and then whether the descriptor
    is closed (the destructor) or kept; and the flag the handler returns. *)
Record reaction := mkreaction { r_pollin : bool; r_pollout : bool; r_leave : bool; r_close : bool; r_stop : bool }.

(** The answers to one system call. *)
Record answer := mkanswer {
  a_us : Z;                   (* gettimeofday *)
  a_socket : Z;               (* socket: the descriptor or -1 *)
  a_connect : Z;              (* connect: 0 or errno *)
  a_soerror : Z;              (* getsockopt (SO_ERROR): 0 or an error *)
  a_low : Z; a_high : Z;      (* rand, twice *)
  a_send : option nat;        (* the sends that fail before one is complete *)
  a_react : reaction
}.

Definition EINTR : Z := 4.
Definition EINPROGRESS : Z := 115.

(** The errors [connect] tolerates: [ECONNREFUSED], [ECONNRESET], [ETIMEDOUT],
    [EHOSTUNREACH], [ENETUNREACH], [ENETDOWN] and [EINVAL]. *)
Definition tolerated : list Z := [111; 104; 110; 113; 101; 100; 22].

Definition reconnect_timer_id : Z := 1.

Record tcp_connecter_t := mkconnecter {
  worker_id_ : Z;
  s : Z;
  handle : Z;
  handle_valid : bool;
  timer_started : bool;
  current_reconnect_ivl : Z
}.

Record engine := mkengine { e_fd : Z; e_handle : Z; e_plugged : bool; e_owner : nat }.

(** The state behind the handlers: the connecters and the engines, the number
    of system calls made, the last time read, and the worker ids sent, with the
    descriptor. *)
Record world := mkworld {
  connecters : list tcp_connecter_t;
  engines : list engine;
  tick : nat;
  last_ms : Z;
  sent_ids : list (Z * Z)
}.

Definition set_conn (i : nat) (c : tcp_connecter_t) (w : world) : world :=
  mkworld (<[i := c]> (connecters w)) (engines w) (tick w) (last_ms w) (sent_ids w).
Definition set_engines (l : list engine) (w : world) : world :=
  mkworld (connecters w) l (tick w) (last_ms w) (sent_ids w).
Definition log_id (x : Z * Z) (w : world) : world :=
  mkworld (connecters w) (engines w) (tick w) (last_ms w) (sent_ids w ++ [x]).

(** Updates of a connecter's members. *)
Definition with_s (f : Z) (c : tcp_connecter_t) : tcp_connecter_t :=
  mkconnecter (worker_id_ c) f (handle c) (handle_valid c) (timer_started c) (current_reconnect_ivl c).
Definition with_handle (h : Z) (c : tcp_connecter_t) : tcp_connecter_t :=
  mkconnecter (worker_id_ c) (s c) h true (timer_started c) (current_reconnect_ivl c).
Definition no_handle (c : tcp_connecter_t) : tcp_connecter_t :=
  mkconnecter (worker_id_ c) (s c) (handle c) false (timer_started c) (current_reconnect_ivl c).
Definition with_timer (b : bool) (c : tcp_connecter_t) : tcp_connecter_t :=
  mkconnecter (worker_id_ c) (s c) (handle c) (handle_valid c) b (current_reconnect_ivl c).
Definition with_ivl (n : Z) (c : tcp_connecter_t) : tcp_connecter_t :=
  mkconnecter (worker_id_ c) (s c) (handle c) (handle_valid c) (timer_started c) n.

(** [generate_random]: two [rand]s. *)
Definition generate_random (low high : Z) : Z := Z.lor (u32 (Z.shiftl (u32 high) 31)) (u32 low).

Section Connecter.
Context (reconnect_ivl reconnect_ivl_max : Z) (oracle : nat -> answer).

(** The next system call. *)
Definition ask (w : world) : answer * world :=
  (oracle (tick w), mkworld (connecters w) (engines w) (S (tick w)) (last_ms w) (sent_ids w)).

(** The constructor; [handle] is not initialised. *)
Definition new_connecter (worker_id : Z) : tcp_connecter_t :=
  mkconnecter worker_id retired_fd 0 false false reconnect_ivl.

(** [clock_t::now_ms]: the time stamp counter is never available, so the time is
    read and cut to milliseconds. *)
Definition clock_now_ms (w : world) : Z * world :=
  let '(a, w1) := ask w in
  let ms := u64 (a_us a) / 1000 in
  (ms, mkworld (connecters w1) (engines w1) (tick w1) ms (sent_ids w1)).

(** [get_new_reconnect_ivl]: the interval and the connecter.  The sum is
    computed in [unsigned int]. *)
Definition get_new_reconnect_ivl (c : tcp_connecter_t) (random : Z) : result (Z * tcp_connecter_t) :=
  if reconnect_ivl =? 0 then Stop DivByZero
  else
    let this_interval := s32 (u32 (current_reconnect_ivl c) + random mod u32 reconnect_ivl) in
    let c' :=
      if (0 <? reconnect_ivl_max) && (reconnect_ivl <? reconnect_ivl_max) then
        let next := s32 (current_reconnect_ivl c * 2) in
        with_ivl (if reconnect_ivl_max <=? next then reconnect_ivl_max else next) c
      else c in
    Ok (this_interval, c').

(** The member functions of connecter [i]: the poller, the world and the object
    itself. *)
Definition add_reconnect_timer (i : nat) (e : epoll) (w : world) (c : tcp_connecter_t) : result (epoll * world * tcp_connecter_t) :=
  let '(a, w1) := ask w in
  '(rc_ivl, c1) ← get_new_reconnect_ivl c (generate_random (a_low a) (a_high a));
  let '(now, w2) := clock_now_ms w1 in
  Ok (add_timer e now rc_ivl (SConn i) reconnect_timer_id, w2, with_timer true c1).

(** The outcome of [open]: [connect] finished, it is in progress, or failed. *)
Inductive open_rc := OpenDone | OpenInProgress | OpenFailed.

(** A descriptor the kernel can give: not negative, not open yet. *)
Definition new_fd_ok (e : epoll) (f : Z) : bool := (0 <=? f) && negb (bool_decide (f ∈ open_fds e)).

Definition open (e : epoll) (w : world) (c : tcp_connecter_t) : result (epoll * world * tcp_connecter_t * open_rc) :=
  _ ← afs_assert (s c =? retired_fd);
  let '(a, w1) := ask w in
  if negb (new_fd_ok e (a_socket a)) then Ok (e, w1, with_s retired_fd c, OpenFailed)
  else
    let e1 := open_fd (a_socket a) e in
    let c1 := with_s (a_socket a) c in
    let '(a2, w2) := ask w1 in
    Ok (e1, w2, c1,
        if a_connect a2 =? 0 then OpenDone
        else if (a_connect a2 =? EINTR) || (a_connect a2 =? EINPROGRESS) then OpenInProgress else OpenFailed).

(** [connect]: the connected descriptor, or [retired_fd]. *)
Definition connect (w : world) (c : tcp_connecter_t) : result (world * tcp_connecter_t * Z) :=
  let '(a, w1) := ask w in
  if a_soerror a =? 0 then Ok (w1, with_s retired_fd c, s c)
  else
    _ ← afs_assert (bool_decide (a_soerror a ∈ tolerated));
    Ok (w1, c, retired_fd).

(** The loop that sends the worker id: it spins until one [send] takes the four
    bytes. *)
Definition send_worker_id (f : Z) (w : world) (c : tcp_connecter_t) : result world :=
  let '(a, w1) := ask w in
  match a_send a with
  | Some _ => Ok (log_id (f, worker_id_ c) w1)
  | None => Stop WouldBlock
  end.

Definition close (e : epoll) (c : tcp_connecter_t) : result (epoll * tcp_connecter_t) :=
  _ ← afs_assert (negb (s c =? retired_fd));
  e' ← close_fd (s c) e;
  Ok (e', with_s retired_fd c).

Definition terminate (i : nat) (e : epoll) (c : tcp_connecter_t) : result (epoll * tcp_connecter_t) :=
  '(e1, c1) ← (if timer_started c
               then e1 ← cancel_timer e (SConn i) reconnect_timer_id; Ok (e1, with_timer false c) else Ok (e, c));
  '(e2, c2) ← (if handle_valid c1 then e2 ← rm_fd e1 (handle c1); Ok (e2, no_handle c1) else Ok (e1, c1));
  if s c2 =? retired_fd then Ok (e2, c2) else close e2 c2.

(** Engines. *)
Definition set_in (on : bool) := if on then @set_pollin sink_t else @reset_pollin sink_t.
Definition set_out (on : bool) := if on then @set_pollout sink_t else @reset_pollout sink_t.

Definition react (j : nat) (e : epoll) (w : world) : result (epoll * world * bool) :=
  match engines w !! j with
  | None => Stop NullDeref
  | Some g =>
      let '(a, w1) := ask w in
      let r := a_react a in
      if r_leave r then
        e1 ← rm_fd e (e_handle g);
        e2 ← (if r_close r then close_fd (e_fd g) e1 else Ok e1);
        Ok (e2, set_engines (<[j := mkengine (e_fd g) (e_handle g) false (e_owner g)]> (engines w1)) w1, r_stop r)
      else
        e1 ← set_in (r_pollin r) e (e_handle g);
        e2 ← set_out (r_pollout r) e1 (e_handle g);
        Ok (e2, w1, r_stop r)
  end.

(** A new engine and its [plug]: the descriptor is registered, and the input is
    tried. *)
Definition plug_engine (owner : nat) (f : Z) (e : epoll) (w : world) : result (epoll * world) :=
  let j := length (engines w) in
  '(e1, h) ← add_fd e f (SEng j);
  e2 ← set_pollin e1 h;
  e3 ← set_pollout e2 h;
  '(e4, w4, _) ← react j e3 (set_engines (engines w ++ [mkengine f h true owner]) w);
  Ok (e4, w4).

(** [out_event] up to [terminate], with the object stored back at the end. *)
Definition conn_out_event (i : nat) (e : epoll) (w : world) (c : tcp_connecter_t) : result (epoll * world * tcp_connecter_t) :=
  '(w1, c1, f) ← connect w c;
  e1 ← rm_fd e (handle c1);
  let c2 := no_handle c1 in
  if f =? retired_fd then
    '(e2, c3) ← close e1 c2;
    add_reconnect_timer i e2 w1 c3
  else
    w2 ← send_worker_id f w1 c2;
    '(e2, w3) ← plug_engine i f e1 w2;
    '(e3, c3) ← terminate i e2 c2;
    Ok (e3, w3, c3).

Definition start_connecting (i : nat) (e : epoll) (w : world) (c : tcp_connecter_t) : result (epoll * world * tcp_connecter_t) :=
  '(e1, w1, c1, r) ← open e w c;
  match r : open_rc with
  | OpenDone =>
      '(e2, h) ← add_fd e1 (s c1) (SConn i);
      conn_out_event i e2 w1 (with_handle h c1)
  | OpenInProgress =>
      '(e2, h) ← add_fd e1 (s c1) (SConn i);
      e3 ← set_pollout e2 h;
      Ok (e3, w1, with_handle h c1)
  | OpenFailed =>
      '(e2, c2) ← (if s c1 =? retired_fd then Ok (e1, c1) else close e1 c1);
      add_reconnect_timer i e2 w1 c2
  end.

Definition conn_timer_event (i : nat) (id_ : Z) (e : epoll) (w : world) (c : tcp_connecter_t)
    : result (epoll * world * tcp_connecter_t) :=
  _ ← afs_assert (id_ =? reconnect_timer_id);
  start_connecting i e w (with_timer false c).

(** [process_plug], for a connecter that may be told to wait first. *)
Definition process_plug (delayed_start : bool) (i : nat) (e : epoll) (w : world) (c : tcp_connecter_t)
    : result (epoll * world * tcp_connecter_t) :=
  if delayed_start then add_reconnect_timer i e w c else start_connecting i e w c.

(** A member function called on the object at position [i]. *)
Definition on_conn (i : nat) (f : epoll -> world -> tcp_connecter_t -> result (epoll * world * tcp_connecter_t))
    (st : epoll * world) : result (epoll * world) :=
  match connecters st.2 !! i with
  | None => Stop NullDeref
  | Some c => '(e, w, c') ← f st.1 st.2 c; Ok (e, set_conn i c' w)
  end.

(** The handlers. *)
#[export] Instance connecter_events : PollEvents sink_t world := {
  now_ms := clock_now_ms;
  in_event k st := match k with
    | SConn i => st' ← on_conn i (conn_out_event i) st; Ok (st', false)
    | SEng j => react j st.1 st.2
    end;
  out_event k st := match k with
    | SConn i => st' ← on_conn i (conn_out_event i) st; Ok (st', false)
    | SEng j => react j st.1 st.2
    end;
  timer_event k id_ st := match k with
    | SConn i => on_conn i (conn_timer_event i id_) st
    | SEng _ => Stop AssertFailed
    end
}.

(** [DownThreadNet::ThreadInitHandler]: every destination is connected to. *)
Definition connect_all (n : nat) (st : epoll * world) : result (epoll * world) :=
  foldM (fun st i => on_conn i (start_connecting i) st) (seq 0 n) st.

Definition new_world (worker_id : Z) (n : nat) : world :=
  mkworld (replicate n (new_connecter worker_id)) [] 0 0 [].

(** The destructor: everything must have been released. *)
Definition delete_connecter (c : tcp_connecter_t) : result unit :=
  _ ← afs_assert (negb (timer_started c));
  _ ← afs_assert (negb (handle_valid c));
  afs_assert (s c =? retired_fd).

(** ** The invariant *)

(** What the kernel promises: the clock is not set back, [SO_ERROR] is one of the
    errors that are tolerated, and a [send] succeeds in the end. *)
Record oracle_ok : Prop := {
  ok_clock : forall k k', (k <= k')%nat -> u64 (a_us (oracle k)) <= u64 (a_us (oracle k'));
  ok_soerror : forall k, a_soerror (oracle k) = 0 \/ a_soerror (oracle k) ∈ tolerated;
  ok_send : forall k, is_Some (a_send (oracle k))
}.

(** Intervals that fit: at most twelve days. *)
Definition ivl_ok : Prop := 1 <= reconnect_ivl < 2 ^ 30 /\ 0 <= reconnect_ivl_max < 2 ^ 30.

Definition live (e : epoll) (h : Z) (pe : poll_entry_t sink_t) : Prop :=
  entries e !! h = Some pe /\ fd pe <> retired_fd.

(** The members of connecter [i] agree with the poller and the timers [tl]: it
    polls its descriptor for the end of [connect] (unless it is just being
    registered: [arm]), or it has a timer, or its work is over: then it is [busy]
    or it has an engine. *)
Definition conn_ok (arm busy : option nat) (tl : list (timer_t sink_t)) (e : epoll) (w : world) (i : nat) (c : tcp_connecter_t) : Prop :=
  reconnect_ivl <= current_reconnect_ivl c <= Z.max reconnect_ivl reconnect_ivl_max /\
  match handle_valid c, timer_started c with
  | true, false => busy <> Some i /\ s c <> retired_fd /\
      exists m, entries e !! handle c = Some (mkentry (s c) m (SConn i)) /\ (m = EPOLLOUT \/ arm = Some i)
  | false, true => busy <> Some i /\ s c = retired_fd /\ exists t, t ∈ tl /\ t_sink t = SConn i
  | false, false => s c = retired_fd /\ (busy = Some i \/ exists g, g ∈ engines w /\ e_owner g = i)
  | true, true => False
  end.

(** The connecters [cs] and the engines that entries and timers name. *)
Definition owned (cs : list tcp_connecter_t) (w : world) (h : Z) (k : sink_t) : Prop :=
  match k with
  | SConn i => exists c, cs !! i = Some c /\ handle_valid c = true /\ handle c = h
  | SEng j => exists g, engines w !! j = Some g /\ e_plugged g = true /\ e_handle g = h
  end.

(** The invariant, for the timers [tl] that count and the connecters [cs] as
    their member functions see them. *)
Record net_inv (arm busy : option nat) (tl : list (timer_t sink_t)) (e : epoll) (cs : list tcp_connecter_t) (w : world) : Prop := {
  ni_poller : poller_inv e;
  ni_clock : forall k, (tick w <= k)%nat -> last_ms w <= u64 (a_us (oracle k)) / 1000;
  ni_conns : forall i c, cs !! i = Some c -> conn_ok arm busy tl e w i c;
  ni_engines : forall j g, engines w !! j = Some g -> e_plugged g = true ->
    e_fd g <> retired_fd /\ exists m, entries e !! e_handle g = Some (mkentry (e_fd g) m (SEng j));
  ni_owned : forall h pe, live e h pe -> owned cs w h (sink pe);
  ni_timers : forall t, t ∈ tl -> t_id t = reconnect_timer_id /\
    exists i c, t_sink t = SConn i /\ cs !! i = Some c /\ timer_started c = true;
  ni_one_timer : NoDup (t_sink <$> tl);
  ni_owner : forall g, g ∈ engines w -> busy <> Some (e_owner g) /\
    exists c, cs !! e_owner g = Some c /\ handle_valid c = false /\ timer_started c = false;
  ni_one_engine : NoDup (e_owner <$> engines w)
}.

(** System calls that only return something. *)
Lemma ask_inv arm busy tl e cs w : net_inv arm busy tl e cs w -> net_inv arm busy tl e cs (ask w).2.
Proof.
  intros [Hp Hc Hcs Hen Hown Ht Ht1 Ho Ho1]. split; try done. simpl. intros k Hk. apply Hc. lia.
Qed.

Lemma log_inv arm busy tl e cs w x : net_inv arm busy tl e cs w -> net_inv arm busy tl e cs (log_id x w).
Proof. intros []. by split. Qed.

(** Only the entries of the poller matter. *)
Lemma entries_inv arm busy tl e e' cs w :
  net_inv arm busy tl e cs w -> poller_inv e' -> entries e' = entries e -> net_inv arm busy tl e' cs w.
Proof.
  intros [Hp Hc Hcs Hen Hown Ht Ht1 Ho Ho1] Hp' He. split; try done.
  - intros i c Hi. specialize (Hcs i c Hi). unfold conn_ok in *. by rewrite He.
  - intros j g Hj. rewrite He. by apply Hen.
  - unfold live in *. rewrite He. apply Hown.
Qed.

(** Reading the clock. *)
Lemma clock_inv arm busy tl e cs w :
  oracle_ok -> net_inv arm busy tl e cs w ->
  exists ms w', clock_now_ms w = (ms, w') /\ net_inv arm busy tl e cs w' /\ (last_ms w <= ms /\ 0 <= ms < 2 ^ 60) /\ last_ms w' = ms /\
    connecters w' = connecters w /\ engines w' = engines w.
Proof.
  intros HO [Hp Hc Hcs Hen Hown Ht Ht1 Ho Ho1]. unfold clock_now_ms. simpl. eexists _, _. split; [done|].
  split; [split; try done|split; [split|done]].
  - intros k Hk. simpl in *. apply Z.div_le_mono; [lia|]. apply (ok_clock HO). lia.
  - by apply Hc.
  - pose proof (unsigned_of_range 64 (a_us (oracle (tick w))) ltac:(lia)) as Hr. unfold in_unsigned in Hr.
    split; [apply Z.div_pos; lia | apply Z.div_lt_upper_bound; lia].
Qed.

(** [modify] of a live entry. *)
Lemma modify_inv g arm arm' busy tl e cs w h pe :
  net_inv arm busy tl e cs w -> live e h pe ->
  match sink pe with SConn i => g (ev_events pe) = EPOLLOUT /\ (arm = None \/ arm = Some i) /\ arm' = None | SEng _ => arm' = arm end ->
  exists e', modify g e h = Ok e' /\ net_inv arm' busy tl e' cs w /\ keeps e e' /\ timers e' = timers e /\
    live e' h (mkentry (fd pe) (g (ev_events pe)) (sink pe)) /\ open_fds e' = open_fds e.
Proof.
  intros [Hp Hc Hcs Hen Hown Ht Ht1 Ho Ho1] Hl Hmask. pose proof Hl as [Hpe Hf].
  destruct (modify_ok g e h pe Hp Hpe Hf) as (e' & Hm & Hp' & Hk & He' & Hop & _ & _ & _ & Htm & _).
  exists e'. split; [done|]. split; [|split; [done|split; [done|split; [|done]]]].
  2: { split; [|done]. rewrite He'. apply lookup_insert_eq. }
  split; try done.
  - intros i c Hi. specialize (Hcs i c Hi). unfold conn_ok in *. destruct (handle_valid c) eqn:Hv, (timer_started c); try done.
    destruct Hcs as (? & ? & ? & m & Hm' & Hma). do 3 (split; [done|]). rewrite He'. destruct (decide (handle c = h)) as [<-|Hne].
    + rewrite lookup_insert_eq. rewrite Hpe in Hm'. injection Hm' as ->. simpl in *. eexists. split; [done|]. left. apply Hmask.
    + rewrite lookup_insert_ne by done. exists m. split; [done|]. destruct Hma as [|Hma]; [by left|].
      pose proof (Hown h pe Hl) as Hown'. destruct (sink pe) as [i'|j]; [|right; congruence].
      destruct Hmask as (_ & [Ha|Ha] & _); [congruence|]. rewrite Hma in Ha. injection Ha as <-.
      destruct Hown' as (c' & Hc' & _ & Hh'). congruence.
  - intros j gg Hj Hpl. destruct (Hen j gg Hj Hpl) as (? & m & Hm'). split; [done|]. rewrite He'.
    destruct (decide (e_handle gg = h)) as [<-|Hne]; [|rewrite lookup_insert_ne by done; eauto].
    rewrite lookup_insert_eq. rewrite Hpe in Hm'. injection Hm' as ->. simpl. eauto.
  - intros h' pe' [Hh' Hf']. rewrite He' in Hh'. destruct (decide (h' = h)) as [->|Hne].
    + rewrite lookup_insert_eq in Hh'. injection Hh' as <-. simpl. by apply Hown.
    + rewrite lookup_insert_ne in Hh' by done. by apply Hown.
Qed.

(** A connecter that does nothing: no descriptor, no handle, no timer. *)
Definition idle (c : tcp_connecter_t) : Prop :=
  s c = retired_fd /\ handle_valid c = false /\ timer_started c = false /\
  reconnect_ivl <= current_reconnect_ivl c <= Z.max reconnect_ivl reconnect_ivl_max.

(** A busy connecter is replaced: the others are as they were. *)
Lemma other_conn arm busy arm' busy' tl tl' e e' w w' i c (cs : list tcp_connecter_t) :
  (forall h pe, live e h pe -> sink pe <> SConn i -> entries e' !! h = Some pe) ->
  (forall t j, t ∈ tl -> t_sink t = SConn j -> j <> i -> t ∈ tl') ->
  (arm = None \/ arm = Some i) -> (busy = None \/ busy = Some i) -> (busy' = None \/ busy' = Some i) -> engines w ⊆+ engines w' ->
  conn_ok arm' busy' tl' e' w' i c ->
  (forall j d, cs !! j = Some d -> conn_ok arm busy tl e w j d) ->
  forall j d, <[i := c]> cs !! j = Some d -> conn_ok arm' busy' tl' e' w' j d.
Proof.
  intros Hent Htl Ha Hb Hb' Hsub Hi Hall j d Hj. apply list_lookup_insert_Some in Hj as [(-> & <- & _)|[Hne Hj]]; [done|].
  pose proof (Hall j d Hj) as [Hiv Hd]. split; [done|].
  assert (busy' <> Some j) by (destruct Hb' as [->| ->]; congruence).
  destruct (handle_valid d), (timer_started d); try done.
  - destruct Hd as (_ & Hs & m & Hm & Hmask). split; [done|]. split; [done|]. exists m. split; [apply Hent; [done|]; simpl; congruence|].
    left. destruct Hmask as [|Hmask]; [done|]. destruct Ha as [->| ->]; congruence.
  - destruct Hd as (_ & Hs & t & Hin & Ht). split; [done|]. split; [done|]. exists t. split; [|done]. by eapply Htl.
  - destruct Hd as (Hs & [Hd|(g & Hg & Ho)]); split; try done.
    + destruct Hb as [->| ->]; congruence.
    + right. exists g. split; [|done]. by eapply elem_of_submseteq.
Qed.

(** The end of [connect] stops the polling: the connecter is busy. *)
Lemma unpoll_inv arm tl e cs w i c :
  net_inv arm None tl e cs w -> (arm = None \/ arm = Some i) -> cs !! i = Some c -> handle_valid c = true ->
  exists e1, rm_fd e (handle c) = Ok e1 /\ s c <> retired_fd /\
    net_inv None (Some i) tl e1 (<[i := with_s retired_fd (no_handle c)]> cs) w /\ keeps e e1 /\ timers e1 = timers e /\
    s c ∈ open_fds e1 /\ interest e1 !! s c = None.
Proof.
  intros [Hp Hc Hcs Hen Hown Ht Ht1 Ho Ho1] Ha Hi Hv. pose proof (Hcs i c Hi) as Hci. unfold conn_ok in Hci. rewrite Hv in Hci.
  destruct (timer_started c) eqn:Hts; [by destruct Hci as [_ []]|]. destruct Hci as (Hiv & _ & Hs & m & Hm & _).
  destruct (rm_fd_ok e (handle c) _ Hp Hm Hs) as (e1 & Hrm & Hp1 & Hk & He1 & Hop1 & Hin1 & _ & Htm1 & _). simpl in *.
  exists e1. split; [done|]. split; [done|]. split; [|split; [done|split; [done|split]]].
  2: { rewrite Hop1. apply (pi_open e Hp). pose proof (live_interest e _ _ Hp Hm Hs). eauto. }
  2: { rewrite Hin1. apply lookup_delete_eq. }
  assert (forall h pe, live e h pe -> sink pe <> SConn i -> entries e1 !! h = Some pe) as Hent.
  { intros h pe [Hh Hf] Hk'. rewrite He1, lookup_insert_ne; [done|]. intros <-. rewrite Hm in Hh. injection Hh as <-. done. }
  assert (forall g, g ∈ engines w -> e_owner g <> i) as Hnog.
  { intros g Hg <-. destruct (Ho g Hg) as (_ & c' & Hc' & Hv' & _). congruence. }
  split; try done.
  - eapply (other_conn arm None None (Some i) tl tl e e1 w w i); try done; auto.
    unfold conn_ok. simpl. rewrite Hts. auto.
  - intros j g Hj Hpl. destruct (Hen j g Hj Hpl) as (Hf & m' & Hm'). split; [done|]. exists m'. by apply Hent.
  - intros h pe [Hh Hf]. rewrite He1 in Hh. destruct (decide (h = handle c)) as [->|Hne].
    { rewrite lookup_insert_eq in Hh. by injection Hh as <-. }
    rewrite lookup_insert_ne in Hh by done. pose proof (Hown h pe (conj Hh Hf)) as Ho'. destruct (sink pe) as [j|j]; [|done].
    destruct Ho' as (d & Hd & Hdv & Hdh). exists d. split; [|done]. rewrite list_lookup_insert_ne; [done|]. intros <-. congruence.
  - intros t Hin. destruct (Ht t Hin) as (Hid & j & d & Hj & Hd & Hds). split; [done|]. exists j, d. split; [done|].
    split; [|done]. rewrite list_lookup_insert_ne; [done|]. intros <-. congruence.
  - intros g Hg. destruct (Ho g Hg) as (_ & d & Hd & Hdv & Hdt). pose proof (Hnog g Hg) as Hne.
    split; [congruence|]. exists d. rewrite list_lookup_insert_ne by congruence. done.
Qed.

(** The interval: between the current one and twice the configured one above
    it; the current one doubles up to the maximum. *)
Lemma new_ivl_ok c random :
  ivl_ok -> reconnect_ivl <= current_reconnect_ivl c <= Z.max reconnect_ivl reconnect_ivl_max ->
  exists v n, get_new_reconnect_ivl c random = Ok (v, with_ivl n c) /\
    current_reconnect_ivl c <= v < current_reconnect_ivl c + reconnect_ivl /\
    n = (if reconnect_ivl <? reconnect_ivl_max then Z.min (2 * current_reconnect_ivl c) reconnect_ivl_max
         else current_reconnect_ivl c) /\
    reconnect_ivl <= n <= Z.max reconnect_ivl reconnect_ivl_max.
Proof.
  intros [Hivl Hmax] Hc. unfold get_new_reconnect_ivl. rewrite (proj2 (Z.eqb_neq reconnect_ivl 0)) by lia.
  rewrite !(unsigned_of_small 32) by (unfold in_unsigned; lia). pose proof (Z.mod_pos_bound random reconnect_ivl).
  rewrite !(signed_of_small 32) by (lia || unfold in_signed; lia).
  destruct (Z.ltb_spec reconnect_ivl reconnect_ivl_max).
  - rewrite (proj2 (Z.ltb_lt 0 reconnect_ivl_max)) by lia. cbn [andb].
    eexists _, _. split; [done|]. split; [lia|]. destruct (Z.leb_spec reconnect_ivl_max (current_reconnect_ivl c * 2)); lia.
  - rewrite andb_false_r. exists (current_reconnect_ivl c + random mod reconnect_ivl), (current_reconnect_ivl c).
    split; [by destruct c|]. split; [lia|]. split; [done|lia].
Qed.

(** How a member function leaves connecter [i]: no longer busy, with its timer
    in place when it set one. *)
Definition settled (i : nat) (tl : list (timer_t sink_t)) (e : epoll) (w : world) (cs : list tcp_connecter_t)
    (e' : epoll) (w' : world) (c' : tcp_connecter_t) : Prop :=
  exists tl', net_inv None None tl' e' (<[i := c']> cs) w' /\ keeps e e' /\ last_ms w <= last_ms w' /\
    connecters w' = connecters w /\
    (timers e' = timers e /\ tl' = tl \/
     exists t, timers e' = insert_timer t (timers e) /\ tl' = insert_timer t tl /\ last_ms w < expiration t).

Lemma list_insert_same {A} (l : list A) i a b : <[i := a]> (<[i := b]> l) = <[i := a]> l.
Proof. apply list_insert_insert_eq. Qed.

(** [add_reconnect_timer] by a busy connecter. *)
Lemma wait_inv tl e cs w i c :
  ivl_ok -> oracle_ok -> net_inv None (Some i) tl e (<[i := c]> cs) w -> (i < length cs)%nat -> idle c ->
  exists e' w' c', add_reconnect_timer i e w c = Ok (e', w', c') /\ settled i tl e w cs e' w' c'.
Proof.
  intros HIV HO HI Hi (Hs & Hv & Hts & Hiv). unfold add_reconnect_timer, ask.
  destruct (new_ivl_ok c (generate_random (a_low (oracle (tick w))) (a_high (oracle (tick w)))) HIV Hiv)
    as (v & n & -> & Hv1 & _ & Hn). cbn [mbind result_bind].
  destruct (clock_inv _ _ _ _ _ _ HO (ask_inv _ _ _ _ _ _ HI)) as (ms & w2 & Hclk & HI2 & Hms & Hlast & Hcn & Hg).
  unfold ask in Hclk. cbn [snd] in Hclk. rewrite Hclk. set (c' := with_timer true (with_ivl n c)).
  eexists _, _, c'. split; [done|]. pose proof HI2 as [Hp Hc Hcs Hen Hown Ht Ht1 Ho Ho1].
  set (t := mktimer (next_node e) (u64 (ms + v)) (SConn i) reconnect_timer_id).
  simpl in Hms, Hcn, Hg. exists (insert_timer t tl). split; [|split; [|split; [lia|split; [done|]]]].
  2: { intros h pe Hpe. exists pe. by auto. }
  2: { right. exists t. split; [done|]. split; [done|]. simpl. destruct HIV. rewrite unsigned_of_small by (unfold in_unsigned; lia). lia. }
  assert (forall x j, x ∈ tl -> t_sink x = SConn j -> j <> i) as Hother.
  { intros x j Hx Hj ->. destruct (Ht x Hx) as (_ & j & d & Hj' & Hd & Hdt). rewrite Hj in Hj'. injection Hj' as <-.
    rewrite list_lookup_insert_eq in Hd by done. injection Hd as <-. congruence. }
  split; try done.
  - by apply add_timer_inv.
  - rewrite <- (list_insert_same cs i c' c). intros j d Hjd.
    eapply (other_conn None (Some i) None None tl (insert_timer t tl) e _ w2 w2 i c' (<[i := c]> cs)); try done; auto.
    + intros h pe [Hh _] _. done.
    + intros x j' Hx _ _. rewrite insert_timer_perm. by apply list_elem_of_further.
    + unfold conn_ok, c'. simpl. rewrite Hv. split; [lia|]. split; [done|]. split; [done|]. exists t. split; [|done].
      rewrite insert_timer_perm. apply list_elem_of_here.
  - intros h pe Hl. pose proof (Hown h pe Hl) as Ho'. destruct (sink pe) as [j|j]; [|done].
    destruct Ho' as (d & Hd & Hdv & Hdh). exists d. split; [|done]. apply list_lookup_insert_Some in Hd as [(-> & <- & _)|[Hne Hd]]; [congruence|].
    by rewrite list_lookup_insert_ne.
  - intros x. rewrite insert_timer_perm. intros [->|Hx]%elem_of_cons.
    + split; [done|]. exists i, c'. rewrite list_lookup_insert_eq by done. done.
    + destruct (Ht x Hx) as (Hid & j & d & Hj & Hd & Hdt). split; [done|]. exists j, d. split; [done|]. split; [|done].
      pose proof (Hother x j Hx Hj). rewrite list_lookup_insert_ne in Hd by done. by rewrite list_lookup_insert_ne.
  - rewrite insert_timer_perm. simpl. constructor; [|done]. intros (x & Hxk & Hx)%list_elem_of_fmap.
    by apply (Hother x i Hx).
  - intros g Hgin. destruct (Ho g Hgin) as (Hb & d & Hd & Hdv & Hdt). split; [done|]. exists d. split; [|done].
    assert (e_owner g <> i) by congruence. rewrite list_lookup_insert_ne in Hd by done. by rewrite list_lookup_insert_ne.
Qed.

(** A new entry is at a fresh address. *)
Lemma add_entry_lookup (e : epoll) h pe (e' : epoll) x :
  poller_inv e -> entries e' = <[next_entry e := x]> (entries e) -> entries e !! h = Some pe -> entries e' !! h = Some pe.
Proof.
  intros He -> Hh. rewrite lookup_insert_ne; [done|]. intros <-.
  assert (next_entry e < next_entry e) by (apply (pi_fresh e He); eauto). lia.
Qed.

(** The descriptor of a busy connecter is registered. *)
Lemma poll_inv tl e cs w i c f :
  net_inv None (Some i) tl e (<[i := c]> cs) w -> (i < length cs)%nat -> idle c -> new_fd_ok e f = true ->
  exists e' h, add_fd (open_fd f e) f (SConn i) = Ok (e', h) /\ live e' h (mkentry f 0 (SConn i)) /\
    net_inv (Some i) None tl e' (<[i := with_handle h (with_s f c)]> cs) w /\ keeps e e' /\ timers e' = timers e.
Proof.
  intros HI Hi (Hs & Hv & Hts & Hiv) Hf. pose proof HI as [Hp Hc Hcs Hen Hown Ht Ht1 Ho Ho1].
  unfold new_fd_ok in Hf. apply andb_true_iff in Hf as [Hpos%Z.leb_le Hnew%negb_true_iff%bool_decide_eq_false].
  assert (f <> retired_fd) as Hfr by (unfold retired_fd; lia).
  assert (interest e !! f = None) as Hni.
  { destruct (interest e !! f) eqn:E; [|done]. exfalso. apply Hnew, (pi_open e Hp). rewrite E. eauto. }
  destruct (add_fd_ok (open_fd f e) f (SConn i)) as (e' & Hadd & Hp' & Hk & He' & _ & _ & _ & _ & Htm & _).
  { by apply open_fd_inv. } { simpl. apply elem_of_union. left. by apply elem_of_singleton. } { done. }
  exists e', (next_entry e). split; [done|]. simpl in He', Htm.
  assert (entries e' !! next_entry e = Some (mkentry f 0 (SConn i))) as Hh by (rewrite He'; apply lookup_insert_eq).
  assert (forall h pe, entries e !! h = Some pe -> entries e' !! h = Some pe) as Hent by (intros h pe; by eapply add_entry_lookup).
  split; [done|]. split; [|split; [|done]].
  2: { intros h pe Hpe. exists pe. rewrite (Hent h pe Hpe). auto. }
  set (c' := with_handle (next_entry e) (with_s f c)). split; try done.
  - rewrite <- (list_insert_same cs i c' c). intros j d Hjd.
    eapply (other_conn None (Some i) (Some i) None tl tl e e' w w i c' (<[i := c]> cs)); try done; auto.
    + intros h pe [Hpe _] _. by apply Hent.
    + unfold conn_ok, c'. simpl. rewrite Hts. split; [lia|]. split; [done|]. split; [done|]. exists 0. auto.
  - intros j g Hj Hpl. destruct (Hen j g Hj Hpl) as (? & m & Hm). split; [done|]. exists m. by apply Hent.
  - intros h pe [Hpe Hfp]. rewrite He' in Hpe. apply lookup_insert_Some in Hpe as [[<- <-]|[Hne Hpe]].
    + simpl. exists c'. rewrite list_lookup_insert_eq by done. done.
    + pose proof (Hown h pe (conj Hpe Hfp)) as Ho'. destruct (sink pe) as [j|j]; [|done].
      destruct Ho' as (d & Hd & Hdv & Hdh). exists d. split; [|done].
      apply list_lookup_insert_Some in Hd as [(-> & <- & _)|[Hij Hd]]; [congruence|]. by rewrite list_lookup_insert_ne.
  - intros x Hx. destruct (Ht x Hx) as (Hid & j & d & Hj & Hd & Hdt). split; [done|]. exists j, d. split; [done|]. split; [|done].
    apply list_lookup_insert_Some in Hd as [(-> & <- & _)|[Hij Hd]]; [congruence|]. by rewrite list_lookup_insert_ne.
  - intros g Hgin. destruct (Ho g Hgin) as (Hb & d & Hd & Hdv & Hdt). split; [done|]. exists d. split; [|done].
    assert (e_owner g <> i) by congruence. rewrite list_lookup_insert_ne in Hd by done. by rewrite list_lookup_insert_ne.
Qed.

(** The engine of a busy connecter is registered. *)
Lemma engine_inv tl e cs w i c f :
  net_inv None (Some i) tl e (<[i := c]> cs) w -> (i < length cs)%nat -> idle c ->
  f ∈ open_fds e -> interest e !! f = None ->
  exists e' h, add_fd e f (SEng (length (engines w))) = Ok (e', h) /\
    live e' h (mkentry f 0 (SEng (length (engines w)))) /\
    net_inv None None tl e' (<[i := c]> cs) (set_engines (engines w ++ [mkengine f h true i]) w) /\ keeps e e' /\ timers e' = timers e.
Proof.
  intros HI Hi (Hs & Hv & Hts & Hiv) Hf Hni. pose proof HI as [Hp Hc Hcs Hen Hown Ht Ht1 Ho Ho1].
  assert (f <> retired_fd) as Hfr by (intros ->; by apply (pi_no_retired e Hp)).
  destruct (add_fd_ok e f (SEng (length (engines w))) Hp Hf Hni) as (e' & Hadd & Hp' & Hk & He' & _ & _ & _ & _ & Htm & _).
  exists e', (next_entry e). split; [done|].
  assert (entries e' !! next_entry e = Some (mkentry f 0 (SEng (length (engines w))))) as Hh by (rewrite He'; apply lookup_insert_eq).
  assert (forall h pe, entries e !! h = Some pe -> entries e' !! h = Some pe) as Hent by (intros h pe; by eapply add_entry_lookup).
  split; [done|]. split; [|done]. set (g0 := mkengine f (next_entry e) true i). split; try done.
  - rewrite <- (list_insert_same cs i c c). intros j d Hjd.
    eapply (other_conn None (Some i) None None tl tl e e' w _ i c (<[i := c]> cs)); try done; auto.
    + intros h pe [Hpe _] _. by apply Hent.
    + simpl. by apply submseteq_inserts_r.
    + unfold conn_ok. simpl. rewrite Hv, Hts. split; [lia|]. split; [done|]. right. exists g0. split; [|done]. apply elem_of_app. right. apply list_elem_of_here.
  - simpl. intros j g Hj Hpl. apply lookup_snoc_Some in Hj as [[Hlt Hj]|[-> <-]].
    + destruct (Hen j g Hj Hpl) as (? & m & Hm). split; [done|]. exists m. by apply Hent.
    + split; [done|]. by exists 0.
  - intros h pe [Hpe Hfp]. rewrite He' in Hpe. apply lookup_insert_Some in Hpe as [[<- <-]|[Hne Hpe]].
    + simpl. exists g0. rewrite lookup_app_r, Nat.sub_diag by done. done.
    + pose proof (Hown h pe (conj Hpe Hfp)) as Ho'. destruct (sink pe) as [j|j]; [done|]. simpl.
      destruct Ho' as (g & Hg & Hrest). exists g. split; [|done]. by apply lookup_app_l_Some.
  - simpl. intros g [Hg|Hg%list_elem_of_singleton]%elem_of_app; [|subst g].
    + split; [done|]. by apply Ho.
    + split; [done|]. exists c. rewrite list_lookup_insert_eq by done. done.
  - simpl. rewrite fmap_app. simpl. apply NoDup_app. split; [done|]. split; [|apply NoDup_singleton].
    intros x (g & -> & Hg)%list_elem_of_fmap Hx%list_elem_of_singleton. destruct (Ho g Hg) as [Hb _]. congruence.
Qed.

(** An engine that leaves the poller. *)
Lemma leave_inv arm busy tl e cs w j g :
  net_inv arm busy tl e cs w -> engines w !! j = Some g -> e_plugged g = true ->
  exists e1, rm_fd e (e_handle g) = Ok e1 /\ keeps e e1 /\ timers e1 = timers e /\
    e_fd g ∈ open_fds e1 /\ interest e1 !! e_fd g = None /\
    net_inv arm busy tl e1 cs (set_engines (<[j := mkengine (e_fd g) (e_handle g) false (e_owner g)]> (engines w)) w).
Proof.
  intros [Hp Hc Hcs Hen Hown Ht Ht1 Ho Ho1] Hj Hpl. destruct (Hen j g Hj Hpl) as (Hf & m & Hm).
  destruct (rm_fd_ok e (e_handle g) _ Hp Hm Hf) as (e1 & Hrm & Hp1 & Hk & He1 & Hop1 & Hin1 & _ & Htm1 & _). simpl in *.
  pose proof (live_interest e _ _ Hp Hm Hf) as Hli. simpl in Hli.
  exists e1. split; [done|]. split; [done|]. split; [done|]. split; [rewrite Hop1; apply (pi_open e Hp); eauto|].
  split; [rewrite Hin1; apply lookup_delete_eq|]. set (g' := mkengine (e_fd g) (e_handle g) false (e_owner g)).
  assert (forall h pe, live e h pe -> sink pe <> SEng j -> entries e1 !! h = Some pe) as Hent.
  { intros h pe [Hh _] Hk'. rewrite He1, lookup_insert_ne; [done|]. intros <-. rewrite Hm in Hh. by injection Hh as <-. }
  assert (forall x, (exists y, y ∈ engines w /\ e_owner y = x) -> exists y, y ∈ <[j := g']> (engines w) /\ e_owner y = x) as Hown'.
  { intros x (y & Hy & <-). apply list_elem_of_lookup in Hy as [k Hy]. destruct (decide (k = j)) as [->|Hne].
    - exists g'. split; [|by rewrite Hj in Hy; injection Hy as <-]. apply list_elem_of_lookup. exists j.
      apply list_lookup_insert_eq. by eapply lookup_lt_Some.
    - exists y. split; [|done]. apply list_elem_of_lookup. exists k. by rewrite list_lookup_insert_ne. }
  assert (e_owner <$> <[j := g']> (engines w) = e_owner <$> engines w) as Hsame.
  { rewrite list_fmap_insert. apply list_insert_id. rewrite list_lookup_fmap, Hj. done. }
  split; try done; simpl.
  - intros i c Hi. pose proof (Hcs i c Hi) as [Hiv Hd]. split; [done|]. destruct (handle_valid c), (timer_started c); try done.
    + destruct Hd as (? & ? & m' & Hm' & ?). split; [done|]. split; [done|]. exists m'. split; [by apply Hent|done].
    + destruct Hd as (? & [?|Hd]); (split; [done|]); [by left|]. right. by apply Hown'.
  - intros k y Hk' Hy. apply list_lookup_insert_Some in Hk' as [(-> & <- & _)|[Hne Hk']]; [done|].
    destruct (Hen k y Hk' Hy) as (? & m' & Hm'). split; [done|]. exists m'. apply Hent; [done|]. simpl. congruence.
  - intros h pe [Hh Hfp]. rewrite He1 in Hh. apply lookup_insert_Some in Hh as [[<- <-]|[Hne Hh]]; [done|].
    pose proof (Hown h pe (conj Hh Hfp)) as Ho'. destruct (sink pe) as [i|k]; [done|]. simpl.
    destruct Ho' as (y & Hy & Hyp & Hyh). exists y. split; [|done]. rewrite list_lookup_insert_ne; [done|]. congruence.
  - intros y Hy. apply list_elem_of_lookup in Hy as [k Hy].
    apply list_lookup_insert_Some in Hy as [(-> & <- & _)|[Hne Hy]]; [apply (Ho g)|apply Ho]; apply list_elem_of_lookup; eauto.
  - by rewrite Hsame.
Qed.

(** An engine changes what it polls for. *)
Lemma engine_modify f arm busy tl e cs w j g :
  net_inv arm busy tl e cs w -> engines w !! j = Some g -> e_plugged g = true ->
  exists e', modify f e (e_handle g) = Ok e' /\ net_inv arm busy tl e' cs w /\ keeps e e' /\ timers e' = timers e.
Proof.
  intros HI Hj Hpl. destruct (ni_engines _ _ _ _ _ _ HI j g Hj Hpl) as (Hf & m & Hm).
  destruct (modify_inv f arm arm busy tl e cs w (e_handle g) _ HI (conj Hm Hf) eq_refl) as (e' & ? & ? & ? & ? & _).
  by exists e'.
Qed.

(** An event of an engine. *)
Lemma react_inv arm busy tl e cs w j g :
  net_inv arm busy tl e cs w -> engines w !! j = Some g -> e_plugged g = true ->
  exists e' w' b, react j e w = Ok (e', w', b) /\ net_inv arm busy tl e' cs w' /\ keeps e e' /\ timers e' = timers e /\
    last_ms w' = last_ms w /\ connecters w' = connecters w.
Proof.
  intros HI Hj Hpl. unfold react. rewrite Hj. unfold ask. set (r := a_react (oracle (tick w))).
  pose proof (ask_inv _ _ _ _ _ _ HI) as HI1. set (w1 := mkworld _ _ _ _ _). change (ask w).2 with w1 in HI1. destruct (r_leave r).
  - destruct (leave_inv arm busy tl e cs w1 j g HI1 Hj Hpl) as (e1 & -> & Hk1 & Ht1 & Hop & Hin & HI2). cbn [mbind result_bind].
    destruct (r_close r); [|by eexists _, _, _].
    destruct (close_fd_ok e1 (e_fd g) (ni_poller _ _ _ _ _ _ HI2) Hop Hin) as (e2 & -> & Hp2 & He2 & _ & _ & _ & _ & Htm & _).
    cbn [mbind result_bind]. eexists _, _, _. split; [done|]. split; [by apply (entries_inv _ _ _ e1)|].
    split; [|by rewrite Htm]. intros h pe Hpe. rewrite He2. by apply Hk1.
  - assert (exists e1, set_in (r_pollin r) e (e_handle g) = Ok e1 /\ net_inv arm busy tl e1 cs w1 /\ keeps e e1 /\ timers e1 = timers e)
      as (e1 & -> & HI2 & Hk1 & Ht1).
    { unfold set_in. by destruct (r_pollin r); eapply engine_modify. }
    cbn [mbind result_bind].
    assert (exists e2, set_out (r_pollout r) e1 (e_handle g) = Ok e2 /\ net_inv arm busy tl e2 cs w1 /\ keeps e1 e2 /\ timers e2 = timers e1)
      as (e2 & -> & HI3 & Hk2 & Ht2).
    { unfold set_out. by destruct (r_pollout r); eapply engine_modify. }
    cbn [mbind result_bind]. eexists _, _, _. split; [done|]. split; [done|]. split; [by etrans|]. by rewrite Ht2.
Qed.

(** The engine is created and plugged. *)
Lemma plug_inv tl e cs w i c f :
  net_inv None (Some i) tl e (<[i := c]> cs) w -> (i < length cs)%nat -> idle c ->
  f ∈ open_fds e -> interest e !! f = None ->
  exists e' w', plug_engine i f e w = Ok (e', w') /\ net_inv None None tl e' (<[i := c]> cs) w' /\ keeps e e' /\
    timers e' = timers e /\ last_ms w' = last_ms w /\ connecters w' = connecters w.
Proof.
  intros HI Hi Hc Hf Hni. destruct (engine_inv tl e cs w i c f HI Hi Hc Hf Hni) as (e1 & h & Hadd & Hl1 & HI1 & Hk1 & Ht1).
  unfold plug_engine. rewrite Hadd. cbn [mbind result_bind].
  edestruct (modify_inv (fun m => Z.lor m EPOLLIN) None None) as (e2 & Hm2 & HI2 & Hk2 & Ht2 & Hl2 & _); [done..|].
  unfold set_pollin. rewrite Hm2. cbn [mbind result_bind].
  edestruct (modify_inv (fun m => Z.lor m EPOLLOUT) None None) as (e3 & Hm3 & HI3 & Hk3 & Ht3 & Hl3 & _); [done..|].
  unfold set_pollout. rewrite Hm3. cbn [mbind result_bind].
  destruct (react_inv None None tl e3 _ _ (length (engines w)) (mkengine f h true i) HI3) as (e4 & w4 & b & -> & HI4 & Hk4 & Ht4 & Hl4 & Hc4).
  { simpl. rewrite lookup_app_r, Nat.sub_diag by done. done. } { done. }
  cbn [mbind result_bind]. exists e4, w4. split; [done|]. split; [done|]. split; [by etrans; [etrans; [etrans|]|]|].
  split; [congruence|]. by rewrite Hl4, Hc4.
Qed.

(** [terminate] has nothing to do for an idle connecter. *)
Lemma terminate_idle i e c : idle c -> terminate i e c = Ok (e, c).
Proof.
  intros (Hs & Hv & Hts & _). unfold terminate. rewrite Hts. cbn [mbind result_bind]. rewrite Hv. cbn [mbind result_bind].
  by rewrite Hs.
Qed.

(** [out_event]: the connection is handed to an engine, or a timer is set. *)
Lemma out_event_ok arm tl e cs w i c :
  ivl_ok -> oracle_ok -> (arm = None \/ arm = Some i) -> net_inv arm None tl e (<[i := c]> cs) w -> (i < length cs)%nat -> handle_valid c = true ->
  exists e' w' c', conn_out_event i e w c = Ok (e', w', c') /\ settled i tl e w cs e' w' c'.
Proof.
  intros HIV HO Ha HI Hi Hv. assert (<[i := c]> cs !! i = Some c) as Hlook by (by apply list_lookup_insert_eq).
  pose proof (ni_conns _ _ _ _ _ _ HI i c Hlook) as [Hiv Hci]. rewrite Hv in Hci.
  destruct (timer_started c) eqn:Hts; [done|]. set (c0 := with_s retired_fd (no_handle c)).
  assert (idle c0) as Hidle by (by repeat split; try apply Hiv).
  unfold conn_out_event, connect, ask. set (a := oracle (tick w)). set (w1 := mkworld _ _ _ _ _).
  pose proof (ask_inv _ _ _ _ _ _ HI) as HI1. change (ask w).2 with w1 in HI1.
  destruct (unpoll_inv arm tl e _ w1 i c HI1 Ha Hlook Hv) as (e1 & Hrm & Hs & HI2 & Hk1 & Htm1 & Hop & Hin).
  rewrite list_insert_same in HI2. fold c0 in HI2. destruct (Z.eqb_spec (a_soerror a) 0) as [Hso|Hso]; cbn [mbind result_bind].
  - change (handle (with_s retired_fd c)) with (handle c). rewrite Hrm. cbn [mbind result_bind].
    rewrite (proj2 (Z.eqb_neq _ _) Hs). unfold send_worker_id, ask.
    destruct (ok_send HO (tick w1)) as [n ->]. cbn [mbind result_bind]. set (w2 := log_id _ _).
    assert (net_inv None (Some i) tl e1 (<[i := c0]> cs) w2) as HI3 by (by apply log_inv, (ask_inv _ _ _ _ _ w1)).
    destruct (plug_inv tl e1 cs w2 i c0 (s c) HI3 Hi Hidle Hop Hin) as (e2 & w3 & -> & HI4 & Hk2 & Htm2 & Hl & Hcn).
    cbn [mbind result_bind]. change (no_handle (with_s retired_fd c)) with c0. rewrite terminate_idle by done.
    cbn [mbind result_bind]. eexists _, _, _. split; [done|].
    exists tl. split; [done|]. split; [by etrans|]. rewrite Hl, Hcn. split; [done|]. split; [done|]. left. by rewrite Htm2.
  - destruct (ok_soerror HO (tick w)) as [|Htol]; [done|]. rewrite bool_decide_true by done. cbn [mbind result_bind afs_assert].
    rewrite Hrm. cbn [mbind result_bind]. rewrite Z.eqb_refl. unfold close. cbn [s no_handle].
    rewrite (proj2 (Z.eqb_neq _ _) Hs). cbn [mbind result_bind afs_assert negb].
    destruct (close_fd_ok e1 (s c) (ni_poller _ _ _ _ _ _ HI2) Hop Hin) as (e2 & -> & Hp2 & He2 & _ & _ & _ & _ & Htm2 & _).
    cbn [mbind result_bind]. fold c0.
    destruct (wait_inv tl e2 cs w1 i c0 HIV HO (entries_inv _ _ _ e1 e2 _ _ HI2 Hp2 He2) Hi Hidle)
      as (e3 & w3 & c3 & -> & tl' & HI3 & Hk3 & Hl3 & Hcn3 & Htl). eexists _, _, _. split; [done|].
    exists tl'. split; [done|]. split; [|split; [done|split; [done|]]].
    + etrans; [exact Hk1|]. etrans; [|exact Hk3]. intros h pe Hpe. rewrite He2. eauto.
    + rewrite Htm2, Htm1 in Htl. exact Htl.
Qed.

(** [start_connecting] of a busy connecter. *)
Lemma start_ok tl e cs w i c :
  ivl_ok -> oracle_ok -> net_inv None (Some i) tl e (<[i := c]> cs) w -> (i < length cs)%nat -> idle c ->
  exists e' w' c', start_connecting i e w c = Ok (e', w', c') /\ settled i tl e w cs e' w' c'.
Proof.
  intros HIV HO HI Hi Hidle. pose proof Hidle as (Hs & Hv & Hts & Hiv). unfold start_connecting, open.
  rewrite Hs, Z.eqb_refl. cbn [mbind result_bind afs_assert]. unfold ask at 1. set (w1 := mkworld _ _ _ _ _).
  pose proof (ask_inv _ _ _ _ _ _ HI) as HI1. change (ask w).2 with w1 in HI1. set (f := a_socket (oracle (tick w))).
  assert (forall w0 c0, net_inv None (Some i) tl e (<[i := c0]> cs) w0 -> idle c0 -> connecters w0 = connecters w -> last_ms w0 = last_ms w ->
    forall e0, poller_inv e0 -> entries e0 = entries e -> timers e0 = timers e ->
    exists e' w' c', add_reconnect_timer i e0 w0 c0 = Ok (e', w', c') /\ settled i tl e w cs e' w' c') as Hwait.
  { intros w0 c0 HI0 Hid0 Hcn0 Hl0 e0 Hp0 He0 Ht0.
    destruct (wait_inv tl e0 cs w0 i c0 HIV HO (entries_inv _ _ _ e e0 _ _ HI0 Hp0 He0) Hi Hid0)
      as (e' & w' & c' & -> & tl' & HI' & Hk & Hl & Hcn & Htl). eexists _, _, _. split; [done|].
    exists tl'. split; [done|]. split; [intros h pe Hpe; apply Hk; by rewrite He0|]. rewrite Hl0, Hcn0, Ht0 in *. done. }
  destruct (new_fd_ok e f) eqn:Hf; cbn [negb].
  2: { cbn [mbind result_bind s with_s]. rewrite Z.eqb_refl. cbn [mbind result_bind].
       apply Hwait; try done; [|apply HI]. destruct c; cbn in *; subst; done. }
  unfold ask. cbn [mbind result_bind]. set (w2 := mkworld _ _ _ _ _).
  pose proof (ask_inv _ _ _ _ _ _ HI1) as HI2. change (ask w1).2 with w2 in HI2. cbn [s with_s].
  destruct (poll_inv tl e cs w2 i c f HI2 Hi Hidle Hf) as (e2 & h & Hadd & Hl2 & HI3 & Hk2 & Htm2).
  destruct (a_connect _ =? 0); [|destruct (_ || _)]; cbn [mbind result_bind].
  - rewrite Hadd. cbn [mbind result_bind].
    destruct (out_event_ok (Some i) tl e2 cs w2 i _ HIV HO (or_intror eq_refl) HI3 Hi eq_refl) as (e3 & w3 & c3 & -> & tl' & HI4 & Hk3 & Hl3 & Hcn3 & Htl).
    eexists _, _, _. split; [done|]. exists tl'. split; [done|]. split; [by etrans|]. rewrite Htm2 in Htl. done.
  - rewrite Hadd. cbn [mbind result_bind].
    edestruct (modify_inv (fun m => Z.lor m EPOLLOUT) (Some i) None) as (e3 & Hm3 & HI4 & Hk3 & Ht3 & _); [exact HI3 | exact Hl2 | by simpl; auto|].
    unfold set_pollout. rewrite Hm3. cbn [mbind result_bind]. eexists _, _, _. split; [done|]. exists tl.
    split; [done|]. split; [by etrans|]. split; [done|]. split; [done|]. left. split; [congruence|done].
  - assert (f <> retired_fd) as Hfr by (unfold new_fd_ok in Hf; apply andb_true_iff in Hf as [?%Z.leb_le _]; unfold retired_fd; lia).
    rewrite (proj2 (Z.eqb_neq _ _) Hfr). unfold close. cbn [s with_s]. rewrite (proj2 (Z.eqb_neq _ _) Hfr).
    cbn [mbind result_bind afs_assert negb].
    assert (f ∈ open_fds (open_fd f e)) as Hop by (simpl; apply elem_of_union; left; by apply elem_of_singleton).
    assert (interest (open_fd f e) !! f = None) as Hni.
    { simpl. destruct (interest e !! f) eqn:E; [|done]. unfold new_fd_ok in Hf.
      apply andb_true_iff in Hf as [_ Hf%negb_true_iff%bool_decide_eq_false]. exfalso. apply Hf, (pi_open e (ni_poller _ _ _ _ _ _ HI)). eauto. }
    destruct (close_fd_ok (open_fd f e) f ltac:(apply open_fd_inv; [apply HI|done]) Hop Hni)
      as (e3 & -> & Hp3 & He3 & _ & _ & _ & _ & Htm3 & _). cbn [mbind result_bind].
    apply Hwait; try done. destruct c; cbn in *; subst; done.
Qed.

(** The timer of a connecter fires: it is busy, and the timer no longer
    counts. *)
Lemma fired_inv t l e cs w i c :
  net_inv None None (t :: l) e cs w -> t_sink t = SConn i -> cs !! i = Some c -> timer_started c = true ->
  net_inv None (Some i) l e (<[i := with_timer false c]> cs) w /\ idle (with_timer false c).
Proof.
  intros [Hp Hc Hcs Hen Hown Ht Ht1 Ho Ho1] Hk Hi Hts. pose proof (Hcs i c Hi) as [Hiv Hci]. rewrite Hts in Hci.
  destruct (handle_valid c) eqn:Hv; [done|]. destruct Hci as (_ & Hs & _).
  simpl in Ht1. apply NoDup_cons in Ht1 as [Hnot Ht1]. split; [|by repeat split; try apply Hiv].
  assert (forall j d, <[i := with_timer false c]> cs !! j = Some d -> j <> i -> cs !! j = Some d) as Hne
    by (intros j d Hj Hne; by rewrite list_lookup_insert_ne in Hj).
  split; try done.
  - eapply (other_conn None None None (Some i) (t :: l) l e e w w i); try done; auto.
    + by intros h pe [? _] _.
    + intros x j Hx Hj Hji. apply elem_of_cons in Hx as [->|Hx]; [congruence|done].
    + unfold conn_ok. simpl. rewrite Hv. auto.
  - intros h pe Hl. pose proof (Hown h pe Hl) as Ho'. destruct (sink pe) as [j|j]; [|done].
    destruct Ho' as (d & Hd & Hdv & Hdh). exists d. split; [|done]. rewrite list_lookup_insert_ne; [done|]. congruence.
  - intros x Hx. destruct (Ht x (list_elem_of_further _ _ _ Hx)) as (Hid & j & d & Hj & Hd & Hdt). split; [done|].
    exists j, d. split; [done|]. split; [|done]. rewrite list_lookup_insert_ne; [done|]. intros <-. apply Hnot.
    rewrite Hk, <- Hj. by apply list_elem_of_fmap_2.
  - intros g Hg. destruct (Ho g Hg) as (_ & d & Hd & Hdv & Hdt). assert (e_owner g <> i) by congruence.
    split; [congruence|]. exists d. by rewrite list_lookup_insert_ne.
Qed.

Lemma set_conn_inv arm busy tl e cs w i c : net_inv arm busy tl e cs w -> net_inv arm busy tl e cs (set_conn i c w).
Proof. intros []. by split. Qed.

(** The deletion of the retired entries. *)
Lemma free_inv arm busy tl e e' cs w : net_inv arm busy tl e cs w -> free_retired e = Ok e' -> net_inv arm busy tl e' cs w /\ timers e' = timers e.
Proof.
  intros [Hp Hc Hcs Hen Hown Ht Ht1 Ho Ho1] Hf. destruct (free_retired_ok e Hp) as (e0 & Hf0 & Hp' & He & _ & _ & _ & _ & Htm & _).
  rewrite Hf in Hf0. injection Hf0 as <-. split; [|done].
  assert (forall h pe, live e h pe -> entries e' !! h = Some pe) as Hent.
  { intros h pe [Hh Hr]. rewrite He. by apply map_lookup_filter_Some. }
  split; try done.
  - intros i c Hi. pose proof (Hcs i c Hi) as [Hiv Hci]. split; [done|]. destruct (handle_valid c), (timer_started c); try done.
    destruct Hci as (? & ? & m & Hm & ?). split; [done|]. split; [done|]. exists m. split; [by apply Hent|done].
  - intros j g Hj Hpl. destruct (Hen j g Hj Hpl) as (? & m & Hm). split; [done|]. exists m. by apply Hent.
  - intros h pe [Hh Hr]. rewrite He in Hh. apply map_lookup_filter_Some in Hh as [Hh _]. by apply Hown.
Qed.

(** The contract of the event loop, for the connecters. *)
Definition conn_inv (e : epoll) (w : world) : Prop := net_inv None None (timers e) e (connecters w) w.

Lemma settled_inv i e w e' w' c' :
  settled i (timers e) e w (connecters w) e' w' c' ->
  conn_inv e' (set_conn i c' w') /\ keeps e e' /\ last_ms w <= last_ms w' /\
  length (connecters (set_conn i c' w')) = length (connecters w).
Proof.
  intros (tl' & HI & Hk & Hl & Hcn & Htl). split; [|split; [done|split; [done|simpl; by rewrite length_insert, Hcn]]]. unfold conn_inv. apply set_conn_inv. simpl. rewrite Hcn.
  replace (timers e') with tl'; [done|]. destruct Htl as [[-> ->]|(t & -> & -> & _)]; done.
Qed.

(** An event of a live entry, whatever its kind. *)
Lemma conn_event_ok e w h pe :
  ivl_ok -> oracle_ok -> conn_inv e w -> entries e !! h = Some pe -> fd pe <> retired_fd ->
  exists e' w' b, in_event (sink pe) (e, w) = Ok (e', w', b) /\ conn_inv e' w' /\ keeps e e' /\ last_ms w <= last_ms w' /\
    length (connecters w') = length (connecters w).
Proof.
  intros HIV HO HI Hh Hf. pose proof (ni_owned _ _ _ _ _ _ HI h pe (conj Hh Hf)) as Ho. simpl. destruct (sink pe) as [i|j].
  - destruct Ho as (c & Hi & Hv & _). unfold on_conn. cbn [fst snd]. rewrite Hi.
    unfold conn_inv in HI. rewrite <- (list_insert_id _ _ _ Hi) in HI.
    destruct (out_event_ok None _ e (connecters w) w i c HIV HO (or_introl eq_refl) HI ltac:(by eapply lookup_lt_Some) Hv) as (e' & w' & c' & -> & Hset).
    cbn [mbind result_bind]. eexists _, _, _. split; [done|]. exact (settled_inv i e w e' w' c' Hset).
  - destruct Ho as (g & Hg & Hpl & _). cbn [fst snd].
    destruct (react_inv None None (timers e) e (connecters w) w j g HI Hg Hpl) as (e' & w' & b & -> & HI' & Hk & Ht & Hl & Hc).
    exists e', w', b. split; [done|]. unfold conn_inv. rewrite Ht, Hc, Hl. done.
Qed.

Lemma conn_timer_ok e w t l :
  ivl_ok -> oracle_ok -> conn_inv e w -> timers e = t :: l -> expiration t <= last_ms w ->
  exists e' w' l', timer_event (t_sink t) (t_id t) (e, w) = Ok (e', w') /\ conn_inv (erase (node t) e') w' /\ keeps e e' /\
    poller_inv e' /\ last_ms w <= last_ms w' /\ timers e' = t :: l' /\ (forall x, x ∈ l' -> x ∈ l \/ last_ms w < expiration x) /\
    length (connecters w') = length (connecters w).
Proof.
  intros HIV HO HI Ht Hexp. unfold conn_inv in HI. rewrite Ht in HI.
  destruct (ni_timers _ _ _ _ _ _ HI t (list_elem_of_here _ _)) as (Hid & i & c & Hk & Hi & Hts).
  destruct (fired_inv t l e (connecters w) w i c HI Hk Hi Hts) as [HI1 Hidle].
  simpl. rewrite Hk, Hid. unfold on_conn, conn_timer_event. cbn [fst snd]. rewrite Hi, Z.eqb_refl. cbn [mbind result_bind afs_assert].
  destruct (start_ok l e (connecters w) w i _ HIV HO HI1 ltac:(by eapply lookup_lt_Some) Hidle)
    as (e' & w' & c' & -> & tl' & HI2 & Hkp & Hl & Hcn & Htl). cbn [mbind result_bind].
  pose proof (ni_poller _ _ _ _ _ _ HI2) as Hp.
  assert (timers e' = t :: tl' /\ forall x, x ∈ tl' -> x ∈ l \/ last_ms w < expiration x) as [Ht' Hx].
  { destruct Htl as [[-> ->]|(t' & -> & -> & Hlt)]; rewrite Ht; [by auto|]. rewrite insert_timer_head by lia.
    split; [done|]. intros x. rewrite insert_timer_perm. intros [->|?]%elem_of_cons; auto. }
  exists e', (set_conn i c' w'), tl'. split; [done|]. split; [|do 5 (split; [done|]); simpl; by rewrite length_insert, Hcn].
  unfold conn_inv. rewrite (erase_head e' t tl') by done. apply set_conn_inv. simpl. rewrite Hcn.
  eapply entries_inv; [exact HI2 | by apply erase_inv | done].
Qed.

#[export] Program Instance connecter_spec (n : nat) (HIV : ivl_ok) (HO : oracle_ok) : PollEventsSpec sink_t world := {
  Inv e w := conn_inv e w /\ length (connecters w) = n;
  clock := last_ms;
  wants_out _ := true
}.
Next Obligation. intros n HIV HO e w [HI _]. apply HI. Qed.
Next Obligation.
  intros n HIV HO e w [HI Hn]. destruct (clock_inv _ _ _ _ _ _ HO HI) as (ms & w' & Hc & HI' & Hms & Hl & Hcn & _).
  change (now_ms w) with (clock_now_ms w). rewrite Hc. cbn [fst snd]. split; [lia|]. split; [done|]. unfold conn_inv. by rewrite Hcn.
Qed.
Next Obligation. done. Qed.
Next Obligation.
  intros n HIV HO e w b [HI Hn]. split; [|done]. eapply entries_inv; [exact HI | apply stopping_inv, HI | done].
Qed.
Next Obligation.
  intros n HIV HO e e' w [HI Hn] Hf. destruct (free_inv _ _ _ _ _ _ _ HI Hf) as [HI' Ht]. split; [|done].
  unfold conn_inv. by rewrite Ht.
Qed.
Next Obligation.
  intros n HIV HO e w h pe [HI Hn] Hh Hf. destruct (conn_event_ok e w h pe HIV HO HI Hh Hf) as (e' & w' & b & H1 & H2 & H3 & H4 & H5).
  exists e', w', b. rewrite H5. done.
Qed.
Next Obligation.
  intros n HIV HO e w h pe [HI Hn] Hh Hf _. destruct (conn_event_ok e w h pe HIV HO HI Hh Hf) as (e' & w' & b & H1 & H2 & H3 & H4 & H5).
  exists e', w', b. rewrite H5. done.
Qed.
Next Obligation.
  intros n HIV HO e w t l [HI Hn] Ht Hexp.
  destruct (conn_timer_ok e w t l HIV HO HI Ht Hexp) as (e' & w' & l' & H1 & H2 & H3 & H4 & H5 & H6 & H7 & H8).
  exists e', w', l'. rewrite H8. done.
Qed.

(** One more connecter, about to be started. *)
Lemma extend_inv tl e cs w c :
  net_inv None None tl e cs w -> idle c -> net_inv None (Some (length cs)) tl e (cs ++ [c]) w.
Proof.
  intros [Hp Hc Hcs Hen Hown Ht Ht1 Ho Ho1] (Hs & Hv & Hts & Hiv).
  assert (forall i d, cs !! i = Some d -> (cs ++ [c]) !! i = Some d /\ i <> length cs) as Hold.
  { intros i d Hi. split; [by apply lookup_app_l_Some|]. apply lookup_lt_Some in Hi. lia. }
  split; try done.
  - intros i d Hi. apply lookup_snoc_Some in Hi as [[Hlt Hi]|[-> <-]].
    + pose proof (Hcs i d Hi) as [Hd1 Hd]. split; [done|]. assert (Some (length cs) <> Some i) by (intros [= <-]; lia).
      destruct (handle_valid d), (timer_started d); try done; intuition congruence.
    + split; [done|]. rewrite Hv, Hts. auto.
  - intros h pe Hl. pose proof (Hown h pe Hl) as Ho'. destruct (sink pe) as [i|j]; [|done].
    destruct Ho' as (d & Hd & Hrest). exists d. split; [by apply Hold|done].
  - intros t Hin. destruct (Ht t Hin) as (Hid & i & d & Hi & Hd & Hdt). split; [done|]. exists i, d. split; [done|]. split; [by apply Hold|done].
  - intros g Hg. destruct (Ho g Hg) as (_ & d & Hd & Hrest). destruct (Hold _ _ Hd) as [Hd' Hne].
    split; [congruence|]. by exists d.
Qed.

(** The connecters from [k] on are started in turn. *)
Lemma connect_from_ok m k e w :
  ivl_ok -> oracle_ok -> (k + m)%nat = length (connecters w) ->
  net_inv None None (timers e) e (take k (connecters w)) w ->
  (forall i c, (k <= i)%nat -> connecters w !! i = Some c -> idle c) ->
  exists e' w', foldM (fun st i => on_conn i (start_connecting i) st) (seq k m) (e, w) = Ok (e', w') /\
    conn_inv e' w' /\ length (connecters w') = length (connecters w).
Proof.
  intros HIV HO. revert k e w. induction m as [|m IH]; intros k e w Hk HI Hid.
  - exists e, w. split; [done|]. split; [|done]. unfold conn_inv. by rewrite take_ge in HI by lia.
  - destruct (lookup_lt_is_Some_2 (connecters w) k ltac:(lia)) as [c Hc].
    assert (take (S k) (connecters w) = take k (connecters w) ++ [c]) as Htake by (by apply take_S_r).
    assert (length (take k (connecters w)) = k) as Hlen by (rewrite length_take; lia).
    pose proof (extend_inv _ _ _ _ c HI (Hid k c ltac:(lia) Hc)) as HI1. rewrite Hlen, <- Htake in HI1.
    rewrite <- (list_insert_id (take (S k) (connecters w)) k c) in HI1 by (rewrite lookup_take_lt by lia; done).
    destruct (start_ok _ e _ w k c HIV HO HI1) as (e1 & w1 & c1 & Hrun & tl' & HI2 & Hkp & Hl & Hcn & Htl).
    { rewrite length_take. lia. } { apply (Hid k); [lia|done]. }
    assert (on_conn k (start_connecting k) (e, w) = Ok (e1, set_conn k c1 w1)) as Hon
      by (unfold on_conn; cbn [fst snd]; by rewrite Hc, Hrun).
    cbn [seq foldM]. rewrite Hon. cbn [mbind result_bind].
    destruct (IH (S k) e1 (set_conn k c1 w1)) as (e' & w' & -> & HI' & Hlen').
    + simpl. rewrite length_insert, Hcn. lia.
    + apply set_conn_inv. cbn [connecters set_conn]. rewrite Hcn, take_insert_lt by lia.
      replace (timers e1) with tl'; [done|]. destruct Htl as [[-> ->]|(t & -> & -> & _)]; done.
    + simpl. intros i d Hi Hd. rewrite Hcn, list_lookup_insert_ne in Hd by lia. by apply (Hid i); [lia|].
    + exists e', w'. split; [done|]. split; [done|]. rewrite Hlen'. simpl. by rewrite length_insert, Hcn.
Qed.

Lemma connect_all_ok worker_id n fds :
  ivl_ok -> oracle_ok -> retired_fd ∉ fds ->
  exists e w, connect_all n (new_epoll fds, new_world worker_id n) = Ok (e, w) /\ conn_inv e w /\ length (connecters w) = n.
Proof.
  intros HIV HO Hf. unfold connect_all.
  destruct (connect_from_ok n 0 (new_epoll fds) (new_world worker_id n) HIV HO) as (e & w & Hrun & HI & Hlen).
  - simpl. by rewrite length_replicate.
  - simpl. split; simpl; try done; try by constructor.
    + by apply new_epoll_inv.
    + intros k _. apply Z.div_pos; [|lia]. apply unsigned_of_range. lia.
    + intros h pe [Hh _]. simpl in Hh. by rewrite lookup_empty in Hh.
    + by intros t ?%elem_of_nil.
    + by intros g ?%elem_of_nil.
  - simpl. intros i c _ [-> _]%lookup_replicate. destruct HIV. repeat split; simpl; lia.
  - exists e, w. split; [done|]. split; [done|]. rewrite Hlen. simpl. by rewrite length_replicate.
Qed.

(** What a connecter is waiting for: the end of [connect], on a descriptor the
    poller watches for output; its one timer; or nothing more, because the one
    engine of its connection exists. *)
Definition on_its_way (e : epoll) (w : world) (i : nat) (c : tcp_connecter_t) : Prop :=
  (handle_valid c = true /\ interest e !! s c = Some (EPOLLOUT, handle c)) \/
  (timer_started c = true /\ s c = retired_fd /\
     exists t, t ∈ timers e /\ t_sink t = SConn i /\ t_id t = reconnect_timer_id /\
       forall t', t' ∈ timers e -> t_sink t' = SConn i -> t' = t) \/
  (s c = retired_fd /\ handle_valid c = false /\ timer_started c = false /\
     exists g, g ∈ engines w /\ e_owner g = i /\ forall g', g' ∈ engines w -> e_owner g' = i -> g' = g).

Lemma conn_inv_on_its_way e w i c : conn_inv e w -> connecters w !! i = Some c -> on_its_way e w i c.
Proof.
  intros HI Hi. pose proof HI as [Hp _ Hcs _ _ Ht Ht1 _ Ho1]. pose proof (Hcs i c Hi) as [_ Hc]. unfold on_its_way.
  destruct (handle_valid c), (timer_started c); try done.
  - destruct Hc as (_ & Hs & m & Hm & [->|?]); [|done]. left. split; [done|]. by apply (live_interest e _ _ Hp Hm).
  - destruct Hc as (_ & Hs & t & Hin & Hk). right. left. split; [done|]. split; [done|]. exists t.
    destruct (Ht t Hin) as [Hid _]. do 3 (split; [done|]). intros t' Hin' Hk'.
    apply (NoDup_fmap_inj_in t_sink (timers e)); [done..|congruence].
  - destruct Hc as (Hs & [?|(g & Hg & Ho)]); [done|]. right. right. do 3 (split; [done|]). exists g. do 2 (split; [done|]).
    intros g' Hg' Ho'. apply (NoDup_fmap_inj_in e_owner (engines w)); [done..|congruence].
Qed.

End Connecter.

(** The connecters and the event loop together: every connecter can be
    started, no turn of the loop fails, and after each turn every connecter is on
    its way. *)
Lemma connecters_run reconnect_ivl reconnect_ivl_max oracle worker_id n fds :
  ivl_ok reconnect_ivl reconnect_ivl_max -> oracle_ok oracle -> retired_fd ∉ fds ->
  let events := connecter_events reconnect_ivl reconnect_ivl_max oracle in
  exists st0, connect_all reconnect_ivl reconnect_ivl_max oracle n (new_epoll fds, new_world reconnect_ivl worker_id n) = Ok st0 /\
    forall st, loop_reaches (PollEvents0 := events) st0 st ->
      (forall o, loop_step (PollEvents0 := events) st o -> exists st', o = Ok st') /\
      (forall i, (i < n)%nat -> exists c, connecters st.2 !! i = Some c /\ on_its_way st.1 st.2 i c).
Proof.
  intros HIV HO Hf events. destruct (connect_all_ok _ _ oracle worker_id n fds HIV HO Hf) as (e & w & Hrun & HI & Hn).
  exists (e, w). split; [done|]. intros st Hst. pose (spec := connecter_spec _ _ _ n HIV HO).
  assert (Inv st.1 st.2) as HIst by (by apply (loop_reaches_inv (e, w) st Hst)). split.
  - intros o Ho. destruct (loop_step_ok st o HIst Ho) as (st' & -> & _). by exists st'.
  - intros i Hi. destruct HIst as [HIst Hlen]. destruct (lookup_lt_is_Some_2 (connecters st.2) i ltac:(lia)) as [c Hc].
    exists c. split; [done|]. by eapply conn_inv_on_its_way.
Qed.

(** Kernels used as examples: the time advances by 60 ms per system call, each
    [connect] is in progress, and every other outcome is a refused connection. *)
Definition sample_oracle (k : nat) : answer :=
  mkanswer (Z.min (60000 * Z.of_nat k) (2 ^ 62)) (3 + Z.of_nat k) 115 (if Nat.even k then 111 else 0) 7 1 (Some 0%nat)
    (mkreaction true false false false false).

Lemma sample_oracle_ok : oracle_ok sample_oracle.
Proof.
  split.
  - intros k k' Hk. simpl. rewrite !unsigned_of_small by (unfold in_unsigned; lia). lia.
  - intros k. simpl. destruct (Nat.even k); [right|by left]. repeat constructor.
  - intros k. by eexists.
Qed.

(** ** The reconnection interval *)

(** The intervals of successive attempts. *)
Fixpoint attempts (ivl max : Z) (randoms : list Z) (c : tcp_connecter_t) : result (list Z * tcp_connecter_t) :=
  match randoms with
  | [] => Ok ([], c)
  | r :: rs =>
      '(v, c1) ← get_new_reconnect_ivl ivl max c r;
      '(vs, c2) ← attempts ivl max rs c1;
      Ok (v :: vs, c2)
  end.

(** The interval before the random part at the [k]-th attempt. *)
Definition backoff (ivl max : Z) (k : nat) : Z := if ivl <? max then Z.min (ivl * 2 ^ Z.of_nat k) max else ivl.

Lemma backoff_S ivl max k : 1 <= ivl ->
  backoff ivl max (S k) = if ivl <? max then Z.min (2 * backoff ivl max k) max else backoff ivl max k.
Proof.
  intros Hi. unfold backoff. destruct (Z.ltb_spec ivl max); [|done]. rewrite Nat2Z.inj_succ, Z.pow_succ_r by lia.
  pose proof (Z.pow_pos_nonneg 2 (Z.of_nat k)). nia.
Qed.

Lemma attempts_ok ivl max randoms c j :
  ivl_ok ivl max -> current_reconnect_ivl c = backoff ivl max j ->
  exists vs c', attempts ivl max randoms c = Ok (vs, c') /\ length vs = length randoms /\
    forall k v, vs !! k = Some v -> backoff ivl max (j + k) <= v < backoff ivl max (j + k) + ivl.
Proof.
  intros Hok. revert c j. induction randoms as [|r rs IH]; intros c j Hc.
  - exists [], c. split; [done|]. split; [done|]. intros k v Hk. by rewrite lookup_nil in Hk.
  - destruct (new_ivl_ok ivl max c r Hok) as (v & n & Hv & Hrange & Hn & _).
    { rewrite Hc. unfold backoff. destruct Hok. pose proof (Z.pow_pos_nonneg 2 (Z.of_nat j)). destruct (Z.ltb_spec ivl max); nia. }
    cbn [attempts]. rewrite Hv. cbn [mbind result_bind].
    destruct (IH (with_ivl n c) (S j)) as (vs & c' & Hrun & Hlen & Hvs).
    { simpl. rewrite Hn, Hc. symmetry. apply backoff_S. apply Hok. }
    rewrite Hrun. cbn [mbind result_bind]. exists (v :: vs), c'. split; [done|]. split; [simpl; lia|].
    intros [|k] x Hx; simpl in Hx.
    + injection Hx as <-. rewrite Nat.add_0_r, <- Hc. done.
    + rewrite Nat.add_succ_r. by apply (Hvs k).
Qed.

(** C36 Exponential back-off: the [k]-th reconnection attempt waits between
    [base] and [base + reconnect_ivl] milliseconds, where [base] is the
    configured interval doubled [k] times and capped at the maximum (or the
    configured interval when no larger maximum is set), whatever the random
    numbers are; no interval overflows. *)
Theorem reconnect_backoff ivl max worker_id randoms :
  ivl_ok ivl max ->
  exists vs c', attempts ivl max randoms (new_connecter ivl worker_id) = Ok (vs, c') /\ length vs = length randoms /\
    forall k v, vs !! k = Some v -> backoff ivl max k <= v < backoff ivl max k + ivl.
Proof.
  intros Hok. apply (attempts_ok ivl max randoms (new_connecter ivl worker_id) 0 Hok).
  unfold backoff. simpl. destruct Hok. destruct (Z.ltb_spec ivl max); lia.
Qed.

Lemma reconnect_backoff_witness :
  attempts 100 1000 [5; 1234; 99; 0; 7] (new_connecter 100 1) =
    Ok ([105; 234; 499; 800; 1007], mkconnecter 1 (-1) 0 false false 1000) /\
  exists vs c', attempts 100 1000 [5; 1234; 99; 0; 7] (new_connecter 100 1) = Ok (vs, c') /\
    length vs = length [5; 1234; 99; 0; 7] /\
    forall k v, vs !! k = Some v -> backoff 100 1000 k <= v < backoff 100 1000 k + 100.
Proof. split; [vm_compute; reflexivity|]. apply (reconnect_backoff 100 1000 1). split; lia. Defined.

(** An interval of zero, which the option accepts, divides by zero at the first
    attempt to reconnect. *)
Lemma zero_interval_traps max c random : get_new_reconnect_ivl 0 max c random = Stop DivByZero.
Proof. done. Qed.

End Connecter.
