(* ===== verification/NetThreads.v ===== *)
(** The start of the network threads ([UpThreadNet] in
    [src/thread/up_thread_net.hpp] and [DownThreadNet] in
    [src/thread/down_thread_net.hpp]): the endpoints they are given are parsed
    and resolved, the up thread listens on its endpoint, and the down thread
    connects to every destination and runs its event loop; the loop of the up
    thread is in the file UpLoop. *)
From Stdlib Require Import String ZArith Lia.
From stdpp Require Import base gmap list relations.
From S2P Require Import Prelude TcpAddress Poller Options Listener Connecter.
Import Addr Poller Options Listener Connecter.

Module NetThreads.

Section Threads.
(** The resolver of the C library. *)
Context (getifaddrs : list (cstr * option sockaddr)) (getaddrinfo : cstr -> Z -> Z -> addrinfo).

(** The parts of an endpoint; a malformed one stops the process. *)
Definition parse_endpoint (uri : cstr) : result cstr :=
  match parse_uri uri with
  | None => Stop AssertFailed
  | Some (protocol, address) => _ ← afs_assert (check_protocol protocol); Ok address
  end.

(** ** The up thread *)

(** [UpThreadNet::ThreadInitHandler]: the poller with the listener registered,
    its descriptor and its handle. *)
Definition UpThreadInit {K : Type} (listener : K) (options : options_t) (listen_addr_ : cstr) (fds : gset Z) (b : bind_answers)
    : result (epoll_t K * Z * Z) :=
  address ← parse_endpoint listen_addr_;
  '(e, _, s, ok) ← set_address getifaddrs getaddrinfo options (new_epoll fds) retired_fd new_tcp_address address b;
  if ok : bool then
    '(e1, h) ← add_fd e s listener;
    e2 ← set_pollin e1 h;
    Ok (e2, s, h)
  else Stop ExitFailure.

(** ** The down thread *)

Record DownThreadNet := mkdown { num_downstream_ : nat; connect_addrs_ : list cstr }.

Definition AddDest (t : DownThreadNet) (dest : cstr) : DownThreadNet :=
  mkdown (num_downstream_ t) (connect_addrs_ t ++ [dest]).

(** [Connect] up to the creation of the connecter: the endpoint must parse and
    resolve. *)
Definition check_dest (options : options_t) (addr_ : cstr) : result sockaddr :=
  address ← parse_endpoint addr_;
  '(a, r) ← resolve getifaddrs getaddrinfo new_tcp_address address false (ipv6 options);
  match r : rc with RC0 => Ok a | _ => Stop AssertFailed end.

(** [Connect (i, addr_)]. *)
Definition Connect (options : options_t) (oracle : nat -> answer) (st : epoll_t sink_t * world) (d : nat * cstr)
    : result (epoll_t sink_t * world) :=
  _ ← check_dest options d.2;
  on_conn d.1 (start_connecting (reconnect_ivl options) (reconnect_ivl_max options) oracle d.1) st.

(** [DownThreadNet::ThreadInitHandler]; the connecters are those [Connect]
    creates. *)
Definition DownThreadInit (options : options_t) (oracle : nat -> answer) (t : DownThreadNet) (worker_id : Z) (fds : gset Z)
    : result (epoll_t sink_t * world) :=
  _ ← afs_assert (bool_decide (num_downstream_ t = length (connect_addrs_ t)));
  foldM (Connect options oracle) (zip (seq 0 (length (connect_addrs_ t))) (connect_addrs_ t))
    (new_epoll fds, new_world (reconnect_ivl options) worker_id (num_downstream_ t)).

(** ** Starting *)

(** An endpoint the thread can use. *)
Definition usable (options : options_t) (addr_ : cstr) : Prop := exists a, check_dest options addr_ = Ok a.

Lemma connects_all options oracle k addrs st :
  Forall (usable options) addrs ->
  foldM (Connect options oracle) (zip (seq k (length addrs)) addrs) st =
  foldM (fun st i => on_conn i (start_connecting (reconnect_ivl options) (reconnect_ivl_max options) oracle i) st) (seq k (length addrs)) st.
Proof.
  intros Hall. revert k st. induction Hall as [|addr addrs [a Ha] Hall IH]; intros k st; [done|].
  assert (Connect options oracle st (k, addr) = on_conn k (start_connecting (reconnect_ivl options) (reconnect_ivl_max options) oracle k) st)
    as E by (unfold Connect; cbn [fst snd]; by rewrite Ha).
  cbn [length seq zip zip_with foldM]. rewrite E.
  by destruct (on_conn _ _ _) as [st'|]; [apply IH|].
Qed.

Lemma down_init_ok options oracle t worker_id fds :
  num_downstream_ t = length (connect_addrs_ t) -> Forall (usable options) (connect_addrs_ t) ->
  DownThreadInit options oracle t worker_id fds =
  connect_all (reconnect_ivl options) (reconnect_ivl_max options) oracle (num_downstream_ t)
    (new_epoll fds, new_world (reconnect_ivl options) worker_id (num_downstream_ t)).
Proof.
  intros Hn Hall. unfold DownThreadInit, connect_all. rewrite bool_decide_true by done. cbn [mbind result_bind afs_assert].
  rewrite connects_all by done. by rewrite Hn.
Qed.


End Threads.

(** Two destinations, by the resolver of [TcpAddress]. *)
Definition sample_dests : DownThreadNet := mkdown 2 [lit "tcp://10.1.2.3:5000"%string; lit "tcp://10.1.2.3:5001"%string].


(** An endpoint that is not [tcp], or has no port, stops the process. *)
Lemma bad_endpoints :
  check_dest [] sample_getaddrinfo new_options (lit "udp://10.1.2.3:5000"%string) = Stop AssertFailed /\
  check_dest [] sample_getaddrinfo new_options (lit "tcp://10.1.2.3"%string) = Stop AssertFailed /\
  check_dest [] sample_getaddrinfo new_options (lit "10.1.2.3:5000"%string) = Stop AssertFailed.
Proof. repeat split; vm_compute; reflexivity. Qed.

End NetThreads.
