(* ===== verification/UpLoop.v ===== *)
(** The up thread at work: the listening socket of [src/net/tcp_listener.cpp]
    and the engines of the accepted connections on the poller of [UpThreadNet]
    ([src/thread/up_thread_net.hpp]), from [ThreadInitHandler] through the event
    loop of [ThreadMainHandler].

    As in the file Connecter the kernel's answers come from an oracle and an
    engine is present with what it does to the poller.  The type classes of
    [Poller] are instantiated, so the guarantees of the event loop hold for the
    listener and its engines. *)
From Stdlib Require Import String ZArith Lia.
From stdpp Require Import base gmap list relations.
From S2P Require Import Prelude TcpAddress Options Poller Listener Connecter NetThreads.
Import Addr Options Poller.

Module UpLoop.
Import Listener.
Export Connecter (reaction, mkreaction, r_pollin, r_pollout, r_leave, r_close, r_stop).

(** Who receives an event. *)
Inductive sink_t := SListen | SEngine (j : nat).

#[export] Instance sink_eq_dec : EqDecision sink_t.
Proof. solve_decision. Defined.

Abbreviation epoll := (epoll_t sink_t).

(** The answers to one system call: the time, [accept], the worker id the peer
    sends, and what an engine does. *)
Record answer := mkanswer { u_us : Z; u_accept : accept_answer; u_peer : option Z; u_react : reaction }.

(** An engine and its place in [out_callbacks_]. *)
Record engine := mkengine { e_fd : Z; e_handle : Z; e_plugged : bool; e_callback : option nat }.

(** The state behind the handlers: the listener's descriptor and handle, the
    engines, the number of system calls made and the last time read. *)
Record world := mkworld { listener : Z; l_handle : Z; engines : list engine; tick : nat; last_ms : Z }.

Definition set_engines (l : list engine) (w : world) : world := mkworld (listener w) (l_handle w) l (tick w) (last_ms w).

Section Loop.
Context (options : options_t) (num_upstream : nat) (oracle : nat -> answer).

Definition ask (w : world) : answer * world :=
  (oracle (tick w), mkworld (listener w) (l_handle w) (engines w) (S (tick w)) (last_ms w)).

Definition clock_now_ms (w : world) : Z * world :=
  let '(a, w1) := ask w in
  let ms := u64 (u_us a) / 1000 in
  (ms, mkworld (listener w1) (l_handle w1) (engines w1) (tick w1) ms).

(** A descriptor the kernel gives is not open already; otherwise there was none
    left ([EMFILE]). *)
Definition kernel_accept (e : epoll) (a : accept_answer) : accept_answer :=
  match a with
  | Accepted f ss ss_len => if (0 <=? f) && negb (bool_decide (f ∈ open_fds e)) then a else AcceptError 24
  | AcceptError _ => a
  end.

(** An event of engine [j]. *)
Definition react (j : nat) (e : epoll) (w : world) : result (epoll * world * bool) :=
  match engines w !! j with
  | None => Stop NullDeref
  | Some g =>
      let '(a, w1) := ask w in
      let r := u_react a in
      if r_leave r then
        e1 ← rm_fd e (e_handle g);
        e2 ← (if r_close r then close_fd (e_fd g) e1 else Ok e1);
        Ok (e2, set_engines (<[j := mkengine (e_fd g) (e_handle g) false (e_callback g)]> (engines w1)) w1, r_stop r)
      else
        e1 ← (if r_pollin r then set_pollin else reset_pollin) e (e_handle g);
        e2 ← (if r_pollout r then set_pollout else reset_pollout) e1 (e_handle g);
        Ok (e2, w1, r_stop r)
  end.

(** A new engine and its [plug]. *)
Definition plug_engine (cb : option nat) (f : Z) (e : epoll) (w : world) : result (epoll * world) :=
  let j := length (engines w) in
  '(e1, h) ← add_fd e f (SEngine j);
  e2 ← set_pollin e1 h;
  e3 ← set_pollout e2 h;
  '(e4, w4, _) ← react j e3 (set_engines (engines w ++ [mkengine f h true cb]) w);
  Ok (e4, w4).

(** [tcp_listener_t::in_event]; the callbacks are named by their numbers. *)
Definition listen_event (e : epoll) (w : world) : result (epoll * world * bool) :=
  let '(a, w1) := ask w in
  '(e1, c) ← Listener.in_event options (listener w1) (Some (seq 0 num_upstream)) e (kernel_accept e (u_accept a)) (u_peer a);
  match c with
  | None => Ok (e1, w1, false)
  | Some (f, cb) => '(e2, w2) ← plug_engine cb f e1 w1; Ok (e2, w2, false)
  end.

(** The handlers; [io_object_t] has the ones the listener lacks. *)
#[export] Instance listener_events : PollEvents sink_t world := {
  now_ms := clock_now_ms;
  in_event k st := match k with SListen => listen_event st.1 st.2 | SEngine j => react j st.1 st.2 end;
  out_event k st := match k with SListen => Stop AssertFailed | SEngine j => react j st.1 st.2 end;
  timer_event k id_ st := Stop AssertFailed
}.

(** [ThreadInitHandler]: the poller with the listener. *)
Definition ThreadInitHandler (getifaddrs : list (cstr * option sockaddr)) (getaddrinfo : cstr -> Z -> Z -> addrinfo)
    (listen_addr_ : cstr) (fds : gset Z) (b : bind_answers) : result (epoll * world) :=
  '(e, s, h) ← NetThreads.UpThreadInit getifaddrs getaddrinfo SListen options listen_addr_ fds b;
  Ok (e, mkworld s h [] 0 0).

(** ** The invariant *)

(** What the kernel and the other workers promise: the clock is not set back,
    [accept] gives addresses or one of its errors, and every worker that connects
    sends its number. *)
Record oracle_ok : Prop := {
  ok_clock : forall k k', (k <= k')%nat -> u64 (u_us (oracle k)) <= u64 (u_us (oracle k'));
  ok_accept : forall k, match u_accept (oracle k) with
                        | AcceptError errno => errno ∈ accept_tolerated
                        | Accepted _ ss ss_len => peer_ok ss ss_len
                        end;
  ok_peer : forall k, exists i, u_peer (oracle k) = Some i /\ 0 <= i < Z.of_nat num_upstream
}.

Record up_inv (e : epoll) (w : world) : Prop := {
  ui_poller : poller_inv e;
  ui_timers : timers e = [];
  ui_clock : forall k, (tick w <= k)%nat -> last_ms w <= u64 (u_us (oracle k)) / 1000;
  ui_listener : listener w <> retired_fd /\ entries e !! l_handle w = Some (mkentry (listener w) EPOLLIN SListen);
  ui_sink : forall h pe, entries e !! h = Some pe -> sink pe = SListen -> h = l_handle w;
  ui_engines : forall j g, engines w !! j = Some g -> e_plugged g = true ->
    e_fd g <> retired_fd /\ exists m, entries e !! e_handle g = Some (mkentry (e_fd g) m (SEngine j));
  ui_owned : forall h pe j, entries e !! h = Some pe -> fd pe <> retired_fd -> sink pe = SEngine j ->
    exists g, engines w !! j = Some g /\ e_plugged g = true /\ e_handle g = h;
  ui_callbacks : Forall (fun g => exists i, e_callback g = Some i /\ (i < num_upstream)%nat) (engines w)
}.

(** System calls that only return something. *)
Lemma up_ask_inv e w : up_inv e w -> up_inv e (ask w).2.
Proof. intros [Hp Ht Hc Hl Hs He Ho Hcb]. split; try done. intros k Hk. apply Hc. simpl in Hk. lia. Qed.

Lemma up_entries_inv e e' w :
  up_inv e w -> poller_inv e' -> entries e' = entries e -> timers e' = timers e -> up_inv e' w.
Proof. intros [Hp Ht Hc Hl Hs He Ho Hcb] Hp' E1 E2. split; rewrite ?E1, ?E2; done. Qed.

(** An engine changes what it polls for. *)
Lemma up_engine_modify f e w j g :
  up_inv e w -> engines w !! j = Some g -> e_plugged g = true ->
  exists e', modify f e (e_handle g) = Ok e' /\ up_inv e' w /\ keeps e e'.
Proof.
  intros [Hp Ht Hc Hl Hs He Ho Hcb] Hj Hpl. destruct (He j g Hj Hpl) as (Hf & m & Hm).
  destruct (modify_ok f e (e_handle g) _ Hp Hm Hf) as (e' & Hmod & Hp' & Hk & E & _ & _ & _ & _ & Htm & _). simpl in E.
  exists e'. split; [done|]. split; [|done]. split; try done.
  - by rewrite Htm.
  - destruct Hl as [Hr Hl]. split; [done|]. rewrite E, lookup_insert_ne; [done|]. intros Eh. rewrite Eh, Hl in Hm. done.
  - intros h pe Hpe Hsk. rewrite E in Hpe. apply lookup_insert_Some in Hpe as [[<- <-]|[_ Hpe]]; [done|by apply (Hs h pe)].
  - intros k y Hk' Hy. destruct (He k y Hk' Hy) as (Hfy & my & Hmy). split; [done|]. rewrite E.
    destruct (decide (e_handle y = e_handle g)) as [Eh|Hne]; [|rewrite lookup_insert_ne by done; eauto].
    rewrite Eh, lookup_insert_eq. rewrite Eh, Hm in Hmy. injection Hmy as <- <- <-. eauto.
  - intros h pe k Hpe Hfp Hsk. rewrite E in Hpe. apply lookup_insert_Some in Hpe as [[<- <-]|[_ Hpe]]; [|by eapply Ho].
    simpl in Hsk. injection Hsk as <-. eauto.
Qed.

(** An engine leaves the poller. *)
Lemma up_leave_inv e w j g :
  up_inv e w -> engines w !! j = Some g -> e_plugged g = true ->
  exists e', rm_fd e (e_handle g) = Ok e' /\ keeps e e' /\ e_fd g ∈ open_fds e' /\ interest e' !! e_fd g = None /\
    up_inv e' (set_engines (<[j := mkengine (e_fd g) (e_handle g) false (e_callback g)]> (engines w)) w).
Proof.
  intros [Hp Ht Hc Hl Hs He Ho Hcb] Hj Hpl. destruct (He j g Hj Hpl) as (Hf & m & Hm).
  destruct (rm_fd_ok e (e_handle g) _ Hp Hm Hf) as (e' & Hrm & Hp' & Hk & E & Hop & Hin & _ & Htm & _). simpl in E, Hin.
  pose proof (live_interest e _ _ Hp Hm Hf) as Hli. simpl in Hli.
  exists e'. split; [done|]. split; [done|]. split; [rewrite Hop; apply (pi_open e Hp); eauto|].
  split; [rewrite Hin; apply lookup_delete_eq|]. split; try done; simpl.
  - by rewrite Htm.
  - destruct Hl as [Hr Hl]. split; [done|]. rewrite E, lookup_insert_ne; [done|]. intros Eh. rewrite Eh, Hl in Hm. done.
  - intros h pe Hpe Hsk. rewrite E in Hpe. apply lookup_insert_Some in Hpe as [[<- <-]|[_ Hpe]]; [done|by apply (Hs h pe)].
  - intros k y Hk' Hy. apply list_lookup_insert_Some in Hk' as [(-> & <- & _)|[Hne Hk']]; [done|].
    destruct (He k y Hk' Hy) as (Hfy & my & Hmy). split; [done|]. exists my. rewrite E, lookup_insert_ne; [done|].
    intros Eh. rewrite <- Eh, Hm in Hmy. injection Hmy as _ _ ?. done.
  - intros h pe k Hpe Hfp Hsk. rewrite E in Hpe. apply lookup_insert_Some in Hpe as [[<- <-]|[Hne Hpe]]; [done|].
    destruct (Ho h pe k Hpe Hfp Hsk) as (y & Hy & Hyp & Hyh). exists y. split; [|done]. rewrite list_lookup_insert_ne; [done|].
    intros <-. congruence.
  - apply Forall_insert; [done|]. simpl. rewrite Forall_lookup in Hcb. by apply (Hcb j).
Qed.

(** An event of an engine. *)
Lemma up_react_inv e w j g :
  up_inv e w -> engines w !! j = Some g -> e_plugged g = true ->
  exists e' w' b, react j e w = Ok (e', w', b) /\ up_inv e' w' /\ keeps e e' /\ last_ms w' = last_ms w /\
    listener w' = listener w /\ l_handle w' = l_handle w.
Proof.
  intros HI Hj Hpl. unfold react. rewrite Hj. unfold ask. set (r := u_react (oracle (tick w))).
  pose proof (up_ask_inv _ _ HI) as HI1. set (w1 := mkworld _ _ _ _ _). change (ask w).2 with w1 in HI1. destruct (r_leave r).
  - destruct (up_leave_inv e w1 j g HI1 Hj Hpl) as (e1 & -> & Hk1 & Hop & Hin & HI2). cbn [mbind result_bind].
    destruct (r_close r); [|by eexists _, _, _].
    destruct (close_fd_ok e1 (e_fd g) (ui_poller _ _ HI2) Hop Hin) as (e2 & -> & Hp2 & He2 & _ & _ & _ & _ & Htm & _).
    cbn [mbind result_bind]. eexists _, _, _. split; [done|]. split; [by apply (up_entries_inv e1)|].
    split; [|done]. intros h pe Hpe. rewrite He2. by apply Hk1.
  - assert (exists e1, (if r_pollin r then set_pollin else reset_pollin) e (e_handle g) = Ok e1 /\ up_inv e1 w1 /\ keeps e e1)
      as (e1 & -> & HI2 & Hk1) by (by destruct (r_pollin r); eapply up_engine_modify).
    cbn [mbind result_bind].
    assert (exists e2, (if r_pollout r then set_pollout else reset_pollout) e1 (e_handle g) = Ok e2 /\ up_inv e2 w1 /\ keeps e1 e2)
      as (e2 & -> & HI3 & Hk2) by (by destruct (r_pollout r); eapply up_engine_modify).
    cbn [mbind result_bind]. eexists _, _, _. split; [done|]. split; [done|]. split; [by etrans|done].
Qed.

(** The engine of a new connection is registered and plugged. *)
Lemma up_engine_inv e w f i :
  up_inv e w -> f ∈ open_fds e -> interest e !! f = None -> (i < num_upstream)%nat ->
  exists e' h, add_fd e f (SEngine (length (engines w))) = Ok (e', h) /\
    up_inv e' (set_engines (engines w ++ [mkengine f h true (Some i)]) w) /\ keeps e e'.
Proof.
  intros [Hp Ht Hc Hl Hs He Ho Hcb] Hf Hni Hi.
  assert (f <> retired_fd) as Hfr by (intros ->; by apply (pi_no_retired e Hp)).
  destruct (add_fd_ok e f (SEngine (length (engines w))) Hp Hf Hni) as (e' & Hadd & Hp' & Hk & E & _ & _ & _ & _ & Htm & _).
  exists e', (next_entry e). split; [done|]. split; [|done].
  assert (Hent : forall h pe, entries e !! h = Some pe -> entries e' !! h = Some pe).
  { intros h pe Hpe. rewrite E, lookup_insert_ne; [done|]. intros <-. assert (next_entry e < next_entry e) by (apply (pi_fresh e Hp); eauto). lia. }
  split; try done; simpl.
  - by rewrite Htm.
  - destruct Hl as [Hr Hl]. split; [done|by apply Hent].
  - intros h pe Hpe Hsk. rewrite E in Hpe. apply lookup_insert_Some in Hpe as [[<- <-]|[_ Hpe]]; [done|by apply (Hs h pe)].
  - intros k y Hy Hyp. apply lookup_snoc_Some in Hy as [[Hlt Hy]|[-> <-]].
    + destruct (He k y Hy Hyp) as (? & m & Hm). split; [done|]. exists m. by apply Hent.
    + split; [done|]. exists 0. rewrite E. apply lookup_insert_eq.
  - intros h pe k Hpe Hfp Hsk. rewrite E in Hpe. apply lookup_insert_Some in Hpe as [[<- <-]|[_ Hpe]].
    + injection Hsk as <-. eexists. by rewrite lookup_app_r, Nat.sub_diag by done.
    + destruct (Ho h pe k Hpe Hfp Hsk) as (y & Hy & Hrest). exists y. split; [by apply lookup_app_l_Some|done].
  - apply Forall_app. split; [done|]. constructor; [|constructor]. simpl. eauto.
Qed.

Lemma up_plug_inv e w f i :
  up_inv e w -> f ∈ open_fds e -> interest e !! f = None -> (i < num_upstream)%nat ->
  exists e' w', plug_engine (Some i) f e w = Ok (e', w') /\ up_inv e' w' /\ keeps e e' /\ last_ms w' = last_ms w /\
    listener w' = listener w /\ l_handle w' = l_handle w.
Proof.
  intros HI Hf Hni Hi. destruct (up_engine_inv e w f i HI Hf Hni Hi) as (e1 & h & Hadd & HI1 & Hk1). unfold plug_engine. rewrite Hadd.
  cbn [mbind result_bind]. set (w1 := set_engines _ w) in *. set (g := mkengine f h true (Some i)) in *.
  assert (Hj : engines w1 !! length (engines w) = Some g) by (simpl; by rewrite lookup_app_r, Nat.sub_diag by done).
  destruct (up_engine_modify (fun m => Z.lor m EPOLLIN) e1 w1 _ g HI1 Hj eq_refl) as (e2 & Hm2 & HI2 & Hk2).
  change (e_handle g) with h in Hm2. unfold set_pollin. rewrite Hm2. cbn [mbind result_bind].
  destruct (up_engine_modify (fun m => Z.lor m EPOLLOUT) e2 w1 _ g HI2 Hj eq_refl) as (e3 & Hm3 & HI3 & Hk3).
  change (e_handle g) with h in Hm3. unfold set_pollout. rewrite Hm3. cbn [mbind result_bind].
  destruct (up_react_inv e3 w1 _ g HI3 Hj eq_refl) as (e4 & w4 & b & -> & HI4 & Hk4 & Hrest).
  cbn [mbind result_bind]. exists e4, w4. split; [done|]. split; [done|]. split; [by etrans; [etrans; [etrans|]|]|]. exact Hrest.
Qed.

(** An event of the listener. *)
Lemma listen_event_ok e w :
  options_ok options -> oracle_ok -> up_inv e w ->
  exists e' w', listen_event e w = Ok (e', w', false) /\ up_inv e' w' /\ keeps e e' /\ last_ms w' = last_ms w /\
    listener w' = listener w /\ l_handle w' = l_handle w.
Proof.
  intros Hopt HO HI. unfold listen_event, ask. pose proof (up_ask_inv _ _ HI) as HI1. set (w1 := mkworld _ _ _ _ _) in *.
  change (ask w).2 with w1 in HI1. set (a := oracle (tick w)). pose proof (ok_accept HO (tick w)) as Ha. fold a in Ha.
  destruct (ok_peer HO (tick w)) as (i & Hi & Hir). fold a in Hi.
  pose proof (proj1 (ui_listener _ _ HI1)) as Hls. change (listener w1) with (listener w) in *.
  assert (Herr : forall errno, errno ∈ accept_tolerated ->
    Listener.in_event options (listener w) (Some (seq 0 num_upstream)) e (AcceptError errno) (u_peer a) = Ok (e, None)).
  { intros errno Hin. unfold Listener.in_event, Listener.accept. rewrite (proj2 (Z.eqb_neq _ retired_fd)) by done.
    cbn [negb afs_assert mbind result_bind]. by rewrite bool_decide_true. }
  destruct (u_accept a) as [errno|f ss ss_len]; cbn [kernel_accept].
  { rewrite Herr by done. cbn [mbind result_bind]. by exists e, w1. }
  destruct ((0 <=? f) && negb (bool_decide (f ∈ open_fds e))) eqn:Hnew.
  2: { rewrite Herr by (apply (bool_decide_unpack _); reflexivity). cbn [mbind result_bind]. by exists e, w1. }
  apply andb_true_iff in Hnew as [Hpos%Z.leb_le Hfree%negb_true_iff%bool_decide_eq_false].
  pose proof (ui_poller _ _ HI1) as Hp. assert (Hfr : f <> retired_fd) by (unfold retired_fd; lia).
  assert (Hni : interest e !! f = None).
  { destruct (interest e !! f) eqn:E; [|done]. exfalso. apply Hfree, (pi_open e Hp). rewrite E. eauto. }
  destruct (accept_filtered options (listener w) e f ss ss_len Hopt Hls Hfr Hfree Hni Ha) as (e1 & f1 & Hacc & [(_ & -> & ->)|(_ & -> & ->)]);
    unfold Listener.in_event; rewrite Hacc; cbn [mbind result_bind].
  2: { cbn [mbind result_bind]. by exists e, w1. }
  rewrite (proj2 (Z.eqb_neq f retired_fd)) by done.
  assert (Hcb : at_index (seq 0 num_upstream) i = Ok (Z.to_nat i)) by (apply at_index_ok; split; [lia|apply lookup_seq; lia]).
  rewrite Hi, Hcb. cbn [mbind result_bind].
  destruct (up_plug_inv (open_fd f e) w1 f (Z.to_nat i)) as (e2 & w2 & Hplug & HI2 & Hk2 & Hrest).
  - apply (up_entries_inv e); [done|by apply open_fd_inv|done|done].
  - simpl. apply elem_of_union. left. by apply elem_of_singleton.
  - done.
  - lia.
  - rewrite Hplug. cbn [mbind result_bind]. exists e2, w2. split; [done|]. split; [done|]. split; [done|exact Hrest].
Qed.

(** An event of any of them. *)
Lemma event_ok (listens : bool) e w h pe :
  options_ok options -> oracle_ok -> up_inv e w -> entries e !! h = Some pe -> fd pe <> retired_fd ->
  (listens = false -> sink pe <> SListen) ->
  exists e' w' b, match sink pe with SListen => listen_event e w | SEngine j => react j e w end = Ok (e', w', b) /\
    up_inv e' w' /\ keeps e e' /\ last_ms w <= last_ms w' /\ listener w' = listener w /\ l_handle w' = l_handle w.
Proof.
  intros Hopt HO HI Hpe Hf Hl. destruct (sink pe) as [|j] eqn:Hs.
  - destruct (listen_event_ok e w Hopt HO HI) as (e' & w' & Hrun & HI' & Hk & Hms & Hrest). exists e', w', false. by rewrite Hms.
  - destruct (ui_owned _ _ HI h pe j Hpe Hf Hs) as (g & Hg & Hpl & _).
    destruct (up_react_inv e w j g HI Hg Hpl) as (e' & w' & b & Hrun & HI' & Hk & Hms & Hrest). exists e', w', b. by rewrite Hms.
Qed.

Lemma now_inv e w : oracle_ok -> up_inv e w ->
  last_ms w <= (clock_now_ms w).1 /\ last_ms (clock_now_ms w).2 = (clock_now_ms w).1 /\ up_inv e (clock_now_ms w).2.
Proof.
  intros HO [Hp Ht Hc Hl Hs He Ho Hcb]. cbn [clock_now_ms ask fst snd last_ms]. split; [by apply Hc|]. split; [done|].
  split; try done. simpl. intros k Hk. apply Z.div_le_mono; [lia|]. apply (ok_clock HO). lia.
Qed.

Lemma up_free_inv e e' w : up_inv e w -> free_retired e = Ok e' -> up_inv e' w.
Proof.
  intros [Hp Ht Hc Hl Hs He Ho Hcb] Hf. destruct (free_retired_ok e Hp) as (e0 & Hf0 & Hp' & E & _ & _ & _ & _ & Htm & _).
  rewrite Hf in Hf0. injection Hf0 as <-. split; try done.
  - by rewrite Htm.
  - split; [apply Hl|]. rewrite E. apply map_lookup_filter_Some. split; [apply Hl|apply Hl].
  - intros h pe Hpe. rewrite E in Hpe. apply map_lookup_filter_Some in Hpe as [Hpe _]. by apply Hs.
  - intros j g Hj Hpl. destruct (He j g Hj Hpl) as (Hr & m & Hm). split; [done|]. exists m. rewrite E. by apply map_lookup_filter_Some.
  - intros h pe j Hpe. rewrite E in Hpe. apply map_lookup_filter_Some in Hpe as [Hpe _]. by apply Ho.
Qed.

(** The contract of the event loop, for the listener with descriptor [s] and
    handle [h]. *)
#[export] Program Instance listener_spec (s h : Z) (Hopt : options_ok options) (HO : oracle_ok) : PollEventsSpec sink_t world := {
  Inv e w := up_inv e w /\ listener w = s /\ l_handle w = h;
  clock := last_ms;
  wants_out k := match k with SListen => false | SEngine _ => true end
}.
Next Obligation. intros s h Hopt HO e w [HI _]. apply HI. Qed.
Next Obligation. intros s h Hopt HO e w [HI Hl]. destruct (now_inv e w HO HI) as (H1 & H2 & H3). split; [exact H1|]. split; [exact H2|]. split; [exact H3|exact Hl]. Qed.
Next Obligation.
  intros s h Hopt HO e w h' pe [HI _] Hpe Hm. cbn beta. destruct (sink pe) eqn:Hs; [|done]. exfalso.
  rewrite (ui_sink _ _ HI h' pe Hpe Hs) in Hpe. rewrite (proj2 (ui_listener _ _ HI)) in Hpe. injection Hpe as <-. by apply Hm.
Qed.
Next Obligation. intros s h Hopt HO e w b [HI Hl]. split; [|done]. apply (up_entries_inv e); [done|by apply stopping_inv, HI|done|done]. Qed.
Next Obligation. intros s h Hopt HO e e' w [HI Hl] Hf. split; [by eapply up_free_inv|done]. Qed.
Next Obligation.
  intros s h Hopt HO e w h' pe [HI [Hs Hh]] Hpe Hf.
  destruct (event_ok true e w h' pe Hopt HO HI Hpe Hf ltac:(done)) as (e' & w' & b & Hrun & HI' & Hk & Hms & Hl & Hlh).
  exists e', w', b. rewrite Hl, Hlh. by split_and!.
Qed.
Next Obligation.
  intros s h Hopt HO e w h' pe [HI [Hs Hh]] Hpe Hf Hout.
  destruct (event_ok false e w h' pe Hopt HO HI Hpe Hf) as (e' & w' & b & Hrun & HI' & Hk & Hms & Hl & Hlh).
  { intros _ E. by rewrite E in Hout. }
  exists e', w', b. rewrite Hl, Hlh. cbn beta in Hout. destruct (sink pe); [done|]. by split_and!.
Qed.
Next Obligation. intros s h Hopt HO e w t l [HI _] Ht. by rewrite (ui_timers _ _ HI) in Ht. Qed.

(** ** Starting *)

(** A poller without entries. *)
Definition blank (e : epoll) : Prop :=
  poller_inv e /\ entries e = ∅ /\ interest e = ∅ /\ timers e = [].

Lemma blank_socket e f : blank e -> blank (socket e f).
Proof.
  intros (Hp & He & Hi & Ht). unfold socket. destruct (Z.eqb_spec f (-1)); [done|]. split; [by apply open_fd_inv|]. done.
Qed.

Lemma bound e f b e' s' : blank e -> (f <> -1 -> f ∈ open_fds e) -> bind_and_listen e f b = Ok (e', s', true) -> blank e' /\ s' ∈ open_fds e'.
Proof.
  intros Hb Hf Hrun. unfold bind_and_listen in Hrun. destruct (Z.eqb_spec f (-1)) as [|Hne]; [done|]. destruct (b_bind b && b_listen b).
  - injection Hrun as <- <-. auto.
  - destruct (close e f); done.
Qed.

(** The socket of a listener that could be bound is open. *)
Lemma address_set getifaddrs getaddrinfo e s a addr b e' a' s' :
  blank e -> set_address getifaddrs getaddrinfo options e s a addr b = Ok (e', a', s', true) -> blank e' /\ s' ∈ open_fds e'.
Proof.
  intros Hb Hrun. unfold set_address in Hrun. destruct (resolve _ _ _ _ _ _) as [[a1 r]|]; [|done]. cbn [mbind result_bind] in Hrun.
  assert (Hop : forall (e : epoll) f, f <> -1 -> f ∈ open_fds (socket e f)).
  { intros e0 f Hne. unfold socket. rewrite (proj2 (Z.eqb_neq f (-1))) by done. simpl. apply elem_of_union. left. by apply elem_of_singleton. }
  destruct r; [|done..].
  destruct (_ && _ && _) in Hrun; cbn [mbind result_bind] in Hrun.
  - destruct (resolve _ _ _ _ _ _) as [[a2 r2]|] in Hrun; [|done]. cbn [mbind result_bind] in Hrun. destruct r2; [|done..].
    destruct (bind_and_listen _ _ _) as [[[e2 s2] ok]|] eqn:Hbl in Hrun; [|done]. cbn [mbind result_bind] in Hrun. injection Hrun as <- _ <- ->.
    eapply bound; [|by apply Hop|exact Hbl]. by apply blank_socket, blank_socket.
  - destruct (bind_and_listen _ _ _) as [[[e2 s2] ok]|] eqn:Hbl in Hrun; [|done]. cbn [mbind result_bind] in Hrun. injection Hrun as <- _ <- ->.
    eapply bound; [|by apply Hop|exact Hbl]. by apply blank_socket.
Qed.

Lemma init_inv getifaddrs getaddrinfo addr fds b e w :
  oracle_ok -> retired_fd ∉ fds -> ThreadInitHandler getifaddrs getaddrinfo addr fds b = Ok (e, w) -> up_inv e w.
Proof.
  intros HO Hfds Hrun. unfold ThreadInitHandler, NetThreads.UpThreadInit in Hrun.
  destruct (NetThreads.parse_endpoint addr) as [address|]; [|done]. cbn [mbind result_bind] in Hrun.
  destruct (set_address _ _ _ _ _ _ _ _) as [[[[e1 a1] s1] [|]]|] eqn:Hset in Hrun; [|done..]. cbn [mbind result_bind] in Hrun.
  apply address_set in Hset as ((Hp & He & Hi & Ht) & Hopen); [|split; [by apply new_epoll_inv|done]].
  destruct (add_fd_ok e1 s1 SListen Hp Hopen) as (e2 & Hadd & Hp2 & _ & E2 & _ & _ & _ & _ & Ht2 & _); [by rewrite Hi|].
  assert (Hs1 : s1 <> retired_fd) by (intros ->; by apply (pi_no_retired e1 Hp)).
  rewrite Hadd in Hrun. cbn [mbind result_bind] in Hrun.
  destruct (modify_ok (fun m => Z.lor m EPOLLIN) e2 (next_entry e1) (mkentry s1 0 SListen) Hp2) as (e3 & Hmod & Hp3 & _ & E3 & _ & _ & _ & _ & Ht3 & _);
    [rewrite E2; apply lookup_insert_eq|done|]. unfold set_pollin in Hrun. rewrite Hmod in Hrun. cbn [mbind result_bind] in Hrun.
  injection Hrun as <- <-. rewrite E2, He, insert_insert_eq in E3. split; try done; simpl.
  - by rewrite Ht3, Ht2.
  - intros k _. apply Z.div_pos; [|lia]. by apply unsigned_of_range.
  - split; [done|]. rewrite E3. apply lookup_insert_eq.
  - intros h pe Hpe _. rewrite E3 in Hpe. by apply lookup_singleton_Some in Hpe as [<- _].
  - intros h pe j Hpe _ Hs. rewrite E3 in Hpe. apply lookup_singleton_Some in Hpe as [_ <-]. done.
Qed.


End Loop.

(** ** Samples *)

(** A kernel that delivers a connection of worker 1 at every [accept]. *)
Definition sample_oracle (k : nat) : answer :=
  mkanswer (Z.min (60000 * Z.of_nat k) (2 ^ 62)) (Accepted (10 + Z.of_nat k) sample_peer 16) (Some 1) (mkreaction true false false false false).

Lemma up_oracle_ok : oracle_ok 2 sample_oracle.
Proof.
  split.
  - intros k k' Hk. simpl. rewrite !unsigned_of_small by (unfold in_unsigned; lia). lia.
  - intros k. split; [repeat constructor; unfold is_byte; lia|]. split; [reflexivity|]. vm_compute. discriminate.
  - intros k. exists 1. split; [done|lia].
Qed.

Definition sample_start : result (epoll * world) :=
  ThreadInitHandler new_options [] sample_getaddrinfo (lit "tcp://*:5000"%string) {[0; 1; 2]} (mkbind 7 false (-1) true true).

Definition sample_st0 : epoll * world :=
  match sample_start with Ok st => st | Stop _ => (new_epoll ∅, mkworld 0 0 [] 0 0) end.

(** The listener is ready once. *)
Definition sample_turn : result (epoll * world) :=
  after_wait (PollEvents0 := listener_events new_options 2 sample_oracle) (Some [(EPOLLIN, l_handle sample_st0.2)]) sample_st0.

Definition sample_st1 : epoll * world := match sample_turn with Ok st => st | Stop _ => sample_st0 end.


End UpLoop.
