(* ===== verification/EngineLoop.v ===== *)
(** The connection engine on the event loop: what the events of
    [stream_engine_t] (src/net/stream_engine.cpp, the file StreamEngine) do to
    the poller of their thread (src/net/epoll.cpp, the file Poller), and what
    becomes of the records of many connections that share the thread's
    in-callback.

    An engine's event runs as in StreamEngine; the calls of the poller it makes
    on the way are made at its end, once per flag that changed.  The engines are
    an instance of the classes of Poller for every property that makes their
    events return, the class [EngineSafe]; engines that receive well-formed
    streams are an instance of that. *)
From stdpp Require Import base numbers list gmap.
From Stdlib Require Import ZArith Lia.
From S2P Require Import Prelude Msg Codec Encoder Mechanism StreamEngine EngineProofs Poller.

Module EngineLoop.
Import Poller Msg Wire Frame Enc Sock Engine EngineProofs.

(** ** What the events do to the engine's standing *)

(** Follow a computation of the engine that is known to return. *)
Ltac run H :=
  repeat (cbv zeta in H; lazymatch type of H with
  | mbind _ ?m = Ok _ => let E := fresh "E" in destruct m as [?|?] eqn:E; cbn [mbind result_bind] in H; [|discriminate H]
  | Ok _ = Ok _ => injection H as H; subst
  | Stop _ = Ok _ => discriminate H
  | context [match ?x with _ => _ end] => destruct x eqn:?
  end).

Section Standing.
Context {IS OS : Type} (icb_ops : in_callback IS) (ocb_ops : out_callback OS) (mem : Z -> bool) (opts : eng_options).
Local Abbreviation connT := (conn IS OS).
Implicit Types c : connT.

(** Whether the engine is plugged, exists, and has given up its socket. *)
Definition standing c : bool * bool * bool := (plugged (eng c), alive (eng c), io_error (eng c)).

(** The engine was unplugged and deleted. *)
Definition ended c c' : Prop := plugged (eng c) = true /\ standing c' = (false, false, io_error (eng c)).

Lemma mechanism_ready_stands c : standing (mechanism_ready c) = standing c.
Proof. unfold standing, mechanism_ready. cbn. by destruct (icb c), (ocb c). Qed.

Lemma next_command_stands c c' r : next_command mem c = Ok (c', r) -> standing c' = standing c.
Proof.
  intros H. unfold next_command in H. run H; [|done]. destruct (Mech.is_handshake_complete _); [by rewrite mechanism_ready_stands|done].
Qed.

Lemma pull_and_encode_stands c c' r : pull_and_encode ocb_ops mem c = Ok (c', r) -> standing c' = standing c.
Proof. intros H. unfold pull_and_encode in H. run H; done. Qed.

Lemma run_read_msg_stands c c' r : run_read_msg ocb_ops mem c = Ok (c', r) -> standing c' = standing c.
Proof.
  unfold run_read_msg. intros H. destruct (read_msg (eng c)); [done|by eapply next_command_stands|by eapply pull_and_encode_stands].
Qed.

Lemma ack_all_stands acks c c' : ack_all ocb_ops c acks = Ok c' -> standing c' = standing c.
Proof.
  unfold ack_all. revert c. induction acks as [|p acks IH]; intros c H; cbn [foldM] in H; [by injection H as ->|].
  destruct (ocb c); [|done]. destruct (AckRecord ocb_ops _ p); [|done]. cbn [mbind result_bind] in H. by apply IH in H.
Qed.

Lemma run_encode_stands c buffer c' r : run_encode ocb_ops c buffer = Ok (c', r) -> standing c' = standing c.
Proof.
  unfold run_encode. intros H. run H. match goal with E : ack_all _ _ _ = _ |- _ => by apply ack_all_stands in E end.
Qed.

Lemma fill_output_stands fuel c null c' : fill_output ocb_ops mem fuel c null = Ok c' -> standing c' = standing c.
Proof.
  revert c null. induction fuel as [|fuel IH]; intros c null H; cbn [fill_output] in H; run H; try done;
    repeat match goal with
    | E : run_read_msg _ _ _ = _ |- _ => apply run_read_msg_stands in E
    | E : run_encode _ _ _ = _ |- _ => apply run_encode_stands in E
    | E : fill_output _ _ _ _ _ = _ |- _ => apply IH in E
    end; unfold standing, on_eng in *; simpl in *; congruence.
Qed.

Lemma drain_output_stands fuel c c' : drain_output fuel c = Ok c' -> standing c' = standing c.
Proof.
  revert c. induction fuel as [|fuel IH]; intros c H; cbn [drain_output] in H; run H; try done. by apply IH in H.
Qed.

Lemma terminate_ends c c' : terminate c = Ok c' -> ended c c'.
Proof. unfold terminate, unplug. intros H. destruct (plugged (eng c)) eqn:E; [|done]. cbn in H. by injection H as <-. Qed.

(** What is left of the engine is judged by what it was at the start. *)
Lemma ended_from c c1 c' : standing c1 = standing c -> ended c1 c' -> ended c c'.
Proof. unfold standing, ended. intros [= H1 H2 H3]. by rewrite H1, H3. Qed.

(** An output event: the engine is as before, or it is deleted and the loop is
    told to stop. *)
Definition out_outcome c c' (b : bool) : Prop := if b then ended c c' else standing c' = standing c.

Lemma out_outcome_from c c1 c' b : standing c1 = standing c -> out_outcome c1 c' b -> out_outcome c c' b.
Proof. destruct b; cbn; [apply ended_from|congruence]. Qed.

Lemma flush_output_stands c c' b : flush_output ocb_ops c = Ok (c', b) -> out_outcome c c' b.
Proof.
  unfold flush_output. intros H. run H; try done; run E;
    repeat match goal with
    | E : run_encode _ _ _ = _ |- _ => apply run_encode_stands in E
    | E : drain_output _ _ = _ |- _ => apply drain_output_stands in E
    | E : terminate _ = _ |- _ => apply terminate_ends in E
    end; cbn [out_outcome]; unfold ended, standing, on_eng in *; simpl in *; try case_match; simpl; intuition congruence.
Qed.

Lemma out_event_stands c c' b : out_event ocb_ops mem c = Ok (c', b) -> out_outcome c c' b.
Proof.
  unfold out_event. generalize (Z.to_nat out_batch_size). intros fuel H. destruct (io_error (eng c)); [done|]. cbn [negb afs_assert mbind result_bind] in H.
  destruct (out_bytes (eng c)); [|by apply flush_output_stands]. destruct (encoder (eng c)) as [en|].
  - destruct (run_encode _ _ _) as [[c1 bytes]|] eqn:E1; [|done]. cbn [mbind result_bind] in H. cbv zeta in H. apply run_encode_stands in E1.
    destruct (fill_output _ _ _ _ _) as [c2|] eqn:E2; [|done]. cbn [mbind result_bind] in H. apply fill_output_stands in E2.
    assert (Hc2 : standing c2 = standing c) by (rewrite E2; exact E1). destruct (out_bytes (eng c2)); [by injection H as <- <-|].
    apply flush_output_stands in H. by eapply out_outcome_from.
  - destruct (handshaking (eng c)); [|done]. by injection H as <- <-.
Qed.

(** Commands of the handshake may restart the output, and so end the engine. *)
Definition stands_or_ends c c' : Prop := standing c' = standing c \/ ended c c'.

Lemma restart_output_stands c c' : restart_output ocb_ops mem c = Ok c' -> stands_or_ends c c'.
Proof.
  assert (Hgo : forall c0, standing c0 = standing c -> (r ← out_event ocb_ops mem c0; Ok r.1) = Ok c' -> stands_or_ends c c').
  { intros c0 H0 H. destruct (out_event _ _ c0) as [[c1 b]|] eqn:E; [|done]. cbn in H. injection H as ->.
    apply out_event_stands, (out_outcome_from c) in E; [|done]. destruct b; [by right|by left]. }
  unfold restart_output. intros H. destruct (io_error (eng c)); [injection H as ->; by left|].
  destruct (output_stopped (eng c)); [|by apply (Hgo c)]. destruct (ocb c); [|injection H as ->; by left]. by eapply Hgo, H.
Qed.

Lemma process_command_stands c d c' d' r : process_command ocb_ops mem c d = Ok (c', d', r) -> stands_or_ends c c'.
Proof.
  unfold process_command. intros H. destruct (mech (eng c)); [|done].
  destruct (Mech.process_handshake_command _ _ _) as [[[[mc h] m] rc]|]; [|done]. cbn [mbind result_bind] in H. cbv zeta in H.
  set (c1 := on_eng c _) in H. destruct rc; [|injection H as <- _ _; by left].
  set (c2 := if Mech.is_handshake_complete mc then mechanism_ready c1 else c1) in H.
  assert (H2 : standing c2 = standing c) by (unfold c2; destruct (Mech.is_handshake_complete mc); [by rewrite mechanism_ready_stands|done]).
  destruct (output_stopped (eng c2)); cbn [mbind result_bind] in H; [|injection H as <- _ _; by left].
  destruct (restart_output _ _ _) as [c3|] eqn:E; [|done]. cbn [mbind result_bind] in H. injection H as <- _ _.
  apply restart_output_stands in E as [E|E]; [left; congruence|right; by eapply ended_from].
Qed.

(** A message is handed over only by an engine that then still exists. *)
Lemma deliver_stands mark c d c' x : deliver icb_ops ocb_ops mem mark c d = Ok (c', x) -> standing c' = standing c.
Proof.
  unfold deliver. intros H. destruct (run_write_msg _ _ _ c d) as [[[c1 d1] r]|] eqn:E; [|done]. cbn [mbind result_bind] in H.
  assert (H1 : stands_or_ends c c1).
  { unfold run_write_msg in E. destruct (write_msg (eng c)); [done|by eapply process_command_stands|].
    left. unfold decode_and_push in E. run E; done. }
  destruct H1 as [H1|[_ [= _ Hx _]]]; [|by rewrite Hx in H].
  destruct (alive (eng c1)); [|done]. cbn [mbind result_bind] in H. destruct r; [| |destruct mark]; injection H as <- _; exact H1.
Qed.

Lemma in_loop_stands mark fuel c c' x : in_loop icb_ops ocb_ops mem mark fuel c = Ok (c', x) -> standing c' = standing c.
Proof.
  revert c. induction fuel as [|fuel IH]; intros c H; cbn [in_loop] in H; run H; try done;
    repeat match goal with
    | E : deliver _ _ _ _ _ _ = _ |- _ => apply deliver_stands in E
    | E : in_loop _ _ _ _ _ _ = _ |- _ => apply IH in E
    end; unfold standing, on_eng in *; simpl in *; congruence.
Qed.

Lemma in_direct_stands c d bytes c' x : in_direct icb_ops ocb_ops mem c d bytes = Ok (c', x) -> standing c' = standing c.
Proof. unfold in_direct. intros H. run H; try done. by apply deliver_stands in H. Qed.

(** The greeting leaves the engine as it was. *)
Lemma put_greeting_stands c bytes : standing (put_greeting c bytes) = standing c.
Proof. unfold standing, put_greeting. cbn. by destruct (out_bytes (eng c)). Qed.

Lemma answer_version_stands c c' : answer_version opts (answer_signature c) = Ok c' -> standing c' = standing c.
Proof.
  assert (Hs : standing (answer_signature c) = standing c) by (unfold answer_signature; case_match; [apply put_greeting_stands|done]).
  unfold answer_version. intros H. run H; rewrite <- Hs; try done; exact (put_greeting_stands _ _).
Qed.

Lemma receive_greeting_stands fuel c c' r : receive_greeting opts fuel c = Ok (c', r) -> standing c' = standing c.
Proof.
  revert c. induction fuel as [|fuel IH]; intros c H; cbn [receive_greeting] in H; run H; try done;
    repeat match goal with
    | E : answer_version _ _ = _ |- _ => apply answer_version_stands in E
    | E : receive_greeting _ _ _ = _ |- _ => apply IH in E
    end; unfold standing, on_eng in *; simpl in *; congruence.
Qed.

Lemma choose_protocol_stands c c' b : choose_protocol opts c = Ok (c', b) -> if b then standing c' = standing c else ended c c'.
Proof.
  unfold choose_protocol. intros H. run H; try (destruct (out_bytes _); done). by apply terminate_ends in E.
Qed.

(** An input event: as before; or the engine is deleted; or it left the poller
    and stays. *)
Inductive in_outcome c c' : bool -> Prop :=
| in_same : standing c' = standing c -> in_outcome c c' false
| in_ended b : ended c c' -> in_outcome c c' b
| in_gave_up : standing c' = (plugged (eng c), alive (eng c), true) -> in_outcome c c' false.

Lemma in_outcome_from c c1 c' b : standing c1 = standing c -> in_outcome c1 c' b -> in_outcome c c' b.
Proof.
  intros H1 [H|b' H|H]; [apply in_same; congruence|by apply in_ended; eapply ended_from|apply in_gave_up].
  rewrite H. unfold standing in H1. congruence.
Qed.

Lemma end_input_stands c x c' b : end_input c x = Ok (c', b) -> in_outcome c c' b.
Proof.
  unfold end_input, error. intros H. run H; try (by apply in_same);
    match goal with E : terminate _ = _ |- _ => apply terminate_ends in E; by apply in_ended end.
Qed.

Lemma handshake_stands c c' b : handshake opts c = Ok (c', b) -> if b then standing c' = standing c else stands_or_ends c c'.
Proof.
  unfold handshake, error. generalize (Z.to_nat v3_greeting_size). intros fuel H.
  destruct (handshaking (eng c)); [|done]. cbn [afs_assert mbind result_bind] in H.
  destruct (_ <? _); [|done]. cbn [afs_assert mbind result_bind] in H.
  destruct (receive_greeting opts fuel c) as [[c1 r]|] eqn:E1; [|done]. apply receive_greeting_stands in E1. cbn [mbind result_bind] in H.
  destruct r; [|injection H as <- <-; by left|].
  - apply choose_protocol_stands in H. destruct b; [congruence|right; by eapply ended_from].
  - destruct (terminate c1) as [c2|] eqn:E2; [|done]. injection H as <- <-. right. apply terminate_ends in E2. by eapply ended_from.
Qed.

Lemma in_event_stands c c' b :
  Engine.in_event icb_ops ocb_ops mem opts c = Ok (c', b) -> io_error (eng c) = false /\ in_outcome c c' b.
Proof.
  unfold Engine.in_event, error. intros H. destruct (io_error (eng c)); [done|]. split; [done|]. cbn [negb afs_assert mbind result_bind] in H.
  destruct (if handshaking (eng c) then handshake opts c else Ok (c, true)) as [[c1 ok]|] eqn:E1; [|done]. cbn [mbind result_bind] in H.
  assert (H1 : if ok then standing c1 = standing c else stands_or_ends c c1).
  { destruct (handshaking (eng c)); [by apply handshake_stands|]. by injection E1 as <- <-. }
  destruct ok; [|injection H as <- <-; destruct H1; by constructor].
  apply (in_outcome_from c c1); [done|]. clear E1 H1 c. run H; try (by apply in_same);
    repeat match goal with
    | E : (if ?x then in_direct _ _ _ _ _ _ else _) = _ |- _ => destruct x
    | E : in_loop _ _ _ _ _ _ = _ |- _ => apply in_loop_stands in E
    | E : in_direct _ _ _ _ _ _ = _ |- _ => apply in_direct_stands in E
    | E : end_input _ _ = _ |- _ => apply end_input_stands in E
    | E : terminate _ = _ |- _ => apply terminate_ends in E
    end; try (by apply in_ended); try (by eapply in_outcome_from; [|eassumption]).
  by apply in_gave_up.
Qed.

(** Input after the handshake leaves the side that sends alone. *)
Definition out_side c : option OS * mode * mode * list Z * option v2_encoder :=
  (ocb c, write_msg (eng c), read_msg (eng c), out_bytes (eng c), encoder (eng c)).

Lemma terminate_out_side c c' : terminate c = Ok c' -> out_side c' = out_side c.
Proof. unfold terminate, unplug. intros H. destruct (plugged (eng c)); [|done]. cbn in H. by injection H as <-. Qed.

Lemma deliver_out_side mark c d c' x :
  write_msg (eng c) = MData -> deliver icb_ops ocb_ops mem mark c d = Ok (c', x) -> out_side c' = out_side c.
Proof.
  intros Hw H. unfold deliver, run_write_msg in H. rewrite Hw in H. unfold decode_and_push in H.
  destruct (match mech (eng c) with Some _ => true | None => false end); [|done]. cbn [afs_assert mbind result_bind] in H.
  destruct (icb c) as [s|]; [destruct (body_of _ _); [|done]; cbn [mbind result_bind] in H;
    destruct (PushRecord icb_ops s _) as [[s' r]|]; [|done]|]; cbn [mbind result_bind eng] in H;
    destruct (alive (eng c)); try done; cbn [mbind result_bind] in H; run H; try done. by destruct mark.
Qed.

Lemma in_loop_out_side mark fuel c c' x :
  write_msg (eng c) = MData -> in_loop icb_ops ocb_ops mem mark fuel c = Ok (c', x) -> out_side c' = out_side c.
Proof.
  revert c. induction fuel as [|fuel IH]; intros c Hw H; cbn [in_loop] in H; run H; try done;
    match goal with E : deliver _ _ _ _ _ _ = _ |- _ => apply deliver_out_side in E; [|done] end; [done|].
  apply IH in H; [by rewrite H|]. injection E0 as _ -> _ _ _. done.
Qed.

Lemma in_event_out_side c c' b :
  handshaking (eng c) = false -> write_msg (eng c) = MData ->
  Engine.in_event icb_ops ocb_ops mem opts c = Ok (c', b) -> out_side c' = out_side c.
Proof.
  intros Hh Hw H. unfold Engine.in_event, end_input, error, in_direct in H. rewrite Hh in H. run H; try done;
    repeat match goal with
    | E : (if ?x then _ else in_loop _ _ _ _ _ _) = _ |- _ => destruct x; run E
    | E : deliver _ _ _ _ _ _ = _ |- _ => apply deliver_out_side in E; [|done]
    | E : in_loop _ _ _ _ _ _ = _ |- _ => apply in_loop_out_side in E; [|done]
    | E : terminate _ = _ |- _ => apply terminate_out_side in E
    | E : mbind _ _ = Ok _ |- _ => run E
    end; unfold out_side in *; simpl in *; congruence.
Qed.

End Standing.

(** ** The engines on the poller *)

Abbreviation epoll := (Poller.epoll_t nat).

(** On the poller: plugged, and the socket not given up. *)
Definition registered (x : engine) : bool := plugged x && negb (io_error x).

(** What the engine polls for, as the bits of its entry. *)
Definition mask (x : engine) : Z := Z.lor (if pollin x then EPOLLIN else 0) (if pollout x then EPOLLOUT else 0).

Section Loop.
Context {IS OS : Type} (icb_ops : in_callback IS) (ocb_ops : out_callback OS) (mem : Z -> bool) (opts : eng_options).
Context (time_us : nat -> Z).

(** An engine with its descriptor and handle, its socket and its out-callback.
    The in-callback is one object for all engines of a thread. *)
Record client := mkclient { cl_fd : Z; cl_handle : Z; cl_eng : engine; cl_sk : sock; cl_out : option OS }.

Record world := mkworld { in_state : IS; clients : list client; tick : nat; last_ms : Z }.

Definition conn_of (s : IS) (cl : client) : conn IS OS :=
  {| eng := cl_eng cl; sk := cl_sk cl; icb := Some s; ocb := cl_out cl |}.

Definition client_of (cl : client) (c' : conn IS OS) : client :=
  mkclient (cl_fd cl) (cl_handle cl) (eng c') (sk c') (ocb c').

(** The in-callback after an event. *)
Definition shared (s : IS) (c' : conn IS OS) : IS := default s (icb c').

(** The calls that turn an entry for [was] into one for [now]. *)
Definition switch (was now : bool) (set_ reset_ : epoll -> Z -> result epoll) (e : epoll) (h : Z) : result epoll :=
  if Bool.eqb was now then Ok e else (if now then set_ else reset_) e h.

(** The destructor. *)
Definition destroy_engine (f : Z) (x : engine) (e : epoll) : result epoll :=
  _ ← afs_assert (negb (plugged x));
  close_fd f e.

(** What an event that leaves the engine as [x'] has done to the poller: it
    changed what it polls for, [unplug] or the end of the input called [rm_fd],
    and [terminate] called the destructor. *)
Definition poller_calls (cl : client) (x' : engine) (e : epoll) : result epoll :=
  let x := cl_eng cl in
  e1 ← switch (pollin x) (pollin x') Poller.set_pollin Poller.reset_pollin e (cl_handle cl);
  e2 ← switch (pollout x) (pollout x') Poller.set_pollout Poller.reset_pollout e1 (cl_handle cl);
  e3 ← (if registered x && negb (registered x') then rm_fd e2 (cl_handle cl) else Ok e2);
  if alive x && negb (alive x') then destroy_engine (cl_fd cl) x' e3 else Ok e3.

(** An event of engine [j]; a deleted engine must not get one. *)
Definition engine_event (ev : conn IS OS -> result (conn IS OS * bool)) (j : nat) (e : epoll) (w : world) : result (epoll * world * bool) :=
  match clients w !! j with
  | None => Stop NullDeref
  | Some cl =>
      if negb (alive (cl_eng cl)) then Stop NullDeref
      else
        '(c', b) ← ev (conn_of (in_state w) cl);
        e' ← poller_calls cl (eng c') e;
        Ok (e', mkworld (shared (in_state w) c') (<[j := client_of cl c']> (clients w)) (tick w) (last_ms w), b)
  end.

Definition clock_now_ms (w : world) : Z * world :=
  let ms := u64 (time_us (tick w)) / 1000 in
  (ms, mkworld (in_state w) (clients w) (S (tick w)) ms).

#[export] Instance engine_events : PollEvents nat world := {
  now_ms := clock_now_ms;
  Poller.in_event j st := engine_event (Engine.in_event icb_ops ocb_ops mem opts) j st.1 st.2;
  Poller.out_event j st := engine_event (Engine.out_event ocb_ops mem) j st.1 st.2;
  timer_event j id_ st := Stop AssertFailed
}.

(** ** The invariant *)

(** Every engine on the poller has its entry, with what it polls for; every
    entry that is not retired has its engine; an engine exists as long as it is
    plugged, and its descriptor is open as long as it exists. *)
Record reg_inv (e : epoll) (w : world) : Prop := {
  ri_poller : poller_inv e;
  ri_timers : timers e = [];
  ri_clock : forall k, (tick w <= k)%nat -> last_ms w <= u64 (time_us k) / 1000;
  ri_entry : forall j cl, clients w !! j = Some cl -> registered (cl_eng cl) = true ->
    cl_fd cl <> retired_fd /\ entries e !! cl_handle cl = Some (mkentry (cl_fd cl) (mask (cl_eng cl)) j);
  ri_owned : forall h pe, entries e !! h = Some pe -> fd pe <> retired_fd ->
    exists cl, clients w !! sink pe = Some cl /\ registered (cl_eng cl) = true /\ cl_handle cl = h;
  ri_alive : forall j cl, clients w !! j = Some cl -> alive (cl_eng cl) = plugged (cl_eng cl);
  ri_open : forall j cl, clients w !! j = Some cl -> alive (cl_eng cl) = true <-> cl_fd cl ∈ open_fds e;
  ri_fds : NoDup (cl_fd <$> clients w)
}.

(** A change of one flag. *)
Lemma switch_ok (was now other : bool) (low : bool) e h f k :
  let bits (b : bool) := if low then Z.lor (if b then EPOLLIN else 0) (if other then EPOLLOUT else 0)
                         else Z.lor (if other then EPOLLIN else 0) (if b then EPOLLOUT else 0) in
  poller_inv e -> f <> retired_fd -> entries e !! h = Some (mkentry f (bits was) k) ->
  exists e', (if low then switch was now Poller.set_pollin Poller.reset_pollin e h
              else switch was now Poller.set_pollout Poller.reset_pollout e h) = Ok e' /\
    poller_inv e' /\ keeps e e' /\ entries e' = <[h := mkentry f (bits now) k]> (entries e) /\
    open_fds e' = open_fds e /\ timers e' = timers e.
Proof.
  intros bits Hp Hf Hh. assert (Hsame : was = now -> exists e', Ok e = Ok e' /\ poller_inv e' /\ keeps e e' /\
    entries e' = <[h := mkentry f (bits now) k]> (entries e) /\ open_fds e' = open_fds e /\ timers e' = timers e).
  { intros <-. exists e. rewrite insert_id by done. by split_and!. }
  assert (Hmod : forall g, g (bits was) = bits now -> exists e', Poller.modify g e h = Ok e' /\ poller_inv e' /\ keeps e e' /\
    entries e' = <[h := mkentry f (bits now) k]> (entries e) /\ open_fds e' = open_fds e /\ timers e' = timers e).
  { intros g Hg. destruct (Poller.modify_ok g e h _ Hp Hh Hf) as (e' & Hm & Hp' & Hk & E & Ho & _ & _ & _ & Ht & _).
    exists e'. simpl in E. rewrite Hg in E. done. }
  unfold switch. destruct low, was, now; cbn [Bool.eqb]; try (by apply Hsame); apply Hmod; unfold bits; by destruct other.
Qed.

(** The calls of an event on an engine that is on the poller succeed. *)
Lemma poller_calls_ok e j cl x' :
  poller_inv e -> cl_fd cl <> retired_fd -> entries e !! cl_handle cl = Some (mkentry (cl_fd cl) (mask (cl_eng cl)) j) ->
  registered (cl_eng cl) = true -> alive (cl_eng cl) = true -> alive x' = plugged x' ->
  exists e', poller_calls cl x' e = Ok e' /\ poller_inv e' /\ keeps e e' /\ timers e' = timers e /\
    entries e' = <[cl_handle cl := mkentry (if registered x' then cl_fd cl else retired_fd) (mask x') j]> (entries e) /\
    open_fds e' = if alive x' then open_fds e else open_fds e ∖ {[cl_fd cl]}.
Proof.
  intros Hp Hf Hh Hreg Hal Hx. unfold poller_calls. cbv zeta.
  destruct (switch_ok (pollin (cl_eng cl)) (pollin x') (pollout (cl_eng cl)) true e (cl_handle cl) (cl_fd cl) j Hp Hf Hh)
    as (e1 & -> & Hp1 & Hk1 & E1 & Ho1 & Ht1). cbn [mbind result_bind].
  destruct (switch_ok (pollout (cl_eng cl)) (pollout x') (pollin x') false e1 (cl_handle cl) (cl_fd cl) j Hp1 Hf)
    as (e2 & -> & Hp2 & Hk2 & E2 & Ho2 & Ht2); [rewrite E1; apply lookup_insert_eq|]. cbn [mbind result_bind].
  fold (mask x') in E2. rewrite E1, insert_insert_eq in E2. assert (Hk : keeps e e2) by (by etrans). rewrite Hreg, Hal. cbn [andb].
  assert (Hin : entries e2 !! cl_handle cl = Some (mkentry (cl_fd cl) (mask x') j)) by (rewrite E2; apply lookup_insert_eq).
  destruct (registered x') eqn:Hr; cbn [negb mbind result_bind].
  { apply andb_true_iff in Hr as [Hr _]. rewrite Hx, Hr. exists e2. rewrite E2, Ho2, Ho1, Ht2, Ht1. by split_and!. }
  destruct (Poller.rm_fd_ok e2 (cl_handle cl) _ Hp2 Hin Hf) as (e3 & -> & Hp3 & Hk3 & E3 & Ho3 & Hi3 & _ & Ht3 & _). cbn [mbind result_bind].
  simpl in E3, Hi3. rewrite E2, insert_insert_eq in E3. assert (Hk' : keeps e e3) by (by etrans).
  destruct (alive x') eqn:Hdead; cbn [negb].
  { exists e3. rewrite E3, Ho3, Ho2, Ho1, Ht3, Ht2, Ht1. by split_and!. }
  pose proof (Poller.live_interest e2 _ _ Hp2 Hin Hf) as Hli. simpl in Hli.
  unfold destroy_engine. rewrite <- Hx. cbn [negb afs_assert mbind result_bind].
  destruct (Poller.close_fd_ok e3 (cl_fd cl) Hp3) as (e4 & -> & Hp4 & E4 & Ho4 & _ & _ & _ & Ht4 & _).
  - rewrite Ho3. apply (Poller.pi_open e2 Hp2). by rewrite Hli.
  - rewrite Hi3. apply lookup_delete_eq.
  - exists e4. rewrite E4, E3, Ho4, Ho3, Ho2, Ho1, Ht4, Ht3, Ht2, Ht1. split_and!; try done. intros h pe Hpe. rewrite E4. by apply Hk'.
Qed.

(** An event of an engine on the poller that returns keeps the invariant,
    whatever the engine does. *)
Lemma engine_event_inv ev e w j cl c' b :
  reg_inv e w -> clients w !! j = Some cl -> registered (cl_eng cl) = true ->
  ev (conn_of (in_state w) cl) = Ok (c', b) -> in_outcome (conn_of (in_state w) cl) c' b ->
  exists e', engine_event ev j e w = Ok (e', mkworld (shared (in_state w) c') (<[j := client_of cl c']> (clients w)) (tick w) (last_ms w), b) /\
    reg_inv e' (mkworld (shared (in_state w) c') (<[j := client_of cl c']> (clients w)) (tick w) (last_ms w)) /\ keeps e e' /\
    entries e' = <[cl_handle cl := mkentry (if registered (eng c') then cl_fd cl else retired_fd) (mask (eng c')) j]> (entries e).
Proof.
  intros [Hp Ht Hc He Ho Ha Hop Hfd] Hj Hreg Hev Hout. destruct (He j cl Hj Hreg) as [Hf Hh].
  assert (Hpl : plugged (cl_eng cl) = true) by (apply andb_true_iff in Hreg as [? _]; done).
  assert (Hal : alive (cl_eng cl) = true) by (by rewrite (Ha j cl Hj)).
  assert (Hx : alive (eng c') = plugged (eng c')).
  { destruct Hout as [Hs|b' [_ Hs]|Hs]; unfold standing in Hs; injection Hs as -> -> _; simpl; congruence. }
  destruct (poller_calls_ok e j cl (eng c') Hp Hf Hh Hreg Hal Hx) as (e' & Hcalls & Hp' & Hk & Ht' & E' & Ho').
  exists e'. unfold engine_event. rewrite Hj, Hal. cbn [negb]. rewrite Hev. cbn [mbind result_bind]. rewrite Hcalls. cbn [mbind result_bind].
  split; [done|]. split; [|done]. split; try done; cbn [clients tick last_ms in_state].
  - by rewrite Ht'.
  - intros k y Hk' Hy. apply list_lookup_insert_Some in Hk' as [(<- & <- & _)|[Hne Hk']].
    + simpl in Hy |- *. split; [done|]. by rewrite E', lookup_insert_eq, Hy.
    + destruct (He k y Hk' Hy) as [Hfy Hhy]. split; [done|]. rewrite E', lookup_insert_ne; [done|]. intros Eh. rewrite Eh, Hhy in Hh. congruence.
  - intros h pe Hpe Hfp. rewrite E' in Hpe. apply lookup_insert_Some in Hpe as [[<- <-]|[Hne Hpe]]; simpl in Hfp |- *.
    + exists (client_of cl c'). destruct (registered (eng c')) eqn:Hr; [|done]. rewrite list_lookup_insert_eq; [done|]. by apply lookup_lt_Some in Hj.
    + destruct (Ho h pe Hpe Hfp) as (y & Hy & Hyr & Hyh). exists y. split; [|done]. rewrite list_lookup_insert_ne; [done|].
      intros Hjs. rewrite <- Hjs, Hj in Hy. congruence.
  - intros k y Hk'. apply list_lookup_insert_Some in Hk' as [(<- & <- & _)|[Hne Hk']]; [done|by apply (Ha k)].
  - intros k y Hk'. apply list_lookup_insert_Some in Hk' as [(<- & <- & _)|[Hne Hk']]; simpl; rewrite Ho'.
    + pose proof (proj1 (Hop j cl Hj) Hal) as Hin. destruct (alive (eng c')); [done|]. split; [done|]. rewrite elem_of_difference, elem_of_singleton. tauto.
    + rewrite (Hop k y Hk'). destruct (alive (eng c')); [done|]. rewrite elem_of_difference, elem_of_singleton. split; [|tauto]. intros Hin. split; [done|].
      intros Hxy. apply Hne. eapply (NoDup_lookup _ _ _ _ Hfd); rewrite list_lookup_fmap; [by rewrite Hj|rewrite Hk'; simpl; by rewrite Hxy].
  - rewrite list_fmap_insert. simpl. by rewrite list_insert_id by (rewrite list_lookup_fmap, Hj; done).
Qed.

(** A peer that hangs up strands an engine whose input has stopped and which
    still sends: the event takes the descriptor off the poller and returns; the
    engine is not deleted, its socket stays open, and no entry leads to it any
    more, so neither it nor the loop, which only an engine's end stops, ever
    finishes. *)
Lemma hang_up_strands_engine e w j cl d :
  reg_inv e w -> clients w !! j = Some cl -> registered (cl_eng cl) = true ->
  handshaking (cl_eng cl) = false -> decoder (cl_eng cl) = Some d -> input_stopped (cl_eng cl) = true ->
  exists e' w' cl', engine_event (Engine.in_event icb_ops ocb_ops mem opts) j e w = Ok (e', w', false) /\ reg_inv e' w' /\
    clients w' !! j = Some cl' /\ alive (cl_eng cl') = true /\ cl_fd cl' ∈ open_fds e' /\
    forall h pe, entries e' !! h = Some pe -> sink pe = j -> fd pe = retired_fd.
Proof.
  intros HR Hj Hr Hh Hd Hi. pose proof Hr as [Hpl Hio%negb_true_iff]%andb_true_iff.
  set (c' := on_eng (conn_of (in_state w) cl) (fun x => set_io_error x true)).
  assert (Hev : Engine.in_event icb_ops ocb_ops mem opts (conn_of (in_state w) cl) = Ok (c', false)).
  { unfold Engine.in_event. cbn [conn_of eng]. rewrite Hio, Hh. cbn [negb afs_assert mbind result_bind conn_of eng]. by rewrite Hd, Hi. }
  destruct (engine_event_inv _ e w j cl c' false HR Hj Hr Hev) as (e' & Hrun & HR' & _ & _); [by eapply in_event_stands|].
  eexists e', _, (client_of cl c'). split; [exact Hrun|]. split; [done|].
  assert (Hj' : <[j := client_of cl c']> (clients w) !! j = Some (client_of cl c')) by (apply list_lookup_insert_eq; by apply lookup_lt_Some in Hj).
  assert (Hal : alive (cl_eng (client_of cl c')) = true) by (simpl; by rewrite (ri_alive _ _ HR j cl Hj)).
  split; [exact Hj'|]. split; [exact Hal|]. split; [by apply (ri_open _ _ HR' j _ Hj')|]. intros h pe Hpe Hs.
  destruct (decide (fd pe = retired_fd)) as [|Hf]; [done|]. destruct (ri_owned _ _ HR' h pe Hpe Hf) as (cl2 & Hcl2 & Hr2 & _).
  rewrite Hs in Hcl2. simpl in Hcl2. rewrite Hj' in Hcl2. injection Hcl2 as <-. unfold registered in Hr2. simpl in Hr2. by rewrite andb_false_r in Hr2.
Qed.

(** A poller with engines on it: one more, with its entry set to what it polls
    for. *)
Definition put_client (f : Z) (x : engine) (k : sock) (o : option OS) (e : epoll) (w : world) : result (epoll * world) :=
  '(e1, h) ← add_fd e f (length (clients w));
  e2 ← switch false (pollin x) Poller.set_pollin Poller.reset_pollin e1 h;
  e3 ← switch false (pollout x) Poller.set_pollout Poller.reset_pollout e2 h;
  Ok (e3, mkworld (in_state w) (clients w ++ [mkclient f h x k o]) (tick w) (last_ms w)).

Lemma put_client_inv f x k o e w :
  reg_inv e w -> f ∈ open_fds e -> interest e !! f = None -> f ∉ cl_fd <$> clients w -> registered x = true -> alive x = true ->
  exists e' w', put_client f x k o e w = Ok (e', w') /\ reg_inv e' w'.
Proof.
  intros [Hp Ht Hc He Ho Ha Hop Hfd] Hf Hi Hn Hr Hal. assert (f <> retired_fd) as Hfr by (intros ->; by apply (pi_no_retired e Hp)). unfold put_client.
  destruct (add_fd_ok e f (length (clients w)) Hp Hf Hi) as (e1 & -> & Hp1 & _ & E1 & Ho1 & _ & _ & _ & Ht1 & _). cbn [mbind result_bind].
  set (h := next_entry e) in *.
  destruct (switch_ok false (pollin x) false true e1 h f (length (clients w)) Hp1 Hfr) as (e2 & -> & Hp2 & _ & E2 & Ho2 & Ht2);
    [rewrite E1; apply lookup_insert_eq|]. cbn [mbind result_bind].
  destruct (switch_ok false (pollout x) (pollin x) false e2 h f (length (clients w)) Hp2 Hfr) as (e3 & -> & Hp3 & _ & E3 & Ho3 & Ht3);
    [rewrite E2; apply lookup_insert_eq|]. cbn [mbind result_bind]. fold (mask x) in E3. rewrite E2, E1, !insert_insert_eq in E3.
  eexists e3, _. split; [done|]. assert (Hfresh : entries e !! h = None).
  { destruct (entries e !! h) eqn:E; [|done]. assert (h < h) by (apply (pi_fresh e Hp); eauto). lia. }
  split; try done; cbn [clients tick last_ms].
  - by rewrite Ht3, Ht2, Ht1.
  - intros j cl Hj Hrc. apply lookup_snoc_Some in Hj as [[Hlt Hj]|[-> <-]]; cbn [cl_fd cl_handle cl_eng]; rewrite E3.
    + destruct (He j cl Hj Hrc) as [Hfc Hh]. split; [done|]. rewrite lookup_insert_ne; [done|congruence].
    + split; [done|]. by rewrite lookup_insert_eq.
  - intros h' pe Hpe Hfp. rewrite E3 in Hpe. apply lookup_insert_Some in Hpe as [[<- <-]|[_ Hpe]]; cbn [sink].
    + eexists. by rewrite lookup_app_r, Nat.sub_diag by done.
    + destruct (Ho h' pe Hpe Hfp) as (cl & Hcl & Hrest). exists cl. split; [by apply lookup_app_l_Some|done].
  - intros j cl Hj. apply lookup_snoc_Some in Hj as [[Hlt Hj]|[-> <-]]; [by apply (Ha j)|]. cbn [cl_eng]. apply andb_true_iff in Hr as [-> _]. done.
  - intros j cl Hj. rewrite Ho3, Ho2, Ho1. apply lookup_snoc_Some in Hj as [[Hlt Hj]|[-> <-]]; [by apply (Hop j)|done].
  - rewrite fmap_app. apply NoDup_app. split; [done|]. split; [|apply NoDup_singleton]. intros y Hy ->%list_elem_of_singleton. done.
Qed.

(** What the loop needs of the engines and their callbacks: a property [Safe] of
    their state that makes every event on the poller return and is kept by it.
    [sends] tells which engines have something to send. *)
Class EngineSafe := {
  Safe : IS -> list client -> Prop;
  sends : nat -> bool;
  safe_in s cls j cl : Safe s cls -> cls !! j = Some cl -> registered (cl_eng cl) = true ->
    exists c' b, Engine.in_event icb_ops ocb_ops mem opts (conn_of s cl) = Ok (c', b) /\ Safe (shared s c') (<[j := client_of cl c']> cls);
  safe_out s cls j cl : Safe s cls -> cls !! j = Some cl -> registered (cl_eng cl) = true -> sends j = true ->
    exists c' b, Engine.out_event ocb_ops mem (conn_of s cl) = Ok (c', b) /\ Safe (shared s c') (<[j := client_of cl c']> cls);
  safe_sends s cls j cl : Safe s cls -> cls !! j = Some cl -> pollout (cl_eng cl) = true -> sends j = true
}.

Context `{!EngineSafe}.

Record loop_inv (e : epoll) (w : world) : Prop := {
  li_reg : reg_inv e w;
  li_safe : Safe (in_state w) (clients w);
  li_bits : forall h pe, entries e !! h = Some pe -> Z.land (ev_events pe) EPOLLOUT <> 0 -> sends (sink pe) = true
}.

Lemma mask_out x : Z.land (mask x) EPOLLOUT <> 0 -> pollout x = true.
Proof. unfold mask. by destruct (pollin x), (pollout x). Qed.

Lemma event_keeps_loop ev e w j cl c' b :
  loop_inv e w -> clients w !! j = Some cl -> registered (cl_eng cl) = true ->
  ev (conn_of (in_state w) cl) = Ok (c', b) -> in_outcome (conn_of (in_state w) cl) c' b ->
  Safe (shared (in_state w) c') (<[j := client_of cl c']> (clients w)) ->
  exists e' w', engine_event ev j e w = Ok (e', w', b) /\ loop_inv e' w' /\ keeps e e' /\ last_ms w <= last_ms w'.
Proof.
  intros [HR HS HB] Hj Hreg Hev Hout HS'. destruct (engine_event_inv ev e w j cl c' b HR Hj Hreg Hev Hout) as (e' & Hrun & HR' & Hk & E).
  eexists e', _. split; [exact Hrun|]. split; [|split; [done|simpl; lia]]. split; [done|done|]. intros h pe Hpe Hm. rewrite E in Hpe.
  apply lookup_insert_Some in Hpe as [[<- <-]|[_ Hpe]]; [|by apply (HB h)]. simpl in Hm |- *.
  apply (safe_sends _ _ j (client_of cl c') HS'); [|by apply mask_out]. rewrite list_lookup_insert_eq; [done|]. by apply lookup_lt_Some in Hj.
Qed.

Lemma live_client e w h pe : reg_inv e w -> entries e !! h = Some pe -> fd pe <> retired_fd ->
  exists cl, clients w !! sink pe = Some cl /\ registered (cl_eng cl) = true.
Proof. intros HR Hpe Hf. destruct (ri_owned _ _ HR h pe Hpe Hf) as (cl & ? & ? & _). by exists cl. Qed.

Lemma entries_reg_inv e e' w :
  reg_inv e w -> poller_inv e' -> timers e' = timers e -> open_fds e' = open_fds e ->
  (forall h pe, fd pe <> retired_fd -> entries e' !! h = Some pe <-> entries e !! h = Some pe) -> reg_inv e' w.
Proof.
  intros [Hp Ht Hc He Ho Ha Hop Hfd] Hp' Ht' Ho' Hent. split; try done.
  - by rewrite Ht'.
  - intros j cl Hj Hr. destruct (He j cl Hj Hr) as [Hf Hh]. split; [done|]. by apply Hent.
  - intros h pe Hpe Hf. apply Hent in Hpe; [|done]. by apply Ho.
  - by rewrite Ho'.
Qed.

Lemma time_reg_inv e w : (forall k k', (k <= k')%nat -> u64 (time_us k) <= u64 (time_us k')) -> reg_inv e w ->
  last_ms w <= (clock_now_ms w).1 /\ last_ms (clock_now_ms w).2 = (clock_now_ms w).1 /\ reg_inv e (clock_now_ms w).2.
Proof.
  intros Hmono [Hp Ht Hc He Ho Ha Hop Hfd]. cbn [clock_now_ms fst snd last_ms]. split; [by apply Hc|]. split; [done|]. split; try done.
  simpl. intros k Hk. apply Z.div_le_mono; [lia|]. apply Hmono. lia.
Qed.

(** The engines keep the contract of the event loop. *)
#[export] Program Instance engines_spec (Hmono : forall k k', (k <= k')%nat -> u64 (time_us k) <= u64 (time_us k')) :
    PollEventsSpec nat world := {
  Inv := loop_inv;
  clock := last_ms;
  wants_out := sends
}.
Next Obligation. intros Hmono e w HI. apply HI. Qed.
Next Obligation.
  intros Hmono e w [HR HS HB]. destruct (time_reg_inv e w Hmono HR) as (H1 & H2 & H3). split; [exact H1|]. split; [exact H2|]. by split.
Qed.
Next Obligation. intros Hmono e w h pe HI. apply (li_bits e w HI). Qed.
Next Obligation.
  intros Hmono e w b [HR HS HB]. split; [|done|done]. apply (entries_reg_inv e); [done|by apply stopping_inv, HR|done..].
Qed.
Next Obligation.
  intros Hmono e e' w [HR HS HB] Hf. destruct (free_retired_ok e (ri_poller _ _ HR)) as (e0 & Hf0 & Hp' & E & Ho & _ & _ & _ & Ht & _).
  rewrite Hf in Hf0. injection Hf0 as <-. split; [|done|].
  - apply (entries_reg_inv e); try done. intros h pe Hfp. rewrite E, map_lookup_filter_Some. tauto.
  - intros h pe Hpe. rewrite E in Hpe. apply map_lookup_filter_Some in Hpe as [Hpe _]. by apply (HB h).
Qed.
Next Obligation.
  intros Hmono e w h pe HI Hpe Hf. destruct (live_client e w h pe (li_reg _ _ HI) Hpe Hf) as (cl & Hj & Hr).
  destruct (safe_in _ _ _ cl (li_safe _ _ HI) Hj Hr) as (c' & b & Hev & HS').
  destruct (event_keeps_loop (Engine.in_event icb_ops ocb_ops mem opts) e w (sink pe) cl c' b HI Hj Hr Hev) as (e' & w' & Hrun & HI' & Hk & Hms);
    [by eapply in_event_stands|done|]. exists e', w', b. split; [exact Hrun|done].
Qed.
Next Obligation.
  intros Hmono e w h pe HI Hpe Hf Hout. destruct (live_client e w h pe (li_reg _ _ HI) Hpe Hf) as (cl & Hj & Hr).
  destruct (safe_out _ _ _ cl (li_safe _ _ HI) Hj Hr Hout) as (c' & b & Hev & HS').
  destruct (event_keeps_loop (Engine.out_event ocb_ops mem) e w (sink pe) cl c' b HI Hj Hr Hev) as (e' & w' & Hrun & HI' & Hk & Hms);
    [apply out_event_stands in Hev; destruct b; by constructor|done|]. exists e', w', b. split; [exact Hrun|done].
Qed.
Next Obligation. intros Hmono e w t l HI Ht. by rewrite (ri_timers _ _ (li_reg _ _ HI)) in Ht. Qed.

End Loop.

(** ** Engines that receive *)

Section Receivers.
Context {IS OS : Type} (icb_ops : in_callback IS) (ocb_ops : out_callback OS) (mem : Z -> bool) (opts : eng_options).
Context (push : IS -> list Z -> IS) (mx : Z).
Hypothesis Hpush : forall s b, PushRecord icb_ops s b = Ok (push s b, 0).

(** The state of the in-callback at the start and the messages the peer of each
    engine sends. *)
Context (s0 : IS) (ms : nat -> list (Z * list Z)).
Local Abbreviation clientT := (@client OS).

(** The out-callbacks, for feedback to the peers, have nothing to send. *)
Hypothesis Hpull : forall o, exists o' n r, PullRecord ocb_ops o = Ok (o', None, n, r).

(** What the in-callback was given, with the engine it came from. *)
Definition of_engine (j : nat) (log : list (nat * (Z * list Z))) : list (Z * list Z) := (filter (fun x => x.1 = j) log).*2.

Lemma of_engine_app j l l' : of_engine j (l ++ l') = of_engine j l ++ of_engine j l'.
Proof. unfold of_engine. by rewrite filter_app, fmap_app. Qed.

Lemma of_engine_pairs j k (got : list (Z * list Z)) : of_engine k (pair j <$> got) = if decide (j = k) then got else [].
Proof.
  unfold of_engine. induction got as [|q got IH]; [by case_decide|]. rewrite fmap_cons, filter_cons. cbn [fst].
  destruct (decide (j = k)); [rewrite fmap_cons; cbn [snd]; by rewrite IH|done].
Qed.

(** After its bytes a socket is silent, closed or broken. *)
Definition closing (tail : list recv_ev) : Prop :=
  match tail with [] | RecvClosed :: _ | RecvFail :: _ => True | _ => False end.

(** The messages [rest] are still to come, some of their bytes decoded already. *)
Definition stream_left (cl : clientT) (rest : list (Z * list Z)) : Prop :=
  exists rs tail, rx (cl_sk cl) = rs ++ tail /\ Forall clean_ev rs /\ closing tail /\ in_bytes (cl_eng cl) = [] /\
    Forall (fun q => valid_msg mem mx q.1 q.2) rest /\ forall s : IS, inputting mx (conn_of s cl) s rest (rx_bytes rs).

(** Nothing is being sent. *)
Definition idle_output (cl : clientT) : Prop :=
  read_msg (cl_eng cl) = MData /\ out_bytes (cl_eng cl) = [] /\ exists en, encoder (cl_eng cl) = Some en /\ e_msg en = None.

(** The in-callback was given [log]; the engines on the poller have the rest of
    their peers' messages to come, the others are deleted and have none. *)
Definition logged (log : list (nat * (Z * list Z))) (s : IS) (cls : list clientT) : Prop :=
  s = pushed push s0 log.*2 /\ forall j cl, cls !! j = Some cl ->
    idle_output cl /\ exists rest, ms j = of_engine j log ++ rest /\
    if registered (cl_eng cl) then stream_left cl rest else rest = [] /\ alive (cl_eng cl) = false.

(** An event of engine [j] that passed on [got]. *)
Lemma logged_more log s cls j cl (c' : conn IS OS) got rest :
  logged log s cls -> cls !! j = Some cl -> ms j = of_engine j log ++ got ++ rest ->
  idle_output (client_of cl c') -> icb c' = Some (pushed push s got) ->
  (if registered (eng c') then stream_left (client_of cl c') rest else rest = [] /\ alive (eng c') = false) ->
  logged (log ++ (pair j <$> got)) (shared s c') (<[j := client_of cl c']> cls).
Proof.
  intros [Hs Hcls] Hj Hms Hp Hi Hr. split.
  - unfold shared. rewrite Hi. cbn [default]. rewrite Hs, fmap_app, <- list_fmap_compose. unfold pushed. rewrite foldl_app. f_equal.
    by rewrite list_fmap_id.
  - intros k y Hy. apply list_lookup_insert_Some in Hy as [(<- & <- & _)|[Hne Hy]].
    + split; [done|]. exists rest. rewrite of_engine_app, of_engine_pairs, decide_True, <- app_assoc by done. done.
    + destruct (Hcls k y Hy) as [Hpy (resty & Hmy & Hry)]. split; [done|]. exists resty.
      by rewrite of_engine_app, of_engine_pairs, decide_False, app_nil_r by done.
Qed.

(** An input event with nothing to read at the moment, and one at the end of the
    connection. *)
Lemma event_waits (c : conn IS OS) d sk' :
  data_mode c -> decoder (eng c) = Some d -> in_bytes (eng c) = [] -> (forall n, read (sk c) n = (sk', GotError EAGAIN)) ->
  Engine.in_event icb_ops ocb_ops mem opts c = Ok ({| eng := eng c; sk := sk'; icb := icb c; ocb := ocb c |}, false).
Proof.
  intros (H1 & H2 & H3 & _) Hd Hb Hr. unfold Engine.in_event. rewrite H2, H1. cbn [negb afs_assert mbind result_bind].
  by rewrite Hd, H3, Hb, Hr.
Qed.

Lemma event_ends (c : conn IS OS) d sk' r :
  data_mode c -> decoder (eng c) = Some d -> in_bytes (eng c) = [] -> plugged (eng c) = true -> r = GotClosed \/ r = GotError EOTHER ->
  (forall n, read (sk c) n = (sk', r)) ->
  exists c', Engine.in_event icb_ops ocb_ops mem opts c = Ok (c', false) /\ icb c' = icb c /\ standing c' = (false, false, false) /\ sk c' = sk'.
Proof.
  intros (H1 & H2 & H3 & _) Hd Hb Hpl Hcase Hr. unfold Engine.in_event. rewrite H2, H1. cbn [negb afs_assert mbind result_bind].
  rewrite Hd, H3, Hb, Hr. destruct Hcase as [-> | ->]; unfold error, terminate, unplug; cbn [eng]; rewrite Hpl; cbn [afs_assert mbind result_bind];
    (eexists; split; [reflexivity|]; split; [done|]; split; [|done]; unfold standing; cbn; by rewrite H2).
Qed.

(** A socket without bytes pauses, or the connection ends. *)
Lemma no_bytes rs : Forall clean_ev rs -> rx_bytes rs = [] -> rs = [] \/ exists rs', rs = RecvAgain :: rs' /\ rx_bytes rs' = [] /\ Forall clean_ev rs'.
Proof.
  intros Hc Hb. destruct rs as [|[l| | |] rs]; [by left|..]; apply Forall_cons in Hc as [Hl Hc]; [|done| |done].
  - exfalso. apply Hl. unfold rx_bytes in Hb. cbn in Hb. by apply app_eq_nil in Hb as [-> _].
  - right. exists rs. done.
Qed.

(** Any input event of such an engine. *)
Lemma logged_in log s cls j cl :
  logged log s cls -> cls !! j = Some cl -> registered (cl_eng cl) = true ->
  exists c' b log', Engine.in_event icb_ops ocb_ops mem opts (conn_of s cl) = Ok (c', b) /\
    logged log' (shared s c') (<[j := client_of cl c']> cls).
Proof.
  intros HL Hj Hr. pose proof HL as [_ Hcls]. destruct (Hcls j cl Hj) as [Hp (rest & Hms & Hleft)]. rewrite Hr in Hleft.
  destruct Hleft as (rs & tail & Hrx & Hcl & Hcg & Hb & Hv & Hin).
  pose proof Hr as [Hpl Hio%negb_true_iff]%andb_true_iff. pose proof (Hin s) as (Hdm & _ & d & k & Hd & Hst). pose proof Hdm as (Hh & _ & _ & Hw & _ & Hal).
  assert (Hout : forall c' b, Engine.in_event icb_ops ocb_ops mem opts (conn_of s cl) = Ok (c', b) -> idle_output (client_of cl c')).
  { intros c' b Hev. apply in_event_out_side in Hev; [|done..]. injection Hev as _ _ H1 H2 H3. unfold idle_output. simpl. by rewrite H1, H2, H3. }
  destruct (nil_or_length_pos (rx_bytes rs)) as [Hnil|Hpos].
  - assert (rest = []) as -> by (by apply (streaming_rem _ _ _ _ _ _ _ Hst)).
    assert (Hdead : forall c', Engine.in_event icb_ops ocb_ops mem opts (conn_of s cl) = Ok (c', false) -> icb c' = Some s ->
      standing c' = (false, false, false) -> logged (log ++ (pair j <$> [])) (shared s c') (<[j := client_of cl c']> cls)).
    { intros c' Hev Hi [= Hp' Ha' _]. apply (logged_more log s cls j cl c' [] []); try done; [by eapply Hout|]. unfold registered. by rewrite Hp'. }
    destruct (no_bytes rs Hcl Hnil) as [-> | (rs' & -> & Hnil' & Hcl')].
    + destruct tail as [|[l| | |] tail]; try done.
      * eexists _, _, log. split; [by apply (event_waits _ d); [exact Hdm|done|done|intros n; unfold read; simpl; rewrite Hrx]|].
        rewrite <- (app_nil_r log). apply (logged_more log s cls j cl _ [] []); try done. cbn [eng conn_of]. rewrite Hr. exists [], []. by split_and!.
      * destruct (event_ends (conn_of s cl) d {| rx := tail; txs := txs (cl_sk cl); sent := sent (cl_sk cl) |} GotClosed)
          as (c' & Hev & Hi & Hst' & _); [exact Hdm|done|done|done|by left|intros n; unfold read; simpl; by rewrite Hrx|]. exists c', false, (log ++ []). auto.
      * destruct (event_ends (conn_of s cl) d {| rx := tail; txs := txs (cl_sk cl); sent := sent (cl_sk cl) |} (GotError EOTHER))
          as (c' & Hev & Hi & Hst' & _); [exact Hdm|done|done|done|by right|intros n; unfold read; simpl; by rewrite Hrx|]. exists c', false, (log ++ []). auto.
    + eexists _, _, log. split; [apply (event_waits _ d {| rx := rs' ++ tail; txs := txs (cl_sk cl); sent := sent (cl_sk cl) |});
        [exact Hdm|done|done|intros n; unfold read; simpl; by rewrite Hrx]|].
      rewrite <- (app_nil_r log). apply (logged_more log s cls j cl _ [] []); try done. cbn [eng conn_of]. rewrite Hr. exists rs', tail. by split_and!.
  - destruct (in_event_then icb_ops ocb_ops mem opts push mx Hpush (conn_of s cl) s rest rs tail) as (c' & got & rest' & rs' & Hev & -> & Hrx' & Hin' & Hb' & Hcl' & _);
      try done; [intros E; rewrite E in Hpos; simpl in Hpos; lia|].
    exists c', false, (log ++ (pair j <$> got)). split; [done|]. pose proof Hin' as ((_ & Hio' & _ & _ & _ & Hal') & Hi' & Hdec).
    assert (Hreg : registered (eng c') = true).
    { destruct (in_event_stands _ _ _ _ _ _ _ Hev) as [_ Ho]. inversion Ho as [Hs|b' [_ Hs]|Hs]; unfold standing in Hs; unfold registered; [|congruence..].
      injection Hs as -> _ ->. cbn. by rewrite Hpl, Hio. }
    apply (logged_more log s cls j cl c' got rest'); try done; [by eapply Hout|]. rewrite Hreg. exists rs', tail. split_and!; try done.
    + by apply Forall_app in Hv as [_ Hv].
    + intros s'. destruct Hin' as (Hdm' & _ & _). split; [exact Hdm'|]. split; [done|]. exact Hdec.
Qed.

(** An output event finds nothing to send. *)
Lemma idle_out_event (c : conn IS OS) s rest rem en :
  inputting mx c s rest rem -> read_msg (eng c) = MData -> out_bytes (eng c) = [] -> encoder (eng c) = Some en -> e_msg en = None ->
  exists o', Engine.out_event ocb_ops mem c = Ok ({| eng := set_out_bytes (set_tx_msg (set_hp (set_encoder (eng c) (Some en)) (hp (eng c))) (tx_msg (eng c))) [];
    sk := sk c; icb := icb c; ocb := o' |}, false).
Proof.
  intros ((_ & Hio & _ & _ & [mc Hmc] & _) & _) Hrd Hob Hen Hm.
  assert (Hfuel : exists n, Z.to_nat out_batch_size = S n) by (exists (Z.to_nat (out_batch_size - 1)); unfold out_batch_size; lia).
  destruct Hfuel as [n Hn]. unfold Engine.out_event. rewrite Hn, Hio, Hob, Hen. cbn [negb afs_assert mbind result_bind].
  unfold run_encode. rewrite Hen. unfold encode. rewrite Hm. cbn [mbind result_bind ack_all foldM andb]. cbn [fill_output on_eng eng set_out_bytes out_bytes].
  change (out_batch_size <=? Z.of_nat (length [])) with false. cbn iota. unfold run_read_msg, pull_and_encode. cbn. rewrite Hrd, Hmc. cbn.
  destruct (ocb c) as [o|]; [|by eexists]. destruct (Hpull o) as (o' & k & r & ->). cbn. by eexists.
Qed.

Lemma logged_out log s cls j cl :
  logged log s cls -> cls !! j = Some cl -> registered (cl_eng cl) = true ->
  exists c', Engine.out_event ocb_ops mem (conn_of s cl) = Ok (c', false) /\ logged log (shared s c') (<[j := client_of cl c']> cls).
Proof.
  intros HL Hj Hr. pose proof HL as [_ Hcls]. destruct (Hcls j cl Hj) as [Hp (rest & Hms & Hleft)]. rewrite Hr in Hleft.
  destruct Hleft as (rs & tail & Hrx & Hcl & Hcg & Hb & Hv & Hin). pose proof Hp as (Hrd & Hob & en & Hen & Hm).
  destruct (idle_out_event (conn_of s cl) s rest (rx_bytes rs) en (Hin s) Hrd Hob Hen Hm) as [o' Hev]. eexists. split; [exact Hev|].
  rewrite <- (app_nil_r log). apply (logged_more log s cls j cl _ [] rest); try done.
  - split; [exact Hrd|]. split; [done|]. exists en. done.
  - cbn [eng]. change (registered _) with (registered (cl_eng cl)). rewrite Hr. exists rs, tail. by split_and!.
Qed.

(** Receivers are safe on the loop. *)
#[export] Program Instance receivers_safe : @EngineSafe IS OS icb_ops ocb_ops mem opts := {
  Safe s cls := exists log, logged log s cls;
  sends j := true
}.
Next Obligation.
  intros s cls j cl [log HL] Hj Hr. destruct (logged_in log s cls j cl HL Hj Hr) as (c' & b & log' & Hev & HL'). exists c', b. eauto.
Qed.
Next Obligation.
  intros s cls j cl [log HL] Hj Hr _. destruct (logged_out log s cls j cl HL Hj Hr) as (c' & Hev & HL'). exists c', false. eauto.
Qed.
Next Obligation. done. Qed.


End Receivers.


(** ** Samples *)

(** Two connections after the handshake; the second peer closes. *)
Definition sample_eng : engine :=
  Engine.set_encoder (Engine.set_plugged (Engine.set_pollout (Engine.set_pollin (eng (data_conn [])) true) true) true)
    (Some (new_v2_encoder out_batch_size)).
Definition sample_ms (j : nat) : list (Z * list Z) := match j with O => [(0, [1; 2; 3]); (0, [4])] | 1%nat => [(0, [7; 8])] | _ => [] end.
Definition sample_sock (j : nat) (rs : list recv_ev) : sock := mksock (RecvBytes (frames (sample_ms j)) :: rs) [] [].
Definition sample_time (k : nat) : Z := 0.

Definition sample_start : result (epoll * @world (list (list Z)) unit) :=
  st ← put_client 5 sample_eng (sample_sock 0 []) (Some tt) (new_epoll {[5; 6]}) (mkworld [] [] 0 0);
  put_client 6 sample_eng (sample_sock 1 [RecvClosed]) (Some tt) st.1 st.2.

Definition sample_st0 : epoll * @world (list (list Z)) unit :=
  match sample_start with Ok st => st | Stop _ => (new_epoll ∅, mkworld [] [] 0 0) end.

Local Abbreviation sample_events := (engine_events collect no_output (fun _ => true) sample_opts sample_time).

(** Both are readable, then the second one again. *)
Definition sample_turn (evs : list (Z * Z)) (st : epoll * @world (list (list Z)) unit) : epoll * @world (list (list Z)) unit :=
  match after_wait (PollEvents0 := sample_events) (Some evs) st with Ok st' => st' | Stop _ => st end.
Definition sample_st1 := sample_turn [(5, 1); (EPOLLIN, 0)] sample_st0.
Definition sample_st2 := sample_turn [(EPOLLIN, 1)] sample_st1.

Lemma sample_reg : reg_inv sample_time sample_st0.1 sample_st0.2.
Proof.
  assert (H0 : reg_inv (IS := list (list Z)) (OS := unit) sample_time (new_epoll {[5; 6]}) (mkworld [] [] 0 0)).
  { split; try done; [apply new_epoll_inv; rewrite not_elem_of_union, !not_elem_of_singleton; unfold retired_fd; lia|constructor]. }
  assert (H5 : 5 ∈ open_fds (new_epoll (K := nat) {[5; 6]})) by (apply (bool_decide_unpack _); by vm_compute).
  destruct (put_client_inv sample_time 5 sample_eng (sample_sock 0 []) (Some tt) _ _ H0 H5 eq_refl (not_elem_of_nil _) eq_refl eq_refl) as (e1 & w1 & E1 & H1).
  assert (Hw : 6 ∈ open_fds e1 /\ interest e1 !! 6 = None /\ 6 ∉ cl_fd <$> clients w1).
  { vm_compute in E1. injection E1 as <- <-. split; [apply (bool_decide_unpack _); by vm_compute|]. split; [by vm_compute|].
    apply (bool_decide_unpack _). by vm_compute. }
  destruct Hw as (Ha & Hb & Hc).
  destruct (put_client_inv sample_time 6 sample_eng (sample_sock 1 [RecvClosed]) (Some tt) _ _ H1 Ha Hb Hc eq_refl eq_refl) as (e2 & w2 & E2 & H2).
  unfold sample_st0, sample_start. rewrite E1. cbn [mbind result_bind fst snd]. by rewrite E2.
Qed.

Lemma sample_turn_step evs st :
  stopping st.1 = false -> timers st.1 = [] -> legal_events evs st.1 ->
  match after_wait (PollEvents0 := sample_events) (Some evs) st with Ok _ => true | Stop _ => false end = true ->
  loop_step (PollEvents0 := sample_events) st (Ok (sample_turn evs st)).
Proof.
  intros Hs Ht Hl Hok. unfold sample_turn. destruct (after_wait (Some evs) st) as [st'|] eqn:E; [|done].
  rewrite <- E. apply (ls_turn st st 0); [done|unfold execute_timers; by rewrite Ht|]. by intros l [= <-].
Qed.

Lemma sample_streams j cl : clients sample_st0.2 !! j = Some cl ->
  registered (cl_eng cl) = true /\ idle_output cl /\ stream_left (IS := list (list Z)) (fun _ => true) (-1) cl (sample_ms j).
Proof.
  assert (Hcl : clients sample_st0.2 = [mkclient 5 0 sample_eng (sample_sock 0 []) (Some tt); mkclient 6 1 sample_eng (sample_sock 1 [RecvClosed]) (Some tt)])
    by (vm_compute; reflexivity).
  rewrite Hcl. clear Hcl. destruct j as [|[|j]]; [| |done]; intros [= <-]; (split; [done|split; [split; [done|split; [done|by eexists]]|]]).
  - exists [RecvBytes (frames (sample_ms 0))], []. split; [done|]. split; [repeat constructor; done|]. split; [done|]. split; [done|].
    split; [repeat constructor; cbn; try lia; done|]. intros s. split; [done|]. split; [done|]. eexists _, _. split; [done|].
    unfold rx_bytes. cbn [mbind list_bind ev_bytes]. rewrite app_nil_r. by apply streaming_start.
  - exists [RecvBytes (frames (sample_ms 1))], [RecvClosed]. split; [done|]. split; [repeat constructor; done|]. split; [done|]. split; [done|].
    split; [repeat constructor; cbn; try lia; done|]. intros s. split; [done|]. split; [done|]. eexists _, _. split; [done|].
    unfold rx_bytes. cbn [mbind list_bind ev_bytes]. rewrite app_nil_r. by apply streaming_start.
Qed.



End EngineLoop.
