(* ===== verification/SenderLoop.v ===== *)
(** Engines that send, on the event loop: the engines of the file EngineOutput as
    an instance of the class [EngineSafe] of EngineLoop.  A peer may pause or
    close its end; every engine has an out-callback of its own, and what its
    socket has been given is always a prefix of the frames of its records. *)
From stdpp Require Import base numbers list gmap.
From Stdlib Require Import ZArith Lia.
From S2P Require Import Prelude Msg Codec Encoder Mechanism StreamEngine EngineProofs EngineOutput Poller EngineLoop.

Module SenderLoop.
Import Poller Msg Wire Frame Enc Sock Engine EngineProofs EngineOutput EngineLoop.

(** ** Output leaves the receiving side alone *)

Section InSide.
Context {IS OS : Type} (ocb_ops : out_callback OS) (mem : Z -> bool).
Local Abbreviation connT := (conn IS OS).
Implicit Types c : connT.

Definition in_side c :=
  (handshaking (eng c), input_stopped (eng c), write_msg (eng c), read_msg (eng c), mech (eng c), decoder (eng c), in_bytes (eng c), icb c).

Lemma ack_all_in_side acks c c' : ack_all ocb_ops c acks = Ok c' -> in_side c' = in_side c.
Proof.
  unfold ack_all. revert c. induction acks as [|p acks IH]; intros c H; cbn [foldM] in H; [by injection H as ->|].
  destruct (ocb c); [|done]. destruct (AckRecord ocb_ops _ p); [|done]. cbn [mbind result_bind] in H. by apply IH in H.
Qed.

Lemma run_encode_in_side c bf c' r : run_encode ocb_ops c bf = Ok (c', r) -> in_side c' = in_side c.
Proof. unfold run_encode. intros H. run H. match goal with E : ack_all _ _ _ = _ |- _ => by apply ack_all_in_side in E end. Qed.

Lemma pull_in_side c c' r : read_msg (eng c) = MData -> run_read_msg ocb_ops mem c = Ok (c', r) -> in_side c' = in_side c.
Proof. unfold run_read_msg, pull_and_encode. intros Hrd H. rewrite Hrd in H. run H; done. Qed.

Lemma fill_output_in_side fuel c null c' : read_msg (eng c) = MData -> fill_output ocb_ops mem fuel c null = Ok c' -> in_side c' = in_side c.
Proof.
  revert c null. induction fuel as [|fuel IH]; intros c null Hrd H; cbn [fill_output] in H; run H; try done;
    repeat match goal with
    | E : run_read_msg _ _ _ = _ |- _ => apply pull_in_side in E; [|done]
    | E : run_encode _ _ _ = _ |- _ => apply run_encode_in_side in E
    end; try (unfold in_side in *; simpl in *; congruence).
  apply IH in H; unfold in_side in *; simpl in *; congruence.
Qed.

Lemma drain_output_in_side fuel c c' : drain_output fuel c = Ok c' -> in_side c' = in_side c.
Proof. revert c. induction fuel as [|fuel IH]; intros c H; cbn [drain_output] in H; run H; try done. by apply IH in H. Qed.

Lemma flush_output_in_side c c' b : flush_output ocb_ops c = Ok (c', b) -> in_side c' = in_side c.
Proof.
  unfold flush_output, terminate, unplug. intros H. run H; try done; run E;
    repeat match goal with
    | E : run_encode _ _ _ = _ |- _ => apply run_encode_in_side in E
    | E : drain_output _ _ = _ |- _ => apply drain_output_in_side in E
    | E : mbind _ _ = Ok _ |- _ => run E
    end; unfold in_side in *; simpl in *; try case_match; simpl; congruence.
Qed.

Lemma out_event_in_side c c' b : read_msg (eng c) = MData -> Engine.out_event ocb_ops mem c = Ok (c', b) -> in_side c' = in_side c.
Proof.
  unfold Engine.out_event. generalize (Z.to_nat out_batch_size). intros fuel Hrd H. destruct (io_error (eng c)); [done|]. cbn [negb afs_assert mbind result_bind] in H.
  destruct (out_bytes (eng c)); [|by eapply flush_output_in_side]. destruct (encoder (eng c)) as [en|].
  - destruct (run_encode _ _ _) as [[c1 bytes]|] eqn:E1; [|done]. cbn [mbind result_bind] in H. cbv zeta in H. apply run_encode_in_side in E1.
    destruct (fill_output _ _ _ _ _) as [c2|] eqn:E2; [|done]. cbn [mbind result_bind] in H.
    apply fill_output_in_side in E2; [|unfold in_side in E1; simpl; congruence]. change (in_side (on_eng c1 _)) with (in_side c1) in E2.
    assert (Hc2 : in_side c2 = in_side c) by congruence. destruct (out_bytes (eng c2)); [by injection H as <- <-|].
    apply flush_output_in_side in H. congruence.
  - destruct (handshaking (eng c)); [|done]. by injection H as <- <-.
Qed.

End InSide.

(** ** Engines that send *)

Section Senders.
Context {IS OS : Type} (icb_ops : in_callback IS) (ocb_ops : out_callback OS) (mem : Z -> bool) (opts : eng_options).
Context `{!OutCallbackSpec ocb_ops}.

(** What the out-callback of each engine has to send, and what its socket was
    given before (the handshake). *)
Context (total : nat -> list (Z * list Z)) (pre : nat -> list Z).
Local Abbreviation clientT := (@client OS).

(** The peer sends nothing, and may close at some point. *)
Definition quiet (cl : clientT) : Prop :=
  is_Some (decoder (cl_eng cl)) /\ in_bytes (cl_eng cl) = [] /\
  exists rs tail, rx (cl_sk cl) = rs ++ tail /\ Forall (fun r => r = RecvAgain) rs /\ closing tail.

(** Every record is with the callback, in the engine or with the socket. *)
Definition sender (j : nat) (cl : clientT) : Prop :=
  exists o rest, (forall s : IS, carrying ocb_ops mem (conn_of s cl) o rest /\ data_mode (conn_of s cl)) /\ quiet cl /\
    pulled o ++ waiting o = total j /\ sent (cl_sk cl) ++ out_bytes (cl_eng cl) ++ rest = pre j ++ frames (messages (pulled o)).

Definition sending (cls : list clientT) : Prop :=
  forall j cl, cls !! j = Some cl -> sent (cl_sk cl) `prefix_of` pre j ++ frames (messages (total j)) /\
    if registered (cl_eng cl) then sender j cl else alive (cl_eng cl) = false.

Lemma sender_prefix j cl : sender j cl -> sent (cl_sk cl) `prefix_of` pre j ++ frames (messages (total j)).
Proof.
  intros (o & rest & _ & _ & Htot & Hb). rewrite <- Htot. unfold messages, frames in *. rewrite fmap_app, bind_app, app_assoc, <- Hb.
  rewrite <- !app_assoc. by eexists.
Qed.

Lemma sending_insert cls j cl' :
  sending cls -> sent (cl_sk cl') `prefix_of` pre j ++ frames (messages (total j)) ->
  (if registered (cl_eng cl') then sender j cl' else alive (cl_eng cl') = false) -> sending (<[j := cl']> cls).
Proof. intros HS Hp Hc k y Hy. apply list_lookup_insert_Some in Hy as [(<- & <- & _)|[_ Hy]]; [done|by apply HS]. Qed.

Lemma carrying_any (c : conn IS OS) o rest sk' (i : option IS) :
  carrying ocb_ops mem c o rest -> carrying ocb_ops mem {| eng := eng c; sk := sk'; icb := i; ocb := ocb c |} o rest.
Proof. intros []. by split. Qed.

Lemma sending_in (s : IS) cls j cl :
  sending cls -> cls !! j = Some cl -> registered (cl_eng cl) = true ->
  exists c' b, Engine.in_event icb_ops ocb_ops mem opts (conn_of s cl) = Ok (c', b) /\ sending (<[j := client_of cl c']> cls).
Proof.
  intros HS Hj Hr. destruct (HS j cl Hj) as [Hpre Hsnd]. rewrite Hr in Hsnd.
  pose proof Hsnd as (o & rest & Hall & ([d Hd] & Hb & rs & tail & Hrx & Hrs & Hcg) & Htot & Hbytes). destruct (Hall s) as [Hc Hdm].
  pose proof Hr as [Hpl _]%andb_true_iff.
  assert (Hwait : forall rs' tail', Forall (fun r => r = RecvAgain) rs' -> closing tail' ->
    sending (<[j := client_of cl {| eng := cl_eng cl; sk := mksock (rs' ++ tail') (txs (cl_sk cl)) (sent (cl_sk cl)); icb := Some s; ocb := cl_out cl |}]> cls)).
  { intros rs' tail' Hrs' Hcg'. apply sending_insert; [done|done|]. cbn [client_of cl_eng eng]. rewrite Hr. exists o, rest. split.
    - intros s'. split; [by apply (carrying_any (conn_of s cl))|exact Hdm].
    - split; [|done]. split; [by exists d|]. split; [done|]. by exists rs', tail'. }
  assert (Hend : forall c' r tail', Engine.in_event icb_ops ocb_ops mem opts (conn_of s cl) = Ok (c', false) -> standing c' = (false, false, false) ->
    sk c' = mksock tail' r (sent (cl_sk cl)) -> sending (<[j := client_of cl c']> cls)).
  { intros c' r tail' _ [= Hp' Ha' _] Hsk. apply sending_insert; [done|simpl; by rewrite Hsk|]. simpl. unfold registered. by rewrite Hp'. }
  destruct rs as [|x rs].
  - destruct tail as [|[l| | |] tail]; try done.
    + eexists _, _. split; [apply (event_waits icb_ops ocb_ops mem opts (conn_of s cl) d (mksock [] (txs (cl_sk cl)) (sent (cl_sk cl))) Hdm Hd Hb)|by apply (Hwait [] [])].
      intros n. unfold read. simpl. rewrite Hrx. destruct (cl_sk cl); simpl in *; by rewrite Hrx.
    + destruct (event_ends icb_ops ocb_ops mem opts (conn_of s cl) d (mksock tail (txs (cl_sk cl)) (sent (cl_sk cl))) GotClosed Hdm Hd Hb Hpl)
        as (c' & Hev & _ & Hst & Hsk); [by left|intros n; unfold read; simpl; by rewrite Hrx|]. exists c', false. split; [done|by eapply Hend].
    + destruct (event_ends icb_ops ocb_ops mem opts (conn_of s cl) d (mksock tail (txs (cl_sk cl)) (sent (cl_sk cl))) (GotError EOTHER) Hdm Hd Hb Hpl)
        as (c' & Hev & _ & Hst & Hsk); [by right|intros n; unfold read; simpl; by rewrite Hrx|]. exists c', false. split; [done|by eapply Hend].
  - apply Forall_cons in Hrs as [-> Hrs].
    eexists _, _. split; [apply (event_waits icb_ops ocb_ops mem opts (conn_of s cl) d (mksock (rs ++ tail) (txs (cl_sk cl)) (sent (cl_sk cl))) Hdm Hd Hb)|by apply Hwait].
    intros n. unfold read. simpl. by rewrite Hrx.
Qed.

Lemma sending_out (s : IS) cls j cl :
  sending cls -> cls !! j = Some cl -> registered (cl_eng cl) = true ->
  exists c', Engine.out_event ocb_ops mem (conn_of s cl) = Ok (c', false) /\ sending (<[j := client_of cl c']> cls).
Proof.
  intros HS Hj Hr. destruct (HS j cl Hj) as [_ Hsnd]. rewrite Hr in Hsnd. destruct Hsnd as (o & rest & Hall & ([d Hd] & Hb & Hq) & Htot & Hbytes).
  destruct (Hall s) as [Hc (D1 & D2 & D3 & D4 & D5 & D6)].
  destruct (engine_out_event_ok ocb_ops mem (conn_of s cl) o rest Hc) as (c' & o' & rest' & new & Hev & Hc' & Hrx & Hby & Hp & Hw & _). exists c'. split; [done|].
  pose proof (out_event_stands ocb_ops mem _ _ _ Hev) as Hst. unfold out_outcome, standing in Hst. injection Hst as H1 H2 H3.
  pose proof (out_event_in_side ocb_ops mem _ _ _ (ca_read _ _ _ _ _ Hc) Hev) as Hin. unfold in_side in Hin. injection Hin as I1 I2 I3 I4 I5 I6 I7 _.
  assert (Hsnd : sender j (client_of cl c')).
  { exists o', rest'. split_and!.
    - intros s'. split; [by apply (carrying_any c')|]. unfold data_mode. simpl. rewrite I1, H3, I2, I3, I5, H2. by split_and!.
    - split; [exists d; simpl; congruence|]. split; [simpl; congruence|]. simpl. rewrite Hrx. exact Hq.
    - by rewrite Hp, <- app_assoc, <- Hw.
    - simpl. rewrite Hby, Hp. simpl. rewrite app_assoc, app_assoc, <- (app_assoc (sent (cl_sk cl))), Hbytes.
      unfold messages, frames. by rewrite fmap_app, bind_app, app_assoc. }
  apply sending_insert; [done|by apply sender_prefix|]. simpl. replace (registered (eng c')) with true; [done|]. unfold registered in *. simpl in H1, H3. by rewrite H1, H3.
Qed.

(** Senders are safe on the loop. *)
#[export] Program Instance senders_safe : @EngineSafe IS OS icb_ops ocb_ops mem opts := {
  Safe s cls := sending cls;
  sends j := true
}.
Next Obligation. intros s cls j cl HS Hj Hr. by apply sending_in. Qed.
Next Obligation. intros s cls j cl HS Hj Hr _. destruct (sending_out s cls j cl HS Hj Hr) as (c' & Hev & HS'). by exists c', false. Qed.
Next Obligation. done. Qed.


End Senders.

(** ** A sample *)

(** One connection; its socket takes three bytes of the records, and then the
    peer closes. *)
Definition sample_sock : sock := mksock [RecvClosed] [SendUpTo 3] [9].
Definition sample_total (j : nat) : list (Z * list Z) := sample_records.
Local Abbreviation worldT := (@world unit (list (Z * list Z) * list (Z * list Z) * list Z)).

Definition sample_st0 : epoll * worldT :=
  match put_client 5 sample_eng sample_sock (Some (sample_records, [], [])) (new_epoll {[5]}) (mkworld tt [] 0 0) with
  | Ok st => st | Stop _ => (new_epoll ∅, mkworld tt [] 0 0) end.

Definition discard : in_callback unit := {| PushRecord := fun s _ => Ok (s, 0) |}.
Local Abbreviation sample_events := (engine_events discard queue (fun _ => true) sample_opts sample_time).

Definition sample_st1 : epoll * worldT :=
  match after_wait (PollEvents0 := sample_events) (Some [(Z.lor EPOLLOUT EPOLLIN, 0)]) sample_st0 with Ok st => st | Stop _ => sample_st0 end.

Lemma sample_senders_reg : reg_inv sample_time sample_st0.1 sample_st0.2.
Proof.
  assert (H0 : reg_inv (IS := unit) (OS := list (Z * list Z) * list (Z * list Z) * list Z) sample_time (new_epoll {[5]}) (mkworld tt [] 0 0)).
  { split; try done; [apply new_epoll_inv; rewrite not_elem_of_singleton; unfold retired_fd; lia|constructor]. }
  assert (H5 : 5 ∈ open_fds (new_epoll (K := nat) {[5]})) by (apply (bool_decide_unpack _); by vm_compute).
  destruct (put_client_inv sample_time 5 sample_eng sample_sock (Some (sample_records, [], [])) _ _ H0 H5 eq_refl (not_elem_of_nil _) eq_refl eq_refl)
    as (e1 & w1 & E1 & H1). unfold sample_st0. by rewrite E1.
Qed.

Lemma sample_senders j cl : clients sample_st0.2 !! j = Some cl ->
  registered (cl_eng cl) = true /\ sender (IS := unit) queue (fun _ => true) sample_total (fun _ => [9]) j cl.
Proof.
  assert (Hcl : clients sample_st0.2 = [mkclient 5 0 sample_eng sample_sock (Some (sample_records, [], []))]) by (vm_compute; reflexivity).
  rewrite Hcl. clear Hcl. destruct j as [|j]; [|done]. intros [= <-]. split; [done|]. exists (sample_records, [], []), []. split_and!.
  - intros s. split; [|by split_and!; try eexists]. split; try done; [repeat constructor; cbn; try lia; done|].
    eexists. split; [done|]. apply es_idle; [done| |done]. intros l Hl. cbn in Hl. by rewrite dom_empty_L in Hl.
  - split; [by eexists|]. split; [done|]. exists [], [RecvClosed]. by split_and!.
  - done.
  - done.
Qed.


End SenderLoop.
