(* ===== verification/Wiring.v ===== *)
(** How a worker is put together and started: the constructors of its threads
    ([src/thread/thread.hpp], [thread.cpp], [compute_thread.hpp], [up_thread.hpp],
    [up_thread_net.hpp], [up_thread_trace.hpp], [down_thread_net.hpp]), the
    [Worker] class and the part of [Worker::Start] before the threads run
    ([src/thread/worker.hpp]): thread ids, CPU affinity, the channels between the
    threads, and the threads' own initialisation.  The protocol of the running
    threads is in the file Worker.

    The channels of the compute threads to the down thread live in one store of
    queues and those back to the up thread in another, because a writer's peers
    are the readers' own queues.  A ring between the up thread and a compute
    thread is known by its position in the list of the callback that owns it. *)
From Stdlib Require Import Ascii String ZArith Lia.
From stdpp Require Import base gmap list.
From S2P Require Import Prelude RingBuffer Mpsc ComputeThread Callbacks TcpAddress NetThreads.

Module Wiring.
Import Addr Compute.

(** ** Threads *)

(** The ids of a thread; [thr_id_] is its thread-local [__thr_id]. *)
Record ThreadBase := mkbase { wid_ : Z; tid_ : Z; cpu_ : Z; thr_id_ : Z }.

Definition new_ThreadBase : ThreadBase := mkbase (-1) (-1) (-1) (-1).

Definition set_tid (id : Z) (t : ThreadBase) : ThreadBase := mkbase (wid_ t) id (cpu_ t) (thr_id_ t).
Definition set_wid (id : Z) (t : ThreadBase) : ThreadBase := mkbase id (tid_ t) (cpu_ t) (thr_id_ t).
Definition AssignCPU (cpu : Z) (t : ThreadBase) : ThreadBase := mkbase (wid_ t) (tid_ t) cpu (thr_id_ t).
Definition set_thr_id (id : Z) (t : ThreadBase) : ThreadBase := mkbase (wid_ t) (tid_ t) (cpu_ t) id.

(** [Create]: what [thread_routine] does before [thread_fun]. *)
Definition Create (t : ThreadBase) : result ThreadBase :=
  _ ← afs_assert (negb (wid_ t =? -1));
  _ ← afs_assert (negb (tid_ t =? -1));
  Ok (set_thr_id (tid_ t) t).

Section Threads.
Context {In RIn A B : Type}.
Context (garbage : Z) (zero_in : WrapItem In) (zero_rin : WrapItem RIn) (zero_a : A) (zero_b : B).
(** What the memory of new readers and writers contains. *)
Context (garbage_id garbage_cnt : Z).

(** A new [MPSCObject] with its own queue. *)
Definition new_object {T} (h : Mpsc.store T) : Mpsc.MPSCObject * Mpsc.store T :=
  (Mpsc.mkMPSCObject (Z.of_nat (length h)) [], h ++ [Mpsc.new_LockFreeQueue]).

(** [new OutCallbackSimple (num_in)] with its reader. *)
Definition new_OutCallbackSimple {T} (num_in : Z) (h : Mpsc.store T) : Callbacks.OutCallbackSimple * Mpsc.store T :=
  let '(o, h') := new_object h in
  (Callbacks.mkOutCallback (Mpsc.mkMPSCReader o garbage_id) num_in 0 0, h').

(** *** Compute threads *)

Record ComputeThread := mkcompute {
  c_base : ThreadBase;
  num_upstream_ : Z;
  num_downstream_ : Z;
  in_queue_ : option Z;
  down_writer_ : option Mpsc.MPSCWriter;
  r_in_queue_ : option Z;
  up_writer_ : option Mpsc.MPSCWriter
}.

Definition with_base (f : ThreadBase -> ThreadBase) (c : ComputeThread) : ComputeThread :=
  mkcompute (f (c_base c)) (num_upstream_ c) (num_downstream_ c) (in_queue_ c) (down_writer_ c) (r_in_queue_ c) (up_writer_ c).
Definition set_in_queue (q : Z) (c : ComputeThread) : ComputeThread :=
  mkcompute (c_base c) (num_upstream_ c) (num_downstream_ c) (Some q) (down_writer_ c) (r_in_queue_ c) (up_writer_ c).
Definition set_r_in_queue (q : Z) (c : ComputeThread) : ComputeThread :=
  mkcompute (c_base c) (num_upstream_ c) (num_downstream_ c) (in_queue_ c) (down_writer_ c) (Some q) (up_writer_ c).
Definition set_down_writer (w : option Mpsc.MPSCWriter) (c : ComputeThread) : ComputeThread :=
  mkcompute (c_base c) (num_upstream_ c) (num_downstream_ c) (in_queue_ c) w (r_in_queue_ c) (up_writer_ c).
Definition set_up_writer (w : option Mpsc.MPSCWriter) (c : ComputeThread) : ComputeThread :=
  mkcompute (c_base c) (num_upstream_ c) (num_downstream_ c) (in_queue_ c) (down_writer_ c) (r_in_queue_ c) w.

(** A writer where the constructor makes one. *)
Definition new_writer {T} (wanted : bool) (h : Mpsc.store T) : option Mpsc.MPSCWriter * Mpsc.store T :=
  if wanted then let '(o, h') := new_object h in (Some (Mpsc.new_MPSCWriter o garbage_cnt), h') else (None, h).

Definition new_ComputeThread (num_upstream num_downstream : Z) (fwd : Mpsc.store A) (rev : Mpsc.store B)
    : ComputeThread * Mpsc.store A * Mpsc.store B :=
  let '(dw, fwd') := new_writer (0 <? num_downstream) fwd in
  let '(uw, rev') := new_writer (0 <? num_upstream) rev in
  (mkcompute new_ThreadBase num_upstream num_downstream None dw None uw, fwd', rev').

(** *** Up threads *)

(** [UpThreadNet]; the poller and the options are made in its
    [ThreadInitHandler] (file NetThreads). *)
Record UpThreadNet := mkupnet {
  n_num_upstream_ : Z;
  support_feedback_ : bool;
  in_callback_ : Callbacks.InCallbackSimple In;
  out_callbacks_ : list Callbacks.OutCallbackSimple;
  listen_addr_ : cstr
}.

(** The two up threads a worker can have; the adapter and the router of a trace
    thread are in the file Trace. *)
Inductive UpThreadKind :=
| UpTrace (queues_ : list (Ring.ZeroRingBuffer (WrapItem In)))
| UpNet (n : UpThreadNet).

Record UpThread := mkup { u_base : ThreadBase; u_kind : UpThreadKind }.

Definition new_UpThreadTrace : UpThread := mkup new_ThreadBase (UpTrace []).

Definition add_callback {T} (num_compute_thread : Z) (s : list Callbacks.OutCallbackSimple * Mpsc.store T)
    : list Callbacks.OutCallbackSimple * Mpsc.store T :=
  let '(cb, h') := new_OutCallbackSimple num_compute_thread s.2 in (s.1 ++ [cb], h').

Definition new_UpThreadNet (num_upstream num_compute_thread : Z) (rev : Mpsc.store B) : UpThread * Mpsc.store B :=
  let '(cbs, rev') := Nat.iter (Z.to_nat num_upstream) (add_callback num_compute_thread) ([], rev) in
  (mkup new_ThreadBase (UpNet (mkupnet num_upstream true (Callbacks.new_InCallbackSimple num_upstream) cbs [])), rev').

Definition AddSource (source : cstr) (u : UpThreadNet) : UpThreadNet :=
  mkupnet (n_num_upstream_ u) (support_feedback_ u) (in_callback_ u) (out_callbacks_ u) source.

(** The virtual functions of [UpThread]. *)
Definition GetNumUpstream (u : UpThread) : Z :=
  match u_kind u with UpTrace _ => 0 | UpNet n => n_num_upstream_ n end.

Definition IsReverse (u : UpThread) : bool :=
  match u_kind u with UpTrace _ => false | UpNet n => support_feedback_ n end.

(** The rings to the compute threads. *)
Definition out_queues (u : UpThread) : list (Ring.ZeroRingBuffer (WrapItem In)) :=
  match u_kind u with UpTrace qs => qs | UpNet n => Callbacks.queues_ (in_callback_ n) end.

Definition AddOutQueue (q : Ring.ZeroRingBuffer (WrapItem In)) (u : UpThread) : UpThread :=
  mkup (u_base u)
    match u_kind u with
    | UpTrace qs => UpTrace (qs ++ [q])
    | UpNet n => UpNet (mkupnet (n_num_upstream_ n) (support_feedback_ n) (Callbacks.AddOutQueue q (in_callback_ n))
                                (out_callbacks_ n) (listen_addr_ n))
    end.

(** The callbacks behind [GetReverseOutBufferReader (i)]; the default of
    [UpThread] exits. *)
Definition reverse_callbacks (u : UpThread) : result (list Callbacks.OutCallbackSimple) :=
  match u_kind u with UpTrace _ => Stop ExitFailure | UpNet n => Ok (out_callbacks_ n) end.

Definition set_reverse_callbacks (cbs : list Callbacks.OutCallbackSimple) (u : UpThread) : UpThread :=
  mkup (u_base u)
    match u_kind u with
    | UpTrace qs => UpTrace qs
    | UpNet n => UpNet (mkupnet (n_num_upstream_ n) (support_feedback_ n) (in_callback_ n) cbs (listen_addr_ n))
    end.

(** *** The down thread *)

(** [d_net] is the part that connects to the destinations. *)
Record DownThreadNet := mkdown {
  d_base : ThreadBase;
  num_compute_thread_ : Z;
  d_support_feedback_ : bool;
  d_in_callback_ : Callbacks.InCallbackSimple RIn;
  d_out_callbacks_ : list Callbacks.OutCallbackSimple;
  d_net : NetThreads.DownThreadNet
}.

Definition new_DownThreadNet (num_compute_thread num_downstream : Z) : DownThreadNet :=
  mkdown new_ThreadBase num_compute_thread true (Callbacks.new_InCallbackSimple (s32 num_downstream)) []
    (NetThreads.mkdown (Z.to_nat (u64 num_downstream)) []).

(** [AddDest]: a string made from a null pointer throws. *)
Definition AddDest (dest : option cstr) (s : DownThreadNet * Mpsc.store A) : result (DownThreadNet * Mpsc.store A) :=
  let '(t, fwd) := s in
  let '(cbs, fwd') := add_callback (s32 (num_compute_thread_ t)) (d_out_callbacks_ t, fwd) in
  match dest with
  | None => Stop UncaughtException
  | Some addr =>
      Ok (mkdown (d_base t) (num_compute_thread_ t) (d_support_feedback_ t) (d_in_callback_ t) cbs
            (NetThreads.AddDest (d_net t) addr), fwd')
  end.

Definition GetDownstream (t : DownThreadNet) : Z := s32 (Z.of_nat (NetThreads.num_downstream_ (d_net t))).

Definition AddReverseInBuffer (q : Ring.ZeroRingBuffer (WrapItem RIn)) (t : DownThreadNet) : DownThreadNet :=
  mkdown (d_base t) (num_compute_thread_ t) (d_support_feedback_ t) (Callbacks.AddOutQueue q (d_in_callback_ t))
    (d_out_callbacks_ t) (d_net t).

Definition set_out_callbacks (cbs : list Callbacks.OutCallbackSimple) (t : DownThreadNet) : DownThreadNet :=
  mkdown (d_base t) (num_compute_thread_ t) (d_support_feedback_ t) (d_in_callback_ t) cbs (d_net t).

(** ** Channels *)

(** The body of the loops of [ConnectUpThread] and [ConnectDownThread]: writer
    and reader [i] become each other's peers.  [w] is the writer of the compute
    thread, which must exist. *)
Definition connect {T} (zero : T) (writer_id : Z)
    (s : option Mpsc.MPSCWriter * list Callbacks.OutCallbackSimple * Mpsc.store T) (i : Z)
    : result (option Mpsc.MPSCWriter * list Callbacks.OutCallbackSimple * Mpsc.store T) :=
  let '(w, cbs, h) := s in
  cb ← at_index cbs i;
  match w with
  | None => Stop AssertFailed
  | Some w =>
      let w1 := Mpsc.SetWriterId w writer_id in
      '(wo, h1) ← Mpsc.ConnectPeer garbage zero h (Mpsc.w_obj w1) (Mpsc.r_obj (Callbacks.reader_ cb));
      let w2 := Mpsc.mkMPSCWriter wo (Mpsc.writer_id w1) (Mpsc.clean_cnt w1) in
      let r1 := Mpsc.SetReaderId (Callbacks.reader_ cb) i in
      '(ro, h2) ← Mpsc.ConnectPeer garbage zero h1 (Mpsc.r_obj r1) (Mpsc.w_obj w2);
      let cb' := Callbacks.mkOutCallback (Mpsc.mkMPSCReader ro (Mpsc.reader_id r1)) (Callbacks.o_num_in_ cb)
                   (Callbacks.o_num_stop_ cb) (Callbacks.o_event_ cb) in
      Ok (Some w2, <[Z.to_nat i := cb']> cbs, h2)
  end.

Definition ConnectUpThread (c : ComputeThread) (s : UpThread * Mpsc.store B)
    : result (ComputeThread * (UpThread * Mpsc.store B)) :=
  let '(up, rev) := s in
  let c1 := set_in_queue (Z.of_nat (length (out_queues up))) c in
  let up1 := AddOutQueue (Ring.new_ZeroRingBuffer garbage zero_in true) up in
  if IsReverse up1 then
    cbs ← reverse_callbacks up1;
    '(w, cbs', rev') ← foldM (connect zero_b (s32 (tid_ (c_base c1)))) (indices (Z.to_nat (GetNumUpstream up1)))
                         (up_writer_ c1, cbs, rev);
    Ok (set_up_writer w c1, (set_reverse_callbacks cbs' up1, rev'))
  else Ok (c1, (up1, rev)).

Definition ConnectDownThread (c : ComputeThread) (s : DownThreadNet * Mpsc.store A)
    : result (ComputeThread * (DownThreadNet * Mpsc.store A)) :=
  let '(down, fwd) := s in
  '(w, cbs', fwd') ← foldM (connect zero_a (s32 (tid_ (c_base c)))) (indices (Z.to_nat (GetDownstream down)))
                       (down_writer_ c, d_out_callbacks_ down, fwd);
  let c1 := set_down_writer w c in
  let down1 := set_out_callbacks cbs' down in
  if d_support_feedback_ down1 then
    Ok (set_r_in_queue (Z.of_nat (length (Callbacks.queues_ (d_in_callback_ down1)))) c1,
        (AddReverseInBuffer (Ring.new_ZeroRingBuffer garbage zero_rin true) down1, fwd'))
  else Ok (c1, (down1, fwd')).

(** [ComputeThread::ThreadInitHandler] up to the application's part: the
    writers hand out their slots. *)
Definition init_writer {T} (slot : Z -> T) (w : option Mpsc.MPSCWriter) (h : Mpsc.store T)
    : result (option Mpsc.MPSCWriter * Mpsc.store T) :=
  match w with
  | None => Ok (None, h)
  | Some w => '(w', h') ← Mpsc.Writer_Init slot h w; Ok (Some w', h')
  end.

Definition ThreadInitHandler (slot_a : Z -> A) (slot_b : Z -> B) (c : ComputeThread) (s : Mpsc.store A * Mpsc.store B)
    : result (ComputeThread * (Mpsc.store A * Mpsc.store B)) :=
  '(dw, fwd) ← init_writer slot_a (down_writer_ c) s.1;
  '(uw, rev) ← init_writer slot_b (up_writer_ c) s.2;
  Ok (set_up_writer uw (set_down_writer dw c), (fwd, rev)).

(** ** The worker *)

(** [main_cpu_] is the core [pin_to_cpu] was last called with in the main
    thread; the stores belong to the channels of all threads. *)
Record Worker := mkworker {
  worker_id_ : Z;
  w_num_compute_thread_ : Z;
  compute_threads_ : list ComputeThread;
  up_thread_ : option UpThread;
  down_thread_ : option DownThreadNet;
  main_cpu_ : option Z;
  fwd_ : Mpsc.store A;
  rev_ : Mpsc.store B
}.

Definition new_Worker (id num_compute_thread : Z) (fwd : Mpsc.store A) (rev : Mpsc.store B) : Worker :=
  mkworker id num_compute_thread [] None None None fwd rev.

Definition set_threads (cts : list ComputeThread) (w : Worker) : Worker :=
  mkworker (worker_id_ w) (w_num_compute_thread_ w) cts (up_thread_ w) (down_thread_ w) (main_cpu_ w) (fwd_ w) (rev_ w).
Definition set_up (u : option UpThread) (w : Worker) : Worker :=
  mkworker (worker_id_ w) (w_num_compute_thread_ w) (compute_threads_ w) u (down_thread_ w) (main_cpu_ w) (fwd_ w) (rev_ w).
Definition set_down (d : option DownThreadNet) (w : Worker) : Worker :=
  mkworker (worker_id_ w) (w_num_compute_thread_ w) (compute_threads_ w) (up_thread_ w) d (main_cpu_ w) (fwd_ w) (rev_ w).
Definition set_cpu (cpu : option Z) (w : Worker) : Worker :=
  mkworker (worker_id_ w) (w_num_compute_thread_ w) (compute_threads_ w) (up_thread_ w) (down_thread_ w) cpu (fwd_ w) (rev_ w).
Definition set_stores (fwd : Mpsc.store A) (rev : Mpsc.store B) (w : Worker) : Worker :=
  mkworker (worker_id_ w) (w_num_compute_thread_ w) (compute_threads_ w) (up_thread_ w) (down_thread_ w) (main_cpu_ w) fwd rev.

Definition AddUpThread (u : UpThread) : Worker -> Worker := set_up (Some u).
Definition AddDownThread (d : DownThreadNet) : Worker -> Worker := set_down (Some d).
Definition AddComputeThread (c : ComputeThread) (w : Worker) : Worker := set_threads (compute_threads_ w ++ [c]) w.

(** [for (i = 0; i < num_compute_thread_; i++)] on [compute_threads_[i]]. *)
Definition for_threads {S} (n : Z) (f : ComputeThread -> S -> result (ComputeThread * S))
    (cts : list ComputeThread) (s : S) : result (list ComputeThread * S) :=
  foldM (fun '(cts, s) i =>
    c ← at_index cts i;
    '(c', s') ← f c s;
    Ok (<[Z.to_nat i := c']> cts, s')) (indices (Z.to_nat n)) (cts, s).

(** The thread ids. *)
Definition assign_ids (w : Worker) : result Worker :=
  let n := w_num_compute_thread_ w in
  match up_thread_ w with
  | None => Stop NullDeref
  | Some up =>
      '(cts, _) ← for_threads n (fun c i => Ok (with_base (fun b => set_wid (worker_id_ w) (set_tid i b)) c, i + 1))
                    (compute_threads_ w) 0;
      Ok (set_down ((fun d => mkdown (set_wid (worker_id_ w) (set_tid (n + 1) (d_base d))) (num_compute_thread_ d)
                              (d_support_feedback_ d) (d_in_callback_ d) (d_out_callbacks_ d) (d_net d)) <$> down_thread_ w)
           (set_up (Some (mkup (set_wid (worker_id_ w) (set_tid n (u_base up))) (u_kind up)))
             (set_threads cts w)))
  end.

(** The pieces between the occurrences of a character. *)
Fixpoint split_on (c : ascii) (s : cstr) : list cstr :=
  match s with
  | [] => [[]]
  | x :: s' =>
      if bool_decide (x = c) then [] :: split_on c s'
      else match split_on c s' with p :: ps => (x :: p) :: ps | [] => [[x]] end
  end.

(** The tokens [strtok] finds. *)
Definition tokens (c : ascii) (s : cstr) : list cstr := filter (fun p => p <> []) (split_on c s).

(** [compute_threads_[index++]->AssignCPU (cpu)] for every number a comma
    follows. *)
Definition cpu_list (field : cstr) : list cstr := removelast (split_on ","%char field).

Definition assign_cpus (field : cstr) (cts : list ComputeThread) : result (list ComputeThread) :=
  '(cts', _) ← for_threads (Z.of_nat (length (cpu_list field)))
                 (fun c ps => match ps with
                              | [] => Stop OutOfBounds
                              | p :: ps' => Ok (with_base (AssignCPU (atoi p)) c, ps')
                              end) cts (cpu_list field);
  Ok cts'.

(** The fields are [worker; compute threads; input; output]; missing ones leave
    their threads alone. *)
Definition pin_main (field : option cstr) (w : Worker) : Worker :=
  match field with Some s => set_cpu (Some (atoi s)) w | None => w end.

Definition pin_computes (field : option cstr) (w : Worker) : result Worker :=
  match field with
  | Some s => cts ← assign_cpus s (compute_threads_ w); Ok (set_threads cts w)
  | None => Ok w
  end.

Definition pin_up (field : option cstr) (w : Worker) : result Worker :=
  match field, up_thread_ w with
  | Some s, Some u => Ok (set_up (Some (mkup (AssignCPU (atoi s) (u_base u)) (u_kind u))) w)
  | Some _, None => Stop NullDeref
  | None, _ => Ok w
  end.

Definition pin_down (field : option cstr) (w : Worker) : result Worker :=
  match field, down_thread_ w with
  | Some s, Some d => Ok (set_down (Some (mkdown (AssignCPU (atoi s) (d_base d)) (num_compute_thread_ d) (d_support_feedback_ d)
                                            (d_in_callback_ d) (d_out_callbacks_ d) (d_net d))) w)
  | Some _, None => Stop NullDeref
  | None, _ => Ok w
  end.

Definition ParseCPUAffinity (str : cstr) (w : Worker) : result Worker :=
  let strings := tokens ";"%char str in
  let w1 := pin_main (strings !! 0%nat) w in
  w2 ← pin_computes (strings !! 1%nat) w1;
  w3 ← pin_up (strings !! 2%nat) w2;
  pin_down (strings !! 3%nat) w3.

(** The channels to the up thread, then those to the down thread. *)
Definition connect_up (w : Worker) : result Worker :=
  match up_thread_ w with
  | None => Stop NullDeref
  | Some up =>
      '(cts, (up', rev')) ← for_threads (w_num_compute_thread_ w) ConnectUpThread (compute_threads_ w) (up, rev_ w);
      Ok (set_stores (fwd_ w) rev' (set_up (Some up') (set_threads cts w)))
  end.

Definition connect_down (w : Worker) : result Worker :=
  match down_thread_ w with
  | None => Ok w
  | Some down =>
      '(cts, (down', fwd')) ← for_threads (w_num_compute_thread_ w) ConnectDownThread (compute_threads_ w) (down, fwd_ w);
      Ok (set_stores fwd' (rev_ w) (set_down (Some down') (set_threads cts w)))
  end.

(** [Start] up to the creation of the threads. *)
Definition setup (cpu_affinity : option cstr) (w : Worker) : result Worker :=
  w1 ← assign_ids w;
  w2 ← match cpu_affinity with Some s => ParseCPUAffinity s w1 | None => Ok w1 end;
  w3 ← connect_up w2;
  connect_down w3.

(** The handlers of the up and the down thread (files Trace and NetThreads) run
    in the middle of the start; here only their outcome matters.  [app_init t]
    is the outcome of [ComputeThreadInit] in thread [t], and [slot_a t], [slot_b t]
    are the slots of thread [t]'s writers. *)
Context (up_init down_init : result unit) (app_init : nat -> result unit).
Context (slot_a : nat -> Z -> A) (slot_b : nat -> Z -> B).

(** [compute_threads_[i]->Create ()] and the thread's initialisation, which is
    over when the worker has received its [ready]. *)
Definition start_compute (c : ComputeThread) (s : nat * (Mpsc.store A * Mpsc.store B))
    : result (ComputeThread * (nat * (Mpsc.store A * Mpsc.store B))) :=
  let '(t, hs) := s in
  b ← Create (c_base c);
  '(c', hs') ← ThreadInitHandler (slot_a t) (slot_b t) (with_base (fun _ => b) c) hs;
  _ ← app_init t;
  Ok (c', (S t, hs')).

Definition create_threads (w : Worker) : result Worker :=
  match up_thread_ w with
  | None => Stop NullDeref
  | Some up =>
      ub ← Create (u_base up);
      _ ← up_init;
      '(cts, (_, (fwd, rev))) ← for_threads (w_num_compute_thread_ w) start_compute (compute_threads_ w) (0%nat, (fwd_ w, rev_ w));
      let w1 := set_stores fwd rev (set_up (Some (mkup ub (u_kind up))) (set_threads cts w)) in
      match down_thread_ w1 with
      | None => Ok w1
      | Some d =>
          db ← Create (d_base d);
          _ ← down_init;
          Ok (set_down (Some (mkdown db (num_compute_thread_ d) (d_support_feedback_ d) (d_in_callback_ d)
                                (d_out_callbacks_ d) (d_net d))) w1)
      end
  end.

(** [Start (recovery)] up to the point where the threads are released; in
    recovery mode the backups are fetched through [backup_client], which is null
    without a backup server (what it fetches is in the file BackupSpec). *)
Definition launch (cpu_affinity : option cstr) (recovery : Z) (backup_client : bool) (w : Worker) : result Worker :=
  w1 ← setup cpu_affinity w;
  w2 ← create_threads w1;
  if (0 <? recovery) && negb backup_client then Stop NullDeref else Ok w2.

(** ** Loops over the threads *)

(** The same loop on the list itself. *)
Fixpoint map_state {S} (f : ComputeThread -> S -> result (ComputeThread * S)) (cts : list ComputeThread) (s : S)
    : result (list ComputeThread * S) :=
  match cts with
  | [] => Ok ([], s)
  | c :: cts' =>
      '(c', s1) ← f c s;
      '(l, s2) ← map_state f cts' s1;
      Ok (c' :: l, s2)
  end.

Lemma loop_from {S} (f : ComputeThread -> S -> result (ComputeThread * S)) m pre rest s :
  let loop := foldM (fun '(cts, s) i =>
      c ← at_index cts i; '(c', s') ← f c s; Ok (<[Z.to_nat i := c']> cts, s'))
      (Z.of_nat <$> seq (length pre) m) (pre ++ rest, s) in
  if decide (m <= length rest)%nat
  then loop = ('(l, s') ← map_state f (take m rest) s; Ok (pre ++ l ++ drop m rest, s'))
  else forall r, loop <> Ok r.
Proof.
  revert pre rest s. induction m as [|m IH]; intros pre rest s loop; unfold loop; clear loop.
  { rewrite decide_True by lia. simpl. by rewrite drop_0. }
  cbn [seq fmap list_fmap foldM]. destruct rest as [|c rest].
  { rewrite decide_False by (simpl; lia). intros r. rewrite app_nil_r. unfold at_index.
    rewrite (proj2 (Z.ltb_ge _ 0)) by lia. rewrite Nat2Z.id, lookup_ge_None_2 by lia. done. }
  rewrite (proj2 (at_index_ok (pre ++ c :: rest) (Z.of_nat (length pre)) c))
    by (split; [lia|by rewrite Nat2Z.id, lookup_app_r, Nat.sub_diag by lia]).
  cbn [mbind result_bind take drop map_state]. destruct (f c s) as [[c' s1]|e]; cbn [mbind result_bind].
  2:{ by destruct (decide _). }
  rewrite Nat2Z.id, insert_app_r_alt, Nat.sub_diag by lia.
  change (<[0%nat:=c']> (c :: rest)) with (c' :: rest).
  specialize (IH (pre ++ [c']) rest s1). cbn zeta in IH. rewrite length_app in IH. cbn [length] in IH.
  rewrite Nat.add_1_r in IH. rewrite <- app_assoc in IH. change ([c'] ++ rest) with (c' :: rest) in IH.
  destruct (decide (m <= length rest)%nat) as [Hm|Hm]; [rewrite decide_True by (simpl; lia)|rewrite decide_False by (simpl; lia); exact IH].
  rewrite IH. destruct (map_state f (take m rest) s1) as [[cts2 s2]|e]; cbn [mbind result_bind]; [|done].
  by rewrite <- app_assoc.
Qed.

Lemma for_threads_ok {S} n (f : ComputeThread -> S -> result (ComputeThread * S)) cts s :
  (Z.to_nat n <= length cts)%nat ->
  for_threads n f cts s =
    ('(l, s') ← map_state f (take (Z.to_nat n) cts) s; Ok (l ++ drop (Z.to_nat n) cts, s')).
Proof. intros H. pose proof (loop_from f (Z.to_nat n) [] cts s) as L. cbn zeta in L. by rewrite decide_True in L. Qed.

Lemma for_threads_short {S} n (f : ComputeThread -> S -> result (ComputeThread * S)) cts s r :
  for_threads n f cts s = Ok r -> (Z.to_nat n <= length cts)%nat.
Proof.
  intros H. destruct (decide (Z.to_nat n <= length cts)%nat) as [|E]; [done|].
  pose proof (loop_from f (Z.to_nat n) [] cts s) as L. cbn zeta in L. rewrite decide_False in L by done. by destruct (L r).
Qed.

(** A loop whose state after the threads [ds] is [st ds] and whose body returns
    exactly on the threads that satisfy [P]. *)
Lemma map_state_exact {S} (f : ComputeThread -> S -> result (ComputeThread * S)) (P : ComputeThread -> Prop)
    (g : list ComputeThread -> ComputeThread -> ComputeThread) (st : list ComputeThread -> S) cts :
  (forall ds c, ds ++ [c] `prefix_of` cts -> Forall P ds ->
     (P c -> f c (st ds) = Ok (g ds c, st (ds ++ [c]))) /\ (forall r, f c (st ds) = Ok r -> P c)) ->
  (Forall P cts -> map_state f cts (st []) = Ok (imap (fun t c => g (take t cts) c) cts, st cts)) /\
  (forall r, map_state f cts (st []) = Ok r -> Forall P cts).
Proof.
  intros Hf.
  enough (G : forall rest ds, ds ++ rest = cts -> Forall P ds ->
    (Forall P rest -> map_state f rest (st ds) = Ok (imap (fun t c => g (take (length ds + t) cts) c) rest, st cts)) /\
    (forall r, map_state f rest (st ds) = Ok r -> Forall P rest)).
  { destruct (G cts [] eq_refl (Forall_nil_2 _)) as [G1 G2]. done. }
  induction rest as [|c rest IH]; intros ds Hd HP.
  { rewrite app_nil_r in Hd. subst ds. by split; [intros _|constructor]. }
  destruct (Hf ds c) as [H1 H2]; [exists rest; by rewrite <- Hd, <- app_assoc|done|].
  cbn [map_state]. split.
  - intros [Pc Pr]%Forall_cons. rewrite (H1 Pc). cbn [mbind result_bind].
    destruct (IH (ds ++ [c])) as [I1 _]; [by rewrite <- app_assoc|by apply Forall_app; split; [|constructor]|].
    rewrite (I1 Pr). cbn [mbind result_bind imap]. f_equal. f_equal. f_equal.
    + rewrite Nat.add_0_r, <- Hd, take_app_length. done.
    + apply imap_ext. intros t x _. rewrite length_app. cbn [length compose]. do 2 f_equal. lia.
  - intros r Hr. destruct (f c (st ds)) as [[c' s1]|] eqn:E; [|done]. cbn [mbind result_bind] in Hr.
    pose proof (H2 _ eq_refl) as Pc. specialize (H1 Pc). injection H1 as -> ->.
    destruct (map_state f rest (st (ds ++ [c]))) as [[l s2]|] eqn:E2; [|done]. constructor; [done|].
    destruct (IH (ds ++ [c])) as [_ I2]; [by rewrite <- app_assoc|by apply Forall_app; split; [|constructor]|]. eauto.
Qed.

(** ** The channels while they are connected *)

(** How often a queue got a new ring. *)
Definition count (p : Z) (log : list Z) : nat := length (filter (eq p) log).

(** A store of [k] queues after the [AddQueue]s of [log]; nothing was sent
    yet. *)
Definition tallied {T} (zero : T) (k : nat) (log : list Z) : Mpsc.store T :=
  (fun p => Mpsc.fresh_queue garbage zero (count (Z.of_nat p) log)) <$> seq 0 k.

Lemma count_app p l1 l2 : count p (l1 ++ l2) = (count p l1 + count p l2)%nat.
Proof. unfold count. by rewrite filter_app, length_app. Qed.

Lemma tallied_lookup {T} (zero : T) k log p :
  (p < k)%nat -> tallied zero k log !! p = Some (Mpsc.fresh_queue garbage zero (count (Z.of_nat p) log)).
Proof. intros. unfold tallied, Mpsc.store. by rewrite list_lookup_fmap, lookup_seq_lt. Qed.

Lemma tallied_add {T} (zero : T) k log p :
  (p < k)%nat ->
  <[p := Mpsc.fresh_queue garbage zero (S (count (Z.of_nat p) log))]> (tallied zero k log) = tallied zero k (log ++ [Z.of_nat p]).
Proof.
  intros Hp. unfold tallied, Mpsc.store. apply list_eq. intros q. rewrite list_lookup_insert, !list_lookup_fmap, length_fmap, length_seq.
  case_decide as E.
  - destruct E as [<- _]. rewrite lookup_seq_lt by done. simpl. rewrite count_app. do 2 f_equal.
    unfold count. rewrite filter_cons_True by done. simpl. lia.
  - destruct (decide (q < k)%nat); [|by rewrite !lookup_seq_ge by lia]. rewrite lookup_seq_lt by done. simpl.
    rewrite count_app. do 2 f_equal. unfold count. rewrite filter_cons_False by (intros ?%Nat2Z.inj; apply E; lia).
    simpl. lia.
Qed.

Lemma ConnectPeer_tallied {T} (zero : T) k log o peer :
  0 <= Mpsc.own o < Z.of_nat k ->
  Mpsc.ConnectPeer garbage zero (tallied zero k log) o peer =
    Ok (Mpsc.mkMPSCObject (Mpsc.own o) (Mpsc.peers o ++ [Mpsc.own peer]), tallied zero k (log ++ [Mpsc.own o])).
Proof.
  intros Ho. unfold Mpsc.ConnectPeer, Mpsc.on_queue.
  rewrite (proj2 (at_index_ok (tallied zero k log) (Mpsc.own o) _)) by (split; [lia|apply tallied_lookup; lia]).
  cbn [mbind result_bind fst snd]. rewrite Mpsc.AddQueue_fresh. do 3 f_equal.
  rewrite <- (Z2Nat.id (Mpsc.own o)) at 2 3 by lia. rewrite <- tallied_add by lia. by rewrite Nat2Z.id.
Qed.

(** The own queues of writers and readers. *)
Definition w_own (w : Mpsc.MPSCWriter) : Z := Mpsc.own (Mpsc.w_obj w).
Definition cb_own (cb : Callbacks.OutCallbackSimple) : Z := Mpsc.own (Mpsc.r_obj (Callbacks.reader_ cb)).

(** A reader that writers with the queues [wowns] were connected to as reader
    [i], and a writer that was connected to readers with the queues [rowns] as
    writer [id]. *)
Definition link_reader (wowns : list Z) (i : nat) (cb : Callbacks.OutCallbackSimple) : Callbacks.OutCallbackSimple :=
  match wowns with
  | [] => cb
  | _ => Callbacks.mkOutCallback
           (Mpsc.mkMPSCReader (Mpsc.mkMPSCObject (cb_own cb) (Mpsc.peers (Mpsc.r_obj (Callbacks.reader_ cb)) ++ wowns)) (Z.of_nat i))
           (Callbacks.o_num_in_ cb) (Callbacks.o_num_stop_ cb) (Callbacks.o_event_ cb)
  end.

Definition link_writer (id : Z) (rowns : list Z) (w : Mpsc.MPSCWriter) : Mpsc.MPSCWriter :=
  match rowns with
  | [] => w
  | _ => Mpsc.mkMPSCWriter (Mpsc.mkMPSCObject (w_own w) (Mpsc.peers (Mpsc.w_obj w) ++ rowns)) id (Mpsc.clean_cnt w)
  end.

Definition linked (d : nat) (wowns : list Z) (cbs : list Callbacks.OutCallbackSimple) : list Callbacks.OutCallbackSimple :=
  imap (link_reader wowns) (take d cbs) ++ drop d cbs.

Lemma link_reader_own wowns i cb : cb_own (link_reader wowns i cb) = cb_own cb.
Proof. by destruct wowns. Qed.

Lemma link_reader_app l1 l2 i cb : link_reader l2 i (link_reader l1 i cb) = link_reader (l1 ++ l2) i cb.
Proof.
  destruct l1 as [|x l1]; [done|]. destruct l2 as [|y l2]; simpl; [by rewrite app_nil_r|].
  unfold cb_own. simpl. by rewrite <- app_assoc.
Qed.

Lemma linked_nil d cbs : linked d [] cbs = cbs.
Proof.
  unfold linked. rewrite <- (take_drop d cbs) at 3. f_equal. apply list_eq. intros i. rewrite list_lookup_imap.
  by destruct (take d cbs !! i).
Qed.

Lemma linked_zero wowns cbs : linked 0 wowns cbs = cbs.
Proof. done. Qed.

Lemma linked_lookup d wowns cbs i :
  linked d wowns cbs !! i = (if decide (i < d)%nat then link_reader wowns i else id) <$> cbs !! i.
Proof.
  unfold linked. destruct (decide (i < d)%nat) as [Hi|Hi].
  - destruct (cbs !! i) as [cb|] eqn:E.
    + rewrite lookup_app_l by (rewrite length_imap, length_take; apply lookup_lt_Some in E; lia).
      by rewrite list_lookup_imap, lookup_take_lt, E by done.
    + apply lookup_ge_None in E. rewrite lookup_app_r by (rewrite length_imap, length_take; lia).
      rewrite drop_ge by lia. done.
  - destruct (decide (d <= length cbs)%nat).
    + rewrite lookup_app_r by (rewrite length_imap, length_take; lia). rewrite length_imap, length_take, lookup_drop.
      replace (d + (i - d `min` length cbs))%nat with i by lia. by destruct (cbs !! i).
    + rewrite (lookup_ge_None_2 cbs) by lia. rewrite lookup_ge_None_2; [done|].
      rewrite length_app, length_imap, length_take, length_drop. lia.
Qed.

Lemma length_linked d wowns cbs : length (linked d wowns cbs) = length cbs.
Proof. unfold linked. rewrite length_app, length_imap, <- length_app, take_drop. done. Qed.

Lemma linked_app d l1 l2 cbs : linked d l2 (linked d l1 cbs) = linked d (l1 ++ l2) cbs.
Proof.
  apply list_eq. intros i. rewrite !linked_lookup. destruct (cbs !! i) as [cb|]; [|by destruct (decide _)].
  destruct (decide _); simpl; [|done]. by rewrite link_reader_app.
Qed.

Lemma linked_owns d wowns cbs : cb_own <$> linked d wowns cbs = cb_own <$> cbs.
Proof.
  apply list_eq. intros i. rewrite !list_lookup_fmap, linked_lookup. destruct (cbs !! i); [|by destruct (decide _)].
  destruct (decide _); simpl; [by rewrite link_reader_own|done].
Qed.

(** The rings that are added for one writer. *)
Definition mesh_row (rowns : list Z) (wown : Z) : list Z := rowns ≫= fun r => [wown; r].

Lemma connect_one {T} (zero : T) k log id w cbs i cb :
  0 <= w_own w < Z.of_nat k -> 0 <= cb_own cb < Z.of_nat k -> cbs !! i = Some cb ->
  connect zero id (Some w, cbs, tallied zero k log) (Z.of_nat i) =
    Ok (Some (link_writer id [cb_own cb] w), <[i := link_reader [w_own w] i cb]> cbs, tallied zero k (log ++ [w_own w; cb_own cb])).
Proof.
  intros Hw Hc Hi. unfold connect.
  rewrite (proj2 (at_index_ok cbs (Z.of_nat i) cb)) by (split; [lia|by rewrite Nat2Z.id]). cbn [mbind result_bind].
  rewrite ConnectPeer_tallied by done. cbn [mbind result_bind].
  rewrite ConnectPeer_tallied by done. cbn [mbind result_bind]. rewrite Nat2Z.id, <- app_assoc. done.
Qed.

Lemma link_writer_app id l1 l2 w : link_writer id l2 (link_writer id l1 w) = link_writer id (l1 ++ l2) w.
Proof.
  destruct l1 as [|x l1]; [done|]. destruct l2 as [|y l2]; simpl; [by rewrite app_nil_r|].
  unfold w_own. simpl. by rewrite <- app_assoc.
Qed.

Lemma link_writer_own id l w : w_own (link_writer id l w) = w_own w.
Proof. by destruct l. Qed.

Lemma indices_S n : indices (S n) = indices n ++ [Z.of_nat n].
Proof. unfold indices. by rewrite seq_S, fmap_app. Qed.

Definition in_store (k : nat) (p : Z) : Prop := 0 <= p < Z.of_nat k.

(** One writer and all the readers. *)
Lemma connect_readers {T} (zero : T) k log id w cbs d :
  in_store k (w_own w) -> Forall (in_store k) (cb_own <$> cbs) -> (d <= length cbs)%nat ->
  foldM (connect zero id) (indices d) (Some w, cbs, tallied zero k log) =
    Ok (Some (link_writer id (take d (cb_own <$> cbs)) w), linked d [w_own w] cbs,
        tallied zero k (log ++ mesh_row (take d (cb_own <$> cbs)) (w_own w))).
Proof.
  intros Hw Hcbs. induction d as [|d IH]; intros Hd.
  { simpl. rewrite linked_zero. by rewrite app_nil_r. }
  rewrite indices_S, foldM_app, IH by lia. cbn [mbind result_bind foldM].
  destruct (lookup_lt_is_Some_2 cbs d) as [cb Hcb]; [lia|].
  assert (Hl : linked d [w_own w] cbs !! d = Some cb) by (rewrite linked_lookup, decide_False, Hcb by lia; done).
  rewrite (connect_one zero k _ id _ _ d cb); [|by rewrite link_writer_own|apply (Forall_lookup_1 _ _ d _ Hcbs); by rewrite list_lookup_fmap, Hcb|done].
  rewrite link_writer_own, link_writer_app.
  rewrite (take_S_r _ d (cb_own cb)) by (by rewrite list_lookup_fmap, Hcb).
  assert (Hins : <[d := link_reader [w_own w] d cb]> (linked d [w_own w] cbs) = linked (S d) [w_own w] cbs).
  { apply list_eq. intros i. rewrite list_lookup_insert, length_linked, !linked_lookup. case_decide as E.
    - destruct E as [<- _]. rewrite decide_True, Hcb by lia. done.
    - destruct (decide (i < d)%nat); [by rewrite decide_True by lia|].
      rewrite decide_False by (intros ?; apply E; lia). done. }
  rewrite Hins, <- app_assoc. cbn [mbind result_bind]. unfold mesh_row. by rewrite bind_app.
Qed.

(** When the loop over [d] readers returns. *)
Definition connectable (d : nat) (cbs : list Callbacks.OutCallbackSimple) (w : option Mpsc.MPSCWriter) : Prop :=
  d = 0%nat \/ (is_Some w /\ (d <= length cbs)%nat).

Lemma connect_loop {T} (zero : T) k log id w cbs d :
  (forall x, w = Some x -> in_store k (w_own x)) -> Forall (in_store k) (cb_own <$> cbs) -> connectable d cbs w ->
  foldM (connect zero id) (indices d) (w, cbs, tallied zero k log) =
    Ok (link_writer id (take d (cb_own <$> cbs)) <$> w, linked d (option_list (w_own <$> w)) cbs,
        tallied zero k (log ++ (option_list (w_own <$> w) ≫= mesh_row (take d (cb_own <$> cbs))))).
Proof.
  intros Hw Hcbs [->|[[x ->] Hd]].
  - simpl. rewrite linked_zero. destruct w; simpl; by rewrite app_nil_r.
  - rewrite (connect_readers zero k log id x cbs d (Hw x eq_refl) Hcbs Hd).
    simpl. by rewrite app_nil_r.
Qed.

Lemma connect_loop_inv {T} (zero : T) k log id w cbs d r :
  (forall x, w = Some x -> in_store k (w_own x)) -> Forall (in_store k) (cb_own <$> cbs) ->
  foldM (connect zero id) (indices d) (w, cbs, tallied zero k log) = Ok r -> connectable d cbs w.
Proof.
  intros Hw Hcbs Hr. destruct d as [|d]; [by left|]. right. destruct w as [x|].
  - split; [by eexists|]. destruct (decide (S d <= length cbs)%nat) as [|Hlen]; [done|]. exfalso.
    assert (Hsplit : indices (S d) = indices (length cbs) ++ Z.of_nat (length cbs) :: (Z.of_nat <$> seq (S (length cbs)) (d - length cbs))).
    { unfold indices. replace (S d) with (length cbs + S (d - length cbs))%nat by lia. by rewrite seq_app, fmap_app. }
    rewrite Hsplit, foldM_app, (connect_readers zero k log id x cbs _ (Hw x eq_refl) Hcbs (Nat.le_refl _)) in Hr.
    cbn [mbind result_bind foldM] in Hr. unfold connect, at_index in Hr. rewrite (proj2 (Z.ltb_ge _ 0)) in Hr by lia.
    rewrite Nat2Z.id, lookup_ge_None_2 in Hr by (rewrite length_linked; lia). done.
  - exfalso. unfold indices in Hr. cbn [seq fmap list_fmap foldM] in Hr.
    assert (E : forall s', connect zero id (None, cbs, tallied zero k log) (Z.of_nat 0) <> Ok s')
      by (intros s'; unfold connect; by destruct (at_index cbs _)).
    destruct (connect zero id (None, cbs, tallied zero k log) (Z.of_nat 0)) as [s'|]; [by destruct (E s')|done].
Qed.

(** *** All compute threads and the up thread *)

(** The queues of the writers of some threads, and all rings that are added
    when they are connected to readers with the queues [rowns]. *)
Definition owns (f : ComputeThread -> option Mpsc.MPSCWriter) (cts : list ComputeThread) : list Z :=
  omap (fun c => w_own <$> f c) cts.

Definition mesh (rowns wowns : list Z) : list Z := wowns ≫= mesh_row rowns.

Lemma owns_app f l1 l2 : owns f (l1 ++ l2) = owns f l1 ++ owns f l2.
Proof. apply omap_app. Qed.

Lemma owns_one f c : owns f [c] = option_list (w_own <$> f c).
Proof. unfold owns. simpl. by destruct (f c). Qed.

Lemma owns_cons f c l : owns f (c :: l) = option_list (w_own <$> f c) ++ owns f l.
Proof. rewrite <- owns_one. apply (owns_app f [c] l). Qed.

Lemma owns_ext f l1 l2 : f <$> l1 = f <$> l2 -> owns f l1 = owns f l2.
Proof.
  revert l2. induction l1 as [|c1 l1 IH]; intros [|c2 l2] H; try done. injection H as Hc H.
  rewrite !owns_cons. by rewrite Hc, (IH _ H).
Qed.

Lemma mesh_app rowns l1 l2 : mesh rowns (l1 ++ l2) = mesh rowns l1 ++ mesh rowns l2.
Proof. apply bind_app. Qed.

Lemma mesh_nil wowns : mesh [] wowns = [].
Proof. by induction wowns. Qed.

(** The callbacks of the up thread, and how many of them the loop of
    [ConnectUpThread] visits. *)
Definition up_cbs (u : UpThread) : list Callbacks.OutCallbackSimple :=
  match u_kind u with UpTrace _ => [] | UpNet n => out_callbacks_ n end.
Definition up_fan (u : UpThread) : nat := if IsReverse u then Z.to_nat (GetNumUpstream u) else 0.

Definition in_ring : Ring.ZeroRingBuffer (WrapItem In) := Ring.new_ZeroRingBuffer garbage zero_in true.
Definition r_in_ring : Ring.ZeroRingBuffer (WrapItem RIn) := Ring.new_ZeroRingBuffer garbage zero_rin true.

(** A callback with [m] more queues. *)
Definition more_queues {X} (m : nat) (q : Ring.ZeroRingBuffer (WrapItem X)) (cb : Callbacks.InCallbackSimple X)
    : Callbacks.InCallbackSimple X :=
  Callbacks.mkInCallback (Callbacks.queues_ cb ++ replicate m q) (Callbacks.stopped_ cb ++ replicate m false)
    (Callbacks.num_in_ cb) (Callbacks.num_stop_ cb) (Callbacks.event_ cb).

(** The up thread after [m] compute threads were connected to it. *)
Definition up_with (u : UpThread) (m : nat) (cbs : list Callbacks.OutCallbackSimple) : UpThread :=
  mkup (u_base u)
    match u_kind u with
    | UpTrace qs => UpTrace (qs ++ replicate m in_ring)
    | UpNet n => UpNet (mkupnet (n_num_upstream_ n) (support_feedback_ n) (more_queues m in_ring (in_callback_ n)) cbs (listen_addr_ n))
    end.

Definition up_after (u : UpThread) (ds : list ComputeThread) : UpThread :=
  up_with u (length ds) (linked (up_fan u) (owns up_writer_ ds) (up_cbs u)).

(** What [ConnectUpThread] makes of thread number [m]. *)
Definition up_linked (u : UpThread) (m : nat) (c : ComputeThread) : ComputeThread :=
  set_up_writer (link_writer (s32 (tid_ (c_base c))) (take (up_fan u) (cb_own <$> up_cbs u)) <$> up_writer_ c)
    (set_in_queue (Z.of_nat (length (out_queues u) + m)) c).

Lemma replicate_snoc {X} n (x : X) l : (l ++ replicate n x) ++ [x] = l ++ replicate (S n) x.
Proof. rewrite <- app_assoc. by rewrite <- replicate_cons_app. Qed.

Lemma more_queues_S {X} m (q : Ring.ZeroRingBuffer (WrapItem X)) cb :
  Callbacks.AddOutQueue q (more_queues m q cb) = more_queues (S m) q cb.
Proof. unfold Callbacks.AddOutQueue, more_queues. simpl Callbacks.queues_. simpl Callbacks.stopped_. by rewrite !replicate_snoc. Qed.

Lemma up_with_add u m cbs : AddOutQueue in_ring (up_with u m cbs) = up_with u (S m) cbs.
Proof.
  unfold AddOutQueue, up_with. cbn [u_base u_kind]. destruct (u_kind u); cbn [n_num_upstream_ support_feedback_ in_callback_ out_callbacks_ listen_addr_].
  - by rewrite replicate_snoc.
  - by rewrite more_queues_S.
Qed.

Lemma up_with_parts u m cbs :
  GetNumUpstream (up_with u m cbs) = GetNumUpstream u /\ IsReverse (up_with u m cbs) = IsReverse u /\
  length (out_queues (up_with u m cbs)) = (length (out_queues u) + m)%nat /\
  (IsReverse u = true -> reverse_callbacks (up_with u m cbs) = Ok cbs).
Proof.
  unfold GetNumUpstream, IsReverse, out_queues, reverse_callbacks, up_with. cbn [u_kind]. destruct (u_kind u); simpl;
    rewrite length_app, length_replicate; by split_and!.
Qed.

Lemma up_with_set u m cbs cbs' : set_reverse_callbacks cbs' (up_with u m cbs) = up_with u m cbs'.
Proof. unfold set_reverse_callbacks, up_with. cbn [u_base u_kind]. by destruct (u_kind u). Qed.

Lemma connectable_linked d l cbs w : connectable d (linked d l cbs) w <-> connectable d cbs w.
Proof. unfold connectable. by rewrite length_linked. Qed.

Lemma fmap_link_nil id (w : option Mpsc.MPSCWriter) : link_writer id [] <$> w = w.
Proof. by destruct w. Qed.

Lemma set_up_writer_same c : set_up_writer (up_writer_ c) c = c.
Proof. by destruct c. Qed.

Lemma ConnectUp_step k u ds c :
  let rs := take (up_fan u) (cb_own <$> up_cbs u) in
  let st ds := (up_after u ds, tallied zero_b k (mesh rs (owns up_writer_ ds))) in
  (forall x, up_writer_ c = Some x -> in_store k (w_own x)) -> Forall (in_store k) (cb_own <$> up_cbs u) ->
  (connectable (up_fan u) (up_cbs u) (up_writer_ c) -> ConnectUpThread c (st ds) = Ok (up_linked u (length ds) c, st (ds ++ [c]))) /\
  (forall r, ConnectUpThread c (st ds) = Ok r -> connectable (up_fan u) (up_cbs u) (up_writer_ c)).
Proof.
  intros rs st Hw Hcbs. unfold st, ConnectUpThread, up_after. fold in_ring. rewrite up_with_add.
  destruct (up_with_parts u (S (length ds)) (linked (up_fan u) (owns up_writer_ ds) (up_cbs u))) as (E1 & E2 & _ & E4).
  destruct (up_with_parts u (length ds) (linked (up_fan u) (owns up_writer_ ds) (up_cbs u))) as (_ & _ & E3 & _).
  rewrite E2, E3, length_app, Nat.add_1_r. destruct (IsReverse u) eqn:Hrev.
  - rewrite (E4 eq_refl), E1. cbn [mbind result_bind].
    assert (Hfan : Z.to_nat (GetNumUpstream u) = up_fan u) by (unfold up_fan; by rewrite Hrev). rewrite Hfan.
    assert (Hcbs' : Forall (in_store k) (cb_own <$> linked (up_fan u) (owns up_writer_ ds) (up_cbs u))) by (by rewrite linked_owns).
    rewrite owns_app, owns_one, mesh_app, <- linked_app. split.
    + intros Hc. rewrite connect_loop by (try done; by apply connectable_linked). cbn [mbind result_bind].
      rewrite up_with_set, linked_owns. done.
    + intros r Hr. destruct (foldM _ _ _) as [[[w' cbs'] rev']|] eqn:Hf in Hr; [|done].
      apply connect_loop_inv in Hf; [|done|done]. by apply connectable_linked in Hf.
  - split; [|by intros r _; left; unfold up_fan; rewrite Hrev]. intros _. unfold up_linked, rs.
    assert (Hfan : up_fan u = 0%nat) by (unfold up_fan; by rewrite Hrev). rewrite Hfan, !linked_zero.
    rewrite !take_0, fmap_link_nil, !mesh_nil. by destruct c.
Qed.

(** *** All compute threads and the down thread *)

Definition down_fan (d : DownThreadNet) : nat := Z.to_nat (GetDownstream d).

Definition down_with (d : DownThreadNet) (m : nat) (cbs : list Callbacks.OutCallbackSimple) : DownThreadNet :=
  mkdown (d_base d) (num_compute_thread_ d) (d_support_feedback_ d) (more_queues m r_in_ring (d_in_callback_ d)) cbs (d_net d).

Definition down_after (d : DownThreadNet) (ds : list ComputeThread) : DownThreadNet :=
  down_with d (length ds) (linked (down_fan d) (owns down_writer_ ds) (d_out_callbacks_ d)).

(** What [ConnectDownThread] makes of thread number [m]. *)
Definition down_linked (d : DownThreadNet) (m : nat) (c : ComputeThread) : ComputeThread :=
  set_r_in_queue (Z.of_nat (length (Callbacks.queues_ (d_in_callback_ d)) + m))
    (set_down_writer (link_writer (s32 (tid_ (c_base c))) (take (down_fan d) (cb_own <$> d_out_callbacks_ d)) <$> down_writer_ c) c).

Lemma ConnectDown_step k d ds c :
  let rs := take (down_fan d) (cb_own <$> d_out_callbacks_ d) in
  let st ds := (down_after d ds, tallied zero_a k (mesh rs (owns down_writer_ ds))) in
  d_support_feedback_ d = true ->
  (forall x, down_writer_ c = Some x -> in_store k (w_own x)) -> Forall (in_store k) (cb_own <$> d_out_callbacks_ d) ->
  (connectable (down_fan d) (d_out_callbacks_ d) (down_writer_ c) ->
     ConnectDownThread c (st ds) = Ok (down_linked d (length ds) c, st (ds ++ [c]))) /\
  (forall r, ConnectDownThread c (st ds) = Ok r -> connectable (down_fan d) (d_out_callbacks_ d) (down_writer_ c)).
Proof.
  intros rs st Hsf Hw Hcbs. unfold st, ConnectDownThread, down_after. cbn [d_out_callbacks_ down_with].
  change (GetDownstream _) with (GetDownstream d). fold (down_fan d).
  assert (Hcbs' : Forall (in_store k) (cb_own <$> linked (down_fan d) (owns down_writer_ ds) (d_out_callbacks_ d)))
    by (by rewrite linked_owns).
  rewrite owns_app, owns_one, mesh_app, <- linked_app. split.
  - intros Hc. rewrite connect_loop by (try done; by apply connectable_linked). cbn [mbind result_bind].
    rewrite linked_owns. unfold down_with. cbn [set_out_callbacks d_support_feedback_]. rewrite Hsf.
    unfold AddReverseInBuffer. cbn [set_out_callbacks d_base num_compute_thread_ d_support_feedback_ d_in_callback_ d_out_callbacks_ d_net].
    fold r_in_ring. rewrite more_queues_S. unfold down_linked, more_queues. cbn [Callbacks.queues_].
    rewrite !length_app, length_replicate. cbn [length]. by rewrite Nat.add_1_r.
  - intros r Hr. destruct (foldM _ _ _) as [[[w' cbs'] rev']|] eqn:Hf in Hr; [|done].
    apply connect_loop_inv in Hf; [|done|done]. by apply connectable_linked in Hf.
Qed.

(** *** Initialising the writers *)

Lemma map_state_each {S} (f : ComputeThread -> S -> result (ComputeThread * S)) cts s r :
  map_state f cts s = Ok r -> Forall (fun c => exists s r, f c s = Ok r) cts.
Proof.
  revert s r. induction cts as [|c cts IH]; intros s r Hr; [constructor|]. cbn [map_state] in Hr.
  destruct (f c s) as [[c' s1]|] eqn:E; [|done]. cbn [mbind result_bind] in Hr.
  destruct (map_state f cts s1) as [[l' s2]|] eqn:E2; [|done]. constructor; [by eauto|]. by eapply IH.
Qed.

Lemma map_state_inv {S} (I : list ComputeThread -> S -> Prop) (f : ComputeThread -> S -> result (ComputeThread * S)) g cts s :
  I [] s ->
  (forall ds c s, I ds s -> ds ++ [c] `prefix_of` cts -> exists s', f c s = Ok (g c, s') /\ I (ds ++ [c]) s') ->
  exists s', map_state f cts s = Ok (g <$> cts, s') /\ I cts s'.
Proof.
  intros H0 Hstep.
  enough (G : forall rest ds s, ds ++ rest = cts -> I ds s -> exists s', map_state f rest s = Ok (g <$> rest, s') /\ I cts s')
    by (by apply (G cts [])).
  induction rest as [|c rest IH]; intros ds s1 Hd HI.
  { rewrite app_nil_r in Hd. subst. by exists s1. }
  destruct (Hstep ds c s1 HI) as (s2 & Hf & HI'); [exists rest; by rewrite <- Hd, <- app_assoc|].
  destruct (IH (ds ++ [c]) s2) as (s' & Hm & HI''); [by rewrite <- app_assoc|done|].
  exists s'. cbn [map_state]. rewrite Hf. cbn [mbind result_bind]. rewrite Hm. done.
Qed.

(** The slots of the writers of some threads. *)
Definition all_slots {T} (slot : nat -> Z -> T) (f : ComputeThread -> option Mpsc.MPSCWriter) (cts : list ComputeThread) : list T :=
  concat (imap (fun t c => match f c with Some _ => slot t <$> seqZ 0 (Ring.RB_SIZE - 1) | None => [] end) cts).

Lemma all_slots_snoc {T} (slot : nat -> Z -> T) f ds c :
  all_slots slot f (ds ++ [c]) =
    all_slots slot f ds ++ match f c with Some _ => slot (length ds) <$> seqZ 0 (Ring.RB_SIZE - 1) | None => [] end.
Proof.
  unfold all_slots. rewrite imap_app, concat_app. cbn [imap concat compose]. by rewrite app_nil_r, Nat.add_0_r.
Qed.

(** A store in which the writers of the threads [ds] have put their slots and
    the other queues are as they were connected. *)
Definition filled {T} (zero : T) k log (slot : nat -> Z -> T) (f : ComputeThread -> option Mpsc.MPSCWriter)
    (ds : list ComputeThread) (h : Mpsc.store T) : Prop :=
  length h = k /\
  (forall p, (p < k)%nat -> exists lq, h !! p = Some lq /\ length (Mpsc.q_ lq) = count (Z.of_nat p) log) /\
  exists qss, Forall2 Mpsc.holds h qss /\ Mpsc.all_items qss ≡ₚ all_slots slot f ds /\
    forall p, (p < k)%nat -> Z.of_nat p ∉ owns f ds ->
      h !! p = tallied zero k log !! p /\ qss !! p = Some (replicate (count (Z.of_nat p) log) ([], 0)).

Lemma items_empty {T} m : Mpsc.items (replicate m ([] : list T, 0)) = [].
Proof. induction m as [|m IH]; [done|]. unfold Mpsc.items in *. simpl. exact IH. Qed.

Lemma filled_nil {T} (zero : T) k log slot f : filled zero k log slot f [] (tallied zero k log).
Proof.
  split; [by unfold tallied; rewrite length_fmap, length_seq|]. split.
  { intros p Hp. rewrite tallied_lookup by done. eexists. split; [done|]. simpl. by rewrite length_replicate. }
  exists ((fun p => replicate (count (Z.of_nat p) log) ([], 0)) <$> seq 0 k). split_and!.
  - unfold tallied. apply Forall2_fmap, Forall_Forall2_diag, Forall_true. intros p. apply Mpsc.fresh_queue_holds.
  - unfold all_slots, Mpsc.all_items. rewrite <- list_fmap_compose. simpl. induction (seq 0 k) as [|p l IH]; [done|].
    cbn [fmap list_fmap concat]. unfold compose at 1. by rewrite items_empty.
  - intros p Hp _. split; [done|]. by rewrite list_lookup_fmap, lookup_seq_lt.
Qed.

Lemma init_writer_filled {T} (zero : T) k log slot f ds c h :
  filled zero k log slot f ds h ->
  (forall w, f c = Some w -> in_store k (w_own w) /\ (w_own w ∉ owns f ds) /\ Mpsc.writer_id w <> -1 /\ (0 < count (w_own w) log)%nat) ->
  exists h', init_writer (slot (length ds)) (f c) h =
      Ok ((fun w => Mpsc.mkMPSCWriter (Mpsc.w_obj w) (Mpsc.writer_id w) (Mpsc.clean_cnt w + 1)) <$> f c, h') /\
    filled zero k log slot f (ds ++ [c]) h'.
Proof.
  intros (Hlen & Hrings & qss & HF & Hitems & Hother) Hw. destruct (f c) as [w|] eqn:Hf; cbn [init_writer].
  2:{ exists h. split; [done|]. split; [done|]. split; [done|]. exists qss. split_and!; [done| |].
      - by rewrite all_slots_snoc, Hf, app_nil_r.
      - intros p Hp Hn. apply Hother; [done|]. by rewrite owns_app, owns_one, Hf, app_nil_r in Hn. }
  destruct (Hw w eq_refl) as (Hk & Hnew & Hid & Hcnt). unfold in_store in Hk.
  destruct (Hother (Z.to_nat (w_own w)) ltac:(lia) ltac:(by rewrite Z2Nat.id by lia)) as [Hq Hqs].
  rewrite tallied_lookup, Z2Nat.id in Hq by lia. rewrite Z2Nat.id in Hqs by lia.
  destruct (count (w_own w) log) as [|m] eqn:Hm; [lia|].
  destruct (Mpsc.Writer_Init_fills (slot (length ds)) garbage zero h w m Hid Hq ltac:(unfold w_own in Hk; lia)) as (lq' & p & Hrun & Hh & _).
  rewrite Hrun. cbn [mbind result_bind]. eexists. split; [done|]. unfold Mpsc.store in *. split; [by rewrite length_insert|]. split.
  { intros q Hqk. destruct (decide (q = Z.to_nat (w_own w))) as [->|Hne].
    - exists lq'. unfold w_own in *. rewrite (list_lookup_insert_eq h) by lia. split; [done|].
      pose proof (Mpsc.holds_length _ _ Hh) as E1. destruct Hh as [E2 _]. rewrite Z2Nat.id, Hm by lia.
      cbn [length] in E1. rewrite length_replicate in E1. lia.
    - unfold w_own in *. rewrite (list_lookup_insert_ne h) by done. by apply Hrings. }
  exists (<[Z.to_nat (w_own w) := (slot (length ds) <$> seqZ 0 (Ring.RB_SIZE - 1), p) :: replicate m ([], 0)]> qss). split_and!.
  - by apply Forall2_insert.
  - destruct (Mpsc.all_items_insert qss _ _ ((slot (length ds) <$> seqZ 0 (Ring.RB_SIZE - 1), p) :: replicate m ([], 0)) Hqs)
      as (rest & H1 & H2). rewrite H2, all_slots_snoc, Hf, <- Hitems, H1, items_empty.
    change (Mpsc.items (?q :: replicate m ([], 0))) with (q.1 ++ Mpsc.items (replicate m ([] : list T, 0))).
    rewrite items_empty, app_nil_r. apply Permutation_app_comm.
  - intros q Hqk Hn. rewrite owns_app, owns_one, Hf, not_elem_of_app in Hn. destruct Hn as [Hn1 Hn2].
    assert (q <> Z.to_nat (w_own w)) by (intros ->; apply Hn2; simpl; apply list_elem_of_singleton; lia).
    unfold w_own in *. rewrite (list_lookup_insert_ne h), (list_lookup_insert_ne qss) by done. by apply Hother.
Qed.

(** ** Ids and CPU affinity *)

(** A worker whose threads have other ids and cores and which is the same
    otherwise. *)
Definition rebase (bs : nat -> ThreadBase) (ub db : ThreadBase) (cpu : option Z) (w : Worker) : Worker :=
  mkworker (worker_id_ w) (w_num_compute_thread_ w) (imap (fun t c => with_base (fun _ => bs t) c) (compute_threads_ w))
    ((fun u => mkup ub (u_kind u)) <$> up_thread_ w)
    ((fun d => mkdown db (num_compute_thread_ d) (d_support_feedback_ d) (d_in_callback_ d) (d_out_callbacks_ d) (d_net d)) <$> down_thread_ w)
    cpu (fwd_ w) (rev_ w).

Definition base_at (cts : list ComputeThread) (t : nat) : ThreadBase :=
  match cts !! t with Some c => c_base c | None => new_ThreadBase end.

(** A list that differs from another in the bases only. *)
Lemma rebase_threads cts cts' :
  length cts' = length cts ->
  (forall t c, cts !! t = Some c -> exists b, cts' !! t = Some (with_base (fun _ => b) c)) ->
  cts' = imap (fun t c => with_base (fun _ => base_at cts' t) c) cts.
Proof.
  intros Hlen Hall. apply list_eq. intros t. rewrite list_lookup_imap. destruct (cts !! t) as [c|] eqn:Hc; simpl.
  - destruct (Hall t c Hc) as [b Hb]. unfold base_at. by rewrite Hb.
  - apply lookup_ge_None_2. apply lookup_ge_None in Hc. lia.
Qed.

(** The threads the loops visit. *)
Abbreviation started w := (take (Z.to_nat (w_num_compute_thread_ w)) (compute_threads_ w)).

Lemma imap_lookup_split {X Y} (f : nat -> X -> Y) (g : X -> Y) n (l : list X) t x :
  l !! t = Some x ->
  (imap f (take n l) ++ (g <$> drop n l)) !! t = Some (if decide (t < n)%nat then f t x else g x).
Proof.
  intros Hx. pose proof (lookup_lt_Some _ _ _ Hx). destruct (decide (t < n)%nat).
  - rewrite lookup_app_l by (rewrite length_imap, length_take; lia). by rewrite list_lookup_imap, lookup_take_lt, Hx.
  - rewrite lookup_app_r by (rewrite length_imap, length_take; lia). rewrite length_imap, length_take, list_lookup_fmap, lookup_drop.
    replace (n + (t - n `min` length l))%nat with t by lia. by rewrite Hx.
Qed.

Lemma split_lookup {X} (f : nat -> X -> X) n (l : list X) t x :
  l !! t = Some x -> (imap f (take n l) ++ drop n l) !! t = Some (if decide (t < n)%nat then f t x else x).
Proof. intros Hx. rewrite <- (list_fmap_id (drop n l)). by apply (imap_lookup_split f id). Qed.

(** The ids each thread gets. *)
Definition has_ids (w : Worker) (bs : nat -> ThreadBase) (ub db : ThreadBase) : Prop :=
  (forall t, (t < length (started w))%nat -> wid_ (bs t) = worker_id_ w /\ tid_ (bs t) = Z.of_nat t) /\
  wid_ ub = worker_id_ w /\ tid_ ub = w_num_compute_thread_ w /\
  wid_ db = worker_id_ w /\ tid_ db = w_num_compute_thread_ w + 1.

Lemma assign_ids_spec w u :
  up_thread_ w = Some u -> (Z.to_nat (w_num_compute_thread_ w) <= length (compute_threads_ w))%nat ->
  exists bs ub db, assign_ids w = Ok (rebase bs ub db (main_cpu_ w) w) /\ has_ids w bs ub db.
Proof.
  intros Hu Hn. unfold assign_ids. rewrite Hu, for_threads_ok by done.
  set (f := fun c i => _). set (g := fun (ds : list ComputeThread) c => with_base (fun b => set_wid (worker_id_ w) (set_tid (Z.of_nat (length ds)) b)) c).
  destruct (map_state_exact f (fun _ => True) g (fun ds => Z.of_nat (length ds)) (started w)) as [E _].
  { intros ds c _ _. split; [intros _|done]. unfold f, g. do 2 f_equal. rewrite length_app. simpl. lia. }
  change (Z.of_nat (length [])) with 0 in E. rewrite E by (by apply Forall_true). cbn [mbind result_bind].
  set (cts := imap _ _ ++ _).
  assert (Hcts : forall t c, compute_threads_ w !! t = Some c -> cts !! t = Some (if decide (t < Z.to_nat (w_num_compute_thread_ w))%nat
      then with_base (fun b => set_wid (worker_id_ w) (set_tid (Z.of_nat t) b)) c else c)).
  { intros t c Hc. unfold cts. rewrite (split_lookup (fun t c => g (take t (started w)) c) _ _ _ _ Hc).
    destruct (decide _) as [Ht|Ht]; [|done]. unfold g. apply lookup_lt_Some in Hc.
    by rewrite (length_take_le (started w) t) by (rewrite length_take; lia). }
  exists (base_at cts), (set_wid (worker_id_ w) (set_tid (w_num_compute_thread_ w) (u_base u))),
    (set_wid (worker_id_ w) (set_tid (w_num_compute_thread_ w + 1)
       match down_thread_ w with Some d => d_base d | None => new_ThreadBase end)).
  split.
  - unfold rebase. rewrite Hu, <- (rebase_threads (compute_threads_ w) cts).
    + by destruct (down_thread_ w).
    + unfold cts. rewrite length_app, length_imap, length_take, length_drop. lia.
    + intros t c Hc. rewrite (Hcts t c Hc). destruct (decide _); [by eexists|]. exists (c_base c). by destruct c.
  - split; [|done]. intros t Ht. rewrite length_take in Ht.
    destruct (lookup_lt_is_Some_2 (compute_threads_ w) t) as [c Hc]; [lia|].
    unfold base_at. rewrite (Hcts t c Hc), decide_True by lia. done.
Qed.

(** The cores are numbers behind which a comma stands; there must be a thread
    for each of them. *)
Lemma assign_cpus_spec field cts :
  ((length (cpu_list field) <= length cts)%nat ->
   assign_cpus field cts = Ok (imap (fun t c => with_base (AssignCPU (atoi (nth t (cpu_list field) []))) c) (take (length (cpu_list field)) cts)
                               ++ drop (length (cpu_list field)) cts)) /\
  (forall r, assign_cpus field cts = Ok r -> (length (cpu_list field) <= length cts)%nat).
Proof.
  unfold assign_cpus. set (ps := cpu_list field). split.
  - intros Hlen. rewrite for_threads_ok by lia. rewrite Nat2Z.id.
    set (f := fun c l => _). set (g := fun (ds : list ComputeThread) c => with_base (AssignCPU (atoi (nth (length ds) ps []))) c).
    destruct (map_state_exact f (fun _ => True) g (fun ds => drop (length ds) ps) (take (length ps) cts)) as [E _].
    { intros ds c Hpre _. apply prefix_length in Hpre. rewrite length_app, length_take in Hpre. simpl in Hpre.
      split; [intros _|done]. destruct (lookup_lt_is_Some_2 ps (length ds)) as [p Hp]; [lia|].
      rewrite (drop_S _ _ _ Hp). unfold f, g. rewrite (nth_lookup_Some _ _ _ _ Hp), length_app, Nat.add_1_r. done. }
    change (drop (length []) ps) with ps in E. rewrite E by (by apply Forall_true). cbn [mbind result_bind].
    do 2 f_equal. apply imap_ext. intros t c Hc. unfold g. apply lookup_lt_Some in Hc. rewrite length_take in Hc.
    by rewrite (length_take_le (take (length ps) cts) t) by (rewrite length_take; lia).
  - intros r Hr. destruct (for_threads _ _ _ _) as [[cts' l]|] eqn:E in Hr; [|done].
    apply for_threads_short in E. by rewrite Nat2Z.id in E.
Qed.

(** The strings [ParseCPUAffinity] accepts. *)
Definition affinity_ok (str : cstr) (w : Worker) : Prop :=
  (forall field, tokens ";"%char str !! 1%nat = Some field -> (length (cpu_list field) <= length (compute_threads_ w))%nat) /\
  (is_Some (tokens ";"%char str !! 3%nat) -> is_Some (down_thread_ w)).

Lemma with_base_twice f g c : with_base f (with_base g c) = with_base (fun b => f (g b)) c.
Proof. by destruct c. Qed.

Lemma assign_cpus_rebase field (bs : nat -> ThreadBase) cts :
  (length (cpu_list field) <= length cts)%nat ->
  exists bs', assign_cpus field (imap (fun t c => with_base (fun _ => bs t) c) cts) = Ok (imap (fun t c => with_base (fun _ => bs' t) c) cts) /\
    forall t, wid_ (bs' t) = wid_ (bs t) /\ tid_ (bs' t) = tid_ (bs t).
Proof.
  intros Hlen. set (ps := cpu_list field) in *.
  exists (fun t => if decide (t < length ps)%nat then AssignCPU (atoi (nth t ps [])) (bs t) else bs t). split.
  - rewrite (proj1 (assign_cpus_spec field _)) by (by rewrite length_imap). fold ps. f_equal. apply list_eq. intros t.
    rewrite list_lookup_imap. destruct (cts !! t) as [c|] eqn:Hc.
    + rewrite (split_lookup _ _ _ _ (with_base (fun _ => bs t) c)) by (by rewrite list_lookup_imap, Hc). simpl.
      destruct (decide _); [by rewrite with_base_twice|done].
    + apply lookup_ge_None_2. apply lookup_ge_None in Hc. rewrite length_app, length_imap, length_take, length_drop, length_imap. lia.
  - intros t. by destruct (decide _).
Qed.

Lemma pin_main_spec field bs ub db cpu w :
  exists cpu', pin_main field (rebase bs ub db cpu w) = rebase bs ub db cpu' w.
Proof. destruct field; by eexists. Qed.

Lemma pin_computes_spec field bs ub db cpu w :
  has_ids w bs ub db ->
  ((forall f, field = Some f -> (length (cpu_list f) <= length (compute_threads_ w))%nat) ->
   exists bs', pin_computes field (rebase bs ub db cpu w) = Ok (rebase bs' ub db cpu w) /\ has_ids w bs' ub db) /\
  (forall r, pin_computes field (rebase bs ub db cpu w) = Ok r ->
     forall f, field = Some f -> (length (cpu_list f) <= length (compute_threads_ w))%nat).
Proof.
  intros [H1 H2]. destruct field as [f|]; [|split; [intros _; by exists bs|done]]. cbn [pin_computes compute_threads_ rebase]. split.
  - intros Hf. destruct (assign_cpus_rebase f bs (compute_threads_ w) (Hf f eq_refl)) as (bs' & E & Hb).
    exists bs'. rewrite E. split; [done|]. split; [|done]. intros t Ht. destruct (Hb t) as [-> ->]. by apply H1.
  - intros r Hr f' [= <-]. destruct (assign_cpus f _) as [cts'|] eqn:E in Hr; [|done].
    apply assign_cpus_spec in E. by rewrite length_imap in E.
Qed.

Lemma pin_up_spec field bs ub db cpu w u :
  up_thread_ w = Some u -> has_ids w bs ub db ->
  exists ub', pin_up field (rebase bs ub db cpu w) = Ok (rebase bs ub' db cpu w) /\ has_ids w bs ub' db.
Proof.
  intros Hu Hids. destruct field as [f|]; [|by exists ub].
  exists (AssignCPU (atoi f) ub). unfold pin_up, rebase. cbn [up_thread_]. by rewrite Hu.
Qed.

Lemma pin_down_spec field bs ub db cpu w :
  has_ids w bs ub db ->
  ((is_Some field -> is_Some (down_thread_ w)) ->
   exists db', pin_down field (rebase bs ub db cpu w) = Ok (rebase bs ub db' cpu w) /\ has_ids w bs ub db') /\
  (forall r, pin_down field (rebase bs ub db cpu w) = Ok r -> is_Some field -> is_Some (down_thread_ w)).
Proof.
  intros Hids. destruct field as [f|].
  2:{ split; [intros _; by exists db|]. by intros r _ [? ?]. }
  unfold pin_down, rebase. cbn [down_thread_]. destruct (down_thread_ w) as [d|] eqn:Hd; cbn [fmap option_fmap option_map].
  - split; [intros _|by eauto]. exists (AssignCPU (atoi f) db). done.
  - split; [|done]. intros H. destruct H as [? ?]; [by eexists|done].
Qed.

Lemma affinity_spec str w u bs ub db cpu :
  up_thread_ w = Some u -> has_ids w bs ub db ->
  (affinity_ok str w ->
     exists bs' ub' db' cpu', ParseCPUAffinity str (rebase bs ub db cpu w) = Ok (rebase bs' ub' db' cpu' w) /\ has_ids w bs' ub' db') /\
  (forall r, ParseCPUAffinity str (rebase bs ub db cpu w) = Ok r -> affinity_ok str w).
Proof.
  intros Hu Hids. unfold ParseCPUAffinity, affinity_ok. generalize (tokens ";"%char str). intros strings.
  destruct (pin_main_spec (strings !! 0%nat) bs ub db cpu w) as [cpu' ->].
  destruct (pin_computes_spec (strings !! 1%nat) bs ub db cpu' w Hids) as [C1 C2]. split.
  - intros [H1 H2]. destruct (C1 H1) as (bs' & -> & Hids1). cbn [mbind result_bind].
    destruct (pin_up_spec (strings !! 2%nat) bs' ub db cpu' w u Hu Hids1) as (ub' & -> & Hids2). cbn [mbind result_bind].
    destruct (proj1 (pin_down_spec (strings !! 3%nat) bs' ub' db cpu' w Hids2) H2) as (db' & -> & Hids3). by eauto 6.
  - intros r Hr. destruct (pin_computes _ _) as [w2|] eqn:E in Hr; [|done]. cbn [mbind result_bind] in Hr.
    specialize (C2 w2 E). split; [done|]. destruct (C1 C2) as (bs' & E' & Hids1). rewrite E in E'. injection E' as ->.
    destruct (pin_up_spec (strings !! 2%nat) bs' ub db cpu' w u Hu Hids1) as (ub' & E3 & Hids2). rewrite E3 in Hr.
    cbn [mbind result_bind] in Hr. by apply (proj2 (pin_down_spec (strings !! 3%nat) bs' ub' db cpu' w Hids2) r).
Qed.

(** ** Workers as they are built *)

Definition worker_up_cbs (w : Worker) : list Callbacks.OutCallbackSimple :=
  match up_thread_ w with Some u => up_cbs u | None => [] end.
Definition worker_down_cbs (w : Worker) : list Callbacks.OutCallbackSimple :=
  match down_thread_ w with Some d => d_out_callbacks_ d | None => [] end.

(** Writers and readers of one direction have queues of their own and are not
    connected; a thread has a writer when it is told of peers. *)
Record side_ok (k : nat) (f : ComputeThread -> option Mpsc.MPSCWriter) (num : ComputeThread -> Z)
    (cts : list ComputeThread) (cbs : list Callbacks.OutCallbackSimple) : Prop := mkside {
  side_distinct : NoDup (owns f cts ++ (cb_own <$> cbs));
  side_in_store : Forall (in_store k) (owns f cts ++ (cb_own <$> cbs));
  side_writers : Forall (fun c => (is_Some (f c) <-> 0 < num c) /\
                   forall x, f c = Some x -> Mpsc.peers (Mpsc.w_obj x) = [] /\ Mpsc.writer_id x = -1) cts;
  side_readers : Forall (fun cb => Mpsc.peers (Mpsc.r_obj (Callbacks.reader_ cb)) = []) cbs
}.

Record wf (w : Worker) (ka kb : nat) : Prop := mkwf {
  wf_fwd : fwd_ w = tallied zero_a ka [];
  wf_rev : rev_ w = tallied zero_b kb [];
  wf_down_side : side_ok ka down_writer_ num_downstream_ (compute_threads_ w) (worker_down_cbs w);
  wf_up_side : side_ok kb up_writer_ num_upstream_ (compute_threads_ w) (worker_up_cbs w);
  wf_up : forall u, up_thread_ w = Some u -> out_queues u = [] /\ length (up_cbs u) = Z.to_nat (GetNumUpstream u);
  wf_down : forall d, down_thread_ w = Some d ->
    d_support_feedback_ d = true /\ Callbacks.queues_ (d_in_callback_ d) = []
}.

(** What a program does with the worker before [Start]. *)
Inductive built : Worker -> Prop :=
| built_new id n : built (new_Worker id n [] [])
| built_trace w : built w -> built (AddUpThread new_UpThreadTrace w)
| built_net w num_upstream num_compute_thread addr n rev :
    built w -> new_UpThreadNet num_upstream num_compute_thread (rev_ w) = (mkup new_ThreadBase (UpNet n), rev) ->
    built (set_stores (fwd_ w) rev (AddUpThread (mkup new_ThreadBase (UpNet (AddSource addr n))) w))
| built_compute w num_upstream num_downstream c fwd rev :
    built w -> new_ComputeThread num_upstream num_downstream (fwd_ w) (rev_ w) = (c, fwd, rev) ->
    built (set_stores fwd rev (AddComputeThread c w))
| built_down w num_compute_thread num_downstream dests d fwd :
    built w -> foldM (fun s dest => AddDest dest s) dests (new_DownThreadNet num_compute_thread num_downstream, fwd_ w) = Ok (d, fwd) ->
    built (set_stores fwd (rev_ w) (AddDownThread d w)).

Lemma tallied_nil_S {T} (zero : T) k : tallied zero k [] ++ [Mpsc.new_LockFreeQueue] = tallied zero (S k) [].
Proof. unfold tallied. by rewrite seq_S, fmap_app. Qed.

Lemma length_tallied {T} (zero : T) k log : length (tallied zero k log) = k.
Proof. unfold tallied. by rewrite length_fmap, length_seq. Qed.

Lemma in_store_S k p : in_store k p -> in_store (S k) p.
Proof. unfold in_store. lia. Qed.

(** The queue of a new object is new. *)
Lemma fresh_own k l : Forall (in_store k) l -> NoDup l ->
  NoDup (Z.of_nat k :: l) /\ Forall (in_store (S k)) (Z.of_nat k :: l).
Proof.
  intros Hall Hnd. split.
  - apply NoDup_cons. split; [|done]. intros Hin. rewrite Forall_forall in Hall. specialize (Hall _ Hin). unfold in_store in Hall. lia.
  - constructor; [unfold in_store; lia|]. eapply Forall_impl; [done|]. apply in_store_S.
Qed.

(** A new callback joins the readers. *)
Lemma side_add_reader {T} (zero : T) k f num cts cbs n cbs' h' :
  side_ok k f num cts cbs -> add_callback n (cbs, tallied zero k []) = (cbs', h') ->
  side_ok (S k) f num cts cbs' /\ h' = tallied zero (S k) [] /\ length cbs' = S (length cbs).
Proof.
  intros [Hnd Hin Hw Hr] Hadd. unfold add_callback, new_OutCallbackSimple, new_object in Hadd. simpl in Hadd.
  rewrite length_tallied, tallied_nil_S in Hadd. injection Hadd as <- <-. split_and!; [|done|rewrite length_app; simpl; lia].
  destruct (fresh_own k _ Hin Hnd) as [Hnd' Hin'].
  assert (Hp : Z.of_nat k :: (owns f cts ++ (cb_own <$> cbs)) ≡ₚ
    owns f cts ++ (cb_own <$> (cbs ++ [Callbacks.mkOutCallback (Mpsc.mkMPSCReader (Mpsc.mkMPSCObject (Z.of_nat k) []) garbage_id) n 0 0]))).
  { rewrite fmap_app. simpl. rewrite app_assoc. apply Permutation_cons_append. }
  split; [by rewrite <- Hp|by rewrite <- Hp|done|]. apply Forall_app. split; [done|]. by constructor.
Qed.

(** A new thread joins the writers. *)
Lemma side_add_writer {T} (zero : T) k f num cts cbs c wr h' :
  side_ok k f num cts cbs -> new_writer (0 <? num c) (tallied zero k []) = (wr, h') -> f c = wr ->
  exists k', side_ok k' f num (cts ++ [c]) cbs /\ h' = tallied zero k' [].
Proof.
  intros [Hnd Hin Hw Hr] Hnew Hf. unfold new_writer, new_object in Hnew. rewrite length_tallied, tallied_nil_S in Hnew.
  destruct (Z.ltb_spec 0 (num c)) as [Hn|Hn]; injection Hnew as <- <-.
  - exists (S k). split; [|done]. destruct (fresh_own k _ Hin Hnd) as [Hnd' Hin'].
    assert (Hp : Z.of_nat k :: (owns f cts ++ (cb_own <$> cbs)) ≡ₚ owns f (cts ++ [c]) ++ (cb_own <$> cbs)).
    { rewrite owns_app, owns_one, Hf. simpl. rewrite <- app_assoc. apply Permutation_middle. }
    split; [by rewrite <- Hp|by rewrite <- Hp| |done]. apply Forall_app. split; [done|]. constructor; [|constructor].
    rewrite Hf. split; [by split; [|eauto]|]. by intros x [= <-].
  - exists k. split; [|done]. split; [by rewrite owns_app, owns_one, Hf, app_nil_r|by rewrite owns_app, owns_one, Hf, app_nil_r| |done].
    apply Forall_app. split; [done|]. constructor; [|constructor]. rewrite Hf.
    split; [split; [by intros [? ?]|lia]|done].
Qed.

Lemma side_no_readers k f num cts cbs : side_ok k f num cts cbs -> side_ok k f num cts [].
Proof.
  intros [Hnd Hin Hw Hr]. split; [|apply Forall_app in Hin as [??]; by rewrite app_nil_r|done|constructor].
  rewrite app_nil_r. by apply NoDup_app in Hnd as [? _].
Qed.

Lemma side_add_readers {T} (zero : T) k f num cts n m cbs h :
  side_ok k f num cts [] -> Nat.iter m (add_callback n) ([], tallied zero k []) = (cbs, h) ->
  exists k', side_ok k' f num cts cbs /\ h = tallied zero k' [] /\ length cbs = m.
Proof.
  intros Hs. revert cbs h. induction m as [|m IH]; intros cbs h Hit; simpl in Hit.
  { injection Hit as <- <-. by exists k. }
  destruct (Nat.iter m (add_callback n) ([], tallied zero k [])) as [cbs1 h1].
  destruct (IH _ _ eq_refl) as (k1 & Hs1 & -> & Hl). destruct (side_add_reader _ _ _ _ _ _ _ _ _ Hs1 Hit) as (Hs2 & -> & Hl2).
  exists (S k1). split_and!; [done|done|lia].
Qed.

Lemma AddDest_inv dests d ka num cts d' h' :
  side_ok ka down_writer_ num cts (d_out_callbacks_ d) -> d_support_feedback_ d = true -> Callbacks.queues_ (d_in_callback_ d) = [] ->
  foldM (fun s dest => AddDest dest s) dests (d, tallied zero_a ka []) = Ok (d', h') ->
  exists k', side_ok k' down_writer_ num cts (d_out_callbacks_ d') /\ h' = tallied zero_a k' [] /\
    d_support_feedback_ d' = true /\ Callbacks.queues_ (d_in_callback_ d') = [].
Proof.
  revert d ka. induction dests as [|dest dests IH]; intros d ka Hs Hf Hq Hrun; cbn [foldM] in Hrun.
  { injection Hrun as <- <-. by exists ka. }
  destruct (AddDest dest (d, tallied zero_a ka [])) as [[d1 h1]|] eqn:Hadd; [|done]. cbn [mbind result_bind] in Hrun.
  unfold AddDest in Hadd. destruct (add_callback (s32 (num_compute_thread_ d)) (d_out_callbacks_ d, tallied zero_a ka [])) as [cbs h2] eqn:Hcb.
  destruct dest as [addr|]; [|done]. injection Hadd as <- <-.
  destruct (side_add_reader _ _ _ _ _ _ _ _ _ Hs Hcb) as (Hs2 & -> & _). by eapply IH in Hrun.
Qed.

Lemma built_wf w : built w -> exists ka kb, wf w ka kb.
Proof.
  induction 1 as [id n|w _ (ka & kb & Hw)|w nu nc addr n rev _ (ka & kb & Hw) Hnew|w nu nd c fwd rev _ (ka & kb & Hw) Hnew
                 |w nc nd dests d fwd _ (ka & kb & Hw) Hrun]; try destruct Hw as [Hf Hr Hd Hu Hwu Hwd].
  - exists 0%nat, 0%nat. split; try done; split; try constructor.
  - exists ka, kb. split; try done; [by eapply side_no_readers|]. by intros u [= <-].
  - unfold new_UpThreadNet in Hnew. destruct (Nat.iter _ _ _) as [cbs rev'] eqn:Hit in Hnew. injection Hnew as <- <-.
    rewrite Hr in Hit. destruct (side_add_readers _ _ _ _ _ _ _ _ _ (side_no_readers _ _ _ _ _ Hu) Hit) as (kb' & Hs & Hrev & Hl).
    exists ka, kb'. split; try done. by intros u [= <-].
  - unfold new_ComputeThread in Hnew. rewrite Hf, Hr in Hnew.
    destruct (new_writer (0 <? nd) _) as [dw fwd'] eqn:Hdw. destruct (new_writer (0 <? nu) _) as [uw rev'] eqn:Huw.
    injection Hnew as <- <- <-. set (c := mkcompute _ _ _ _ _ _ _).
    destruct (side_add_writer zero_a ka down_writer_ num_downstream_ _ _ c _ _ Hd Hdw eq_refl) as (ka' & Hd' & Hfwd).
    destruct (side_add_writer zero_b kb up_writer_ num_upstream_ _ _ c _ _ Hu Huw eq_refl) as (kb' & Hu' & Hrev).
    exists ka', kb'. by split.
  - rewrite Hf in Hrun. destruct (AddDest_inv dests (new_DownThreadNet nc nd) ka num_downstream_ (compute_threads_ w) d fwd) as (ka' & Hs & Hfwd & Hsf & Hq);
      [by apply (side_no_readers _ _ _ _ (worker_down_cbs w))|done|done|done|].
    exists ka', kb. split; try done. by intros d' [= <-].
Qed.

(** ** The result of the set-up *)

Lemma side_writer_in_store k f num cts cbs c x : side_ok k f num cts cbs -> c ∈ cts -> f c = Some x -> in_store k (w_own x).
Proof.
  intros Hs Hc Hx. pose proof (side_in_store _ _ _ _ _ Hs) as Hin. apply Forall_app in Hin as [Hin _].
  rewrite Forall_forall in Hin. apply Hin. apply list_elem_of_omap. exists c. by rewrite Hx.
Qed.

Lemma side_reader_in_store k f num cts cbs : side_ok k f num cts cbs -> Forall (in_store k) (cb_own <$> cbs).
Proof. intros Hs. by pose proof (side_in_store _ _ _ _ _ Hs) as [_ ?]%Forall_app. Qed.

(** The compute threads after the set-up. *)
Definition down_stage (od : option DownThreadNet) (t : nat) (c : ComputeThread) : ComputeThread :=
  match od with Some d => down_linked d t c | None => c end.

Definition ready_thread (w : Worker) (u : UpThread) (bs : nat -> ThreadBase) (t : nat) (c : ComputeThread) : ComputeThread :=
  down_stage (down_thread_ w) t (up_linked u t (with_base (fun _ => bs t) c)).

Definition up_rows (w : Worker) : list Z :=
  match up_thread_ w with Some u => take (up_fan u) (cb_own <$> up_cbs u) | None => [] end.
Definition down_rows (w : Worker) : list Z :=
  match down_thread_ w with Some d => take (down_fan d) (cb_own <$> d_out_callbacks_ d) | None => [] end.

(** The worker after the set-up, with the bases [bs], [ub] and [db]. *)
Definition ready_worker (w : Worker) (u : UpThread) bs ub db cpu ka kb : Worker :=
  mkworker (worker_id_ w) (w_num_compute_thread_ w)
    (imap (ready_thread w u bs) (started w) ++
     drop (Z.to_nat (w_num_compute_thread_ w)) (imap (fun t c => with_base (fun _ => bs t) c) (compute_threads_ w)))
    (Some (up_with (mkup ub (u_kind u)) (length (started w)) (linked (up_fan u) (owns up_writer_ (started w)) (up_cbs u))))
    ((fun d => mkdown db (num_compute_thread_ d) (d_support_feedback_ d) (more_queues (length (started w)) r_in_ring (d_in_callback_ d))
                 (linked (down_fan d) (owns down_writer_ (started w)) (d_out_callbacks_ d)) (d_net d)) <$> down_thread_ w)
    cpu (tallied zero_a ka (mesh (down_rows w) (owns down_writer_ (started w))))
    (tallied zero_b kb (mesh (up_rows w) (owns up_writer_ (started w)))).

Definition up_connectable (w : Worker) (u : UpThread) : Prop :=
  Forall (fun c => connectable (up_fan u) (up_cbs u) (up_writer_ c)) (started w).
Definition down_connectable (w : Worker) : Prop :=
  match down_thread_ w with
  | Some d => Forall (fun c => connectable (down_fan d) (d_out_callbacks_ d) (down_writer_ c)) (started w)
  | None => True
  end.

Lemma take_imap {X Y} (h : nat -> X -> Y) n l : take n (imap h l) = imap h (take n l).
Proof.
  apply list_eq. intros t. destruct (decide (t < n)%nat).
  - by rewrite lookup_take_lt, !list_lookup_imap, lookup_take_lt by done.
  - by rewrite lookup_take_ge, list_lookup_imap, lookup_take_ge by lia.
Qed.

Lemma owns_imap f (h : nat -> ComputeThread -> ComputeThread) l : (forall t c, f (h t c) = f c) -> owns f (imap h l) = owns f l.
Proof.
  intros Hh. apply owns_ext. apply list_eq. intros t. rewrite !list_lookup_fmap, list_lookup_imap.
  destruct (l !! t); simpl; [by rewrite Hh|done].
Qed.

Lemma Forall_imap_same {X} (P : X -> Prop) (h : nat -> X -> X) l :
  (forall t c, P (h t c) <-> P c) -> Forall P (imap h l) <-> Forall P l.
Proof.
  intros Hh. rewrite !Forall_lookup. split; intros Hall t c Hc.
  - apply (Hh t c), (Hall t). by rewrite list_lookup_imap, Hc.
  - rewrite list_lookup_imap in Hc. destruct (l !! t) as [c0|] eqn:E; [|done]. injection Hc as <-. by apply Hh, (Hall t).
Qed.

(** A loop over threads that all went through [h] before. *)
Lemma loop_after {S} (h : nat -> ComputeThread -> ComputeThread) (f : ComputeThread -> S -> result (ComputeThread * S))
    (P : ComputeThread -> Prop) (g : nat -> ComputeThread -> ComputeThread) (st : list ComputeThread -> S) n cts cts1 :
  (Z.to_nat n <= length cts1)%nat -> take (Z.to_nat n) cts1 = imap h (take (Z.to_nat n) cts) ->
  (forall t c, P (h t c) <-> P c) ->
  (forall ds c, c ∈ imap h (take (Z.to_nat n) cts) ->
     (P c -> f c (st ds) = Ok (g (length ds) c, st (ds ++ [c]))) /\ (forall r, f c (st ds) = Ok r -> P c)) ->
  (Forall P (take (Z.to_nat n) cts) ->
     for_threads n f cts1 (st []) =
       Ok (imap (fun t c => g t (h t c)) (take (Z.to_nat n) cts) ++ drop (Z.to_nat n) cts1, st (imap h (take (Z.to_nat n) cts)))) /\
  (forall r, for_threads n f cts1 (st []) = Ok r -> Forall P (take (Z.to_nat n) cts)).
Proof.
  intros Hlen Htake HP Hf. rewrite for_threads_ok, Htake by done. set (l := take _ cts) in *.
  destruct (map_state_exact f P (fun ds c => g (length ds) c) st (imap h l)) as [E1 E2].
  { intros ds c [k Hk] _. apply Hf. rewrite Hk. apply elem_of_app. left. apply elem_of_app. right. by apply list_elem_of_singleton. }
  split.
  - intros Hall. rewrite E1 by (by apply Forall_imap_same). cbn [mbind result_bind]. do 2 f_equal. f_equal.
    apply list_eq. intros t. rewrite !list_lookup_imap. destruct (l !! t) as [c|] eqn:Hc; [|done]. simpl.
    rewrite length_take_le; [done|]. rewrite length_imap. apply lookup_lt_Some in Hc. lia.
  - intros r Hr. destruct (map_state f (imap h l) (st [])) as [x|] eqn:E; [|done].
    by apply (Forall_imap_same P h), (E2 x).
Qed.

Lemma connect_up_spec w ka kb u bs ub db cpu :
  wf w ka kb -> up_thread_ w = Some u -> (Z.to_nat (w_num_compute_thread_ w) <= length (compute_threads_ w))%nat ->
  (up_connectable w u ->
   connect_up (rebase bs ub db cpu w) =
     Ok (mkworker (worker_id_ w) (w_num_compute_thread_ w)
           (imap (fun t c => up_linked u t (with_base (fun _ => bs t) c)) (started w) ++
            drop (Z.to_nat (w_num_compute_thread_ w)) (imap (fun t c => with_base (fun _ => bs t) c) (compute_threads_ w)))
           (Some (up_with (mkup ub (u_kind u)) (length (started w)) (linked (up_fan u) (owns up_writer_ (started w)) (up_cbs u))))
           (down_thread_ (rebase bs ub db cpu w)) cpu (fwd_ w) (tallied zero_b kb (mesh (up_rows w) (owns up_writer_ (started w)))))) /\
  (forall r, connect_up (rebase bs ub db cpu w) = Ok r -> up_connectable w u).
Proof.
  intros Hwf Hu Hn. unfold connect_up, up_connectable. cbn [up_thread_ rebase]. rewrite Hu. cbn [fmap option_fmap option_map].
  set (u1 := mkup ub (u_kind u)). set (h := fun t c => with_base (fun _ => bs t) c).
  set (st := fun ds => (up_after u1 ds, tallied zero_b kb (mesh (up_rows w) (owns up_writer_ ds)))).
  pose proof (wf_up_side _ _ _ Hwf) as Hside. unfold worker_up_cbs in Hside. rewrite Hu in Hside.
  assert (Hst : st [] = (u1, rev_ w)).
  { unfold st, up_after. rewrite (wf_rev _ _ _ Hwf). cbn [owns omap length]. rewrite linked_nil. unfold up_with, u1. cbn [u_base u_kind].
    f_equal. f_equal. unfold up_cbs. cbn [u_kind]. destruct (u_kind u) as [qs|[? ? cb ? ?]]; [by rewrite app_nil_r|].
    unfold more_queues. simpl. rewrite !app_nil_r. by destruct cb. }
  destruct (loop_after h ConnectUpThread (fun c => connectable (up_fan u) (up_cbs u) (up_writer_ c)) (up_linked u) st
    (w_num_compute_thread_ w) (compute_threads_ w) (imap h (compute_threads_ w))) as [E1 E2].
  - by rewrite length_imap.
  - apply take_imap.
  - done.
  - intros ds c Hc. unfold st, up_rows. rewrite Hu.
    apply (ConnectUp_step kb u1 ds c); [|by apply (side_reader_in_store _ _ _ _ _ Hside)].
    intros x Hx. apply list_elem_of_lookup in Hc as [t Ht]. rewrite list_lookup_imap in Ht.
    destruct (started w !! t) as [c0|] eqn:Hc0; [|done]. injection Ht as <-.
    apply (side_writer_in_store _ _ _ _ _ c0 x Hside); [|done].
    apply lookup_take_Some in Hc0 as [Hc0 _]. by eapply list_elem_of_lookup_2.
  - cbn [compute_threads_ rebase w_num_compute_thread_ rev_] in *. fold h. rewrite <- Hst. split.
    + intros Hall. rewrite (E1 Hall). cbn [mbind result_bind]. unfold st, up_after. rewrite length_imap.
      rewrite !(owns_imap up_writer_ h) by done. done.
    + intros r Hr. destruct (for_threads _ _ _ _) as [x|] eqn:E in Hr; [|done]. by apply (E2 x).
Qed.

Lemma in_started w c : c ∈ started w -> c ∈ compute_threads_ w.
Proof. intros Hc. apply list_elem_of_lookup in Hc as [t Ht]. apply lookup_take_Some in Ht as [Ht _]. by eapply list_elem_of_lookup_2. Qed.

Lemma elem_of_imap {X Y} (h : nat -> X -> Y) l y : y ∈ imap h l -> exists t x, l !! t = Some x /\ y = h t x.
Proof.
  intros Hy. apply list_elem_of_lookup in Hy as [t Ht]. rewrite list_lookup_imap in Ht.
  destruct (l !! t) as [x|] eqn:Hx; [|done]. injection Ht as <-. by exists t, x.
Qed.

Lemma connect_down_spec w ka kb u bs ub db cpu :
  wf w ka kb -> (Z.to_nat (w_num_compute_thread_ w) <= length (compute_threads_ w))%nat ->
  let w1 := mkworker (worker_id_ w) (w_num_compute_thread_ w)
              (imap (fun t c => up_linked u t (with_base (fun _ => bs t) c)) (started w) ++
               drop (Z.to_nat (w_num_compute_thread_ w)) (imap (fun t c => with_base (fun _ => bs t) c) (compute_threads_ w)))
              (Some (up_with (mkup ub (u_kind u)) (length (started w)) (linked (up_fan u) (owns up_writer_ (started w)) (up_cbs u))))
              (down_thread_ (rebase bs ub db cpu w)) cpu (fwd_ w) (tallied zero_b kb (mesh (up_rows w) (owns up_writer_ (started w)))) in
  (down_connectable w -> connect_down w1 = Ok (ready_worker w u bs ub db cpu ka kb)) /\
  (forall r, connect_down w1 = Ok r -> down_connectable w).
Proof.
  intros Hwf Hn w1. unfold connect_down, down_connectable, ready_worker, ready_thread, down_rows. cbn [down_thread_ w1 rebase fwd_].
  destruct (down_thread_ w) as [d|] eqn:Hd; cbn [fmap option_fmap option_map].
  2:{ split; [|done]. intros _. unfold w1. cbn [rebase down_thread_]. rewrite Hd, mesh_nil, (wf_fwd _ _ _ Hwf). done. }
  set (d1 := mkdown db _ _ _ _ _). set (h := fun t c => up_linked u t (with_base (fun _ => bs t) c)).
  set (rs := take (down_fan d) (cb_own <$> d_out_callbacks_ d)).
  set (st := fun ds => (down_after d1 ds, tallied zero_a ka (mesh rs (owns down_writer_ ds)))).
  destruct (wf_down _ _ _ Hwf d Hd) as [Hsf Hqs].
  pose proof (wf_down_side _ _ _ Hwf) as Hside. unfold worker_down_cbs in Hside. rewrite Hd in Hside.
  assert (Hst : st [] = (d1, fwd_ w)).
  { unfold st, down_after. rewrite (wf_fwd _ _ _ Hwf). cbn [owns omap length]. rewrite linked_nil. unfold down_with, d1, more_queues.
    cbn [d_base num_compute_thread_ d_support_feedback_ d_in_callback_ d_out_callbacks_ d_net replicate].
    rewrite !app_nil_r. by destruct (d_in_callback_ d). }
  assert (Htake : take (Z.to_nat (w_num_compute_thread_ w)) (compute_threads_ w1) = imap h (started w)).
  { unfold w1. cbn [compute_threads_]. rewrite take_app_length'; [done|]. rewrite length_imap, length_take. lia. }
  destruct (loop_after h ConnectDownThread (fun c => connectable (down_fan d) (d_out_callbacks_ d) (down_writer_ c)) (down_linked d) st
    (w_num_compute_thread_ w) (compute_threads_ w) (compute_threads_ w1)) as [E1 E2].
  - unfold w1. cbn [compute_threads_]. rewrite length_app, length_imap, length_drop, length_imap, length_take. lia.
  - done.
  - done.
  - intros ds c Hc. apply (ConnectDown_step ka d1 ds c Hsf); [|by apply (side_reader_in_store _ _ _ _ _ Hside)].
    intros x Hx. apply elem_of_imap in Hc as (t & c0 & Hc0 & ->).
    apply (side_writer_in_store _ _ _ _ _ c0 x Hside); [|done]. apply in_started. by eapply list_elem_of_lookup_2.
  - rewrite <- Hst. change (w_num_compute_thread_ w1) with (w_num_compute_thread_ w). split.
    + intros Hall. rewrite (E1 Hall). cbn [mbind result_bind]. unfold st, down_after. rewrite length_imap.
      rewrite !(owns_imap down_writer_ h) by done. unfold w1, set_stores, set_down, set_threads.
      cbn [worker_id_ w_num_compute_thread_ compute_threads_ up_thread_ main_cpu_ rev_].
      rewrite drop_app_length' by (rewrite length_imap, length_take; lia). done.
    + intros r Hr. destruct (for_threads _ _ _ _) as [x|] eqn:E in Hr; [|done]. by apply (E2 x).
Qed.

(** The set-up returns exactly on these workers, and what it makes of them. *)
Lemma setup_spec w ka kb u affinity :
  wf w ka kb -> up_thread_ w = Some u ->
  let good := (Z.to_nat (w_num_compute_thread_ w) <= length (compute_threads_ w))%nat /\
    (forall s, affinity = Some s -> affinity_ok s w) /\ up_connectable w u /\ down_connectable w in
  (good -> exists bs ub db cpu, setup affinity w = Ok (ready_worker w u bs ub db cpu ka kb) /\ has_ids w bs ub db) /\
  (forall r, setup affinity w = Ok r -> good).
Proof.
  intros Hwf Hu good. unfold setup.
  assert (Haff : forall bs ub db, has_ids w bs ub db -> (forall s, affinity = Some s -> affinity_ok s w) ->
    exists bs' ub' db' cpu', match affinity with Some s => ParseCPUAffinity s (rebase bs ub db (main_cpu_ w) w) | None => Ok (rebase bs ub db (main_cpu_ w) w) end
      = Ok (rebase bs' ub' db' cpu' w) /\ has_ids w bs' ub' db').
  { intros bs ub db Hids Ha. destruct affinity as [s|]; [|by eauto 6]. by apply (affinity_spec s w u bs ub db _ Hu Hids), Ha. }
  split.
  - intros (Hn & Ha & Hup & Hdown). destruct (assign_ids_spec w u Hu Hn) as (bs & ub & db & -> & Hids). cbn [mbind result_bind].
    destruct (Haff bs ub db Hids Ha) as (bs' & ub' & db' & cpu' & -> & Hids'). cbn [mbind result_bind].
    rewrite (proj1 (connect_up_spec w ka kb u bs' ub' db' cpu' Hwf Hu Hn) Hup). cbn [mbind result_bind].
    rewrite (proj1 (connect_down_spec w ka kb u bs' ub' db' cpu' Hwf Hn) Hdown). by eauto 6.
  - intros r Hr. destruct (assign_ids w) as [w1|] eqn:E1; [|done]. cbn [mbind result_bind] in Hr.
    assert (Hn : (Z.to_nat (w_num_compute_thread_ w) <= length (compute_threads_ w))%nat).
    { unfold assign_ids in E1. rewrite Hu in E1. destruct (for_threads _ _ _ _) as [x|] eqn:E in E1; [|done]. by apply for_threads_short in E. }
    destruct (assign_ids_spec w u Hu Hn) as (bs & ub & db & E1' & Hids). rewrite E1 in E1'. injection E1' as ->.
    assert (Ha : forall s, affinity = Some s -> affinity_ok s w).
    { intros s ->. destruct (ParseCPUAffinity s _) as [w2|] eqn:E2 in Hr; [|done].
      by apply (proj2 (affinity_spec s w u bs ub db (main_cpu_ w) Hu Hids) w2). }
    destruct (Haff bs ub db Hids Ha) as (bs' & ub' & db' & cpu' & E2 & Hids'). rewrite E2 in Hr. cbn [mbind result_bind] in Hr.
    destruct (connect_up _) as [w3|] eqn:E3 in Hr; [|done]. cbn [mbind result_bind] in Hr.
    pose proof (proj2 (connect_up_spec w ka kb u bs' ub' db' cpu' Hwf Hu Hn) w3 E3) as Hup.
    rewrite (proj1 (connect_up_spec w ka kb u bs' ub' db' cpu' Hwf Hu Hn) Hup) in E3. injection E3 as <-.
    split_and!; [done|done|done|]. by apply (proj2 (connect_down_spec w ka kb u bs' ub' db' cpu' Hwf Hn) r).
Qed.

(** ** Starting the compute threads *)

Lemma count_cons p x l : count p (x :: l) = ((if decide (p = x) then 1 else 0) + count p l)%nat.
Proof.
  unfold count. destruct (decide (p = x)) as [E|E]; [by rewrite filter_cons_True|by rewrite filter_cons_False].
Qed.

Lemma count_row p rows x : count p (mesh_row rows x) = (length rows * (if decide (p = x) then 1 else 0) + count p rows)%nat.
Proof.
  induction rows as [|r rows IH]; [done|]. change (mesh_row (r :: rows) x) with (x :: r :: mesh_row rows x).
  cbn [length]. rewrite !count_cons, IH. lia.
Qed.

(** Every writer gets a ring per reader and every reader one per writer. *)
Lemma count_mesh p rows ws : count p (mesh rows ws) = (length rows * count p ws + length ws * count p rows)%nat.
Proof.
  induction ws as [|x ws IH]; [unfold count; simpl; nia|]. change (mesh rows (x :: ws)) with (mesh_row rows x ++ mesh rows ws).
  cbn [length]. rewrite count_app, count_row, count_cons, IH. destruct (decide _); nia.
Qed.

Lemma count_in p l : p ∈ l -> (0 < count p l)%nat.
Proof.
  intros Hp. unfold count. destruct (filter (eq p) l) eqn:E; [|simpl; lia]. exfalso.
  assert (p ∈ filter (eq p) l) as Hin by (by apply list_elem_of_filter). rewrite E in Hin. by apply not_elem_of_nil in Hin.
Qed.

Lemma owns_imap_own f (h : nat -> ComputeThread -> ComputeThread) l :
  (forall t c, w_own <$> f (h t c) = w_own <$> f c) -> owns f (imap h l) = owns f l.
Proof.
  intros Hh. revert h Hh. induction l as [|c l IH]; intros h Hh; [done|]. cbn [imap].
  rewrite !owns_cons, Hh, (IH (h ∘ S)) by (intros t c'; apply Hh). done.
Qed.

Lemma elem_of_owns f l c x : c ∈ l -> f c = Some x -> w_own x ∈ owns f l.
Proof. intros Hc Hx. apply list_elem_of_omap. exists c. by rewrite Hx. Qed.

(** A writer of a thread that was connected can be initialised. *)
Lemma ready_writer k f num cts cbs n (h : nat -> ComputeThread -> ComputeThread) (tids : nat -> Z) rows ds c x :
  side_ok k f num cts cbs -> (forall t c, f (h t c) = link_writer (s32 (tids t)) rows <$> f c) ->
  (forall t, (t < length (take n cts))%nat -> tids t = Z.of_nat t) -> Z.of_nat n <= 2 ^ 31 ->
  Forall (fun c => is_Some (f c) -> rows <> []) (take n cts) ->
  ds ++ [c] `prefix_of` imap h (take n cts) -> f c = Some x ->
  in_store k (w_own x) /\ (w_own x ∉ owns f ds) /\ Mpsc.writer_id x <> -1 /\ (0 < count (w_own x) (mesh rows (owns f (take n cts))))%nat.
Proof.
  intros Hs Hh Htid Hn Hrows Hpre Hx.
  assert (Hown : forall l, owns f (imap h l) = owns f l).
  { intros l. apply owns_imap_own. intros t c'. rewrite Hh. destruct (f c'); simpl; [by rewrite link_writer_own|done]. }
  destruct Hpre as [rest Hpre].
  assert (Ht : imap h (take n cts) !! length ds = Some c) by (rewrite Hpre, <- app_assoc, lookup_app_r, Nat.sub_diag by lia; done).
  rewrite list_lookup_imap in Ht. destruct (take n cts !! length ds) as [c0|] eqn:Hc0; [|done]. injection Ht as <-.
  rewrite Hh in Hx. destruct (f c0) as [x0|] eqn:Hx0; [|done]. injection Hx as <-. rewrite link_writer_own.
  pose proof (lookup_lt_Some _ _ _ Hc0) as Hlt. pose proof (list_elem_of_lookup_2 _ _ _ Hc0) as Hin.
  pose proof (elem_of_owns f _ _ _ Hin Hx0) as Hmem. rewrite Forall_forall in Hrows.
  pose proof (Hrows c0 Hin ltac:(by rewrite Hx0)) as Hne. split_and!.
  - apply lookup_take_Some in Hc0 as [Hc0 _]. apply (side_writer_in_store _ _ _ _ _ c0 x0 Hs); [|done]. by eapply list_elem_of_lookup_2.
  - pose proof (side_distinct _ _ _ _ _ Hs) as Hnd. apply NoDup_app in Hnd as [Hnd _].
    rewrite <- (take_drop n cts), owns_app in Hnd. apply NoDup_app in Hnd as [Hnd _].
    rewrite <- Hown, Hpre, !owns_app, owns_one, Hh, Hx0 in Hnd. apply NoDup_app in Hnd as [Hnd _]. apply NoDup_app in Hnd as (_ & Hnd & _).
    intros Hbad. apply (Hnd _ Hbad). simpl. rewrite link_writer_own. by apply list_elem_of_singleton.
  - destruct rows as [|row rows]; [done|]. simpl. rewrite (Htid _ Hlt), (signed_of_small 32); [lia|lia|].
    rewrite length_take in Hlt. split; simpl; lia.
  - rewrite count_mesh. apply count_in in Hmem. destruct rows; [done|]. simpl. lia.
Qed.

(** What [start_compute] makes of a thread. *)
Definition bump (x : Mpsc.MPSCWriter) : Mpsc.MPSCWriter := Mpsc.mkMPSCWriter (Mpsc.w_obj x) (Mpsc.writer_id x) (Mpsc.clean_cnt x + 1).

Definition started_thread (c : ComputeThread) : ComputeThread :=
  set_up_writer (bump <$> up_writer_ c) (set_down_writer (bump <$> down_writer_ c)
    (with_base (fun _ => set_thr_id (tid_ (c_base c)) (c_base c)) c)).

Lemma Create_ok b : wid_ b <> -1 -> tid_ b <> -1 -> Create b = Ok (set_thr_id (tid_ b) b).
Proof. intros H1 H2. unfold Create. by rewrite (proj2 (Z.eqb_neq _ _) H1), (proj2 (Z.eqb_neq _ _) H2). Qed.

Lemma Create_inv b b' : Create b = Ok b' -> wid_ b <> -1.
Proof. unfold Create. destruct (Z.eqb_spec (wid_ b) (-1)); [done|]. done. Qed.

Lemma ready_down w u bs t c :
  down_writer_ (ready_thread w u bs t c) = link_writer (s32 (tid_ (bs t))) (down_rows w) <$> down_writer_ c.
Proof.
  unfold ready_thread, down_stage, down_rows. destruct (down_thread_ w); [done|]. by rewrite fmap_link_nil.
Qed.

Lemma ready_up w u bs t c :
  up_thread_ w = Some u -> up_writer_ (ready_thread w u bs t c) = link_writer (s32 (tid_ (bs t))) (up_rows w) <$> up_writer_ c.
Proof. intros Hu. unfold ready_thread, down_stage, up_rows. rewrite Hu. by destruct (down_thread_ w). Qed.

Lemma ready_base w u bs t c : c_base (ready_thread w u bs t c) = bs t.
Proof. unfold ready_thread, down_stage. by destruct (down_thread_ w). Qed.

Lemma start_loop w ka kb u bs ub db :
  wf w ka kb -> up_thread_ w = Some u -> has_ids w bs ub db -> worker_id_ w <> -1 -> w_num_compute_thread_ w < 2 ^ 31 ->
  Forall (fun c => (is_Some (down_writer_ c) -> down_rows w <> []) /\ (is_Some (up_writer_ c) -> up_rows w <> [])) (started w) ->
  (forall t, (t < length (started w))%nat -> app_init t = Ok tt) ->
  let logA := mesh (down_rows w) (owns down_writer_ (started w)) in
  let logB := mesh (up_rows w) (owns up_writer_ (started w)) in
  let l := imap (ready_thread w u bs) (started w) in
  exists fwd rev, map_state start_compute l (0%nat, (tallied zero_a ka logA, tallied zero_b kb logB)) = Ok (started_thread <$> l, (length l, (fwd, rev))) /\
    filled zero_a ka logA slot_a down_writer_ l fwd /\ filled zero_b kb logB slot_b up_writer_ l rev.
Proof.
  intros Hwf Hu (Hids & _) Hid Hn Hrows Happ logA logB l.
  destruct (map_state_inv (fun ds s => s.1 = length ds /\ filled zero_a ka logA slot_a down_writer_ ds s.2.1 /\
      filled zero_b kb logB slot_b up_writer_ ds s.2.2) start_compute started_thread l (0%nat, (tallied zero_a ka logA, tallied zero_b kb logB)))
    as ([t [fwd rev]] & Hrun & Ht & HA & HB).
  - split_and!; [done|apply filled_nil|apply filled_nil].
  - intros ds c [t [fwd rev]] (Ht & HA & HB) Hpre. cbn [fst snd] in *. subst t.
    assert (Hlt : (length ds < length (started w))%nat).
    { apply prefix_length in Hpre. unfold l in Hpre. rewrite length_app, length_imap in Hpre. simpl in Hpre. lia. }
    assert (Hbase : c_base c = bs (length ds)).
    { destruct Hpre as [rest Hpre]. assert (E : l !! length ds = Some c) by (rewrite Hpre, <- app_assoc, lookup_app_r, Nat.sub_diag by lia; done).
      unfold l in E. rewrite list_lookup_imap in E. destruct (started w !! length ds); [|done]. injection E as <-. apply ready_base. }
    destruct (Hids _ Hlt) as [Hwid Htid].
    destruct (init_writer_filled zero_a ka logA slot_a down_writer_ ds c fwd HA) as (fwd' & EA & HA').
    { intros x Hx. apply (ready_writer ka down_writer_ num_downstream_ (compute_threads_ w) _ (Z.to_nat (w_num_compute_thread_ w))
        (ready_thread w u bs) (fun t => tid_ (bs t)) (down_rows w) ds c x (wf_down_side _ _ _ Hwf)); try done; [apply ready_down|by apply Hids|lia|].
      eapply Forall_impl; [exact Hrows|]. by intros ? [? _]. }
    destruct (init_writer_filled zero_b kb logB slot_b up_writer_ ds c rev HB) as (rev' & EB & HB').
    { intros x Hx. apply (ready_writer kb up_writer_ num_upstream_ (compute_threads_ w) _ (Z.to_nat (w_num_compute_thread_ w))
        (ready_thread w u bs) (fun t => tid_ (bs t)) (up_rows w) ds c x (wf_up_side _ _ _ Hwf)); try done; [by intros; apply ready_up|by apply Hids|lia|].
      eapply Forall_impl; [exact Hrows|]. by intros ? [_ ?]. }
    exists (S (length ds), (fwd', rev')). split.
    + unfold start_compute. rewrite Create_ok by (rewrite Hbase, ?Hwid, ?Htid; lia || done). cbn [mbind result_bind].
      unfold ThreadInitHandler. cbn [fst snd down_writer_ up_writer_ with_base]. rewrite EA. cbn [mbind result_bind]. rewrite EB. cbn [mbind result_bind].
      rewrite (Happ _ Hlt). done.
    + cbn [fst snd]. split_and!; [rewrite length_app; simpl; lia|done|done].
  - exists fwd, rev. cbn [fst snd] in *. by rewrite Ht in Hrun.
Qed.

(** ** When a worker starts *)

(** The worker has an id and all its threads; each compute thread is told of
    upstream or downstream workers exactly when the up or the down thread has
    some; the down thread was given its destinations; the affinity names
    threads that exist; the handlers of the threads return, and recovery has a
    backup server to ask. *)
Definition consistent (cpu_affinity : option cstr) (recovery : Z) (backup_client : bool) (w : Worker) : Prop :=
  worker_id_ w <> -1 /\
  (Z.to_nat (w_num_compute_thread_ w) <= length (compute_threads_ w))%nat /\
  (exists u, up_thread_ w = Some u /\ Forall (fun c => 0 < num_upstream_ c <-> (0 < up_fan u)%nat) (started w)) /\
  match down_thread_ w with
  | None => Forall (fun c => num_downstream_ c <= 0) (started w)
  | Some d => Forall (fun c => 0 < num_downstream_ c <-> (0 < down_fan d)%nat) (started w) /\
              (started w <> [] -> (down_fan d <= length (d_out_callbacks_ d))%nat)
  end /\
  (forall s, cpu_affinity = Some s -> affinity_ok s w) /\
  up_init = Ok tt /\ (forall t, (t < length (started w))%nat -> app_init t = Ok tt) /\
  (is_Some (down_thread_ w) -> down_init = Ok tt) /\
  (0 < recovery -> backup_client = true).

Lemma side_consistent d cbs f (num : ComputeThread -> Z) l :
  Forall (fun c => is_Some (f c) <-> 0 < num c) l ->
  (Forall (fun c => connectable d cbs (f c)) l /\ Forall (fun c => is_Some (f c) -> take d (cb_own <$> cbs) <> []) l) <->
  (Forall (fun c => 0 < num c <-> (0 < d)%nat) l /\ (l <> [] -> (d <= length cbs)%nat)).
Proof.
  intros Hs. rewrite !Forall_forall in *. split.
  - intros [H1 H2]. split.
    + intros c Hc. specialize (H1 c Hc). specialize (H2 c Hc). specialize (Hs c Hc). rewrite <- Hs. split.
      * intros Hw. specialize (H2 Hw). destruct d; [done|lia].
      * intros Hd. destruct H1 as [->|[H1 _]]; [lia|done].
    + intros Hl. destruct l as [|c l]; [done|]. destruct (H1 c (list_elem_of_here _ _)) as [->|[_ Hd]]; [lia|done].
  - intros [H1 H2]. split; intros c Hc; specialize (H1 c Hc); specialize (Hs c Hc);
      assert (Hd : (d <= length cbs)%nat) by (apply H2; intros ->; by apply not_elem_of_nil in Hc).
    + destruct d as [|d]; [by left|]. right. split; [|done]. apply Hs, H1. lia.
    + intros Hw E. apply Hs, H1 in Hw. apply (f_equal length) in E. rewrite length_take, length_fmap in E. simpl in E. lia.
Qed.

Lemma map_state_at {S} (f : ComputeThread -> S -> result (ComputeThread * S)) (J : nat -> S -> Prop) cts s r k :
  J k s -> (forall t c s c' s', J t s -> f c s = Ok (c', s') -> J (Datatypes.S t) s') -> map_state f cts s = Ok r ->
  forall t c, cts !! t = Some c -> exists s r, J (k + t)%nat s /\ f c s = Ok r.
Proof.
  intros HJ Hstep. revert k s r HJ. induction cts as [|c cts IH]; intros k s r HJ Hr t c' Hc; [done|].
  cbn [map_state] in Hr. destruct (f c s) as [[c1 s1]|] eqn:E; [|done]. cbn [mbind result_bind] in Hr.
  destruct (map_state f cts s1) as [[l' s2]|] eqn:E2; [|done]. destruct t as [|t]; simpl in Hc.
  - injection Hc as <-. exists s, (c1, s1). by rewrite Nat.add_0_r.
  - destruct (IH (Datatypes.S k) s1 _ (Hstep _ _ _ _ _ HJ E) E2 t c' Hc) as (s3 & r3 & HJ3 & E3).
    exists s3, r3. by rewrite Nat.add_succ_r.
Qed.

Lemma init_writer_inv {T} (slot : Z -> T) wr h r x : init_writer slot wr h = Ok r -> wr = Some x -> Mpsc.writer_id x <> -1.
Proof.
  intros Hr ->. cbn [init_writer] in Hr. unfold Mpsc.Writer_Init in Hr. destruct (Z.eqb_spec (Mpsc.writer_id x) (-1)); [done|done].
Qed.

Lemma start_compute_inv c t hs r :
  start_compute c (t, hs) = Ok r ->
  (forall x, down_writer_ c = Some x -> Mpsc.writer_id x <> -1) /\ (forall x, up_writer_ c = Some x -> Mpsc.writer_id x <> -1) /\
  app_init t = Ok tt /\ r.2.1 = S t.
Proof.
  intros Hr. unfold start_compute in Hr. destruct (Create (c_base c)) as [b|]; [|done]. cbn [mbind result_bind] in Hr.
  unfold ThreadInitHandler in Hr. cbn [down_writer_ up_writer_ with_base] in Hr.
  destruct (init_writer (slot_a t) (down_writer_ c) hs.1) as [[dw fwd]|] eqn:EA; [|done]. cbn [mbind result_bind] in Hr.
  destruct (init_writer (slot_b t) (up_writer_ c) hs.2) as [[uw rev]|] eqn:EB; [|done]. cbn [mbind result_bind] in Hr.
  destruct (app_init t) as [[]|]; [|done]. cbn [mbind result_bind] in Hr. injection Hr as <-.
  split_and!; [intros x Hx; exact (init_writer_inv _ _ _ _ x EA Hx)|intros x Hx; exact (init_writer_inv _ _ _ _ x EB Hx)|done|done].
Qed.

(** The worker when its threads are released. *)
Definition final_worker (w : Worker) (u : UpThread) bs ub db cpu fwd rev : Worker :=
  mkworker (worker_id_ w) (w_num_compute_thread_ w)
    ((started_thread <$> imap (ready_thread w u bs) (started w)) ++
     drop (Z.to_nat (w_num_compute_thread_ w)) (imap (fun t c => with_base (fun _ => bs t) c) (compute_threads_ w)))
    (Some (up_with (mkup (set_thr_id (tid_ ub) ub) (u_kind u)) (length (started w))
             (linked (up_fan u) (owns up_writer_ (started w)) (up_cbs u))))
    ((fun d => mkdown (set_thr_id (tid_ db) db) (num_compute_thread_ d) (d_support_feedback_ d)
                 (more_queues (length (started w)) r_in_ring (d_in_callback_ d))
                 (linked (down_fan d) (owns down_writer_ (started w)) (d_out_callbacks_ d)) (d_net d)) <$> down_thread_ w)
    cpu fwd rev.

(** Readable and technical form of consistency. *)
Lemma consistent_connectable w ka kb u :
  wf w ka kb -> up_thread_ w = Some u ->
  (up_connectable w u /\ down_connectable w /\
   Forall (fun c => (is_Some (down_writer_ c) -> down_rows w <> []) /\ (is_Some (up_writer_ c) -> up_rows w <> [])) (started w)) <->
  Forall (fun c => 0 < num_upstream_ c <-> (0 < up_fan u)%nat) (started w) /\
  match down_thread_ w with
  | None => Forall (fun c => num_downstream_ c <= 0) (started w)
  | Some d => Forall (fun c => 0 < num_downstream_ c <-> (0 < down_fan d)%nat) (started w) /\
              (started w <> [] -> (down_fan d <= length (d_out_callbacks_ d))%nat)
  end.
Proof.
  intros Hwf Hu.
  assert (Hws : forall k f num cbs, side_ok k f num (compute_threads_ w) cbs -> Forall (fun c => is_Some (f c) <-> 0 < num c) (started w)).
  { intros k f num cbs Hs. pose proof (side_writers _ _ _ _ _ Hs) as Hw. rewrite Forall_forall in *. intros c Hc. by apply Hw, in_started. }
  pose proof (Hws _ _ _ _ (wf_up_side _ _ _ Hwf)) as Hup. pose proof (Hws _ _ _ _ (wf_down_side _ _ _ Hwf)) as Hdn.
  destruct (wf_up _ _ _ Hwf u Hu) as [_ Hlen]. pose proof (side_consistent (up_fan u) (up_cbs u) _ _ _ Hup) as Su.
  assert (Hfan : (up_fan u <= length (up_cbs u))%nat) by (unfold up_fan; destruct (IsReverse u); lia).
  unfold up_connectable, down_connectable, up_rows, down_rows. rewrite Hu, !Forall_and.
  destruct (down_thread_ w) as [d|].
  - pose proof (side_consistent (down_fan d) (d_out_callbacks_ d) _ _ _ Hdn) as Sd. tauto.
  - assert (Hnone : Forall (fun c => is_Some (down_writer_ c) -> ([] : list Z) <> []) (started w) <-> Forall (fun c => num_downstream_ c <= 0) (started w)).
    { rewrite !Forall_forall in *. split; intros H c Hc; specialize (H c Hc); specialize (Hdn c Hc).
      - destruct (decide (num_downstream_ c <= 0)); [done|]. exfalso. apply H; [apply Hdn; lia|done].
      - intros Hs. apply Hdn in Hs. lia. }
    tauto.
Qed.

Lemma take_ready w u bs ub db cpu ka kb :
  (Z.to_nat (w_num_compute_thread_ w) <= length (compute_threads_ w))%nat ->
  started (ready_worker w u bs ub db cpu ka kb) = imap (ready_thread w u bs) (started w) /\
  drop (Z.to_nat (w_num_compute_thread_ w)) (compute_threads_ (ready_worker w u bs ub db cpu ka kb)) =
    drop (Z.to_nat (w_num_compute_thread_ w)) (imap (fun t c => with_base (fun _ => bs t) c) (compute_threads_ w)).
Proof.
  intros Hn. cbn [ready_worker compute_threads_ w_num_compute_thread_].
  assert (E : Z.to_nat (w_num_compute_thread_ w) = length (imap (ready_thread w u bs) (started w))) by (rewrite length_imap, length_take; lia).
  split; [by rewrite take_app_length'|by rewrite drop_app_length'].
Qed.

Lemma launch_ok w ka kb affinity recovery backup :
  wf w ka kb -> 0 <= w_num_compute_thread_ w < 2 ^ 31 -> consistent affinity recovery backup w ->
  exists u bs ub db cpu fwd rev, up_thread_ w = Some u /\ has_ids w bs ub db /\
    launch affinity recovery backup w = Ok (final_worker w u bs ub db cpu fwd rev) /\
    filled zero_a ka (mesh (down_rows w) (owns down_writer_ (started w))) slot_a down_writer_ (imap (ready_thread w u bs) (started w)) fwd /\
    filled zero_b kb (mesh (up_rows w) (owns up_writer_ (started w))) slot_b up_writer_ (imap (ready_thread w u bs) (started w)) rev.
Proof.
  intros Hwf Hn (Hid & Hlen & (u & Hu & Hcu) & Hcd & Ha & Hui & Hai & Hdi & Hrec).
  destruct (proj2 (consistent_connectable w ka kb u Hwf Hu) (conj Hcu Hcd)) as (Hup & Hdown & Hrows).
  destruct (proj1 (setup_spec w ka kb u affinity Hwf Hu)) as (bs & ub & db & cpu & Hset & Hids); [done|].
  destruct (start_loop w ka kb u bs ub db Hwf Hu Hids Hid ltac:(lia) Hrows Hai) as (fwd & rev & Hrun & HA & HB).
  destruct (take_ready w u bs ub db cpu ka kb Hlen) as [Ht Hd].
  exists u, bs, ub, db, cpu, fwd, rev. split_and!; [done|done| |done|done].
  destruct Hids as (_ & Hw1 & Ht1 & Hw2 & Ht2).
  unfold launch. rewrite Hset. cbn [mbind result_bind]. unfold create_threads.
  change (up_thread_ (ready_worker w u bs ub db cpu ka kb)) with
    (Some (up_with (mkup ub (u_kind u)) (length (started w)) (linked (up_fan u) (owns up_writer_ (started w)) (up_cbs u)))).
  cbn [u_base up_with]. rewrite Create_ok by lia. cbn [mbind result_bind]. rewrite Hui. cbn [mbind result_bind].
  rewrite for_threads_ok, Ht by (by cbn [ready_worker compute_threads_ w_num_compute_thread_];
    rewrite length_app, length_imap, length_drop, length_imap, length_take; lia).
  change (fwd_ (ready_worker w u bs ub db cpu ka kb)) with (tallied zero_a ka (mesh (down_rows w) (owns down_writer_ (started w)))).
  change (rev_ (ready_worker w u bs ub db cpu ka kb)) with (tallied zero_b kb (mesh (up_rows w) (owns up_writer_ (started w)))).
  change (w_num_compute_thread_ (ready_worker w u bs ub db cpu ka kb)) with (w_num_compute_thread_ w).
  rewrite Hrun, Hd. cbn [mbind result_bind set_stores set_up set_threads down_thread_ ready_worker].
  assert (Hr : (0 <? recovery) && negb backup = false) by (destruct (Z.ltb_spec 0 recovery); [rewrite Hrec by done|]; done).
  rewrite Hr. unfold final_worker. destruct (down_thread_ w) as [d|] eqn:Hdw; cbn [fmap option_fmap option_map].
  - cbn [d_base]. rewrite Create_ok by lia. cbn [mbind result_bind]. rewrite Hdi by done. done.
  - cbn [mbind result_bind]. unfold ready_worker, set_stores, set_up, set_threads. cbn [down_thread_]. by rewrite Hdw.
Qed.

Lemma launch_inv w ka kb affinity recovery backup r :
  wf w ka kb -> 0 <= w_num_compute_thread_ w < 2 ^ 31 -> launch affinity recovery backup w = Ok r ->
  consistent affinity recovery backup w.
Proof.
  intros Hwf Hn Hr. unfold launch in Hr. destruct (setup affinity w) as [w1|] eqn:Hset; [|done]. cbn [mbind result_bind] in Hr.
  destruct (up_thread_ w) as [u|] eqn:Hu.
  2:{ unfold setup, assign_ids in Hset. by rewrite Hu in Hset. }
  destruct (setup_spec w ka kb u affinity Hwf Hu) as [S1 S2].
  pose proof (S2 w1 Hset) as (Hlen & Ha & Hup & Hdown).
  destruct S1 as (bs & ub & db & cpu & Hset' & Hids); [done|]. rewrite Hset in Hset'. injection Hset' as ->.
  destruct (create_threads _) as [w2|] eqn:Hc in Hr; [|done]. cbn [mbind result_bind] in Hr.
  destruct (take_ready w u bs ub db cpu ka kb Hlen) as [Ht Hd].
  unfold create_threads in Hc.
  change (up_thread_ (ready_worker w u bs ub db cpu ka kb)) with
    (Some (up_with (mkup ub (u_kind u)) (length (started w)) (linked (up_fan u) (owns up_writer_ (started w)) (up_cbs u)))) in Hc.
  cbn [u_base up_with] in Hc. destruct (Create ub) as [ub'|] eqn:Hcu; [|done]. cbn [mbind result_bind] in Hc.
  destruct up_init as [[]|] eqn:Hui; [|done]. cbn [mbind result_bind] in Hc.
  rewrite for_threads_ok, Ht in Hc by (by cbn [ready_worker compute_threads_ w_num_compute_thread_];
    rewrite length_app, length_imap, length_drop, length_imap, length_take; lia).
  destruct (map_state start_compute _ _) as [[cts s']|] eqn:Hmap in Hc; [|done]. cbn [mbind result_bind] in Hc. destruct s' as [k [fwd rev]].
  assert (Heach : forall t c, started w !! t = Some c ->
    (is_Some (down_writer_ c) -> down_rows w <> []) /\ (is_Some (up_writer_ c) -> up_rows w <> []) /\ app_init t = Ok tt).
  { intros t c Hc0. destruct (fun H0 H1 => map_state_at start_compute (fun t s => s.1 = t) _ _ _ 0%nat H0 H1 Hmap t (ready_thread w u bs t c))
      as (s & r' & Hst & Hrun).
    - done.
    - intros t' c' [t0 hs] c1 s1 <- Hs. by apply start_compute_inv in Hs as (_ & _ & _ & ?).
    - by rewrite list_lookup_imap, Hc0.
    - destruct s as [t0 hs]. cbn [fst] in Hst. subst t0. apply start_compute_inv in Hrun as (H1 & H2 & H3 & _).
      assert (Hin : c ∈ compute_threads_ w) by (apply in_started; by eapply list_elem_of_lookup_2).
      rewrite ready_down in H1. rewrite (ready_up _ _ _ _ _ Hu) in H2. split_and!; [| |done].
      + intros [x Hx] Hnil. rewrite Hx, Hnil in H1. apply (H1 x eq_refl).
        pose proof (side_writers _ _ _ _ _ (wf_down_side _ _ _ Hwf)) as Hs. rewrite Forall_forall in Hs. by apply Hs with c.
      + intros [x Hx] Hnil. rewrite Hx, Hnil in H2. apply (H2 x eq_refl).
        pose proof (side_writers _ _ _ _ _ (wf_up_side _ _ _ Hwf)) as Hs. rewrite Forall_forall in Hs. by apply Hs with c. }
  destruct (proj1 (consistent_connectable w ka kb u Hwf Hu)) as [Hcu' Hcd].
  { split_and!; [done|done|]. apply Forall_lookup. intros t c Hc0. destruct (Heach t c Hc0) as (? & ? & _). done. }
  split_and!; try done.
  - apply Create_inv in Hcu. destruct Hids as (_ & Hw1 & _). congruence.
  - by exists u.
  - intros t Hlt. destruct (lookup_lt_is_Some_2 (started w) t Hlt) as [c Hc0]. by apply (Heach t c Hc0).
  - intros [d Hdw]. cbn [set_stores set_up set_threads down_thread_ ready_worker] in Hc. rewrite Hdw in Hc. cbn [fmap option_fmap option_map] in Hc.
    destruct (Create _) as [b|] in Hc; [|done]. cbn [mbind result_bind] in Hc. by destruct down_init as [[]|].
  - intros Hrec. destruct backup; [done|]. by rewrite (proj2 (Z.ltb_lt _ _) Hrec) in Hr.
Qed.

(** ** The channels of a started worker *)

(** Writer [t] and reader [i] are each other's peer: what the writer sends to
    [i] goes into ring [t] of the reader's queue, which has a ring for each of the
    [n] threads, and what the reader returns to [t] goes into ring [i] of the
    writer's queue, which has a ring for each of the [d] readers. *)
Definition linked_pair {T} (h : Mpsc.store T) (n d t i : nat) (x : Mpsc.MPSCWriter) (cb : Callbacks.OutCallbackSimple) : Prop :=
  Mpsc.writer_id x = Z.of_nat t /\ Mpsc.reader_id (Callbacks.reader_ cb) = Z.of_nat i /\
  Mpsc.peers (Mpsc.w_obj x) !! i = Some (cb_own cb) /\
  Mpsc.peers (Mpsc.r_obj (Callbacks.reader_ cb)) !! t = Some (w_own x) /\
  (exists lq, at_index h (cb_own cb) = Ok lq /\ length (Mpsc.q_ lq) = n) /\
  (exists lq, at_index h (w_own x) = Ok lq /\ length (Mpsc.q_ lq) = d).

Lemma count_notin p l : p ∉ l -> count p l = 0%nat.
Proof.
  induction l as [|x l IH]; intros Hp; [done|]. apply not_elem_of_cons in Hp as [Hx Hp].
  rewrite count_cons, decide_False by done. by rewrite IH.
Qed.

Lemma count_once p l : NoDup l -> p ∈ l -> count p l = 1%nat.
Proof.
  induction 1 as [|x l Hx _ IH]; intros Hp; [by apply not_elem_of_nil in Hp|]. rewrite count_cons.
  apply elem_of_cons in Hp as [->|Hp]; [by rewrite decide_True, count_notin|].
  rewrite decide_False by (by intros ->). by rewrite IH.
Qed.

Lemma owns_lookup f l t c x :
  Forall (fun c => is_Some (f c)) l -> l !! t = Some c -> f c = Some x -> owns f l !! t = Some (w_own x).
Proof.
  intros Hall. revert t. induction Hall as [|c0 l [x0 Hx0] _ IH]; intros t Ht Hx; [done|].
  rewrite owns_cons, Hx0. destruct t as [|t]; simpl in *; [by simplify_eq|]. by apply IH.
Qed.

Lemma length_owns f l : Forall (fun c => is_Some (f c)) l -> length (owns f l) = length l.
Proof. induction 1 as [|c l [x Hx] _ IH]; [done|]. rewrite owns_cons, Hx. simpl. by rewrite IH. Qed.

Lemma side_linked {T} (zero : T) k f num cts cbs n d (h : nat -> ComputeThread -> ComputeThread) (tids : nat -> Z) slot st :
  let rows := take d (cb_own <$> cbs) in
  let l := take n cts in
  side_ok k f num cts cbs -> Forall (fun c => is_Some (f c)) l -> (d <= length cbs)%nat ->
  (forall t c, f (h t c) = link_writer (s32 (tids t)) rows <$> f c) ->
  (forall t, (t < length l)%nat -> tids t = Z.of_nat t) -> Z.of_nat n <= 2 ^ 31 ->
  filled zero k (mesh rows (owns f l)) slot f (imap h l) st ->
  forall t c i cb, l !! t = Some c -> linked d (owns f l) cbs !! i = Some cb -> (i < d)%nat ->
  exists x, f (h t c) = Some x /\ linked_pair st (length l) d t i (bump x) cb.
Proof.
  intros rows l Hs Hall Hd Hh Htid Hn (Hlen & Hrings & _) t c i cb Ht Hcb Hi.
  rewrite linked_lookup, decide_True in Hcb by done. destruct (cbs !! i) as [cb0|] eqn:Hcb0; [|done]. injection Hcb as <-.
  pose proof (lookup_lt_Some _ _ _ Ht) as Hlt. pose proof (list_elem_of_lookup_2 _ _ _ Ht) as Hin.
  destruct (Forall_lookup_1 _ _ _ _ Hall Ht) as [x0 Hx0].
  assert (Hrow : rows !! i = Some (cb_own cb0)) by (unfold rows; rewrite lookup_take_lt, list_lookup_fmap, Hcb0 by done; done).
  assert (Hlr : length rows = d) by (unfold rows; rewrite length_take, length_fmap; lia).
  pose proof (owns_lookup f l t c x0 Hall Ht Hx0) as Hown.
  assert (Hc_in : c ∈ cts) by (unfold l in Ht; apply lookup_take_Some in Ht as [Ht _]; by eapply list_elem_of_lookup_2).
  destruct (proj1 (Forall_forall _ _) (side_writers _ _ _ _ _ Hs) c Hc_in) as [_ Hfresh]. destruct (Hfresh x0 Hx0) as [Hpeers _].
  pose proof (Forall_lookup_1 _ _ _ _ (side_readers _ _ _ _ _ Hs) Hcb0) as Hrpeers. cbn beta in Hrpeers.
  exists (link_writer (s32 (tids t)) rows x0). split; [by rewrite Hh, Hx0|].
  assert (Hdist : NoDup (owns f l ++ rows)).
  { pose proof (side_distinct _ _ _ _ _ Hs) as Hnd. rewrite <- (take_drop n cts), <- (take_drop d (cb_own <$> cbs)), owns_app in Hnd.
    fold l rows in Hnd. apply NoDup_app in Hnd as (H1 & H2 & H3). apply NoDup_app in H1 as (H1 & _ & _). apply NoDup_app in H3 as (H3 & _ & _).
    apply NoDup_app. split_and!; [done| |done]. intros y Hy Hy'. apply (H2 y); apply elem_of_app; by left. }
  apply NoDup_app in Hdist as (Hnd1 & Hnd2 & Hnd3).
  assert (Hmw : w_own x0 ∈ owns f l) by (by eapply list_elem_of_lookup_2).
  assert (Hmr : cb_own cb0 ∈ rows) by (by eapply list_elem_of_lookup_2).
  assert (Hring : forall q, in_store k q -> exists lq, at_index st q = Ok lq /\ length (Mpsc.q_ lq) = count q (mesh rows (owns f l))).
  { intros q [Hq1 Hq2]. destruct (Hrings (Z.to_nat q) ltac:(lia)) as (lq & Hlq & Hc). exists lq. rewrite Z2Nat.id in Hc by lia.
    split; [|done]. by apply at_index_ok. }
  assert (Hne : rows <> []) by (by intros E; rewrite E in Hrow).
  assert (Hone : owns f l <> []) by (by intros E; rewrite E in Hown).
  unfold linked_pair. rewrite link_reader_own. change (w_own (bump ?y)) with (w_own y). rewrite link_writer_own. split_and!.
  - destruct rows as [|row rows']; [done|]. cbn [link_writer bump Mpsc.writer_id]. rewrite (Htid t Hlt), (signed_of_small 32); [done|lia|].
    unfold l in Hlt. rewrite length_take in Hlt. split; simpl; lia.
  - by destruct (owns f l).
  - destruct rows as [|row rows']; [done|]. cbn [link_writer bump Mpsc.w_obj Mpsc.peers]. by rewrite Hpeers.
  - destruct (owns f l) as [|y ys]; [done|]. cbn [link_reader Callbacks.reader_ Mpsc.r_obj Mpsc.peers]. by rewrite Hrpeers.
  - destruct (Hring (cb_own cb0)) as (lq & Hlq & Hc); [apply (Forall_lookup_1 _ _ i _ (side_reader_in_store _ _ _ _ _ Hs)); by rewrite list_lookup_fmap, Hcb0|].
    exists lq. split; [done|]. rewrite Hc, count_mesh, (count_notin _ (owns f l)), (count_once _ rows), (length_owns f l) by (try done; by intros ?; eapply Hnd2).
    lia.
  - destruct (Hring (w_own x0)) as (lq & Hlq & Hc); [by apply (side_writer_in_store _ _ _ _ _ c x0 Hs)|].
    exists lq. split; [done|]. rewrite Hc, count_mesh, (count_once _ (owns f l)), (count_notin _ rows) by (try done; by apply Hnd2).
    lia.
Qed.

(** A write to a linked reader reaches the writer's own ring of that reader. *)
Lemma linked_write {T} (h : Mpsc.store T) n d t i x cb (a : T) :
  linked_pair h n d t i x cb -> (t < n)%nat ->
  exists lq rb, at_index h (cb_own cb) = Ok lq /\ Mpsc.q_ lq !! t = Some rb /\
    Mpsc.Write h x (Z.of_nat i) a =
      match Ring.Insert rb a with
      | Some rb' => Ok (<[Z.to_nat (cb_own cb) := Mpsc.set_ring lq (Z.of_nat t) rb']> h)
      | None => Stop WouldBlock
      end.
Proof.
  intros (Hid & _ & Hp & _ & (lq & Hlq & Hl) & _) Ht.
  destruct (lookup_lt_is_Some_2 (Mpsc.q_ lq) t) as [rb Hrb]; [lia|]. exists lq, rb. split_and!; [done|done|].
  unfold Mpsc.Write, Mpsc.peer_push. rewrite (proj2 (at_index_ok _ _ (cb_own cb))) by (split; [lia|by rewrite Nat2Z.id]).
  cbn [mbind result_bind]. unfold Mpsc.on_queue. rewrite Hlq, Hid. cbn [mbind result_bind]. unfold Mpsc.push_unit, Mpsc.push.
  rewrite (proj2 (at_index_ok (Mpsc.q_ lq) (Z.of_nat t) rb)) by (split; [lia|by rewrite Nat2Z.id]). cbn [mbind result_bind].
  by destruct (Ring.Insert rb a).
Qed.

Lemma all_slots_imap {T} (slot : nat -> Z -> T) f (h : nat -> ComputeThread -> ComputeThread) l :
  (forall t c, is_Some (f (h t c)) <-> is_Some (f c)) -> all_slots slot f (imap h l) = all_slots slot f l.
Proof.
  intros Hh. unfold all_slots. f_equal. apply list_eq. intros t. rewrite !list_lookup_imap.
  destruct (l !! t) as [c|]; [|done]. cbn [fmap option_fmap option_map]. f_equal. specialize (Hh t c).
  destruct (f (h t c)) as [x|], (f c) as [y|]; [reflexivity| | |reflexivity]; exfalso.
  - by destruct (proj1 Hh (mk_is_Some (Some x) x eq_refl)).
  - by destruct (proj2 Hh (mk_is_Some (Some y) y eq_refl)).
Qed.

Lemma all_slots_distinct {T} (slot : nat -> Z -> T) f l :
  (forall t t' d d', slot t d = slot t' d' -> t = t' /\ d = d') -> NoDup (all_slots slot f l).
Proof.
  intros Hinj.
  assert (Hfrom : forall l y, y ∈ all_slots slot f l -> exists t d, (t < length l)%nat /\ y = slot t d).
  { intros l' y Hy. unfold all_slots in Hy. apply elem_of_concat in Hy as (ys & Hys & Hy). apply elem_of_imap in Hys as (t & c & Ht & ->).
    destruct (f c); [|by apply not_elem_of_nil in Hy]. apply list_elem_of_fmap in Hy as (d & -> & _).
    exists t, d. split; [|done]. by eapply lookup_lt_Some. }
  induction l as [|c ds IH] using rev_ind; [constructor|]. rewrite all_slots_snoc. apply NoDup_app. split_and!; [done| |].
  - intros y Hy Hy'. destruct (Hfrom ds y Hy) as (t & d & Ht & ->). destruct (f c); [|by apply not_elem_of_nil in Hy'].
    apply list_elem_of_fmap in Hy' as (d' & E & _). apply Hinj in E as [-> _]. lia.
  - destruct (f c); [|constructor]. apply (NoDup_fmap_2_strong (slot (length ds))); [|apply NoDup_seqZ].
    intros d d' _ _ E. by apply Hinj in E as [_ ->].
Qed.

(** ** Theorems *)


(** The ids of a started thread, its input rings and its channels. *)
Record thread_wired (w w' : Worker) (t : nat) (c' : ComputeThread) : Prop := mkwired {
  wired_ids : wid_ (c_base c') = worker_id_ w /\ tid_ (c_base c') = Z.of_nat t /\ thr_id_ (c_base c') = Z.of_nat t;
  wired_in : in_queue_ c' = Some (Z.of_nat t);
  wired_r_in : is_Some (down_thread_ w) -> r_in_queue_ c' = Some (Z.of_nat t);
  wired_down d i cb : down_thread_ w' = Some d -> d_out_callbacks_ d !! i = Some cb -> (i < down_fan d)%nat ->
    exists x, down_writer_ c' = Some x /\ linked_pair (fwd_ w') (length (started w)) (down_fan d) t i x cb;
  wired_up u i cb : up_thread_ w' = Some u -> up_cbs u !! i = Some cb -> (i < up_fan u)%nat ->
    exists x, up_writer_ c' = Some x /\ linked_pair (rev_ w') (length (started w)) (up_fan u) t i x cb
}.

(** The two directions of a started thread's channels. *)
Lemma final_down_linked affinity recovery backup w ka kb u bs ub db cpu fwd rev t c d i cb :
  wf w ka kb -> w_num_compute_thread_ w < 2 ^ 31 -> has_ids w bs ub db -> consistent affinity recovery backup w ->
  filled zero_a ka (mesh (down_rows w) (owns down_writer_ (started w))) slot_a down_writer_ (imap (ready_thread w u bs) (started w)) fwd ->
  started w !! t = Some c -> down_thread_ (final_worker w u bs ub db cpu fwd rev) = Some d ->
  d_out_callbacks_ d !! i = Some cb -> (i < down_fan d)%nat ->
  exists x, down_writer_ (started_thread (ready_thread w u bs t c)) = Some x /\ linked_pair fwd (length (started w)) (down_fan d) t i x cb.
Proof.
  intros Hwf Hn (Hids & _) (_ & _ & (u1 & Hu1 & Hcu) & Hcd & _) HA Ht Hd' Hcb Hi.
  destruct (proj2 (consistent_connectable w ka kb u1 Hwf Hu1) (conj Hcu Hcd)) as (_ & Hdown & _).
  cbn [final_worker down_thread_] in Hd'. unfold down_connectable, down_rows in *.
  pose proof (wf_down_side _ _ _ Hwf) as Hside. unfold worker_down_cbs in Hside.
  destruct (down_thread_ w) as [d0|] eqn:Hd; [|done]. injection Hd' as <-. cbn [d_out_callbacks_] in Hcb.
  change (down_fan _) with (down_fan d0) in Hi. destruct Hcd as [_ Hdl].
  destruct (side_linked zero_a ka down_writer_ num_downstream_ (compute_threads_ w) (d_out_callbacks_ d0)
    (Z.to_nat (w_num_compute_thread_ w)) (down_fan d0) (ready_thread w u bs) (fun t => tid_ (bs t)) slot_a fwd) with (t := t) (c := c) (i := i) (cb := cb)
    as (x & Hx & Hpair); try done; try lia.
  - eapply Forall_impl; [exact Hdown|]. intros c0 [E|[E _]]; [lia|done].
  - apply Hdl. by intros E; rewrite E in Ht.
  - intros t' c'. rewrite ready_down. unfold down_rows. by rewrite Hd.
  - by apply Hids.
  - exists (bump x). split; [|done]. unfold started_thread. cbn [down_writer_ set_up_writer set_down_writer]. by rewrite Hx.
Qed.

Lemma final_up_linked affinity recovery backup w ka kb u bs ub db cpu fwd rev t c u' i cb :
  wf w ka kb -> w_num_compute_thread_ w < 2 ^ 31 -> has_ids w bs ub db -> consistent affinity recovery backup w ->
  filled zero_b kb (mesh (up_rows w) (owns up_writer_ (started w))) slot_b up_writer_ (imap (ready_thread w u bs) (started w)) rev ->
  up_thread_ w = Some u -> started w !! t = Some c -> up_thread_ (final_worker w u bs ub db cpu fwd rev) = Some u' ->
  up_cbs u' !! i = Some cb -> (i < up_fan u')%nat ->
  exists x, up_writer_ (started_thread (ready_thread w u bs t c)) = Some x /\ linked_pair rev (length (started w)) (up_fan u') t i x cb.
Proof.
  intros Hwf Hn (Hids & _) (_ & _ & (u1 & Hu1 & Hcu) & Hcd & _) HB Hu Ht Hu' Hcb Hi. rewrite Hu in Hu1. injection Hu1 as <-.
  destruct (proj2 (consistent_connectable w ka kb u Hwf Hu) (conj Hcu Hcd)) as (Hup & _ & _).
  destruct (wf_up _ _ _ Hwf u Hu) as [_ Hulen].
  cbn [final_worker up_thread_] in Hu'. unfold up_connectable, up_rows in *. rewrite Hu in HB.
  pose proof (wf_up_side _ _ _ Hwf) as Hside. unfold worker_up_cbs in Hside. rewrite Hu in Hside.
  set (cbs := linked (up_fan u) (owns up_writer_ (started w)) (up_cbs u)) in Hu'. injection Hu' as <-.
  set (u2 := up_with _ _ cbs) in *.
  assert (Hcbs : up_cbs u2 = cbs).
  { unfold u2, cbs, up_with, up_cbs. cbn [u_kind]. destruct (u_kind u); [|done]. apply list_eq. intros j. rewrite linked_lookup. by destruct (decide _). }
  assert (Hfan : up_fan u2 = up_fan u).
  { unfold up_fan, u2. by destruct (up_with_parts (mkup (set_thr_id (tid_ ub) ub) (u_kind u)) (length (started w)) cbs) as (-> & -> & _). }
  rewrite Hcbs in Hcb. rewrite Hfan in *.
  destruct (side_linked zero_b kb up_writer_ num_upstream_ (compute_threads_ w) (up_cbs u)
    (Z.to_nat (w_num_compute_thread_ w)) (up_fan u) (ready_thread w u bs) (fun t => tid_ (bs t)) slot_b rev) with (t := t) (c := c) (i := i) (cb := cb)
    as (x & Hx & Hpair); try done; try lia.
  - eapply Forall_impl; [exact Hup|]. intros c0 [E|[E _]]; [lia|done].
  - rewrite Hulen. unfold up_fan. destruct (IsReverse u); lia.
  - intros t' c'. rewrite (ready_up _ _ _ _ _ Hu). unfold up_rows. by rewrite Hu.
  - by apply Hids.
  - exists (bump x). split; [|done]. unfold started_thread. cbn [up_writer_ set_up_writer]. by rewrite Hx.
Qed.

Lemma launch_wired affinity recovery backup w w' :
  built w -> 0 <= w_num_compute_thread_ w < 2 ^ 31 -> launch affinity recovery backup w = Ok w' ->
  (forall t c, started w !! t = Some c -> exists c', compute_threads_ w' !! t = Some c' /\ thread_wired w w' t c') /\
  (forall u, up_thread_ w' = Some u -> length (out_queues u) = length (started w)) /\
  (forall d, down_thread_ w' = Some d -> length (Callbacks.queues_ (d_in_callback_ d)) = length (started w)).
Proof.
  intros Hb Hn Hl. destruct (built_wf w Hb) as (ka & kb & Hwf). pose proof (launch_inv _ _ _ _ _ _ _ Hwf Hn Hl) as Hc.
  destruct (launch_ok w ka kb _ _ _ Hwf Hn Hc) as (u & bs & ub & db & cpu & fwd & rev & Hu & Hids & Hl' & HA & HB).
  rewrite Hl in Hl'. injection Hl' as ->.
  destruct (wf_up _ _ _ Hwf u Hu) as [Hq0 Hulen]. split_and!.
  - intros t c Ht. pose proof (lookup_lt_Some _ _ _ Ht) as Hlt. destruct (proj1 Hids t Hlt) as [Hwid Htid].
    exists (started_thread (ready_thread w u bs t c)). split.
    { cbn [final_worker compute_threads_]. rewrite lookup_app_l by (by rewrite length_fmap, length_imap).
      by rewrite list_lookup_fmap, list_lookup_imap, Ht. }
    split.
    + unfold started_thread. cbn [c_base set_up_writer set_down_writer with_base]. rewrite ready_base. by split_and!.
    + unfold started_thread. cbn [in_queue_ set_up_writer set_down_writer with_base]. unfold ready_thread, down_stage.
      assert (E : in_queue_ (up_linked u t (with_base (fun _ => bs t) c)) = Some (Z.of_nat t)).
      { cbn [in_queue_ up_linked set_up_writer set_in_queue]. by rewrite Hq0. }
      by destruct (down_thread_ w).
    + intros [d Hd]. unfold started_thread. cbn [r_in_queue_ set_up_writer set_down_writer with_base]. unfold ready_thread, down_stage.
      rewrite Hd. cbn [r_in_queue_ down_linked set_r_in_queue]. destruct (wf_down _ _ _ Hwf d Hd) as [_ ->]. done.
    + intros d i cb Hd Hcb Hi. apply (final_down_linked affinity recovery backup w ka kb u bs ub db cpu fwd rev t c d i cb); try done. lia.
    + intros u' i cb Hu' Hcb Hi. apply (final_up_linked affinity recovery backup w ka kb u bs ub db cpu fwd rev t c u' i cb); try done. lia.
  - intros u' [= <-]. destruct (up_with_parts (mkup (set_thr_id (tid_ ub) ub) (u_kind u)) (length (started w))
      (linked (up_fan u) (owns up_writer_ (started w)) (up_cbs u))) as (_ & _ & E & _). etransitivity; [exact E|].
    change (out_queues (mkup _ (u_kind u))) with (out_queues u). by rewrite Hq0.
  - intros d' Hd'. cbn [final_worker down_thread_] in Hd'. destruct (down_thread_ w) as [d|] eqn:Hd; [|done]. injection Hd' as <-.
    cbn [d_in_callback_ more_queues Callbacks.queues_]. destruct (wf_down _ _ _ Hwf d Hd) as [_ ->]. by rewrite length_app, length_replicate.
Qed.

(** The threads of a started worker are those it was given. *)
Lemma launch_shape affinity recovery backup w w' :
  built w -> 0 <= w_num_compute_thread_ w < 2 ^ 31 -> launch affinity recovery backup w = Ok w' ->
  worker_id_ w' = worker_id_ w /\ length (compute_threads_ w') = length (compute_threads_ w) /\
  (forall d, down_thread_ w = Some d -> exists d', down_thread_ w' = Some d' /\ d_net d' = d_net d /\
     length (d_out_callbacks_ d') = length (d_out_callbacks_ d)) /\
  (forall u, up_thread_ w = Some u -> exists u', up_thread_ w' = Some u' /\ up_fan u' = up_fan u /\
     length (up_cbs u') = length (up_cbs u)).
Proof.
  intros Hb Hn Hl. destruct (built_wf w Hb) as (ka & kb & Hwf). pose proof (launch_inv _ _ _ _ _ _ _ Hwf Hn Hl) as Hc.
  destruct (launch_ok w ka kb _ _ _ Hwf Hn Hc) as (u & bs & ub & db & cpu & fwd & rev & Hu & _ & Hl' & _).
  rewrite Hl in Hl'. injection Hl' as ->. cbn [final_worker worker_id_ compute_threads_ down_thread_ up_thread_]. split_and!.
  - done.
  - rewrite length_app, length_fmap, length_imap, length_drop, length_imap, length_take. lia.
  - intros d ->. eexists. split_and!; [reflexivity|done|]. cbn [d_out_callbacks_]. apply length_linked.
  - intros u' Hu'. rewrite Hu in Hu'. injection Hu' as <-. eexists. split; [reflexivity|].
    destruct u as [b [qs|n]]; [done|]. split; [done|]. cbn [up_cbs up_with u_kind out_callbacks_]. apply length_linked.
Qed.

(** C8 A started worker is wired completely: every compute thread [t] has the
    ids [worker_id_] and [t], reads ring [t] of the up thread and ring [t] of the
    down thread's feedback, and its writer is connected with every reader of the
    down thread, and of the up thread, in both directions under the right
    numbers. *)
Theorem launch_wires affinity recovery backup w w' :
  built w -> 0 <= w_num_compute_thread_ w < 2 ^ 31 -> launch affinity recovery backup w = Ok w' ->
  (forall t c, started w !! t = Some c -> exists c', compute_threads_ w' !! t = Some c' /\ thread_wired w w' t c') /\
  (forall u, up_thread_ w' = Some u -> length (out_queues u) = length (started w)) /\
  (forall d, down_thread_ w' = Some d -> length (Callbacks.queues_ (d_in_callback_ d)) = length (started w)).
Proof. apply launch_wired. Qed.

Lemma filled_chan_inv {T} (zero : T) k log (slot : nat -> Z -> T) f (h : nat -> ComputeThread -> ComputeThread) l st :
  (forall t c, is_Some (f (h t c)) <-> is_Some (f c)) -> filled zero k log slot f (imap h l) st ->
  Mpsc.chan_inv (all_slots slot f l) (st, []).
Proof.
  intros Hh (_ & _ & qss & HF & Hitems & _). exists qss. split; [done|]. cbn [snd]. rewrite app_nil_r, Hitems.
  by rewrite all_slots_imap.
Qed.


End Threads.

Arguments ComputeThread : clear implicits.
Arguments UpThread : clear implicits.
Arguments UpThreadNet : clear implicits.
Arguments DownThreadNet : clear implicits.
Arguments Worker : clear implicits.

(** ** Samples *)

Section Sample.

Definition zero_item : WrapItem Z := mkWrapItem ITEM_NORMAL 0 0 0 0.
Definition sample_slot (t : nat) (d : Z) : nat * Z := (t, d).

Lemma sample_slot_inj t t' d d' : sample_slot t d = sample_slot t' d' -> t = t' /\ d = d'.
Proof. unfold sample_slot. intros [= -> ->]. done. Qed.

Abbreviation worker := (Worker Z Z (nat * Z) (nat * Z)).

(** A worker with two compute threads, one upstream worker and two
    destinations. *)
Definition sample_0 : worker := new_Worker 3 2 [] [].
Definition sample_1 : worker :=
  set_stores [] (Nat.iter 1 (add_callback 7 2) ([], [])).2
    (AddUpThread (mkup new_ThreadBase (UpNet (AddSource (lit "tcp://*:5000")
       (mkupnet 1 true (Callbacks.new_InCallbackSimple 1) (Nat.iter 1 (add_callback (T := nat * Z) 7 2) ([], [])).1 [])))) sample_0).
Definition sample_add (w : worker) : worker :=
  let '(c, fwd, rev) := new_ComputeThread 5 1 2 (fwd_ w) (rev_ w) in set_stores fwd rev (AddComputeThread c w).
Definition sample_2 : worker := sample_add sample_1.
Definition sample_3 : worker := sample_add sample_2.
Definition sample_dest : list (option cstr) := [Some (lit "tcp://10.1.2.3:5000"); Some (lit "tcp://10.1.2.3:5001")].
Definition sample_down : DownThreadNet Z * Mpsc.store (nat * Z) :=
  match foldM (fun s dest => AddDest 7 dest s) sample_dest (new_DownThreadNet 2 2, fwd_ sample_3) with
  | Ok s => s
  | Stop _ => (new_DownThreadNet 2 2, [])
  end.
Definition sample_4 : worker := set_stores sample_down.2 (rev_ sample_3) (AddDownThread sample_down.1 sample_3).

Lemma sample_built : built 7 5 sample_4.
Proof.
  apply (built_down 7 5 sample_3 2 2 sample_dest); [|reflexivity].
  unfold sample_3, sample_add. eapply (built_compute 7 5 sample_2 1 2); [|reflexivity].
  unfold sample_2, sample_add. eapply (built_compute 7 5 sample_1 1 2); [|reflexivity].
  eapply (built_net 7 5 sample_0 1 2 (lit "tcp://*:5000")); [|reflexivity]. apply built_new.
Defined.

Abbreviation sample_consistent := (consistent (Ok tt) (Ok tt) (fun _ => Ok tt) (Some (lit "0;1,2,;3;4")) 1 true sample_4).

Lemma sample_is_consistent : sample_consistent.
Proof.
  split_and!.
  - done.
  - simpl. lia.
  - eexists. split; [reflexivity|]. repeat constructor; simpl; lia.
  - cbn [down_thread_ sample_4 set_stores AddDownThread set_down]. split; [repeat constructor; vm_compute; lia|]. intros _. vm_compute. lia.
  - intros s [= <-]. split; [|by eexists]. intros field [= <-]. vm_compute. lia.
  - done.
  - done.
  - done.
  - done.
Qed.

Abbreviation sample_launch := (launch 0 zero_item zero_item (0%nat, 0) (0%nat, 0) (Ok tt) (Ok tt) (fun _ => Ok tt) sample_slot sample_slot
  (Some (lit "0;1,2,;3;4")) 1 true sample_4).

Lemma sample_launches : exists w', sample_launch = Ok w'.
Proof.
  destruct (built_wf 0 (0%nat, 0) (0%nat, 0) 7 5 sample_4 sample_built) as (ka & kb & Hwf).
  destruct (launch_ok 0 zero_item zero_item (0%nat, 0) (0%nat, 0) (Ok tt) (Ok tt) (fun _ => Ok tt) sample_slot sample_slot
    sample_4 ka kb (Some (lit "0;1,2,;3;4")) 1 true Hwf ltac:(simpl; lia) sample_is_consistent) as (u & bs & ub & db & cpu & fwd & rev & _ & _ & Hl & _).
  by eexists.
Qed.


Lemma launch_wires_witness :
  exists w', sample_launch = Ok w' /\
    exists c', compute_threads_ w' !! 1%nat = Some c' /\ thread_wired sample_4 w' 1 c'.
Proof.
  destruct sample_launches as [w' Hl]. exists w'. split; [exact Hl|].
  apply (proj1 (launch_wires 0 zero_item zero_item (0%nat, 0) (0%nat, 0) 7 5 (Ok tt) (Ok tt) (fun _ => Ok tt) sample_slot sample_slot
    (Some (lit "0;1,2,;3;4")) 1 true sample_4 w' sample_built ltac:(simpl; lia) Hl) 1%nat (nth 1 (compute_threads_ sample_4) (mkcompute new_ThreadBase 0 0 None None None None))).
  reflexivity.
Defined.


(** The affinity of the last compute thread needs a comma behind it, and the
    output core a down thread. *)
Lemma last_cpu_ignored :
  exists w', ParseCPUAffinity (lit "0;1,2;3;4") sample_4 = Ok w' /\
    (cpu_ ∘ c_base <$> compute_threads_ w') = [1; -1].
Proof. eexists. split; vm_compute; reflexivity. Qed.

Lemma affinity_out_of_range :
  ParseCPUAffinity (lit "0;1,2,3,4;5;6") sample_4 = Stop OutOfBounds /\ ParseCPUAffinity (lit "0;1,2,;3;4") sample_3 = Stop NullDeref.
Proof. split; vm_compute; reflexivity. Qed.

End Sample.

End Wiring.
