(* ===== verification/ZooKeeper.v ===== *)
(** The coordination service the controller and the workers talk to.

    ZooKeeper is a third-party service with a client library; only its header
    [include/zookeeper.h] comes with the program.  So the calls are a type class,
    [ZooKeeper], over an abstract state of the service, and what the header
    documents of them is a second class, [ZooKeeperSpec]: each call acts on a
    view of the service, a tree of nodes with one-shot watches and the queues of
    events the sessions have not been given yet.  The connection is taken to be
    up: a call on a valid handle is answered.  The tree itself is an instance of
    both classes. *)
From Stdlib Require Import Ascii String ZArith Lia.
From stdpp Require Import base list gmap strings.
From S2P Require Import Prelude TcpAddress.

Module Zk.
Import Addr.

(** [enum ZOO_ERRORS] *)
Definition ZOK : Z := 0.
Definition ZBADARGUMENTS : Z := -8.
Definition ZNONODE : Z := -101.
Definition ZNOCHILDRENFOREPHEMERALS : Z := -108.
Definition ZNODEEXISTS : Z := -110.
Definition ZNOTEMPTY : Z := -111.

(** The states of a session that the watchers tell apart. *)
Inductive session_state := ZOO_CONNECTED_STATE | ZOO_AUTH_FAILED_STATE | ZOO_EXPIRED_SESSION_STATE | ZOO_OTHER_STATE.

(** The events a watcher is called with. *)
Inductive event :=
| SESSION_EVENT (state : session_state)
| CREATED_EVENT (path : cstr)
| DELETED_EVENT (path : cstr)
| CHANGED_EVENT (path : cstr)
| CHILD_EVENT (path : cstr).

(** ** The calls *)

(** A handle is an integer, 0 the null pointer.  The last argument of a call is
    the state of the service; [deliver] is the client library handing the next
    event of a session to its watcher. *)
Class ZooKeeper (S : Type) := {
  zookeeper_init : S -> S * Z;
  zookeeper_close : Z -> S -> S;
  zoo_client_id : Z -> S -> Z;
  zoo_create : Z -> cstr -> cstr -> bool -> S -> S * Z;
  zoo_delete : Z -> cstr -> S -> S * Z;
  zoo_exists : Z -> cstr -> S -> S * Z;
  zoo_get : bool -> Z -> cstr -> S -> S * Z * cstr;
  zoo_set : Z -> cstr -> cstr -> S -> S * Z;
  zoo_get_children : bool -> Z -> cstr -> S -> S * Z * list cstr;
  deliver : Z -> S -> option (S * event)
}.

(** ** The tree *)

(** Nodes have data and the session that owns them when they are ephemeral (0
    otherwise); [dwatch] and [cwatch] are the watches on the data and on the
    children of a node, per session. *)
Record ztree := mktree {
  nodes : gmap cstr (cstr * Z);
  dwatch : Z -> cstr -> bool;
  cwatch : Z -> cstr -> bool;
  queue : Z -> list event;
  next : Z
}.

Definition empty_tree : ztree := mktree ∅ (fun _ _ => false) (fun _ _ => false) (fun _ => []) 1.

(** A path is its parent's, a slash and a name; the root's is empty. *)
Definition parent (p : cstr) : cstr := match strrchr p "/" with Some (a, _) => a | None => [] end.
Definition base_name (p : cstr) : cstr := match strrchr p "/" with Some (_, b) => b | None => p end.

Definition children (p : cstr) (t : ztree) : list cstr :=
  base_name <$> filter (fun q => parent q = p) (map_to_list (nodes t)).*1.

Definition has_children (p : cstr) (t : ztree) : bool := bool_decide (children p t <> []).

(** A watch fires once: it is removed, and its sessions get the event. *)
Definition fire_data (p : cstr) (e : event) (t : ztree) : ztree :=
  mktree (nodes t) (fun z q => dwatch t z q && negb (bool_decide (q = p))) (cwatch t)
    (fun z => queue t z ++ if dwatch t z p then [e] else []) (next t).

Definition fire_children (p : cstr) (e : event) (t : ztree) : ztree :=
  mktree (nodes t) (dwatch t) (fun z q => cwatch t z q && negb (bool_decide (q = p)))
    (fun z => queue t z ++ if cwatch t z p then [e] else []) (next t).

Definition set_nodes (m : gmap cstr (cstr * Z)) (t : ztree) : ztree :=
  mktree m (dwatch t) (cwatch t) (queue t) (next t).

Definition t_create (zh : Z) (p v : cstr) (ephemeral : bool) (t : ztree) : ztree * Z :=
  match nodes t !! p with
  | Some _ => (t, ZNODEEXISTS)
  | None =>
      let add :=
        (fire_children (parent p) (CHILD_EVENT (parent p)) (fire_data p (CREATED_EVENT p)
          (set_nodes (<[p := (v, if ephemeral then zh else 0)]> (nodes t)) t)), ZOK) in
      match nodes t !! parent p with
      | Some (_, o) => if o =? 0 then add else (t, ZNOCHILDRENFOREPHEMERALS)
      | None => if bool_decide (parent p = []) then add else (t, ZNONODE)
      end
  end.

Definition t_remove (p : cstr) (t : ztree) : ztree :=
  fire_children (parent p) (CHILD_EVENT (parent p)) (fire_children p (DELETED_EVENT p)
    (fire_data p (DELETED_EVENT p) (set_nodes (delete p (nodes t)) t))).

Definition t_delete (p : cstr) (t : ztree) : ztree * Z :=
  match nodes t !! p with
  | None => (t, ZNONODE)
  | Some _ => if has_children p t then (t, ZNOTEMPTY) else (t_remove p t, ZOK)
  end.

Definition t_exists (p : cstr) (t : ztree) : Z := if nodes t !! p is Some _ then ZOK else ZNONODE.

Definition t_get (watch : bool) (zh : Z) (p : cstr) (t : ztree) : ztree * Z * cstr :=
  match nodes t !! p with
  | None => (t, ZNONODE, [])
  | Some (v, _) =>
      (mktree (nodes t) (fun z q => dwatch t z q || watch && bool_decide (z = zh /\ q = p)) (cwatch t) (queue t) (next t),
       ZOK, v)
  end.

Definition t_set (p v : cstr) (t : ztree) : ztree * Z :=
  match nodes t !! p with
  | None => (t, ZNONODE)
  | Some (_, o) => (fire_data p (CHANGED_EVENT p) (set_nodes (<[p := (v, o)]> (nodes t)) t), ZOK)
  end.

Definition t_get_children (watch : bool) (zh : Z) (p : cstr) (t : ztree) : ztree * Z * list cstr :=
  match nodes t !! p with
  | None => (t, ZNONODE, [])
  | Some _ =>
      (mktree (nodes t) (dwatch t) (fun z q => cwatch t z q || watch && bool_decide (z = zh /\ q = p)) (queue t) (next t),
       ZOK, children p t)
  end.

(** The end of a session: its ephemeral nodes go, then its watches and events. *)
Definition owned (zh : Z) (t : ztree) : list cstr := (filter (fun x => x.2.2 = zh) (map_to_list (nodes t))).*1.

Definition t_close (zh : Z) (t : ztree) : ztree :=
  let t' := foldl (fun t p => t_remove p t) t (owned zh t) in
  mktree (nodes t') (fun z q => dwatch t' z q && negb (z =? zh)) (fun z q => cwatch t' z q && negb (z =? zh))
    (fun z => if z =? zh then [] else queue t' z) (next t').

Definition t_init (t : ztree) : ztree * Z :=
  (mktree (nodes t) (dwatch t) (cwatch t)
    (fun z => if z =? next t then [SESSION_EVENT ZOO_CONNECTED_STATE] else queue t z) (next t + 1), next t).

Definition t_deliver (zh : Z) (t : ztree) : option (ztree * event) :=
  match queue t zh with
  | [] => None
  | e :: l => Some (mktree (nodes t) (dwatch t) (cwatch t) (fun z => if z =? zh then l else queue t z) (next t), e)
  end.

(** A call through the null handle fails; the others act on the tree. *)
Definition checked {A} (zh : Z) (bad : A) (k : A) : A := if zh =? 0 then bad else k.

Class ZooKeeperSpec (S : Type) `{!ZooKeeper S} := {
  view : S -> ztree;
  init_spec s : (view (zookeeper_init s).1, (zookeeper_init s).2) = t_init (view s)
                \/ zookeeper_init s = (s, 0);
  close_spec zh s : view (zookeeper_close zh s) = checked zh (view s) (t_close zh (view s));
  create_spec zh p v e s :
    (view (zoo_create zh p v e s).1, (zoo_create zh p v e s).2)
    = checked zh (view s, ZBADARGUMENTS) (t_create zh p v e (view s));
  delete_spec zh p s :
    (view (zoo_delete zh p s).1, (zoo_delete zh p s).2)
    = checked zh (view s, ZBADARGUMENTS) (t_delete p (view s));
  exists_spec zh p s :
    (view (zoo_exists zh p s).1, (zoo_exists zh p s).2)
    = checked zh (view s, ZBADARGUMENTS) (view s, t_exists p (view s));
  get_spec w zh p s :
    (view (zoo_get w zh p s).1.1, (zoo_get w zh p s).1.2)
    = checked zh (view s, ZBADARGUMENTS) (t_get w zh p (view s)).1
    /\ (zh <> 0 -> (zoo_get w zh p s).2 = (t_get w zh p (view s)).2);
  set_spec zh p v s :
    (view (zoo_set zh p v s).1, (zoo_set zh p v s).2)
    = checked zh (view s, ZBADARGUMENTS) (t_set p v (view s));
  (* in no particular order *)
  get_children_spec w zh p s :
    (view (zoo_get_children w zh p s).1.1, (zoo_get_children w zh p s).1.2)
    = checked zh (view s, ZBADARGUMENTS) (t_get_children w zh p (view s)).1
    /\ (zh <> 0 -> (zoo_get_children w zh p s).2 ≡ₚ (t_get_children w zh p (view s)).2);
  deliver_spec zh s :
    (fun r : S * event => (view r.1, r.2)) <$> deliver zh s = t_deliver zh (view s)
}.

(** The tree is a service of this kind. *)
#[export] Instance tree_zookeeper : ZooKeeper ztree := {
  zookeeper_init := t_init;
  zookeeper_close zh t := checked zh t (t_close zh t);
  zoo_client_id zh _ := zh;
  zoo_create zh p v e t := checked zh (t, ZBADARGUMENTS) (t_create zh p v e t);
  zoo_delete zh p t := checked zh (t, ZBADARGUMENTS) (t_delete p t);
  zoo_exists zh p t := checked zh (t, ZBADARGUMENTS) (t, t_exists p t);
  zoo_get w zh p t := checked zh (t, ZBADARGUMENTS, []) (t_get w zh p t);
  zoo_set zh p v t := checked zh (t, ZBADARGUMENTS) (t_set p v t);
  zoo_get_children w zh p t := checked zh (t, ZBADARGUMENTS, []) (t_get_children w zh p t);
  deliver := t_deliver
}.

#[export] Instance tree_spec : ZooKeeperSpec ztree.
Proof.
  refine {| view := fun t => t |}.
  - intros s. left. reflexivity.
  - intros zh s. simpl. unfold checked. by destruct (zh =? 0).
  - intros zh p v e s. apply eq_sym, surjective_pairing.
  - intros zh p s. apply eq_sym, surjective_pairing.
  - intros zh p s. apply eq_sym, surjective_pairing.
  - intros w zh p s. simpl. unfold checked. destruct (Z.eqb_spec zh 0); split; try done. apply eq_sym, surjective_pairing.
  - intros zh p v s. apply eq_sym, surjective_pairing.
  - intros w zh p s. simpl. unfold checked. destruct (Z.eqb_spec zh 0); split; try done. apply eq_sym, surjective_pairing.
  - intros zh s. simpl. by destruct (t_deliver zh s) as [[]|].
Defined.

(** ** What calls leave alone *)

(** The events after which a watcher closes its session. *)
Definition closing (e : event) : bool :=
  match e with SESSION_EVENT ZOO_AUTH_FAILED_STATE | SESSION_EVENT ZOO_EXPIRED_SESSION_STATE => true | _ => false end.

Definition calm (p : cstr) (e : event) : Prop := e <> CHANGED_EVENT p /\ closing e = false.

(** From [t] to [t'], node [p] did not change, it got no children if it is
    ephemeral, and session [z] only got events that do not concern [p]. *)
Record frame (p : cstr) (z : Z) (t t' : ztree) : Prop := mkframe {
  f_node : nodes t' !! p = nodes t !! p;
  f_kids : forall v o, nodes t !! p = Some (v, o) -> o <> 0 -> children p t = [] -> children p t' = [];
  f_queue : exists l, queue t' z = queue t z ++ l /\ Forall (calm p) l;
  f_next : next t <= next t'
}.

#[export] Instance frame_preorder p z : PreOrder (frame p z).
Proof.
  split.
  - intros t. split; [done | done | exists []; by rewrite app_nil_r | lia].
  - intros t1 t2 t3 [A1 B1 (l1 & C1 & D1) E1] [A2 B2 (l2 & C2 & D2) E2]. split.
    + by rewrite A2.
    + intros v o Hn Ho Hc. apply (B2 v o); [by rewrite A1 | done | by eapply B1].
    + exists (l1 ++ l2). rewrite C2, C1, app_assoc. split; [done | by apply Forall_app].
    + lia.
Qed.

Lemma children_nil p t : children p t = [] <-> forall q x, nodes t !! q = Some x -> parent q <> p.
Proof.
  unfold children. split.
  - intros H%fmap_nil_inv q x Hq Hp. apply (filter_nil_not_elem_of _ _ _ H Hp).
    apply list_elem_of_fmap. exists (q, x). split; [done | by apply elem_of_map_to_list].
  - intros H. destruct (filter _ _) as [|q l] eqn:E; [done|].
    assert (Hq : q ∈ filter (fun q => parent q = p) (map_to_list (nodes t)).*1) by (rewrite E; left).
    apply list_elem_of_filter in Hq as [Hp ([q' x] & -> & Hx)%list_elem_of_fmap].
    apply elem_of_map_to_list in Hx. by apply H in Hx.
Qed.

Lemma children_sub p t t' :
  (forall q x, nodes t' !! q = Some x -> exists y, nodes t !! q = Some y) -> children p t = [] -> children p t' = [].
Proof. rewrite !children_nil. intros Hs H q x Hq. destruct (Hs _ _ Hq) as [y Hy]. eauto. Qed.

Lemma has_children_false p t : children p t = [] -> has_children p t = false.
Proof. intros H. unfold has_children. rewrite H. by apply bool_decide_eq_false_2; intros []. Qed.

Lemma frame_fire_data p z q e t : calm p e -> frame p z t (fire_data q e t).
Proof. intros He. split; simpl; [done | done | | lia]. eexists. split; [done|]. destruct (dwatch t z q); repeat constructor; apply He. Qed.

Lemma frame_fire_children p z q e t : calm p e -> frame p z t (fire_children q e t).
Proof. intros He. split; simpl; [done | done | | lia]. eexists. split; [done|]. destruct (cwatch t z q); repeat constructor; apply He. Qed.

#[local] Hint Extern 1 (calm _ _) => split; [congruence | reflexivity] : core.

Lemma frame_insert p z q v o t : q <> p ->
  (forall w u, nodes t !! p = Some (w, u) -> u <> 0 -> parent q <> p) -> frame p z t (set_nodes (<[q := (v, o)]> (nodes t)) t).
Proof.
  intros Hq Hp. split; simpl; [by rewrite lookup_insert_ne | | exists []; by rewrite app_nil_r | lia].
  intros w u Hn Hu. rewrite !children_nil. intros H q' x.
  destruct (decide (q = q')) as [<-|Hne]; [intros _; by eapply Hp|].
  simpl. rewrite lookup_insert_ne by done. apply H.
Qed.

Lemma frame_create p z zh q v e t : q <> p -> frame p z t (t_create zh q v e t).1.
Proof.
  intros Hq. unfold t_create. destruct (nodes t !! q) eqn:E; [done|].
  assert (Hadd : (forall w u, nodes t !! p = Some (w, u) -> u <> 0 -> parent q <> p) ->
    frame p z t (fire_children (parent q) (CHILD_EVENT (parent q)) (fire_data q (CREATED_EVENT q)
      (set_nodes (<[q := (v, if e then zh else 0)]> (nodes t)) t)))).
  { intros Hp. etrans; [by apply frame_insert|]. etrans; [apply (frame_fire_data p z q (CREATED_EVENT q)); auto | apply frame_fire_children; auto]. }
  destruct (nodes t !! parent q) as [[w u]|] eqn:Ep.
  - destruct (Z.eqb_spec u 0); [|done]. apply Hadd. intros w' u' Hn Hu Hpq. rewrite <- Hpq in Hn. congruence.
  - case_bool_decide; [|done]. apply Hadd. intros w u Hn Hu Hpq. rewrite <- Hpq in Hn. congruence.
Qed.

Lemma frame_remove p z q t : q <> p -> frame p z t (t_remove q t).
Proof.
  intros Hq. etrans; [|apply frame_fire_children; auto]. etrans; [|apply frame_fire_children; auto].
  etrans; [|apply frame_fire_data; auto]. split; simpl; [by rewrite lookup_delete_ne | | exists []; by rewrite app_nil_r | lia].
  intros v o _ _. apply children_sub. simpl. intros q' x [_ H]%lookup_delete_Some. eauto.
Qed.

Lemma frame_delete p z q t : q <> p -> frame p z t (t_delete q t).1.
Proof. intros Hq. unfold t_delete. destruct (nodes t !! q); [|done]. destruct (has_children q t); [done | by apply frame_remove]. Qed.

Lemma frame_get p z w zh q t : frame p z t (t_get w zh q t).1.1.
Proof. unfold t_get. destruct (nodes t !! q) as [[]|]; [|done]. split; simpl; [done | done | exists []; by rewrite app_nil_r | lia]. Qed.

Lemma frame_get_children p z w zh q t : frame p z t (t_get_children w zh q t).1.1.
Proof. unfold t_get_children. destruct (nodes t !! q) as [[]|]; [|done]. split; simpl; [done | done | exists []; by rewrite app_nil_r | lia]. Qed.

Lemma frame_set p z q v t : q <> p -> frame p z t (t_set q v t).1.
Proof.
  intros Hq. unfold t_set. destruct (nodes t !! q) as [[v' o]|] eqn:E; [|done].
  etrans; [|apply frame_fire_data; auto]. split; simpl; [by rewrite lookup_insert_ne | | exists []; by rewrite app_nil_r | lia].
  intros w u _ _. apply children_sub. simpl. intros q' x.
  destruct (decide (q = q')) as [<-|Hne]; [eauto | rewrite lookup_insert_ne by done; eauto].
Qed.

Lemma frame_close p z zh t : z <> zh -> (forall v o, nodes t !! p = Some (v, o) -> o <> zh) -> frame p z t (t_close zh t).
Proof.
  intros Hz Hp. assert (Ho : p ∉ owned zh t).
  { unfold owned. intros ([q [v o]] & -> & [Ho Hx]%list_elem_of_filter)%list_elem_of_fmap.
    apply elem_of_map_to_list in Hx. by apply (Hp v o). }
  unfold t_close. generalize (owned zh t) as l, Ho. clear Ho. intros l Hl.
  assert (Hf : frame p z t (foldl (fun t q => t_remove q t) t l)).
  { clear Hp. revert t Hl. induction l as [|q l IH]; intros t Hl; [done|]. apply not_elem_of_cons in Hl as [Hq Hl].
    simpl. etrans; [by apply frame_remove, not_eq_sym | by apply IH]. }
  etrans; [exact Hf|]. split; simpl; [done | done | | lia].
  exists []. rewrite app_nil_r. by rewrite (proj2 (Z.eqb_neq z zh)).
Qed.

(** What is not there does not come back. *)
Lemma close_absent p zh t : nodes t !! p = None -> nodes (t_close zh t) !! p = None.
Proof.
  intros H. unfold t_close. simpl. revert t H. generalize (owned zh). intros f t.
  generalize (f t). clear f. intros l. revert t. induction l as [|q l IH]; intros t H; [done|].
  simpl. apply IH. simpl. by apply lookup_delete_None; right.
Qed.

Lemma frame_init p z t : z <> next t -> frame p z t (t_init t).1.
Proof.
  intros Hz. split; simpl; [done | done | | lia].
  exists []. rewrite app_nil_r. by rewrite (proj2 (Z.eqb_neq _ _)).
Qed.

(** ** The same of the service *)
Section Service.
Context {S : Type} `{!ZooKeeper S, !ZooKeeperSpec S}.
Implicit Types (s : S) (p q : cstr) (z zh : Z).

Definition framed p z s s' : Prop := frame p z (view s) (view s').

#[export] Instance framed_preorder p z : PreOrder (framed p z).
Proof. unfold framed. split; [intros s; reflexivity | intros s1 s2 s3 H1 H2; by etrans]. Qed.

Lemma checked_frame {A} p z zh s s' r (bad : A) k :
  (view s', r) = checked zh (view s, bad) k -> frame p z (view s) k.1 -> framed p z s s'.
Proof. unfold checked, framed. intros H Hk. destruct (zh =? 0); [injection H as -> _; done | by rewrite <- H in Hk]. Qed.

Lemma framed_create p z zh q v e s : q <> p -> framed p z s (zoo_create zh q v e s).1.
Proof. intros. eapply checked_frame; [apply create_spec | by apply frame_create]. Qed.
Lemma framed_delete p z zh q s : q <> p -> framed p z s (zoo_delete zh q s).1.
Proof. intros. eapply checked_frame; [apply delete_spec | by apply frame_delete]. Qed.
Lemma framed_exists p z zh q s : framed p z s (zoo_exists zh q s).1.
Proof. eapply checked_frame; [apply exists_spec | done]. Qed.
Lemma framed_get p z w zh q s : framed p z s (zoo_get w zh q s).1.1.
Proof. eapply checked_frame; [apply get_spec | apply frame_get]. Qed.
Lemma framed_set p z zh q v s : q <> p -> framed p z s (zoo_set zh q v s).1.
Proof. intros. eapply checked_frame; [apply set_spec | by apply frame_set]. Qed.
Lemma framed_get_children p z w zh q s : framed p z s (zoo_get_children w zh q s).1.1.
Proof. eapply checked_frame; [apply get_children_spec | apply frame_get_children]. Qed.
Lemma framed_close p z zh s :
  z <> zh -> (forall v o, nodes (view s) !! p = Some (v, o) -> o <> zh) -> framed p z s (zookeeper_close zh s).
Proof. intros. unfold framed. rewrite close_spec. unfold checked. destruct (zh =? 0); [done | by apply frame_close]. Qed.
Lemma framed_init p z s : z < next (view s) -> framed p z s (zookeeper_init s).1.
Proof.
  intros Hz. unfold framed. destruct (init_spec s) as [E| ->]; [|done].
  injection E as E _. rewrite E. apply (frame_init p z). lia.
Qed.

(** Handles are not given twice. *)
Lemma next_close zh s : next (view s) <= next (view (zookeeper_close zh s)).
Proof.
  rewrite close_spec. unfold checked. destruct (zh =? 0); [lia|]. unfold t_close. simpl. generalize (owned zh (view s)) as l.
  intros l. generalize (view s). induction l as [|q l IH]; intros t; simpl; [lia|]. etrans; [|apply IH]. simpl. lia.
Qed.

Lemma other_path q : q <> q ++ lit "/".
Proof. intros E%(f_equal length). rewrite length_app in E. simpl in E. lia. Qed.

Lemma next_create zh q v e s : next (view s) <= next (view (zoo_create zh q v e s).1).
Proof. apply (f_next _ _ _ _ (framed_create (q ++ lit "/") 0 zh q v e s (other_path q))). Qed.
Lemma next_delete zh q s : next (view s) <= next (view (zoo_delete zh q s).1).
Proof. apply (f_next _ _ _ _ (framed_delete (q ++ lit "/") 0 zh q s (other_path q))). Qed.
Lemma next_set zh q v s : next (view s) <= next (view (zoo_set zh q v s).1).
Proof. apply (f_next _ _ _ _ (framed_set (q ++ lit "/") 0 zh q v s (other_path q))). Qed.
Lemma next_exists zh q s : next (view s) <= next (view (zoo_exists zh q s).1).
Proof. apply (f_next _ _ _ _ (framed_exists q 0 zh q s)). Qed.
Lemma next_get w zh q s : next (view s) <= next (view (zoo_get w zh q s).1.1).
Proof. apply (f_next _ _ _ _ (framed_get q 0 w zh q s)). Qed.
Lemma next_get_children w zh q s : next (view s) <= next (view (zoo_get_children w zh q s).1.1).
Proof. apply (f_next _ _ _ _ (framed_get_children q 0 w zh q s)). Qed.

(** A new handle, or none. *)
Lemma next_init s :
  next (view s) <= next (view (zookeeper_init s).1) /\
  ((zookeeper_init s).2 = 0 \/ next (view s) <= (zookeeper_init s).2 < next (view (zookeeper_init s).1)).
Proof. destruct (init_spec s) as [[= -> ->]| ->]; simpl; [split; [lia | right; lia] | split; [lia | by left]]. Qed.

Lemma framed_delete_absent p z zh q s : nodes (view s) !! q = None -> framed p z s (zoo_delete zh q s).1.
Proof. intros H. eapply checked_frame; [apply delete_spec | unfold t_delete; by rewrite H]. Qed.

Lemma service_close_absent p zh s : nodes (view s) !! p = None -> nodes (view (zookeeper_close zh s)) !! p = None.
Proof. intros H. rewrite close_spec. unfold checked. destruct (zh =? 0); [done | by apply close_absent]. Qed.

(** The next event of a session, and the state once it is delivered. *)
Definition delivered zh (l : list event) s s' : Prop :=
  view s' = mktree (nodes (view s)) (dwatch (view s)) (cwatch (view s))
              (fun z => if z =? zh then l else queue (view s) z) (next (view s)).

Lemma deliver_view zh s s' e :
  deliver zh s = Some (s', e) -> exists l, queue (view s) zh = e :: l /\ delivered zh l s s'.
Proof.
  intros E. pose proof (deliver_spec zh s) as H. rewrite E in H. simpl in H. unfold t_deliver in H.
  destruct (queue (view s) zh) as [|e' l] eqn:Eq; [done|]. injection H as H ->. eauto.
Qed.

Lemma deliver_next zh s e l :
  queue (view s) zh = e :: l -> exists s', deliver zh s = Some (s', e) /\ delivered zh l s s'.
Proof.
  intros E. pose proof (deliver_spec zh s) as H. unfold t_deliver in H. rewrite E in H.
  destruct (deliver zh s) as [[s' e']|]; [|done]. simpl in H. injection H as H ->. eauto.
Qed.

(** A delivery to another session. *)
Lemma framed_deliver p z zh l s s' : delivered zh l s s' -> z <> zh -> framed p z s s'.
Proof.
  unfold framed. intros -> Hz. split; simpl; [done | done | | lia].
  exists []. rewrite app_nil_r. by rewrite (proj2 (Z.eqb_neq z zh)).
Qed.
End Service.
End Zk.
