(* ===== verification/ZkClients.v ===== *)
(** The ZooKeeper clients of the controller and of the workers
    ([src/controller/zk_controller_client.hpp], [zk_worker_client.hpp], and the
    command loop of [main.cpp]).

    A worker announces itself with an ephemeral node under [/Alive], marks it
    dead when it finishes and waits until the controller has deleted it.  The
    controller learns of workers through one-shot watches.  Controller main
    thread, controller watcher and workers interleave call by call; each call is
    one step on the service of the file ZooKeeper. *)
From Stdlib Require Import Ascii String ZArith Lia.
From stdpp Require Import base list gmap strings relations.
From S2P Require Import Prelude TcpAddress ZooKeeper.

Module Clients.
Import Addr Zk.

(** [ZkUtil.hpp] *)
Definition NODE_NAME_BARRIER : cstr := lit "/barrier".
Definition NODE_NAME_STATE : cstr := lit "/state".
Definition NODE_NAME_CONFIG : cstr := lit "/Config".
Definition NODE_NAME_PARAMETER : cstr := lit "/Parameter".
Definition NODE_NAME_ALIVE : cstr := lit "/Alive".
Definition NODE_NAME_STAT : cstr := lit "/stat".

Definition newline : ascii := "010".

(** The path of a node under another. *)
Definition child_path (node name : cstr) : cstr := node ++ lit "/" ++ name.
Abbreviation alive_path := (child_path NODE_NAME_ALIVE).

(** [sprintf] into a buffer of [size] bytes, the terminator included. *)
Definition sprintf (size : Z) (text : cstr) : result cstr :=
  if Z.of_nat (length text) + 1 <=? size then Ok text else Stop OutOfBounds.

(** The text of [%d]. *)
Definition print_int (n : Z) : cstr := if n <? 0 then "-"%char :: decimal 10 (- n) else decimal 10 n.

(** ** The controller *)

(** Where the main thread is: in [initialize], in the command loop of [main],
    or in [finish]. *)
Inductive main_pc :=
| C_init
| C_create_barrier
| C_create_alive
| C_wait_ready (current : Z)
| C_watch
| C_serve
| C_wait_gone (current : Z)
| C_delete_alive
| C_delete_barrier
| C_close
| C_exit.

(** Where the watcher is: between events, in the branch of a changed node
    before [zoo_get] or [zoo_delete], or in the branch of a changed list of
    children before [zoo_wget_children] or before [zoo_wget] of a name. *)
Inductive watcher_pc :=
| V_idle
| V_get (path : cstr)
| V_delete (path : cstr)
| V_children
| V_data (name : cstr) (names : list cstr).

#[global] Instance watcher_pc_eq_dec : EqDecision watcher_pc.
Proof. solve_decision. Defined.

(** The statics [zh], [myid.client_id] and [num_of_workers]; [session] is the
    handle whose events the client library delivers. *)
Record coordinator := mkcoord {
  c_zh : Z;
  c_myid : Z;
  num_of_workers : Z;
  session : option Z;
  cpc : main_pc;
  vpc : watcher_pc
}.

Definition new_coordinator : coordinator := mkcoord 0 0 0 None C_init V_idle.

Definition at_main (pc : main_pc) (c : coordinator) : coordinator :=
  mkcoord (c_zh c) (c_myid c) (num_of_workers c) (session c) pc (vpc c).
Definition at_watcher (pc : watcher_pc) (c : coordinator) : coordinator :=
  mkcoord (c_zh c) (c_myid c) (num_of_workers c) (session c) (cpc c) pc.
Definition set_num (n : Z) (c : coordinator) : coordinator :=
  mkcoord (c_zh c) (c_myid c) n (session c) (cpc c) (vpc c).
Definition set_id (n : Z) (c : coordinator) : coordinator :=
  mkcoord (c_zh c) n (num_of_workers c) (session c) (cpc c) (vpc c).

(** The rest of the loop over the children. *)
Definition data_loop (names : list cstr) : watcher_pc :=
  match names with [] => V_idle | name :: names' => V_data name names' end.

(** [strtok (str, SPACE NEWLINE)] on a line of the command loop. *)
Definition is_separator (c : ascii) : bool := bool_decide (c = " "%char) || bool_decide (c = newline).
Fixpoint first_token (s : cstr) : cstr :=
  match s with
  | [] => []
  | c :: s' => if is_separator c then [] else c :: first_token s'
  end.
Fixpoint strtok (s : cstr) : option cstr :=
  match s with
  | [] => None
  | c :: s' => if is_separator c then strtok s' else Some (first_token s)
  end.

Section Operations.
Context {S : Type} `{!ZooKeeper S}.

(** [initialize] and [finish] and what they call, a call of the library at a
    time; errors are only logged. *)
Definition create_barrier_node (s : S) (c : coordinator) : S * coordinator :=
  ((zoo_create (c_zh c) NODE_NAME_BARRIER [] false s).1, at_main C_create_alive c).

Definition create_alive_node (s : S) (c : coordinator) : option (result (S * coordinator)) :=
  match cpc c with
  | C_create_alive =>
      Some (data ← sprintf 10 (print_int (num_of_workers c) ++ [newline]);
            Ok ((zoo_create (c_zh c) NODE_NAME_ALIVE data false s).1,
                at_main (if 0 <? num_of_workers c then C_wait_ready 0 else C_watch) c))
  | C_wait_ready current =>
      if current <? num_of_workers c then
        let '(s1, rc, strings) := zoo_get_children false (c_zh c) NODE_NAME_ALIVE s in
        Some (Ok (s1, at_main (C_wait_ready (if rc =? ZOK then Z.of_nat (length strings) else current)) c))
      else Some (Ok (s, at_main C_watch c))
  | C_watch => Some (Ok ((zoo_get_children true (c_zh c) NODE_NAME_ALIVE s).1.1, at_main C_serve c))
  | _ => None
  end.

Definition delete_alive_node (s : S) (c : coordinator) : option (result (S * coordinator)) :=
  match cpc c with
  | C_wait_gone current =>
      if 0 <? current then
        let '(s1, rc, strings) := zoo_get_children false (c_zh c) NODE_NAME_ALIVE s in
        Some (Ok (s1, at_main (C_wait_gone (if rc =? ZOK then Z.of_nat (length strings) else current)) c))
      else Some (Ok (s, at_main C_delete_alive c))
  | C_delete_alive => Some (Ok ((zoo_delete (c_zh c) NODE_NAME_ALIVE s).1, at_main C_delete_barrier c))
  | _ => None
  end.

Definition delete_barrier_node (s : S) (c : coordinator) : S * coordinator :=
  ((zoo_delete (c_zh c) NODE_NAME_BARRIER s).1, at_main C_close c).

Definition coordinator_step (s : S) (c : coordinator) : option (result (S * coordinator)) :=
  match cpc c with
  | C_init =>
      let '(s1, h) := zookeeper_init s in
      Some (Ok (s1, if h =? 0 then at_main C_exit c
                    else mkcoord h (c_myid c) (num_of_workers c) (Some h) C_create_barrier (vpc c)))
  | C_create_barrier => Some (Ok (create_barrier_node s c))
  | C_create_alive | C_wait_ready _ | C_watch => create_alive_node s c
  | C_wait_gone _ | C_delete_alive => delete_alive_node s c
  | C_delete_barrier => Some (Ok (delete_barrier_node s c))
  | C_close =>
      Some (Ok (zookeeper_close (c_zh c) s, mkcoord (c_zh c) (c_myid c) (num_of_workers c) None C_exit (vpc c)))
  | C_serve | C_exit => None
  end.

(** The command loop of [main]: a line of the standard input, or its end. *)
Definition read_line (line : option cstr) (c : coordinator) : coordinator :=
  match line with
  | None => at_main C_exit c
  | Some str =>
      if bool_decide (strtok str = Some (lit "quit")) then at_main (C_wait_gone (num_of_workers c)) c else c
  end.

(** [global_watcher], up to its first call of the library. *)
Definition on_event (e : event) (zzh : Z) (s : S) (c : coordinator) : S * coordinator :=
  match e with
  | SESSION_EVENT ZOO_CONNECTED_STATE =>
      let id := zoo_client_id zzh s in
      (s, if (c_myid c =? 0) || negb (c_myid c =? id) then set_id id c else c)
  | SESSION_EVENT ZOO_AUTH_FAILED_STATE | SESSION_EVENT ZOO_EXPIRED_SESSION_STATE =>
      (zookeeper_close zzh s, mkcoord 0 (c_myid c) (num_of_workers c) None (cpc c) (vpc c))
  | CHANGED_EVENT path => (s, at_watcher (V_get path) c)
  | CHILD_EVENT path => (s, if bool_decide (path = NODE_NAME_ALIVE) then at_watcher V_children c else c)
  | _ => (s, c)
  end.

(** The watcher, a call of the library at a time. *)
Definition watcher_step (s : S) (c : coordinator) : option (S * coordinator) :=
  match vpc c with
  | V_idle =>
      zzh ← session c;
      '(s1, e) ← deliver zzh s;
      Some (on_event e zzh s1 c)
  | V_get path => Some ((zoo_get false (c_zh c) path s).1.1, at_watcher (V_delete path) c)
  | V_delete path => Some ((zoo_delete (c_zh c) path s).1, at_watcher V_idle c)
  | V_children =>
      let '(s1, rc, strings) := zoo_get_children true (c_zh c) NODE_NAME_ALIVE s in
      Some (s1, if rc =? ZOK then at_watcher (data_loop strings) (set_num (Z.of_nat (length strings)) c)
                else at_watcher V_idle c)
  | V_data name names =>
      Some ((zoo_get true (c_zh c) (alive_path name) s).1.1, at_watcher (data_loop names) c)
  end.

(** The nodes that [initialize] and [finish] do not use. *)
Definition create_node (zh : Z) (node : cstr) (s : S) : S := (zoo_create zh node [] false s).1.
Definition create_state_node (zh : Z) : S -> S := create_node zh NODE_NAME_STATE.
Definition create_stat_node (zh : Z) : S -> S := create_node zh NODE_NAME_STAT.

(** [create_config]; [config_file] is what the file contains, if it opens. *)
Definition create_config (zh : Z) (config_file : option cstr) (s : S) : result S :=
  let s1 := create_node zh NODE_NAME_CONFIG s in
  match config_file with
  | None => Stop NullDeref
  | Some data => Ok (zoo_create zh (NODE_NAME_CONFIG ++ NODE_NAME_PARAMETER) data false s1).1
  end.

(** A node with all its children. *)
Definition delete_child (zh : Z) (node : cstr) (s : S) (name : cstr) : result S :=
  tmp ← sprintf 100 (child_path node name);
  Ok (zoo_delete zh tmp s).1.

Definition delete_node (zh : Z) (node : cstr) (s : S) : result S :=
  let '(s1, rc, strings) := zoo_get_children false zh node s in
  s2 ← (if rc =? ZOK then foldM (delete_child zh node) strings s1 else Ok s1);
  Ok (zoo_delete zh node s2).1.

Definition delete_state_node (zh : Z) : S -> result S := delete_node zh NODE_NAME_STATE.
Definition delete_config_node (zh : Z) : S -> result S := delete_node zh NODE_NAME_CONFIG.
Definition delete_stat_node (zh : Z) : S -> result S := delete_node zh NODE_NAME_STAT.

(** ** The worker *)

Inductive client_pc :=
| W_init
| W_exists            (* the controller's node is awaited *)
| W_get
| W_create
| W_wait (current : Z)
| W_running           (* [initialize] has returned *)
| W_dead              (* [finish] was called *)
| W_wait_deleted
| W_close
| W_done
| W_error.

(** [w_open]: the handle has not been closed by the watcher. *)
Record client := mkclient {
  my_name : cstr;
  w_zh : Z;
  w_open : bool;
  w_myid : Z;
  w_num : Z;
  wpc : client_pc
}.

Definition new_client (name : cstr) : client := mkclient name 0 false 0 0 W_init.

Definition at_pc (pc : client_pc) (w : client) : client :=
  mkclient (my_name w) (w_zh w) (w_open w) (w_myid w) (w_num w) pc.

Definition my_path (w : client) : cstr := alive_path (my_name w).

(** What the worker's buffer holds after the data it got. *)
Context (garbage : cstr).

(** The first loop compares the result of [zoo_exists] before it stores it, so
    after the loop [rc] is 0 whatever the result was. *)
Definition create_my_alive_node (s : S) (w : client) : option (result (S * client)) :=
  match wpc w with
  | W_exists =>
      let '(s1, r) := zoo_exists (w_zh w) NODE_NAME_ALIVE s in
      Some (Ok (s1, if r =? ZNONODE then w else at_pc W_get w))
  | W_get =>
      let '(s1, rc, data) := zoo_get false (w_zh w) NODE_NAME_ALIVE s in
      Some (if rc =? ZOK
            then Ok (s1, mkclient (my_name w) (w_zh w) (w_open w) (w_myid w) (atoi (take 1000 data ++ garbage)) W_create)
            else Stop Uninitialised)
  | W_create =>
      Some (Ok ((zoo_create (w_zh w) (my_path w) (lit "Alive" ++ [newline]) true s).1, at_pc (W_wait 0) w))
  | W_wait current =>
      if current <? w_num w then
        let '(s1, rc, strings) := zoo_get_children false (w_zh w) NODE_NAME_ALIVE s in
        Some (Ok (s1, at_pc (W_wait (if rc =? ZOK then Z.of_nat (length strings) else current)) w))
      else Some (Ok (s, at_pc W_running w))
  | _ => None
  end.

Definition delete_my_alive_node (s : S) (w : client) : option (result (S * client)) :=
  match wpc w with
  | W_dead =>
      Some (Ok ((zoo_set (w_zh w) (my_path w) (lit "Dead" ++ [newline]) s).1, at_pc W_wait_deleted w))
  | W_wait_deleted =>
      let '(s1, rc) := zoo_exists (w_zh w) (my_path w) s in
      Some (Ok (s1, if rc =? ZOK then w else at_pc W_close w))
  | _ => None
  end.

Definition client_calls (s : S) (w : client) : option (result (S * client)) :=
  match wpc w with
  | W_exists | W_get | W_create | W_wait _ => create_my_alive_node s w
  | W_dead | W_wait_deleted => delete_my_alive_node s w
  | W_close =>
      Some (Ok (zookeeper_close (w_zh w) s, mkclient (my_name w) (w_zh w) false (w_myid w) (w_num w) W_done))
  | W_init | W_running | W_done | W_error => None
  end.

(** [initialize] and [finish]; a closed handle must not be used. *)
Definition client_step (s : S) (w : client) : option (result (S * client)) :=
  match wpc w with
  | W_init =>
      let '(s1, h) := zookeeper_init s in
      Some (Ok (s1, if h =? 0 then at_pc W_error w else mkclient (my_name w) h true (w_myid w) (w_num w) W_exists))
  | _ =>
      r ← client_calls s w;
      Some (if w_open w then r else Stop NullDeref)
  end.

(** [global_watcher] of the worker. *)
Definition client_event (e : event) (s : S) (w : client) : S * client :=
  match e with
  | SESSION_EVENT ZOO_CONNECTED_STATE =>
      let id := zoo_client_id (w_zh w) s in
      (s, if (w_myid w =? 0) || negb (w_myid w =? id)
          then mkclient (my_name w) (w_zh w) (w_open w) id (w_num w) (wpc w) else w)
  | SESSION_EVENT ZOO_AUTH_FAILED_STATE | SESSION_EVENT ZOO_EXPIRED_SESSION_STATE =>
      (zookeeper_close (w_zh w) s, mkclient (my_name w) (w_zh w) false (w_myid w) (w_num w) (wpc w))
  | _ => (s, w)
  end.

(** ** All of them *)

Record sys := mksys { srv : S; coord : coordinator; workers : list client }.

Definition with_worker (i : nat) (s : S) (w : client) (x : sys) : sys := mksys s (coord x) (<[i := w]> (workers x)).

Inductive step (x : sys) : result sys -> Prop :=
| st_main r :
    coordinator_step (srv x) (coord x) = Some r -> step x ('(s, c) ← r; Ok (mksys s c (workers x)))
| st_line line :
    cpc (coord x) = C_serve -> step x (Ok (mksys (srv x) (read_line line (coord x)) (workers x)))
| st_watcher s c :
    cpc (coord x) <> C_exit -> watcher_step (srv x) (coord x) = Some (s, c) -> step x (Ok (mksys s c (workers x)))
| st_worker i w r :
    workers x !! i = Some w -> client_step (srv x) w = Some r ->
    step x ('(s, w') ← r; Ok (with_worker i s w' x))
| st_finish i w :
    workers x !! i = Some w -> wpc w = W_running -> step x (Ok (with_worker i (srv x) (at_pc W_dead w) x))
| st_event i w s e :
    workers x !! i = Some w -> w_open w = true -> deliver (w_zh w) (srv x) = Some (s, e) ->
    step x (Ok (with_worker i (client_event e s w).1 (client_event e s w).2 x)).

Definition reaches : relation sys := rtc (fun x y => step x (Ok y)).

(** The steps of the watcher alone. *)
Definition watches (x y : sys) : Prop :=
  cpc (coord x) <> C_exit /\ exists s c, watcher_step (srv x) (coord x) = Some (s, c) /\ y = mksys s c (workers x).

Definition start (s : S) (names : list cstr) : sys := mksys s new_coordinator (new_client <$> names).

End Operations.

Arguments sys : clear implicits.

(** The calls of a step, in the open. *)
Ltac open_main :=
  unfold coordinator_step, create_barrier_node, create_alive_node, delete_alive_node, delete_barrier_node.
Ltac open_client H := unfold client_step, client_calls, create_my_alive_node, delete_my_alive_node in H.

(** ** What steps do to handles *)

Section Handles.
Context {S : Type} `{!ZooKeeper S, !ZooKeeperSpec S}.
Context (garbage : cstr).
Implicit Types (s : S) (c : coordinator) (w : client).

#[local] Hint Resolve next_create next_delete next_set next_exists next_get next_get_children next_close Z.le_refl : core.

Lemma main_handles s c s' c' :
  coordinator_step s c = Some (Ok (s', c')) ->
  next (view s) <= next (view s') /\ cpc c' <> C_init /\
  (c_zh c' = c_zh c /\ (session c' = session c \/ session c' = None) \/
   next (view s) <= c_zh c' < next (view s') /\ session c' = Some (c_zh c')).
Proof.
  open_main. destruct (cpc c); intros Hs; try done.
  { pose proof (next_init s) as [Hn Hh]. destruct (zookeeper_init s) as [s1 h]. simpl in *. injection Hs as <- <-.
    split; [done|]. destruct (Z.eqb_spec h 0); simpl; [split; [done | auto]|]. split; [done|]. right. split; [lia | done]. }
  all: repeat match type of Hs with
    | context [let '(_, _) := zoo_get_children ?a ?b ?d ?e in _] =>
        pose proof (next_get_children a b d e); destruct (zoo_get_children a b d e) as [[??] ?]
    | context [if ?b then _ else _] => destruct b
    | context [sprintf ?a ?b] => destruct (sprintf a b); cbn [mbind result_bind] in Hs
    end; simplify_eq/=; split_and!; auto; done.
Qed.

Lemma client_handles s w s' w' :
  client_step garbage s w = Some (Ok (s', w')) ->
  next (view s) <= next (view s') /\ my_name w' = my_name w /\
  (w_zh w' = w_zh w \/ next (view s) <= w_zh w' < next (view s')).
Proof.
  unfold client_step. destruct (wpc w) eqn:E.
  { pose proof (next_init s) as [Hn Hh]. destruct (zookeeper_init s) as [s1 h]. simpl in *. intros [= <- <-].
    destruct (Z.eqb_spec h 0); simpl; auto. split_and!; [done | done | right; lia]. }
  all: unfold client_calls, create_my_alive_node, delete_my_alive_node; rewrite E; cbn [mbind option_bind]; try done.
  all: intros Hs; repeat match type of Hs with
    | context [let '(_, _) := zoo_get_children ?a ?b ?d ?e in _] =>
        pose proof (next_get_children a b d e); destruct (zoo_get_children a b d e) as [[??] ?]
    | context [let '(_, _) := zoo_get ?a ?b ?d ?e in _] =>
        pose proof (next_get a b d e); destruct (zoo_get a b d e) as [[??] ?]
    | context [let '(_, _) := zoo_exists ?b ?d ?e in _] =>
        pose proof (next_exists b d e); destruct (zoo_exists b d e) as [??]
    | context [if ?b then _ else _] => destruct b; cbn [mbind option_bind] in Hs
    end; simplify_eq/=; auto.
Qed.

Lemma watcher_handles s c s' c' :
  watcher_step s c = Some (s', c') ->
  next (view s) <= next (view s') /\ cpc c' = cpc c /\
  (c_zh c' = c_zh c /\ session c' = session c \/ c_zh c' = 0 /\ session c' = None).
Proof.
  unfold watcher_step. destruct (vpc c).
  - destruct (session c) as [h|] eqn:Eh; [|done]. cbn [mbind option_bind]. destruct (deliver h s) as [[s1 e]|] eqn:Hd; [|done].
    simpl. destruct (deliver_view _ _ _ _ Hd) as (l & _ & Hdl). unfold delivered in Hdl. intros [= E].
    assert (Hn : next (view s) <= next (view s1)) by (by rewrite Hdl).
    destruct e as [[]| | | |]; simpl in E; [destruct (_ || _)| | | | | | |case_bool_decide]; injection E as <- <-; simpl; auto.
    all: split; [etrans; [exact Hn | auto] | auto].
  - intros [= <- <-]. auto.
  - intros [= <- <-]. auto.
  - pose proof (next_get_children true (c_zh c) NODE_NAME_ALIVE s). destruct (zoo_get_children _ _ _ _) as [[s1 rc] l].
    intros [= <- <-]. split; [done|]. destruct (rc =? ZOK); auto.
  - intros [= <- <-]. auto.
Qed.

Lemma event_handles s w s1 e :
  deliver (w_zh w) s = Some (s1, e) ->
  next (view s) <= next (view (client_event e s1 w).1) /\ my_name (client_event e s1 w).2 = my_name w /\
  w_zh (client_event e s1 w).2 = w_zh w.
Proof.
  intros (l & _ & Hdl)%deliver_view. unfold delivered in Hdl. assert (Hn : next (view s) <= next (view s1)) by (by rewrite Hdl).
  destruct e as [[]| | | |]; simpl; auto; [destruct (_ || _); auto| |]; (split; [etrans; [exact Hn | auto] | auto]).
Qed.

End Handles.

(** ** Steps that do not concern a worker's node *)

Lemma alive_path_ne name : alive_path name <> NODE_NAME_ALIVE /\ alive_path name <> NODE_NAME_BARRIER.
Proof. split; [|discriminate]. intros E%(f_equal length). unfold child_path in E. rewrite !length_app in E. simpl in E. lia. Qed.

Section Steps.
Context {S : Type} `{!ZooKeeper S, !ZooKeeperSpec S}.
Context (garbage : cstr) (p : cstr) (i : nat) (hw : Z).
Implicit Types (x y : sys S) (s : S) (c : coordinator) (w : client).
#[local] Hint Resolve not_eq_sym : core.

Definition node x : option (cstr * Z) := nodes (view (srv x)) !! p.

(** Worker [i], whose session is [hw], has the node [p]; no other worker and not
    the controller use its name or its session. *)
Record base x : Prop := mkbase {
  b_path : p <> NODE_NAME_ALIVE /\ p <> NODE_NAME_BARRIER;
  b_next : 0 < hw < next (view (srv x));
  b_others : forall j w, j <> i -> workers x !! j = Some w -> my_path w <> p /\ w_zh w <> hw;
  b_zh : c_zh (coord x) <> hw;
  b_started : cpc (coord x) <> C_init;
  b_session : forall h, session (coord x) = Some h ->
    c_zh (coord x) = h /\ 0 < h < next (view (srv x)) /\ forall j w, workers x !! j = Some w -> w_zh w <> h
}.

Definition owned_by s : Prop := forall v o, nodes (view s) !! p = Some (v, o) -> o = hw.

Lemma main_effect s c s' c' :
  p <> NODE_NAME_ALIVE -> p <> NODE_NAME_BARRIER -> c_zh c <> hw -> cpc c <> C_init -> owned_by s ->
  coordinator_step s c = Some (Ok (s', c')) ->
  vpc c' = vpc c /\ c_zh c' = c_zh c /\ cpc c' <> C_init /\ framed p hw s s' /\
  (session c' = None \/ session c' = session c /\ forall z, framed p z s s').
Proof.
  intros Ha Hb Hz Hi Ho. open_main. destruct (cpc c) eqn:E; intros Hs; try done.
  all: repeat match type of Hs with
    | context [let '(_, _) := zoo_get_children ?a ?b ?d ?e in _] =>
        pose proof (fun z => framed_get_children p z a b d e); destruct (zoo_get_children a b d e) as [[??] ?]
    | context [if ?b then _ else _] => destruct b
    | context [sprintf ?a ?b] => destruct (sprintf a b); cbn [mbind result_bind] in Hs
    end; simplify_eq/=; split_and!; try done.
  all: try (right; split; [done|]; intros ?).
  all: auto using framed_create, framed_delete, framed_get_children.
  all: try reflexivity.
  apply framed_close; [done|]. intros v o Hn. rewrite (Ho _ _ Hn). done.
Qed.

Lemma client_effect z s w s' w' :
  my_path w <> p -> w_zh w <> hw -> hw < next (view s) -> owned_by s -> z < next (view s) -> w_zh w <> z ->
  client_step garbage s w = Some (Ok (s', w')) ->
  framed p z s s' /\ my_path w' = my_path w /\ (w_zh w' = w_zh w \/ next (view s) <= w_zh w').
Proof.
  intros Hp Hw Hn Ho Hz Hwz. unfold client_step. destruct (wpc w) eqn:E.
  { pose proof (framed_init p z s Hz) as Hf. pose proof (init_spec s) as Hi.
    destruct (zookeeper_init s) as [s1 h]. intros [= -> <-]. split; [done|].
    destruct (Z.eqb_spec h 0); [by auto|]. simpl. split; [done|].
    destruct Hi as [[= _ ->]|[= _ ->]]; [right; lia | done]. }
  all: unfold client_calls, create_my_alive_node, delete_my_alive_node; rewrite E; cbn [mbind option_bind]; try done.
  all: intros Hs; repeat match type of Hs with
    | context [let '(_, _) := zoo_get_children ?a ?b ?d ?e in _] =>
        pose proof (framed_get_children p z a b d e); destruct (zoo_get_children a b d e) as [[??] ?]
    | context [let '(_, _) := zoo_get ?a ?b ?d ?e in _] =>
        pose proof (framed_get p z a b d e); destruct (zoo_get a b d e) as [[??] ?]
    | context [let '(_, _) := zoo_exists ?b ?d ?e in _] =>
        pose proof (framed_exists p z b d e); destruct (zoo_exists b d e) as [??]
    | context [if ?b then _ else _] => destruct b; cbn [mbind option_bind] in Hs
    end; simplify_eq/=; split_and!; auto using framed_create, framed_set.
  all: try reflexivity.
  apply framed_close; [done|]. intros v o Hn'. by rewrite (Ho _ _ Hn').
Qed.

Lemma event_effect z s w s1 e :
  w_zh w <> hw -> owned_by s -> w_zh w <> z -> deliver (w_zh w) s = Some (s1, e) ->
  framed p z s (client_event e s1 w).1 /\ my_path (client_event e s1 w).2 = my_path w /\
  w_zh (client_event e s1 w).2 = w_zh w.
Proof.
  intros Hw Ho Hz (l & _ & Hd)%deliver_view.
  assert (Hf : framed p z s s1) by (eapply framed_deliver; eauto).
  assert (Hc : framed p z s (zookeeper_close (w_zh w) s1)).
  { etrans; [exact Hf|]. apply framed_close; [done|]. intros v o Hn. unfold delivered in Hd. rewrite Hd in Hn. simpl in Hn.
    by rewrite (Ho _ _ Hn). }
  destruct e as [[]| | | |]; simpl; auto. by destruct (_ || _).
Qed.

(** A step of the watcher other than a delivery or the deletion of [p]. *)
Lemma watcher_effect s c s' c' :
  vpc c <> V_idle -> vpc c <> V_delete p -> watcher_step s c = Some (s', c') ->
  (forall z, framed p z s s') /\ c_zh c' = c_zh c /\ session c' = session c /\ cpc c' = cpc c /\
  vpc c' <> V_get p /\ (vpc c' = V_delete p <-> vpc c = V_get p).
Proof.
  intros Hi Hd. unfold watcher_step. destruct (vpc c) eqn:E; try done.
  - intros [= <- <-]. split; [intros; apply framed_get|]. simpl. repeat split; congruence.
  - intros [= <- <-]. split; [intros; apply framed_delete; congruence|]. simpl. repeat split; congruence.
  - pose proof (fun z => framed_get_children p z true (c_zh c) NODE_NAME_ALIVE s) as Hf.
    destruct (zoo_get_children _ _ _ _) as [[s1 rc] l]. intros [= <- <-]. split; [done|].
    destruct (rc =? ZOK); [|simpl; repeat split; congruence]. destruct l; simpl; repeat split; congruence.
  - intros [= <- <-]. split; [intros; apply framed_get|]. destruct names; simpl; repeat split; congruence.
Qed.

Lemma base_coord x s c :
  base x -> next (view (srv x)) <= next (view s) -> c_zh c <> hw -> cpc c <> C_init ->
  (session c = None \/ session c = session (coord x) /\ c_zh c = c_zh (coord x)) -> base (mksys s c (workers x)).
Proof.
  intros [A B C D E F] Hn Hz Hi Hs. split; simpl; auto; [lia|].
  intros h Eh. destruct Hs as [Hs|[Hs Hc]]; [congruence|]. rewrite Hs in Eh.
  destruct (F h Eh) as (G1 & G2 & G3). split_and!; auto; congruence || lia.
Qed.

Lemma base_worker x j w s w' :
  base x -> next (view (srv x)) <= next (view s) -> workers x !! j = Some w -> my_path w' = my_path w ->
  (w_zh w' = w_zh w \/ next (view (srv x)) <= w_zh w') -> base (with_worker j s w' x).
Proof.
  intros [A B C D E F] Hn Hj Hp Hw. split; simpl; auto; [lia | |].
  - intros k u Hk Hu. rewrite list_lookup_insert in Hu. case_decide as Ek; [|by eapply C].
    destruct Ek as [<- _]. injection Hu as <-. destruct (C _ _ Hk Hj). split; [congruence|]. destruct Hw; [congruence | lia].
  - intros h Eh. destruct (F h Eh) as (G1 & G2 & G3). split_and!; auto; [lia|lia|].
    intros k u Hu. rewrite list_lookup_insert in Hu. case_decide as Ek; [|by eapply G3].
    injection Hu as <-. specialize (G3 _ _ Hj). destruct Hw; [congruence | lia].
Qed.

(** A step is the environment's, the watcher's, or worker [i]'s own. *)
Record quiet x y : Prop := mkquiet {
  q_base : base y;
  q_worker : workers y !! i = workers x !! i;
  q_node : framed p hw (srv x) (srv y);
  q_vpc : vpc (coord y) = vpc (coord x);
  q_session : session (coord y) = None \/
    session (coord y) = session (coord x) /\ forall h, session (coord x) = Some h -> framed p h (srv x) (srv y)
}.

Definition own_step x y : Prop :=
  exists w s w', workers x !! i = Some w /\ y = with_worker i s w' x /\
    (client_step garbage (srv x) w = Some (Ok (s, w')) \/
     wpc w = W_running \/
     exists s1 e, deliver (w_zh w) (srv x) = Some (s1, e) /\ s = (client_event e s1 w).1 /\ w' = (client_event e s1 w).2).

Lemma step_cases x y :
  base x -> owned_by (srv x) -> step garbage x (Ok y) -> quiet x y \/ watches x y \/ own_step x y.
Proof.
  intros Hb Ho Hs. inversion Hs as [r Hr Ey|line Hl Ey|s c Hc Hw Ey|j w r Hj Hr Ey|j w Hj Hr Ey|j w s e Hj Hopen He Ey]; clear Hs.
  - left. destruct r as [[s c]|]; [|done]. injection Ey as <-. destruct (b_path _ Hb) as [Pa Pb].
    destruct (main_effect _ _ _ _ Pa Pb (b_zh _ Hb) (b_started _ Hb) Ho Hr) as (A & B & C & D & E).
    split; simpl; auto.
    + apply base_coord; auto; [apply D | rewrite B; apply Hb | destruct E as [?|[? _]]; auto].
    + destruct E as [->|[-> E]]; auto.
  - left. subst y. split; simpl; auto.
    + destruct line as [str|]; simpl; [case_bool_decide|]; apply base_coord; simpl; auto using b_zh, b_started; done || lia.
    + reflexivity.
    + destruct line; simpl; [case_bool_decide|]; done.
    + right. split; [destruct line; simpl; [case_bool_decide|]; done | reflexivity].
  - right. left. split; [done|]. eauto.
  - destruct r as [[s w']|]; [|done]. injection Ey as <-. destruct (decide (j = i)) as [->|Hji].
    { right. right. exists w, s, w'. auto. }
    left. destruct (b_others _ Hb _ _ Hji Hj) as [Hp Hz].
    destruct (client_effect hw _ _ _ _ Hp Hz (proj2 (b_next _ Hb)) Ho (proj2 (b_next _ Hb)) Hz Hr) as (A & B & C).
    split; simpl; auto.
    + eapply base_worker; eauto. apply A.
    + by rewrite list_lookup_insert_ne.
    + right. split; [done|]. intros h (G1 & G2 & G3)%(b_session _ Hb).
      eapply (client_effect h); eauto; [apply Hb | lia].
  - destruct (decide (j = i)) as [->|Hji].
    { right. right. exists w, (srv x), (at_pc W_dead w). subst y. auto. }
    left. subst y. split; simpl; auto; try reflexivity.
    + eapply base_worker; eauto. reflexivity.
    + by rewrite list_lookup_insert_ne.
    + right. split; [done | reflexivity].
  - destruct (decide (j = i)) as [->|Hji].
    { right. right. eexists w, _, _. subst y. split_and!; [done | done |]. eauto 10. }
    left. subst y. destruct (b_others _ Hb _ _ Hji Hj) as [Hp Hz].
    destruct (event_effect hw _ _ _ _ Hz Ho Hz He) as (A & B & C). split; simpl; auto.
    + eapply base_worker; eauto. apply A.
    + by rewrite list_lookup_insert_ne.
    + right. split; [done|]. intros h (G1 & G2 & G3)%(b_session _ Hb). eapply (event_effect h); eauto.
Qed.

(** The delivery of an event to the controller. *)
Lemma delivery x y :
  vpc (coord x) = V_idle -> watches x y ->
  exists h e l s1, session (coord x) = Some h /\ queue (view (srv x)) h = e :: l /\ delivered h l (srv x) s1 /\
    srv y = (on_event e h s1 (coord x)).1 /\ coord y = (on_event e h s1 (coord x)).2 /\ workers y = workers x.
Proof.
  intros Hv (_ & s & c & Hw & ->). unfold watcher_step in Hw. rewrite Hv in Hw.
  destruct (session (coord x)) as [h|]; [|done]. cbn [mbind option_bind] in Hw.
  destruct (deliver h (srv x)) as [[s1 e]|] eqn:Hd; [|done]. simpl in Hw. injection Hw as Hw.
  destruct (deliver_view _ _ _ _ Hd) as (l & Hq & Hdl). exists h, e, l, s1. rewrite Hw. by split_and!.
Qed.

Lemma on_event_quiet e h s c :
  closing e = false ->
  (on_event e h s c).1 = s /\ c_zh (on_event e h s c).2 = c_zh c /\ session (on_event e h s c).2 = session c /\
  cpc (on_event e h s c).2 = cpc c /\
  (e = CHANGED_EVENT p -> vpc (on_event e h s c).2 = V_get p) /\
  (vpc c = V_idle -> vpc (on_event e h s c).2 <> V_delete p /\ (e <> CHANGED_EVENT p -> vpc (on_event e h s c).2 <> V_get p)).
Proof.
  intros He. destruct e as [[]| | | |]; try done; simpl.
  - destruct (_ || _); simpl; split_and!; try done; intros ->; done.
  - split_and!; try done. by intros ->.
  - split_and!; try done. by intros ->.
  - split_and!; try done. by intros ->.
  - split_and!; try done; [by intros [= ->]|]. intros _. split; [done | congruence].
  - case_bool_decide; simpl; split_and!; try done; intros ->; done.
Qed.

(** What a delivery does to the node, whatever the event is. *)
Lemma delivery_node x y h e l s1 :
  base x -> owned_by (srv x) -> session (coord x) = Some h -> delivered h l (srv x) s1 -> hw <> h ->
  srv y = (on_event e h s1 (coord x)).1 -> coord y = (on_event e h s1 (coord x)).2 -> workers y = workers x ->
  framed p hw (srv x) (srv y) /\ base y /\ (closing e = true -> session (coord y) = None).
Proof.
  intros Hb Ho Hh Hd Hne Hy Hc Hws. destruct (b_session _ Hb _ Hh) as (Hz & Hr & _).
  assert (Hf : framed p hw (srv x) s1) by (eapply framed_deliver; eauto).
  assert (Ey : y = mksys (srv y) (coord y) (workers x)) by (destruct y; simpl in *; congruence).
  destruct (closing e) eqn:Ec.
  - assert (E : on_event e h s1 (coord x) = (zookeeper_close h s1,
      mkcoord 0 (c_myid (coord x)) (num_of_workers (coord x)) None (cpc (coord x)) (vpc (coord x)))) by (by destruct e as [[]| | | |]).
    rewrite E in Hy, Hc. simpl in Hy, Hc.
    assert (Hf' : framed p hw (srv x) (srv y)).
    { rewrite Hy. etrans; [exact Hf|]. apply framed_close; [done|]. intros v o Hn. rewrite Hd in Hn. by rewrite (Ho _ _ Hn). }
    split; [done|]. split; [|by rewrite Hc].
    rewrite Ey. apply base_coord; rewrite ?Hc; simpl; auto using b_started; [apply Hf'|].
    destruct (b_next _ Hb). lia.
  - destruct (on_event_quiet e h s1 (coord x) Ec) as (A & B & C & D & _).
    assert (Hf' : framed p hw (srv x) (srv y)) by (by rewrite Hy, A).
    split; [done|]. split; [|done]. rewrite Ey. apply base_coord; rewrite ?Hc, ?B, ?C, ?D; auto using b_zh, b_started. apply Hf'.
Qed.

(** ** A worker nobody watches *)

(** Worker [i] waits for its node to go, and no event will make the controller
    delete it. *)
Record stuck x : Prop := mkstuck {
  sk_base : base x;
  sk_worker : exists w, workers x !! i = Some w /\ wpc w = W_wait_deleted /\ w_zh w = hw /\ my_path w = p;
  sk_node : exists v, node x = Some (v, hw);
  sk_vpc : vpc (coord x) <> V_get p /\ vpc (coord x) <> V_delete p;
  sk_events : forall h, session (coord x) = Some h -> CHANGED_EVENT p ∉ queue (view (srv x)) h;
  sk_queue : Forall (fun e => closing e = false) (queue (view (srv x)) hw)
}.

Lemma owned_node x v : node x = Some (v, hw) -> owned_by (srv x).
Proof. unfold node, owned_by. intros Hn v' o Hn'. congruence. Qed.

Lemma framed_queue z s s' : framed p z s s' ->
  Forall (fun e => closing e = false) (queue (view s) z) -> Forall (fun e => closing e = false) (queue (view s') z).
Proof. intros [_ _ (l & -> & Hl) _] H. apply Forall_app. split; [done|]. eapply Forall_impl; [exact Hl | by intros e []]. Qed.

Lemma framed_no_change z s s' : framed p z s s' ->
  CHANGED_EVENT p ∉ queue (view s) z -> CHANGED_EVENT p ∉ queue (view s') z.
Proof.
  intros [_ _ (l & -> & Hl) _] H [?|Hin]%elem_of_app; [done|].
  rewrite Forall_forall in Hl. by destruct (Hl _ Hin).
Qed.

(** A step that leaves the node and the worker as they are. *)
Lemma stuck_framed x y :
  stuck x -> base y -> framed p hw (srv x) (srv y) ->
  (exists w, workers y !! i = Some w /\ wpc w = W_wait_deleted /\ w_zh w = hw /\ my_path w = p) ->
  vpc (coord y) <> V_get p -> vpc (coord y) <> V_delete p ->
  (forall h, session (coord y) = Some h -> CHANGED_EVENT p ∉ queue (view (srv y)) h) -> stuck y.
Proof.
  intros [A B (v & C) D E F] Hb Hf Hw Hg Hd Hs. split; auto.
  - exists v. unfold node. by rewrite (f_node _ _ _ _ Hf).
  - by apply (framed_queue hw (srv x)).
Qed.

Lemma stuck_quiet x y : stuck x -> quiet x y -> stuck y.
Proof.
  intros Hx [Hb Hw Hf Hv Hs]. apply (stuck_framed x); auto; rewrite ?Hw, ?Hv; try apply Hx.
  intros h Hh. destruct Hs as [?|[Es Hs]]; [congruence|]. rewrite Es in Hh.
  apply (framed_no_change h (srv x)); [by apply Hs | by apply Hx].
Qed.

Lemma stuck_watches x y : stuck x -> watches x y -> stuck y.
Proof.
  intros Hx Hw. destruct (sk_node _ Hx) as [v Hn]. pose proof (owned_node _ _ Hn) as Ho.
  destruct (decide (vpc (coord x) = V_idle)) as [Hv|Hv].
  - destruct (delivery _ _ Hv Hw) as (h & e & l & s1 & Hh & Hq & Hd & Hy & Hc & Hws).
    destruct (sk_worker _ Hx) as (w & Hwi & Hpc & Hzw & Hpw).
    destruct (b_session _ (sk_base _ Hx) _ Hh) as (Hz & Hr & Hne). pose proof (Hne _ _ Hwi) as Hne'. rewrite Hzw in Hne'.
    destruct (delivery_node x y h e l s1 (sk_base _ Hx) Ho Hh Hd Hne' Hy Hc Hws) as (Hf & Hb & Hcl).
    assert (Hev : e <> CHANGED_EVENT p /\ CHANGED_EVENT p ∉ l).
    { pose proof (sk_events _ Hx _ Hh) as He. rewrite Hq in He. apply not_elem_of_cons in He as [? ?]. split; congruence. }
    destruct (closing e) eqn:Ec.
    + assert (Hvy : vpc (coord y) = V_idle) by (rewrite Hc; by destruct e as [[]| | | |]).
      apply (stuck_framed x); rewrite ?Hvy, ?Hws; try done; [apply Hx|]. intros h'. by rewrite (Hcl eq_refl).
    + destruct (on_event_quiet e h s1 (coord x) Ec) as (A & B & C & D & _ & E). destruct (E Hv) as [E1 E2].
      apply (stuck_framed x); rewrite ?Hws, ?Hc; try done; [apply Hx | apply E2, Hev |].
      rewrite C, Hy, A. intros h' Hh'. rewrite Hh in Hh'. injection Hh' as <-.
      rewrite Hd. simpl. rewrite Z.eqb_refl. apply Hev.
  - destruct Hw as (_ & s & c & Hw & ->). destruct (sk_vpc _ Hx) as [Hg Hd].
    destruct (watcher_effect _ _ _ _ Hv Hd Hw) as (Hf & A & B & C & D & E).
    apply (stuck_framed x); simpl; auto; try apply Hx.
    + apply base_coord; try apply Hx; rewrite ?A, ?B, ?C; try apply Hx; auto. apply (Hf hw).
    + intros H. by apply E in H.
    + intros h. rewrite B. intros Hh. apply (framed_no_change h (srv x)); [done | by apply Hx].
Qed.

Lemma exists_there x v : 0 < hw -> node x = Some (v, hw) -> (zoo_exists hw p (srv x)).2 = ZOK.
Proof.
  intros Hh Hn. pose proof (exists_spec hw p (srv x)) as H. unfold checked, t_exists, node in *.
  rewrite (proj2 (Z.eqb_neq hw 0)), Hn in H by lia. by injection H.
Qed.

(** A waiting worker's own steps while its node is there. *)
Lemma waiting_step x w s w' v :
  0 < hw -> wpc w = W_wait_deleted -> w_zh w = hw -> my_path w = p -> node x = Some (v, hw) ->
  client_step garbage (srv x) w = Some (Ok (s, w')) -> (forall z, framed p z (srv x) s) /\ w' = w.
Proof.
  intros H0 Hpc Hz Hp Hn Hs. open_client Hs. rewrite Hpc, Hz, Hp in Hs. cbn [mbind option_bind] in Hs.
  pose proof (exists_there _ _ H0 Hn) as He.
  pose proof (fun z => framed_exists p z hw p (srv x)) as Hf. destruct (zoo_exists hw p (srv x)) as [s1 r]. simpl in He, Hf.
  subst r. simpl in Hs. destruct (w_open w); [|done]. by injection Hs as <- <-.
Qed.

Lemma waiting_event s w s1 e :
  w_zh w = hw -> Forall (fun e => closing e = false) (queue (view s) hw) -> deliver (w_zh w) s = Some (s1, e) ->
  exists l, (client_event e s1 w).1 = s1 /\ delivered hw l s s1 /\ Forall (fun e => closing e = false) l /\
    wpc (client_event e s1 w).2 = wpc w /\ w_zh (client_event e s1 w).2 = w_zh w /\ my_path (client_event e s1 w).2 = my_path w.
Proof.
  intros Hz Hcl (l & Hq & Hdl)%deliver_view. rewrite Hz in Hq, Hdl. rewrite Hq in Hcl. apply Forall_cons in Hcl as [Hce Hcl].
  exists l. destruct e as [[]| | | |]; try done; simpl. by destruct (_ || _).
Qed.

Lemma stuck_own x y : stuck x -> own_step x y -> stuck y.
Proof.
  intros Hx (w & s & w' & Hw & -> & Hs). destruct (sk_worker _ Hx) as (w0 & Hw0 & Hpc & Hz & Hp).
  rewrite Hw in Hw0. injection Hw0 as <-. destruct (sk_node _ Hx) as [v Hn]. pose proof (sk_base _ Hx) as Hb.
  assert (Hlt : (i < length (workers x))%nat) by (by eapply lookup_lt_Some).
  destruct Hs as [Hs|[Hs|(s1 & e & Hd & -> & ->)]]; [|congruence|].
  - destruct (waiting_step _ _ _ _ _ (proj1 (b_next _ Hb)) Hpc Hz Hp Hn Hs) as (Hf & ->).
    apply (stuck_framed x); simpl; auto; try apply Hx.
    + eapply base_worker; eauto. apply (Hf hw).
    + exists w. rewrite list_lookup_insert_eq by done. auto.
    + intros h Hh. apply (framed_no_change h (srv x)); [done | by apply Hx].
  - destruct (waiting_event _ _ _ _ Hz (sk_queue _ Hx) Hd) as (l & -> & Hdl & Hcl & A & B & C).
    unfold delivered in Hdl. split; simpl; try apply Hx.
    + eapply base_worker; eauto. by rewrite Hdl.
    + exists (client_event e s1 w).2. rewrite list_lookup_insert_eq by done. rewrite A, B, C. auto.
    + exists v. unfold node. simpl. by rewrite Hdl.
    + intros h Hh. rewrite Hdl. simpl. destruct (b_session _ Hb _ Hh) as (_ & _ & Hne).
      rewrite (proj2 (Z.eqb_neq h hw)) by (specialize (Hne _ _ Hw); congruence). by apply Hx.
    + rewrite Hdl. simpl. by rewrite Z.eqb_refl.
Qed.

Lemma stuck_step x y : stuck x -> step garbage x (Ok y) -> stuck y.
Proof.
  intros Hx Hs. destruct (sk_node _ Hx) as [v Hn].
  destruct (step_cases x y (sk_base _ Hx) (owned_node _ _ Hn) Hs) as [H|[H|H]];
    eauto using stuck_quiet, stuck_watches, stuck_own.
Qed.

(** ** A worker that is watched *)

Definition leaving w : Prop :=
  (wpc w = W_wait_deleted \/ wpc w = W_close \/ wpc w = W_done) /\ w_zh w = hw /\ my_path w = p.

(** The node is gone, and will not come back. *)
Record gone x : Prop := mkgone {
  g_base : base x;
  g_worker : exists w, workers x !! i = Some w /\ leaving w;
  g_node : node x = None
}.

(** The controller has been told, or is deleting it. *)
Definition told h x : Prop :=
  (CHANGED_EVENT p ∈ queue (view (srv x)) h \/ vpc (coord x) = V_get p \/ vpc (coord x) = V_delete p) /\
  Forall (fun e => closing e = false) (queue (view (srv x)) h).

Record doomed x : Prop := mkdoomed {
  d_base : base x;
  d_worker : exists w, workers x !! i = Some w /\ wpc w = W_wait_deleted /\ w_zh w = hw /\ my_path w = p;
  d_node : exists v, node x = Some (v, hw);
  d_children : children p (view (srv x)) = [];
  d_queue : Forall (fun e => closing e = false) (queue (view (srv x)) hw);
  d_told : forall h, session (coord x) = Some h -> told h x
}.

Lemma absent_owned x : node x = None -> owned_by (srv x).
Proof. unfold node, owned_by. congruence. Qed.

Lemma framed_told x y h :
  framed p h (srv x) (srv y) -> vpc (coord y) = vpc (coord x) -> told h x -> told h y.
Proof.
  intros Hf Hv [Ht Hc]. split; [|by apply (framed_queue h (srv x))].
  rewrite Hv. destruct Ht as [Ht|Ht]; [left | by right].
  destruct Hf as [_ _ (l & -> & _) _]. apply elem_of_app. by left.
Qed.

Lemma doomed_framed x y :
  doomed x -> base y -> framed p hw (srv x) (srv y) ->
  (exists w, workers y !! i = Some w /\ wpc w = W_wait_deleted /\ w_zh w = hw /\ my_path w = p) ->
  (forall h, session (coord y) = Some h -> told h y) -> doomed y.
Proof.
  intros Hx Hb Hf Hw Hs. destruct (d_node _ Hx) as [v Hn]. split; auto.
  - exists v. unfold node. by rewrite (f_node _ _ _ _ Hf).
  - apply (f_kids _ _ _ _ Hf v hw); [done | | apply Hx]. destruct (b_next _ Hb). lia.
  - apply (framed_queue hw (srv x)); [done | apply Hx].
Qed.

(** Deleting a node that is there and has no children. *)
Lemma delete_there s zh v o :
  zh <> 0 -> nodes (view s) !! p = Some (v, o) -> children p (view s) = [] ->
  nodes (view (zoo_delete zh p s).1) !! p = None /\ next (view (zoo_delete zh p s).1) = next (view s).
Proof.
  intros Hz Hn Hc. pose proof (delete_spec zh p s) as H. unfold checked, t_delete in H.
  rewrite (proj2 (Z.eqb_neq zh 0)), Hn, (has_children_false _ _ Hc) in H by done. injection H as H _. rewrite H. simpl.
  split; [by rewrite lookup_delete_eq | done].
Qed.

Lemma doomed_watches x y : doomed x -> watches x y -> gone y \/ doomed y.
Proof.
  intros Hx Hw. destruct (d_node _ Hx) as [v Hn]. pose proof (owned_node _ _ Hn) as Ho. pose proof (d_base _ Hx) as Hb.
  destruct (d_worker _ Hx) as (w & Hwi & Hpc & Hzw & Hpw).
  destruct (decide (vpc (coord x) = V_idle)) as [Hv|Hv]; [|destruct (decide (vpc (coord x) = V_delete p)) as [Hd|Hd]].
  - destruct (delivery _ _ Hv Hw) as (h & e & l & s1 & Hh & Hq & Hd & Hy & Hc & Hws).
    destruct (b_session _ Hb _ Hh) as (Hz & Hr & Hne). pose proof (Hne _ _ Hwi) as Hne'. rewrite Hzw in Hne'.
    destruct (delivery_node x y h e l s1 Hb Ho Hh Hd Hne' Hy Hc Hws) as (Hf & Hby & _).
    destruct (d_told _ Hx _ Hh) as [Ht Hcl]. rewrite Hq in Hcl, Ht. apply Forall_cons in Hcl as [Hce Hcl].
    destruct (on_event_quiet e h s1 (coord x) Hce) as (A & B & C & D & E & _).
    right. apply (doomed_framed x); auto; [rewrite Hws; apply Hx|].
    intros h' Hh'. rewrite Hc, C, Hh in Hh'. injection Hh' as <-. unfold told. rewrite Hy, A, Hc.
    rewrite Hd. simpl. rewrite Z.eqb_refl. split; [|done].
    destruct Ht as [[Ht|Ht]%elem_of_cons|[?|?]]; [right; left; by apply E | by left | congruence..].
  - destruct Hw as (_ & s & c & Hw & ->). unfold watcher_step in Hw. rewrite Hd in Hw. injection Hw as <- <-.
    destruct (decide (c_zh (coord x) = 0)) as [H0|H0].
    + right. assert (Hf : framed p hw (srv x) (zoo_delete (c_zh (coord x)) p (srv x)).1).
      { pose proof (delete_spec (c_zh (coord x)) p (srv x)) as H. rewrite H0 in *. unfold framed. injection H as -> _. reflexivity. }
      apply (doomed_framed x); simpl; auto; [|apply Hx|].
      * apply base_coord; simpl; auto; [apply Hf | apply Hb..].
      * intros h Hh. destruct (b_session _ Hb _ Hh). lia.
    + left. destruct (delete_there (srv x) (c_zh (coord x)) v hw H0 Hn (d_children _ Hx)) as [G1 G2].
      split; simpl; auto.
      * apply base_coord; simpl; auto; [lia | apply Hb..].
      * exists w. unfold leaving. auto.
  - right. destruct Hw as (_ & s & c & Hw & ->).
    destruct (watcher_effect _ _ _ _ Hv Hd Hw) as (Hf & A & B & C & D & E).
    apply (doomed_framed x); simpl; auto; try apply Hx.
    + apply base_coord; rewrite ?A, ?B, ?C; auto; [apply (Hf hw) | apply Hb..].
    + intros h Hh. rewrite B in Hh. destruct (d_told _ Hx _ Hh) as [Ht Hcl].
      split; simpl; [|by apply (framed_queue h (srv x))].
      destruct Ht as [Ht|[Ht|Ht]]; [left | right; right; by apply E | done].
      destruct (Hf h) as [_ _ (l & -> & _) _]. apply elem_of_app. by left.
Qed.

Lemma doomed_quiet x y : doomed x -> quiet x y -> doomed y.
Proof.
  intros Hx [Hb Hw Hf Hv Hs]. apply (doomed_framed x); auto; rewrite ?Hw; try apply Hx.
  intros h Hh. destruct Hs as [?|[Es Hs]]; [congruence|]. rewrite Es in Hh.
  apply (framed_told x); [by apply Hs | done | by apply Hx].
Qed.

Lemma doomed_own x y : doomed x -> own_step x y -> doomed y.
Proof.
  intros Hx (w & s & w' & Hw & -> & Hs). destruct (d_worker _ Hx) as (w0 & Hw0 & Hpc & Hz & Hp).
  rewrite Hw in Hw0. injection Hw0 as <-. destruct (d_node _ Hx) as [v Hn]. pose proof (d_base _ Hx) as Hb.
  assert (Hlt : (i < length (workers x))%nat) by (by eapply lookup_lt_Some).
  destruct Hs as [Hs|[Hs|(s1 & e & Hd & -> & ->)]]; [|congruence|].
  - destruct (waiting_step _ _ _ _ _ (proj1 (b_next _ Hb)) Hpc Hz Hp Hn Hs) as (Hf & ->).
    apply (doomed_framed x); simpl; auto.
    + eapply base_worker; eauto. apply (Hf hw).
    + exists w. rewrite list_lookup_insert_eq by done. auto.
    + intros h Hh. apply (framed_told x); [apply Hf | done | by apply Hx].
  - destruct (waiting_event _ _ _ _ Hz (d_queue _ Hx) Hd) as (l & -> & Hdl & Hcl & A & B & C).
    unfold delivered in Hdl. split; simpl.
    + eapply base_worker; eauto. by rewrite Hdl.
    + exists (client_event e s1 w).2. rewrite list_lookup_insert_eq by done. rewrite A, B, C. auto.
    + exists v. unfold node. simpl. by rewrite Hdl.
    + rewrite Hdl. apply (d_children _ Hx).
    + rewrite Hdl. simpl. by rewrite Z.eqb_refl.
    + intros h Hh. destruct (b_session _ Hb _ Hh) as (_ & _ & Hne). specialize (Hne _ _ Hw).
      apply (framed_told x); [|done | by apply Hx]. simpl. apply (framed_deliver p h hw l); [done | congruence].
Qed.

Lemma gone_quiet x y : gone x -> quiet x y -> gone y.
Proof. intros [A B C] [Hb Hw Hf _ _]. split; [done | by rewrite Hw | unfold node; by rewrite (f_node _ _ _ _ Hf)]. Qed.

Lemma gone_watches x y : gone x -> watches x y -> gone y.
Proof.
  intros Hx Hw. pose proof (g_base _ Hx) as Hb. pose proof (g_node _ Hx) as Hn.
  assert (H : framed p hw (srv x) (srv y) /\ base y /\ workers y = workers x).
  { destruct (decide (vpc (coord x) = V_idle)) as [Hv|Hv]; [|destruct (decide (vpc (coord x) = V_delete p)) as [Hd|Hd]].
    - destruct (delivery _ _ Hv Hw) as (h & e & l & s1 & Hh & Hq & Hd & Hy & Hc & Hws).
      destruct (g_worker _ Hx) as (w & Hwi & _ & Hz & _).
      destruct (b_session _ Hb _ Hh) as (_ & _ & Hne). specialize (Hne _ _ Hwi). rewrite Hz in Hne.
      by destruct (delivery_node x y h e l s1 Hb (absent_owned _ Hn) Hh Hd Hne Hy Hc Hws) as (? & ? & _).
    - destruct Hw as (_ & s & c & Hw & ->). unfold watcher_step in Hw. rewrite Hd in Hw. injection Hw as <- <-.
      assert (Hf : framed p hw (srv x) (zoo_delete (c_zh (coord x)) p (srv x)).1) by (by apply framed_delete_absent).
      split_and!; [done | | done]. apply base_coord; simpl; auto; [apply Hf | apply Hb..].
    - destruct Hw as (_ & s & c & Hw & ->). destruct (watcher_effect _ _ _ _ Hv Hd Hw) as (Hf & A & B & C & _).
      split_and!; [apply Hf | | done]. apply base_coord; rewrite ?A, ?B, ?C; auto; [apply (Hf hw) | apply Hb..]. }
  destruct H as (Hf & Hby & Hws). split; [done | rewrite Hws; apply Hx | unfold node; by rewrite (f_node _ _ _ _ Hf)].
Qed.

Lemma gone_own x y : gone x -> own_step x y -> gone y.
Proof.
  intros Hx (w & s & w' & Hw & -> & Hs). destruct (g_worker _ Hx) as (w0 & Hw0 & Hl & Hz & Hp).
  rewrite Hw in Hw0. injection Hw0 as <-. pose proof (g_node _ Hx) as Hn. pose proof (g_base _ Hx) as Hb. unfold node in Hn.
  assert (Hlt : (i < length (workers x))%nat) by (by eapply lookup_lt_Some).
  assert (G : next (view (srv x)) <= next (view s) -> nodes (view s) !! p = None -> w_zh w' = w_zh w -> my_path w' = my_path w ->
    wpc w' = wpc w \/ wpc w' = W_close \/ wpc w' = W_done -> gone (with_worker i s w' x)).
  { intros H1 H2 H3 H4 H5. split; [eapply base_worker; eauto | | done]. exists w'. simpl. rewrite list_lookup_insert_eq by done.
    split; [done|]. unfold leaving. rewrite H3, H4. split_and!; [destruct H5 as [->|]; auto | done | done]. }
  destruct Hs as [Hs|[Hs|(s1 & e & Hd & -> & ->)]].
  - pose proof (client_handles garbage _ _ _ _ Hs) as (Hnx & _ & _).
    open_client Hs. destruct Hl as [E|[E|E]]; rewrite E in Hs; cbn [mbind option_bind] in Hs; [| |done].
    + pose proof (framed_exists p hw (w_zh w) (my_path w) (srv x)) as Hf.
      destruct (zoo_exists (w_zh w) (my_path w) (srv x)) as [s1 r]. simpl in Hf.
      destruct (w_open w); [|done]. injection Hs as <- <-. apply G; auto.
      * by rewrite (f_node _ _ _ _ Hf).
      * by destruct (r =? ZOK).
      * by destruct (r =? ZOK).
      * destruct (r =? ZOK); simpl; auto.
    + destruct (w_open w); [|done]. injection Hs as <- <-. apply G; auto. by apply service_close_absent.
  - rewrite Hs in Hl. by destruct Hl as [?|[?|?]].
  - destruct (event_handles _ _ _ _ Hd) as (H1 & H2 & H3). destruct (deliver_view _ _ _ _ Hd) as (l & _ & Hdl).
    assert (Hn1 : nodes (view s1) !! p = None) by (by rewrite Hdl).
    apply G; auto.
    + destruct e as [[]| | | |]; simpl; auto using service_close_absent.
    + unfold my_path. by rewrite H2.
    + left. destruct e as [[]| | | |]; try done. simpl. by destruct (_ || _).
Qed.

Lemma removal_step x y : gone x \/ doomed x -> step garbage x (Ok y) -> gone y \/ doomed y.
Proof.
  intros [Hx|Hx] Hs.
  - left. destruct (step_cases x y (g_base _ Hx) (absent_owned _ (g_node _ Hx)) Hs) as [H|[H|H]];
      eauto using gone_quiet, gone_watches, gone_own.
  - destruct (d_node _ Hx) as [v Hn].
    destruct (step_cases x y (d_base _ Hx) (owned_node _ _ Hn) Hs) as [H|[H|H]];
      eauto using doomed_quiet, doomed_watches, doomed_own.
Qed.

(** *** The watcher gets there *)

Definition removes x : Prop := exists y, rtc watches x y /\ node y = None.

Lemma removes_step x y : watches x y -> removes y -> removes x.
Proof. intros H (z & Hz & Hn). exists z. split; [by eapply rtc_l | done]. Qed.

(** A watcher in the middle of an event can always take its next step. *)
Lemma watcher_moves x : cpc (coord x) <> C_exit -> vpc (coord x) <> V_idle ->
  exists y, watches x y /\ cpc (coord y) = cpc (coord x) /\ session (coord y) = session (coord x) /\
    match vpc (coord x) with V_get q => vpc (coord y) = V_delete q | V_delete _ => vpc (coord y) = V_idle
    | V_data _ l => vpc (coord y) = data_loop l | _ => exists l, vpc (coord y) = data_loop l end.
Proof.
  intros He Hv. unfold watches, watcher_step. destruct (vpc (coord x)); try done.
  1, 2, 4: eexists; split; [split; [done|]; eexists _, _; split; [reflexivity|reflexivity]|]; done.
  destruct (zoo_get_children _ _ _ _) as [[s rc] l].
  eexists; split; [split; [done|]; eexists _, _; split; [reflexivity|reflexivity]|]. simpl.
  destruct (rc =? ZOK); split_and!; try done; [by exists l | by exists []].
Qed.

(** One more step of an event: the node goes, or the queue only grows. *)
Lemma doomed_move x h :
  doomed x -> session (coord x) = Some h -> cpc (coord x) <> C_exit -> vpc (coord x) <> V_idle ->
  removes x \/ exists y, watches x y /\ doomed y /\ session (coord y) = Some h /\ cpc (coord y) <> C_exit /\
    (exists l, queue (view (srv y)) h = queue (view (srv x)) h ++ l) /\
    match vpc (coord x) with V_get q => vpc (coord y) = V_delete q | V_delete _ => vpc (coord y) = V_idle
    | V_data _ l => vpc (coord y) = data_loop l | _ => exists l, vpc (coord y) = data_loop l end.
Proof.
  intros Hx Hh He Hv. destruct (d_node _ Hx) as [v Hn].
  destruct (watcher_moves x He Hv) as (y & Hw & Ec & Es & Ev).
  destruct (doomed_watches _ _ Hx Hw) as [Hg|Hy].
  { left. exists y. split; [by apply rtc_once | apply Hg]. }
  destruct (decide (vpc (coord x) = V_delete p)) as [Hd|Hd].
  - left. exists y. split; [by apply rtc_once|]. destruct Hw as (_ & s & c & Hw & ->).
    unfold watcher_step in Hw. rewrite Hd in Hw. injection Hw as <- <-.
    destruct (b_session _ (d_base _ Hx) _ Hh) as (Hz & Hr & _).
    apply (delete_there (srv x) _ v hw); [lia | done | apply Hx].
  - right. exists y. rewrite Ec, Es. split_and!; auto. destruct Hw as (_ & s & c & Hw & ->).
    destruct (watcher_effect _ _ _ _ Hv Hd Hw) as (Hf & _). destruct (Hf h) as [_ _ (l & Hl & _) _]. eauto.
Qed.

Definition rank (v : watcher_pc) : nat :=
  match v with V_idle | V_children => 0 | V_delete _ => 1 | V_get _ => 2 | V_data _ l => 1 + length l end%nat.

(** The rest of an event only adds to the queue, or removes the node. *)
Definition finishes_event x h : Prop :=
  removes x \/ exists y, rtc watches x y /\ doomed y /\ session (coord y) = Some h /\ cpc (coord y) <> C_exit /\
    vpc (coord y) = V_idle /\ exists l, queue (view (srv y)) h = queue (view (srv x)) h ++ l.

Lemma finishes_step x y h l :
  watches x y -> queue (view (srv y)) h = queue (view (srv x)) h ++ l -> finishes_event y h -> finishes_event x h.
Proof.
  intros Hw Hl [Hr|(z & A & B & C & D & E & l' & F)]; [left; by eapply removes_step|]. right.
  exists z. split_and!; auto; [by eapply rtc_l|]. exists (l ++ l'). by rewrite F, Hl, app_assoc.
Qed.

Lemma finish_ranked n x h :
  doomed x -> session (coord x) = Some h -> cpc (coord x) <> C_exit -> vpc (coord x) <> V_children ->
  (rank (vpc (coord x)) <= n)%nat -> finishes_event x h.
Proof.
  revert x. induction n as [|n IH]; intros x Hx Hh He Hc Hr; destruct (decide (vpc (coord x) = V_idle)) as [Hv|Hv].
  1, 3: right; exists x; split_and!; auto; [reflexivity | exists []; by rewrite app_nil_r].
  { by destruct (vpc (coord x)); simpl in Hr; try lia. }
  destruct (doomed_move x h Hx Hh He Hv) as [|(y & Hw & Hy & Hs & Hp & (l & Hl) & Hm)]; [by left|].
  apply (finishes_step x y h l); auto. apply IH; auto.
  - destruct (vpc (coord x)) as [| | | |? l']; try done; rewrite Hm; try done. by destruct l'.
  - destruct (vpc (coord x)) as [| | | |? l']; try done; rewrite Hm; simpl in *; try lia. destruct l'; simpl in *; lia.
Qed.

Lemma finish_event x h :
  doomed x -> session (coord x) = Some h -> cpc (coord x) <> C_exit -> finishes_event x h.
Proof.
  intros Hx Hh He. destruct (decide (vpc (coord x) = V_children)) as [Hv|Hv]; [|by eapply finish_ranked].
  destruct (doomed_move x h Hx Hh He) as [|(y & Hw & Hy & Hs & Hp & (l & Hl) & Hm)]; [congruence | by left|].
  apply (finishes_step x y h l); auto. rewrite Hv in Hm. destruct Hm as [l' Hm].
  eapply finish_ranked; eauto. rewrite Hm. by destruct l'.
Qed.

(** From one event to the next, until the change of the node is handled. *)
Lemma removes_at k x h :
  doomed x -> session (coord x) = Some h -> cpc (coord x) <> C_exit -> vpc (coord x) = V_idle ->
  queue (view (srv x)) h !! k = Some (CHANGED_EVENT p) -> removes x.
Proof.
  revert x. induction k as [|k IH]; intros x Hx Hh He Hv Hk;
    destruct (queue (view (srv x)) h) as [|e l] eqn:Hq; simpl in Hk; try done.
  all: destruct (d_told _ Hx _ Hh) as [_ Hcl]; rewrite Hq in Hcl; apply Forall_cons in Hcl as [Hce Hcl].
  all: destruct (deliver_next _ _ _ _ Hq) as (s1 & Hd & Hdl).
  all: destruct (on_event_quiet e h s1 (coord x) Hce) as (A & B & C & D & E & _).
  all: set (y := mksys (on_event e h s1 (coord x)).1 (on_event e h s1 (coord x)).2 (workers x)).
  all: assert (Hw : watches x y) by (split; [done|]; exists (on_event e h s1 (coord x)).1, (on_event e h s1 (coord x)).2;
    unfold watcher_step; rewrite Hv, Hh; cbn [mbind option_bind]; rewrite Hd; cbn [mbind option_bind];
    by rewrite <- surjective_pairing).
  all: destruct (doomed_watches _ _ Hx Hw) as [Hg|Hy]; [exists y; split; [by apply rtc_once | apply Hg]|].
  all: assert (Hsy : session (coord y) = Some h) by (simpl; congruence).
  all: assert (Hey : cpc (coord y) <> C_exit) by (simpl; congruence).
  all: apply (removes_step x y Hw).
  - injection Hk as ->. assert (Hvy : vpc (coord y) = V_get p) by (by apply E).
    destruct (doomed_move y h Hy Hsy Hey) as [|(z & Hwz & Hz & Hsz & Hpz & _ & Hmz)]; [congruence | done|].
    rewrite Hvy in Hmz. apply (removes_step y z Hwz).
    destruct (doomed_move z h Hz Hsz Hpz) as [|(u & Hwu & Hu & _)]; [congruence | done|].
    exists u. split; [by apply rtc_once|]. destruct (d_node _ Hz) as [v Hn]. destruct Hwu as (_ & s & c & Hwu & ->).
    unfold watcher_step in Hwu. rewrite Hmz in Hwu. injection Hwu as <- <-.
    destruct (b_session _ (d_base _ Hz) _ Hsz) as (Hzz & Hr & _).
    apply (delete_there (srv z) _ v hw); [lia | done | apply Hz].
  - destruct (finish_event y h Hy Hsy Hey) as [|(z & Hr & Hz & Hsz & Hpz & Hvz & l' & Hl')]; [done|].
    assert (Hrz : removes z).
    { apply (IH z); auto. rewrite Hl'. unfold y. simpl. rewrite A, Hdl. simpl. rewrite Z.eqb_refl. by apply lookup_app_l_Some. }
    destruct Hrz as (u & Hu & Hn). exists u. split; [by etrans | done].
Qed.

Lemma doomed_removes x h :
  doomed x -> session (coord x) = Some h -> cpc (coord x) <> C_exit -> removes x.
Proof.
  intros Hx Hh He. destruct (finish_event x h Hx Hh He) as [|(y & Hr & Hy & Hs & Hp & Hv & _)]; [done|].
  assert (Hry : removes y).
  { destruct (d_told _ Hy _ Hs) as [[[k Hk]%list_elem_of_lookup|[?|?]] _]; [by eapply removes_at | congruence..]. }
  destruct Hry as (z & Hz & Hn). exists z. split; [by etrans | done].
Qed.

End Steps.
(** ** Names and sessions *)

Section Runs.
Context {S : Type} `{!ZooKeeper S, !ZooKeeperSpec S}.
Context (garbage : cstr).
Implicit Types (x y : sys S) (s : S) (c : coordinator) (w : client).

Record wf x : Prop := mkwf {
  wf_names : forall j k w w', workers x !! j = Some w -> workers x !! k = Some w' -> my_name w = my_name w' -> j = k;
  wf_handles : forall j w, workers x !! j = Some w ->
    0 <= w_zh w < next (view (srv x)) /\ (w_zh w <> 0 -> w_zh w <> c_zh (coord x));
  wf_distinct : forall j k w w', workers x !! j = Some w -> workers x !! k = Some w' -> w_zh w = w_zh w' -> w_zh w <> 0 -> j = k;
  wf_coord : 0 <= c_zh (coord x) < next (view (srv x));
  wf_session : forall h, session (coord x) = Some h -> c_zh (coord x) = h /\ 0 < h /\ cpc (coord x) <> C_init
}.

#[local] Hint Resolve Z.le_refl : core.

Lemma wf_coordinator x s c :
  wf x -> next (view (srv x)) <= next (view s) ->
  (forall j w, workers x !! j = Some w -> w_zh w <> 0 -> w_zh w <> c_zh c) -> 0 <= c_zh c < next (view s) ->
  (forall h, session c = Some h -> c_zh c = h /\ 0 < h /\ cpc c <> C_init) -> wf (mksys s c (workers x)).
Proof.
  intros [A B C D E] Hn Hz Hc Hs. split; simpl; auto. intros j w Hj. destruct (B _ _ Hj). split; [lia | eauto].
Qed.

Lemma wf_worker x i w s w' :
  wf x -> next (view (srv x)) <= next (view s) -> workers x !! i = Some w -> my_name w' = my_name w ->
  (w_zh w' = w_zh w \/ next (view (srv x)) <= w_zh w' < next (view s)) -> wf (with_worker i s w' x).
Proof.
  intros [A B C D E] Hn Hi Hm Hz. destruct (B _ _ Hi) as [B1 B2].
  assert (L : forall j u, <[i := w']> (workers x) !! j = Some u -> j = i /\ u = w' \/ j <> i /\ workers x !! j = Some u).
  { intros j u Hj. rewrite list_lookup_insert in Hj. case_decide as Ed; [left | right].
    - destruct Ed as [-> _]. by injection Hj as <-.
    - split; [|done]. intros ->. apply Ed. split; [done | by eapply lookup_lt_Some]. }
  split; simpl.
  - intros j k u u' [[-> ->]|[Hj Hu]]%L [[-> ->]|[Hk Hu']]%L Eq; eauto; exfalso; [apply Hk | apply Hj]; eapply A; eauto; congruence.
  - intros j u [[-> ->]|[Hj Hu]]%L; [|destruct (B _ _ Hu); split; [lia | auto]].
    destruct Hz as [->|Hz]; [split; [lia | auto] | split; [lia | intros _; lia]].
  - intros j k u u' [[-> ->]|[Hj Hu]]%L [[-> ->]|[Hk Hu']]%L Eq H0; eauto; exfalso.
    + destruct (B _ _ Hu') as [B3 _]. destruct Hz as [Hz|Hz]; [|lia]. apply Hk. eapply C; eauto; congruence.
    + destruct (B _ _ Hu) as [B3 _]. destruct Hz as [Hz|Hz]; [|lia]. apply Hj. eapply C; eauto; congruence.
  - lia.
  - done.
Qed.

Lemma wf_step x y : wf x -> step garbage x (Ok y) -> wf y.
Proof.
  intros Hx Hs. inversion Hs as [r Hr Ey|line Hl Ey|s c Hc Hw Ey|j w r Hj Hr Ey|j w Hj Hr Ey|j w s e Hj Hopen He Ey]; clear Hs.
  - destruct r as [[s c]|]; [|done]. injection Ey as <-. destruct (main_handles _ _ _ _ Hr) as (Hn & Hi & Hc).
    pose proof (wf_coord _ Hx) as Hcz. destruct Hc as [[Ez Es]|[Ez Es]].
    + apply wf_coordinator; auto; rewrite ?Ez; [intros; by eapply (wf_handles _ Hx) | lia |].
      intros h Eh. destruct (wf_session _ Hx h) as (? & ? & _); [destruct Es; congruence | auto].
    + apply wf_coordinator; auto; [| lia |].
      * intros j w Hj _. destruct (wf_handles _ Hx _ _ Hj). lia.
      * intros h. rewrite Es. intros [= <-]. split_and!; [done | lia | done].
  - subst y. assert (E : c_zh (read_line line (coord x)) = c_zh (coord x) /\ session (read_line line (coord x)) = session (coord x) /\
      cpc (read_line line (coord x)) <> C_init)
      by (destruct line; simpl; [case_bool_decide; simpl; rewrite ?Hl|]; done).
    destruct E as (Ez & Es & Ei). apply wf_coordinator; rewrite ?Ez, ?Es; auto using wf_coord.
    + intros; by eapply (wf_handles _ Hx).
    + intros h Hh. by destruct (wf_session _ Hx _ Hh) as (? & ? & _).
  - subst y. destruct (watcher_handles _ _ _ _ Hw) as (Hn & Ei & [[Ez Es]|[Ez Es]]); pose proof (wf_coord _ Hx);
      apply wf_coordinator; rewrite ?Ez, ?Es, ?Ei; auto using wf_session; try lia; try done.
    intros; by eapply (wf_handles _ Hx).
  - destruct r as [[s w']|]; [|done]. injection Ey as <-. destruct (client_handles garbage _ _ _ _ Hr) as (A & B & C).
    eapply wf_worker; eauto.
  - subst y. eapply wf_worker; eauto.
  - subst y. destruct (event_handles _ _ _ _ He) as (A & B & C). eapply wf_worker; eauto.
Qed.

Lemma wf_start s names : NoDup names -> 0 < next (view s) -> wf (start s names).
Proof.
  intros Hd Hn. split; simpl; try lia; try done.
  - intros j k w w' (n1 & -> & H1)%list_lookup_fmap_Some (n2 & -> & H2)%list_lookup_fmap_Some E. simpl in E. subst n2.
    by eapply NoDup_lookup.
  - intros j w (n1 & -> & H1)%list_lookup_fmap_Some. simpl. lia.
  - intros j k w w' (n1 & -> & H1)%list_lookup_fmap_Some. done.
Qed.

Lemma wf_reaches x y : wf x -> reaches garbage x y -> wf y.
Proof. intros Hx H. induction H; eauto using wf_step. Qed.

(** In such a state a worker with a session has it, and its name, for itself. *)
Lemma wf_base x i w :
  wf x -> workers x !! i = Some w -> w_zh w <> 0 -> cpc (coord x) <> C_init -> base (my_path w) i (w_zh w) x.
Proof.
  intros Hx Hi Hz Hc. destruct (wf_handles _ Hx _ _ Hi) as [Hr Hne]. split; auto using not_eq_sym; try lia.
  - intros j u Hj Hu. split.
    + intros E. apply Hj. eapply (wf_names _ Hx); eauto. unfold my_path, child_path in E. by apply (inj (app _)), (inj (app _)) in E.
    + intros E. apply Hj. eapply (wf_distinct _ Hx); eauto. congruence.
  - intros h Hh. destruct (wf_session _ Hx _ Hh) as (E & Hp & _). pose proof (wf_coord _ Hx). split_and!; [done | lia | lia |].
    intros j u Hu. destruct (decide (w_zh u = 0)); [lia|]. rewrite <- E. by apply (wf_handles _ Hx _ _ Hu).
Qed.

(** What marking the node as dead does to the service. *)
Lemma set_there zh p d s v o :
  zh <> 0 -> nodes (view s) !! p = Some (v, o) ->
  view (zoo_set zh p d s).1 = fire_data p (CHANGED_EVENT p) (set_nodes (<[p := (d, o)]> (nodes (view s))) (view s)).
Proof.
  intros Hz Hn. pose proof (set_spec zh p d s) as H. unfold checked, t_set in H.
  rewrite (proj2 (Z.eqb_neq zh 0)), Hn in H by done. by injection H.
Qed.

Lemma marked x i w s w' v :
  wf x -> workers x !! i = Some w -> wpc w = W_dead -> w_zh w <> 0 -> cpc (coord x) <> C_init ->
  nodes (view (srv x)) !! my_path w = Some (v, w_zh w) -> client_step garbage (srv x) w = Some (Ok (s, w')) ->
  w' = at_pc W_wait_deleted w /\ base (my_path w) i (w_zh w) (with_worker i s w' x) /\
  view s = fire_data (my_path w) (CHANGED_EVENT (my_path w))
    (set_nodes (<[my_path w := (lit "Dead" ++ [newline], w_zh w)]> (nodes (view (srv x)))) (view (srv x))).
Proof.
  intros Hx Hi Hpc Hz Hc Hn Hs. open_client Hs. rewrite Hpc in Hs. cbn [mbind option_bind] in Hs.
  destruct (w_open w); [|done]. injection Hs as <- <-. split_and!; [done | | by apply (set_there _ _ _ _ v)].
  eapply base_worker; eauto using wf_base. rewrite (set_there _ _ _ _ v (w_zh w)) by done. simpl. lia.
Qed.

(** The events of the sessions leave them open. *)
Definition stays_open (z : Z) s : Prop := Forall (fun e => closing e = false) (queue (view s) z).



(** ** Concrete runs *)

Inductive label := LMain | LLine (line : option cstr) | LWatch | LWorker (i : nat) | LFinish (i : nat) | LEvent (i : nat).

(** The step a label names, if it is enabled. *)
Definition exec1 x (l : label) : sys S :=
  match l with
  | LMain => match coordinator_step (srv x) (coord x) with Some (Ok (s, c)) => mksys s c (workers x) | _ => x end
  | LLine line =>
      match cpc (coord x) with C_serve => mksys (srv x) (read_line line (coord x)) (workers x) | _ => x end
  | LWatch =>
      match cpc (coord x), watcher_step (srv x) (coord x) with
      | C_exit, _ | _, None => x
      | _, Some (s, c) => mksys s c (workers x)
      end
  | LWorker i =>
      match workers x !! i with
      | Some w => match client_step garbage (srv x) w with Some (Ok (s, w')) => with_worker i s w' x | _ => x end
      | None => x
      end
  | LFinish i =>
      match workers x !! i with
      | Some w => match wpc w with W_running => with_worker i (srv x) (at_pc W_dead w) x | _ => x end
      | None => x
      end
  | LEvent i =>
      match workers x !! i with
      | Some w =>
          match w_open w, deliver (w_zh w) (srv x) with
          | true, Some (s, e) => with_worker i (client_event e s w).1 (client_event e s w).2 x
          | _, _ => x
          end
      | None => x
      end
  end.

Definition exec (ls : list label) x : sys S := foldl exec1 x ls.

Lemma exec1_reaches x l : reaches garbage x (exec1 x l).
Proof.
  destruct l as [|line| |i|i|i]; simpl.
  - destruct (coordinator_step _ _) as [[[s c]|]|] eqn:E; try reflexivity. apply rtc_once. exact (st_main garbage x _ E).
  - destruct (cpc (coord x)) eqn:E; try reflexivity. apply rtc_once. by constructor.
  - destruct (cpc (coord x)) eqn:E; try reflexivity.
    all: destruct (watcher_step _ _) as [[s c]|] eqn:E'; try reflexivity; apply rtc_once; constructor; [congruence | done].
  - destruct (workers x !! i) as [w|] eqn:E; [|reflexivity].
    destruct (client_step _ _ _) as [[[s w']|]|] eqn:E'; try reflexivity. apply rtc_once. exact (st_worker garbage x i w _ E E').
  - destruct (workers x !! i) as [w|] eqn:E; [|reflexivity].
    destruct (wpc w) eqn:E'; try reflexivity. apply rtc_once. by constructor.
  - destruct (workers x !! i) as [w|] eqn:E; [|reflexivity].
    destruct (w_open w) eqn:E'; [|reflexivity]. destruct (deliver _ _) as [[s e]|] eqn:Ed; [|reflexivity].
    apply rtc_once. by apply (st_event garbage x i w s e).
Qed.

Lemma exec_reaches ls x : reaches garbage x (exec ls x).
Proof. revert x. induction ls as [|l ls IH]; intros x; [reflexivity|]. etrans; [apply exec1_reaches | apply IH]. Qed.

End Runs.
(** The worker joins, the controller's watcher sees it, and the worker is told to
    finish. *)
Definition ordered_run : list label :=
  [LMain; LMain; LMain; LMain; LWorker 0; LWorker 0; LWorker 0; LWorker 0; LWorker 0;
   LWatch; LWatch; LWatch; LWatch; LFinish 0].


(** The worker joins and finishes between the controller's creation of the node
    [/Alive] and its first look at the children. *)
Definition early_run : list label :=
  [LMain; LMain; LMain; LWorker 0; LWorker 0; LWorker 0; LWorker 0; LWorker 0; LFinish 0].

Definition early_worker : client := mkclient (lit "w1") 2 true 0 0 W_dead.

(** The controller then looks at the children, serves its events and quits. *)
Definition late_run : list label :=
  [LMain; LWatch; LWatch; LWorker 0; LEvent 0; LLine (Some (lit "quit")); LMain; LMain; LMain; LMain; LWorker 0].


(** ** The number of workers *)

Lemma length_decimal f k n : (0 < k)%nat -> 0 <= n < 10 ^ Z.of_nat k -> (length (decimal f n) <= k)%nat.
Proof.
  revert k n. induction f as [|f IH]; intros k n Hk Hn; simpl; [lia|].
  destruct (Z.ltb_spec n 10); [done|]. rewrite length_app. simpl.
  destruct k as [|[|k]]; [lia | simpl in Hn; lia|]. rewrite Nat2Z.inj_succ, Z.pow_succ_r in Hn by lia.
  assert (length (decimal f (n / 10)) <= S k)%nat; [|lia].
  apply IH; [lia|]. split; [apply Z.div_pos; lia | apply Z.div_lt_upper_bound; lia].
Qed.

Lemma strtol_digits_stop acc l g : Forall is_digit l -> strtol_digits acc (l ++ newline :: g) = strtol_digits acc l.
Proof. intros Hl. revert acc. induction Hl as [|c l [v Hv] _ IH]; intros acc; simpl; [done|]. by rewrite Hv. Qed.

Lemma atoi_line l g : l <> [] -> Forall is_digit l -> atoi (l ++ newline :: g) = atoi l.
Proof.
  intros Hne Hl. destruct l as [|c l]; [done|]. pose proof Hl as Hl'. apply Forall_cons in Hl as [Hc _].
  destruct (digit_not_blank c Hc) as (Hs & Hm & Hp & _). unfold atoi. simpl. rewrite Hs, !bool_decide_false by done.
  pose proof (strtol_digits_stop 0 (c :: l) g Hl') as E. simpl in E. by rewrite E.
Qed.

(** What the controller writes the workers read back, whatever their buffer held. *)
Lemma published_count n g :
  0 <= n < 10 ^ 8 -> exists d, sprintf 10 (print_int n ++ [newline]) = Ok d /\ atoi (take 1000 d ++ g) = n.
Proof.
  intros Hn. exists (print_int n ++ [newline]). unfold sprintf, print_int. rewrite (proj2 (Z.ltb_ge n 0)) by lia.
  pose proof (length_decimal 10 8 n ltac:(lia) Hn) as Hl. split.
  - rewrite (proj2 (Z.leb_le _ _)); [done|]. rewrite length_app. cbn [length]. lia.
  - rewrite take_ge by (rewrite length_app; cbn [length]; lia). rewrite <- app_assoc. cbn [app].
    destruct (decimal_cons 9 n) as (c & l & E). rewrite atoi_line; [| by rewrite E | apply decimal_digits; lia].
    change (10 ^ 8) with 100000000 in Hn.
    apply (atoi_decimal 9); [change (10 ^ Z.of_nat 10) with 10000000000; lia | lia].
Qed.

(** [num_of_workers] is 0 when the controller starts, so it does not wait for
    workers, and a worker that reads it does not wait for the others. *)
Lemma nobody_waits {S} `{!ZooKeeper S} g (s : S) w :
  (exists s', coordinator_step s (at_main C_create_alive new_coordinator) = Some (Ok (s', at_main C_watch new_coordinator))) /\
  atoi (take 1000 (print_int (num_of_workers new_coordinator) ++ [newline]) ++ g) = 0 /\
  (wpc w = W_wait 0 -> w_num w = 0 -> w_open w = true -> client_step g s w = Some (Ok (s, at_pc W_running w))).
Proof.
  split_and!.
  - open_main. cbn. eexists. reflexivity.
  - destruct (published_count 0 g) as (d & E & H); [lia|]. by injection E as <-.
  - intros Hp Hn Ho. unfold client_step, client_calls, create_my_alive_node, delete_my_alive_node. by rewrite Hp, Hn, Ho.
Qed.

(** A controller whose session expired does not return from [finish] when it had
    workers: every call fails, and the loop only ends on an answer. *)
Lemma expired_controller_waits {S} `{!ZooKeeper S, !ZooKeeperSpec S} (s : S) c n :
  c_zh c = 0 -> cpc c = C_wait_gone n -> 0 < n ->
  exists s', coordinator_step s c = Some (Ok (s', c)) /\ view s' = view s.
Proof.
  intros Hz Hc Hn. open_main. rewrite Hc, Hz, (proj2 (Z.ltb_lt 0 n)) by done.
  destruct (get_children_spec false 0 NODE_NAME_ALIVE s) as [H _]. unfold checked in H. simpl in H.
  destruct (zoo_get_children false 0 NODE_NAME_ALIVE s) as [[s' rc] l]. simpl in H. injection H as Hv ->.
  exists s'. split; [|done]. unfold at_main. simpl. destruct c. simpl in *. by subst.
Qed.

(** A child whose path does not fit the buffer makes the deletion of a node
    overrun it. *)
Lemma long_child_overflows {S} `{!ZooKeeper S} zh node (s s1 : S) l name :
  zoo_get_children false zh node s = (s1, ZOK, l) -> name ∈ l -> 99 < Z.of_nat (length (child_path node name)) ->
  delete_node zh node s = Stop OutOfBounds.
Proof.
  intros E Hin Hlen. unfold delete_node. rewrite E. simpl. clear E s.
  assert (H : foldM (delete_child zh node) l s1 = Stop OutOfBounds); [|by rewrite H].
  revert s1. induction l as [|a l IH]; intros s1; [by apply not_elem_of_nil in Hin|]. cbn [foldM].
  apply elem_of_cons in Hin as [<-|Hin].
  - unfold delete_child, sprintf. by rewrite (proj2 (Z.leb_gt _ _)) by lia.
  - assert (E : (exists s', delete_child zh node s1 a = Ok s') \/ delete_child zh node s1 a = Stop OutOfBounds).
    { unfold delete_child, sprintf. destruct (Z.of_nat (length (child_path node a)) + 1 <=? 100); [left; eexists|right]; reflexivity. }
    destruct E as [[s' ->]| ->]; cbn [mbind result_bind]; [by apply IH | done].
Qed.
End Clients.
