(* ===== verification/Programs.v ===== *)
(** The programs of the count-min application ([apps/count_min/cm_worker.cpp],
    [merge_worker.cpp]) up to the point where their threads run: they read the
    configuration, build a worker and start it.  With them go the parts of the
    threads' initialisation that read the configuration
    ([src/thread/up_thread_trace.hpp], [adapter_ram.hpp], [adapter_disk.hpp],
    [apps/count_min/cm_thread.hpp], [merge_thread.hpp]).

    The programs are written against [Configuration], what a configuration
    offers, and proved against [ConfigurationSpec], what it promises; the object
    of the file Config keeps the promise. *)
From Stdlib Require Import Ascii String ZArith Lia.
From stdpp Require Import base gmap list.
From S2P Require Import Prelude TcpAddress Config RingBuffer Mpsc ComputeThread Callbacks Trace CountMin CountMinApp.
From S2P Require Import Poller Options Listener Connecter NetThreads ZooKeeper ZkClients Wiring.

Module Programs.
Import Addr Wiring.

(** ** Configurations *)

Class Configuration (S : Type) := {
  cfg_getint : cstr -> Z -> S -> result (Z * S);
  cfg_getstring : cstr -> S -> result (option cstr * S);
  cfg_get_ull : cstr -> Z -> S -> result (Z * S)
}.

(** The keys of the programs. *)
Definition key_ok (key : cstr) : Prop := (Config.NUL ∉ key) /\ (length key <= 100)%nat.

#[export] Instance key_ok_dec key : Decision (key_ok key).
Proof. unfold key_ok. apply _. Defined.

(** Every query returns the value of its key. *)
Class ConfigurationSpec (S : Type) `{Configuration S} := {
  cfg_ok : S -> Prop;
  int_value : cstr -> Z -> Z;
  string_value : cstr -> option cstr;
  getint_ok key notfound s : cfg_ok s -> key_ok key ->
    exists s', cfg_getint key notfound s = Ok (int_value key notfound, s') /\ cfg_ok s';
  getstring_ok key s : cfg_ok s -> key_ok key ->
    exists s', cfg_getstring key s = Ok (string_value key, s') /\ cfg_ok s';
  get_ull_ok key notfound s : cfg_ok s -> key_ok key ->
    exists s', cfg_get_ull key notfound s =
      Ok (match string_value key with None => notfound | Some v => Config.strtoull v end, s') /\ cfg_ok s'
}.

(** The global object, with the buffer of [strconcat]. *)
Section Object.
Context {dictionary : Type} (iniparser_load : cstr -> option dictionary).
Context (iniparser_getstring : option dictionary -> option cstr -> option cstr -> option cstr).
Context (iniparser_getint : option dictionary -> option cstr -> Z -> Z).

Definition object : Type := Config.Config (dictionary := dictionary) * list ascii.

Definition on_object {A} (f : list ascii -> Config.Config -> result (A * list ascii)) (s : object) : result (A * object) :=
  '(a, l) ← f s.2 s.1; Ok (a, (s.1, l)).

#[local] Instance object_configuration : Configuration object := {|
  cfg_getint key notfound := on_object (fun l c => Config.getint iniparser_getint l c key notfound);
  cfg_getstring key := on_object (fun l c => Config.getstring iniparser_getstring l c key None);
  cfg_get_ull key notfound := on_object (fun l c => Config.get_ull iniparser_getstring l c key notfound)
|}.

(** An object for the section [sec] of the dictionary [d]. *)
Definition object_ok (d : dictionary) (sec : cstr) (s : object) : Prop :=
  length s.2 = 1025%nat /\ Config.dict_ s.1 = Some (Some d) /\
  Config.c_str (Config.section_name_ s.1) = Ok (sec ++ [":"%char]).

Lemma object_query d sec key s :
  Config.NUL ∉ sec -> (length sec <= 900)%nat -> object_ok d sec s -> key_ok key ->
  exists l, Config.query s.2 s.1 key = Ok (Some d, Some (sec ++ ":"%char :: key), l) /\ object_ok d sec (s.1, l).
Proof.
  intros Hs Hl (H1 & H2 & H3) [Hk Hkl]. pose proof (Config.query_spec s.2 s.1 d sec key H1 H2 H3 Hs Hk) as Hq.
  rewrite bool_decide_true in Hq by lia. destruct Hq as (l & Hll & Hq). by exists l.
Qed.

Definition object_spec (d : dictionary) (sec : cstr) (Hsec : Config.NUL ∉ sec) (Hlen : (length sec <= 900)%nat) : ConfigurationSpec object.
Proof.
  refine {| cfg_ok := object_ok d sec;
            int_value key notfound := iniparser_getint (Some d) (Some (sec ++ ":"%char :: key)) notfound;
            string_value key := iniparser_getstring (Some d) (Some (sec ++ ":"%char :: key)) None |};
    [intros key notfound s Hok Hkey|intros key s Hok Hkey|intros key notfound s Hok Hkey];
    destruct (object_query d sec key s Hsec Hlen Hok Hkey) as (l & Hq & Hok'); exists (s.1, l); (split; [|exact Hok']);
    unfold cfg_getint, cfg_getstring, cfg_get_ull, object_configuration, on_object, Config.getint, Config.getstring, Config.get_ull;
    by rewrite Hq.
Defined.

End Object.

(** ** Values of numbers *)

Lemma strtoull_range s : 0 <= Config.strtoull s < 2 ^ 64.
Proof.
  assert (Hd : forall s acc, 0 <= acc -> 0 <= strtol_digits acc s).
  { intros s'. induction s' as [|c s' IH]; intros acc Hacc; simpl; [done|]. destruct (digit_value c) as [d|] eqn:E; [|done].
    apply IH. unfold digit_value in E. case_match eqn:Hb; [|done]. apply andb_true_iff in Hb as [Hb _]. apply Z.leb_le in Hb. injection E as <-. lia. }
  unfold Config.strtoull. destruct (skip_spaces s) as [|c s']; [lia|]. pose proof (Hd s' 0 ltac:(lia)). pose proof (Hd (c :: s') 0 ltac:(lia)).
  repeat case_bool_decide; [case_match; [lia|by apply unsigned_of_range]|lia|lia].
Qed.

(** ** Initialisation of the threads *)

Section Programs.
Context {S : Type} `{Configuration S}.

Inductive adapter := RAM (a : Trace.AdapterRAM) | Disk (a : Trace.AdapterDisk).

(** [AdapterRAM::Init] and [AdapterDisk::Init]; [fopen] is the contents of a
    file that can be opened, [garbage_cnt] what [cnt] of the disk adapter
    contains. *)
Context (fopen : cstr -> option (list Z)) (garbage_cnt : Z).

Definition AdapterRAM_Init (s : S) : result (adapter * S) :=
  '(max, s) ← cfg_get_ull (lit "adapter.max_data") 0 s;
  '(_, s) ← cfg_get_ull (lit "ram_adapter_print") 0 s;
  '(buf_size, s) ← cfg_get_ull (lit "memory_buffer_size") 0 s;
  _ ← afs_assert (negb (buf_size =? 0));
  '(filename, s) ← cfg_getstring (lit "trace_file") s;
  match filename with
  | None => Stop AssertFailed
  | Some f => a ← Trace.Init_RAM buf_size max (fopen f); Ok (RAM a, s)
  end.

Definition AdapterDisk_Init (s : S) : result (adapter * S) :=
  '(max, s) ← cfg_get_ull (lit "adapter.max_data") 0 s;
  '(filename, s) ← cfg_getstring (lit "trace_file") s;
  match filename with
  | None => Stop AssertFailed
  | Some f =>
      match fopen f with
      | None => Stop AssertFailed
      | Some file => Ok (Disk (Trace.mkDisk file [] max garbage_cnt), s)
      end
  end.

(** [UpThreadTrace::ThreadInitHandler]; [user] is [Init] of the adapter given to
    [SetAdapter], if there is one. *)
Definition UpThreadTrace_Init (user : option (S -> result (adapter * S))) (s : S) : result (adapter * S) :=
  '(adapter_type, s) ← cfg_getstring (lit "adapter_type") s;
  match adapter_type, user with
  | None, _ => Stop AssertFailed
  | Some _, Some init => init s
  | Some ty, None =>
      if bool_decide (ty = lit "ram") then AdapterRAM_Init s
      else if bool_decide (ty = lit "disk") then AdapterDisk_Init s
      else Stop ExitFailure
  end.

(** [ComputeThreadInit] of the two applications; [max_state_err] is the value of
    [getdouble], [byte0] and [seed] are those of the file CountMinApp, [t] is
    [thr_id ()] and [creat] tells whether a file can be opened for writing.  The
    sketch is built after all queries, which do not depend on it. *)
Context (max_state_err byte0 seed : Z) (creat : cstr -> bool).

Definition cm_thread_init (s : S) : result (App.cm_thread * Sketch.rows * S) :=
  '(row, s) ← cfg_getint (lit "row") 0 s;
  _ ← afs_assert (0 <? row);
  '(width, s) ← cfg_getint (lit "width") 0 s;
  _ ← afs_assert (0 <? width);
  '(thresh, s) ← cfg_get_ull (lit "thresh") (u64 (-1)) s;
  '(window, s) ← cfg_get_ull (lit "app.cm.window_bytes") 0 s;
  t ← App.ComputeThreadInit_cm row width max_state_err thresh window byte0 seed;
  Ok (t, s).

(** The name of the output file of a thread; a stream that could not be opened is
    only used later. *)
Definition merge_output (filename : cstr) (t : nat) : cstr := filename ++ lit "_" ++ Clients.print_int (Z.of_nat t).

Definition merge_thread_init (t : nat) (s : S) : result (App.merge_thread * Sketch.rows * bool * S) :=
  '(filename, s) ← cfg_getstring (lit "outputFile") s;
  match filename with
  | None => Stop AssertFailed
  | Some f =>
      let output := creat (merge_output f t) in
      '(row, s) ← cfg_getint (lit "row") 0 s;
      _ ← afs_assert (0 <? row);
      '(width, s) ← cfg_getint (lit "width") 0 s;
      _ ← afs_assert (0 <? width);
      '(thresh, s) ← cfg_get_ull (lit "thresh") (u64 (-1)) s;
      m ← App.ComputeThreadInit_merge (Some []) row width max_state_err thresh seed;
      Ok (m, output, s)
  end.

(** ** The programs *)

Context {In RIn A B : Type}.
Context (garbage : Z) (zero_in : Compute.WrapItem In) (zero_rin : Compute.WrapItem RIn) (zero_a : A) (zero_b : B).
Context (garbage_id garbage_clean : Z) (slot_a : nat -> Z -> A) (slot_b : nat -> Z -> B).
Context (getifaddrs : list (cstr * option sockaddr)) (getaddrinfo : cstr -> Z -> Z -> addrinfo).
Context (options : Options.options_t) (oracle : nat -> Connecter.answer) (fds : gset Z) (bind : Listener.bind_answers).

Abbreviation worker := (Worker In RIn A B).

Definition done_with {X} (r : result X) : result unit := _ ← r; Ok tt.

(** The handler of the down thread, if there is one. *)
Definition down_handler (w : worker) : result unit :=
  match down_thread_ w with
  | Some d => done_with (NetThreads.DownThreadInit getifaddrs getaddrinfo options oracle (d_net d) (worker_id_ w) fds)
  | None => Ok tt
  end.

(** [Worker::Start] up to the release of the threads.  [up_init] and [app_init]
    are the handlers of the up thread and of the compute threads; what they
    leave in the buffer of [strconcat] is overwritten by the next query.  The
    ZooKeeper client is in the file ZkClients. *)
Definition Start (up_init : S -> result unit) (app_init : nat -> S -> result unit) (recovery : Z) (w : worker) (s : S)
    : result (worker * S) :=
  '(zk_addr, s) ← cfg_getstring (lit "sys.zookeeper_server") s;
  '(backup_addr, s) ← cfg_getstring (lit "sys.backup_server") s;
  '(cpu_affinity, s) ← cfg_getstring (lit "sys.cpu_affinity") s;
  w' ← launch garbage zero_in zero_rin zero_a zero_b (up_init s) (down_handler w) (fun t => app_init t s) slot_a slot_b
         cpu_affinity recovery (bool_decide (backup_addr <> None)) w;
  Ok (w', s).

(** [worker->AddComputeThread (new ...)], [n] times. *)
Definition add_compute (num_upstream num_downstream : Z) (w : worker) : worker :=
  let '(c, fwd, rev) := new_ComputeThread garbage_clean num_upstream num_downstream (fwd_ w) (rev_ w) in
  set_stores fwd rev (AddComputeThread c w).

Definition addr_key (i : Z) : result cstr :=
  tmp ← Clients.sprintf 10 (Clients.print_int i); Ok (lit "downstream_addr" ++ tmp).

Definition add_dests (n : Z) (t : DownThreadNet RIn) (fwd : Mpsc.store A) (s : S) : result (DownThreadNet RIn * Mpsc.store A * S) :=
  foldM (fun '(t, fwd, s) i =>
    key ← addr_key i;
    '(addr, s) ← cfg_getstring key s;
    '(t, fwd) ← AddDest garbage_id addr (t, fwd);
    Ok (t, fwd, s)) (indices (Z.to_nat n)) (t, fwd, s).

(** The down thread is made only for downstream workers. *)
Definition add_down (num_compute_thread num_downstream : Z) (w : worker) (s : S) : result (worker * S) :=
  if num_downstream =? 0 then Ok (w, s)
  else
    '(t, fwd, s) ← add_dests num_downstream (new_DownThreadNet num_compute_thread num_downstream) (fwd_ w) s;
    Ok (set_stores fwd (rev_ w) (AddDownThread t w), s).

(** [main] of cm_worker.cpp; [None] is the return value -1, [Some] a worker
    whose threads were released. *)
Definition cm_main (getInstance : cstr -> cstr -> result S) (argv : list cstr) : result (option (worker * S)) :=
  match argv with
  | [_; config_name; worker_name; recovery] =>
      s ← getInstance config_name worker_name;
      '(num_compute_thread, s) ← cfg_getint (lit "num_compute_threads") 0 s;
      if num_compute_thread =? 0 then Ok None
      else
        '(worker_id, s) ← cfg_getint (lit "worker_id") (-1) s;
        _ ← afs_assert (0 <=? worker_id);
        let w0 := AddUpThread new_UpThreadTrace (new_Worker worker_id num_compute_thread [] []) in
        '(num_downstream, s) ← cfg_getint (lit "num_downstreams") 0 s;
        let w1 := Nat.iter (Z.to_nat num_compute_thread) (add_compute 0 num_downstream) w0 in
        '(w2, s) ← add_down num_compute_thread num_downstream w1 s;
        '(w3, s) ← Start (fun s => done_with (UpThreadTrace_Init None s)) (fun _ s => done_with (cm_thread_init s)) (atoi recovery) w2 s;
        Ok (Some (w3, s))
  | _ => Ok None
  end.

(** [main] of merge_worker.cpp. *)
Definition merge_main (getInstance : cstr -> cstr -> result S) (argv : list cstr) : result (option (worker * S)) :=
  match argv with
  | [_; config_name; worker_name; recovery] =>
      s ← getInstance config_name worker_name;
      '(num_compute_thread, s) ← cfg_getint (lit "num_compute_threads") 0 s;
      if num_compute_thread =? 0 then Ok None
      else
        '(worker_id, s) ← cfg_getint (lit "worker_id") (-1) s;
        _ ← afs_assert (0 <=? worker_id);
        let w0 := new_Worker worker_id num_compute_thread [] [] in
        '(addr, s) ← cfg_getstring (lit "listen_addr") s;
        match addr with
        | None => Ok None
        | Some addr =>
            '(num_in, s) ← cfg_getint (lit "num_upstreams") 0 s;
            let '(u, rev) := new_UpThreadNet garbage_id num_in num_compute_thread (rev_ w0) in
            let u1 := mkup (u_base u) match u_kind u with UpNet n => UpNet (AddSource addr n) | k => k end in
            let w1 := set_stores (fwd_ w0) rev (AddUpThread u1 w0) in
            let w2 := Nat.iter (Z.to_nat num_compute_thread) (add_compute num_in 0) w1 in
            '(w3, s) ← Start (fun _ => done_with (NetThreads.UpThreadInit getifaddrs getaddrinfo tt options addr fds bind))
                         (fun t s => done_with (merge_thread_init t s)) (atoi recovery) w2 s;
            Ok (Some (w3, s))
        end
  | _ => Ok None
  end.

(** ** The parts of the configuration *)

Context `{!ConfigurationSpec S}.

(** A query whose key is written in the program, or known to be fine. *)
Ltac known_key := first [eassumption | apply (bool_decide_unpack _); reflexivity].
Ltac query :=
  match goal with
  | Hok : cfg_ok ?s |- _ =>
      let s' := fresh "s" in let E := fresh "E" in let Hok' := fresh "Hok" in
      first
        [ match goal with |- context [cfg_getint ?k ?n s] =>
            destruct (getint_ok k n s Hok ltac:(known_key)) as (s' & E & Hok') end
        | match goal with |- context [cfg_getstring ?k s] =>
            destruct (getstring_ok k s Hok ltac:(known_key)) as (s' & E & Hok') end
        | match goal with |- context [cfg_get_ull ?k ?n s] =>
            destruct (get_ull_ok k n s Hok ltac:(known_key)) as (s' & E & Hok') end ];
      rewrite E; clear E; cbn [mbind result_bind]
  end.

Definition ull_value (key : cstr) (notfound : Z) : Z :=
  match string_value key with None => notfound | Some v => Config.strtoull v end.

(** The trace: a file that opens and, when it is read into memory, a buffer and
    no zero bytes. *)
Definition source_ok : Prop :=
  exists f file, string_value (lit "trace_file") = Some f /\ fopen f = Some file /\
    (string_value (lit "adapter_type") = Some (lit "disk") \/
     string_value (lit "adapter_type") = Some (lit "ram") /\ 0 < ull_value (lit "memory_buffer_size") 0 /\ Forall (fun b => b <> 0) file).

Lemma ull_range key : 0 <= ull_value key 0 < 2 ^ 64.
Proof. unfold ull_value. destruct (string_value key); [apply strtoull_range|lia]. Qed.

Lemma trace_init_ok s : source_ok -> cfg_ok s -> done_with (UpThreadTrace_Init None s) = Ok tt.
Proof.
  intros (f & file & Hf & Hopen & Htype) Hok. unfold done_with, UpThreadTrace_Init. query.
  destruct Htype as [Htype|(Htype & Hbuf & Hnz)]; rewrite Htype.
  - rewrite bool_decide_false, bool_decide_true by done. unfold AdapterDisk_Init. query. query. rewrite Hf, Hopen. done.
  - rewrite bool_decide_true by done. unfold AdapterRAM_Init. query. query. query.
    fold (ull_value (lit "memory_buffer_size") 0) (ull_value (lit "adapter.max_data") 0).
    rewrite (proj2 (Z.eqb_neq _ 0)) by lia. cbn [negb afs_assert mbind result_bind]. query. rewrite Hf, Hopen.
    pose proof (ull_range (lit "adapter.max_data")) as Hm. pose proof (ull_range (lit "memory_buffer_size")) as Hb.
    destruct (Trace.Init_RAM_spec (ull_value (lit "memory_buffer_size") 0) (ull_value (lit "adapter.max_data") 0) file)
      as (st & _ & _ & Hi & _); [lia|lia|done|]. by rewrite Hi.
Qed.

(** Without one of the two types the process exits, and without a type or a file
    it stops on an assertion. *)
Lemma trace_init_stops s : cfg_ok s ->
  match string_value (lit "adapter_type") with
  | None => UpThreadTrace_Init None s = Stop AssertFailed
  | Some ty => ty <> lit "ram" -> ty <> lit "disk" -> UpThreadTrace_Init None s = Stop ExitFailure
  end.
Proof.
  intros Hok. unfold UpThreadTrace_Init. query. destruct (string_value _) as [ty|]; [|done].
  intros H1 H2. by rewrite !bool_decide_false.
Qed.

Definition sketch_ok : Prop := 0 < int_value (lit "row") 0 < 2 ^ 31 /\ 0 < int_value (lit "width") 0 < 2 ^ 31.

Lemma sketch_init_ok : sketch_ok ->
  s32 (int_value (lit "row") 0) = int_value (lit "row") 0 /\ s32 (int_value (lit "width") 0) = int_value (lit "width") 0 /\
  (0 <? int_value (lit "row") 0) = true /\ (0 <? int_value (lit "width") 0) = true /\
  exists sk, Sketch.new_CountMin seed (int_value (lit "row") 0) (int_value (lit "width") 0) max_state_err = Ok sk.
Proof.
  intros [Hr Hw]. split_and!; try (apply Z.ltb_lt; lia); try (apply signed_of_small; unfold in_signed; lia).
  destruct (Sketch.new_CountMin_ok seed (int_value (lit "row") 0) (int_value (lit "width") 0) max_state_err) as (cm & arrs & E & _);
    [lia|lia|by exists (cm, arrs)].
Qed.

Lemma cm_init_ok s : sketch_ok -> cfg_ok s -> done_with (cm_thread_init s) = Ok tt.
Proof.
  intros (Er & Ew & Hr & Hw & sk & Hsk)%sketch_init_ok Hok. unfold done_with, cm_thread_init. query. rewrite Hr. cbn [afs_assert mbind result_bind].
  query. rewrite Hw. cbn [afs_assert mbind result_bind]. query. query.
  unfold App.ComputeThreadInit_cm. rewrite Er, Ew, Hr, Hw. cbn [afs_assert mbind result_bind]. rewrite Hsk. cbn [mbind result_bind].
  rewrite (proj2 (Z.leb_le _ _)) by (by apply unsigned_of_range). done.
Qed.

Lemma merge_init_ok t s f : sketch_ok -> string_value (lit "outputFile") = Some f -> cfg_ok s -> done_with (merge_thread_init t s) = Ok tt.
Proof.
  intros (Er & Ew & Hr & Hw & sk & Hsk)%sketch_init_ok Hf Hok. unfold done_with, merge_thread_init. query. rewrite Hf. query.
  rewrite Hr. cbn [afs_assert mbind result_bind].
  query. rewrite Hw. cbn [afs_assert mbind result_bind]. query.
  unfold App.ComputeThreadInit_merge. rewrite Er, Ew, Hr, Hw. cbn [afs_assert mbind result_bind]. rewrite Hsk. cbn [mbind result_bind].
  rewrite (proj2 (Z.leb_le _ _)) by (by apply unsigned_of_range). done.
Qed.

(** ** Building the worker *)

Abbreviation built := (built garbage_id garbage_clean).

(** What [n] compute threads change in a worker. *)
Lemma add_computes_spec nu nd n (w : worker) :
  built w ->
  let w' := Nat.iter n (add_compute nu nd) w in
  built w' /\ worker_id_ w' = worker_id_ w /\ w_num_compute_thread_ w' = w_num_compute_thread_ w /\
  up_thread_ w' = up_thread_ w /\ down_thread_ w' = down_thread_ w /\
  exists cs, compute_threads_ w' = compute_threads_ w ++ cs /\ length cs = n /\
    Forall (fun c => num_upstream_ c = nu /\ num_downstream_ c = nd) cs.
Proof.
  intros Hb w'. subst w'. induction n as [|n IH].
  { split_and!; try done. exists []. by rewrite app_nil_r. }
  cbn [Nat.iter nat_rect]. set (v := Nat.iter n (add_compute nu nd) w) in *.
  change (nat_rect _ w _ n) with v. destruct IH as (Hbv & Hid & Hn & Hu & Hd & cs & Hcs & Hl & Hall). unfold add_compute.
  destruct (new_ComputeThread garbage_clean nu nd (fwd_ v) (rev_ v)) as [[c fwd] rev] eqn:Hnew.
  split_and!; [by eapply built_compute|done|done|done|done|]. exists (cs ++ [c]). cbn [compute_threads_ set_stores AddComputeThread set_threads].
  rewrite Hcs, app_assoc, length_app, Hl. split_and!; [done|simpl; lia|]. apply Forall_app. split; [done|]. constructor; [|constructor].
  unfold new_ComputeThread in Hnew. repeat case_match. by injection Hnew as <- _ _.
Qed.

(** What [AddDest] for a list of addresses changes in a down thread. *)
Lemma AddDests_ok dests (t : DownThreadNet RIn) (fwd : Mpsc.store A) :
  exists t' fwd', foldM (fun s dest => AddDest garbage_id dest s) (Some <$> dests) (t, fwd) = Ok (t', fwd') /\
    d_net t' = NetThreads.mkdown (NetThreads.num_downstream_ (d_net t)) (NetThreads.connect_addrs_ (d_net t) ++ dests) /\
    length (d_out_callbacks_ t') = (length (d_out_callbacks_ t) + length dests)%nat.
Proof.
  revert t fwd. induction dests as [|a dests IH]; intros t fwd; cbn [fmap list_fmap foldM].
  { exists t, fwd. split_and!; [done| |simpl; lia]. rewrite app_nil_r. by destruct (d_net t). }
  cbn [AddDest add_callback new_OutCallbackSimple new_object fst snd]. cbn [mbind result_bind].
  edestruct IH as (t' & fwd' & -> & Hnet & Hlen). exists t', fwd'. split; [done|]. rewrite Hnet, Hlen.
  cbn [d_net d_out_callbacks_ NetThreads.AddDest NetThreads.num_downstream_ NetThreads.connect_addrs_]. split; [by rewrite <- app_assoc|].
  rewrite length_app. simpl. lia.
Qed.

(** The key of destination [i]. *)
Lemma addr_key_ok i : 0 <= i < 10 ^ 9 ->
  addr_key i = Ok (lit "downstream_addr" ++ Clients.print_int i) /\ key_ok (lit "downstream_addr" ++ Clients.print_int i).
Proof.
  intros Hi. unfold addr_key, Clients.sprintf, Clients.print_int. rewrite (proj2 (Z.ltb_ge i 0)) by lia.
  pose proof (Clients.length_decimal 10 9 i ltac:(lia) Hi) as Hl. rewrite (proj2 (Z.leb_le _ _)) by lia. split; [done|].
  split; [|rewrite length_app; change (length (lit "downstream_addr")) with 15%nat; lia]. rewrite not_elem_of_app. split; [apply (bool_decide_unpack _); reflexivity|].
  intros Hin. pose proof (decimal_digits 10 i ltac:(lia)) as Hd. rewrite Forall_forall in Hd. destruct (Hd _ Hin) as [v Hv]. done.
Qed.

(** The destinations of the configuration. *)
Definition dests_are (dests : list cstr) : Prop :=
  forall i addr, dests !! i = Some addr -> string_value (lit "downstream_addr" ++ Clients.print_int (Z.of_nat i)) = Some addr.

Lemma add_dests_spec dests n t fwd s :
  dests_are dests -> Z.of_nat (length dests) < 10 ^ 9 -> (n <= length dests)%nat -> cfg_ok s ->
  exists s', cfg_ok s' /\ add_dests (Z.of_nat n) t fwd s =
    '(t', fwd') ← foldM (fun s dest => AddDest garbage_id dest s) (Some <$> take n dests) (t, fwd); Ok (t', fwd', s').
Proof.
  intros Hd Hlen. unfold add_dests. rewrite Nat2Z.id. induction n as [|n IH]; intros Hn Hok.
  { by exists s. }
  destruct (IH ltac:(lia) Hok) as (s1 & Hok1 & E). destruct (lookup_lt_is_Some_2 dests n ltac:(lia)) as [addr Ha].
  destruct (addr_key_ok (Z.of_nat n) ltac:(lia)) as [Hk Hkok].
  rewrite indices_S, foldM_app, E, (take_S_r _ _ _ Ha), fmap_app, foldM_app.
  destruct (foldM _ (Some <$> take n dests) (t, fwd)) as [[t1 fwd1]|e]; [|by exists s1]. cbn [mbind result_bind foldM fmap list_fmap].
  rewrite Hk. cbn [mbind result_bind]. query. rewrite (Hd _ _ Ha). eexists. split; [done|].
  by destruct (AddDest garbage_id (Some addr) (t1, fwd1)) as [[t2 fwd2]|].
Qed.

(** A destination that is missing in the configuration throws. *)
Lemma missing_dest_throws dests n t fwd s :
  dests_are dests -> string_value (lit "downstream_addr" ++ Clients.print_int (Z.of_nat (length dests))) = None ->
  Z.of_nat (length dests) < n < 10 ^ 9 -> cfg_ok s -> add_dests n t fwd s = Stop UncaughtException.
Proof.
  intros Hd Hnone Hn Hok. destruct (add_dests_spec dests (length dests) t fwd s Hd ltac:(lia) ltac:(lia) Hok) as (s1 & Hok1 & E).
  destruct (addr_key_ok (Z.of_nat (length dests)) ltac:(lia)) as [Hk Hkok].
  unfold add_dests in *. rewrite Nat2Z.id in E.
  replace (Z.to_nat n) with (Datatypes.S (length dests) + (Z.to_nat n - Datatypes.S (length dests)))%nat by lia.
  assert (Hsplit : forall a b, indices (a + b) = indices a ++ (Z.of_nat <$> seq a b)) by (intros; unfold indices; by rewrite seq_app, fmap_app).
  rewrite Hsplit, indices_S, foldM_app, foldM_app, E.
  destruct (AddDests_ok (take (length dests) dests) t fwd) as (t1 & fwd1 & -> & _). cbn [mbind result_bind foldM].
  rewrite Hk. cbn [mbind result_bind]. query. by rewrite Hnone.
Qed.

(** ** Starting *)

Abbreviation launch := (launch garbage zero_in zero_rin zero_a zero_b).
Abbreviation affinity := (string_value (lit "sys.cpu_affinity")).
Abbreviation backup := (bool_decide (string_value (lit "sys.backup_server") <> None)).

Lemma Start_ok up_init app_init recovery (w : worker) s :
  cfg_ok s -> built w -> 0 <= w_num_compute_thread_ w < 2 ^ 31 ->
  (forall s, cfg_ok s -> consistent (up_init s) (down_handler w) (fun t => app_init t s) affinity recovery backup w) ->
  exists w' s', Start up_init app_init recovery w s = Ok (w', s') /\
    launch (up_init s') (down_handler w) (fun t => app_init t s') slot_a slot_b affinity recovery backup w = Ok w'.
Proof.
  intros Hok Hb Hn Hc. unfold Start. query. query. query.
  destruct (built_wf garbage zero_a zero_b garbage_id garbage_clean w Hb) as (ka & kb & Hwf).
  edestruct (launch_ok garbage zero_in zero_rin zero_a zero_b) as (u & bs & ub & db & cpu & fwd & rev & _ & _ & Hl & _);
    [exact Hwf|exact Hn|apply Hc; eassumption|].
  eexists _, _. rewrite Hl. split; [reflexivity|exact Hl].
Qed.

(** The affinity string names at most [n] compute threads, and an output core
    only with a down thread. *)
Definition affinity_fits (n : Z) (down : Prop) : Prop :=
  forall str, affinity = Some str ->
    (forall field, tokens ";"%char str !! 1%nat = Some field -> Z.of_nat (length (cpu_list field)) <= n) /\
    (is_Some (tokens ";"%char str !! 3%nat) -> down).

(** What every worker needs. *)
Record worker_config (n recovery : Z) (down : Prop) : Prop := mkworker_config {
  wc_threads : int_value (lit "num_compute_threads") 0 = n;
  wc_range : 0 < n < 2 ^ 31;
  wc_id : 0 <= int_value (lit "worker_id") (-1);
  wc_affinity : affinity_fits n down;
  wc_recovery : 0 < recovery -> is_Some (string_value (lit "sys.backup_server"));
  wc_sketch : sketch_ok
}.

(** A complete configuration of a worker that reads a trace and sends to the
    workers [dests]. *)
Record cm_config (n recovery : Z) (dests : list cstr) : Prop := mkcm_config {
  cc_worker : worker_config n recovery (dests <> []);
  cc_source : source_ok;
  cc_num : int_value (lit "num_downstreams") 0 = Z.of_nat (length dests);
  cc_few : Z.of_nat (length dests) < 10 ^ 9;
  cc_dests : dests_are dests;
  cc_usable : Forall (NetThreads.usable getifaddrs getaddrinfo options) dests
}.

(** A started worker of [n] compute threads.  Every thread has its ids and its
    ring, and the given number of readers at the up and the down thread that its
    writers are connected with. *)
Record running (wid : Z) (n : nat) (num_in num_out : nat) (w' : worker) (t : nat) (c : ComputeThread) : Prop := mkrunning {
  run_ids : wid_ (c_base c) = wid /\ tid_ (c_base c) = Z.of_nat t;
  run_in : in_queue_ c = Some (Z.of_nat t);
  run_out i : (i < num_out)%nat -> exists d cb x, down_thread_ w' = Some d /\ d_out_callbacks_ d !! i = Some cb /\
    down_writer_ c = Some x /\ linked_pair (fwd_ w') n num_out t i x cb;
  run_back i : (i < num_in)%nat -> exists u cb x, up_thread_ w' = Some u /\ up_cbs u !! i = Some cb /\
    up_writer_ c = Some x /\ linked_pair (rev_ w') n num_in t i x cb
}.

Lemma launch_running up_init down_init app_init recovery (w w' : worker) n num_in num_out :
  built w -> launch up_init down_init app_init slot_a slot_b affinity recovery backup w = Ok w' ->
  w_num_compute_thread_ w = Z.of_nat n -> Z.of_nat n < 2 ^ 31 -> length (compute_threads_ w) = n ->
  (exists u, up_thread_ w = Some u /\ up_fan u = num_in /\ (num_in <= length (up_cbs u))%nat) ->
  match down_thread_ w with
  | Some d => down_fan d = num_out /\ (num_out <= length (d_out_callbacks_ d))%nat
  | None => num_out = 0%nat
  end ->
  length (compute_threads_ w') = n /\
  (forall d, down_thread_ w = Some d -> exists d', down_thread_ w' = Some d' /\ d_net d' = d_net d) /\
  forall t, (t < n)%nat -> exists c, compute_threads_ w' !! t = Some c /\ running (worker_id_ w) n num_in num_out w' t c.
Proof.
  intros Hb Hl Hn Hlt Hlen (u & Hu & Hin & Hcbs) Hd.
  assert (Hst : take (Z.to_nat (w_num_compute_thread_ w)) (compute_threads_ w) = compute_threads_ w) by (apply take_ge; lia).
  destruct (launch_shape _ _ _ _ _ _ _ _ _ _ _ _ _ _ _ _ _ Hb ltac:(lia) Hl) as (_ & Hlen' & Hdown & Hup).
  destruct (launch_wired _ _ _ _ _ _ _ _ _ _ _ _ _ _ _ _ _ Hb ltac:(lia) Hl) as (Hwired & _ & _). rewrite Hst in Hwired.
  split_and!; [lia|intros d Hd'; destruct (Hdown d Hd') as (d' & ? & ? & _); by exists d'|].
  intros t Ht. destruct (lookup_lt_is_Some_2 (compute_threads_ w) t ltac:(lia)) as [c Hc].
  destruct (Hwired t c Hc) as (c' & Hc' & [Hids Hinq _ Hwd Hwu]). rewrite Hst, Hlen in Hwd, Hwu.
  exists c'. split; [done|]. split; [by destruct Hids as (? & ? & _)|done| |].
  - intros i Hi. destruct (down_thread_ w) as [d|]; [|lia]. destruct Hd as [Hf Hle]. destruct (Hdown d eq_refl) as (d' & Hd' & Hnet & Hl').
    destruct (lookup_lt_is_Some_2 (d_out_callbacks_ d') i ltac:(lia)) as [cb Hcb].
    assert (E : down_fan d' = num_out) by (rewrite <- Hf; unfold down_fan, GetDownstream; by rewrite Hnet).
    destruct (Hwd d' i cb Hd' Hcb ltac:(lia)) as (x & Hx & Hp). rewrite E in Hp. by exists d', cb, x.
  - intros i Hi. destruct (Hup u Hu) as (u' & Hu' & Hf & Hl').
    destruct (lookup_lt_is_Some_2 (up_cbs u') i ltac:(lia)) as [cb Hcb].
    destruct (Hwu u' i cb Hu' Hcb ltac:(lia)) as (x & Hx & Hp). rewrite Hf, Hin in Hp. by exists u', cb, x.
Qed.

(** The down thread of a complete configuration. *)
Lemma add_down_ok n dests (w : worker) s :
  dests_are dests -> Z.of_nat (length dests) < 10 ^ 9 -> built w -> down_thread_ w = None -> cfg_ok s ->
  exists w' s', add_down n (Z.of_nat (length dests)) w s = Ok (w', s') /\ cfg_ok s' /\ built w' /\
    worker_id_ w' = worker_id_ w /\ w_num_compute_thread_ w' = w_num_compute_thread_ w /\
    compute_threads_ w' = compute_threads_ w /\ up_thread_ w' = up_thread_ w /\
    match down_thread_ w' with
    | Some d => dests <> [] /\ d_net d = NetThreads.mkdown (length dests) dests /\ length (d_out_callbacks_ d) = length dests
    | None => dests = []
    end.
Proof.
  intros Hd Hlen Hb Hnone Hok. unfold add_down. destruct (Z.eqb_spec (Z.of_nat (length dests)) 0) as [H0|H0].
  { destruct dests; [|done]. exists w, s. rewrite Hnone. by split_and!. }
  destruct (add_dests_spec dests (length dests) (new_DownThreadNet n (Z.of_nat (length dests))) (fwd_ w) s Hd Hlen (Nat.le_refl _) Hok)
    as (s' & Hok' & ->). rewrite firstn_all.
  destruct (AddDests_ok dests (new_DownThreadNet n (Z.of_nat (length dests))) (fwd_ w)) as (d & fwd & Hrun & Hnet & Hcbs).
  rewrite Hrun. cbn [mbind result_bind]. eexists _, s'. split; [reflexivity|].
  split_and!; [done|by eapply built_down|done|done|done|done|]. cbn [down_thread_ set_stores AddDownThread set_down].
  split_and!; [by intros ->| |exact Hcbs]. rewrite Hnet. cbn [new_DownThreadNet d_net NetThreads.num_downstream_ NetThreads.connect_addrs_ app].
  f_equal. rewrite (unsigned_of_small 64), Nat2Z.id by (unfold in_unsigned; lia). done.
Qed.

(** The parts of consistency that hold for every worker of these programs. *)
Lemma worker_consistent up_init app_init n recovery (w : worker) nu nd u (down : Prop) :
  worker_config n recovery down ->
  worker_id_ w = int_value (lit "worker_id") (-1) -> w_num_compute_thread_ w = n -> Z.of_nat (length (compute_threads_ w)) = n ->
  Forall (fun c => num_upstream_ c = nu /\ num_downstream_ c = nd) (compute_threads_ w) ->
  up_thread_ w = Some u -> up_fan u = Z.to_nat nu -> (down -> is_Some (down_thread_ w)) ->
  match down_thread_ w with
  | None => nd <= 0
  | Some d => down_fan d = Z.to_nat nd /\ (down_fan d <= length (d_out_callbacks_ d))%nat
  end ->
  up_init = Ok tt -> (forall t, app_init t = Ok tt) -> down_handler w = Ok tt ->
  consistent up_init (down_handler w) app_init affinity recovery backup w.
Proof.
  intros [Hn Hrange Hid Ha Hrec _] Hwid Hwn Hlen Hall Hu Hfan Hdown Hd Hui Hai Hdi.
  rewrite Forall_forall in Hall.
  assert (Hin : forall c, c ∈ take (Z.to_nat (w_num_compute_thread_ w)) (compute_threads_ w) -> c ∈ compute_threads_ w)
    by (intros c Hc; apply elem_of_take in Hc as (i & Hi & _); by eapply list_elem_of_lookup_2).
  split_and!; [lia|lia| | | |done|done|done|].
  - exists u. split; [done|]. apply Forall_forall. intros c Hc. destruct (Hall c (Hin c Hc)) as [-> _]. lia.
  - destruct (down_thread_ w) as [d|].
    + destruct Hd as [Hf Hle]. split; [|done]. apply Forall_forall. intros c Hc. destruct (Hall c (Hin c Hc)) as [_ ->]. lia.
    + apply Forall_forall. intros c Hc. destruct (Hall c (Hin c Hc)) as [_ ->]. lia.
  - intros str Hs. destruct (Ha str Hs) as [H1 H2]. split; [|by auto]. intros field Hf. specialize (H1 field Hf). lia.
  - intros Hr. destruct (Hrec Hr) as [b Hb]. apply bool_decide_true. by rewrite Hb.
Qed.

(** The network: reconnection intervals that make sense, a kernel that keeps its
    contract and the descriptors that are open already. *)
Definition network_ok : Prop :=
  Connecter.ivl_ok (Options.reconnect_ivl options) (Options.reconnect_ivl_max options) /\ Connecter.oracle_ok oracle /\ Poller.retired_fd ∉ fds.

Lemma down_handler_ok dests (w : worker) :
  network_ok -> Forall (NetThreads.usable getifaddrs getaddrinfo options) dests ->
  (forall d, down_thread_ w = Some d -> d_net d = NetThreads.mkdown (length dests) dests) -> down_handler w = Ok tt.
Proof.
  intros (HI & HO & Hf) Hall Hd. unfold down_handler. destruct (down_thread_ w) as [d|]; [|done]. rewrite (Hd d eq_refl).
  rewrite NetThreads.down_init_ok by done. cbn [NetThreads.num_downstream_].
  destruct (Connecter.connecters_run _ _ oracle (worker_id_ w) (length dests) fds HI HO Hf) as (st & -> & _). done.
Qed.

Lemma down_fan_dests (d : DownThreadNet RIn) dests :
  Z.of_nat (length dests) < 10 ^ 9 -> d_net d = NetThreads.mkdown (length dests) dests -> down_fan d = length dests.
Proof.
  intros Hfew En. unfold down_fan, GetDownstream. rewrite En. cbn [NetThreads.num_downstream_].
  rewrite (signed_of_small 32), Nat2Z.id by (unfold in_signed; lia). done.
Qed.

(** A worker of the count-min program starts: with a complete configuration,
    whatever the number of threads and of downstream workers, [main] reads the
    configuration, builds the worker and releases its [n] compute threads; every
    thread has its ids, its ring to the trace thread and a channel to each
    destination, and the down thread connects to exactly the configured
    addresses. *)
Theorem cm_main_starts getInstance prog config_name worker_name recovery s0 n dests :
  getInstance config_name worker_name = Ok s0 -> cfg_ok s0 -> cm_config n (atoi recovery) dests -> network_ok ->
  exists w' s', cm_main getInstance [prog; config_name; worker_name; recovery] = Ok (Some (w', s')) /\
    length (compute_threads_ w') = Z.to_nat n /\
    (dests <> [] -> exists d, down_thread_ w' = Some d /\ NetThreads.connect_addrs_ (d_net d) = dests) /\
    forall t, (t < Z.to_nat n)%nat -> exists c, compute_threads_ w' !! t = Some c /\
      running (int_value (lit "worker_id") (-1)) (Z.to_nat n) 0 (length dests) w' t c.
Proof.
  intros Hget Hok [Hwc Hsrc Hnd Hfew Hd Hall] Hnet. pose proof Hwc as [Hn Hrange Hid Ha Hrec Hsk].
  unfold cm_main. rewrite Hget. cbn [mbind result_bind]. query. rewrite Hn, (proj2 (Z.eqb_neq n 0)) by lia. query.
  rewrite (proj2 (Z.leb_le _ _)) by done. cbn [afs_assert mbind result_bind]. query. rewrite Hnd.
  set (w0 := AddUpThread new_UpThreadTrace (new_Worker (int_value (lit "worker_id") (-1)) n [] [])).
  assert (Hb0 : built w0) by apply built_trace, built_new.
  destruct (add_computes_spec 0 (Z.of_nat (length dests)) (Z.to_nat n) w0 Hb0) as (Hb1 & Hid1 & Hn1 & Hu1 & Hd1 & cs & Hcs & Hl & Hnums).
  edestruct (add_down_ok n dests) as (w2 & sd & E & Hokd & Hb2 & Hid2 & Hn2 & Hc2 & Hu2 & Hd2);
    [exact Hd|exact Hfew|exact Hb1|exact Hd1|eassumption|]. rewrite E. clear E. cbn [mbind result_bind].
  rewrite Hid1 in Hid2. rewrite Hn1 in Hn2. rewrite Hcs in Hc2. rewrite Hu1 in Hu2. clear Hb1 Hid1 Hn1 Hu1 Hd1 Hcs.
  pose proof (fun d => down_fan_dests d dests Hfew) as Hfan.
  edestruct (Start_ok (fun s => done_with (UpThreadTrace_Init None s)) (fun _ s => done_with (cm_thread_init s)) (atoi recovery) w2)
    as (w' & s' & E & Hlaunch); [exact Hokd|exact Hb2|rewrite Hn2; simpl; lia| |].
  { intros sc Hsc. apply (worker_consistent _ _ n _ _ 0 (Z.of_nat (length dests)) new_UpThreadTrace (dests <> [])); try done.
    - rewrite Hc2. simpl. lia.
    - by rewrite Hc2.
    - destruct (down_thread_ w2); [by eexists|done].
    - destruct (down_thread_ w2) as [d|]; [|subst dests; simpl; lia]. destruct Hd2 as (_ & En & Ec). rewrite (Hfan _ En), Nat2Z.id. lia.
    - by apply trace_init_ok.
    - intros _. by apply cm_init_ok.
    - apply (down_handler_ok dests); [done|done|]. intros d Ed. rewrite Ed in Hd2. apply Hd2. }
  rewrite E. clear E. exists w', s'. split; [reflexivity|].
  destruct (launch_running _ _ _ _ w2 w' (Z.to_nat n) 0 (length dests) Hb2 Hlaunch) as (H1 & H2 & H3);
    [rewrite Hn2; simpl; lia|lia|by rewrite Hc2| | |].
  - exists new_UpThreadTrace. split_and!; [done|done|simpl; lia].
  - destruct (down_thread_ w2) as [d|]; [|by subst dests]. destruct Hd2 as (_ & En & Ec). rewrite (Hfan _ En). lia.
  - split_and!; [exact H1| |].
    + intros Hne. destruct (down_thread_ w2) as [d|]; [|done]. destruct Hd2 as (_ & En & _).
      destruct (H2 d eq_refl) as (d' & Hd' & En'). exists d'. by rewrite En', En.
    + rewrite Hid2 in H3. exact H3.
Qed.

Lemma new_net_kind num_in n (rev rev' : Mpsc.store B) (u : UpThread In) :
  new_UpThreadNet garbage_id num_in n rev = (u, rev') ->
  exists net, u = mkup new_ThreadBase (UpNet net) /\ n_num_upstream_ net = num_in /\
    length (out_callbacks_ net) = Z.to_nat num_in /\ support_feedback_ net = true.
Proof.
  unfold new_UpThreadNet. destruct (Nat.iter _ _ _) as [cbs h] eqn:E. intros [= <- <-]. eexists. split; [done|]. cbn.
  split_and!; [done| |done]. revert cbs h E. induction (Z.to_nat num_in) as [|m IH]; intros cbs h E; simpl in E; [by injection E as <- _|].
  destruct (Nat.iter m _ _) as [cbs1 h1]. specialize (IH cbs1 h1 eq_refl).
  unfold add_callback, new_OutCallbackSimple, new_object in E. simpl in E. injection E as <- _. rewrite length_app. simpl. lia.
Qed.

(** A complete configuration of a worker that listens and writes to a file. *)
Record merge_config (n recovery : Z) (num_in : Z) : Prop := mkmerge_config {
  mc_worker : worker_config n recovery False;
  mc_num : int_value (lit "num_upstreams") 0 = num_in;
  mc_output : is_Some (string_value (lit "outputFile"));
  mc_listen : exists addr r, string_value (lit "listen_addr") = Some addr /\
    NetThreads.UpThreadInit getifaddrs getaddrinfo tt options addr fds bind = Ok r
}.

(** A worker of the merge program starts: with a complete configuration and an
    address it can listen on, [main] releases its [n] compute threads, and every
    thread has its ids, its ring to the up thread and a feedback channel to each
    upstream worker.  Nothing needs to be known about the number of upstream
    workers. *)
Theorem merge_main_starts getInstance prog config_name worker_name recovery s0 n num_in :
  getInstance config_name worker_name = Ok s0 -> cfg_ok s0 -> merge_config n (atoi recovery) num_in ->
  exists w' s', merge_main getInstance [prog; config_name; worker_name; recovery] = Ok (Some (w', s')) /\
    length (compute_threads_ w') = Z.to_nat n /\
    forall t, (t < Z.to_nat n)%nat -> exists c, compute_threads_ w' !! t = Some c /\
      running (int_value (lit "worker_id") (-1)) (Z.to_nat n) (Z.to_nat num_in) 0 w' t c.
Proof.
  intros Hget Hok [Hwc Hnum [f Hout] (addr & r & Haddr & Hinit)]. pose proof Hwc as [Hn Hrange Hid Ha Hrec Hsk].
  unfold merge_main. rewrite Hget. cbn [mbind result_bind]. query. rewrite Hn, (proj2 (Z.eqb_neq n 0)) by lia. query.
  rewrite (proj2 (Z.leb_le _ _)) by done. cbn [afs_assert mbind result_bind]. query. rewrite Haddr. query. rewrite Hnum.
  set (w0 := new_Worker (int_value (lit "worker_id") (-1)) n [] []).
  destruct (new_UpThreadNet garbage_id num_in n (rev_ w0)) as [u rev] eqn:Hu.
  destruct (new_net_kind _ _ _ _ _ Hu) as (net & -> & Hin & Hcbs & Hsf). cbn [u_base u_kind].
  set (w1 := set_stores _ rev _).
  assert (Hb1 : built w1) by (eapply built_net; [apply built_new|exact Hu]).
  destruct (add_computes_spec num_in 0 (Z.to_nat n) w1 Hb1) as (Hb2 & Hid2 & Hn2 & Hu2 & Hd2 & cs & Hcs & Hl & Hnums).
  set (w2 := Nat.iter (Z.to_nat n) (add_compute num_in 0) w1) in *.
  assert (Hfan : up_fan (mkup new_ThreadBase (UpNet (AddSource addr net))) = Z.to_nat num_in)
    by (unfold up_fan, IsReverse, GetNumUpstream; cbn [u_kind AddSource support_feedback_ n_num_upstream_]; by rewrite Hsf, Hin).
  edestruct (Start_ok (fun _ => done_with (NetThreads.UpThreadInit getifaddrs getaddrinfo tt options addr fds bind))
    (fun t s => done_with (merge_thread_init t s)) (atoi recovery) w2) as (w' & s' & E & Hlaunch);
    [eassumption|exact Hb2|rewrite Hn2; simpl; lia| |].
  { intros sc Hsc. apply (worker_consistent _ _ n _ _ num_in 0 (mkup new_ThreadBase (UpNet (AddSource addr net))) False); try done.
    - rewrite Hcs. simpl. lia.
    - by rewrite Hcs.
    - by rewrite Hd2.
    - by rewrite Hinit.
    - intros t. by eapply merge_init_ok.
    - unfold down_handler. by rewrite Hd2. }
  rewrite E. clear E. exists w', s'. split; [reflexivity|].
  destruct (launch_running _ _ _ _ w2 w' (Z.to_nat n) (Z.to_nat num_in) 0 Hb2 Hlaunch) as (H1 & _ & H3);
    [rewrite Hn2; simpl; lia|lia|by rewrite Hcs| |by rewrite Hd2|].
  - eexists. split; [exact Hu2|]. split; [exact Hfan|]. cbn [up_cbs u_kind AddSource out_callbacks_]. lia.
  - rewrite Hid2 in H3. by split.
Qed.

End Programs.

(** ** Samples *)

Section Sample.

(** An ini file for one worker of each program, and the contents of a trace. *)
Definition sample_ini : list (cstr * cstr) :=
  [(lit "w1:num_compute_threads", lit "2"); (lit "w1:worker_id", lit "0"); (lit "w1:num_downstreams", lit "1");
   (lit "w1:downstream_addr0", lit "tcp://10.1.2.3:5000"); (lit "w1:adapter_type", lit "ram");
   (lit "w1:memory_buffer_size", lit "100"); (lit "w1:trace_file", lit "trace.txt"); (lit "w1:row", lit "2"); (lit "w1:width", lit "8");
   (lit "w1:sys.cpu_affinity", lit "0;1,2,;3;4"); (lit "w1:outputFile", lit "out");
   (lit "w2:num_compute_threads", lit "1"); (lit "w2:worker_id", lit "1"); (lit "w2:num_upstreams", lit "1");
   (lit "w2:listen_addr", lit "tcp://*:5000"); (lit "w2:outputFile", lit "out"); (lit "w2:row", lit "2"); (lit "w2:width", lit "8")].

Definition sample_load (f : cstr) : option (list (cstr * cstr)) := if bool_decide (f = lit "cm.ini") then Some sample_ini else None.
Definition sample_file (f : cstr) : option (list Z) := if bool_decide (f = lit "trace.txt") then Some [97; 98; 10] else None.

Definition sample_get (config_name worker_name : cstr) : result (object (dictionary := list (cstr * cstr))) :=
  c ← Config.getInstance sample_load None (Config.zeros 1024) (Some config_name) worker_name; Ok (c, Config.zeros 1025).

#[local] Instance sample_configuration : Configuration (object (dictionary := list (cstr * cstr))) :=
  object_configuration Config.sample_getstring Config.sample_getint.

(** The promise of the object for a section of the file. *)
Definition sample_spec (sec : cstr) (H1 : bool_decide (Config.NUL ∉ sec) = true) (H2 : bool_decide (length sec <= 900)%nat = true)
    : ConfigurationSpec (object (dictionary := list (cstr * cstr))) :=
  object_spec Config.sample_getstring Config.sample_getint sample_ini sec
    (bool_decide_eq_true_1 _ H1) (bool_decide_eq_true_1 _ H2).

Definition sample_state (sec : cstr) : object (dictionary := list (cstr * cstr)) :=
  match sample_get (lit "cm.ini") sec with Ok s => s | Stop _ => (Config.mkConfig None [], []) end.

Abbreviation sample_worker := (Worker Z Z (nat * Z) (nat * Z)).
Abbreviation sample_cm_main := (cm_main (In := Z) (RIn := Z) sample_file 0 0 0 1 0 zero_item zero_item (0%nat, 0) (0%nat, 0) 7 5 sample_slot sample_slot
  [] sample_getaddrinfo Options.new_options Connecter.sample_oracle {[0; 1; 2]} sample_get
  [lit "cm_worker"; lit "cm.ini"; lit "w1"; lit "0"]).

Lemma cm_main_starts_witness :
  exists w' s', sample_cm_main = Ok (Some (w', s')) /\ length (compute_threads_ w') = 2%nat /\
    exists d, down_thread_ w' = Some d /\ NetThreads.connect_addrs_ (d_net d) = [lit "tcp://10.1.2.3:5000"].
Proof.
  edestruct (cm_main_starts (ConfigurationSpec0 := sample_spec (lit "w1") eq_refl eq_refl)
    sample_file 0 0 0 1 0 zero_item zero_item (0%nat, 0) (0%nat, 0) 7 5 sample_slot sample_slot
    [] sample_getaddrinfo Options.new_options Connecter.sample_oracle {[0; 1; 2]} sample_get
    (lit "cm_worker") (lit "cm.ini") (lit "w1") (lit "0") (sample_state (lit "w1")) 2 [lit "tcp://10.1.2.3:5000"])
    as (w' & s' & Hrun & Hlen & Hd & _).
  - vm_compute. reflexivity.
  - split_and!; vm_compute; reflexivity.
  - split; [split| | | | |].
    + vm_compute. reflexivity.
    + done.
    + vm_compute. done.
    + intros str [= <-]. split; [|done]. intros field [= <-]. vm_compute. done.
    + intros Hr. vm_compute in Hr. done.
    + split; vm_compute; done.
    + exists (lit "trace.txt"), [97; 98; 10]. split_and!; [vm_compute; reflexivity|reflexivity|]. right.
      split_and!; [vm_compute; reflexivity|vm_compute; reflexivity|]. repeat constructor; lia.
    + vm_compute. reflexivity.
    + done.
    + intros [|i] addr Hi; [|done]. injection Hi as <-. vm_compute. reflexivity.
    + repeat constructor. eexists. vm_compute. reflexivity.
  - split_and!; [split; simpl; lia|exact Connecter.sample_oracle_ok|].
    rewrite !not_elem_of_union, !not_elem_of_singleton. unfold Poller.retired_fd. lia.
  - exists w', s'. split_and!; [exact Hrun|exact Hlen|]. apply Hd. done.
Defined.

Definition sample_bind : Listener.bind_answers := Listener.mkbind 7 false (-1) true true.

Abbreviation sample_merge_main := (merge_main (In := Z) (RIn := Z) 0 1 (fun _ => true) 0 zero_item zero_item (0%nat, 0) (0%nat, 0) 7 5 sample_slot sample_slot
  [] sample_getaddrinfo Options.new_options Connecter.sample_oracle {[0; 1; 2]} sample_bind sample_get
  [lit "merge_worker"; lit "cm.ini"; lit "w2"; lit "0"]).

Lemma merge_main_starts_witness :
  exists w' s', sample_merge_main = Ok (Some (w', s')) /\ length (compute_threads_ w') = 1%nat.
Proof.
  edestruct (merge_main_starts (ConfigurationSpec0 := sample_spec (lit "w2") eq_refl eq_refl)
    0 1 (fun _ => true) 0 zero_item zero_item (0%nat, 0) (0%nat, 0) 7 5 sample_slot sample_slot
    [] sample_getaddrinfo Options.new_options Connecter.sample_oracle {[0; 1; 2]} sample_bind sample_get
    (lit "merge_worker") (lit "cm.ini") (lit "w2") (lit "0") (sample_state (lit "w2")) 1 1)
    as (w' & s' & Hrun & Hlen & _).
  - vm_compute. reflexivity.
  - split_and!; vm_compute; reflexivity.
  - split; [split| | |].
    + vm_compute. reflexivity.
    + done.
    + vm_compute. done.
    + intros str. vm_compute. done.
    + intros Hr. vm_compute in Hr. done.
    + split; vm_compute; done.
    + vm_compute. reflexivity.
    + exists (lit "out"). vm_compute. reflexivity.
    + exists (lit "tcp://*:5000"). eexists. split; [vm_compute; reflexivity|]. vm_compute. reflexivity.
  - exists w', s'. split; [exact Hrun|exact Hlen].
Defined.

End Sample.

End Programs.
